(* ===== verification/_CoqProject ===== *)
-Q . S2P
Prelude.v
RustStr.v
RustNum.v
Numeric.v
IpAddr.v
Json.v
Types.v
ConfigCore.v
ServiceConfig.v
Http.v
Normalizer.v
Taxonomy.v
CanonicalTaxonomy.v
LlmAnswer.v
LlmBudget.v
LlmConfig.v
LlmProvider.v
Db.v
Io.v
Wp.v
Texts.v
Pagination.v
Iam.v
IamRoutes.v
IamInvariants.v
Auth.v
AdminAccess.v
Credentials.v
Sessions.v
AccessDemo.v
Activation.v
LlmWorker.v
LlmJobs.v
LlmLifecycle.v
LlmReconcile.v
Reclass.v
PageFetch.v
Ingest.v
IngestProps.v
IngestDemo.v
PolicyStore.v
Evaluator.v
AdminPolicies.v
PolicyLifecycle.v
PolicyPublish.v
AdminTaxonomy.v
TaxonomyEditing.v
PolicyEngine.v
AdminClassifications.v
ClassificationTables.v
ClassificationExchange.v
ClassificationFlow.v
ClassificationDemo.v
IcapParse.v
Cache.v
AdminRecords.v
AdminOverrides.v
IcapResponse.v
IcapAdaptor.v
EndToEnd.v
OpsHealth.v
Reporting.v
ReportingProps.v
OdctlSession.v
OdctlQueue.v
OdctlAdmin.v
OdctlDoctor.v
OdctlDemo.v
OdctlPolicy.v
