(* ===== verification/Prelude.v ===== *)
(** * Open Defender ICAP: verification library

    Open Defender ICAP filters web traffic.  A proxy hands each request to the ICAP adaptor; the
    adaptor normalises the target, looks for a cached decision and otherwise asks the policy
    engine; the policy engine answers from manual overrides, from the rules of the active policy,
    from persisted classifications and from the taxonomy activation profile.  Sites without a
    classification are queued: the page fetcher stores their text, the LLM worker classifies them,
    the reclassification worker queues them again when they are due, and the event ingester turns
    proxy logs into indexed events and further fetches.  The admin API edits users and roles,
    overrides, policies, the activation profile and classifications, and tells the caches and the
    engine what changed.  This library models these parts and proves what they promise each other.
    Paths below are relative to the repository.

    ** Parts, files and source

    Foundations:
    - [Prelude]: results, 32-bit casts, stable sorting by a key, duplicate removal; the hint
      database [od] and the tactics [inv_ok] and [split_matches].
    - [RustStr], [RustNum], [IpAddr]: the strings, integers, floating point and addresses of Rust's
      standard library as the code uses them; [Numeric]: the columns of type [NUMERIC(5,4)].
    - [Json]: documents and derived (de)serialisation; [Texts]: Base64, times and identifiers as text.
    - [Db]: the tables of the policy engine with a script of failing statements.  [Io]: the monad of
      the other services (clock, tables, identifiers, a trace of effects, a script of failures,
      transactions), with its relational and its triple rules; [Wp]: weakest preconditions for it,
      used where tables have invariants.
    - [Types]: the structs and enums of [crates/common-types/src/lib.rs] and
      [crates/policy-dsl/src/lib.rs]; the third-party functions of the shared crates ([Externals]).
    - [Http]: error values and [require_roles]; [Pagination]: [services/admin-api/src/pagination.rs]
      and the keyset listings built on it.

    Deciding:
    - [ConfigCore]: [crates/config-core/src/lib.rs]; [ServiceConfig]: the configuration of the
      adaptor and of the policy engine with their [validate_config].
    - [Normalizer]: [crates/common-types/src/normalizer.rs]; [Taxonomy]: [crates/taxonomy/src/lib.rs],
      [CanonicalTaxonomy]: [config/canonical-taxonomy.json]; [Activation]:
      [crates/taxonomy/src/activation.rs].
    - [PolicyStore], [Evaluator], [PolicyEngine]: [services/policy-engine/src] ([store.rs];
      [evaluator.rs]; [main.rs], [auth.rs]): rules and their storage, the activation gate and
      reloading, overrides, hints from persisted classifications and the handlers.
    - [IcapParse], [IcapResponse], [Cache], [IcapAdaptor]: [services/icap-adaptor/src] ([icap.rs];
      [main.rs]; [cache.rs] with [services/admin-api/src/cache.rs]; the life of a connection with
      [jobs.rs], [policy_client.rs], [pending_client.rs]).
    - [EndToEnd]: the adaptor with the policy engine behind it and the overrides of the admin API.

    Classifying:
    - [LlmAnswer], [LlmBudget], [LlmConfig], [LlmProvider], [LlmWorker], [LlmJobs], [LlmLifecycle],
      [LlmReconcile]: [workers/llm-worker/src/main.rs] and [sanitizer.rs]: reading model answers,
      budgets, configuration, providers with retries and fallback, tables, jobs with guardrails, the
      life of a job in the queue, and the reconciler.
    - [Reclass]: [workers/reclass-worker/src/main.rs]; [PageFetch]:
      [workers/page-fetcher/src/main.rs].
    - [Ingest], [IngestProps], [IngestDemo]: [services/event-ingester/src]: configuration, the normalisation of
      proxy log events, bulk indexing and fetch jobs.

    Administration ([services/admin-api/src]):
    - [Iam], [IamRoutes], [IamInvariants]: users, groups, roles, service accounts and tokens
      ([iam.rs]); [Auth]: tokens, sessions and login ([auth.rs]); [AdminAccess], [Credentials],
      [Sessions]: what they promise; [AccessDemo]: their witnesses.
    - [AdminOverrides]: the override handlers of [main.rs].
    - [AdminPolicies], [PolicyLifecycle], [PolicyPublish]: [policies.rs].
    - [AdminTaxonomy], [TaxonomyEditing]: [taxonomy.rs].
    - [AdminClassifications], [ClassificationTables], [ClassificationExchange],
      [ClassificationFlow], [ClassificationDemo]: [classifications.rs] and
      [classification_requests.rs].
    - [AdminRecords]: [page_contents.rs], [cli_logs.rs], [cache_entries_api.rs], [audit.rs];
      [OpsHealth]: [ops_health.rs]; [Reporting], [ReportingProps]: [reporting.rs] and
      [reporting_es.rs].

    The command line ([cli/odctl/src/main.rs]):
    - [OdctlSession]: the session file, its renewal, the device login and the client of the API;
      [OdctlQueue]: dead letters, with those the workers write; [OdctlAdmin]: credentials as the API
      takes them and the recovery of a password, on the tables of [Iam]; [OdctlDoctor]: the check of
      the configuration, with [validate_config] of [services/admin-api/src/main.rs]; [OdctlPolicy]:
      policies as files, against the handlers of [AdminPolicies], and the arguments of overrides;
      [OdctlDemo]: their runs.

    State is explicit.  A handler is a function from its input and the state to a [result] and the
    state afterwards; an early return with [?] leaves the effects of what ran before it.  Statements
    and commands may fail: [db_faults], [os_faults], [cw_faults], [lw_faults] and [io_faults] are
    scripts of which of them do, and theorems quantify over the script.  What a service sends
    (responses, jobs, invalidations, audit events) is a trace of effects in the order of the calls.
    Requests are served one after the other: interleavings within a request are not modelled, those
    between requests and workers are sequences of steps.  Maps and sets are [gmap] and [gset];
    integers are [Z] with the casts between widths written out.

    ** What the theorems show

    - Decisions.  The rule of lowest priority number wins in a store loaded from a document; the most
      specific override wins, a block before an allow, in any order of the rows; every decision is
      explained by its source; an override stored by the admin API is enforced at the proxy.
    - The adaptor.  Wire messages are read back, whatever fields they carry and wherever the [Host]
      field stands; only a cached decision or one with a known category lets a request through while
      content is required; pending sites get their page, jobs
      and cache entry; after an override is announced Redis and the memory have forgotten exactly the
      keys of its scope.
    - Policies, activation, overrides.  Policy requests refine a machine on a map of policies with one
      active policy; a published policy is served by the engine after its reload; only publishers
      activate; errors of the caller change nothing; after a saved activation and the reload that
      goes with it the engine decides every request by what was saved, and what is shown is what an
      engine with the stored profile decides; the override table keeps one active row per scope.
    - Accounts.  Tables keep their constraints and the protected administrator through any requests
      and failures; whoever is let in is vouched for by the tables; revoked tokens never work again;
      a refresh token is used once; issued tokens are accepted until they expire.
    - Classifications.  The tables stay sound; a classification by hand decides; exported bundles are
      read back as they are, or with the fields the importing engine decides; dry runs predict, and a
      request for a classification from metadata reaches the worker.
    - Workers.  Whatever models answer, only guarded rows are stored; the queue drains and every job
      settles; one open reclassification job per key; a dispatched batch is read back; a fetch ends
      with a new version and versions stay within their limits.
    - Events.  Normalisation keeps what an event says and can be repeated; the client address of an
      event is the peer's unless the peer is trusted; the bulk body is read back; a bulk request is
      retried as often as configured; fetch jobs are read by the page fetcher.
    - Reports.  Fetched pages are shown as they were stored, the latest first; a row deleted
      from the table of cached decisions (which no service here writes) is shown under no variant of
      its key; a health report is recent and adds up; the
      dashboard counts documents under the categories of the classification tables.
    - The command line.  A device login ends and keeps the provider's pace; a replay of dead letters
      loses none, whatever fails; a recovered password lets its user in, if active, and voids the
      sessions from before; the doctor foresees what the services refuse at their start, but for
      what it does not look at; a pulled policy can be pushed.
    - Listings.  A client that follows cursors ends and has seen every row once and in order, unless
      a page ends with a row without a name in a listing by name.

    Where modelling showed the code to differ from its documentation or its intent, an example
    states the behaviour; the modules named [...Demo] and [IcapExamples] hold them, with the concrete
    instances of the parameters at which the witnesses evaluate.

    ** Interfaces and parameters

    Components meet in classes and records: [CategoryResolver] with [CategoryResolverLaws] is what
    the policy store needs of the taxonomy, and [PolicyStore.good_resolver_laws] discharges it for
    the store of a validated taxonomy; [policy_evaluate] is what the adaptor needs of the policy
    engine, and [EndToEnd.engine_answer] is its instance; [Anchor] is what a listing needs of its
    cursor.  Code outside the repository is a parameter, with its documented behaviour as laws where
    a theorem needs them: [Unicode], [Externals] with [PslLaws] and [IdnaLaws] (URL parsing, IDNA,
    the public suffix list), [UrlPrinter], [SerdeJson], [CacheJson], [JsonText], [JsonArrays] and
    [JsonLines] (JSON as text and as column), [RedisServer] with [RedisLaws], [HttpNet] (model
    providers), [CrawlNet] (the crawl service), [Base64], [Texts], [HealthNet] (the probes of the health
    report), [CliNet] (the services a command talks to), [RedisStreams] with [StreamLaws], [Collation] (the order of texts in
    the database), [Secrets] and [Digests] (Argon2, SHA-256, HMAC), and functions such as
    [read_policy_file], [Uuid_parse_str], [page_contents], [timestamp] and [sql_lower].

    ** Fuel

    Splitting, trimming and printing recurse on fuel computed from the input: the length of the
    string or the bit size of the number.  [Cache.scan_loop] follows the cursor of [SCAN]; that an
    iteration over a keyspace that does not grow ends is a documented guarantee of Redis
    ([RedisLaws]), and the coherence theorem proves that the loop answers for every large enough
    fuel.  [LlmLifecycle.drain] takes as many rounds as its entries have attempts left, which
    [queue_drains] proves to be enough; [OdctlSession.poll_token] one round per second the device code
    lives and one more, as every round waits a second at least; [Pagination.walk] one page per row and one more.  Retries are
    counted as in the code.

    ** Not modelled

    Logging, metrics, sockets, service startup and the JSON syntax of configuration files.
    The commands of [cli/odctl] that only print an answer of the API or turn flags into a request, its
    migrations and its smoke test are left out, and so are the files it reads and writes as text:
    documents stand for them.  The crawl service and the web interface are not Rust.  Claiming stream entries of dead consumers, templates of
    Elasticsearch and the interleaving of two requests are left out. *)

From stdpp Require Export base list gmap strings pretty sorting.
From Stdlib Require Export ZArith Lia.
From Stdlib Require Import SpecFloat.

(** ** Results: Rust's [Result<A, E>] *)

Inductive result (E A : Type) : Type :=
  | Ok (a : A)
  | Err (e : E).
Arguments Ok {E A} a.
Arguments Err {E A} e.

Global Instance result_ret E : MRet (result E) := fun A a => Ok a.
Global Instance result_bind E : MBind (result E) := fun A B f r =>
  match r with Ok a => f a | Err e => Err e end.
Global Instance result_fmap E : FMap (result E) := fun A B f r =>
  match r with Ok a => Ok (f a) | Err e => Err e end.

(** [Result::ok]. *)
Definition result_ok {E A} (r : result E A) : option A :=
  match r with Ok a => Some a | Err _ => None end.

(** [Option::ok_or]. *)
Definition ok_or {E A} (o : option A) (e : E) : result E A :=
  match o with Some a => Ok a | None => Err e end.

(** [Result::map_err]. *)
Definition map_err {E F A} (f : E -> F) (r : result E A) : result F A :=
  match r with Ok a => Ok a | Err e => Err (f e) end.

Definition is_ok {E A} (r : result E A) : bool :=
  match r with Ok _ => true | Err _ => false end.

Lemma bind_Ok {E A B} (r : result E A) (f : A -> result E B) b :
  (r ≫= f) = Ok b <-> exists a, r = Ok a /\ f a = Ok b.
Proof. destruct r; cbn; split; [eauto | by intros (? & [= ->] & ?) | done | by intros (? & ? & ?)]. Qed.

Lemma bind_Err {E A B} (r : result E A) (f : A -> result E B) e :
  (r ≫= f) = Err e <-> r = Err e \/ exists a, r = Ok a /\ f a = Err e.
Proof.
  destruct r; cbn; split.
  - intros H. right. by exists a.
  - intros [H|(a' & H & ?)]; [discriminate H | by injection H as ->].
  - intros [= ->]. by left.
  - intros [H|(a' & H & ?)]; [by injection H as -> | discriminate H].
Qed.

Lemma ok_or_Ok {E A} (o : option A) (e : E) a : ok_or o e = Ok a <-> o = Some a.
Proof. destruct o; cbn; split; congruence. Qed.

(** [Iterator::map(..).collect::<Result<Vec<_>>>()], or a loop that pushes and uses [?]. *)
Fixpoint try_map {E A B} (f : A -> result E B) (l : list A) : result E (list B) :=
  match l with
  | [] => Ok []
  | x :: l' => y ← f x; ys ← try_map f l'; Ok (y :: ys)
  end.

Lemma try_map_Ok {E A B} (f : A -> result E B) l k :
  try_map f l = Ok k <-> Forall2 (fun x y => f x = Ok y) l k.
Proof.
  revert k; induction l as [|x l IH]; intros k; cbn.
  - split; [intros [= <-]; constructor | by inversion 1].
  - split.
    + intros (y & Hy & (ys & Hys & [= <-])%bind_Ok)%bind_Ok.
      constructor; [done | by apply IH].
    + intros H; inversion H as [|? y ? ys Hy Hys]; simplify_eq.
      rewrite Hy; cbn. apply IH in Hys. by rewrite Hys.
Qed.

Lemma try_map_Ok_length {E A B} (f : A -> result E B) l k :
  try_map f l = Ok k -> length k = length l.
Proof. by intros ?%try_map_Ok%Forall2_length. Qed.

Lemma try_map_ext_Ok {E A B} (f : A -> result E B) (g : A -> B) l :
  (forall x, x ∈ l -> f x = Ok (g x)) -> try_map f l = Ok (g <$> l).
Proof.
  induction l as [|x l IH]; intros H; cbn; [done|].
  rewrite H by (by constructor). cbn. rewrite IH; [done|].
  intros y Hy; apply H; by constructor.
Qed.

(** ** Machine integers *)

Definition u32_max : Z := 2 ^ 32 - 1.
Definition i32_max : Z := 2 ^ 31 - 1.
Definition i32_min : Z := - 2 ^ 31.
Definition is_u32 (z : Z) : Prop := (0 <= z <= u32_max)%Z.
Definition is_i32 (z : Z) : Prop := (i32_min <= z <= i32_max)%Z.

(** [x as i32] from [u32] and [x as u32] from [i32]: two's complement truncation. *)
Definition as_i32 (z : Z) : Z := ((z + 2 ^ 31) mod 2 ^ 32 - 2 ^ 31)%Z.
Definition as_u32 (z : Z) : Z := (z mod 2 ^ 32)%Z.

Lemma as_i32_range z : is_i32 (as_i32 z).
Proof.
  unfold is_i32, as_i32, i32_min, i32_max.
  pose proof (Z.mod_pos_bound (z + 2 ^ 31) (2 ^ 32)). lia.
Qed.

Lemma as_u32_range z : is_u32 (as_u32 z).
Proof.
  unfold is_u32, as_u32, u32_max.
  pose proof (Z.mod_pos_bound z (2 ^ 32)). lia.
Qed.

Lemma as_u32_as_i32 z : is_u32 z -> as_u32 (as_i32 z) = z.
Proof.
  unfold is_u32, u32_max, as_u32, as_i32; intros Hz.
  rewrite Zminus_mod_idemp_l.
  replace (z + 2 ^ 31 - 2 ^ 31)%Z with z by lia. apply Z.mod_small; lia.
Qed.

Lemma as_i32_small z : (0 <= z <= i32_max)%Z -> as_i32 z = z.
Proof. unfold i32_max, as_i32; intros. rewrite Z.mod_small; lia. Qed.

(** ** Floating point: [f32] and [f64] as IEEE values *)

Definition float := spec_float.
Definition f32_prec : Z := 24.
Definition f32_emax : Z := 128.
(** [value as f32] for a finite [f64]: round to nearest even. *)
Definition f64_as_f32 (x : float) : float :=
  match x with
  | S754_finite s m e =>
      binary_normalize f32_prec f32_emax (if s then Zneg m else Zpos m) e s
  | _ => x
  end.
Definition f32_half : float := S754_finite false (2 ^ 23) (-24).
Definition f32_one : float := S754_finite false (2 ^ 23) (-23).
Definition f64_half : float := S754_finite false (2 ^ 52) (-53).

Example f64_as_f32_half : f64_as_f32 f64_half = f32_half.
Proof. vm_compute. reflexivity. Qed.

(** ** Lists *)

(** [Iterator::any]. *)
Definition any {A} (f : A -> bool) (l : list A) : bool := existsb f l.

Lemma any_true {A} (f : A -> bool) l : any f l = true <-> exists x, x ∈ l /\ f x = true.
Proof. unfold any. rewrite existsb_exists. by setoid_rewrite list_elem_of_In. Qed.

Lemma any_false {A} (f : A -> bool) l : any f l = false <-> forall x, x ∈ l -> f x = false.
Proof.
  rewrite <- not_true_iff_false, any_true. split.
  - intros H x Hx. destruct (f x) eqn:E; [|done]. exfalso; eauto.
  - intros H (x & Hx & E). by rewrite H in E.
Qed.

(** First element satisfying a test: [for x in l { if f(x) { return .. } }]. *)
Fixpoint find_first {A} (f : A -> bool) (l : list A) : option A :=
  match l with
  | [] => None
  | x :: l' => if f x then Some x else find_first f l'
  end.

Lemma find_first_Some {A} (f : A -> bool) l x :
  find_first f l = Some x <->
  exists l1 l2, l = l1 ++ x :: l2 /\ f x = true /\ forall y, y ∈ l1 -> f y = false.
Proof.
  induction l as [|y l IH]; cbn.
  - split; [done|]. intros (l1 & l2 & H & _). by destruct l1.
  - destruct (f y) eqn:E.
    + split.
      * intros [= <-]. exists [], l. split_and!; [done|done|]. by intros z ?%elem_of_nil.
      * intros (l1 & l2 & H & Hx & Hl1). destruct l1 as [|z l1]; simplify_eq/=; [done|].
        rewrite (Hl1 z) in E by constructor. done.
    + rewrite IH. split.
      * intros (l1 & l2 & -> & Hx & Hl1). exists (y :: l1), l2. split_and!; [done..|].
        intros z [->|Hz]%elem_of_cons; auto.
      * intros (l1 & l2 & H & Hx & Hl1). destruct l1 as [|z l1]; simplify_eq/=; [congruence|].
        exists l1, l2. split_and!; [done..|]. intros w Hw. apply Hl1. by constructor.
Qed.

Lemma find_first_None {A} (f : A -> bool) l :
  find_first f l = None <-> forall x, x ∈ l -> f x = false.
Proof.
  induction l as [|y l IH]; cbn.
  - split; [|done]. intros _ x ?%elem_of_nil. done.
  - destruct (f y) eqn:E; split; try done.
    + intros H. rewrite (H y) in E by constructor. done.
    + intros H x [->|Hx]%elem_of_cons; [done|]. by apply IH.
    + intros H. apply IH. intros x Hx. apply H. by constructor.
Qed.

Lemma filter_all_false {A} (P : A -> Prop) `{!forall x, Decision (P x)} l :
  Forall (fun x => ~ P x) l -> filter P l = [].
Proof. induction 1 as [|x l Hx _ IH]; [done|]. by rewrite filter_cons_False. Qed.

Lemma NoDup_fmap_unique {A B} (f : A -> B) l x y :
  NoDup (f <$> l) -> x ∈ l -> y ∈ l -> f x = f y -> x = y.
Proof.
  intros H (i & Hi)%list_elem_of_lookup (k & Hk)%list_elem_of_lookup E. assert (i = k) as ->; [|congruence].
  eapply (NoDup_lookup _ _ _ (f x)); [exact H|by rewrite list_lookup_fmap, Hi|by rewrite list_lookup_fmap, Hk, E].
Qed.

(** Filters by a boolean test. *)
Global Instance filter_perm {A} (p : A -> bool) : Proper (Permutation ==> Permutation) (List.filter p).
Proof.
  intros l l'. induction 1 as [|x l l' _ IH|x y l|l1 l2 l3 _ IH1 _ IH2]; cbn; repeat case_match; eauto using Permutation.
Qed.

Lemma filter_sublist {A} (p : A -> bool) l : List.filter p l `sublist_of` l.
Proof. induction l as [|x l IH]; cbn; [done|]. destruct (p x); by constructor. Qed.

Lemma filter_all {A} (p : A -> bool) l : (forall x, x ∈ l -> p x = true) -> List.filter p l = l.
Proof. induction l as [|x l IH]; intros H; cbn; [done|]. rewrite H by (by left). f_equal. apply IH. intros y Hy. apply H. by right. Qed.
Lemma filter_none {A} (p : A -> bool) l : (forall x, x ∈ l -> p x = false) -> List.filter p l = [].
Proof. induction l as [|x l IH]; intros H; cbn; [done|]. rewrite H by (by left). apply IH. intros y Hy. apply H. by right. Qed.
Lemma filter_comm {A} (p q : A -> bool) l : List.filter p (List.filter q l) = List.filter q (List.filter p l).
Proof. induction l as [|x l IH]; cbn; [done|]. destruct (p x) eqn:Ep, (q x) eqn:Eq; cbn; rewrite ?Ep, ?Eq, ?IH; done. Qed.

(** Keep the first occurrence of every element, in order. *)
Fixpoint dedupe_from {A} `{EqDecision A} (seen : list A) (l : list A) : list A :=
  match l with
  | [] => []
  | x :: l' => if decide (x ∈ seen) then dedupe_from seen l' else x :: dedupe_from (x :: seen) l'
  end.

Lemma elem_of_dedupe_from {A} `{EqDecision A} (l seen : list A) x :
  x ∈ dedupe_from seen l <-> x ∈ l /\ x ∉ seen.
Proof.
  revert seen; induction l as [|y l IH]; intros seen; cbn; [set_solver|].
  case_decide; [rewrite IH; set_solver|].
  rewrite elem_of_cons, IH. destruct (decide (x = y)); set_solver.
Qed.

Lemma NoDup_dedupe_from {A} `{EqDecision A} (l seen : list A) : NoDup (dedupe_from seen l).
Proof.
  revert seen; induction l as [|y l IH]; intros seen; cbn; [constructor|].
  case_decide; [done|]. constructor; [|done]. rewrite elem_of_dedupe_from. set_solver.
Qed.

Lemma dedupe_from_sublist {A} `{EqDecision A} (l seen : list A) : dedupe_from seen l `sublist_of` l.
Proof.
  revert seen; induction l as [|y l IH]; intros seen; cbn; [constructor|].
  case_decide; by constructor.
Qed.

(** A fold whose steps commute does not depend on the order of the list. *)
Lemma foldl_permutation {A B} (f : B -> A -> B) :
  (forall b x y, f (f b x) y = f (f b y) x) ->
  forall l l', l ≡ₚ l' -> forall b, foldl f b l = foldl f b l'.
Proof.
  intros Hf l l'. induction 1 as [|x l l' _ IH|x y l|l1 l2 l3 _ IH1 _ IH2]; intros b; cbn.
  - done.
  - apply IH.
  - by rewrite Hf.
  - by rewrite IH1.
Qed.

(** Stable insertion sort by an integer key: [slice::sort_by_key]. *)
Section sort_by_key.
Context {A : Type} (key : A -> Z).

Fixpoint insert_by_key (x : A) (l : list A) : list A :=
  match l with
  | [] => [x]
  | y :: l' => if decide (key x <= key y)%Z then x :: y :: l' else y :: insert_by_key x l'
  end.

Fixpoint sort_by_key (l : list A) : list A :=
  match l with
  | [] => []
  | x :: l' => insert_by_key x (sort_by_key l')
  end.

Definition key_le (x y : A) : Prop := (key x <= key y)%Z.

Lemma insert_by_key_perm x l : insert_by_key x l ≡ₚ x :: l.
Proof.
  induction l as [|y l IH]; cbn; [done|]. case_decide; [done|].
  rewrite IH. apply Permutation_swap.
Qed.

Lemma sort_by_key_perm l : sort_by_key l ≡ₚ l.
Proof. induction l as [|x l IH]; cbn; [done|]. by rewrite insert_by_key_perm, IH. Qed.

Lemma insert_by_key_sorted x l :
  StronglySorted key_le l -> StronglySorted key_le (insert_by_key x l).
Proof.
  induction 1 as [|y l Hl IH Hy]; cbn; [repeat constructor|].
  case_decide as Hle.
  - constructor; [by constructor|]. constructor; [done|].
    eapply Forall_impl; [done|]. unfold key_le. intros z. lia.
  - constructor; [done|]. rewrite insert_by_key_perm. constructor; [|done].
    unfold key_le. lia.
Qed.

Lemma sort_by_key_sorted l : StronglySorted key_le (sort_by_key l).
Proof. induction l; cbn; [constructor | by apply insert_by_key_sorted]. Qed.

(** Stability: elements of one key keep their relative order. *)
Lemma insert_by_key_filter k x l :
  StronglySorted key_le l ->
  filter (fun y => key y = k) (insert_by_key x l) = filter (fun y => key y = k) (x :: l).
Proof.
  induction 1 as [|y l Hl IH Hy]; [done|].
  cbn [insert_by_key]. case_decide as Hle; [done|].
  rewrite !filter_cons in *. rewrite IH.
  repeat case_decide; simplify_eq; try done. lia.
Qed.

Lemma sort_by_key_stable k l :
  filter (fun y => key y = k) (sort_by_key l) = filter (fun y => key y = k) l.
Proof.
  induction l as [|x l IH]; [done|]. cbn [sort_by_key].
  rewrite insert_by_key_filter by apply sort_by_key_sorted.
  rewrite !filter_cons. by rewrite IH.
Qed.
End sort_by_key.

(** [sort_by_key] followed by [take]: what is left out is not before what is taken. *)
Lemma take_sorted {A} (key : A -> Z) n l x :
  x ∈ l -> let t := take n (sort_by_key key l) in
  x ∈ t \/ length t = n /\ forall y, y ∈ t -> (key y <= key x)%Z.
Proof.
  intros Hx t. assert (x ∈ sort_by_key key l) as Hs by by rewrite sort_by_key_perm.
  pose proof (sort_by_key_sorted key l) as Hsorted. rewrite <- (take_drop n (sort_by_key key l)) in Hs, Hsorted.
  apply elem_of_app in Hs as [Hs|Hs]; [by left|right]. split.
  - unfold t. rewrite length_take. apply list_elem_of_lookup_1 in Hs as [i Hi]. apply lookup_lt_Some in Hi.
    rewrite length_drop in Hi. lia.
  - intros y Hy. apply StronglySorted_app in Hsorted as (H & _ & _). by apply (H y x).
Qed.

Lemma head_sort_by_key {A} (key : A -> Z) l x :
  x ∈ l -> (forall y, y ∈ l -> y = x \/ (key x < key y)%Z) -> head (sort_by_key key l) = Some x.
Proof.
  intros Hx Hmin. assert (x ∈ sort_by_key key l) as Hs by by rewrite sort_by_key_perm.
  pose proof (sort_by_key_sorted key l) as Hsorted. pose proof (sort_by_key_perm key l) as Hp.
  destruct (sort_by_key key l) as [|y l']; [by apply elem_of_nil in Hs|]. cbn. f_equal.
  destruct (Hmin y) as [->|Hlt]; [rewrite <- Hp; by left|done|]. apply elem_of_cons in Hs as [->|Hs]; [done|].
  apply StronglySorted_inv in Hsorted as [_ Hall]. rewrite Forall_forall in Hall. specialize (Hall x Hs).
  unfold key_le in Hall. lia.
Qed.

Lemma filter_bool {A} (P : A -> Prop) `{!forall x, Decision (P x)} l : filter P l = List.filter (fun x => bool_decide (P x)) l.
Proof. induction l as [|x l IH]; [done|]. rewrite filter_cons. cbn. rewrite <- IH. by case_decide; case_bool_decide. Qed.
Lemma sort_by_key_fmap {A A'} (g : A -> A') (key : A' -> Z) l : sort_by_key key (g <$> l) = g <$> sort_by_key (fun x => key (g x)) l.
Proof.
  induction l as [|x l IH]; [done|]. cbn. rewrite IH. generalize (sort_by_key (fun x => key (g x)) l) as k. clear IH.
  induction k as [|y k IH]; [done|]. cbn. case_decide; [done|]. cbn. by rewrite IH.
Qed.

(** The first element of least key: what a scan of the sorted list meets first. *)
Fixpoint first_min {A} (key : A -> Z) (l : list A) : option A :=
  match l with
  | [] => None
  | x :: l' =>
      match first_min key l' with
      | None => Some x
      | Some y => if decide (key x <= key y)%Z then Some x else Some y
      end
  end.

Lemma first_min_Some {A} (key : A -> Z) l x :
  first_min key l = Some x -> x ∈ l /\ forall y, y ∈ l -> (key x <= key y)%Z.
Proof.
  revert x; induction l as [|z l IH]; intros x; cbn; [done|].
  destruct (first_min key l) as [y|] eqn:E.
  - destruct (IH y eq_refl) as [Hy Hmin]. case_decide; intros [= <-]; split; try set_solver.
    + intros w [->|Hw]%elem_of_cons; [lia|]. specialize (Hmin w Hw). lia.
    + intros w [->|Hw]%elem_of_cons; [lia|]. by apply Hmin.
  - intros [= <-]. split; [set_solver|]. intros w [->|Hw]%elem_of_cons; [lia|].
    destruct l as [|v l]; [by apply elem_of_nil in Hw|].
    exfalso. cbn in E. destruct (first_min key l); [case_decide|]; done.
Qed.

Lemma find_first_insert_by_key {A} (key : A -> Z) (f : A -> bool) x l :
  StronglySorted (key_le key) l ->
  find_first f (insert_by_key key x l) =
  if f x then
    match find_first f l with
    | Some y => if decide (key x <= key y)%Z then Some x else Some y
    | None => Some x
    end
  else find_first f l.
Proof.
  induction 1 as [|y l Hl IH Hy]; cbn; [by destruct (f x)|].
  case_decide as Hle; cbn.
  - destruct (f x) eqn:Ex; [|done]. destruct (f y) eqn:Ey; [by rewrite decide_True|].
    destruct (find_first f l) as [z|] eqn:Ez; [|done].
    rewrite decide_True; [done|]. apply find_first_Some in Ez as (l1 & l2 & -> & _).
    rewrite Forall_forall in Hy. specialize (Hy z). unfold key_le in Hy.
    assert (z ∈ l1 ++ z :: l2) by set_solver. specialize (Hy H). lia.
  - rewrite IH. destruct (f y) eqn:Ey; [|done]. destruct (f x); [|done]. by rewrite decide_False.
Qed.

Lemma find_first_sorted {A} (key : A -> Z) (f : A -> bool) l :
  find_first f (sort_by_key key l) = first_min key (List.filter f l).
Proof.
  induction l as [|x l IH]; cbn; [done|].
  rewrite find_first_insert_by_key by apply sort_by_key_sorted. rewrite IH.
  by destruct (f x).
Qed.

(** ** Automation *)

Create HintDb od discriminated.
#[export] Hint Resolve as_i32_range as_u32_range as_u32_as_i32 : od.
#[export] Hint Resolve sort_by_key_perm sort_by_key_sorted NoDup_dedupe_from : od.

(** Invert a chain of [Ok] binds in the hypotheses. *)
Ltac inv_ok :=
  repeat match goal with
    | H : (_ ≫= _) = Ok _ |- _ => apply bind_Ok in H as (? & ? & ?)
    | H : ok_or _ _ = Ok _ |- _ => apply ok_or_Ok in H
    | H : Ok _ = Ok _ |- _ => injection H as H; subst
    | H : Err _ = Ok _ |- _ => discriminate H
    end.
(** Split every [match]/[if] of the goal and close what is trivial. *)
Ltac split_matches := repeat case_match; simplify_eq/=; try done.
