(* ===== verification/RustStr.v ===== *)
(** * Rust string operations

    A Rust [&str] is its UTF-8 encoding, a [string] of bytes: [str::len] is [String.length] and
    ASCII operations act byte-wise.  [str::trim] and [split_whitespace] use the Unicode
    [White_Space] property; [ws_chars] lists the UTF-8 encodings of its code points, and UTF-8 is
    self-synchronising, so matching an encoding at a byte position matches the character.
    [str::to_lowercase] is table driven; it is the class [Unicode] with its documented ASCII law. *)

From S2P Require Import Prelude.
From Stdlib Require Export Ascii.

#[global] Arguments String.append !_ _ /.

Abbreviation str_len := String.length.

(** ** Characters *)

Definition code (c : ascii) : N := N_of_ascii c.
Definition byte (n : N) : ascii := ascii_of_N n.
Definition between (lo hi : N) (c : ascii) : bool := (lo <=? code c)%N && (code c <=? hi)%N.
Definition is_ascii_upper : ascii -> bool := between 65 90.
Definition is_ascii_lower : ascii -> bool := between 97 122.
Definition is_ascii_digit : ascii -> bool := between 48 57.
Definition is_ascii_alphanumeric (c : ascii) : bool :=
  is_ascii_upper c || is_ascii_lower c || is_ascii_digit c.
(** Visible ASCII: every byte that is neither a control, a space nor non-ASCII. *)
Definition is_graphic : ascii -> bool := between 33 126.
Definition is_ascii_char (c : ascii) : bool := (code c <? 128)%N.
Definition lower_char (c : ascii) : ascii := if is_ascii_upper c then byte (code c + 32) else c.

Lemma lower_char_idem c : lower_char (lower_char c) = lower_char c.
Proof. destruct c as [[] [] [] [] [] [] [] []]; reflexivity. Qed.
Lemma lower_char_graphic c : is_graphic (lower_char c) = is_graphic c.
Proof. destruct c as [[] [] [] [] [] [] [] []]; reflexivity. Qed.
Lemma lower_char_ascii c : is_ascii_char (lower_char c) = is_ascii_char c.
Proof. destruct c as [[] [] [] [] [] [] [] []]; reflexivity. Qed.
Lemma lower_char_dot c : lower_char c = "."%char <-> c = "."%char.
Proof. destruct c as [[] [] [] [] [] [] [] []]; split; intros H; (reflexivity || discriminate H). Qed.

(** ** Predicates on every character *)

Fixpoint str_forall (p : ascii -> bool) (s : string) : bool :=
  match s with "" => true | String a s' => p a && str_forall p s' end.

Fixpoint map_str (f : ascii -> ascii) (s : string) : string :=
  match s with "" => "" | String a s' => String (f a) (map_str f s') end.

Definition is_empty (s : string) : bool := match s with "" => true | _ => false end.
Definition to_ascii_lowercase (s : string) : string := map_str lower_char s.
Definition eq_ignore_ascii_case (a b : string) : bool :=
  bool_decide (to_ascii_lowercase a = to_ascii_lowercase b).
Abbreviation graphic := (str_forall is_graphic).
Abbreviation is_ascii := (str_forall is_ascii_char).

(** [str::to_lowercase]. *)
Class Unicode := {
  to_lowercase : string -> string;
  to_lowercase_ascii s : is_ascii s = true -> to_lowercase s = to_ascii_lowercase s
}.

(** ** Prefixes, suffixes, search *)

Fixpoint strip_prefix (p s : string) : option string :=
  match p, s with
  | "", _ => Some s
  | String a p', String b s' => if decide (a = b) then strip_prefix p' s' else None
  | String _ _, "" => None
  end.
Definition starts_with (p s : string) : bool := bool_decide (is_Some (strip_prefix p s)).

Fixpoint ends_with (suf s : string) : bool :=
  bool_decide (s = suf) || match s with "" => false | String _ s' => ends_with suf s' end.

Fixpoint contains (needle s : string) : bool :=
  starts_with needle s || match s with "" => false | String _ s' => contains needle s' end.

(** [s.find(c)] with [s[..i]]: the part before the first [c]. *)
Fixpoint before_char (c : ascii) (s : string) : option string :=
  match s with
  | "" => None
  | String a s' => if decide (a = c) then Some "" else String a <$> before_char c s'
  end.

Fixpoint split_once (pat s : string) : option (string * string) :=
  match strip_prefix pat s with
  | Some r => Some ("", r)
  | None =>
      match s with
      | "" => None
      | String a s' => (fun lr => (String a lr.1, lr.2)) <$> split_once pat s'
      end
  end.

Fixpoint rsplit_once (c : ascii) (s : string) : option (string * string) :=
  match s with
  | "" => None
  | String a s' =>
      match rsplit_once c s' with
      | Some (l, r) => Some (String a l, r)
      | None => if decide (a = c) then Some ("", s') else None
      end
  end.

(** ** Splitting and joining *)

(** [s.split(pred)]: the list is never empty. *)
Fixpoint split_on (p : ascii -> bool) (s : string) : list string :=
  match s with
  | "" => [""]
  | String a s' =>
      if p a then "" :: split_on p s'
      else match split_on p s' with
           | [] => [String a ""]
           | h :: t => String a h :: t
           end
  end.
Definition is_char (c a : ascii) : bool := bool_decide (a = c).
Definition split_char (c : ascii) : string -> list string := split_on (is_char c).

(** [s.split(pat)] with a string pattern. *)
Fixpoint split_str_fuel (n : nat) (pat s : string) : list string :=
  match n with
  | O => [s]
  | S n' =>
      match split_once pat s with
      | None => [s]
      | Some (l, r) => l :: split_str_fuel n' pat r
      end
  end.
Definition split_str (pat s : string) : list string := split_str_fuel (S (str_len s)) pat s.

Fixpoint join (sep : string) (l : list string) : string :=
  match l with
  | [] => ""
  | [x] => x
  | x :: l' => x +:+ sep +:+ join sep l'
  end.

Definition LF : ascii := byte 10.
Definition CR : ascii := byte 13.
Definition CRLF : string := String CR (String LF "").

Fixpoint strip_cr (s : string) : string :=
  match s with
  | "" => ""
  | String a "" => if decide (a = CR) then "" else s
  | String a s' => String a (strip_cr s')
  end.
Fixpoint lines_of (parts : list string) : list string :=
  match parts with
  | [] => []
  | [l] => if is_empty l then [] else [l]
  | p :: ps => strip_cr p :: lines_of ps
  end.
(** [str::lines]. *)
Definition lines (s : string) : list string := lines_of (split_char LF s).

(** ** White space *)

Definition bytes (l : list N) : string := String.string_of_list_ascii (byte <$> l).
Definition ws_chars : list string := bytes <$>
  [[9]; [10]; [11]; [12]; [13]; [32]; [194; 133]; [194; 160]; [225; 154; 128];
   [226; 128; 128]; [226; 128; 129]; [226; 128; 130]; [226; 128; 131]; [226; 128; 132];
   [226; 128; 133]; [226; 128; 134]; [226; 128; 135]; [226; 128; 136]; [226; 128; 137];
   [226; 128; 138]; [226; 128; 168]; [226; 128; 169]; [226; 128; 175]; [226; 129; 159];
   [227; 128; 128]]%N.

Definition is_ws (s : string) : bool := bool_decide (s ∈ ws_chars).
Fixpoint strip_any (pats : list string) (s : string) : option string :=
  match pats with
  | [] => None
  | p :: ps => match strip_prefix p s with Some r => Some r | None => strip_any ps s end
  end.
Definition strip_ws : string -> option string := strip_any ws_chars.

Fixpoint trim_start_fuel (n : nat) (s : string) : string :=
  match n with
  | O => s
  | S n' => match strip_ws s with Some r => trim_start_fuel n' r | None => s end
  end.
Definition trim_start (s : string) : string := trim_start_fuel (str_len s) s.
Fixpoint trim_end (s : string) : string :=
  match s with
  | "" => ""
  | String a s' => let r := trim_end s' in if is_ws (String a r) then "" else String a r
  end.
Definition trim (s : string) : string := trim_end (trim_start s).

(** [s.trim_start_matches(c)] for an ASCII character. *)
Fixpoint trim_start_matches (c : ascii) (s : string) : string :=
  match s with
  | "" => ""
  | String a s' => if decide (a = c) then trim_start_matches c s' else s
  end.
(** [s.trim_end_matches(c)] for an ASCII character. *)
Fixpoint trim_end_matches (c : ascii) (s : string) : string :=
  match s with
  | "" => ""
  | String a s' =>
      match trim_end_matches c s' with
      | "" => if decide (a = c) then "" else String a ""
      | r => String a r
      end
  end.

(** The word at the head of [s], and the rest from the first white space on. *)
Fixpoint take_word (s : string) : string * string :=
  match s with
  | "" => ("", "")
  | String a s' =>
      match strip_ws s with
      | Some _ => ("", s)
      | None => let wr := take_word s' in (String a wr.1, wr.2)
      end
  end.
Fixpoint words_fuel (n : nat) (s : string) : list string :=
  match n with
  | O => []
  | S n' =>
      match trim_start s with
      | "" => []
      | t => let wr := take_word t in wr.1 :: words_fuel n' wr.2
      end
  end.
(** [str::split_whitespace]. *)
Definition split_whitespace (s : string) : list string := words_fuel (S (str_len s)) s.

(** ** Examples *)

Example trim_example : trim (" a b" +:+ bytes [194; 160; 10]%N) = "a b".
Proof. vm_compute. reflexivity. Qed.
Example split_whitespace_example : split_whitespace "  GET  /x HTTP " = ["GET"; "/x"; "HTTP"].
Proof. vm_compute. reflexivity. Qed.
Example lines_example : lines ("a" +:+ CRLF +:+ "b" +:+ CRLF) = ["a"; "b"].
Proof. vm_compute. reflexivity. Qed.
Example split_str_example : split_str "::" "a::b::" = ["a"; "b"; ""].
Proof. vm_compute. reflexivity. Qed.

#[global] Arguments strip_ws _ : simpl never.
#[global] Arguments is_ws _ : simpl never.

(** ** Append and length *)

Lemma str_app_nil_r s : s +:+ "" = s.
Proof. induction s; cbn; congruence. Qed.
Lemma str_app_assoc s t u : (s +:+ t) +:+ u = s +:+ (t +:+ u).
Proof. induction s; cbn; congruence. Qed.
Lemma str_app_length s t : str_len (s +:+ t) = str_len s + str_len t.
Proof. induction s; cbn; congruence. Qed.
Lemma str_app_inj_l p s t : p +:+ s = p +:+ t <-> s = t.
Proof. split; [|congruence]. induction p; cbn; [done|]. intros [= H]; auto. Qed.

Lemma app_eq_app s t u v :
  str_len t = str_len v -> s +:+ t = u +:+ v -> s = u /\ t = v.
Proof.
  intros Hlen H.
  assert (str_len s = str_len u) as Hl.
  { apply (f_equal str_len) in H. rewrite !str_app_length in H. lia. }
  revert u Hl H; induction s as [|a s IH]; intros [|b u] Hl H; cbn in *; try done.
  injection H as -> H. destruct (IH u) as [-> ->]; auto.
Qed.

(** ** Case folding *)

Lemma map_str_app f s t : map_str f (s +:+ t) = map_str f s +:+ map_str f t.
Proof. induction s; cbn; congruence. Qed.
Lemma lower_app s t :
  to_ascii_lowercase (s +:+ t) = to_ascii_lowercase s +:+ to_ascii_lowercase t.
Proof. apply map_str_app. Qed.
Lemma lower_idem s : to_ascii_lowercase (to_ascii_lowercase s) = to_ascii_lowercase s.
Proof. unfold to_ascii_lowercase. induction s; cbn; [done|]. by rewrite lower_char_idem, IHs. Qed.
Lemma lower_length s : str_len (to_ascii_lowercase s) = str_len s.
Proof. unfold to_ascii_lowercase. induction s; cbn; congruence. Qed.
Lemma lower_empty s : is_empty (to_ascii_lowercase s) = is_empty s.
Proof. by destruct s. Qed.
Lemma lower_graphic s : graphic (to_ascii_lowercase s) = graphic s.
Proof. unfold to_ascii_lowercase. induction s; cbn; [done|]. by rewrite lower_char_graphic, IHs. Qed.

Lemma eq_ignore_ascii_case_spec a b :
  eq_ignore_ascii_case a b = true <-> to_ascii_lowercase a = to_ascii_lowercase b.
Proof. apply bool_decide_eq_true. Qed.
Lemma eq_ignore_ascii_case_refl a : eq_ignore_ascii_case a a = true.
Proof. by apply eq_ignore_ascii_case_spec. Qed.

Lemma str_forall_app p s t : str_forall p (s +:+ t) = str_forall p s && str_forall p t.
Proof. induction s; cbn; [done|]. by rewrite IHs, andb_assoc. Qed.

(** ** Prefixes and suffixes *)

Lemma strip_prefix_Some p s r : strip_prefix p s = Some r <-> s = p +:+ r.
Proof.
  revert s; induction p as [|a p IH]; intros s; cbn; [naive_solver|].
  destruct s as [|b s]; [split; congruence|].
  case_decide; [subst; rewrite IH; split; [by intros -> | by intros [= ->]]|].
  split; [done|]. by intros [= ? ?].
Qed.
Lemma strip_prefix_app p s : strip_prefix p (p +:+ s) = Some s.
Proof. by apply strip_prefix_Some. Qed.
Lemma starts_with_spec p s : starts_with p s = true <-> exists r, s = p +:+ r.
Proof.
  unfold starts_with. rewrite bool_decide_eq_true. unfold is_Some.
  by setoid_rewrite strip_prefix_Some.
Qed.

Lemma ends_with_spec suf s : ends_with suf s = true <-> exists l, s = l +:+ suf.
Proof.
  induction s as [|a s IH]; cbn -[String.append]; rewrite orb_true_iff, bool_decide_eq_true.
  - split.
    + intros [<-|?]; [by exists ""|done].
    + intros ([|? ?] & H); cbn in H; [by left|done].
  - rewrite IH. split.
    + intros [<-|(l & ->)]; [by exists ""|by exists (String a l)].
    + intros ([|b l] & H); cbn in H; [by left|]. injection H as -> ->. eauto.
Qed.

Lemma ends_with_app l suf : ends_with suf (l +:+ suf) = true.
Proof. apply ends_with_spec. eauto. Qed.

Lemma contains_spec needle s : contains needle s = true <-> exists l r, s = l +:+ needle +:+ r.
Proof.
  induction s as [|a s IH]; cbn -[String.append starts_with]; rewrite orb_true_iff, starts_with_spec.
  - split.
    + intros [(r & Hr)|?]; [by exists "", r|done].
    + intros ([|? ?] & r & H); cbn in H; [by left; exists r|done].
  - rewrite IH. split.
    + intros [(r & ->)|(l & r & ->)]; [by exists "", r|by exists (String a l), r].
    + intros ([|b l] & r & H); cbn in H; [by left; exists r|]. injection H as -> ->. eauto.
Qed.

(** Two suffixes of one string with equal length are equal. *)
Lemma suffix_same_length l1 l2 a b :
  l1 +:+ a = l2 +:+ b -> str_len a = str_len b -> a = b.
Proof. intros H Hlen. by apply app_eq_app in H as [_ ?]. Qed.

(** ** Splitting *)

Lemma rsplit_once_Some c s l r :
  rsplit_once c s = Some (l, r) -> s = l +:+ String c r /\ str_forall (fun a => negb (is_char c a)) r = true.
Proof.
  unfold is_char.
  assert (forall t, rsplit_once c t = None -> str_forall (fun a => negb (bool_decide (a = c))) t = true) as Hnone.
  { induction t as [|a t IH]; cbn; [done|]. destruct (rsplit_once c t) as [[? ?]|]; [done|].
    case_decide; [done|]. intros _. by rewrite bool_decide_eq_false_2, IH. }
  revert l r; induction s as [|a s IH]; intros l r; cbn; [done|].
  destruct (rsplit_once c s) as [[l' r']|] eqn:E.
  - intros [= <- <-]. destruct (IH l' r') as [-> ?]; [done|]. done.
  - case_decide; [|done]. intros [= <- <-]. subst. auto.
Qed.

Lemma split_on_ne p s : split_on p s <> [].
Proof. destruct s; cbn; [done|]. repeat case_match; done. Qed.

Lemma join_cons sep x y l : join sep (x :: y :: l) = x +:+ sep +:+ join sep (y :: l).
Proof. done. Qed.

(** Splitting on a character and joining with it gives the string back. *)
Lemma join_split_char c s : join (String c "") (split_char c s) = s.
Proof.
  unfold split_char. induction s as [|a s IH]; [done|]. cbn [split_on].
  unfold is_char at 1. case_bool_decide as Ha.
  - subst. destruct (split_on (is_char c) s) eqn:E; [by apply split_on_ne in E|].
    rewrite join_cons, IH. done.
  - destruct (split_on (is_char c) s) as [|h t] eqn:E; [by apply split_on_ne in E|].
    destruct t; cbn in *; by rewrite IH.
Qed.

Lemma split_on_clean p s x :
  x ∈ split_on p s -> str_forall (fun a => negb (p a)) x = true.
Proof.
  revert x; induction s as [|a s IH]; intros x; cbn.
  - by intros ->%list_elem_of_singleton.
  - destruct (p a) eqn:Ea.
    + intros [->|?]%elem_of_cons; auto.
    + destruct (split_on p s) as [|h t] eqn:E; [by apply split_on_ne in E|].
      intros [->|Hx]%elem_of_cons.
      * cbn. rewrite Ea. cbn. apply IH. by constructor.
      * apply IH. by constructor.
Qed.

Lemma length_split_char_app c s t :
  str_forall (fun a => negb (is_char c a)) s = true ->
  split_char c (s +:+ String c t) = s :: split_char c t.
Proof.
  unfold split_char. induction s as [|a s IH]; cbn.
  - intros _. unfold is_char at 1. by rewrite bool_decide_eq_true_2.
  - intros [Ha Hs]%andb_true_iff. apply negb_true_iff in Ha. rewrite Ha. by rewrite IH.
Qed.

Lemma split_char_id c s :
  str_forall (fun a => negb (is_char c a)) s = true -> split_char c s = [s].
Proof.
  unfold split_char. induction s as [|a s IH]; cbn; [done|].
  intros [Ha Hs]%andb_true_iff. apply negb_true_iff in Ha. rewrite Ha. by rewrite IH.
Qed.

(** ** Trimming *)

Lemma trim_end_prefix s : exists r, s = trim_end s +:+ r.
Proof.
  induction s as [|a s (r & Hr)]; cbn -[is_ws]; [by exists ""|].
  destruct (is_ws _); [by exists (String a s)|]. exists r. cbn. congruence.
Qed.

Lemma trim_end_idem s : trim_end (trim_end s) = trim_end s.
Proof.
  induction s as [|a s IH]; cbn -[is_ws]; [done|].
  destruct (is_ws _) eqn:E; [done|]. cbn -[is_ws]. by rewrite IH, E.
Qed.

Lemma strip_any_None pats s : strip_any pats s = None <-> Forall (fun p => strip_prefix p s = None) pats.
Proof.
  induction pats as [|p ps IH]; cbn; [by split|].
  rewrite Forall_cons, <- IH. destruct (strip_prefix p s); naive_solver.
Qed.

Lemma strip_any_app_None pats s t : strip_any pats (s +:+ t) = None -> strip_any pats s = None.
Proof.
  rewrite !strip_any_None, !Forall_forall. intros H p Hp.
  destruct (strip_prefix p s) as [r|] eqn:E; [|done].
  apply strip_prefix_Some in E as ->. specialize (H p Hp).
  by rewrite str_app_assoc, strip_prefix_app in H.
Qed.

Lemma trim_start_fuel_None n s : strip_ws s = None -> trim_start_fuel n s = s.
Proof. intros H. destruct n; cbn; [done|]. by rewrite H. Qed.

Lemma strip_any_length pats s r :
  Forall (fun p => p <> "") pats -> strip_any pats s = Some r -> str_len r < str_len s.
Proof.
  induction 1 as [|p ps Hp Hps IH]; cbn; [done|].
  destruct (strip_prefix p s) as [r'|] eqn:E; [|done]. intros [= <-].
  apply strip_prefix_Some in E as ->. rewrite str_app_length. destruct p; [done|cbn; lia].
Qed.

Lemma ws_chars_nonempty : Forall (fun p => p <> "") ws_chars.
Proof. by repeat constructor. Qed.

(** The fuel of [trim_start] is enough: the result starts with no white space. *)
Lemma trim_start_fuel_done n s : str_len s <= n -> strip_ws (trim_start_fuel n s) = None.
Proof.
  revert s; induction n as [|n IH]; intros s Hs; cbn -[strip_ws].
  - destruct s; [by vm_compute|cbn in Hs; lia].
  - destruct (strip_ws s) as [r|] eqn:E; [|done]. apply IH.
    apply strip_any_length in E; [lia|apply ws_chars_nonempty].
Qed.

Lemma trim_start_done s : strip_ws (trim_start s) = None.
Proof. by apply trim_start_fuel_done. Qed.

Lemma trim_idem s : trim (trim s) = trim s.
Proof.
  unfold trim. assert (strip_ws (trim_end (trim_start s)) = None) as H.
  { destruct (trim_end_prefix (trim_start s)) as [r Hr].
    apply (strip_any_app_None _ _ r). rewrite <- Hr. apply trim_start_done. }
  unfold trim_start at 1. by rewrite trim_start_fuel_None, trim_end_idem.
Qed.

Lemma ws_char_head p : p ∈ ws_chars -> exists a r, p = String a r /\ is_graphic a = false.
Proof.
  assert (Forall (fun p => exists a r, p = String a r /\ is_graphic a = false) ws_chars) as H.
  { repeat constructor; (eexists _, _; split; [reflexivity|vm_compute; reflexivity]). }
  rewrite Forall_forall in H. apply H.
Qed.

Lemma strip_ws_graphic a s : is_graphic a = true -> strip_ws (String a s) = None.
Proof.
  intros Ha. apply strip_any_None, Forall_forall. intros p (b & r & -> & Hb)%ws_char_head.
  cbn. case_decide; congruence.
Qed.

Lemma is_ws_graphic a s : is_graphic a = true -> is_ws (String a s) = false.
Proof.
  intros Ha. apply bool_decide_eq_false. intros (b & r & [= -> ->] & Hb)%ws_char_head. congruence.
Qed.

(** Visible ASCII text is not changed by [trim]. *)
Lemma trim_graphic s : graphic s = true -> trim s = s.
Proof.
  intros Hs. unfold trim, trim_start.
  rewrite trim_start_fuel_None.
  2:{ destruct s; [by vm_compute|]. apply strip_ws_graphic. by apply andb_true_iff in Hs as []. }
  induction s as [|a s IH]; [done|]. cbn -[is_ws] in *. apply andb_true_iff in Hs as [Ha Hs].
  by rewrite IH, is_ws_graphic.
Qed.

Lemma trim_start_graphic c s : is_graphic c = true -> trim_start (String c s) = String c s.
Proof. intros Hc. unfold trim_start. by rewrite trim_start_fuel_None by by apply strip_ws_graphic. Qed.

Lemma trim_nonempty c s : is_graphic c = true -> is_empty (trim (String c s)) = false.
Proof.
  intros Hc. unfold trim. rewrite trim_start_graphic by done. cbn [trim_end].
  by rewrite is_ws_graphic.
Qed.

Lemma trim_end_matches_prefix c s : exists r, s = trim_end_matches c s +:+ r.
Proof.
  induction s as [|a s (r & Hr)]; [by exists ""|]. cbn.
  destruct (trim_end_matches c s) as [|b t] eqn:E; cbn in *.
  - case_decide; [by exists (String a s)|by exists s].
  - exists r. by rewrite Hr at 1.
Qed.

Lemma trim_end_matches_no_suffix c s l : trim_end_matches c s <> l +:+ String c "".
Proof.
  revert l; induction s as [|a s IH]; intros l; cbn; [by destruct l|].
  destruct (trim_end_matches c s) as [|b t] eqn:E.
  - case_decide; [by destruct l|]. destruct l as [|x [|y l]]; cbn; congruence.
  - destruct l as [|x l]; cbn; [congruence|]. intros [= -> H]. by apply (IH l).
Qed.

Lemma trim_end_matches_id c s : (forall l, s <> l +:+ String c "") -> trim_end_matches c s = s.
Proof.
  induction s as [|a s IH]; intros H; [done|]. cbn. rewrite IH.
  - destruct s; [|done]. rewrite decide_False; [done|]. intros ->. by apply (H "").
  - intros l ->. by apply (H (String a l)).
Qed.

Lemma trim_end_matches_idem c s :
  trim_end_matches c (trim_end_matches c s) = trim_end_matches c s.
Proof. apply trim_end_matches_id. intros l. apply trim_end_matches_no_suffix. Qed.

Lemma graphic_app_inv s t : graphic (s +:+ t) = true -> graphic s = true /\ graphic t = true.
Proof. rewrite str_forall_app. apply andb_true_iff. Qed.

Lemma map_str_snoc_inv f c s l :
  map_str f s = l +:+ String c "" -> exists l' b, s = l' +:+ String b "" /\ f b = c.
Proof.
  revert l; induction s as [|a s IH]; intros l; cbn; [by destruct l|].
  destruct l as [|x l]; cbn; intros [= Ha H].
  - destruct s; [|done]. by exists "", a.
  - destruct (IH l H) as (l' & b & -> & Hb). by exists (String a l'), b.
Qed.

(** [x.trim_end_matches('.').to_ascii_lowercase()] ends with no dot. *)
Lemma lower_trim_no_dot s l : to_ascii_lowercase (trim_end_matches "." s) <> l +:+ ".".
Proof.
  intros (l' & b & Hl & Hb)%map_str_snoc_inv. apply lower_char_dot in Hb as ->.
  by apply trim_end_matches_no_suffix in Hl.
Qed.

#[export] Hint Resolve trim_idem trim_end_matches_idem lower_idem eq_ignore_ascii_case_refl : od.
Create Rewrite HintDb od_str.
#[export] Hint Rewrite str_app_assoc str_app_nil_r str_app_length lower_length : od_str.

(** ** Counting a character; joining and splitting back *)

Fixpoint count_char (c : ascii) (s : string) : nat :=
  match s with
  | "" => 0
  | String a s' => (if decide (a = c) then 1 else 0) + count_char c s'
  end.

Lemma count_char_app c s t : count_char c (s +:+ t) = count_char c s + count_char c t.
Proof. induction s; cbn; [done|]. rewrite IHs. lia. Qed.

Lemma count_char_self c : count_char c (String c "") = 1.
Proof. cbn. by rewrite decide_True. Qed.

Lemma length_split_char c s : length (split_char c s) = S (count_char c s).
Proof.
  unfold split_char. induction s as [|a s IH]; cbn; [done|].
  unfold is_char at 1. case_bool_decide; [rewrite decide_True by done; cbn; by rewrite IH|].
  rewrite decide_False by done. destruct (split_on _ s) eqn:E; [done|]. cbn in *. lia.
Qed.

Lemma join_app_ne sep l1 l2 :
  l1 <> [] -> l2 <> [] -> join sep (l1 ++ l2) = join sep l1 +:+ sep +:+ join sep l2.
Proof.
  intros H1 H2. induction l1 as [|x [|y l1] IH]; [done| |].
  - cbn. by destruct l2.
  - cbn [app]. rewrite !join_cons. cbn [app] in IH. rewrite IH by done.
    by rewrite !str_app_assoc.
Qed.

Abbreviation clean c s := (str_forall (fun a => negb (is_char c a)) s = true).

Lemma split_char_join c l :
  l <> [] -> Forall (fun s => clean c s) l -> split_char c (join (String c "") l) = l.
Proof.
  intros Hne H. induction H as [|x l Hx Hl IH]; [done|]. destruct l as [|y l].
  - cbn. by apply split_char_id.
  - rewrite join_cons. cbn [String.append].
    change (String c "" +:+ ?t) with (String c t).
    rewrite length_split_char_app by done. by rewrite IH.
Qed.

Lemma split_char_clean c s : Forall (fun s => clean c s) (split_char c s).
Proof. apply Forall_forall. intros x Hx. by eapply split_on_clean. Qed.

(** Dropping leading labels leaves a suffix at a separator. *)
Lemma join_drop_suffix c n s :
  n < length (split_char c s) ->
  s = join (String c "") (drop n (split_char c s)) \/
  exists p, s = p +:+ String c "" +:+ join (String c "") (drop n (split_char c s)).
Proof.
  intros Hn. set (labels := split_char c s) in *.
  assert (join (String c "") labels = s) as Hs by apply join_split_char.
  assert (drop n labels <> []) as Hd.
  { intros E. apply (f_equal length) in E. rewrite length_drop in E. cbn in E. lia. }
  destruct n as [|n]; [left; by rewrite drop_0|]. right.
  exists (join (String c "") (take (S n) labels)).
  rewrite <- join_app_ne; [by rewrite take_drop| |done].
  destruct labels; cbn in *; [lia|done].
Qed.

Lemma lower_fixed_app s t :
  to_ascii_lowercase (s +:+ t) = s +:+ t ->
  to_ascii_lowercase s = s /\ to_ascii_lowercase t = t.
Proof. rewrite lower_app. apply app_eq_app. apply lower_length. Qed.
