(* ===== verification/RustNum.v ===== *)
(** * Rust numbers

    The unsigned types at their widths with their saturating operations, the text forms
    [str::parse] accepts for them and for [f32], and the comparisons and conversions of floating
    point the code uses.  [usize] is 64 bits wide. *)

From S2P Require Import Prelude RustStr.
From Stdlib Require Import SpecFloat.

Local Open Scope Z_scope.

(** ** Unsigned integers *)

Definition u16_max : Z := 2 ^ 16 - 1.
Definition u64_max : Z := 2 ^ 64 - 1.
Definition i64_max : Z := 2 ^ 63 - 1.
Definition is_u64 (z : Z) : Prop := 0 <= z <= u64_max.

(** [u64::saturating_*] (and [usize::saturating_*]). *)
Definition sat64 (z : Z) : Z := Z.max 0 (Z.min u64_max z).
Definition saturating_add (a b : Z) : Z := sat64 (a + b).
Definition saturating_sub (a b : Z) : Z := sat64 (a - b).
Definition saturating_mul (a b : Z) : Z := sat64 (a * b).
Definition saturating_pow (a e : Z) : Z := sat64 (a ^ e).

(** [x as i64] from a 64-bit unsigned value. *)
Definition as_i64 (z : Z) : Z := (z + 2 ^ 63) mod 2 ^ 64 - 2 ^ 63.

Lemma sat64_range z : is_u64 (sat64 z).
Proof. unfold is_u64, sat64, u64_max. lia. Qed.
Lemma sat64_id z : is_u64 z -> sat64 z = z.
Proof. unfold is_u64, sat64. lia. Qed.
Lemma as_i64_small z : 0 <= z <= i64_max -> as_i64 z = z.
Proof. unfold as_i64, i64_max. intros H. rewrite Z.mod_small; lia. Qed.

(** ** [str::parse] for unsigned integers: an optional sign, then digits that fit *)

Definition digit_of (c : ascii) : Z := Z.of_N (code c) - 48.

Fixpoint digits_value (acc : Z) (s : string) : Z :=
  match s with
  | "" => acc
  | String c s' => digits_value (acc * 10 + digit_of c) s'
  end.

Definition all_digits (s : string) : bool := negb (is_empty s) && str_forall is_ascii_digit s.

Definition parse_unsigned (max : Z) (s : string) : option Z :=
  let digits := match s with String "+" rest => rest | _ => s end in
  if all_digits digits then
    let v := digits_value 0 digits in
    if decide (v <= max) then Some v else None
  else None.

(** [parse::<i32>()] and [parse::<i64>()]. *)
Definition parse_signed (lo hi : Z) (s : string) : option Z :=
  match s with
  | String "-" rest =>
      if all_digits rest && bool_decide (lo <= - digits_value 0 rest) then Some (- digits_value 0 rest) else None
  | _ => parse_unsigned hi s
  end.
Definition parse_i64 : string -> option Z := parse_signed (- 2 ^ 63) i64_max.
Definition parse_i32 : string -> option Z := parse_signed i32_min i32_max.

Lemma digit_of_range c : is_ascii_digit c = true -> 0 <= digit_of c <= 9.
Proof.
  unfold is_ascii_digit, between, digit_of. intros [H1 H2]%andb_true_iff.
  apply N.leb_le in H1, H2. lia.
Qed.

Lemma digits_value_nonneg s acc : 0 <= acc -> str_forall is_ascii_digit s = true -> 0 <= digits_value acc s.
Proof.
  revert acc; induction s as [|c s IH]; intros acc Ha; cbn; [done|].
  intros [Hc Hs]%andb_true_iff. apply IH; [|done]. pose proof (digit_of_range c Hc). lia.
Qed.

Lemma parse_unsigned_range max s v : parse_unsigned max s = Some v -> 0 <= v <= max.
Proof.
  unfold parse_unsigned, all_digits. set (d := match s with String "+" r => r | _ => s end).
  destruct (is_empty d) eqn:E; cbn [negb andb]; [done|].
  destruct (str_forall is_ascii_digit d) eqn:Hd; [|done]. case_decide; [|done]. intros [= <-].
  split; [by apply digits_value_nonneg|done].
Qed.

(** Decimal numbers are read back as they are printed. *)
Lemma pretty_N_char_digit d :
  (d < 10)%N -> is_ascii_digit (pretty_N_char d) = true /\ digit_of (pretty_N_char d) = Z.of_N d.
Proof.
  intros Hd. assert (d = 0 \/ d = 1 \/ d = 2 \/ d = 3 \/ d = 4 \/ d = 5 \/ d = 6 \/ d = 7 \/ d = 8 \/ d = 9)%N as H by lia.
  by repeat destruct H as [->|H]; [..|subst d].
Qed.

Lemma pretty_N_go_digits x : forall s,
  str_forall is_ascii_digit (pretty_N_go x s) = str_forall is_ascii_digit s /\
  digits_value 0 (pretty_N_go x s) = digits_value (Z.of_N x) s /\ (s <> "" \/ x <> 0%N -> pretty_N_go x s <> "").
Proof.
  induction (N.lt_wf_0 x) as [x _ IH]; intros s. destruct (decide (x = 0)%N) as [->|Hx]; [rewrite pretty_N_go_0; naive_solver|].
  rewrite pretty_N_go_step by lia. destruct (pretty_N_char_digit (x `mod` 10)) as [H1 H2]; [by apply N.mod_lt|].
  destruct (IH (x `div` 10)%N (N.div_lt x 10 ltac:(lia) eq_refl) (String (pretty_N_char (x `mod` 10)) s)) as (-> & -> & Hne).
  split_and!; [cbn; by rewrite H1| |intros _; apply Hne; by left]. cbn [digits_value]. rewrite H2. f_equal.
  pose proof (N.div_mod x 10). lia.
Qed.

Lemma pretty_N_digits n :
  all_digits (pretty n) = true /\ digits_value 0 (pretty n) = Z.of_N n.
Proof.
  unfold pretty, pretty_N. case_decide; [by subst|]. destruct (pretty_N_go_digits n "") as (H1 & -> & H2).
  split; [|done]. unfold all_digits. rewrite H1. specialize (H2 (or_intror H)). by destruct (pretty_N_go n "").
Qed.

Lemma parse_unsigned_pretty max n :
  parse_unsigned max (pretty n) = if decide (Z.of_N n <= max) then Some (Z.of_N n) else None.
Proof.
  destruct (pretty_N_digits n) as [H1 H2]. unfold parse_unsigned.
  assert (match pretty n with String "+" rest => rest | _ => pretty n end = pretty n) as ->.
  { destruct (pretty n) as [|a s]; [done|]. destruct a as [[] [] [] [] [] [] [] []]; done. }
  by rewrite H1, H2.
Qed.

Example parse_u16 : parse_unsigned u16_max "429" = Some 429 /\ parse_unsigned u16_max "65536" = None /\
  parse_unsigned u16_max "+7" = Some 7 /\ parse_unsigned u16_max "-7" = None /\ parse_unsigned u16_max "" = None.
Proof. vm_compute. done. Qed.

(** ** Floating point *)

(** The floating point number nearest to [m * 10 ^ e], ties to even.  For a negative exponent the quotient is
    computed with 64 bits more than the divisor and a sticky bit for its remainder, so that the
    one rounding of [binary_normalize] sees every bit that matters. *)
Definition decimal_float (prec emax : Z) (negative : bool) (m e : Z) : float :=
  if decide (m = 0) then S754_zero negative
  else
    let signed z := if negative then (- z) else z in
    if decide (0 <= e) then binary_normalize prec emax (signed (m * 10 ^ e)) 0 negative
    else
      let d := 10 ^ (- e) in
      let k := Z.log2_up d + 64 in
      let n := m * 2 ^ k in
      let q := 2 * (n / d) + (if decide (n mod d = 0) then 0 else 1) in
      binary_normalize prec emax (signed q) (- k - 1) negative.
Definition decimal_f32 : bool -> Z -> Z -> float := decimal_float f32_prec f32_emax.

Definition f32_zero : float := S754_zero false.
Definition f32_0_2 : float := decimal_f32 false 2 (-1).
Definition f32_0_4 : float := decimal_f32 false 4 (-1).
Definition f32_nan : float := S754_nan.

(** The binary32 patterns [0x3E4CCCCD] and [0x3ECCCCCD]. *)
Example f32_constants :
  f32_0_2 = S754_finite false 13421773 (-26) /\ f32_0_4 = S754_finite false 13421773 (-25) /\
  decimal_f32 false 1 0 = f32_one /\ decimal_f32 false 5 (-1) = f32_half.
Proof. vm_compute. done. Qed.

(** Split off the longest prefix of digits. *)
Fixpoint take_digits (s : string) : string * string :=
  match s with
  | String c s' => if is_ascii_digit c then let '(d, r) := take_digits s' in (String c d, r) else ("", s)
  | "" => ("", "")
  end.

(** The exponent after the mantissa: nothing, or [e] with an optional sign and digits. *)
Definition parse_exponent (s : string) : option Z :=
  match s with
  | "" => Some 0
  | String c rest =>
      if decide (lower_char c = "e"%char) then
        let '(neg, digits) :=
          match rest with
          | String "-" r => (true, r)
          | String "+" r => (false, r)
          | _ => (false, rest)
          end in
        if all_digits digits then Some (if neg : bool then - digits_value 0 digits else digits_value 0 digits)
        else None
      else None
  end.

(** [str::parse::<f32>] and [str::parse::<f64>]. *)
Definition parse_float (prec emax : Z) (s : string) : option float :=
  let '(negative, body) :=
    match s with
    | String "-" r => (true, r)
    | String "+" r => (false, r)
    | _ => (false, s)
    end in
  let lowered := to_ascii_lowercase body in
  if decide (lowered ∈ ["inf"; "infinity"]) then Some (S754_infinity negative)
  else if decide (lowered = "nan") then Some S754_nan
  else
    let '(int_part, rest) := take_digits body in
    let '(frac_part, rest) :=
      match rest with
      | String "." r => take_digits r
      | _ => ("", rest)
      end in
    if is_empty (int_part +:+ frac_part) then None
    else
      e ← parse_exponent rest;
      Some (decimal_float prec emax negative (digits_value 0 (int_part +:+ frac_part)) (e - Z.of_nat (str_len frac_part))).
Definition parse_f32 : string -> option float := parse_float f32_prec f32_emax.
Definition parse_f64 : string -> option float := parse_float 53 1024.

Example parse_f32_examples :
  parse_f32 "0.40" = Some f32_0_4 /\ parse_f32 "4e-1" = Some f32_0_4 /\ parse_f32 "1" = Some f32_one /\
  parse_f32 ".5" = Some f32_half /\ parse_f32 "." = None /\ parse_f32 "abc" = None /\ parse_f32 "" = None.
Proof. vm_compute. done. Qed.

(** [a < b] and [a <= b]: false when either is not a number. *)
Definition f_lt (a b : float) : bool := SFltb a b.
Definition f_le (a b : float) : bool := SFleb a b.

(** [f32::clamp]; a value that is not a number stays what it is. *)
Definition f32_clamp (x lo hi : float) : float :=
  if f_lt x lo then lo else if f_lt hi x then hi else x.

(** [(0.0..=1.0).contains(&x)]. *)
Definition in_unit (x : float) : bool := f_le f32_zero x && f_le x f32_one.

(** [x as f64] for an [f32], which is exact. *)
Definition f32_as_f64 (x : float) : float :=
  match x with
  | S754_finite s m e => binary_normalize 53 1024 (if s then Zneg m else Zpos m) e s
  | _ => x
  end.

Lemma SFcompare_opp a b c : SFcompare a b = Some c -> SFcompare b a = Some (CompOpp c).
Proof.
  destruct a as [s1|s1| |s1 m1 e1], b as [s2|s2| |s2 m2 e2]; cbn; try done;
    repeat match goal with s : bool |- _ => destruct s end; cbn;
    try (intros [= <-]; done).
  all: rewrite (Z.compare_antisym e1 e2); destruct (e1 ?= e2) eqn:Ee; cbn; intros [= <-]; try done;
    rewrite (Pos.compare_cont_antisym m1 m2 Eq); destruct (Pos.compare_cont Eq m1 m2); done.
Qed.

Lemma f_le_total_in_unit x y : f_le f32_zero x = true -> f_lt y x = false -> in_unit y = true -> f_le x y = true.
Proof.
  unfold in_unit, f_le, f_lt, SFleb, SFltb. intros Hx Hlt [Hy _]%andb_true_iff.
  assert (exists c, SFcompare x y = Some c) as [c Hc].
  { destruct x as [s1|s1| |s1 m1 e1], y as [s2|s2| |s2 m2 e2]; cbn in *; try done;
      repeat match goal with s : bool |- _ => destruct s end; by eexists. }
  rewrite Hc. pose proof (SFcompare_opp _ _ _ Hc) as Hc'. rewrite Hc' in Hlt. by destruct c.
Qed.

Lemma f_le_refl_in_unit x : in_unit x = true -> f_le x x = true.
Proof.
  unfold in_unit, f_le, SFleb. intros [H _]%andb_true_iff.
  destruct x as [s|s| |s m e]; cbn in *; try done; destruct s; try done.
  all: rewrite Z.compare_refl; change (Pos.compare_cont Eq m m) with (Pos.compare m m); by rewrite Pos.compare_refl.
Qed.

(** Order on values between zero and one. *)
Lemma f_lt_le_trans_in_unit a b d :
  in_unit a = true -> in_unit b = true -> in_unit d = true ->
  f_lt a b = true -> f_le b d = true -> f_le a d = true.
Proof.
  unfold in_unit, f_le, f_lt, SFleb, SFltb.
  intros [Ha _]%andb_true_iff [Hb _]%andb_true_iff [Hd _]%andb_true_iff.
  destruct a as [s1|s1| |s1 m1 e1], b as [s2|s2| |s2 m2 e2], d as [s3|s3| |s3 m3 e3]; cbn in *; try done;
    repeat match goal with s : bool |- _ => destruct s; try done end.
  change (Pos.compare_cont Eq) with Pos.compare.
  destruct (Z.compare_spec e1 e2), (Z.compare_spec e2 e3); try done; subst; intros;
    try (rewrite (proj2 (Z.compare_lt_iff e1 e3)) by lia; done);
    try (rewrite (proj2 (Z.compare_lt_iff e2 e3)) by lia; done).
  rewrite Z.compare_refl. destruct (Pos.compare_spec m1 m2), (Pos.compare_spec m2 m3); try done; subst;
    rewrite (proj2 (Pos.compare_lt_iff m1 _)) by lia; done.
Qed.

Lemma f32_clamp_unit x : in_unit (f32_clamp x f32_zero f32_one) = true \/ x = f32_nan.
Proof.
  destruct x as [s|s| |s m e]; [left; by destruct s|left; by destruct s|by right|]. left. unfold f32_clamp.
  destruct (f_lt (S754_finite s m e) f32_zero) eqn:E1; [done|].
  destruct (f_lt f32_one (S754_finite s m e)) eqn:E2; [done|]. unfold in_unit.
  destruct s; [by vm_compute in E1|]. apply andb_true_iff. split; [done|].
  assert (exists c, SFcompare (S754_finite false m e) f32_one = Some c) as [c Hc] by by eexists.
  pose proof (SFcompare_opp _ _ _ Hc) as Ho. unfold f_le, f_lt, SFleb, SFltb in *. rewrite Hc. rewrite Ho in E2. by destruct c.
Qed.
