(* ===== verification/Numeric.v ===== *)
(** * Columns of type NUMERIC(5,4)

    The confidence of a classification is bound as a double and stored with four decimals; queries
    read it back as [confidence::float8].  A stored value is its number of ten-thousandths.

    Postgres prints a double with fifteen significant digits before it rounds to the scale of the
    column, half away from zero; a value of ten or more does not fit.  Reading divides, correctly
    rounded. *)

From S2P Require Import Prelude RustNum.
From Stdlib Require Import SpecFloat.

Local Open Scope Z_scope.

(** The exponent of the leading decimal digit of [num / den]. *)
Definition at_least_pow10 (num den k : Z) : bool :=
  if 0 <=? k then 10 ^ k * den <=? num else den <=? num * 10 ^ (- k).
Definition leading_exponent (num den : Z) : Z :=
  let k := (Z.log2 num - Z.log2 den) * 30103 / 100000 in
  if at_least_pow10 num den (k + 1) then k + 1 else if at_least_pow10 num den k then k else k - 1.

(** Rounding of a quotient: half to even, and half away from zero. *)
Definition div_half_even (num den : Z) : Z :=
  let q := num / den in
  let r := num mod den in
  if 2 * r <? den then q
  else if 2 * r =? den then (if Z.even q then q else q + 1)
  else q + 1.
Definition div_half_up (num den : Z) : Z := (2 * num + den) / (2 * den).

(** [num / den] with fifteen significant digits, as [digits * 10 ^ exponent]. *)
Definition fifteen_digits (num den : Z) : Z * Z :=
  let e := leading_exponent num den - 14 in
  (if 0 <=? e then div_half_even num (den * 10 ^ e) else div_half_even (num * 10 ^ (- e)) den, e).

Definition ten_thousandths (num den : Z) : Z :=
  let '(digits, e) := fifteen_digits num den in
  if 0 <=? e + 4 then digits * 10 ^ (e + 4) else div_half_up digits (10 ^ (- (e + 4))).

(** The value stored for a double; [None] is "numeric field overflow" (or a value that is no number). *)
Definition f64_to_numeric (x : float) : option Z :=
  match x with
  | S754_zero _ => Some 0
  | S754_finite s m e =>
      let n := if 0 <=? e then ten_thousandths (Zpos m * 2 ^ e) 1 else ten_thousandths (Zpos m) (2 ^ (- e)) in
      if n <? 100000 then Some (if s then - n else n) else None
  | _ => None
  end.

Definition f64_of_Z (z : Z) : float := binary_normalize 53 1024 z 0 (bool_decide (z < 0)).
(** [confidence::float8]. *)
Definition numeric_to_f64 (n : Z) : float := SFdiv 53 1024 (f64_of_Z n) (f64_of_Z 10000).

(** [(a - b).abs() < 0.0001]. *)
Definition f64_0_0001 : float := SFdiv 53 1024 (f64_of_Z 1) (f64_of_Z 10000).
Definition f64_close (a b : float) : bool := SFltb (SFabs (SFsub 53 1024 a b)) f64_0_0001.

(** What the admin API reads of a stored value, as an [f32]. *)
Definition as_read (n : Z) : float := f64_as_f32 (numeric_to_f64 n).
(** A stored value between zero and one that is stored again when the [f32] that was read is, and is
    close to it. *)
Definition survives (n : Z) : bool :=
  bool_decide (f64_to_numeric (f32_as_f64 (as_read n)) = Some n) && in_unit (as_read n) &&
  f64_close (numeric_to_f64 n) (f32_as_f64 (as_read n)).

(** Every whole percentage does. *)
Lemma percents_survive : forallb (fun k => survives (100 * Z.of_nat k)) (seq 0 101) = true.
Proof. vm_compute. reflexivity. Qed.
Lemma percent_survives k : 0 <= k <= 100 -> survives (100 * k) = true.
Proof.
  intros Hk. pose proof percents_survive as H. rewrite forallb_forall in H. specialize (H (Z.to_nat k)).
  rewrite Z2Nat.id in H by lia. apply H, list_elem_of_In, elem_of_seq. lia.
Qed.

(** The tolerance is wider than a step of the column: 0.5001 and 0.5 are taken for the same. *)
Example one_step_is_close : f64_close (numeric_to_f64 5001) (numeric_to_f64 5000) = true.
Proof. vm_compute. reflexivity. Qed.
Example numeric_examples :
  f64_to_numeric (f32_as_f64 f32_half) = Some 5000 /\ f64_to_numeric (f32_as_f64 (decimal_f32 false 12345 (-5))) = Some 1235 /\
  f64_to_numeric (f64_of_Z 10) = None /\ f64_to_numeric (f32_as_f64 (decimal_f32 false 9 (-1))) = Some 9000.
Proof. vm_compute. done. Qed.
