(* ===== verification/IpAddr.v ===== *)
(** * IP addresses

    [std::net::IpAddr] as the services use it: the parser of the standard library with its order of
    attempts, the text of an address, and networks in CIDR notation
    ([services/event-ingester/src/elastic.rs]).  An address is its number. *)

From stdpp Require Import pretty.
From S2P Require Import Prelude RustStr RustNum.

Local Open Scope Z_scope.

Inductive IpAddr := V4 (bits : Z) | V6 (bits : Z).
#[global] Instance IpAddr_eq_dec : EqDecision IpAddr.
Proof. solve_decision. Defined.

Definition width (ip : IpAddr) : Z := match ip with V4 _ => 32 | V6 _ => 128 end.
Definition number (ip : IpAddr) : Z := match ip with V4 n | V6 n => n end.
Definition in_range (ip : IpAddr) : Prop := 0 <= number ip < 2 ^ width ip.

(** ** Parsing *)

(** A reader takes a prefix of the text or fails without taking anything ([read_atomically]). *)
Definition Reader (A : Type) : Type := string -> option (A * string).

Definition hex_digit (c : ascii) : option Z :=
  let n := Z.of_N (code c) in
  if is_ascii_digit c then Some (n - 48)
  else if is_ascii_lower c && bool_decide (n <= 102) then Some (n - 87)
  else if is_ascii_upper c && bool_decide (n <= 70) then Some (n - 55)
  else None.
(** [char::to_digit]. *)
Definition to_digit (radix : Z) (c : ascii) : option Z := d ← hex_digit c; if decide (d < radix) then Some d else None.

Fixpoint read_digits (radix : Z) (s : string) : list Z * string :=
  match s with
  | "" => ([], s)
  | String c s' => match to_digit radix c with
                   | Some d => let '(ds, rest) := read_digits radix s' in (d :: ds, rest)
                   | None => ([], s)
                   end
  end.
Definition value_of_digits (radix : Z) (ds : list Z) : Z := foldl (fun acc d => acc * radix + d) 0 ds.

Definition read_number (radix max : Z) (max_digits : nat) (allow_zero_prefix : bool) : Reader Z := fun s =>
  let '(ds, rest) := read_digits radix s in
  let value := value_of_digits radix ds in
  if decide (length ds = 0%nat \/ (max_digits < length ds)%nat \/ max < value) then None
  else if negb allow_zero_prefix && bool_decide (head ds = Some 0) && bool_decide (1 < length ds)%nat then None
  else Some (value, rest).

Definition read_given_char (c : ascii) : Reader unit := fun s =>
  match s with String a rest => if decide (a = c) then Some (tt, rest) else None | "" => None end.
Definition read_separator {A} (sep : ascii) (index : nat) (inner : Reader A) : Reader A := fun s =>
  match index with
  | O => inner s
  | S _ => '(_, rest) ← read_given_char sep s; inner rest
  end.

Definition read_octet (index : nat) : Reader Z := read_separator "." index (read_number 10 255 3 false).
Definition read_ipv4_addr : Reader Z := fun s =>
  '(a, s) ← read_octet 0 s; '(b, s) ← read_octet 1 s; '(c, s) ← read_octet 2 s; '(d, s) ← read_octet 3 s;
  Some (((a * 256 + b) * 256 + c) * 256 + d, s).

(** Up to [limit] groups of 16 bits from [index] on; an IPv4 address stands for the last two. *)
Fixpoint read_groups (left index : nat) (s : string) : list Z * bool * string :=
  match left with
  | O => ([], false, s)
  | S left' =>
      let group :=
        match read_separator ":" index (read_number 16 u16_max 4 true) s with
        | Some (g, rest) => let '(gs, v4, rest) := read_groups left' (S index) rest in (g :: gs, v4, rest)
        | None => ([], false, s)
        end in
      match left' with
      | O => group
      | S _ => match read_separator ":" index read_ipv4_addr s with
               | Some (n, rest) => ([n / 65536; n mod 65536], true, rest)
               | None => group
               end
      end
  end.

Definition of_groups (gs : list Z) : Z := foldl (fun acc g => acc * 65536 + g) 0 gs.

Definition read_ipv6_addr : Reader Z := fun s =>
  let '(head, head_ipv4, rest) := read_groups 8 0 s in
  if decide (length head = 8%nat) then Some (of_groups head, rest)
  else if head_ipv4 : bool then None
  else
    '(_, rest) ← read_given_char ":" rest;
    '(_, rest) ← read_given_char ":" rest;
    let '(tail, _, rest) := read_groups (7 - length head) 0 rest in
    Some (of_groups (head ++ replicate (8 - length head - length tail) 0 ++ tail), rest).

(** [str::parse::<IpAddr>]: the whole text, IPv4 first. *)
Definition parse_ip (s : string) : option IpAddr :=
  match read_ipv4_addr s with
  | Some (n, "") => Some (V4 n)
  | Some _ => None
  | None => match read_ipv6_addr s with Some (n, "") => Some (V6 n) | _ => None end
  end.

(** ** Printing *)

Definition octets (n : Z) : list Z := (fun i => Z.shiftr n i mod 256) <$> [24; 16; 8; 0].
Definition segments (n : Z) : list Z := (fun i => Z.shiftr n i mod 65536) <$> [112; 96; 80; 64; 48; 32; 16; 0].
Definition hex_char (d : Z) : ascii := byte (Z.to_N (if decide (d < 10) then d + 48 else d + 87)).
Fixpoint hex_fuel (fuel : nat) (n : Z) (acc : string) : string :=
  match fuel with
  | O => acc
  | S fuel' => let acc := String (hex_char (n mod 16)) acc in if decide (n < 16) then acc else hex_fuel fuel' (n / 16) acc
  end.
(** [{:x}] of a [u16]. *)
Definition hex16 (n : Z) : string := hex_fuel 4 n "".

Definition print_v4 (n : Z) : string := join "." (pretty <$> octets n).
Definition print_segments (gs : list Z) : string := join ":" (hex16 <$> gs).

(** The first longest run of zeros: the state of the loop is the longest and the current run, as
    start and length. *)
Definition longest_zeros (gs : list Z) : nat * nat :=
  (foldl (fun '(longest, current) '(i, g) =>
            if decide (g = 0) then
              let current := (if decide (current.2 = 0%nat) then i else current.1, S current.2) in
              (if decide (longest.2 < current.2)%nat then current else longest, current)
            else (longest, (0, 0)%nat))
         ((0, 0), (0, 0))%nat (imap pair gs)).1.

Definition print_v6 (n : Z) : string :=
  let gs := segments n in
  if decide (take 6 gs = [0; 0; 0; 0; 0; 65535]) then "::ffff:" +:+ print_v4 (n mod 2 ^ 32)
  else
    let '(start, len) := longest_zeros gs in
    if decide (1 < len)%nat then print_segments (take start gs) +:+ "::" +:+ print_segments (drop (start + len) gs)
    else print_segments gs.

Definition ip_to_string (ip : IpAddr) : string := match ip with V4 n => print_v4 n | V6 n => print_v6 n end.

(** ** Networks *)

Record TrustedCidr := { ci_network : IpAddr; ci_prefix_len : Z }.

Definition parse_cidr (raw : string) : result string TrustedCidr :=
  '(ip_raw, prefix_raw) ← ok_or (split_once "/" raw) ("invalid trusted proxy CIDR: " +:+ raw);
  network ← ok_or (parse_ip ip_raw) ("invalid trusted proxy CIDR ip: " +:+ raw);
  prefix_len ← ok_or (parse_unsigned 255 prefix_raw) ("invalid trusted proxy CIDR prefix: " +:+ raw);
  if decide (width network < prefix_len) then Err ("trusted proxy CIDR out of range: " +:+ raw)
  else Ok {| ci_network := network; ci_prefix_len := prefix_len |}.

(** [MAX << (w - prefix_len)] in [w] bits; a shift by the whole width would overflow and is avoided. *)
Definition mask (w prefix_len : Z) : Z :=
  if decide (prefix_len = 0) then 0 else Z.land (Z.shiftl (2 ^ w - 1) (w - prefix_len)) (2 ^ w - 1).
Definition ip_in_cidr (ip network : IpAddr) (prefix_len : Z) : bool :=
  match ip, network with
  | V4 ip_u, V4 net_u => bool_decide (Z.land ip_u (mask 32 prefix_len) = Z.land net_u (mask 32 prefix_len))
  | V6 ip_u, V6 net_u => bool_decide (Z.land ip_u (mask 128 prefix_len) = Z.land net_u (mask 128 prefix_len))
  | _, _ => false
  end.
Definition is_trusted_proxy (ip : IpAddr) (trusted_proxy_cidrs : list TrustedCidr) : bool :=
  any (fun cidr => ip_in_cidr ip (ci_network cidr) (ci_prefix_len cidr)) trusted_proxy_cidrs.

(** ** What the network test means *)

Lemma mask_testbit w p i : 0 <= p <= w -> 0 <= i < w -> Z.testbit (mask w p) i = bool_decide (w - p <= i).
Proof.
  intros Hp Hi. unfold mask. case_decide as Hz; [subst p; rewrite Z.bits_0; symmetry; apply bool_decide_eq_false; lia|].
  rewrite Z.land_spec, Z.shiftl_spec by lia. replace (2 ^ w - 1) with (Z.ones w) by (rewrite Z.ones_equiv; lia).
  rewrite (Z.ones_spec_low w i) by lia. rewrite andb_true_r.
  case_bool_decide; [apply Z.ones_spec_low|rewrite Z.testbit_neg_r]; lia.
Qed.

Lemma testbit_above w a i : 0 <= w <= i -> 0 <= a < 2 ^ w -> Z.testbit a i = false.
Proof. intros Hi Ha. rewrite <- (Z.mod_small a (2 ^ w)) by done. apply Z.mod_pow2_bits_high. lia. Qed.

Lemma land_mask w p a b :
  0 <= p <= w -> 0 <= a < 2 ^ w -> 0 <= b < 2 ^ w ->
  Z.land a (mask w p) = Z.land b (mask w p) <-> Z.shiftr a (w - p) = Z.shiftr b (w - p).
Proof.
  intros Hp Ha Hb. split; intros H; apply Z.bits_inj'; intros i Hi.
  - rewrite !Z.shiftr_spec by lia. destruct (decide (i + (w - p) < w)) as [Hl|Hl].
    + apply (f_equal (fun z => Z.testbit z (i + (w - p)))) in H. rewrite !Z.land_spec, !mask_testbit, !bool_decide_eq_true_2, !andb_true_r in H by lia. done.
    + by rewrite !(testbit_above w) by (done || lia).
  - rewrite !Z.land_spec. destruct (decide (i < w)) as [Hl|Hl].
    + rewrite mask_testbit by lia. case_bool_decide; [|by rewrite !andb_false_r]. rewrite !andb_true_r.
      apply (f_equal (fun z => Z.testbit z (i - (w - p)))) in H. rewrite !Z.shiftr_spec in H by lia. by rewrite Z.sub_add in H.
    + assert (Z.testbit (mask w p) i = false) as ->; [|by rewrite !andb_false_r]. unfold mask. case_decide; [apply Z.bits_0|].
      rewrite Z.land_spec. replace (2 ^ w - 1) with (Z.ones w) by (rewrite Z.ones_equiv; lia). rewrite (Z.ones_spec_high w i) by lia. apply andb_false_r.
Qed.

(** The addresses of a network are those of its kind with the same first [prefix_len] bits. *)
Definition same_network (ip network : IpAddr) (prefix_len : Z) : Prop :=
  width ip = width network /\ Z.shiftr (number ip) (width ip - prefix_len) = Z.shiftr (number network) (width ip - prefix_len).

Lemma ip_in_cidr_spec ip network p :
  in_range ip -> in_range network -> 0 <= p <= width network -> ip_in_cidr ip network p = true <-> same_network ip network p.
Proof.
  unfold in_range, same_network. destruct ip as [a|a], network as [b|b]; cbn [width number ip_in_cidr]; intros Ha Hb Hp;
    try (split; [done|by intros []]).
  all: rewrite bool_decide_eq_true, land_mask by done; by split; [intros ?|intros []].
Qed.

(** ** Addresses are read back as they are printed *)

Lemma read_digits_app radix s ds rest :
  read_digits radix s = (ds, "") -> (read_digits radix rest).1 = [] -> read_digits radix (s +:+ rest) = (ds, rest).
Proof.
  revert ds. induction s as [|c s IH]; intros ds; cbn.
  - intros [= <-] Hr. destruct rest as [|c rest]; [done|]. cbn in *. destruct (to_digit radix c); [|done]. by destruct (read_digits radix rest).
  - destruct (to_digit radix c) as [d|]; [|done]. destruct (read_digits radix s) as [ds' r] eqn:E. intros [= <- ->] Hr. by rewrite (IH ds').
Qed.

Lemma read_number_app radix max k z s v rest :
  read_number radix max k z s = Some (v, "") -> (read_digits radix rest).1 = [] -> read_number radix max k z (s +:+ rest) = Some (v, rest).
Proof.
  unfold read_number. destruct (read_digits radix s) as [ds r] eqn:E. case_decide as Hd; [done|]. destruct (_ && _) eqn:Hz; [done|].
  intros [= <- ->] Hr. rewrite (read_digits_app _ _ ds) by done. by rewrite decide_False, Hz.
Qed.

(** Counting up from [n]. *)
Fixpoint check_from (p : Z -> bool) (fuel : nat) (n : Z) : bool :=
  match fuel with O => true | S fuel' => p n && check_from p fuel' (n + 1) end.
Lemma check_from_spec p fuel n k : check_from p fuel n = true -> n <= k < n + Z.of_nat fuel -> p k = true.
Proof.
  revert n. induction fuel as [|fuel IH]; intros n; cbn; [lia|]. intros [Hn H]%andb_true_iff Hk.
  destruct (decide (k = n)) as [->|]; [done|]. apply (IH (n + 1)); [done|lia].
Qed.

Definition octet_ok (n : Z) : bool := bool_decide (read_number 10 255 3 false (pretty n) = Some (n, "")).
Definition group_ok (n : Z) : bool := bool_decide (read_number 16 u16_max 4 true (hex16 n) = Some (n, "")).
Lemma octets_ok : check_from octet_ok 256 0 = true.
Proof. vm_compute. reflexivity. Qed.
Lemma groups_ok : check_from group_ok (Z.to_nat 65536) 0 = true.
Proof. vm_compute. reflexivity. Qed.

Lemma octet_read n rest : 0 <= n < 256 -> (read_digits 10 rest).1 = [] -> read_number 10 255 3 false (pretty n +:+ rest) = Some (n, rest).
Proof. intros Hn. apply read_number_app. pose proof (check_from_spec _ _ _ n octets_ok Hn) as H. by apply bool_decide_eq_true in H. Qed.
Lemma group_read n rest : 0 <= n < 65536 -> (read_digits 16 rest).1 = [] -> read_number 16 u16_max 4 true (hex16 n +:+ rest) = Some (n, rest).
Proof.
  intros Hn. apply read_number_app. pose proof (check_from_spec _ _ _ n groups_ok) as H. rewrite Z2Nat.id in H by lia.
  specialize (H Hn). by apply bool_decide_eq_true in H.
Qed.

Lemma first_octet n rest : 0 <= n < 256 -> (read_digits 10 rest).1 = [] -> read_octet 0 (pretty n +:+ rest) = Some (n, rest).
Proof. apply octet_read. Qed.
Lemma next_octet i n rest : 0 <= n < 256 -> (read_digits 10 rest).1 = [] -> read_octet (S i) ("." +:+ pretty n +:+ rest) = Some (n, rest).
Proof. apply octet_read. Qed.

Lemma v4_read n rest : 0 <= n < 2 ^ 32 -> (read_digits 10 rest).1 = [] -> read_ipv4_addr (print_v4 n +:+ rest) = Some (n, rest).
Proof.
  intros Hn Hr. unfold read_ipv4_addr, print_v4, octets. cbn [fmap list_fmap join].
  rewrite !str_app_assoc, !Z.shiftr_div_pow2 by lia.
  assert (forall k, 0 <= n / 2 ^ k mod 256 < 256) as Hb by (intros k; apply Z.mod_pos_bound; lia).
  rewrite first_octet by done. cbn [mbind option_bind]. do 3 (rewrite next_octet by done; cbn [mbind option_bind]). do 2 f_equal.
  pose proof (Z.div_mod n 256 ltac:(lia)). pose proof (Z.div_mod (n / 256) 256 ltac:(lia)). pose proof (Z.div_mod (n / 256 / 256) 256 ltac:(lia)).
  rewrite !Z.div_div in * by lia. change (2 ^ 24) with (256 * 256 * 256). change (2 ^ 16) with (256 * 256). change (2 ^ 8) with 256. change (2 ^ 0) with 1.
  rewrite Z.div_1_r. assert (n / (256 * 256 * 256) < 256) by (apply Z.div_lt_upper_bound; lia).
  rewrite (Z.mod_small (n / (256 * 256 * 256)) 256) by (split; [apply Z.div_pos; lia|done]). lia.
Qed.

(** Groups as they follow others. *)
Fixpoint groups_text (index : nat) (gs : list Z) : string :=
  match gs with
  | [] => ""
  | g :: gs' => (match index with O => "" | S _ => ":" end) +:+ hex16 g +:+ groups_text (S index) gs'
  end.
Lemma join_groups g gs i : join ":" (hex16 <$> g :: gs) = hex16 g +:+ groups_text (S i) gs.
Proof.
  revert g i. induction gs as [|g' gs IH]; intros g i; [cbn; by rewrite str_app_nil_r|].
  change (hex16 <$> g :: g' :: gs) with (hex16 g :: hex16 g' :: (hex16 <$> gs)). rewrite join_cons. f_equal.
  change (hex16 g' :: (hex16 <$> gs)) with (hex16 <$> g' :: gs). by rewrite (IH g' (S i)).
Qed.
Lemma print_segments_text gs : print_segments gs = groups_text 0 gs.
Proof. destruct gs as [|g gs]; [done|]. apply (join_groups g gs 0). Qed.

Lemma read_digits_suffix radix s : exists l, s = l +:+ (read_digits radix s).2.
Proof.
  induction s as [|c s IH]; cbn; [by exists ""|]. destruct (to_digit radix c); [|by exists ""].
  destruct IH as [l Hl]. destruct (read_digits radix s). cbn in *. exists (String c l). by rewrite Hl at 1.
Qed.
Lemma first_octet_suffix s n rest : read_octet 0 s = Some (n, rest) -> exists l, s = l +:+ rest.
Proof.
  unfold read_octet, read_separator, read_number. destruct (read_digits_suffix 10 s) as [l Hl].
  destruct (read_digits 10 s) as [ds r]. cbn in Hl. case_decide; [done|]. destruct (_ && _); [done|]. intros [= _ <-]. by exists l.
Qed.
Lemma next_octet_no_dot i s : clean "." s -> read_octet (S i) s = None.
Proof.
  intros Hs. unfold read_octet, read_separator, read_given_char. destruct s as [|a s]; [done|]. cbn in Hs. case_decide; [|done]. by subst a.
Qed.
Lemma read_v4_no_dot s : clean "." s -> read_ipv4_addr s = None.
Proof.
  intros Hs. unfold read_ipv4_addr. destruct (read_octet 0 s) as [[n rest]|] eqn:E; [|done]. cbn [mbind option_bind].
  destruct (first_octet_suffix _ _ _ E) as [l ->]. rewrite str_forall_app in Hs. apply andb_true_iff in Hs as [_ Hs].
  by rewrite next_octet_no_dot.
Qed.

(** Where a list of groups may end. *)
Definition ends (rest : string) : Prop := rest = "" \/ exists r, rest = "::" +:+ r.
Lemma ends_stops rest : ends rest -> (read_digits 16 rest).1 = [].
Proof. by intros [->|[r ->]]. Qed.
Lemma groups_stop i gs rest : ends rest -> (read_digits 16 (groups_text (S i) gs +:+ rest)).1 = [].
Proof. destruct gs; [apply ends_stops|done]. Qed.

Lemma read_groups_text gs left index rest :
  Forall (fun g => 0 <= g < 65536) gs -> (length gs <= left)%nat -> ends rest -> clean "." (groups_text index gs +:+ rest) ->
  read_groups left index (groups_text index gs +:+ rest) = (gs, false, rest).
Proof.
  intros Hgs. revert left index. induction Hgs as [|g gs Hg Hgs IH]; intros left index Hl He Hc.
  - destruct left as [|left]; [done|]. cbn [groups_text String.append read_groups] in *.
    assert (read_separator ":" index (read_number 16 u16_max 4 true) rest = None) as -> by (by destruct He as [->|[r ->]], index).
    destruct left; [done|]. destruct index; cbn [read_separator]; [by rewrite read_v4_no_dot|]. by destruct He as [->|[r ->]].
  - destruct left as [|left]; [cbn in Hl; lia|]. cbn [read_groups groups_text] in *. rewrite !str_app_assoc in *.
    set (tail := groups_text (S index) gs +:+ rest) in *. set (s := _ +:+ hex16 g +:+ tail) in *.
    assert (read_separator ":" index (read_number 16 u16_max 4 true) s = Some (g, tail)) as ->.
    { unfold s. pose proof (group_read g tail Hg (groups_stop index gs rest He)). by destruct index. }
    assert (read_groups left (S index) tail = (gs, false, rest)) as ->.
    { apply IH; [cbn in Hl; lia|done|]. unfold s in Hc. rewrite !str_forall_app in Hc. by apply andb_true_iff in Hc as [_ [_ Hc]%andb_true_iff]. }
    destruct left as [|left]; [done|].
    assert (read_separator ":" index read_ipv4_addr s = None) as ->; [|done].
    unfold s in *. rewrite str_forall_app in Hc. apply andb_true_iff in Hc as [_ Hc]. destruct index; by apply read_v4_no_dot.
Qed.

(** The run of zeros that is left out. *)
Definition zeros_at (gs : list Z) (span : nat * nat) : Prop :=
  (span.1 + span.2 <= length gs)%nat /\ take span.2 (drop span.1 gs) = replicate span.2 0.
Lemma zeros_at_app gs g span : zeros_at gs span -> zeros_at (gs ++ [g]) span.
Proof.
  intros [H1 H2]. split; [rewrite length_app; lia|]. rewrite drop_app_le by lia. rewrite take_app_le; [done|]. rewrite length_drop. lia.
Qed.
Lemma longest_zeros_ok gs : zeros_at gs (longest_zeros gs).
Proof.
  unfold longest_zeros. set (step := fun '(longest, current) '(i, g) => _).
  enough (let '(longest, current) := foldl step ((0, 0), (0, 0))%nat (imap pair gs) in
    zeros_at gs longest /\ zeros_at gs current /\ (current.2 = 0%nat \/ (current.1 + current.2)%nat = length gs)) as H
    by (destruct (foldl _ _ _); apply H).
  induction gs as [|g gs IH] using rev_ind; [by split_and!; [split|split|left]|].
  rewrite imap_app, foldl_app. cbn [imap foldl]. rewrite Nat.add_0_r. cbn [compose].
  destruct (foldl step _ (imap pair gs)) as [longest current]. destruct IH as (Hl & Hc & He). unfold step at 1.
  case_decide as Hg; [|split_and!; [by apply zeros_at_app|by split; cbn; [lia|]|by left]]. subst g.
  set (next := (if decide (current.2 = 0%nat) then length gs else current.1, S current.2)).
  assert (zeros_at (gs ++ [0]) next /\ (next.1 + next.2)%nat = S (length gs)) as [Hn Hs].
  { unfold next. case_decide as Hz; cbn; rewrite ?Hz.
    - split; [|lia]. split; [rewrite length_app; cbn; lia|]. cbn [fst snd]. by rewrite drop_app_length.
    - destruct He as [He|He]; [lia|]. split; [|lia]. split; [rewrite length_app; cbn; lia|]. cbn [fst snd]. destruct Hc as [Hc1 Hc2].
      rewrite drop_app_le by lia. assert (length (drop current.1 gs) = current.2) as Hd by (rewrite length_drop; lia).
      rewrite firstn_all2 by (rewrite length_app, Hd; cbn; lia). rewrite <- Hd, firstn_all in Hc2. rewrite Hc2, Hd. by rewrite <- (replicate_cons_app current.2 0). }
  rewrite length_app. cbn [length]. split_and!; [case_decide; [done|by apply zeros_at_app]|done|right; lia].
Qed.

Lemma segments_of_groups n : 0 <= n < 2 ^ 128 -> of_groups (segments n) = n.
Proof.
  intros Hn. unfold of_groups, segments. cbn [fmap list_fmap foldl]. rewrite !Z.shiftr_div_pow2 by lia.
  assert (forall k k', k' = k + 16 -> 0 <= k -> n / 2 ^ k = n / 2 ^ k' * 65536 + n / 2 ^ k mod 65536) as Hs.
  { intros k k' -> Hk. rewrite Z.pow_add_r by lia. rewrite <- Z.div_div by (try apply Z.pow_nonzero; lia). change (2 ^ 16) with 65536. pose proof (Z.div_mod (n / 2 ^ k) 65536 ltac:(lia)). lia. }
  pose proof (Hs 0 16 eq_refl ltac:(lia)) as H0. pose proof (Hs 16 32 eq_refl ltac:(lia)) as H1. pose proof (Hs 32 48 eq_refl ltac:(lia)) as H2. pose proof (Hs 48 64 eq_refl ltac:(lia)) as H3.
  pose proof (Hs 64 80 eq_refl ltac:(lia)) as H4. pose proof (Hs 80 96 eq_refl ltac:(lia)) as H5. pose proof (Hs 96 112 eq_refl ltac:(lia)) as H6.
  assert (n / 2 ^ 112 mod 65536 = n / 2 ^ 112) as ->.
  { apply Z.mod_small. split; [apply Z.div_pos; lia|]. apply Z.div_lt_upper_bound; lia. }
  change (2 ^ 0) with 1 in *. rewrite Z.div_1_r in *. clear Hs Hn.
  repeat match goal with |- context [?a mod 65536] => generalize dependent (a mod 65536); intros end.
  repeat match goal with H : context [n / ?d] |- _ => generalize dependent (n / d); intros end. lia.
Qed.

Lemma segments_range n : Forall (fun g => 0 <= g < 65536) (segments n).
Proof. unfold segments. repeat constructor; apply Z.mod_pos_bound; lia. Qed.

(** A text without a dot is no IPv4 address, and groups have none. *)
Lemma hex_no_dot n : 0 <= n < 65536 -> clean "." (hex16 n).
Proof.
  intros Hn. unfold hex16. assert (forall fuel m acc, clean "." acc -> clean "." (hex_fuel fuel m acc)) as H; [|by apply H].
  induction fuel as [|fuel IH]; intros m acc Hacc; [done|]. cbn. assert (clean "." (String (hex_char (m mod 16)) acc)) as Hc.
  { cbn. rewrite Hacc, andb_true_r. pose proof (Z.mod_pos_bound m 16 ltac:(lia)) as Hm. revert Hm. generalize (m mod 16) as d. intros d Hd.
    assert (d = 0 \/ d = 1 \/ d = 2 \/ d = 3 \/ d = 4 \/ d = 5 \/ d = 6 \/ d = 7 \/ d = 8 \/ d = 9 \/ d = 10 \/ d = 11 \/ d = 12 \/ d = 13 \/ d = 14 \/ d = 15) as Hv by lia.
    by repeat destruct Hv as [->|Hv]; [..|subst d]. }
  case_decide; [done|]. by apply IH.
Qed.
Lemma groups_no_dot gs i : Forall (fun g => 0 <= g < 65536) gs -> clean "." (groups_text i gs).
Proof.
  intros H. revert i. induction H as [|g gs Hg _ IH]; intros i; [done|]. cbn [groups_text]. rewrite !str_forall_app, IH, (hex_no_dot g Hg). by destruct i.
Qed.

Lemma v6_read n : 0 <= n < 2 ^ 128 -> take 6 (segments n) <> [0; 0; 0; 0; 0; 65535] -> read_ipv6_addr (print_v6 n) = Some (n, "").
Proof.
  intros Hn Hm. unfold print_v6. rewrite decide_False by done. pose proof (segments_range n) as Hr. pose proof (longest_zeros_ok (segments n)) as Hz.
  assert (length (segments n) = 8%nat) as H8 by done. destruct (longest_zeros (segments n)) as [start len]. destruct Hz as [Hz1 Hz2].
  cbn [fst snd] in *. rewrite !print_segments_text. unfold read_ipv6_addr. case_decide as Hl.
  - set (head := take start (segments n)). set (tail := drop (start + len) (segments n)).
    assert (Forall (fun g => 0 <= g < 65536) head) as Hh by by apply Forall_take. assert (Forall (fun g => 0 <= g < 65536) tail) as Ht by by apply Forall_drop.
    assert (length head = start) as Lh by (unfold head; rewrite length_take; lia). assert (length tail = (8 - start - len)%nat) as Lt by (unfold tail; rewrite length_drop; lia).
    rewrite read_groups_text; [|done|lia|by right; exists (groups_text 0 tail)|by rewrite !str_forall_app, !groups_no_dot].
    rewrite decide_False by lia. change (read_given_char ":" ("::" +:+ groups_text 0 tail)) with (Some (tt, ":" +:+ groups_text 0 tail)).
    cbn [mbind option_bind]. change (read_given_char ":" (":" +:+ groups_text 0 tail)) with (Some (tt, groups_text 0 tail)). cbn [mbind option_bind].
    rewrite <- (str_app_nil_r (groups_text 0 tail)). rewrite read_groups_text; [|done|lia|by left|by rewrite str_app_nil_r, groups_no_dot].
    cut (head ++ replicate (8 - length head - length tail) 0 ++ tail = segments n); [intros ->; by rewrite segments_of_groups|]. replace (8 - length head - length tail)%nat with len by lia.
    rewrite <- Hz2. unfold head, tail. rewrite <- drop_drop, take_drop. apply take_drop.
  - rewrite <- (str_app_nil_r (groups_text 0 _)). rewrite read_groups_text; [|done|lia|by left|by rewrite str_app_nil_r, groups_no_dot].
    rewrite decide_True by done. by rewrite segments_of_groups.
Qed.

Lemma mapped_read n : 0 <= n < 2 ^ 32 -> read_ipv6_addr ("::ffff:" +:+ print_v4 n) = Some (65535 * 2 ^ 32 + n, "").
Proof.
  intros Hn. unfold read_ipv6_addr.
  change (read_groups 8 0 _) with (@nil Z, false, "::ffff:" +:+ print_v4 n). cbn [length]. rewrite decide_False by done.
  change (read_given_char ":" ("::ffff:" +:+ print_v4 n)) with (Some (tt, ":ffff:" +:+ print_v4 n)). cbn [mbind option_bind].
  change (read_given_char ":" (":ffff:" +:+ print_v4 n)) with (Some (tt, "ffff:" +:+ print_v4 n)). cbn [mbind option_bind].
  change (read_groups (7 - 0) 0 _) with (let '(gs, v4, rest) := read_groups 6 1 (":" +:+ print_v4 n) in (65535 :: gs, v4, rest)).
  assert (read_groups 6 1 (":" +:+ print_v4 n) = ([n / 65536; n mod 65536], true, "")) as ->.
  { cbn [read_groups]. change (read_separator ":" 1 read_ipv4_addr (":" +:+ print_v4 n)) with (read_ipv4_addr (print_v4 n)).
    by rewrite <- (str_app_nil_r (print_v4 n)), v4_read. }
  do 2 f_equal. cbn [app length Nat.sub replicate of_groups foldl].
  unfold of_groups. cbn [foldl]. pose proof (Z.div_mod n 65536 ltac:(lia)). lia.
Qed.

Lemma mapped_number n : 0 <= n < 2 ^ 128 -> take 6 (segments n) = [0; 0; 0; 0; 0; 65535] -> n = 65535 * 2 ^ 32 + n mod 2 ^ 32.
Proof.
  intros Hn Ht. pose proof (segments_of_groups n Hn) as Hs. pose proof (segments_range n) as Hr. rewrite <- (take_drop 6 (segments n)), Ht in Hs, Hr.
  destruct (drop 6 (segments n)) as [|hi [|lo [|]]] eqn:E; try discriminate E.
  unfold of_groups in Hs. cbn [app foldl] in Hs. do 6 (apply Forall_cons in Hr as [_ Hr]). apply Forall_cons in Hr as [Hhi Hr]. apply Forall_cons in Hr as [Hlo _].
  rewrite <- Hs. rewrite <- (Z.mod_unique _ (2 ^ 32) 65535 (hi * 65536 + lo)) by lia. lia.
Qed.

Lemma print_v6_not_v4 n : 0 <= n < 2 ^ 128 -> read_ipv4_addr (print_v6 n) = None.
Proof.
  intros Hn. unfold print_v6. case_decide; [done|]. apply read_v4_no_dot. pose proof (segments_range n) as Hr.
  destruct (longest_zeros _) as [start len]. rewrite !print_segments_text.
  case_decide; rewrite ?str_forall_app, !groups_no_dot by (done || by apply Forall_take || by apply Forall_drop); done.
Qed.

Lemma ip_text_round_trip ip : in_range ip -> parse_ip (ip_to_string ip) = Some ip.
Proof.
  unfold in_range. destruct ip as [n|n]; cbn [width number ip_to_string]; intros Hn; unfold parse_ip.
  - rewrite <- (str_app_nil_r (print_v4 n)), v4_read by done. done.
  - rewrite print_v6_not_v4 by done. destruct (decide (take 6 (segments n) = [0; 0; 0; 0; 0; 65535])) as [Hm|Hm]; [|by rewrite v6_read].
    unfold print_v6. rewrite decide_True by done. rewrite mapped_read by (apply Z.mod_pos_bound; lia). by rewrite <- mapped_number.
Qed.

(** ** Parsed addresses are in range *)

Lemma hex_digit_nonneg c d : hex_digit c = Some d -> 0 <= d.
Proof.
  unfold hex_digit, is_ascii_digit, is_ascii_lower, is_ascii_upper, between. intros H.
  destruct (_ && _) eqn:E1 in H; [injection H as <-; apply andb_true_iff in E1 as [E1%N.leb_le _]; lia|].
  destruct (_ && _) eqn:E2 in H; [injection H as <-; apply andb_true_iff in E2 as [[E2%N.leb_le _]%andb_true_iff _]; lia|].
  destruct (_ && _) eqn:E3 in H; [injection H as <-; apply andb_true_iff in E3 as [[E3%N.leb_le _]%andb_true_iff _]; lia|done].
Qed.
Lemma read_digits_nonneg radix s : Forall (fun d => 0 <= d) (read_digits radix s).1.
Proof.
  induction s as [|c s IH]; cbn; [constructor|]. unfold to_digit. destruct (hex_digit c) as [d|] eqn:E; cbn; [|constructor].
  case_decide; [|constructor]. destruct (read_digits radix s). constructor; [by eapply hex_digit_nonneg|done].
Qed.
Lemma value_of_digits_nonneg radix ds : 0 <= radix -> Forall (fun d => 0 <= d) ds -> 0 <= value_of_digits radix ds.
Proof.
  intros Hr H. unfold value_of_digits. assert (forall acc, 0 <= acc -> 0 <= foldl (fun acc d => acc * radix + d) acc ds) as Hg; [|by apply Hg].
  induction H as [|d ds Hd _ IH]; intros acc Hacc; [done|]. cbn. apply IH. nia.
Qed.
Lemma read_number_range radix max k z s v rest : 0 <= radix -> read_number radix max k z s = Some (v, rest) -> 0 <= v <= max.
Proof.
  intros Hr. unfold read_number. pose proof (read_digits_nonneg radix s) as Hd. destruct (read_digits radix s) as [ds r]. cbn in Hd.
  case_decide as Hb; [done|]. destruct (_ && _); [done|]. intros [= <- _]. pose proof (value_of_digits_nonneg radix ds Hr Hd). lia.
Qed.
Lemma read_separator_Some {A} sep i (inner : Reader A) s x : read_separator sep i inner s = Some x -> exists s', inner s' = Some x.
Proof. destruct i; cbn; [by exists s|]. intros ([[] s'] & _ & H)%bind_Some. by exists s'. Qed.

Lemma read_v4_range s n rest : read_ipv4_addr s = Some (n, rest) -> 0 <= n < 2 ^ 32.
Proof.
  assert (forall i s n rest, read_octet i s = Some (n, rest) -> 0 <= n <= 255) as Ho.
  { intros i s0 n0 r0 (s' & H)%read_separator_Some. by eapply read_number_range; [|exact H]. }
  unfold read_ipv4_addr. intros ([a s1] & Ha%Ho & ([b s2] & Hb%Ho & ([c s3] & Hc%Ho & ([d s4] & Hd%Ho & [= <- _])%bind_Some)%bind_Some)%bind_Some)%bind_Some. lia.
Qed.

Lemma read_groups_range left i s :
  Forall (fun g => 0 <= g < 65536) (read_groups left i s).1.1 /\ (length (read_groups left i s).1.1 <= left)%nat.
Proof.
  revert i s. induction left as [|left IH]; intros i s; [by split|]. cbn [read_groups].
  set (group := match read_separator ":" i (read_number 16 u16_max 4 true) s with Some _ => _ | None => _ end).
  assert (Forall (fun g => 0 <= g < 65536) group.1.1 /\ (length group.1.1 <= S left)%nat) as Hg.
  { unfold group. destruct (read_separator _ _ _ _) as [[g rest]|] eqn:E; [|by split; [|cbn; lia]].
    apply read_separator_Some in E as (s' & E). apply read_number_range in E; [|done]. change u16_max with 65535 in E.
    destruct (IH (S i) rest) as [H1 H2]. destruct (read_groups left (S i) rest) as [[gs v4] r]. cbn in *. split; [constructor; [lia|done]|lia]. }
  destruct left as [|left]; [done|]. destruct (read_separator ":" i read_ipv4_addr s) as [[n rest]|] eqn:E; [|done].
  apply read_separator_Some in E as (s' & E). apply read_v4_range in E. cbn. split; [|lia].
  repeat constructor; try (apply Z.mod_pos_bound; lia); [apply Z.div_pos; lia|apply Z.div_lt_upper_bound; lia].
Qed.

Lemma of_groups_range gs : Forall (fun g => 0 <= g < 65536) gs -> length gs = 8%nat -> 0 <= of_groups gs < 2 ^ 128.
Proof.
  intros H Hl. assert (forall acc k, 0 <= acc < 2 ^ k -> 0 <= k -> 0 <= foldl (fun acc g => acc * 65536 + g) acc gs < 2 ^ (k + 16 * Z.of_nat (length gs))) as Hg.
  { clear Hl. induction H as [|g gs Hg _ IH]; intros acc k Ha Hk; [cbn; by rewrite Z.add_0_r|]. cbn [foldl length].
    replace (k + 16 * Z.of_nat (S (length gs))) with ((k + 16) + 16 * Z.of_nat (length gs)) by lia. apply IH; [|lia].
    rewrite Z.pow_add_r by lia. change (2 ^ 16) with 65536. nia. }
  specialize (Hg 0 0). rewrite Hl in Hg. apply Hg; cbn; lia.
Qed.

Lemma read_v6_range s n rest : read_ipv6_addr s = Some (n, rest) -> 0 <= n < 2 ^ 128.
Proof.
  unfold read_ipv6_addr. destruct (read_groups_range 8 0 s) as [H1 H2]. destruct (read_groups 8 0 s) as [[head v4] r]. cbn in H1, H2.
  case_decide as H8; [intros [= <- _]; by apply of_groups_range|]. destruct v4; [done|].
  intros ([[] r1] & _ & ([[] r2] & _ & H)%bind_Some)%bind_Some. destruct (read_groups_range (7 - length head) 0 r2) as [H3 H4].
  destruct (read_groups (7 - length head) 0 r2) as [[tail v4] r3]. cbn in H3, H4. injection H as <- _. apply of_groups_range.
  - apply Forall_app. split; [done|]. apply Forall_app. split; [apply Forall_replicate; lia|done].
  - rewrite !length_app, length_replicate. lia.
Qed.

Lemma parse_ip_range s ip : parse_ip s = Some ip -> in_range ip.
Proof.
  unfold parse_ip, in_range. destruct (read_ipv4_addr s) as [[n [|]]|] eqn:E4; [intros [= <-]; by eapply read_v4_range|done|].
  destruct (read_ipv6_addr s) as [[n [|]]|] eqn:E6; [intros [= <-]; by eapply read_v6_range|done..].
Qed.

(** A network that was configured has a prefix within its width. *)
Lemma parse_cidr_range raw c : parse_cidr raw = Ok c -> in_range (ci_network c) /\ 0 <= ci_prefix_len c <= width (ci_network c).
Proof.
  unfold parse_cidr. intros ([ip_raw prefix_raw] & _ & (network & Hn & (p & Hp & H)%bind_Ok)%bind_Ok)%bind_Ok.
  unfold ok_or in *. destruct (parse_ip ip_raw) as [ip|] eqn:E; [|done]. injection Hn as ->. destruct (parse_unsigned 255 prefix_raw) as [p'|] eqn:E'; [|done].
  injection Hp as ->. apply parse_unsigned_range in E'. case_decide; [done|]. injection H as <-. cbn. split; [by eapply parse_ip_range|lia].
Qed.
