(* ===== verification/Json.v ===== *)
(** * JSON values and derived (de)serialisation

    A parsed document as [serde_json] presents it, with the fields of an object in the order of
    the text, and what [#[derive(Serialize, Deserialize)]] makes of a struct: fields in order,
    [skip_serializing_if], [default], unknown fields ignored, a repeated field an error, and an
    array accepted in place of an object.  Turning text into a document and back is the library's
    work: the class [JsonText], with the round trip of documents without fractional numbers. *)

From S2P Require Import Prelude RustStr RustNum.
From stdpp Require Import countable.
From Stdlib Require Import SpecFloat.

Inductive Json :=
  | JNull
  | JBool (b : bool)
  | JInt (z : Z)
  | JFloat (f : float)
  | JStr (s : string)
  | JArr (vs : list Json)
  | JObj (fields : list (string * Json)).

(** No fractional number anywhere in the document. *)
Fixpoint exact (v : Json) : bool :=
  match v with
  | JFloat _ => false
  | JArr vs => forallb exact vs
  | JObj fields => forallb (fun f => exact f.2) fields
  | _ => true
  end.

Class JsonText := {
  (** [serde_json::to_string] of a document *)
  json_print : Json -> string;
  (** [serde_json::from_str::<Value>], with the fields as they stand in the text *)
  json_parse : string -> result string Json;
  json_parse_print v : exact v = true -> json_parse (json_print v) = Ok v
}.

(** [Map::get] and the accessors of [Value]. *)
Definition obj_get (key : string) (fields : list (string * Json)) : option Json := snd <$> find_first (fun f => bool_decide (f.1 = key)) fields.
Definition as_str (v : Json) : option string := match v with JStr s => Some s | _ => None end.
Definition as_bool (v : Json) : option bool := match v with JBool b => Some b | _ => None end.

(** ** Serialisation *)

Definition json_opt {A} (f : A -> Json) (o : option A) : Json :=
  match o with Some a => f a | None => JNull end.
(** A field with [skip_serializing_if = "Option::is_none"]. *)
Definition field_opt {A} (name : string) (f : A -> Json) (o : option A) : list (string * Json) :=
  match o with Some a => [(name, f a)] | None => [] end.

(** ** Deserialisation *)

Definition struct_fields (names : list string) (v : Json) : result string (list (string * Json)) :=
  match v with
  | JObj fields => Ok fields
  | JArr vs => if decide (length vs <= length names) then Ok (zip names vs) else Err "trailing characters"
  | _ => Err "invalid type"
  end.

Definition lookup_field (name : string) (fields : list (string * Json)) : result string (option Json) :=
  match filter (fun f => f.1 = name) fields with
  | [] => Ok None
  | [f] => Ok (Some f.2)
  | _ => Err ("duplicate field `" +:+ name +:+ "`")
  end.

Definition required {A} (name : string) (f : Json -> result string A) (fields : list (string * Json))
    : result string A :=
  v ← lookup_field name fields;
  match v with Some v => f v | None => Err ("missing field `" +:+ name +:+ "`") end.
Definition defaulted {A} (name : string) (f : Json -> result string A) (d : A)
    (fields : list (string * Json)) : result string A :=
  v ← lookup_field name fields;
  match v with Some v => f v | None => Ok d end.
Definition de_option {A} (f : Json -> result string A) (v : Json) : result string (option A) :=
  match v with JNull => Ok None | _ => Some <$> f v end.
Definition optional {A} (name : string) (f : Json -> result string A) (fields : list (string * Json))
    : result string (option A) := defaulted name (de_option f) None fields.

Definition de_string (v : Json) : result string string :=
  match v with JStr s => Ok s | _ => Err "invalid type: expected a string" end.
Definition de_bool (v : Json) : result string bool :=
  match v with JBool b => Ok b | _ => Err "invalid type: expected a boolean" end.
Definition de_int (lo hi : Z) (v : Json) : result string Z :=
  match v with
  | JInt z => if decide (lo <= z <= hi)%Z then Ok z else Err "invalid value: integer out of range"
  | _ => Err "invalid type: expected an integer"
  end.
Definition de_i64 : Json -> result string Z := de_int (- 2 ^ 63) i64_max.
Definition is_i64 (z : Z) : Prop := (- 2 ^ 63 <= z <= i64_max)%Z.
Definition de_usize : Json -> result string Z := de_int 0 u64_max.
(** A number of any form is rounded to the target type. *)
Definition de_f32 (v : Json) : result string float :=
  match v with
  | JFloat f => Ok (f64_as_f32 f)
  | JInt z => Ok (binary_normalize f32_prec f32_emax z 0 (bool_decide (z < 0)%Z))
  | _ => Err "invalid type: expected a floating point number"
  end.

(** [Value::get] and [Value::pointer], whose tokens name fields. *)
Definition value_get (key : string) (v : Json) : option Json := match v with JObj fields => obj_get key fields | _ => None end.
Fixpoint pointer (path : list string) (v : Json) : option Json :=
  match path with
  | [] => Some v
  | token :: path' => child ← value_get token v; pointer path' child
  end.
Definition json_i64 (v : Json) : option Z :=
  match v with JInt z => if decide (- 2 ^ 63 <= z <= i64_max)%Z then Some z else None | _ => None end.

(** ** Lookups in the fields of a serialised struct *)

Lemma de_i64_JInt z : is_i64 z -> de_i64 (JInt z) = Ok z.
Proof. intros [H1 H2]. unfold de_i64, de_int. by rewrite decide_True. Qed.
Lemma optional_i64_range name fields v o : optional name de_i64 fields = Ok o -> o = Some v -> is_i64 v.
Proof.
  unfold optional, defaulted. intros (x & _ & H)%bind_Ok ->. destruct x as [x|]; [|done].
  unfold de_option in H. destruct x as [|b|z|f|s|vs|fs]; try done. cbn in H. by case_decide; simplify_eq/=.
Qed.

Lemma lookup_field_cons name k v fields :
  lookup_field name ((k, v) :: fields) =
  if decide (k = name) then
    match filter (fun f => f.1 = name) fields with
    | [] => Ok (Some v)
    | _ => Err ("duplicate field `" +:+ name +:+ "`")
    end
  else lookup_field name fields.
Proof.
  unfold lookup_field. cbn. by case_decide; [destruct (filter _ fields)|].
Qed.

Lemma lookup_field_ne name k v fields :
  k <> name -> lookup_field name ((k, v) :: fields) = lookup_field name fields.
Proof. intros. rewrite lookup_field_cons. by rewrite decide_False. Qed.

(** No field of the list has this name. *)
Definition absent (name : string) (fields : list (string * Json)) : bool :=
  forallb (fun f => negb (bool_decide (f.1 = name))) fields.

Lemma filter_absent name fields :
  absent name fields = true -> filter (fun f : string * Json => f.1 = name) fields = [].
Proof.
  induction fields as [|[k v] fields IH]; cbn; [done|].
  rewrite andb_true_iff, negb_true_iff, bool_decide_eq_false. intros [Hk H].
  rewrite decide_False by done. by apply IH.
Qed.

Lemma lookup_field_app name l1 l2 :
  absent name l1 = true -> lookup_field name (l1 ++ l2) = lookup_field name l2.
Proof. intros H. unfold lookup_field. by rewrite list.filter_app, (filter_absent _ _ H). Qed.

Lemma lookup_field_here name v l :
  absent name l = true -> lookup_field name ((name, v) :: l) = Ok (Some v).
Proof. intros H. rewrite lookup_field_cons, decide_True by done. by rewrite (filter_absent _ _ H). Qed.

Lemma lookup_field_absent name l : absent name l = true -> lookup_field name l = Ok None.
Proof. intros H. unfold lookup_field. by rewrite (filter_absent _ _ H). Qed.

Lemma absent_app name l1 l2 : absent name (l1 ++ l2) = absent name l1 && absent name l2.
Proof. apply forallb_app. Qed.

Lemma absent_opt {A} name k (f : A -> Json) o : k <> name -> absent name (field_opt k f o) = true.
Proof. intros H. destruct o; [|done]. cbn. by rewrite bool_decide_eq_false_2. Qed.

(** An optional field that is written with [field_opt] is read back. *)
Lemma optional_field_opt {A} name (f : A -> Json) g o l :
  (forall a, o = Some a -> g (f a) = Ok a /\ f a <> JNull) -> absent name l = true ->
  optional name g (field_opt name f o ++ l) = Ok o.
Proof.
  intros Hg Hl. unfold optional, defaulted. destruct o as [a|]; cbn [field_opt app].
  - rewrite lookup_field_here by done. cbn. destruct (Hg a eq_refl) as [Ha Hn].
    unfold de_option. destruct (f a) eqn:E; by rewrite ?Ha.
  - by rewrite lookup_field_absent.
Qed.

Lemma lookup_field_opt {A} name (f : A -> Json) o l :
  absent name l = true -> lookup_field name (field_opt name f o ++ l) = Ok (f <$> o).
Proof.
  intros H. destruct o as [a|]; cbn [field_opt app]; [by rewrite lookup_field_here|by rewrite lookup_field_absent].
Qed.
Lemma lookup_field_opt_last {A} name (f : A -> Json) o :
  lookup_field name (field_opt name f o) = Ok (f <$> o).
Proof. rewrite <- (app_nil_r (field_opt name f o)). by apply lookup_field_opt. Qed.

(** No field of a concatenation of single and optional fields has the name. *)
Ltac solve_absent :=
  lazymatch goal with
  | |- absent _ [] = true => reflexivity
  | |- absent _ (field_opt _ _ _) = true => apply absent_opt; discriminate
  | |- absent _ (_ ++ _) = true => rewrite absent_app, andb_true_iff; split; solve_absent
  | |- absent ?n (?f :: ?l) = true =>
      change (absent n (f :: l)) with (negb (bool_decide (f.1 = n)) && absent n l);
      rewrite andb_true_iff; split; [reflexivity|solve_absent]
  end.
(** Find a field in such a concatenation. *)
Ltac find_field :=
  cbn [app];
  first
    [ rewrite lookup_field_here by solve_absent; reflexivity
    | rewrite lookup_field_opt by solve_absent; reflexivity
    | rewrite lookup_field_opt_last; reflexivity
    | rewrite lookup_field_ne by discriminate; find_field
    | rewrite lookup_field_app by solve_absent; find_field ].

Lemma required_Ok {A} name (f : Json -> result string A) fields v a :
  lookup_field name fields = Ok (Some v) -> f v = Ok a -> required name f fields = Ok a.
Proof. unfold required. by intros ->. Qed.
Lemma defaulted_Ok {A} name (f : Json -> result string A) d fields v a :
  lookup_field name fields = Ok (Some v) -> f v = Ok a -> defaulted name f d fields = Ok a.
Proof. unfold defaulted. by intros ->. Qed.
Lemma optional_Some {A} name (g : Json -> result string A) fields v a :
  lookup_field name fields = Ok (Some v) -> v <> JNull -> g v = Ok a -> optional name g fields = Ok (Some a).
Proof. unfold optional, defaulted, de_option. intros -> Hv Hg. cbn. destruct v; by rewrite ?Hg. Qed.
Lemma optional_Ok {A} name (f : A -> Json) g fields o :
  lookup_field name fields = Ok (f <$> o) -> (forall a, o = Some a -> g (f a) = Ok a /\ f a <> JNull) ->
  optional name g fields = Ok o.
Proof.
  unfold optional, defaulted. intros -> Hg. destruct o as [a|]; cbn; [|done].
  destruct (Hg a eq_refl) as [Ha Hn]. unfold de_option. by destruct (f a) eqn:E; rewrite ?Ha.
Qed.

(** A field that is null or a value. *)
Lemma optional_nullable {A} name (f : A -> Json) g fields o :
  lookup_field name fields = Ok (Some (json_opt f o)) -> (forall a, o = Some a -> g (f a) = Ok a /\ f a <> JNull) ->
  optional name g fields = Ok o.
Proof.
  unfold optional, defaulted. intros -> Hg. destruct o as [a|]; [|done]. cbn.
  destruct (Hg a eq_refl) as [Ha Hn]. unfold de_option. by destruct (f a) eqn:E; rewrite ?Ha.
Qed.

(** ** A text form for the witnesses: the number of the document in binary *)

Module JsonDemo.

Definition leaf : Type := unit + bool + Z + (bool + bool + unit + (bool * positive * Z)) + string.

Definition float_to (f : float) : bool + bool + unit + (bool * positive * Z) :=
  match f with
  | S754_zero s => inl (inl (inl s))
  | S754_infinity s => inl (inl (inr s))
  | S754_nan => inl (inr tt)
  | S754_finite s m e => inr (s, m, e)
  end.
Definition float_of (f : bool + bool + unit + (bool * positive * Z)) : float :=
  match f with
  | inl (inl (inl s)) => S754_zero s
  | inl (inl (inr s)) => S754_infinity s
  | inl (inr _) => S754_nan
  | inr (s, m, e) => S754_finite s m e
  end.

Fixpoint to_tree (v : Json) : gen_tree leaf :=
  match v with
  | JNull => GenLeaf (inl (inl (inl (inl tt))))
  | JBool b => GenLeaf (inl (inl (inl (inr b))))
  | JInt z => GenLeaf (inl (inl (inr z)))
  | JFloat f => GenLeaf (inl (inr (float_to f)))
  | JStr s => GenLeaf (inr s)
  | JArr vs => GenNode 0 (to_tree <$> vs)
  | JObj fs => GenNode 1 ((fun f => GenNode 2 [GenLeaf (inr f.1); to_tree f.2]) <$> fs)
  end.

Fixpoint of_tree (t : gen_tree leaf) : Json :=
  match t with
  | GenLeaf (inl (inl (inl (inl _)))) => JNull
  | GenLeaf (inl (inl (inl (inr b)))) => JBool b
  | GenLeaf (inl (inl (inr z))) => JInt z
  | GenLeaf (inl (inr f)) => JFloat (float_of f)
  | GenLeaf (inr s) => JStr s
  | GenNode 0 ts => JArr (of_tree <$> ts)
  | GenNode 1 ts =>
      JObj ((fun t => match t with GenNode _ [GenLeaf (inr k); v] => (k, of_tree v) | _ => ("", JNull) end) <$> ts)
  | GenNode _ _ => JNull
  end.

Lemma of_to_tree : forall v, of_tree (to_tree v) = v.
Proof.
  fix IH 1. intros [| | |f| |vs|fs]; cbn; try done.
  - by destruct f as [| | |s m e].
  - f_equal. induction vs as [|v vs IHvs]; cbn; [done|]. by rewrite IH, IHvs.
  - f_equal. induction fs as [|[k v] fs IHfs]; cbn; [done|]. by rewrite IH, IHfs.
Qed.

Fixpoint bits (p : positive) : string :=
  match p with
  | xH => ""
  | xO p => String "0" (bits p)
  | xI p => String "1" (bits p)
  end.
Fixpoint unbits (s : string) : positive :=
  match s with
  | String "0" s => xO (unbits s)
  | String _ s => xI (unbits s)
  | "" => xH
  end.
Lemma unbits_bits p : unbits (bits p) = p.
Proof. induction p as [p IH|p IH|]; cbn; by rewrite ?IH. Qed.

#[refine] Instance text : JsonText := {|
  json_print v := bits (encode (to_tree v));
  json_parse s := ok_or (of_tree <$> decode (unbits s)) "expected value"
|}.
Proof. intros v _. cbn. rewrite unbits_bits, decode_encode. cbn. by rewrite of_to_tree. Defined.

Example text_round_trip :
  json_parse (json_print (JObj [("a", JInt 1); ("b", JArr [JStr "x"; JNull])])) =
  Ok (JObj [("a", JInt 1); ("b", JArr [JStr "x"; JNull])]).
Proof. vm_compute. reflexivity. Qed.

End JsonDemo.
