(* ===== verification/Types.v ===== *)
(** * Shared data types and the libraries the services call

    [crates/common-types/src/lib.rs] and [crates/policy-dsl/src/lib.rs]: the structs and enums
    the services exchange, field by field.  A field [f] of a struct is a projection with a short
    prefix of the struct's name.  [Externals] collects the third-party functions the shared
    crates call (URL parsing, IDNA, the public suffix list), with their documented laws in
    classes of their own. *)

From S2P Require Import Prelude RustStr.
From Stdlib Require Import SpecFloat.

(** ** common-types *)

Inductive EntityLevel := Domain | Subdomain | Url | Page.
Global Instance EntityLevel_eq_dec : EqDecision EntityLevel.
Proof. solve_decision. Defined.

Inductive PolicyAction :=
  | Allow | Block | Warn | Monitor | Review | RequireApproval | ContentPending.
Global Instance PolicyAction_eq_dec : EqDecision PolicyAction.
Proof. solve_decision. Defined.

(** [impl fmt::Display for PolicyAction]. *)
Definition action_to_string (a : PolicyAction) : string :=
  match a with
  | Allow => "Allow"
  | Block => "Block"
  | Warn => "Warn"
  | Monitor => "Monitor"
  | Review => "Review"
  | RequireApproval => "RequireApproval"
  | ContentPending => "ContentPending"
  end.

Record NormalizedTarget := {
  nt_entity_level : EntityLevel;
  nt_normalized_key : string;
  nt_hostname : string;
  nt_registered_domain : string;
  nt_full_url : string
}.

Global Instance float_eq_dec : EqDecision float.
Proof. unfold float. solve_decision. Defined.

Record ClassificationVerdict := {
  cv_primary_category : string;
  cv_subcategory : string;
  cv_risk_level : string;
  cv_confidence : float;
  cv_recommended_action : PolicyAction
}.
Global Instance ClassificationVerdict_eq_dec : EqDecision ClassificationVerdict.
Proof. solve_decision. Defined.

Record PolicyDecision := {
  pd_action : PolicyAction;
  pd_cache_hit : bool;
  pd_verdict : option ClassificationVerdict;
  pd_decision_source : option string
}.
Global Instance PolicyDecision_eq_dec : EqDecision PolicyDecision.
Proof. solve_decision. Defined.

Record PolicyDecisionRequest := {
  pdr_normalized_key : string;
  pdr_entity_level : EntityLevel;
  pdr_source_ip : string;
  pdr_user_id : option string;
  pdr_group_ids : list string
}.

Record PageFetchJob := {
  pfj_normalized_key : string;
  pfj_url : string;
  pfj_hostname : string;
  pfj_candidate_urls : list string;
  pfj_trace_id : option string;
  pfj_idempotency_key : option string;
  pfj_ttl_seconds : option Z
}.

(** ** policy-dsl *)

Record Conditions := {
  c_domains : option (list string);
  c_categories : option (list string);
  c_users : option (list string);
  c_groups : option (list string);
  c_source_ips : option (list string);
  c_risk_levels : option (list string)
}.
Global Instance Conditions_eq_dec : EqDecision Conditions.
Proof. solve_decision. Defined.

(** [#[derive(Default)]]. *)
Definition Conditions_default : Conditions :=
  {| c_domains := None; c_categories := None; c_users := None;
     c_groups := None; c_source_ips := None; c_risk_levels := None |}.

Record PolicyRule := {
  r_id : string;
  r_description : option string;
  r_priority : Z;
  r_action : PolicyAction;
  r_conditions : Conditions
}.
Global Instance PolicyRule_eq_dec : EqDecision PolicyRule.
Proof. solve_decision. Defined.

Record PolicyDocument := {
  d_version : string;
  d_rules : list PolicyRule
}.

Definition set_categories (cats : option (list string)) (c : Conditions) : Conditions :=
  {| c_domains := c_domains c; c_categories := cats; c_users := c_users c;
     c_groups := c_groups c; c_source_ips := c_source_ips c; c_risk_levels := c_risk_levels c |}.
Definition set_conditions (c : Conditions) (r : PolicyRule) : PolicyRule :=
  {| r_id := r_id r; r_description := r_description r; r_priority := r_priority r;
     r_action := r_action r; r_conditions := c |}.

(** ** Third-party libraries *)

(** What the code reads of a parsed [url::Url]. *)
Record ParsedUrl := {
  u_scheme : string;
  u_host_str : option string;
  u_path : string;
  u_username : string;
  u_password : option string
}.

Class Externals := {
  (** [Url::parse(s).ok()] *)
  Url_parse : string -> option ParsedUrl;
  (** [idna::domain_to_ascii], the error in its [Debug] form *)
  domain_to_ascii : string -> result string string;
  (** [addr::parse_domain_name(h).ok()?.root()] *)
  psl_root : string -> option string
}.

(** [Url::parse(s)] printed again, as it is and with the path set to the root. *)
Class UrlPrinter := { Url_print : string -> string; Url_print_root : string -> string }.

(** The registrable domain of a name: a suffix of it at a label boundary, of at least two
    labels, and its own registrable domain. *)
Class PslLaws (X : Externals) := {
  psl_root_suffix h r : psl_root h = Some r -> h = r \/ exists p, h = p +:+ "." +:+ r;
  psl_root_labels h r : psl_root h = Some r -> exists a b, r = a +:+ "." +:+ b;
  psl_root_fix h r : psl_root h = Some r -> psl_root r = Some r
}.

(** [domain_to_ascii] answers an ASCII name. *)
Class IdnaLaws (X : Externals) := {
  domain_to_ascii_ascii s a : domain_to_ascii s = Ok a -> is_ascii a = true
}.

(** ** A concrete choice of the libraries, for the witnesses

    Names are plain ASCII, the registrable domain is the last two labels, and a URL is
    [scheme://host/path]. *)
Module Demo.

Definition url_parse (s : string) : option ParsedUrl :=
  match split_once "://" s with
  | Some (scheme, rest) =>
      let host := default rest (before_char "/" rest) in
      Some {| u_scheme := scheme; u_host_str := Some host;
              u_path := default "/" (strip_prefix host rest);
              u_username := ""; u_password := None |}
  | None => None
  end.

Definition to_ascii (s : string) : result string string :=
  if is_ascii s then Ok s else Err "Errors".

Definition root (h : string) : option string :=
  let labels := split_char "." h in
  if decide (2 <= length labels) then Some (join "." (drop (length labels - 2) labels)) else None.

Instance libs : Externals :=
  {| Url_parse := url_parse; domain_to_ascii := to_ascii; psl_root := root |}.

#[refine] Instance unicode : Unicode := {| to_lowercase := to_ascii_lowercase |}.
Proof. done. Defined.

Lemma root_labels h r : root h = Some r -> exists a b, split_char "." r = [a; b] /\ r = a +:+ "." +:+ b.
Proof.
  unfold root. set (labels := split_char "." h). case_decide as Hl; [|done]. intros [= <-].
  assert (length (drop (length labels - 2) labels) = 2) as Hd by (rewrite length_drop; lia).
  pose proof (Forall_drop _ (length labels - 2) _ (split_char_clean "." h)) as Hc.
  fold labels in Hc. destruct (drop _ labels) as [|a [|b [|? ?]]]; try (cbn in Hd; lia).
  exists a, b. split; [by apply split_char_join|done].
Qed.

#[refine] Instance psl_laws : PslLaws libs := {}.
Proof.
  - intros h r Hr. unfold psl_root in Hr; cbn in Hr. unfold root in Hr. case_decide; [|done].
    injection Hr as <-. apply (join_drop_suffix "." _ h). lia.
  - intros h r (a & b & _ & ->)%root_labels. by exists a, b.
  - intros h r (a & b & Hs & Hr)%root_labels. cbn. unfold root. rewrite Hs. cbn. by rewrite Hr.
Qed.

#[refine] Instance idna_laws : IdnaLaws libs := {}.
Proof. intros s a. cbn. unfold to_ascii. case_match; [by intros [= <-]|done]. Qed.

End Demo.
