(* ===== verification/ConfigCore.v ===== *)
(** * Configuration and secrets

    [crates/config-core/src/lib.rs]: looking up environment variables, the validator that
    collects problems, and what counts as a weak secret.  The environment is a finite map.
    Printing the warnings of development mode to standard error is left out; [finish] answers the
    text of the error. *)

From S2P Require Import Prelude RustStr Types.

Definition Env := gmap string string.

Record EnvLookup := {
  el_value : option string; el_source_key : option string; el_deprecated_alias : option string
}.

(** [env::var(key)] when it holds more than white space. *)
Definition env_value (env : Env) (key : string) : option string :=
  value ← env !! key; if is_empty (trim value) then None else Some value.

Fixpoint lookup_alias (env : Env) (aliases : list string) : EnvLookup :=
  match aliases with
  | [] => {| el_value := None; el_source_key := None; el_deprecated_alias := None |}
  | alias :: aliases' =>
      match env_value env alias with
      | Some value => {| el_value := Some value; el_source_key := Some alias; el_deprecated_alias := Some alias |}
      | None => lookup_alias env aliases'
      end
  end.

Definition lookup_env (env : Env) (canonical : string) (deprecated_aliases : list string) : EnvLookup :=
  match env_value env canonical with
  | Some value => {| el_value := Some value; el_source_key := Some canonical; el_deprecated_alias := None |}
  | None => lookup_alias env deprecated_aliases
  end.

Definition INSECURE_DEV_MODE_ENV : string := "OD_ALLOW_INSECURE_DEV_SECRETS".
Definition DEFAULT_SECRET_MIN_LEN : nat := 12.
Definition COMMON_BLOCKED_EXACT : list string :=
  ["changeme"; "defender"; "password"; "secret"; "admin"; "test"; "default"; "example"; "sample";
   "placeholder"; "insecure"; "dummy"].
Definition COMMON_BLOCKED_TOKENS : list string := ["defender"].
Definition KNOWN_EXAMPLE_VALUES : list string :=
  ["changeme-admin"; "changeme-ingest"; "changeme-elastic"; "changeme-local-admin-password";
   "changeme-local-jwt-secret"; "changeme-local-jwt-secret-min-32-chars"; "defender";
   "AAEAAWVsYXN0aWMva2liYW5hL29kLXN0YWNrOk1MUUJvVnlnU19TSmNDT0Z6OVZMeGc"].

Definition parse_bool_env (env : Env) (key : string) : option bool :=
  raw ← env !! key;
  let v := to_ascii_lowercase (trim raw) in
  if decide (v ∈ ["1"; "true"; "yes"; "on"]) then Some true
  else if decide (v ∈ ["0"; "false"; "no"; "off"]) then Some false
  else None.

Definition insecure_dev_mode_enabled (env : Env) : bool :=
  default false (parse_bool_env env INSECURE_DEV_MODE_ENV).

(** ** The validator *)

Record ConfigIssue := { is_key : string; is_problem : string; is_remediation : string }.
Record ConfigValidator := {
  vd_scope : string; vd_issues : list ConfigIssue; vd_warnings : list ConfigIssue
}.

Definition new_validator (scope : string) : ConfigValidator :=
  {| vd_scope := scope; vd_issues := []; vd_warnings := [] |}.

Definition push_issues (issues : list ConfigIssue) (v : ConfigValidator) : ConfigValidator :=
  {| vd_scope := vd_scope v; vd_issues := vd_issues v ++ issues; vd_warnings := vd_warnings v |}.

Definition missing (value : option string) : bool :=
  match value with Some v => is_empty (trim v) | None => true end.

Definition require_non_empty (key : string) (value : option string) (remediation : string)
    (v : ConfigValidator) : ConfigValidator :=
  if missing value then
    push_issues [{| is_key := key; is_problem := "missing required value"; is_remediation := remediation |}] v
  else v.

Definition too_short (min : nat) : string :=
  "value shorter than minimum length (" +:+ pretty min +:+ ")".

Definition require_min_len (key : string) (value : option string) (min : nat) (remediation : string)
    (v : ConfigValidator) : ConfigValidator :=
  match value with
  | Some raw =>
      if decide (str_len (trim raw) < min) then
        push_issues [{| is_key := key; is_problem := too_short min; is_remediation := remediation |}] v
      else v
  | None => v
  end.

Definition forbid_substrings_ci (key : string) (value : option string) (blocked : list string)
    (remediation : string) (v : ConfigValidator) : ConfigValidator :=
  match value with
  | Some raw =>
      if any (fun needle => contains (to_ascii_lowercase needle) (to_ascii_lowercase raw)) blocked then
        push_issues [{| is_key := key; is_problem := "value matches blocked default/test pattern";
                        is_remediation := remediation |}] v
      else v
  | None => v
  end.

Definition extend (other v : ConfigValidator) : ConfigValidator :=
  {| vd_scope := vd_scope v; vd_issues := vd_issues v ++ vd_issues other;
     vd_warnings := vd_warnings v ++ vd_warnings other |}.

(** ** Secrets *)

Definition contains_weak_pattern (lowered : string) : bool :=
  if contains "changeme" lowered then true
  else if any (fun pattern => bool_decide (lowered = pattern)) COMMON_BLOCKED_EXACT then true
  else any (fun token =>
         negb (is_empty token) && any (fun pattern => eq_ignore_ascii_case token pattern) COMMON_BLOCKED_TOKENS)
       (split_on (fun c => negb (is_ascii_alphanumeric c)) lowered).

Definition secret_findings (key : string) (value : option string) (min_len : nat)
    (blocked_values : list string) (required : bool) : list ConfigIssue :=
  let issue problem remediation := {| is_key := key; is_problem := problem; is_remediation := remediation |} in
  if missing value then
    if required then [issue "missing required value" "set a unique strong secret"] else []
  else
    let raw := default "" (trim <$> value) in
    let lowered := to_ascii_lowercase raw in
    (if decide (str_len raw < min_len) then [issue (too_short min_len) "use a longer random secret"] else []) ++
    (if any (fun blocked => bool_decide (lowered = to_ascii_lowercase blocked)) (KNOWN_EXAMPLE_VALUES ++ blocked_values)
     then [issue "value matches repository example/default secret" "replace with deployment-specific secret"] else []) ++
    (if contains_weak_pattern lowered
     then [issue "value matches blocked default/test pattern" "replace with high-entropy secret"] else []).

Section Validator.
  Context (env : Env) `{X : Externals}.

Definition push_secret_findings (findings : list ConfigIssue) (remediation : string) (v : ConfigValidator)
    : ConfigValidator :=
  if decide (findings = []) then v
  else if insecure_dev_mode_enabled env then
    {| vd_scope := vd_scope v; vd_issues := vd_issues v;
       vd_warnings := vd_warnings v ++
         ((fun f => {| is_key := is_key f; is_problem := is_problem f; is_remediation := remediation |}) <$> findings) |}
  else push_issues findings v.

Definition require_strong_secret_with_blocklist (key : string) (value : option string) (min_len : nat)
    (blocked_values : list string) (remediation : string) : ConfigValidator -> ConfigValidator :=
  push_secret_findings (secret_findings key value (min_len `max` DEFAULT_SECRET_MIN_LEN) blocked_values true) remediation.
Definition require_strong_secret (key : string) (value : option string) (min_len : nat) (remediation : string)
    : ConfigValidator -> ConfigValidator :=
  push_secret_findings (secret_findings key value (min_len `max` DEFAULT_SECRET_MIN_LEN) [] true) remediation.
Definition validate_optional_secret_with_blocklist (key : string) (value : option string) (min_len : nat)
    (blocked_values : list string) (remediation : string) : ConfigValidator -> ConfigValidator :=
  push_secret_findings (secret_findings key value (min_len `max` DEFAULT_SECRET_MIN_LEN) blocked_values false) remediation.
Definition validate_optional_secret (key : string) (value : option string) (min_len : nat) (remediation : string)
    : ConfigValidator -> ConfigValidator :=
  push_secret_findings (secret_findings key value (min_len `max` DEFAULT_SECRET_MIN_LEN) [] false) remediation.

(** The problems of a parsed URL's credentials. *)
Definition credential_findings (key : string) (parsed : ParsedUrl) (require_username require_password : bool)
    (min_password_len : nat) (remediation : string) : list ConfigIssue :=
  let issue problem := {| is_key := key; is_problem := problem; is_remediation := remediation |} in
  let username := trim (u_username parsed) in
  let password := trim <$> u_password parsed in
  (if require_username && is_empty username then [issue "URL is missing username credentials"] else []) ++
  (if require_password && is_empty (default "" password) then [issue "URL is missing password credentials"] else []) ++
  (if is_empty username then [] else secret_findings key (Some username) 3 [] false) ++
  match password with
  | Some pass => secret_findings key (Some pass) (min_password_len `max` DEFAULT_SECRET_MIN_LEN) [] false
  | None => []
  end.

(** The problems of a URL with credentials. *)
Definition auth_url_findings (key : string) (value : option string) (require_username require_password : bool)
    (min_password_len : nat) (remediation : string) : list ConfigIssue :=
  let issue problem := {| is_key := key; is_problem := problem; is_remediation := remediation |} in
  if missing value then [issue "missing required value"]
  else
    match Url_parse (default "" (trim <$> value)) with
    | None => [issue "invalid URL format"]
    | Some parsed =>
        credential_findings key parsed require_username require_password min_password_len remediation
    end.

Definition require_auth_url (key : string) (value : option string) (require_username require_password : bool)
    (min_password_len : nat) (remediation : string) : ConfigValidator -> ConfigValidator :=
  push_secret_findings
    (auth_url_findings key value require_username require_password min_password_len remediation) remediation.

Definition render_issue (i : ConfigIssue) : string :=
  String LF "" +:+ "- " +:+ is_key i +:+ ": " +:+ is_problem i +:+ ". remediation: " +:+ is_remediation i.

Definition finish (v : ConfigValidator) : result string unit :=
  if decide (vd_issues v = []) then Ok tt
  else Err (foldl (fun text i => text +:+ render_issue i)
              (vd_scope v +:+ " config validation failed with " +:+ pretty (length (vd_issues v)) +:+ " issue(s):")
              (vd_issues v)).

End Validator.

(** ** What is accepted *)

(** A secret that is long enough, none of the examples of the repository, and free of the blocked
    patterns, whatever the case of its letters. *)
Definition strong (v : string) (min_len : nat) (blocked : list string) : Prop :=
  let lowered := to_ascii_lowercase (trim v) in
  min_len <= str_len (trim v) /\
  (lowered ∉ (to_ascii_lowercase <$> (KNOWN_EXAMPLE_VALUES ++ blocked))) /\
  (~ exists l r, lowered = l +:+ "changeme" +:+ r) /\
  (lowered ∉ COMMON_BLOCKED_EXACT) /\
  "defender" ∉ split_on (fun c => negb (is_ascii_alphanumeric c)) lowered.

Lemma split_on_lower p s t : t ∈ split_on p (to_ascii_lowercase s) -> to_ascii_lowercase t = t.
Proof.
  assert (forall u, to_ascii_lowercase u = u -> forall t, t ∈ split_on p u -> to_ascii_lowercase t = t) as H.
  { clear t. induction u as [|c u IH]; cbn; [by intros _ t ->%list_elem_of_singleton|].
    intros [= Hc Hu] t'. destruct (p c); [intros [->|Ht]%elem_of_cons; [done|by apply IH]|].
    destruct (split_on p u) as [|h l] eqn:E; [by apply split_on_ne in E|].
    intros [->|Ht]%elem_of_cons; [|apply IH; [done|by right]].
    change (to_ascii_lowercase (String c h)) with (String (lower_char c) (to_ascii_lowercase h)).
    rewrite Hc, (IH Hu h); [done|left]. }
  apply H, lower_idem.
Qed.

Lemma weak_pattern_spec s :
  contains_weak_pattern (to_ascii_lowercase s) = false <->
  (~ exists l r, to_ascii_lowercase s = l +:+ "changeme" +:+ r) /\
  (to_ascii_lowercase s ∉ COMMON_BLOCKED_EXACT) /\
  "defender" ∉ split_on (fun c => negb (is_ascii_alphanumeric c)) (to_ascii_lowercase s).
Proof.
  unfold contains_weak_pattern. set (low := to_ascii_lowercase s).
  rewrite <- contains_spec. destruct (contains "changeme" low); [naive_solver|].
  assert (any (fun pattern => bool_decide (low = pattern)) COMMON_BLOCKED_EXACT = true <-> low ∈ COMMON_BLOCKED_EXACT) as Hex.
  { rewrite any_true. split; [intros (x & Hx & ->%bool_decide_eq_true); done|].
    intros Hx. exists low. split; [done|]. by apply bool_decide_eq_true. }
  destruct (any _ COMMON_BLOCKED_EXACT); [naive_solver|].
  assert (low ∉ COMMON_BLOCKED_EXACT) as Hnot by (intros H%Hex; done).
  rewrite any_false. split.
  - intros H. split_and!; [done|done|]. intros Hin. by apply H in Hin.
  - intros (_ & _ & Htok) t Ht. apply andb_false_iff. right. cbn. rewrite orb_false_r.
    apply not_true_iff_false. rewrite eq_ignore_ascii_case_spec. apply split_on_lower in Ht as Hlow.
    rewrite Hlow. intros ->. by apply Htok.
Qed.

Lemma secret_findings_nil key value min_len blocked required :
  secret_findings key value min_len blocked required = [] <->
  if missing value then required = false
  else exists v, value = Some v /\ strong v min_len blocked.
Proof.
  unfold secret_findings. destruct (missing value) eqn:Em; [by destruct required|].
  destruct value as [v|]; [|done]. cbn [fmap option_fmap option_map default from_option id].
  assert (any (fun b => bool_decide (to_ascii_lowercase (trim v) = to_ascii_lowercase b)) (KNOWN_EXAMPLE_VALUES ++ blocked) = true <->
          to_ascii_lowercase (trim v) ∈ (to_ascii_lowercase <$> (KNOWN_EXAMPLE_VALUES ++ blocked))) as Hany.
  { rewrite any_true, list_elem_of_fmap. setoid_rewrite bool_decide_eq_true. naive_solver. }
  pose proof (weak_pattern_spec (trim v)) as Hweak. unfold strong. cbv zeta.
  destruct (any _ (KNOWN_EXAMPLE_VALUES ++ blocked)), (contains_weak_pattern _);
    case_decide as Hlen; cbn [app]; split; try done; try naive_solver lia.
Qed.

Lemma finish_Ok v : finish v = Ok tt <-> vd_issues v = [].
Proof. unfold finish. by case_decide. Qed.

(** The issues of a validator after checks, in production and in development mode. *)
Lemma push_secret_issues env findings remediation v :
  vd_issues (push_secret_findings env findings remediation v) = [] <->
  vd_issues v = [] /\ (insecure_dev_mode_enabled env = true \/ findings = []).
Proof.
  unfold push_secret_findings. case_decide as Hf; [naive_solver|].
  destruct (insecure_dev_mode_enabled env); cbn; [naive_solver|]. rewrite app_nil. naive_solver.
Qed.

Lemma require_non_empty_issues key value remediation v :
  vd_issues (require_non_empty key value remediation v) = [] <-> vd_issues v = [] /\ missing value = false.
Proof.
  unfold require_non_empty. destruct (missing value); cbn; [|naive_solver].
  rewrite app_nil. naive_solver.
Qed.

(** The credentials a URL has are strong, and it has those that are required. *)
Definition credentials_ok (parsed : ParsedUrl) (require_username require_password : bool)
    (min_password_len : nat) : Prop :=
  (if is_empty (trim (u_username parsed)) then require_username = false
   else strong (trim (u_username parsed)) 3 []) /\
  match u_password parsed with
  | Some p =>
      if is_empty (trim p) then require_password = false
      else strong (trim p) (min_password_len `max` DEFAULT_SECRET_MIN_LEN) []
  | None => require_password = false
  end.

Definition auth_url_ok `{Externals} (value : option string) (require_username require_password : bool)
    (min_password_len : nat) : Prop :=
  exists raw parsed, value = Some raw /\ is_empty (trim raw) = false /\ Url_parse (trim raw) = Some parsed /\
    credentials_ok parsed require_username require_password min_password_len.

Lemma optional_secret_nil key s min_len :
  is_empty (trim s) = false ->
  secret_findings key (Some (trim s)) min_len [] false = [] <-> strong (trim s) min_len [].
Proof.
  intros He. rewrite secret_findings_nil. cbn [missing]. rewrite trim_idem, He. naive_solver.
Qed.

Lemma credential_findings_nil key parsed ru rp min_len remediation :
  credential_findings key parsed ru rp min_len remediation = [] <-> credentials_ok parsed ru rp min_len.
Proof.
  unfold credential_findings, credentials_ok. rewrite !app_nil.
  destruct (is_empty (trim (u_username parsed))) eqn:Eu.
  - rewrite andb_true_r. destruct (u_password parsed) as [p|]; cbn [fmap option_fmap option_map default from_option id].
    + destruct (is_empty (trim p)) eqn:Ep.
      * assert (secret_findings key (Some (trim p)) (min_len `max` DEFAULT_SECRET_MIN_LEN) [] false = []) as ->
          by (apply secret_findings_nil; cbn [missing]; by rewrite trim_idem, Ep).
        destruct ru, rp; naive_solver.
      * rewrite (optional_secret_nil key p) by done. rewrite andb_false_r. destruct ru; naive_solver.
    + rewrite andb_true_r. destruct ru, rp; naive_solver.
  - rewrite andb_false_r, (optional_secret_nil key (u_username parsed)) by done.
    destruct (u_password parsed) as [p|]; cbn [fmap option_fmap option_map default from_option id].
    + destruct (is_empty (trim p)) eqn:Ep.
      * assert (secret_findings key (Some (trim p)) (min_len `max` DEFAULT_SECRET_MIN_LEN) [] false = []) as ->
          by (apply secret_findings_nil; cbn [missing]; by rewrite trim_idem, Ep).
        destruct rp; naive_solver.
      * rewrite (optional_secret_nil key p) by done. rewrite andb_false_r. naive_solver.
    + rewrite andb_true_r. destruct rp; naive_solver.
Qed.

Lemma auth_url_findings_nil `{X : Externals} key value ru rp min_len remediation :
  auth_url_findings key value ru rp min_len remediation = [] <-> auth_url_ok value ru rp min_len.
Proof.
  unfold auth_url_findings, auth_url_ok. destruct value as [raw|]; cbn [missing]; [|naive_solver].
  destruct (is_empty (trim raw)) eqn:Em; [naive_solver congruence|].
  cbn [fmap option_fmap option_map default from_option id].
  destruct (Url_parse (trim raw)) as [parsed|] eqn:Eu; [|naive_solver congruence].
  rewrite credential_findings_nil. naive_solver congruence.
Qed.
