(* ===== verification/ServiceConfig.v ===== *)
(** * The configuration of the services

    [services/icap-adaptor/src/config.rs] with [validate_config] of its [main.rs], and
    [validate_config] and the database URLs of [services/policy-engine/src/main.rs].  Reading and
    parsing the JSON file is left out: [load_env] starts from the parsed record.  [exists_file] is
    the file system. *)

From S2P Require Import Prelude RustStr Types ConfigCore.

(** ** The ICAP adaptor *)

Record JobQueueConfig := { jq_redis_url : string; jq_stream : string }.
Record PageFetchQueueConfig := { pf_redis_url : string; pf_stream : string; pf_ttl_seconds : Z }.
Record AdminApiConfig := { aa_base_url : string; aa_admin_token : option string }.

Record IcapConfig := {
  ic_host : string;
  ic_port : Z;
  ic_preview_size : nat;
  ic_redis_url : option string;
  ic_policy_endpoint : option string;
  ic_metrics_host : string;
  ic_metrics_port : Z;
  ic_cache_channel : string;
  ic_require_content : bool;
  ic_pending_cache_ttl_seconds : Z;
  ic_job_queue : option JobQueueConfig;
  ic_page_fetch_queue : option PageFetchQueueConfig;
  ic_admin_api : option AdminApiConfig;
  ic_tenant_domain_exceptions : list (string * list string)
}.

Definition env_non_empty (env : Env) (key : string) : option string :=
  value ← env !! key; let v := trim value in if is_empty v then None else Some v.

(** [load], after the file was parsed. *)
Definition load_env (env : Env) (cfg : IcapConfig) : IcapConfig :=
  let cache_url := env_non_empty env "OD_CACHE_REDIS_URL" in
  {| ic_host := ic_host cfg; ic_port := ic_port cfg; ic_preview_size := ic_preview_size cfg;
     ic_redis_url := match cache_url with Some u => Some u | None => ic_redis_url cfg end;
     ic_policy_endpoint := ic_policy_endpoint cfg; ic_metrics_host := ic_metrics_host cfg;
     ic_metrics_port := ic_metrics_port cfg; ic_cache_channel := ic_cache_channel cfg;
     ic_require_content := ic_require_content cfg;
     ic_pending_cache_ttl_seconds := ic_pending_cache_ttl_seconds cfg;
     ic_job_queue :=
       match cache_url with
       | Some u => (fun q => {| jq_redis_url := u; jq_stream := jq_stream q |}) <$> ic_job_queue cfg
       | None => ic_job_queue cfg
       end;
     ic_page_fetch_queue :=
       match env_non_empty env "OD_PAGE_FETCH_REDIS_URL" with
       | Some u => (fun q => {| pf_redis_url := u; pf_stream := pf_stream q;
                                pf_ttl_seconds := pf_ttl_seconds q |}) <$> ic_page_fetch_queue cfg
       | None => ic_page_fetch_queue cfg
       end;
     ic_admin_api :=
       (fun admin =>
          if missing (aa_admin_token admin)
          then {| aa_base_url := aa_base_url admin; aa_admin_token := env_non_empty env "OD_ADMIN_TOKEN" |}
          else admin) <$> ic_admin_api cfg;
     ic_tenant_domain_exceptions := ic_tenant_domain_exceptions cfg |}.

(** Run a check when a setting is there. *)
Definition when {A} (o : option A) (f : A -> ConfigValidator -> ConfigValidator) (v : ConfigValidator)
    : ConfigValidator :=
  match o with Some a => f a v | None => v end.

Section Config.
  Context (env : Env) `{X : Externals}.

Definition icap_validate_config (cfg : IcapConfig) : result string unit :=
  let v := new_validator "icap-adaptor" in
  let v := require_non_empty "icap.host" (Some (ic_host cfg)) "set host in config/icap.json" v in
  let v := when (ic_redis_url cfg) (fun redis_url =>
    require_auth_url env "icap.redis_url" (Some redis_url) false true 16
      "set redis_url in config/icap.json with password-authenticated Redis credentials") v in
  let v := when (ic_job_queue cfg) (fun queue =>
    require_auth_url env "icap.job_queue.redis_url" (Some (jq_redis_url queue)) false true 16
      "set job_queue.redis_url with password-authenticated Redis credentials") v in
  let v := when (ic_page_fetch_queue cfg) (fun queue =>
    require_auth_url env "icap.page_fetch_queue.redis_url" (Some (pf_redis_url queue)) false true 16
      "set page_fetch_queue.redis_url with password-authenticated Redis credentials") v in
  let v := when (ic_admin_api cfg) (fun admin v =>
    require_strong_secret env "icap.admin_api.admin_token" (aa_admin_token admin) 16
      "set admin_api.admin_token to a strong non-default token"
      (require_non_empty "icap.admin_api.admin_token" (aa_admin_token admin)
         "set admin_api.admin_token in config/icap.json or OD_ADMIN_TOKEN" v)) v in
  finish v.

(** ** The policy engine *)

Record PolicyConfig := {
  pc_api_host : string;
  pc_policy_file : string;
  pc_database_url : option string;
  pc_activation_database_url : option string
}.

Definition resolve_policy_db_url (cfg : PolicyConfig) : option string * option string :=
  match pc_database_url cfg with
  | Some url => (Some url, None)
  | None =>
      let lookup := lookup_env env "OD_POLICY_DATABASE_URL" ["DATABASE_URL"] in
      (el_value lookup, el_deprecated_alias lookup)
  end.

Definition resolve_activation_db_url (cfg : PolicyConfig) (policy_db_url : option string)
    : option string * option string :=
  match pc_activation_database_url cfg with
  | Some url => (Some url, None)
  | None =>
      let lookup := lookup_env env "OD_TAXONOMY_DATABASE_URL" ["OD_ADMIN_DATABASE_URL"] in
      (match el_value lookup with Some url => Some url | None => policy_db_url end, el_deprecated_alias lookup)
  end.

Context (exists_file : string -> bool).

Definition policy_validate_config (cfg : PolicyConfig) : result string unit :=
  let v := new_validator "policy-engine" in
  let v := require_non_empty "api_host" (Some (pc_api_host cfg)) "set api_host in config/policy-engine.json" v in
  let v := require_non_empty "policy_file" (Some (pc_policy_file cfg)) "set policy_file in config/policy-engine.json" v in
  let v :=
    if bool_decide (pc_database_url cfg = None) && negb (exists_file (pc_policy_file cfg)) then
      require_non_empty "policy_file_exists" None
        "create the policy file path configured in policy_file or configure database_url" v
    else v in
  let policy_db_url := (resolve_policy_db_url cfg).1 in
  let v := when policy_db_url (fun url =>
    require_auth_url env "OD_POLICY_DATABASE_URL" (Some url) true true 12
      "set OD_POLICY_DATABASE_URL with non-default username/password credentials") v in
  let v := when (resolve_activation_db_url cfg policy_db_url).1 (fun url =>
    require_auth_url env "OD_TAXONOMY_DATABASE_URL" (Some url) true true 12
      "set OD_TAXONOMY_DATABASE_URL with non-default username/password credentials") v in
  finish v.

(** ** What is accepted *)

(** Relaxed in development mode. *)
Definition unless_dev (P : Prop) : Prop := insecure_dev_mode_enabled env = true \/ P.

Lemma require_auth_url_issues key value ru rp n remediation v :
  vd_issues (require_auth_url env key value ru rp n remediation v) = [] <->
  vd_issues v = [] /\ unless_dev (auth_url_ok value ru rp n).
Proof. unfold require_auth_url, unless_dev. by rewrite push_secret_issues, auth_url_findings_nil. Qed.

Lemma require_strong_secret_issues key value n remediation v :
  vd_issues (require_strong_secret env key value n remediation v) = [] <->
  vd_issues v = [] /\
  unless_dev (missing value = false /\ exists s, value = Some s /\ strong s (n `max` DEFAULT_SECRET_MIN_LEN) []).
Proof.
  unfold require_strong_secret, unless_dev. rewrite push_secret_issues, secret_findings_nil.
  destruct (missing value); naive_solver.
Qed.

Lemma when_issues {A} (o : option A) f (P : A -> Prop) v :
  (forall a v, vd_issues (f a v) = [] <-> vd_issues v = [] /\ P a) ->
  vd_issues (when o f v) = [] <-> vd_issues v = [] /\ forall a, o = Some a -> P a.
Proof. intros Hf. destruct o as [a|]; cbn; [rewrite Hf|]; naive_solver. Qed.

(** The adaptor's configuration check accepts exactly the configurations whose host and admin
    token are set and, outside of development mode, whose Redis URLs all carry a strong password
    of at least 16 characters and whose admin token is strong: no example value of the
    repository, no blocked word, nothing too short gets into production. *)
Theorem icap_config_accepted cfg :
  icap_validate_config cfg = Ok tt <->
  missing (Some (ic_host cfg)) = false /\
  (forall admin, ic_admin_api cfg = Some admin -> missing (aa_admin_token admin) = false /\
     unless_dev (exists s, aa_admin_token admin = Some s /\ strong s 16 [])) /\
  (forall u, ic_redis_url cfg = Some u -> unless_dev (auth_url_ok (Some u) false true 16)) /\
  (forall q, ic_job_queue cfg = Some q -> unless_dev (auth_url_ok (Some (jq_redis_url q)) false true 16)) /\
  (forall q, ic_page_fetch_queue cfg = Some q -> unless_dev (auth_url_ok (Some (pf_redis_url q)) false true 16)).
Proof.
  unfold icap_validate_config. rewrite finish_Ok.
  rewrite (when_issues _ _ (fun admin => missing (aa_admin_token admin) = false /\
     unless_dev (exists s, aa_admin_token admin = Some s /\ strong s 16 []))).
  2: { intros admin v. rewrite require_strong_secret_issues, require_non_empty_issues. unfold unless_dev. naive_solver. }
  rewrite (when_issues _ _ (fun q => unless_dev (auth_url_ok (Some (pf_redis_url q)) false true 16)))
    by (intros; apply require_auth_url_issues).
  rewrite (when_issues _ _ (fun q => unless_dev (auth_url_ok (Some (jq_redis_url q)) false true 16)))
    by (intros; apply require_auth_url_issues).
  rewrite (when_issues _ _ (fun u => unless_dev (auth_url_ok (Some u) false true 16)))
    by (intros; apply require_auth_url_issues).
  rewrite require_non_empty_issues. naive_solver.
Qed.

(** The policy engine's configuration check accepts exactly the configurations with a host and
    a policy file that exists unless a database is configured in the file, and, outside of
    development mode, with strong credentials in the database URLs it would connect to, those of
    the environment included. *)
Theorem policy_config_accepted cfg :
  let policy_url := (resolve_policy_db_url cfg).1 in
  policy_validate_config cfg = Ok tt <->
  missing (Some (pc_api_host cfg)) = false /\ missing (Some (pc_policy_file cfg)) = false /\
  (pc_database_url cfg = None -> exists_file (pc_policy_file cfg) = true) /\
  (forall u, policy_url = Some u -> unless_dev (auth_url_ok (Some u) true true 12)) /\
  (forall u, (resolve_activation_db_url cfg policy_url).1 = Some u -> unless_dev (auth_url_ok (Some u) true true 12)).
Proof.
  cbv zeta. unfold policy_validate_config. rewrite finish_Ok.
  rewrite (when_issues _ _ (fun u => unless_dev (auth_url_ok (Some u) true true 12)))
    by (intros; apply require_auth_url_issues).
  rewrite (when_issues _ _ (fun u => unless_dev (auth_url_ok (Some u) true true 12)))
    by (intros; apply require_auth_url_issues).
  assert (forall v, vd_issues (if bool_decide (pc_database_url cfg = None) && negb (exists_file (pc_policy_file cfg))
            then require_non_empty "policy_file_exists" None
                   "create the policy file path configured in policy_file or configure database_url" v else v) = [] <->
          vd_issues v = [] /\ (pc_database_url cfg = None -> exists_file (pc_policy_file cfg) = true)) as ->.
  { intros v. case_bool_decide; [|cbn; naive_solver]. destruct (exists_file _); cbn [negb andb]; [naive_solver|].
    rewrite require_non_empty_issues. cbn. naive_solver. }
  rewrite !require_non_empty_issues. naive_solver.
Qed.

End Config.
