(* ===== verification/Http.v ===== *)
(** * HTTP errors and role checks

    What the handlers of the policy engine and of the admin API share: the status and body of an
    error, the authenticated caller and the check of its roles ([require_roles] is the same
    function in [services/policy-engine/src/auth.rs] and [services/admin-api/src/auth.rs]). *)

From S2P Require Import Prelude RustStr.

Record UserContext := { uc_actor : string; uc_roles : gset string }.

Definition require_roles (ctx : UserContext) (roles : list string) : bool :=
  any (fun role => bool_decide (role ∈ uc_roles ctx)) roles.

(** HTTP statuses and the error body. *)
Inductive StatusCode :=
  BAD_REQUEST | UNAUTHORIZED | FORBIDDEN | NOT_FOUND | CONFLICT | TOO_MANY_REQUESTS | INTERNAL_SERVER_ERROR | NOT_IMPLEMENTED | BAD_GATEWAY | SERVICE_UNAVAILABLE | LOCKED.
Record HttpError := { he_status : StatusCode; he_code : string; he_message : string }.
