(* ===== verification/Normalizer.v ===== *)
(** * Target normalisation and canonical classification keys

    [crates/common-types/src/normalizer.rs]. *)

From S2P Require Import Prelude RustStr Types.

Section Normalizer.
  Context `{X : Externals} `{U : Unicode}.

(** ** Operations *)

Definition sanitize_host (input : string) : string :=
  let trimmed := trim input in
  let bracketed :=
    match strip_prefix "[" trimmed with
    | Some rest => before_char "]" rest
    | None => None
    end in
  match bracketed with
  | Some inner => inner
  | None =>
      match rsplit_once ":" trimmed with
      | Some (host_part, port_part) =>
          if str_forall is_ascii_digit port_part then host_part else trimmed
      | None => trimmed
      end
  end.

Definition derive_registered_domain (hostname : string) : string :=
  match psl_root hostname with
  | Some root => to_ascii_lowercase root
  | None =>
      let labels := split_char "." hostname in
      if decide (length labels <= 2) then hostname
      else join "." (drop (length labels - 2) labels)
  end.

Definition level_prefix (l : EntityLevel) : string :=
  match l with
  | Domain => "domain"
  | Subdomain => "subdomain"
  | Url => "url"
  | Page => "page"
  end.

Definition normalize_target (host path : string) (scheme : option string)
    : result string NormalizedTarget :=
  let scheme := default "http" scheme in
  if is_empty (trim host) then Err "host required for normalization"
  else
    let host_no_port := sanitize_host host in
    ascii ← map_err (fun err => "invalid host " +:+ host +:+ ": " +:+ err)
              (domain_to_ascii (trim host_no_port));
    let ascii_host := to_lowercase ascii in
    let normalized_path := if starts_with "/" path then path else "/" +:+ path in
    let host_for_url :=
      if contains ":" ascii_host then "[" +:+ ascii_host +:+ "]" else ascii_host in
    let full_url := scheme +:+ "://" +:+ host_for_url +:+ normalized_path in
    _ ← ok_or (Url_parse full_url) "failed to parse normalized url";
    let hostname := ascii_host in
    let registered_domain := derive_registered_domain hostname in
    let entity_level := if decide (hostname = registered_domain) then Domain else Subdomain in
    Ok {| nt_entity_level := entity_level;
          nt_normalized_key := level_prefix entity_level +:+ ":" +:+ hostname;
          nt_hostname := hostname;
          nt_registered_domain := registered_domain;
          nt_full_url := full_url |}.

(** [strip_prefix("domain:").or_else(|| strip_prefix("subdomain:"))]. *)
Definition strip_host_prefix (key : string) : option string :=
  match strip_prefix "domain:" key with
  | Some h => Some h
  | None => strip_prefix "subdomain:" key
  end.

(** [.trim().trim_end_matches('.').to_ascii_lowercase()]. *)
Definition clean_host (s : string) : string :=
  to_ascii_lowercase (trim_end_matches "." (trim s)).

Definition canonical_classification_key (normalized_key : string) : option string :=
  raw ← strip_host_prefix normalized_key;
  let host := clean_host raw in
  if is_empty host then None
  else Some ("domain:" +:+ derive_registered_domain host).

Record CanonicalizationPolicy := {
  tenant_domain_exceptions : gmap string (gset string)
}.

Definition normalize_tenant_key (raw : string) : string := to_ascii_lowercase (trim raw).

Definition add_domain (set : gset string) (domain : string) : gset string :=
  let normalized := clean_host domain in
  if is_empty normalized then set else {[ derive_registered_domain normalized ]} ∪ set.

Definition add_tenant (m : gmap string (gset string)) (entry : string * list string)
    : gmap string (gset string) :=
  let key := normalize_tenant_key entry.1 in
  let set := default ∅ (m !! key) in
  <[key := foldl add_domain set entry.2]> m.

(** The argument lists the entries of the [HashMap] in the order its iterator yields them. *)
Definition from_tenant_exceptions (input : list (string * list string)) : CanonicalizationPolicy :=
  {| tenant_domain_exceptions := foldl add_tenant ∅ input |}.

Definition exceptions_match (p : CanonicalizationPolicy) (registered key : string) : bool :=
  match tenant_domain_exceptions p !! key with
  | Some set => bool_decide (registered ∈ set)
  | None => false
  end.

Definition keeps_subdomain_granularity (p : CanonicalizationPolicy) (tenant : option string)
    (host : string) : bool :=
  if decide (tenant_domain_exceptions p = ∅) then false
  else
    let registered := clean_host (derive_registered_domain host) in
    if is_empty registered then false
    else
      let matches := exceptions_match p registered in
      match tenant with
      | Some t => matches (normalize_tenant_key t)
      | None => false
      end || matches "*" || matches "default".

Definition canonical_classification_key_with_policy (normalized_key : string)
    (policy : CanonicalizationPolicy) (tenant : option string) : option string :=
  raw ← strip_host_prefix normalized_key;
  let host := clean_host raw in
  if is_empty host then None
  else if keeps_subdomain_granularity policy tenant host then Some ("domain:" +:+ host)
  else Some ("domain:" +:+ derive_registered_domain host).

(** ** Registered domains *)

Lemma derive_suffix `{!PslLaws X} h :
  to_ascii_lowercase h = h ->
  h = derive_registered_domain h \/ exists p, h = p +:+ "." +:+ derive_registered_domain h.
Proof.
  intros Hlow. unfold derive_registered_domain.
  destruct (psl_root h) as [r|] eqn:E.
  - destruct (psl_root_suffix h r E) as [<-|(p & ->)]; [by left; rewrite Hlow|].
    apply lower_fixed_app in Hlow as [_ [_ Hr]%lower_fixed_app]. rewrite Hr. by right; exists p.
  - case_decide; [by left|]. apply (join_drop_suffix "." _ h). lia.
Qed.

Lemma derive_fix `{!PslLaws X} h :
  to_ascii_lowercase h = h ->
  derive_registered_domain (derive_registered_domain h) = derive_registered_domain h.
Proof.
  intros Hlow. pose proof (derive_suffix h Hlow) as Hsuf.
  remember (derive_registered_domain h) as d eqn:Hd. unfold derive_registered_domain in Hd.
  destruct (psl_root h) as [r|] eqn:E; [|case_decide as Hl]; subst d.
  - assert (to_ascii_lowercase r = r) as Hr.
    { destruct (psl_root_suffix h r E) as [<-|(p & ->)]; [done|].
      by apply lower_fixed_app in Hlow as [_ [_ ?]%lower_fixed_app]. }
    unfold derive_registered_domain. rewrite Hr, (psl_root_fix h r E). done.
  - unfold derive_registered_domain. by rewrite E, decide_True.
  - set (k := drop (length (split_char "." h) - 2) (split_char "." h)) in *.
    assert (split_char "." (join "." k) = k) as Hk.
    { apply (split_char_join "."); [|apply Forall_drop, split_char_clean].
      intros Ek. apply (f_equal length) in Ek. unfold k in Ek. rewrite length_drop in Ek. cbn in Ek. lia. }
    assert (length k = 2) as Hlk by (unfold k; rewrite length_drop; lia).
    unfold derive_registered_domain. rewrite Hk, decide_True by lia.
    destruct (psl_root (join "." k)) as [r'|] eqn:E'; [|done].
    assert (count_char "." (join "." k) = 1) as Hc.
    { pose proof (length_split_char "." (join "." k)) as Hls. rewrite Hk, Hlk in Hls. lia. }
    destruct (psl_root_suffix _ _ E') as [Heq|(p & Heq)].
    + rewrite <- Heq.
      destruct Hsuf as [<-|(q & Hq)]; [done|]. rewrite Hq in Hlow.
      by apply lower_fixed_app in Hlow as [_ [_ ?]%lower_fixed_app].
    + destruct (psl_root_labels _ _ E') as (a & b & ->).
      rewrite Heq, !count_char_app, !(count_char_self ".") in Hc. lia.
Qed.

Lemma clean_host_lower s : to_ascii_lowercase (clean_host s) = clean_host s.
Proof. apply lower_idem. Qed.

Lemma clean_host_no_dot s l : clean_host s <> l +:+ ".".
Proof. apply lower_trim_no_dot. Qed.

Lemma clean_host_graphic s : graphic s = true -> graphic (clean_host s) = true.
Proof.
  intros Hs. unfold clean_host. rewrite lower_graphic, trim_graphic by done.
  destruct (trim_end_matches_prefix "." s) as [r Hr]. rewrite Hr in Hs.
  by apply graphic_app_inv in Hs as [? _].
Qed.

(** A host that is already lower-case visible ASCII with no final dot is clean. *)
Lemma clean_host_id s :
  graphic s = true -> to_ascii_lowercase s = s -> (forall l, s <> l +:+ ".") -> clean_host s = s.
Proof.
  intros Hg Hl Hd. unfold clean_host. rewrite trim_graphic by done.
  by rewrite trim_end_matches_id.
Qed.

(** The registered domain of a clean, non-empty host is clean and non-empty. *)
Lemma derive_clean `{!PslLaws X} h :
  graphic h = true -> to_ascii_lowercase h = h -> (forall l, h <> l +:+ ".") -> h <> "" ->
  clean_host (derive_registered_domain h) = derive_registered_domain h /\
  derive_registered_domain h <> "".
Proof.
  intros Hg Hl Hd Hne. destruct (derive_suffix h Hl) as [Heq|(p & Heq)].
  - rewrite <- Heq. split; [by apply clean_host_id|done].
  - set (d := derive_registered_domain h) in *. rewrite Heq in Hg, Hl.
    apply graphic_app_inv in Hg as [_ [_ Hg]%graphic_app_inv].
    apply lower_fixed_app in Hl as [_ [_ Hl]%lower_fixed_app].
    assert (forall l, d <> l +:+ ".") as Hdd.
    { intros l Hdl. apply (Hd (p +:+ "." +:+ l)). rewrite Heq, Hdl. by rewrite !str_app_assoc. }
    split; [by apply clean_host_id|]. intros Hempty. apply (Hd p). by rewrite Heq, Hempty.
Qed.

Lemma strip_host_prefix_domain h : strip_host_prefix ("domain:" +:+ h) = Some h.
Proof. done. Qed.
Lemma strip_host_prefix_subdomain h : strip_host_prefix ("subdomain:" +:+ h) = Some h.
Proof. done. Qed.

Lemma canonical_of_domain h :
  canonical_classification_key ("domain:" +:+ h) =
  if is_empty (clean_host h) then None
  else Some ("domain:" +:+ derive_registered_domain (clean_host h)).
Proof. done. Qed.
Lemma canonical_of_subdomain h :
  canonical_classification_key ("subdomain:" +:+ h) =
  if is_empty (clean_host h) then None
  else Some ("domain:" +:+ derive_registered_domain (clean_host h)).
Proof. done. Qed.

Lemma strip_host_prefix_graphic k r :
  strip_host_prefix k = Some r -> graphic k = true -> graphic r = true.
Proof.
  unfold strip_host_prefix. destruct (strip_prefix "domain:" k) eqn:E.
  - intros [= <-] Hk. apply strip_prefix_Some in E as ->. by apply graphic_app_inv in Hk as [].
  - intros ->%strip_prefix_Some Hk. by apply graphic_app_inv in Hk as [].
Qed.

(** The canonical classification key is canonical: for a key of visible ASCII characters,
    canonicalising it a second time changes nothing, so every service that canonicalises a key
    before storing or looking it up agrees with the others. *)
Theorem canonical_classification_key_idempotent `{!PslLaws X} k k' :
  graphic k = true ->
  canonical_classification_key k = Some k' ->
  canonical_classification_key k' = Some k'.
Proof.
  intros Hg. unfold canonical_classification_key at 1.
  destruct (strip_host_prefix k) as [raw|] eqn:Eraw; cbn -[clean_host]; [|done].
  destruct (is_empty (clean_host raw)) eqn:Eemp; [done|]. intros [= <-].
  assert (graphic (clean_host raw) = true) as Hgr
    by (eapply clean_host_graphic, strip_host_prefix_graphic; eauto).
  destruct (derive_clean (clean_host raw)) as [Hclean Hne].
  - done.
  - apply clean_host_lower.
  - intros l. apply clean_host_no_dot.
  - by intros H; rewrite H in Eemp.
  - etrans; [apply (canonical_of_domain (derive_registered_domain (clean_host raw)))|].
    rewrite Hclean.
    destruct (derive_registered_domain (clean_host raw)) eqn:Ed; [done|]. cbn [is_empty].
    rewrite <- Ed. by rewrite derive_fix by apply clean_host_lower.
Qed.

Lemma normalize_target_fields host path scheme t :
  normalize_target host path scheme = Ok t ->
  nt_normalized_key t = level_prefix (nt_entity_level t) +:+ ":" +:+ nt_hostname t /\
  nt_registered_domain t = derive_registered_domain (nt_hostname t) /\
  (nt_entity_level t = Domain \/ nt_entity_level t = Subdomain).
Proof.
  unfold normalize_target. destruct (is_empty (trim host)); [done|].
  intros (a & _ & (u & _ & [= <-])%bind_Ok)%bind_Ok. cbn [nt_normalized_key nt_entity_level nt_hostname nt_registered_domain].
  split_and!; [done..|]. case_decide; auto.
Qed.

(** What [normalize_target] answers: the key is the level's prefix and the host name, the
    level is [Domain] exactly when the host is its own registered domain and [Subdomain]
    otherwise (never [Url] or [Page]), and the URL is the scheme, the host (in brackets when it
    holds a colon) and a path that starts with a slash. *)
Theorem normalize_target_spec host path scheme t :
  normalize_target host path scheme = Ok t ->
  trim host <> "" /\
  nt_normalized_key t = level_prefix (nt_entity_level t) +:+ ":" +:+ nt_hostname t /\
  nt_registered_domain t = derive_registered_domain (nt_hostname t) /\
  (nt_entity_level t = Domain <-> nt_hostname t = nt_registered_domain t) /\
  (nt_entity_level t = Subdomain <-> nt_hostname t <> nt_registered_domain t) /\
  (exists host_for_url p,
     nt_full_url t = default "http" scheme +:+ "://" +:+ host_for_url +:+ "/" +:+ p /\
     host_for_url = (if contains ":" (nt_hostname t) then "[" +:+ nt_hostname t +:+ "]"
                     else nt_hostname t)) /\
  is_Some (Url_parse (nt_full_url t)).
Proof.
  unfold normalize_target. destruct (is_empty (trim host)) eqn:Eh; [done|]. intros H.
  apply bind_Ok in H as (ascii & _ & (u & Hu%ok_or_Ok & [= <-])%bind_Ok).
  cbn [nt_entity_level nt_normalized_key nt_hostname nt_registered_domain nt_full_url].
  split; [by intros E; rewrite E in Eh|]. split; [done|]. split; [done|].
  split; [case_decide; split; done|]. split; [case_decide; split; done|].
  split; [|by exists u]. destruct (starts_with "/" path) eqn:Ep; [|by eexists _, path].
  apply starts_with_spec in Ep as [p ->]. by eexists _, p.
Qed.

(** The classification key the adaptor derives for a request is the registered domain of the
    normalised target: canonicalising the target's key promotes a subdomain to its registered
    domain and leaves a domain alone. *)
Theorem canonical_key_of_target `{!PslLaws X, !IdnaLaws X} host path scheme t :
  normalize_target host path scheme = Ok t ->
  graphic (nt_hostname t) = true -> nt_hostname t <> "" -> ends_with "." (nt_hostname t) = false ->
  canonical_classification_key (nt_normalized_key t) = Some ("domain:" +:+ nt_registered_domain t).
Proof.
  intros H Hg Hne Hdot.
  assert (to_ascii_lowercase (nt_hostname t) = nt_hostname t) as Hlow.
  { unfold normalize_target in H. destruct (is_empty _); [done|].
    apply bind_Ok in H as (a & Ha & (u & _ & [= <-])%bind_Ok). cbn [nt_hostname].
    destruct (domain_to_ascii _) as [a'|] eqn:Ed; [|done]. injection Ha as ->.
    rewrite to_lowercase_ascii by (by eapply domain_to_ascii_ascii). apply lower_idem. }
  assert (clean_host (nt_hostname t) = nt_hostname t) as Hc.
  { apply clean_host_id; [done..|]. intros l Hl. by rewrite Hl, ends_with_app in Hdot. }
  pose proof (normalize_target_fields host path scheme t H) as (Hk & Hr & Hl). rewrite Hk, Hr.
  destruct Hl as [-> | ->]; cbn [level_prefix];
    (etrans; [first [apply (canonical_of_domain (nt_hostname t))
                    | apply (canonical_of_subdomain (nt_hostname t))]|]);
    rewrite Hc; by destruct (nt_hostname t).
Qed.

(** ** Tenant exceptions *)

Lemma elem_of_add_domains ds s x :
  x ∈ foldl add_domain s ds <->
  x ∈ s \/ exists d, d ∈ ds /\ clean_host d <> "" /\ x = derive_registered_domain (clean_host d).
Proof.
  revert s; induction ds as [|d ds IH]; intros s; cbn -[clean_host]; [set_solver|].
  rewrite IH. unfold add_domain. destruct (clean_host d) eqn:E; cbn -[clean_host].
  - split; [set_solver|]. intros [?|(d' & [->|?]%elem_of_cons & Hne & ->)]; [by left|congruence|].
    right. eauto.
  - rewrite <- E. rewrite elem_of_union, elem_of_singleton. split.
    + intros [[->|?]|(d' & ? & ? & ->)]; [right|by left|right].
      * exists d. rewrite elem_of_cons. split_and!; [by left|congruence|done].
      * exists d'. rewrite elem_of_cons. eauto.
    + intros [?|(d' & [->|?]%elem_of_cons & Hne & ->)]; [by left; right|by left; left|right; eauto].
Qed.

Lemma add_domains_union ds s : foldl add_domain s ds = foldl add_domain ∅ ds ∪ s.
Proof. apply set_eq. intros x. rewrite elem_of_union, !elem_of_add_domains. set_solver. Qed.

Lemma add_tenant_comm m a b : add_tenant (add_tenant m a) b = add_tenant (add_tenant m b) a.
Proof.
  unfold add_tenant. rewrite !(add_domains_union _ (default _ _)).
  set (ka := normalize_tenant_key a.1). set (kb := normalize_tenant_key b.1).
  destruct (decide (ka = kb)) as [->|Hne].
  - rewrite !lookup_insert_eq, !insert_insert_eq. cbn. f_equal. set_solver.
  - rewrite !lookup_insert_ne by done. by rewrite insert_insert_ne.
Qed.

(** The tenant exceptions do not depend on the order in which the configuration map is
    iterated, which Rust leaves unspecified. *)
Theorem from_tenant_exceptions_order input input' :
  input ≡ₚ input' -> from_tenant_exceptions input = from_tenant_exceptions input'.
Proof.
  intros Hp. unfold from_tenant_exceptions. f_equal.
  apply foldl_permutation; [apply add_tenant_comm|done].
Qed.

Lemma exceptions_lookup input m x k :
  (exists set, foldl add_tenant m input !! k = Some set /\ x ∈ set) <->
  (exists set, m !! k = Some set /\ x ∈ set) \/
  exists e d, e ∈ input /\ normalize_tenant_key e.1 = k /\
    d ∈ e.2 /\ clean_host d <> "" /\ x = derive_registered_domain (clean_host d).
Proof.
  revert m; induction input as [|e input IH]; intros m; cbn -[add_tenant]; [set_solver|].
  rewrite IH. unfold add_tenant. setoid_rewrite lookup_insert.
  setoid_rewrite elem_of_cons. case_decide as Hk.
  - split.
    + intros [(set & [= <-] & [Hx|(d & ? & ? & ->)]%elem_of_add_domains)|(e' & d & ? & ? & ? & ? & ->)].
      * left. subst k. destruct (m !! _); [eauto|set_solver].
      * right. exists e, d. by eauto 10.
      * right. exists e', d. by eauto 10.
    + intros [(set & Hset & Hx)|(e' & d & [->|?] & ? & ? & ? & ->)].
      * left. eexists. split; [done|]. apply elem_of_add_domains. left. subst k. by rewrite Hset.
      * left. eexists. split; [done|]. apply elem_of_add_domains. right. eauto.
      * right. exists e', d. by eauto 10.
  - split.
    + intros [?|(e' & d & ? & ? & ? & ? & ->)]; [by left|right; exists e', d; by eauto 10].
    + intros [?|(e' & d & [->|?] & ? & ? & ? & ->)]; [by left|done|right; exists e', d; by eauto 10].
Qed.

(** [e] is an entry of the configuration that names the registered domain [x] for tenant key [k]. *)
Definition configured (input : list (string * list string)) (k x : string) : Prop :=
  exists e d, e ∈ input /\ normalize_tenant_key e.1 = k /\ d ∈ e.2 /\
    clean_host d <> "" /\ x = derive_registered_domain (clean_host d).

Lemma exceptions_match_spec input x k :
  exceptions_match (from_tenant_exceptions input) x k = true <-> configured input k x.
Proof.
  unfold exceptions_match, configured. cbn. pose proof (exceptions_lookup input ∅ x k) as H.
  destruct (foldl add_tenant ∅ input !! k) as [set|].
  - rewrite bool_decide_eq_true. split.
    + intros Hx. destruct H as [[(? & ? & ?)|?] _]; [by eauto|by rewrite lookup_empty in *|done].
    + intros Hc. destruct H as [_ (? & [= <-] & ?)]; [by right|done].
  - split; [done|]. intros Hc. destruct H as [_ (? & ? & ?)]; [by right|done].
Qed.

(** A host keeps its subdomain granularity exactly when the configuration lists its
    registered domain for the request's tenant, for "*" or for "default". *)
Theorem keeps_subdomain_granularity_spec input tenant host :
  let registered := clean_host (derive_registered_domain host) in
  keeps_subdomain_granularity (from_tenant_exceptions input) tenant host = true <->
  registered <> "" /\
  exists k, configured input k registered /\
    (k = "*" \/ k = "default" \/ exists t, tenant = Some t /\ k = normalize_tenant_key t).
Proof.
  intros registered. unfold keeps_subdomain_granularity. fold registered.
  case_decide as Hempty.
  { split; [done|]. intros (_ & k & Hc%exceptions_match_spec & _).
    unfold exceptions_match in Hc. rewrite Hempty, lookup_empty in Hc. done. }
  assert (is_empty registered = true <-> registered = "") as Hie by (by destruct registered).
  destruct (is_empty registered); [naive_solver|].
  rewrite !orb_true_iff, !exceptions_match_spec. split.
  - intros [[Ht|?]|?]; (split; [naive_solver|]); [|by eauto..].
    destruct tenant as [t|]; [|done]. apply exceptions_match_spec in Ht. by eauto 10.
  - intros (_ & k & Hc & [->|[->|(t & -> & ->)]]); [by left; right|by right|].
    left; left. by apply exceptions_match_spec.
Qed.

(** With a policy, a key keeps its full host when the tenant keeps subdomain granularity and
    is the plain canonical key otherwise; the policy never turns a key that has a canonical form
    into one that has none, nor the reverse. *)
Theorem canonical_with_policy_spec key policy tenant :
  canonical_classification_key_with_policy key policy tenant =
  match canonical_classification_key key with
  | Some canonical =>
      match strip_host_prefix key with
      | Some raw =>
          Some (if keeps_subdomain_granularity policy tenant (clean_host raw)
                then "domain:" +:+ clean_host raw else canonical)
      | None => None
      end
  | None => None
  end.
Proof.
  unfold canonical_classification_key_with_policy, canonical_classification_key.
  destruct (strip_host_prefix key) as [raw|]; cbn -[clean_host keeps_subdomain_granularity]; [|done].
  destruct (is_empty (clean_host raw)); [done|]. by destruct (keeps_subdomain_granularity _ _ _).
Qed.

(** A bare IPv6 literal whose last group is decimal loses that group: [sanitize_host] takes
    it for a port.  The adaptor passes it such literals, since the ICAP parser has already
    removed the brackets. *)
Theorem sanitize_host_ipv6 h g :
  trim (h +:+ ":" +:+ g) = h +:+ ":" +:+ g -> starts_with "[" (h +:+ ":" +:+ g) = false ->
  str_forall is_ascii_digit g = true ->
  sanitize_host (h +:+ ":" +:+ g) = h.
Proof.
  intros Ht Hb Hg. unfold sanitize_host. rewrite Ht.
  destruct (strip_prefix "[" (h +:+ ":" +:+ g)) as [rest|] eqn:E.
  { unfold starts_with in Hb. by rewrite E in Hb. }
  assert (rsplit_once ":" (h +:+ ":" +:+ g) = Some (h, g)) as ->; [|by rewrite Hg].
  clear -Hg. induction h as [|a h IH]; cbn.
  - assert (rsplit_once ":" g = None) as ->; [|done].
    induction g as [|a g IH]; cbn in *; [done|]. apply andb_true_iff in Hg as [Ha Hg].
    rewrite IH by done. case_decide; [subst; vm_compute in Ha; done|done].
  - cbn in IH. by rewrite IH.
Qed.

End Normalizer.

(** ** Witnesses *)

Import Demo.

Lemma canonical_classification_key_idempotent_witness :
  canonical_classification_key "subdomain:WWW.Example.com." = Some "domain:example.com" /\
  canonical_classification_key "domain:example.com" = Some "domain:example.com".
Proof.
  split; [vm_compute; reflexivity|].
  apply (canonical_classification_key_idempotent "subdomain:WWW.Example.com.");
    vm_compute; reflexivity.
Defined.

Definition demo_target : NormalizedTarget :=
  {| nt_entity_level := Subdomain; nt_normalized_key := "subdomain:app.example.com";
     nt_hostname := "app.example.com"; nt_registered_domain := "example.com";
     nt_full_url := "https://app.example.com/x" |}.

Lemma normalize_target_spec_witness :
  normalize_target "App.Example.com:443" "/x" (Some "https") = Ok demo_target /\
  nt_hostname demo_target <> nt_registered_domain demo_target.
Proof.
  split; [vm_compute; reflexivity|].
  apply (normalize_target_spec "App.Example.com:443" "/x" (Some "https") demo_target);
    vm_compute; reflexivity.
Defined.

Lemma canonical_key_of_target_witness :
  canonical_classification_key "subdomain:app.example.com" = Some "domain:example.com".
Proof.
  apply (canonical_key_of_target "App.Example.com:443" "/x" (Some "https") demo_target);
    vm_compute; (reflexivity || discriminate).
Defined.

Lemma from_tenant_exceptions_order_witness :
  from_tenant_exceptions [("a", ["x.com"]); ("b", ["y.com"])] =
  from_tenant_exceptions [("b", ["y.com"]); ("a", ["x.com"])].
Proof. apply from_tenant_exceptions_order. apply Permutation_swap. Defined.

Lemma sanitize_host_ipv6_witness : sanitize_host "2001:db8::1" = "2001:db8:".
Proof. apply (sanitize_host_ipv6 "2001:db8:" "1"); vm_compute; reflexivity. Defined.
