(* ===== verification/Taxonomy.v ===== *)
(** * The canonical taxonomy

    [crates/taxonomy/src/lib.rs]: the taxonomy document and its validation, the store of lookup
    tables built from it, and the resolution of free-form labels.  A [HashMap<String, usize>] is
    a [gmap string nat].  Indexing out of range and [expect] panic in Rust; the definitions
    that index answer [None] there. *)

From S2P Require Import Prelude RustStr.

(** ** Data *)

Definition UNKNOWN_CATEGORY_ID : string := "unknown-unclassified".
Definition UNKNOWN_DEFAULT_SUBCATEGORY_ID : string := "insufficient-evidence".

Record CanonicalSubcategory := {
  sub_id : string;
  sub_name : string;
  sub_always_enabled : option bool
}.
Record CanonicalCategory := {
  cat_id : string;
  cat_name : string;
  cat_always_enabled : option bool;
  cat_subcategories : list CanonicalSubcategory
}.
Record CanonicalTaxonomy := {
  tx_version : string;
  tx_source : option string;
  tx_categories : list CanonicalCategory
}.

Record TaxonomyStore := {
  ts_taxonomy : CanonicalTaxonomy;
  ts_category_by_id : gmap string nat;
  ts_category_lookup : gmap string nat;
  ts_subcategory_by_id : gmap string (gmap string nat);
  ts_subcategory_lookup : gmap string (gmap string nat);
  ts_unknown_category_index : nat;
  ts_unknown_default_subcategory_index : nat
}.

Inductive FallbackReason :=
  | MissingCategory | UnknownCategory | MissingSubcategory | UnknownSubcategory.
Global Instance FallbackReason_eq_dec : EqDecision FallbackReason.
Proof. solve_decision. Defined.

Definition fallback_as_str (r : FallbackReason) : string :=
  match r with
  | MissingCategory => "missing_category"
  | UnknownCategory => "unknown_category"
  | MissingSubcategory => "missing_subcategory"
  | UnknownSubcategory => "unknown_subcategory"
  end.

Record ValidatedTaxonomyLabels := {
  vl_category : CanonicalCategory;
  vl_subcategory : CanonicalSubcategory;
  vl_fallback_reason : option FallbackReason;
  vl_normalized_category : option string;
  vl_normalized_subcategory : option string
}.
Record ValidatedCategory := {
  vc_category : CanonicalCategory;
  vc_fallback_reason : option FallbackReason;
  vc_normalized_category : option string
}.

(** ** Validation of a document *)

Definition is_nil {A} (l : list A) : bool := match l with [] => true | _ => false end.

Fixpoint validate_subcategories (category_id : string) (seen : gset string)
    (subs : list CanonicalSubcategory) : result string unit :=
  match subs with
  | [] => Ok tt
  | sub :: subs' =>
      if decide (sub_id sub ∈ seen) then
        Err ("duplicate subcategory id detected within " +:+ category_id +:+ ": " +:+ sub_id sub)
      else validate_subcategories category_id ({[sub_id sub]} ∪ seen) subs'
  end.

Fixpoint validate_categories (seen : gset string) (cats : list CanonicalCategory)
    : result string unit :=
  match cats with
  | [] => Ok tt
  | category :: cats' =>
      if decide (cat_id category ∈ seen) then
        Err ("duplicate category id detected: " +:+ cat_id category)
      else if is_nil (cat_subcategories category) then
        Err ("category " +:+ cat_id category +:+ " must contain at least one subcategory")
      else
        _ ← validate_subcategories (cat_id category) ∅ (cat_subcategories category);
        validate_categories ({[cat_id category]} ∪ seen) cats'
  end.

Definition validate (t : CanonicalTaxonomy) : result string unit :=
  if is_empty (trim (tx_version t)) then Err "taxonomy version must be non-empty"
  else
    _ ← validate_categories ∅ (tx_categories t);
    if negb (length (tx_categories t) =? 41) then
      Err ("expected 41 canonical categories, found " +:+ pretty (length (tx_categories t)))
    else if negb (any (fun cat => bool_decide (cat_id cat = UNKNOWN_CATEGORY_ID)) (tx_categories t)) then
      Err "missing unknown-unclassified category"
    else Ok tt.

(** ** Label normalisation *)

(** The loop of [normalize_label]: map to lower-case letters and digits, runs of anything else
    to one space.  A multi-byte character is a run of non-alphanumeric bytes, so it gives the
    same single space byte-wise as character-wise. *)
Fixpoint label_chars (last_was_space : bool) (s : string) : string :=
  match s with
  | "" => ""
  | String ch s' =>
      let lower := lower_char ch in
      if is_ascii_digit lower || is_ascii_lower lower then String lower (label_chars false s')
      else if last_was_space then label_chars true s'
      else String " " (label_chars true s')
  end.

Definition normalize_label (value : string) : option string :=
  let trimmed := trim value in
  if is_empty trimmed then None
  else
    let normalized := trim (label_chars false trimmed) in
    if is_empty normalized then None else Some normalized.

(** ** Building the store *)

(** [map.entry(k).or_insert(v)]. *)
Definition or_insert {V} (k : string) (v : V) (m : gmap string V) : gmap string V :=
  match m !! k with Some _ => m | None => <[k := v]> m end.

(** [if let Some(n) = normalize_label(..) { .. }]. *)
Definition with_label (label : string) (f : string -> gmap string nat -> gmap string nat)
    (m : gmap string nat) : gmap string nat :=
  match normalize_label label with Some n => f n m | None => m end.

(** The label table's two insertions for one category or subcategory. *)
Definition insert_labels (name id : string) (index : nat) (m : gmap string nat) : gmap string nat :=
  with_label id (fun n => or_insert n index) (with_label name (fun n => <[n := index]>) m).

Record SubTables := {
  st_by_id : gmap string nat;
  st_lookup : gmap string nat;
  st_unknown_default : option nat
}.

Definition add_subcategory (category_id : string) (sub_index : nat) (sub : CanonicalSubcategory)
    (st : SubTables) : SubTables :=
  {| st_by_id := <[sub_id sub := sub_index]> (st_by_id st);
     st_lookup := insert_labels (sub_name sub) (sub_id sub) sub_index (st_lookup st);
     st_unknown_default :=
       if decide (category_id = UNKNOWN_CATEGORY_ID /\ sub_id sub = UNKNOWN_DEFAULT_SUBCATEGORY_ID)
       then Some sub_index else st_unknown_default st |}.

Fixpoint add_subcategories (category_id : string) (index : nat) (subs : list CanonicalSubcategory)
    (st : SubTables) : SubTables :=
  match subs with
  | [] => st
  | sub :: subs' =>
      add_subcategories category_id (S index) subs' (add_subcategory category_id index sub st)
  end.

Record BuildState := {
  b_category_by_id : gmap string nat;
  b_category_lookup : gmap string nat;
  b_subcategory_by_id : gmap string (gmap string nat);
  b_subcategory_lookup : gmap string (gmap string nat);
  b_unknown_category_index : option nat;
  b_unknown_default_subcategory_index : option nat
}.

Definition build_empty : BuildState :=
  {| b_category_by_id := ∅; b_category_lookup := ∅; b_subcategory_by_id := ∅;
     b_subcategory_lookup := ∅; b_unknown_category_index := None;
     b_unknown_default_subcategory_index := None |}.

Definition add_category (index : nat) (category : CanonicalCategory) (b : BuildState) : BuildState :=
  let subs := add_subcategories (cat_id category) 0 (cat_subcategories category)
    {| st_by_id := ∅; st_lookup := ∅;
       st_unknown_default := b_unknown_default_subcategory_index b |} in
  {| b_category_by_id := <[cat_id category := index]> (b_category_by_id b);
     b_category_lookup :=
       insert_labels (cat_name category) (cat_id category) index (b_category_lookup b);
     b_subcategory_by_id := <[cat_id category := st_by_id subs]> (b_subcategory_by_id b);
     b_subcategory_lookup := <[cat_id category := st_lookup subs]> (b_subcategory_lookup b);
     b_unknown_category_index :=
       if decide (cat_id category = UNKNOWN_CATEGORY_ID) then Some index
       else b_unknown_category_index b;
     b_unknown_default_subcategory_index := st_unknown_default subs |}.

Fixpoint add_categories (index : nat) (cats : list CanonicalCategory) (b : BuildState) : BuildState :=
  match cats with
  | [] => b
  | category :: cats' => add_categories (S index) cats' (add_category index category b)
  end.

Definition CATEGORY_ALIAS_PAIRS : list (string * string) :=
  [("social", "social-media"); ("social networking", "social-media");
   ("shopping", "shopping-e-commerce"); ("ecommerce", "shopping-e-commerce");
   ("malware", "malware-phishing-fraud"); ("phishing", "malware-phishing-fraud");
   ("fraud", "malware-phishing-fraud"); ("adult", "adult-sexual-content");
   ("sexual content", "adult-sexual-content"); ("advertising", "advertisements");
   ("ads", "advertisements"); ("adtech", "advertisements"); ("ad network", "advertisements");
   ("unknown", "unknown-unclassified")].

Definition SUBCATEGORY_ALIAS_PAIRS : list (string * string * string) :=
  [("social-media", "short form video", "short-video-platforms");
   ("social-media", "social networking", "social-networks");
   ("social-media", "social network", "social-networks");
   ("social-media", "general social networking", "social-networks");
   ("news-media", "general", "general-news");
   ("shopping-e-commerce", "retail", "general-retail");
   (UNKNOWN_CATEGORY_ID, "unknown", UNKNOWN_DEFAULT_SUBCATEGORY_ID);
   ("advertisements", "advertisement", "general-advertising");
   ("advertisements", "ads", "general-advertising");
   ("advertisements", "advertising network", "general-advertising")].

Definition apply_category_alias (by_id : gmap string nat) (lookup : gmap string nat)
    (pair : string * string) : gmap string nat :=
  match by_id !! pair.2 with
  | Some idx => with_label pair.1 (fun n => or_insert n idx) lookup
  | None => lookup
  end.

Definition apply_subcategory_alias (by_id : gmap string (gmap string nat))
    (lookup : gmap string (gmap string nat)) (entry : string * string * string)
    : gmap string (gmap string nat) :=
  let '(category_id, alias, subcategory_id) := entry in
  match by_id !! category_id with
  | None => lookup
  | Some sub_map =>
      match sub_map !! subcategory_id with
      | None => lookup
      | Some sub_idx =>
          match normalize_label alias with
          | Some n => alter (or_insert n sub_idx) category_id lookup
          | None => lookup
          end
      end
  end.

(** [TaxonomyStore::new]; [None] is the panic of [expect]. *)
Definition TaxonomyStore_new (t : CanonicalTaxonomy) : option TaxonomyStore :=
  let b := add_categories 0 (tx_categories t) build_empty in
  unknown_category_index ← b_unknown_category_index b;
  Some {| ts_taxonomy := t;
          ts_category_by_id := b_category_by_id b;
          ts_category_lookup :=
            foldl (apply_category_alias (b_category_by_id b)) (b_category_lookup b) CATEGORY_ALIAS_PAIRS;
          ts_subcategory_by_id := b_subcategory_by_id b;
          ts_subcategory_lookup :=
            foldl (apply_subcategory_alias (b_subcategory_by_id b)) (b_subcategory_lookup b)
              SUBCATEGORY_ALIAS_PAIRS;
          ts_unknown_category_index := unknown_category_index;
          ts_unknown_default_subcategory_index :=
            default 0 (b_unknown_default_subcategory_index b) |}.

(** ** Resolution *)

Record CategoryResolution := {
  cr_index : nat;
  cr_fallback_reason : option FallbackReason
}.
Inductive SubcategoryResolution :=
  | Match (idx : nat)
  | Fallback (reason : FallbackReason).

Definition category_by_index (st : TaxonomyStore) (index : nat) : option CanonicalCategory :=
  tx_categories (ts_taxonomy st) !! index.

Definition subcategory_by_index (st : TaxonomyStore) (category_index subcategory_index : nat)
    : option CanonicalSubcategory :=
  category ← category_by_index st category_index;
  cat_subcategories category !! subcategory_index.

Definition resolve_category (st : TaxonomyStore) (input : string) (normalized : option string)
    : CategoryResolution :=
  match ts_category_by_id st !! input with
  | Some idx => {| cr_index := idx; cr_fallback_reason := None |}
  | None =>
      match norm ← normalized; ts_category_lookup st !! norm with
      | Some idx => {| cr_index := idx; cr_fallback_reason := None |}
      | None =>
          {| cr_index := ts_unknown_category_index st;
             cr_fallback_reason := Some (if is_empty input then MissingCategory else UnknownCategory) |}
      end
  end.

(** The outer [option] is the panic of [categories[category_index]]. *)
Definition resolve_subcategory (st : TaxonomyStore) (category_index : nat)
    (input normalized : option string) : option (option SubcategoryResolution) :=
  category ← category_by_index st category_index;
  Some (
    by_id ← ts_subcategory_by_id st !! cat_id category;
    match value ← input; (by_id : gmap string nat) !! value with
    | Some idx => Some (Match idx)
    | None =>
        match norm ← normalized; map ← ts_subcategory_lookup st !! cat_id category;
              (map : gmap string nat) !! norm with
        | Some idx => Some (Match idx)
        | None =>
            Some (Fallback (match input with None => MissingSubcategory | Some _ => UnknownSubcategory end))
        end
    end).

Definition validate_labels (st : TaxonomyStore) (category : string) (subcategory : option string)
    : option ValidatedTaxonomyLabels :=
  let trimmed_category := trim category in
  let normalized_category := normalize_label trimmed_category in
  let resolution := resolve_category st trimmed_category normalized_category in
  let cleaned_subcategory :=
    value ← subcategory; let trimmed := trim value in if is_empty trimmed then None else Some trimmed in
  let normalized_subcategory := cleaned_subcategory ≫= normalize_label in
  let unknown := (ts_unknown_category_index st, ts_unknown_default_subcategory_index st) in
  let or_reason reason :=
    match cr_fallback_reason resolution with Some r => Some r | None => Some reason end in
  '(category_index, subcategory_index, fallback_reason) ←
    (if decide (cr_index resolution = ts_unknown_category_index st) then
       Some (cr_index resolution, ts_unknown_default_subcategory_index st, cr_fallback_reason resolution)
     else
       r ← resolve_subcategory st (cr_index resolution) cleaned_subcategory normalized_subcategory;
       Some match r with
            | Some (Match idx) => (cr_index resolution, idx, cr_fallback_reason resolution)
            | Some (Fallback reason) => (unknown.1, unknown.2, or_reason reason)
            | None => (unknown.1, unknown.2, or_reason MissingSubcategory)
            end);
  category_ref ← category_by_index st category_index;
  subcategory_ref ← subcategory_by_index st category_index subcategory_index;
  Some {| vl_category := category_ref;
          vl_subcategory := subcategory_ref;
          vl_fallback_reason := fallback_reason;
          vl_normalized_category := normalized_category;
          vl_normalized_subcategory := normalized_subcategory |}.

Definition validate_category (st : TaxonomyStore) (category : string) : option ValidatedCategory :=
  let trimmed_category := trim category in
  let normalized_category := normalize_label trimmed_category in
  let resolution := resolve_category st trimmed_category normalized_category in
  category_ref ← category_by_index st (cr_index resolution);
  Some {| vc_category := category_ref;
          vc_fallback_reason := cr_fallback_reason resolution;
          vc_normalized_category := normalized_category |}.

(** ** Well-formed documents *)

(** What [validate] demands of a document. *)
Definition taxonomy_wf (t : CanonicalTaxonomy) : Prop :=
  trim (tx_version t) <> "" /\
  NoDup (cat_id <$> tx_categories t) /\
  Forall (fun c => cat_subcategories c <> [] /\ NoDup (sub_id <$> cat_subcategories c)) (tx_categories t) /\
  length (tx_categories t) = 41 /\
  (exists c, c ∈ tx_categories t /\ cat_id c = UNKNOWN_CATEGORY_ID).

(** Both id checks are [HashSet::insert] returning whether the id is new. *)
Lemma validate_subcategories_Ok cid seen subs :
  validate_subcategories cid seen subs = Ok tt <->
  NoDup (sub_id <$> subs) /\ forall s, s ∈ subs -> sub_id s ∉ seen.
Proof.
  revert seen; induction subs as [|s subs IH]; intros seen; cbn.
  - split; [intros _; split; [constructor|set_solver]|done].
  - case_decide as Hin.
    + split; [done|]. intros [_ H]. exfalso. apply (H s); [constructor|done].
    + rewrite IH, NoDup_cons. split.
      * intros [Hnd Hs]. split_and!; [|done|].
        -- intros (s' & Heq & Hs')%list_elem_of_fmap. apply (Hs s' Hs'). set_solver.
        -- intros s' [->|Hs']%elem_of_cons; [done|]. specialize (Hs s' Hs'). set_solver.
      * intros [[Hni Hnd] Hs]. split; [done|]. intros s' Hs'.
        assert (sub_id s' ∉ seen) by (apply Hs; by constructor).
        assert (sub_id s' <> sub_id s) by (intros E; apply Hni; rewrite <- E; by apply list_elem_of_fmap_2).
        set_solver.
Qed.

Lemma validate_categories_Ok seen cats :
  validate_categories seen cats = Ok tt <->
  NoDup (cat_id <$> cats) /\ (forall c, c ∈ cats -> cat_id c ∉ seen) /\
  Forall (fun c => cat_subcategories c <> [] /\ NoDup (sub_id <$> cat_subcategories c)) cats.
Proof.
  revert seen; induction cats as [|c cats IH]; intros seen; cbn.
  - split; [intros _; split_and!; [constructor|set_solver|constructor]|done].
  - rewrite NoDup_cons, Forall_cons. case_decide as Hin.
    + split; [done|]. intros (_ & H & _). exfalso. apply (H c); [constructor|done].
    + destruct (cat_subcategories c) as [|s0 subs0] eqn:Es; cbn [is_nil]; [naive_solver|].
      rewrite <- Es. rewrite bind_Ok. split.
      * intros ([] & [Hsub _]%validate_subcategories_Ok & (Hnd & Hs & Hf)%IH).
        split_and!; try done; [| |by rewrite Es].
        -- intros (c' & Heq & Hc')%list_elem_of_fmap. apply (Hs c' Hc'). set_solver.
        -- intros c' [->|Hc']%elem_of_cons; [done|]. specialize (Hs c' Hc'). set_solver.
      * intros ([Hni Hnd] & Hs & [_ Hsub] & Hf). exists tt. split.
        { apply validate_subcategories_Ok. split; [done|set_solver]. }
        apply IH. split_and!; [done| |done]. intros c' Hc'.
        assert (cat_id c' ∉ seen) by (apply Hs; by constructor).
        assert (cat_id c' <> cat_id c) by (intros E; apply Hni; rewrite <- E; by apply list_elem_of_fmap_2).
        set_solver.
Qed.

Lemma validate_wf t : validate t = Ok tt <-> taxonomy_wf t.
Proof.
  unfold validate, taxonomy_wf.
  assert (is_empty (trim (tx_version t)) = true <-> trim (tx_version t) = "") as Hv
    by (by destruct (trim (tx_version t))).
  destruct (is_empty (trim (tx_version t))); [naive_solver|].
  rewrite bind_Ok. destruct (Nat.eqb_spec (length (tx_categories t)) 41) as [Hlen|Hlen]; cbn [negb].
  - destruct (any _ _) eqn:Ea; cbn [negb].
    + apply any_true in Ea. setoid_rewrite bool_decide_eq_true in Ea. split.
      * intros ([] & (? & _ & ?)%validate_categories_Ok & _). split_and!; try done; naive_solver.
      * intros (_ & ? & ? & _). exists tt. split; [|done]. apply validate_categories_Ok.
        split_and!; [done|set_solver|done].
    + split; [naive_solver|]. intros (_ & _ & _ & _ & c & Hc & Hid).
      rewrite any_false in Ea. specialize (Ea c Hc). by rewrite bool_decide_eq_false in Ea.
  - split; [naive_solver|]. by intros (_ & _ & _ & ? & _).
Qed.

(** ** Lookup tables *)

(** [m] maps each key to the position of the element that has it. *)
Definition is_index {A} (key : A -> string) (l : list A) (m : gmap string nat) : Prop :=
  forall k i, m !! k = Some i <-> exists x, l !! i = Some x /\ key x = k.
(** Every position [m] names is below [n]. *)
Definition bounded (n : nat) (m : gmap string nat) : Prop :=
  forall k i, m !! k = Some i -> i < n.

Lemma is_index_empty {A} (key : A -> string) : is_index key [] ∅.
Proof. intros k i. rewrite lookup_empty, lookup_nil. naive_solver. Qed.

Lemma is_index_snoc {A} (key : A -> string) l x m :
  is_index key l m -> key x ∉ (key <$> l) ->
  is_index key (l ++ [x]) (<[key x := length l]> m).
Proof.
  intros Hm Hx k i. rewrite lookup_insert. case_decide as Hk.
  - subst k. split.
    + intros [= <-]. exists x. split; [|done]. by rewrite lookup_app_r, Nat.sub_diag.
    + intros (y & Hy & Hkey). apply lookup_app_Some in Hy as [Hy|[Hi Hy]].
      * exfalso. apply Hx. rewrite <- Hkey. apply list_elem_of_fmap_2. by eapply list_elem_of_lookup_2.
      * f_equal. apply list_lookup_singleton_Some in Hy as [? _]. lia.
  - rewrite (Hm k i). split; intros (y & Hy & Hkey); exists y; (split; [|done]).
    + by apply lookup_app_l_Some.
    + apply lookup_app_Some in Hy as [Hy|[_ Hy]]; [done|].
      apply list_lookup_singleton_Some in Hy as [_ <-]. by rewrite Hkey in Hk.
Qed.

Lemma is_index_bounded {A} (key : A -> string) l m : is_index key l m -> bounded (length l) m.
Proof. intros H k i (x & Hx & _)%H. by eapply lookup_lt_Some. Qed.

Lemma bounded_weaken n n' m : bounded n m -> n <= n' -> bounded n' m.
Proof. intros H ? k i ?%H. lia. Qed.
Lemma bounded_empty n : bounded n ∅.
Proof. intros k i. by rewrite lookup_empty. Qed.
Lemma bounded_insert n k i m : bounded n m -> i < n -> bounded n (<[k := i]> m).
Proof. intros H ? k' i'. rewrite lookup_insert. case_decide; [naive_solver|apply H]. Qed.
Lemma bounded_or_insert n k i m : bounded n m -> i < n -> bounded n (or_insert k i m).
Proof. unfold or_insert. intros. case_match; [done|by apply bounded_insert]. Qed.
Lemma bounded_insert_labels n name id i m :
  bounded n m -> i < n -> bounded n (insert_labels name id i m).
Proof.
  intros. unfold insert_labels, with_label. repeat case_match;
    auto using bounded_insert, bounded_or_insert.
Qed.
#[local] Hint Resolve bounded_empty bounded_insert bounded_or_insert bounded_insert_labels : od.

Record sub_inv (category_id : string) (init : option nat) (pre : list CanonicalSubcategory)
    (st : SubTables) : Prop := {
  si_by_id : is_index sub_id pre (st_by_id st);
  si_lookup : bounded (length pre) (st_lookup st);
  si_default j : st_unknown_default st = Some j ->
    init = Some j \/ category_id = UNKNOWN_CATEGORY_ID /\ j < length pre
}.

Lemma add_subcategories_inv cid init pre subs st :
  sub_inv cid init pre st -> NoDup (sub_id <$> (pre ++ subs)) ->
  sub_inv cid init (pre ++ subs) (add_subcategories cid (length pre) subs st).
Proof.
  revert pre st; induction subs as [|s subs IH]; intros pre st Hst Hnd; cbn.
  - by rewrite app_nil_r.
  - rewrite cons_middle, app_assoc in Hnd |- *.
    replace (S (length pre)) with (length (pre ++ [s])) by (rewrite length_app; cbn; lia).
    apply IH; [|done]. destruct Hst as [H1 H2 H3].
    assert (bounded (length (pre ++ [s])) (st_lookup st)) as H2'
      by (eapply bounded_weaken; [done|rewrite length_app; lia]).
    assert (length pre < length (pre ++ [s])) as Hlt by (rewrite length_app; cbn; lia).
    split; cbn; [|by auto with od|].
    + apply is_index_snoc; [done|]. rewrite !fmap_app in Hnd. apply NoDup_app in Hnd as [Hnd _].
      apply NoDup_app in Hnd as (_ & Hd & _). intros Hin. apply (Hd _ Hin). cbn. constructor.
    + intros j. case_decide as Hc; [intros [= <-]; right; naive_solver|].
      intros [?|[? ?]]%H3; [by left|right; split; [done|lia]].
Qed.

Record build_inv (pre : list CanonicalCategory) (b : BuildState) : Prop := {
  bi_by_id : is_index cat_id pre (b_category_by_id b);
  bi_lookup : bounded (length pre) (b_category_lookup b);
  bi_sub_by_id i c : pre !! i = Some c ->
    exists m, b_subcategory_by_id b !! cat_id c = Some m /\ is_index sub_id (cat_subcategories c) m;
  bi_sub_lookup i c : pre !! i = Some c ->
    exists m, b_subcategory_lookup b !! cat_id c = Some m /\ bounded (length (cat_subcategories c)) m;
  bi_unknown i : b_unknown_category_index b = Some i <->
    exists c, pre !! i = Some c /\ cat_id c = UNKNOWN_CATEGORY_ID;
  bi_default j : b_unknown_default_subcategory_index b = Some j ->
    exists i c, pre !! i = Some c /\ cat_id c = UNKNOWN_CATEGORY_ID /\ j < length (cat_subcategories c)
}.

Lemma build_inv_empty : build_inv [] build_empty.
Proof.
  split; cbn; try done; [apply is_index_empty|].
  intros i. rewrite lookup_nil. naive_solver.
Qed.

Lemma add_category_subs b c :
  NoDup (sub_id <$> cat_subcategories c) ->
  sub_inv (cat_id c) (b_unknown_default_subcategory_index b) (cat_subcategories c)
    (add_subcategories (cat_id c) 0 (cat_subcategories c)
      {| st_by_id := ∅; st_lookup := ∅; st_unknown_default := b_unknown_default_subcategory_index b |}).
Proof.
  intros Hnd. apply (add_subcategories_inv _ _ [] _); [|done].
  split; cbn; [apply is_index_empty|apply bounded_empty|by left].
Qed.

Lemma add_category_inv pre b c :
  build_inv pre b -> cat_id c ∉ (cat_id <$> pre) -> NoDup (sub_id <$> cat_subcategories c) ->
  build_inv (pre ++ [c]) (add_category (length pre) c b).
Proof.
  intros [H1 H2 H3 H4 H5 H6] Hc Hnd. destruct (add_category_subs b c Hnd) as [S1 S2 S3].
  assert (forall i c', pre !! i = Some c' -> cat_id c <> cat_id c') as Hne.
  { intros i c' Hi E. apply Hc. rewrite E. apply list_elem_of_fmap_2. by eapply list_elem_of_lookup_2. }
  unfold add_category. split; cbn -[add_subcategories].
  - by apply is_index_snoc.
  - apply bounded_insert_labels; [eapply bounded_weaken; [done|]|]; rewrite length_app; cbn; lia.
  - intros i c' [Hi|[_ [_ <-]%list_lookup_singleton_Some]]%lookup_app_Some.
    + rewrite lookup_insert_ne by (by eapply Hne). eauto.
    + rewrite lookup_insert_eq. eauto.
  - intros i c' [Hi|[_ [_ <-]%list_lookup_singleton_Some]]%lookup_app_Some.
    + rewrite lookup_insert_ne by (by eapply Hne). eauto.
    + rewrite lookup_insert_eq. eauto.
  - intros i. case_decide as Hu.
    + split.
      * intros [= <-]. exists c. split; [|done]. by rewrite lookup_app_r, Nat.sub_diag.
      * intros (c' & [Hi|[Hi [? <-]%list_lookup_singleton_Some]]%lookup_app_Some & Hid);
          [|f_equal; lia]. exfalso. apply (Hne _ _ Hi). congruence.
    + rewrite H5. split; intros (c' & Hi & Hid); exists c'; (split; [|done]).
      * by apply lookup_app_l_Some.
      * apply lookup_app_Some in Hi as [?|[_ [_ <-]%list_lookup_singleton_Some]]; done.
  - intros j [Hj|[Hu Hj]]%S3.
    + destruct (H6 j Hj) as (i & c' & Hi & ? & ?). exists i, c'. split; [by apply lookup_app_l_Some|done].
    + exists (length pre), c. split; [by rewrite lookup_app_r, Nat.sub_diag|done].
Qed.

Lemma add_categories_inv pre cats b :
  build_inv pre b -> NoDup (cat_id <$> (pre ++ cats)) ->
  Forall (fun c => NoDup (sub_id <$> cat_subcategories c)) cats ->
  build_inv (pre ++ cats) (add_categories (length pre) cats b).
Proof.
  revert pre b; induction cats as [|c cats IH]; intros pre b Hb Hnd Hf; cbn.
  - by rewrite app_nil_r.
  - apply Forall_cons in Hf as [Hc Hf]. rewrite cons_middle, app_assoc in Hnd |- *.
    replace (S (length pre)) with (length (pre ++ [c])) by (rewrite length_app; cbn; lia).
    apply IH; [|done|done]. apply add_category_inv; [done| |done].
    rewrite !fmap_app in Hnd. apply NoDup_app in Hnd as [Hnd _].
    apply NoDup_app in Hnd as (_ & Hd & _). intros Hin. apply (Hd _ Hin). cbn. constructor.
Qed.

(** ** The store's invariant *)

Record store_wf (st : TaxonomyStore) : Prop := {
  sw_taxonomy : taxonomy_wf (ts_taxonomy st);
  sw_by_id : is_index cat_id (tx_categories (ts_taxonomy st)) (ts_category_by_id st);
  sw_lookup : bounded (length (tx_categories (ts_taxonomy st))) (ts_category_lookup st);
  sw_sub_by_id i c : category_by_index st i = Some c ->
    exists m, ts_subcategory_by_id st !! cat_id c = Some m /\ is_index sub_id (cat_subcategories c) m;
  sw_sub_lookup i c : category_by_index st i = Some c ->
    exists m, ts_subcategory_lookup st !! cat_id c = Some m /\ bounded (length (cat_subcategories c)) m;
  sw_unknown : exists c, category_by_index st (ts_unknown_category_index st) = Some c /\
    cat_id c = UNKNOWN_CATEGORY_ID /\
    ts_unknown_default_subcategory_index st < length (cat_subcategories c)
}.

Lemma category_aliases_bounded n by_id pairs lookup :
  bounded n by_id -> bounded n lookup -> bounded n (foldl (apply_category_alias by_id) lookup pairs).
Proof.
  intros Hid. revert lookup; induction pairs as [|p pairs IH]; intros lookup Hl; cbn; [done|].
  apply IH. unfold apply_category_alias, with_label. repeat case_match; try done.
  apply bounded_or_insert; [done|by eapply Hid].
Qed.

(** The aliases keep every subcategory table in range of its category. *)
Lemma subcategory_aliases_bounded by_id entries lookup cid subs m :
  by_id !! cid = Some m -> is_index sub_id subs m ->
  (exists l, lookup !! cid = Some l /\ bounded (length subs) l) ->
  exists l, foldl (apply_subcategory_alias by_id) lookup entries !! cid = Some l /\ bounded (length subs) l.
Proof.
  intros Hm Hidx. revert lookup; induction entries as [|[[c a] s] entries IH]; intros lookup Hl; cbn; [done|].
  apply IH. repeat case_match; try done. destruct Hl as (l & Hl & Hb).
  rewrite lookup_alter. case_decide; [subst c|by eauto]. rewrite Hl. cbn.
  eexists. split; [done|]. apply bounded_or_insert; [done|].
  eapply is_index_bounded; [done|]. by simplify_eq.
Qed.

Lemma category_eq_of_id t i j c c' :
  taxonomy_wf t -> tx_categories t !! i = Some c -> tx_categories t !! j = Some c' ->
  cat_id c = cat_id c' -> c = c'.
Proof.
  intros (_ & Hnd & _) Hi Hj E.
  assert (i = j) as ->; [|congruence].
  eapply (NoDup_lookup (cat_id <$> tx_categories t)); [done|rewrite list_lookup_fmap, Hi; done|].
  by rewrite list_lookup_fmap, Hj, E.
Qed.

Lemma TaxonomyStore_new_wf t :
  taxonomy_wf t -> exists st, TaxonomyStore_new t = Some st /\ store_wf st /\ ts_taxonomy st = t.
Proof.
  intros Hwf. pose proof Hwf as (_ & Hnd & Hf & _ & (u & Hu & Huid)).
  destruct (add_categories_inv [] (tx_categories t) build_empty) as [H1 H2 H3 H4 H5 H6].
  { apply build_inv_empty. }
  { done. }
  { by eapply Forall_impl; [exact Hf|intros ? []]. }
  cbn [app length] in *. unfold TaxonomyStore_new.
  apply list_elem_of_lookup in Hu as [ui Hui].
  assert (b_unknown_category_index (add_categories 0 (tx_categories t) build_empty) = Some ui) as Eu
    by (apply H5; eauto).
  rewrite Eu. cbn -[add_categories CATEGORY_ALIAS_PAIRS SUBCATEGORY_ALIAS_PAIRS].
  eexists. split; [done|]. split; [|done]. split; cbn -[add_categories CATEGORY_ALIAS_PAIRS SUBCATEGORY_ALIAS_PAIRS].
  - done.
  - done.
  - apply category_aliases_bounded; [by eapply is_index_bounded|done].
  - intros i c Hi. by eapply H3.
  - intros i c Hi. destruct (H3 i c Hi) as (m & Hm & Hidx).
    eapply subcategory_aliases_bounded; [done..|by eapply H4].
  - exists u. split_and!; [done..|].
    destruct (b_unknown_default_subcategory_index _) as [j|] eqn:Ej; cbn.
    + destruct (H6 j eq_refl) as (i & c & Hi & Hid & Hj).
      by rewrite (category_eq_of_id t ui i u c) by (done || congruence).
    + rewrite Forall_lookup in Hf. destruct (Hf ui u Hui) as [Hne _].
      destruct (cat_subcategories u); [done|cbn; lia].
Qed.

(** ** Resolution on a well-formed store *)

Section resolution.
  Context (st : TaxonomyStore) (Hst : store_wf st).

Lemma resolve_category_range input norm :
  cr_index (resolve_category st input norm) < length (tx_categories (ts_taxonomy st)).
Proof.
  unfold resolve_category. destruct (ts_category_by_id st !! input) as [i|] eqn:E; cbn.
  - by eapply is_index_bounded; [apply (sw_by_id st Hst)|].
  - destruct (norm ≫= _) as [i|] eqn:E'; cbn.
    + apply bind_Some in E' as (n & -> & Hi). by apply (sw_lookup st Hst) in Hi.
    + destruct (sw_unknown st Hst) as (c & Hc & _). by eapply lookup_lt_Some.
Qed.

Lemma resolve_category_some input norm :
  exists c, category_by_index st (cr_index (resolve_category st input norm)) = Some c.
Proof. apply lookup_lt_is_Some_2, resolve_category_range. Qed.

Lemma resolve_category_fallback input norm reason :
  cr_fallback_reason (resolve_category st input norm) = Some reason ->
  cr_index (resolve_category st input norm) = ts_unknown_category_index st /\
  reason = (if is_empty input then MissingCategory else UnknownCategory).
Proof. unfold resolve_category. repeat case_match; cbn; naive_solver. Qed.

(** A resolved subcategory is one of its category's, and the [None] arm is never taken. *)
Lemma resolve_subcategory_cases i c input norm :
  category_by_index st i = Some c ->
  (exists j s, resolve_subcategory st i input norm = Some (Some (Match j)) /\
     cat_subcategories c !! j = Some s) \/
  resolve_subcategory st i input norm =
    Some (Some (Fallback (match input with None => MissingSubcategory | Some _ => UnknownSubcategory end))).
Proof.
  intros Hc. unfold resolve_subcategory. rewrite Hc. cbn.
  destruct (sw_sub_by_id st Hst i c Hc) as (m & Hm & Hidx).
  destruct (sw_sub_lookup st Hst i c Hc) as (l & Hl & Hb).
  rewrite Hm. cbn. destruct (input ≫= _) as [j|] eqn:E; cbn.
  - left. apply bind_Some in E as (v & -> & Hj). apply (is_index_bounded _ _ _ Hidx) in Hj.
    apply lookup_lt_is_Some_2 in Hj as [s Hs]. eauto.
  - destruct (norm ≫= _) as [j|] eqn:E'; cbn; [|by right].
    apply bind_Some in E' as (n & -> & Hj). rewrite Hl in Hj. cbn in Hj.
    apply Hb, lookup_lt_is_Some_2 in Hj as [s Hs]. eauto.
Qed.

Lemma unknown_labels :
  exists c s, category_by_index st (ts_unknown_category_index st) = Some c /\
    cat_id c = UNKNOWN_CATEGORY_ID /\
    cat_subcategories c !! ts_unknown_default_subcategory_index st = Some s.
Proof.
  destruct (sw_unknown st Hst) as (c & Hc & Hid & Hj).
  apply lookup_lt_is_Some_2 in Hj as [s Hs]. eauto.
Qed.

Lemma validate_labels_cases category sub :
  exists r, validate_labels st category sub = Some r /\
    (exists i j, category_by_index st i = Some (vl_category r) /\
                 cat_subcategories (vl_category r) !! j = Some (vl_subcategory r)) /\
    (forall reason, vl_fallback_reason r = Some reason -> cat_id (vl_category r) = UNKNOWN_CATEGORY_ID) /\
    (vl_fallback_reason r = None ->
       category_by_index st (cr_index (resolve_category st (trim category) (normalize_label (trim category))))
         = Some (vl_category r)).
Proof.
  unfold validate_labels. set (res := resolve_category _ _ _).
  destruct unknown_labels as (u & s & Hu & Huid & Hs).
  case_decide as Hi; cbn -[resolve_subcategory].
  - rewrite Hi, Hu. cbn. unfold subcategory_by_index. rewrite Hu. cbn. rewrite Hs. cbn.
    eexists. split; [done|]. cbn. split_and!; [by eauto|done|done].
  - destruct (resolve_category_some (trim category) (normalize_label (trim category))) as [c Hc].
    fold res in Hc.
    match goal with |- context [resolve_subcategory st _ ?a ?b] =>
      destruct (resolve_subcategory_cases (cr_index res) c a b Hc) as [(j & s' & -> & Hs')| ->] end;
      cbn; unfold subcategory_by_index.
    + rewrite Hc. cbn. rewrite Hs'. cbn. eexists. split; [done|]. cbn. split_and!; [by eauto| |done].
      intros reason Hr. by apply resolve_category_fallback in Hr as [? _].
    + rewrite Hu. cbn. rewrite Hs. cbn. eexists. split; [done|]. cbn. split_and!; [by eauto|done|].
      by destruct (cr_fallback_reason res).
Qed.

(** An answer in the unknown category has its default subcategory. *)
Lemma validate_labels_unknown category sub r :
  validate_labels st category sub = Some r -> cat_id (vl_category r) = UNKNOWN_CATEGORY_ID ->
  cat_subcategories (vl_category r) !! ts_unknown_default_subcategory_index st = Some (vl_subcategory r).
Proof.
  unfold validate_labels. set (res := resolve_category _ _ _).
  destruct unknown_labels as (u & s & Hu & Huid & Hs).
  case_decide as Hi; cbn -[resolve_subcategory].
  - rewrite Hi, Hu. cbn. unfold subcategory_by_index. rewrite Hu. cbn. rewrite Hs. cbn. by intros [= <-].
  - destruct (resolve_category_some (trim category) (normalize_label (trim category))) as [c Hc].
    fold res in Hc.
    match goal with |- context [resolve_subcategory st _ ?a ?b] =>
      destruct (resolve_subcategory_cases (cr_index res) c a b Hc) as [(j & s' & -> & Hs')| ->] end;
      cbn; unfold subcategory_by_index.
    + rewrite Hc. cbn. rewrite Hs'. cbn. intros [= <-]. cbn. intros Hid. destruct Hi.
      destruct (sw_taxonomy st Hst) as (_ & Hnd & _). eapply (NoDup_lookup (cat_id <$> tx_categories (ts_taxonomy st))); [done|..];
        rewrite list_lookup_fmap; unfold category_by_index in *; [rewrite Hc|rewrite Hu]; cbn; by rewrite ?Hid, ?Huid.
    + rewrite Hu. cbn. rewrite Hs. cbn. by intros [= <-].
Qed.

(** The ids of a category and of one of its subcategories resolve to them. *)
Lemma labels_of_ids i c j s :
  category_by_index st i = Some c -> cat_subcategories c !! j = Some s ->
  trim (cat_id c) = cat_id c -> trim (sub_id s) = sub_id s -> sub_id s <> "" ->
  exists r, validate_labels st (cat_id c) (Some (sub_id s)) = Some r /\
    vl_category r = c /\ vl_fallback_reason r = None /\
    (cat_id c <> UNKNOWN_CATEGORY_ID -> vl_subcategory r = s).
Proof.
  intros Hc Hs Htc Hts Hne.
  assert (ts_category_by_id st !! cat_id c = Some i) as Hid by (apply (sw_by_id st Hst); eauto).
  destruct unknown_labels as (u & us & Hu & Huid & Hus).
  destruct (sw_sub_by_id st Hst i c Hc) as (m & Hm & Hidx).
  assert (m !! sub_id s = Some j) as Hmj by (apply Hidx; eauto).
  unfold validate_labels. rewrite Htc. unfold resolve_category. rewrite Hid. cbn -[resolve_subcategory].
  case_decide as Hi; cbn -[resolve_subcategory].
  - rewrite Hi in *. rewrite Hu. cbn. unfold subcategory_by_index. rewrite Hu. cbn. rewrite Hus. cbn.
    assert (u = c) as -> by congruence.
    eexists. split; [done|]. by split_and!.
  - rewrite Hts. assert (is_empty (sub_id s) = false) as -> by (by destruct (sub_id s)).
    unfold resolve_subcategory. rewrite Hc. cbn. rewrite Hm. cbn. rewrite Hmj. cbn.
    unfold subcategory_by_index. rewrite Hc. cbn. rewrite Hs. cbn.
    eexists. split; [done|]. by split_and!.
Qed.

End resolution.

(** [validate] accepts exactly the documents the lookup tables need: a version, 41 categories
    with distinct ids, the unknown category among them, and in every category at least one
    subcategory and distinct subcategory ids. *)
Theorem taxonomy_validate_spec t : validate t = Ok tt <-> taxonomy_wf t.
Proof. apply validate_wf. Qed.

(** C21: For a validated document the store is built and no label resolution panics: whatever the
    category and subcategory strings, the answer is a category of the taxonomy and one of that
    category's own subcategories. *)
Theorem validated_taxonomy_never_panics t :
  validate t = Ok tt ->
  exists st, TaxonomyStore_new t = Some st /\
    forall category sub, exists r c,
      validate_labels st category sub = Some r /\
      vl_category r ∈ tx_categories t /\ vl_subcategory r ∈ cat_subcategories (vl_category r) /\
      validate_category st category = Some c /\ vc_category c ∈ tx_categories t.
Proof.
  intros (st & Hnew & Hwf & <-)%validate_wf%TaxonomyStore_new_wf. exists st. split; [done|].
  intros category sub.
  destruct (validate_labels_cases st Hwf category sub) as (r & Hr & (i & j & Hi & Hj) & _).
  unfold validate_category.
  destruct (resolve_category_some st Hwf (trim category) (normalize_label (trim category))) as [c Hc].
  rewrite Hc. exists r. eexists. split_and!; [done| | |done|];
    cbn; by eapply list_elem_of_lookup_2.
Qed.

(** A fallback is always to the unknown category: when a resolution reports a reason, the
    category it answers is "unknown-unclassified", so no unrecognised label is ever filed under
    a category with a meaning of its own. *)
Theorem fallback_is_unknown t st category sub r reason :
  validate t = Ok tt -> TaxonomyStore_new t = Some st ->
  validate_labels st category sub = Some r -> vl_fallback_reason r = Some reason ->
  cat_id (vl_category r) = UNKNOWN_CATEGORY_ID.
Proof.
  intros (st' & Hnew' & Hwf & _)%validate_wf%TaxonomyStore_new_wf Hnew Hr Hreason.
  rewrite Hnew in Hnew'. injection Hnew' as <-.
  destruct (validate_labels_cases st Hwf category sub) as (r' & Hr' & _ & Hfb & _).
  rewrite Hr in Hr'. injection Hr' as <-. by eapply Hfb.
Qed.

(** Ids round-trip: resolving a category's own id and one of its subcategories' ids answers
    that category and that subcategory without a fallback (for the unknown category, its default
    subcategory), for ids without surrounding white space. *)
Theorem ids_resolve_to_themselves t st i c j s :
  validate t = Ok tt -> TaxonomyStore_new t = Some st ->
  tx_categories t !! i = Some c -> cat_subcategories c !! j = Some s ->
  trim (cat_id c) = cat_id c -> trim (sub_id s) = sub_id s -> sub_id s <> "" ->
  exists r, validate_labels st (cat_id c) (Some (sub_id s)) = Some r /\
    vl_category r = c /\ vl_fallback_reason r = None /\
    (cat_id c <> UNKNOWN_CATEGORY_ID -> vl_subcategory r = s).
Proof.
  intros (st' & Hnew' & Hwf & Ht)%validate_wf%TaxonomyStore_new_wf Hnew Hc Hs Htc Hts Hne.
  rewrite Hnew in Hnew'. injection Hnew' as <-. rewrite <- Ht in Hc. by eapply labels_of_ids.
Qed.
