(* ===== verification/CanonicalTaxonomy.v ===== *)
(** * The shipped taxonomy

    [config/canonical-taxonomy.json], the document [TaxonomyStore::load_default] reads, and what
    the store built from it answers.  The 41 categories and their subcategories are listed in the
    file's order. *)

From S2P Require Import Prelude RustStr Taxonomy.

Definition sub (id name : string) : CanonicalSubcategory :=
  {| sub_id := id; sub_name := name; sub_always_enabled := None |}.
Definition cat (id name : string) (subs : list CanonicalSubcategory) : CanonicalCategory :=
  {| cat_id := id; cat_name := name; cat_always_enabled := None; cat_subcategories := subs |}.

Definition canonical_taxonomy : CanonicalTaxonomy :=
  {| tx_version := "2026-04-03-draft-2";
     tx_source := Some "stage-12-canonical-taxonomy-lockdown";
     tx_categories := [
    cat "adult-sexual-content" "Adult / Sexual Content" [
      sub "pornography" "Pornography"; sub "nudity" "Nudity";
      sub "explicit-sexual-acts" "Explicit sexual acts"; sub "erotic-content" "Erotic content";
      sub "lingerie-suggestive-content" "Lingerie / suggestive content";
      sub "sexual-wellness-sex-education" "Sexual wellness / sex education";
      sub "escort-services" "Escort services"; sub "fetish-bdsm" "Fetish / BDSM";
      sub "adult-live-cams" "Adult live cams"; sub "adult-forums" "Adult forums"];
    cat "gambling" "Gambling" [
      sub "online-casinos" "Online casinos"; sub "sports-betting" "Sports betting";
      sub "poker" "Poker"; sub "lottery" "Lottery"; sub "fantasy-betting" "Fantasy betting";
      sub "gambling-tips-predictions" "Gambling tips/predictions";
      sub "betting-exchanges" "Betting exchanges";
      sub "sweepstakes-prize-gambling" "Sweepstakes / prize gambling";
      sub "crypto-gambling" "Crypto gambling"];
    cat "violence-weapons" "Violence / Weapons" [
      sub "graphic-violence" "Graphic violence"; sub "gore" "Gore";
      sub "weapons-sales" "Weapons sales"; sub "firearms" "Firearms";
      sub "ammunition" "Ammunition"; sub "weapon-accessories" "Weapon accessories";
      sub "combat-tactical-content" "Combat / tactical content";
      sub "explosive-making-content" "Explosive-making content";
      sub "violent-extremist-propaganda" "Violent extremist propaganda"];
    cat "drugs-controlled-substances" "Drugs / Controlled Substances" [
      sub "illegal-drugs" "Illegal drugs"; sub "drug-paraphernalia" "Drug paraphernalia";
      sub "cannabis-dispensaries" "Cannabis dispensaries";
      sub "prescription-drug-misuse" "Prescription drug misuse";
      sub "performance-enhancing-drugs" "Performance-enhancing drugs";
      sub "psychedelics" "Psychedelics"; sub "drug-forums" "Drug forums";
      sub "substance-abuse-promotion" "Substance abuse promotion"];
    cat "hate-extremism" "Hate / Extremism" [
      sub "hate-speech" "Hate speech"; sub "extremist-ideology" "Extremist ideology";
      sub "terror-propaganda" "Terror propaganda";
      sub "radicalization-material" "Radicalization material";
      sub "supremacist-content" "Supremacist content";
      sub "harassment-abusive-communities" "Harassment / abusive communities";
      sub "violent-political-extremism" "Violent political extremism"];
    cat "illegal-criminal-activity" "Illegal / Criminal Activity" [
      sub "hacking-cracking" "Hacking/cracking"; sub "carding-fraud-guides" "Carding/fraud guides";
      sub "counterfeit-goods" "Counterfeit goods";
      sub "piracy-torrent-indexes" "Piracy/torrent indexes";
      sub "stolen-data-marketplaces" "Stolen data marketplaces";
      sub "forged-documents" "Forged documents";
      sub "smuggling-trafficking" "Smuggling / trafficking"; sub "evasion-guides" "Evasion guides";
      sub "criminal-marketplaces" "Criminal marketplaces"];
    cat "malware-phishing-fraud" "Malware / Phishing / Fraud" [
      sub "phishing-sites" "Phishing sites"; sub "malware-delivery" "Malware delivery";
      sub "scam-fraud" "Scam/fraud"; sub "impersonation" "Impersonation";
      sub "botnet-c2-indicators" "Botnet C2 indicators"; sub "credential-theft" "Credential theft";
      sub "malvertising-destinations" "Malvertising destinations";
      sub "tech-support-scams" "Tech support scams";
      sub "fake-banking-login-portals" "Fake banking/login portals"];
    cat "social-media" "Social Media" [
      sub "social-networks" "Social networks"; sub "microblogging" "Microblogging";
      sub "short-video-platforms" "Short-video platforms"; sub "photo-sharing" "Photo sharing";
      sub "creator-platforms" "Creator platforms";
      sub "social-messaging-integrated-platforms" "Social messaging integrated platforms";
      sub "influencer-community-networks" "Influencer/community networks"];
    cat "streaming-entertainment" "Streaming / Entertainment" [
      sub "video-streaming" "Video streaming"; sub "music-streaming" "Music streaming";
      sub "live-streaming" "Live streaming"; sub "internet-radio" "Internet radio";
      sub "celebrity-entertainment-news" "Celebrity / entertainment news";
      sub "tv-movie-portals" "TV/movie portals"; sub "fan-sites" "Fan sites"];
    cat "games" "Games" [
      sub "online-gaming" "Online gaming"; sub "game-downloads" "Game downloads";
      sub "browser-games" "Browser games"; sub "game-streaming" "Game streaming";
      sub "gaming-communities" "Gaming communities"; sub "esports" "Esports";
      sub "cheat-mod-sites" "Cheat/mod sites"];
    cat "shopping-e-commerce" "Shopping / E-Commerce" [
      sub "general-retail" "General retail"; sub "marketplaces" "Marketplaces";
      sub "auctions" "Auctions"; sub "fashion-beauty-retail" "Fashion/beauty retail";
      sub "electronics-retail" "Electronics retail"; sub "grocery-delivery" "Grocery delivery";
      sub "subscription-commerce" "Subscription commerce";
      sub "coupon-deal-sites" "Coupon/deal sites"; sub "luxury-goods" "Luxury goods";
      sub "second-hand-marketplaces" "Second-hand marketplaces"];
    cat "news-media" "News / Media" [
      sub "general-news" "General news"; sub "local-news" "Local news";
      sub "international-news" "International news"; sub "alternative-media" "Alternative media";
      sub "opinion-editorial" "Opinion/editorial"; sub "tabloids" "Tabloids";
      sub "press-release-sites" "Press release sites";
      sub "investigative-journalism" "Investigative journalism"];
    cat "education" "Education" [
      sub "schools-universities" "Schools/universities"; sub "e-learning" "E-learning";
      sub "certification-training" "Certification/training";
      sub "research-institutions" "Research institutions";
      sub "academic-journals" "Academic journals";
      sub "homework-study-tools" "Homework/study tools"; sub "child-education" "Child education"];
    cat "government-public-services" "Government / Public Services" [
      sub "government-portals" "Government portals";
      sub "ministries-agencies" "Ministries/agencies"; sub "public-records" "Public records";
      sub "tax-customs" "Tax/customs"; sub "immigration-visa" "Immigration/visa";
      sub "law-enforcement" "Law enforcement"; sub "municipal-services" "Municipal services";
      sub "utilities-public-service-portals" "Utilities/public service portals"];
    cat "finance-banking" "Finance / Banking" [
      sub "banking" "Banking"; sub "insurance" "Insurance"; sub "investments" "Investments";
      sub "brokerage" "Brokerage"; sub "personal-finance" "Personal finance";
      sub "accounting-tax-tools" "Accounting/tax tools"; sub "payment-gateways" "Payment gateways";
      sub "lending" "Lending"; sub "fintech-platforms" "Fintech platforms"];
    cat "health-medical" "Health / Medical" [
      sub "hospitals-clinics" "Hospitals/clinics"; sub "telemedicine" "Telemedicine";
      sub "medical-information" "Medical information"; sub "pharmacies" "Pharmacies";
      sub "mental-health" "Mental health"; sub "fitness-wellness" "Fitness/wellness";
      sub "nutrition" "Nutrition"; sub "medical-research" "Medical research";
      sub "patient-portals" "Patient portals"];
    cat "religion-belief" "Religion / Belief" [
      sub "religious-institutions" "Religious institutions";
      sub "faith-education" "Faith education"; sub "sermons-media" "Sermons/media";
      sub "religious-communities" "Religious communities"; sub "spirituality" "Spirituality";
      sub "occult-esoteric-beliefs" "Occult/esoteric beliefs";
      sub "atheist-secular-organizations" "Atheist/secular organizations"];
    cat "travel-transportation" "Travel / Transportation" [
      sub "airlines" "Airlines"; sub "hotels-accommodation" "Hotels/accommodation";
      sub "ride-hailing" "Ride hailing"; sub "public-transport" "Public transport";
      sub "maps-navigation" "Maps/navigation"; sub "travel-booking" "Travel booking";
      sub "reviews-travel-guides" "Reviews/travel guides"; sub "car-rental" "Car rental";
      sub "visa-travel-advisory" "Visa/travel advisory"];
    cat "technology-it" "Technology / IT" [
      sub "vendor-sites" "Vendor sites"; sub "developer-documentation" "Developer documentation";
      sub "open-source-repositories" "Open source repositories";
      sub "technical-forums" "Technical forums"; sub "software-downloads" "Software downloads";
      sub "saas-tools" "SaaS tools"; sub "hardware-vendors" "Hardware vendors";
      sub "it-news-blogs" "IT news/blogs"];
    cat "web-infrastructure-hosting-cdn" "Web Infrastructure / Hosting / CDN" [
      sub "hosting-providers" "Hosting providers"; sub "cdns" "CDNs";
      sub "dns-providers" "DNS providers"; sub "domain-registrars" "Domain registrars";
      sub "cloud-platforms" "Cloud platforms";
      sub "reverse-proxy-services" "Reverse proxy services";
      sub "ddos-protection" "DDoS protection"; sub "edge-infrastructure" "Edge infrastructure";
      sub "web-acceleration" "Web acceleration"];
    cat "business-corporate" "Business / Corporate" [
      sub "corporate-websites" "Corporate websites"; sub "b2b-services" "B2B services";
      sub "consulting" "Consulting"; sub "manufacturing" "Manufacturing";
      sub "logistics" "Logistics"; sub "professional-services" "Professional services";
      sub "legal-services" "Legal services"; sub "hr-payroll" "HR/payroll";
      sub "enterprise-vendors" "Enterprise vendors"];
    cat "email-messaging-collaboration" "Email / Messaging / Collaboration" [
      sub "webmail" "Webmail"; sub "instant-messaging" "Instant messaging";
      sub "team-collaboration" "Team collaboration"; sub "video-conferencing" "Video conferencing";
      sub "shared-calendars" "Shared calendars";
      sub "document-collaboration" "Document collaboration";
      sub "internal-comms-tools" "Internal comms tools"];
    cat "file-sharing-storage" "File Sharing / Storage" [
      sub "cloud-storage" "Cloud storage"; sub "file-transfer" "File transfer";
      sub "backup-sync" "Backup/sync"; sub "document-hosting" "Document hosting";
      sub "media-hosting" "Media hosting"; sub "anonymous-file-sharing" "Anonymous file sharing";
      sub "large-file-transfer" "Large-file transfer"];
    cat "ai-llm-tools" "AI / LLM Tools" [
      sub "general-chatbots" "General chatbots"; sub "code-assistants" "Code assistants";
      sub "image-generation" "Image generation"; sub "voice-video-ai" "Voice/video AI";
      sub "ai-search" "AI search"; sub "model-hosting" "Model hosting";
      sub "prompt-libraries" "Prompt libraries"; sub "agent-platforms" "Agent platforms";
      sub "ai-productivity-tools" "AI productivity tools"];
    cat "search-engines-portals" "Search Engines / Portals" [
      sub "search-engines" "Search engines"; sub "web-portals" "Web portals";
      sub "meta-search" "Meta search"; sub "vertical-search" "Vertical search";
      sub "homepage-portals" "Homepage portals"; sub "knowledge-search" "Knowledge search"];
    cat "kids-family" "Kids / Family" [
      sub "childrens-entertainment" "Children's entertainment";
      sub "educational-kids-content" "Educational kids content";
      sub "parenting-resources" "Parenting resources"; sub "family-activities" "Family activities";
      sub "kids-games" "Kids games"; sub "child-safe-video-platforms" "Child-safe video platforms"];
    cat "dating-relationships" "Dating / Relationships" [
      sub "dating-apps-sites" "Dating apps/sites"; sub "matchmaking" "Matchmaking";
      sub "casual-dating" "Casual dating"; sub "relationship-advice" "Relationship advice";
      sub "marriage-family-counseling" "Marriage/family counseling";
      sub "adult-dating" "Adult dating"];
    cat "job-search-career" "Job Search / Career" [
      sub "job-boards" "Job boards"; sub "recruiting-platforms" "Recruiting platforms";
      sub "professional-networking" "Professional networking";
      sub "resume-cv-tools" "Resume/CV tools"; sub "freelance-gig-work" "Freelance/gig work";
      sub "career-coaching" "Career coaching"; sub "employer-review-sites" "Employer review sites"];
    cat "forums-communities" "Forums / Communities" [
      sub "general-forums" "General forums"; sub "q-a-communities" "Q&A communities";
      sub "hobby-communities" "Hobby communities"; sub "anonymous-boards" "Anonymous boards";
      sub "niche-interest-groups" "Niche interest groups";
      sub "support-communities" "Support communities"];
    cat "reference-knowledge" "Reference / Knowledge" [
      sub "encyclopedias" "Encyclopedias"; sub "dictionaries" "Dictionaries"; sub "wikis" "Wikis";
      sub "how-to-sites" "How-to sites"; sub "manuals-reference-docs" "Manuals/reference docs";
      sub "public-datasets" "Public datasets"; sub "libraries-archives" "Libraries/archives"];
    cat "proxy-vpn-anonymizers" "Proxy / VPN / Anonymizers" [
      sub "vpn-services" "VPN services"; sub "web-proxies" "Web proxies";
      sub "socks-http-proxies" "SOCKS/HTTP proxies"; sub "tor-related-sites" "Tor-related sites";
      sub "anonymous-browsers" "Anonymous browsers";
      sub "relay-anonymizer-services" "Relay/anonymizer services";
      sub "circumvention-tools" "Circumvention tools"];
    cat "remote-access-tunneling" "Remote Access / Tunneling" [
      sub "remote-desktop" "Remote desktop"; sub "ssh-web-terminals" "SSH/web terminals";
      sub "tunneling-services" "Tunneling services"; sub "zero-trust-access" "Zero-trust access";
      sub "reverse-tunnels" "Reverse tunnels"; sub "secure-relay-tools" "Secure relay tools";
      sub "admin-remote-control-tools" "Admin remote-control tools"];
    cat "cryptocurrency-blockchain" "Cryptocurrency / Blockchain" [
      sub "exchanges" "Exchanges"; sub "wallets" "Wallets";
      sub "blockchain-explorers" "Blockchain explorers"; sub "nft-marketplaces" "NFT marketplaces";
      sub "defi-platforms" "DeFi platforms"; sub "mining" "Mining";
      sub "token-launchpads" "Token launchpads"; sub "crypto-news" "Crypto news";
      sub "memecoin-speculative-sites" "Memecoin/speculative sites"];
    cat "real-estate" "Real Estate" [
      sub "property-listings" "Property listings";
      sub "commercial-real-estate" "Commercial real estate"; sub "rentals" "Rentals";
      sub "property-management" "Property management";
      sub "mortgage-property-finance" "Mortgage/property finance";
      sub "real-estate-agencies" "Real estate agencies";
      sub "home-valuation-tools" "Home valuation tools"];
    cat "food-dining" "Food / Dining" [
      sub "restaurant-sites" "Restaurant sites"; sub "delivery-platforms" "Delivery platforms";
      sub "recipes" "Recipes"; sub "food-blogs" "Food blogs"; sub "reservations" "Reservations";
      sub "grocery-meal-planning" "Grocery/meal planning"; sub "reviews" "Reviews"];
    cat "sports" "Sports" [
      sub "sports-news" "Sports news"; sub "live-scores" "Live scores";
      sub "team-league-sites" "Team/league sites"; sub "streaming-sports" "Streaming sports";
      sub "fantasy-sports" "Fantasy sports"; sub "sports-communities" "Sports communities";
      sub "training-coaching" "Training/coaching"];
    cat "arts-culture" "Arts / Culture" [
      sub "museums" "Museums"; sub "galleries" "Galleries";
      sub "cultural-institutions" "Cultural institutions"; sub "literature" "Literature";
      sub "performing-arts" "Performing arts"; sub "photography" "Photography";
      sub "design-fashion-culture" "Design/fashion culture";
      sub "heritage-history" "Heritage/history"];
    cat "personal-blogs-personal-pages" "Personal Blogs / Personal Pages" [
      sub "personal-blogs" "Personal blogs"; sub "portfolio-sites" "Portfolio sites";
      sub "personal-hosting-pages" "Personal hosting pages"; sub "hobby-journals" "Hobby journals";
      sub "memoirs-opinion-pages" "Memoirs/opinion pages"];
    cat "url-shorteners-redirectors" "URL Shorteners / Redirectors" [
      sub "url-shorteners" "URL shorteners"; sub "link-aggregation-pages" "Link aggregation pages";
      sub "redirect-tracking-links" "Redirect/tracking links";
      sub "campaign-links" "Campaign links"; sub "qr-redirect-services" "QR redirect services"];
    cat "advertisements" "Advertisements" [
      sub "general-advertising" "General advertising"];
    cat "unknown-unclassified" "Unknown / Unclassified" [
      sub "newly-seen-unknowns" "Newly seen unknowns";
      sub "insufficient-evidence" "Insufficient evidence";
      sub "dynamic-unresolved" "Dynamic/unresolved"; sub "parked-domains" "Parked domains";
      sub "placeholder-error-pages" "Placeholder/error pages";
      sub "unreachable-temporary-failures" "Unreachable/temporary failures"]] |}.

(** The store of the shipped taxonomy. *)
Definition canonical_store : option TaxonomyStore :=
  TaxonomyStore_new canonical_taxonomy.

Definition resolves_to (st : TaxonomyStore) (label id : string) : bool :=
  match validate_category st label with
  | Some v => bool_decide (cat_id (vc_category v) = id) && bool_decide (vc_fallback_reason v = None)
  | None => false
  end.

Definition sub_resolves_to (st : TaxonomyStore) (category label id : string) : bool :=
  match validate_labels st category (Some label) with
  | Some v =>
      bool_decide (cat_id (vl_category v) = category) &&
      bool_decide (sub_id (vl_subcategory v) = id) && bool_decide (vl_fallback_reason v = None)
  | None => false
  end.

(** Every category resolves by its id and by its name, every alias by its target; so does every
    subcategory of a category other than the unknown one. *)
Definition labels_resolve (st : TaxonomyStore) (t : CanonicalTaxonomy) : bool :=
  forallb (fun c => resolves_to st (cat_id c) (cat_id c) && resolves_to st (cat_name c) (cat_id c) &&
    (bool_decide (cat_id c = UNKNOWN_CATEGORY_ID) ||
     forallb (fun s => sub_resolves_to st (cat_id c) (sub_id s) (sub_id s) &&
                       sub_resolves_to st (cat_id c) (sub_name s) (sub_id s)) (cat_subcategories c)))
    (tx_categories t) &&
  forallb (fun p => resolves_to st p.1 p.2) CATEGORY_ALIAS_PAIRS &&
  forallb (fun e => bool_decide (e.1.1 = UNKNOWN_CATEGORY_ID) || sub_resolves_to st e.1.1 e.1.2 e.2)
    SUBCATEGORY_ALIAS_PAIRS.

Lemma canonical_taxonomy_valid : validate canonical_taxonomy = Ok tt.
Proof. vm_compute. reflexivity. Qed.

(** The shipped taxonomy passes its own validation, and in the store built from it every
    category id, category name, subcategory id, subcategory name and alias resolves to the
    intended entry without a fallback. *)
Theorem shipped_taxonomy_resolves :
  validate canonical_taxonomy = Ok tt /\
  exists st, canonical_store = Some st /\ labels_resolve st canonical_taxonomy = true.
Proof.
  split; [apply canonical_taxonomy_valid|].
  assert (match canonical_store with
          | Some st => labels_resolve st canonical_taxonomy
          | None => false
          end = true) as H by (vm_compute; reflexivity).
  destruct canonical_store as [st|]; [by exists st|done].
Qed.

(** ** Witnesses for the theorems on validated documents *)

Lemma validated_taxonomy_never_panics_witness :
  validate canonical_taxonomy = Ok tt /\ exists st, TaxonomyStore_new canonical_taxonomy = Some st.
Proof.
  split; [vm_compute; reflexivity|].
  destruct (validated_taxonomy_never_panics canonical_taxonomy) as (st & Hst & _);
    [vm_compute; reflexivity|]. by exists st.
Defined.

Definition demo_store : TaxonomyStore :=
  default {| ts_taxonomy := canonical_taxonomy; ts_category_by_id := ∅; ts_category_lookup := ∅;
             ts_subcategory_by_id := ∅; ts_subcategory_lookup := ∅;
             ts_unknown_category_index := 0; ts_unknown_default_subcategory_index := 0 |}
    canonical_store.

Lemma demo_store_new : TaxonomyStore_new canonical_taxonomy = Some demo_store.
Proof.
  unfold demo_store, canonical_store.
  destruct (TaxonomyStore_new_wf canonical_taxonomy) as (st & -> & _); [|done].
  apply validate_wf, canonical_taxonomy_valid.
Qed.

Lemma demo_store_wf : store_wf demo_store.
Proof.
  destruct (TaxonomyStore_new_wf canonical_taxonomy) as (st & Hst & Hwf & _);
    [apply validate_wf, canonical_taxonomy_valid|].
  rewrite demo_store_new in Hst. by injection Hst as ->.
Qed.

Lemma fallback_is_unknown_witness :
  match validate_labels demo_store "NotReal" (Some "Mystery") with
  | Some r => cat_id (vl_category r) = UNKNOWN_CATEGORY_ID
  | None => False
  end.
Proof.
  destruct (validate_labels demo_store "NotReal" (Some "Mystery")) as [r|] eqn:E.
  - apply (fallback_is_unknown canonical_taxonomy demo_store "NotReal" (Some "Mystery") r UnknownCategory).
    + vm_compute; reflexivity.
    + apply demo_store_new.
    + exact E.
    + revert E. vm_compute. intros [= <-]. reflexivity.
  - revert E. vm_compute. discriminate.
Defined.

Lemma ids_resolve_to_themselves_witness :
  exists r, validate_labels demo_store "social-media" (Some "social-networks") = Some r /\
    vl_fallback_reason r = None.
Proof.
  destruct (ids_resolve_to_themselves canonical_taxonomy demo_store 7
    (cat "social-media" "Social Media" [sub "social-networks" "Social networks"; sub "microblogging" "Microblogging"; sub "short-video-platforms" "Short-video platforms"; sub "photo-sharing" "Photo sharing"; sub "creator-platforms" "Creator platforms"; sub "social-messaging-integrated-platforms" "Social messaging integrated platforms"; sub "influencer-community-networks" "Influencer/community networks"]) 0 (sub "social-networks" "Social networks"))
    as (r & Hr & _ & Hf & _).
  - vm_compute; reflexivity.
  - apply demo_store_new.
  - reflexivity.
  - reflexivity.
  - vm_compute; reflexivity.
  - vm_compute; reflexivity.
  - discriminate.
  - exists r. by split.
Defined.
