(* ===== verification/LlmBudget.v ===== *)
(** * Budgets, cooldown and backoff of the LLM worker

    [WindowBudgetState], [FallbackBudgetState], [FailoverRuntime] and
    [calculate_retry_backoff_ms] of [workers/llm-worker/src/main.rs].  An [Instant] is a number of
    milliseconds; [now] is the reading of the clock the operation makes. *)

From S2P Require Import Prelude RustStr RustNum.

Local Open Scope Z_scope.

(** [now.duration_since(ts).as_secs()]: zero when [ts] is later. *)
Definition secs_since (now ts : Z) : Z := Z.max 0 (now - ts) / 1000.

Record WindowBudgetState := { wb_window_start : Z; wb_window_events : list Z }.

Global Instance WindowBudgetState_eq_dec : EqDecision WindowBudgetState.
Proof. solve_decision. Defined.

Definition WindowBudgetState_new (now : Z) : WindowBudgetState :=
  {| wb_window_start := now; wb_window_events := [] |}.

(** [while let Some(ts) = events.front() { if old { pop } else { break } }]. *)
Fixpoint pop_expired (now : Z) (events : list Z) : list Z :=
  match events with
  | [] => []
  | ts :: events' => if decide (60 <= secs_since now ts) then pop_expired now events' else events
  end.

(** The state after the window is restarted and old events are dropped. *)
Definition roll_window (now : Z) (b : WindowBudgetState) : WindowBudgetState :=
  let b :=
    if decide (60 <= secs_since now (wb_window_start b))
    then {| wb_window_start := now; wb_window_events := [] |} else b in
  {| wb_window_start := wb_window_start b; wb_window_events := pop_expired now (wb_window_events b) |}.

Definition push_event (now : Z) (b : WindowBudgetState) : WindowBudgetState :=
  {| wb_window_start := wb_window_start b; wb_window_events := wb_window_events b ++ [now] |}.

Definition window_allow_and_record (max_per_min : Z) (now : Z) (b : WindowBudgetState)
    : bool * WindowBudgetState :=
  let b := roll_window now b in
  if decide (max_per_min <= Z.of_nat (length (wb_window_events b))) then (false, b)
  else (true, push_event now b).

(** ** Failover *)

Inductive FailoverPolicy := Aggressive | Safe | Disabled.

Definition FailoverPolicy_parse (value : string) : FailoverPolicy :=
  let v := to_ascii_lowercase (trim value) in
  if decide (v = "safe") then Safe else if decide (v = "disabled") then Disabled else Aggressive.

Record FailoverRuntime := {
  fr_policy : FailoverPolicy;
  fr_primary_retry_max : Z;
  fr_primary_retry_backoff_ms : Z;
  fr_primary_retry_max_backoff_ms : Z;
  fr_retryable_status_codes : gset Z;
  fr_fallback_cooldown_secs : Z;
  fr_fallback_max_per_min : Z
}.

Definition is_retryable_status (cfg : FailoverRuntime) (status : Z) : bool :=
  bool_decide (status ∈ fr_retryable_status_codes cfg).

Record FallbackBudgetState := { fb_opened_until : option Z; fb_window : WindowBudgetState }.

Definition FallbackBudgetState_new (now : Z) : FallbackBudgetState :=
  {| fb_opened_until := None; fb_window := WindowBudgetState_new now |}.

Definition fallback_allow_and_record (cfg : FailoverRuntime) (now : Z) (b : FallbackBudgetState)
    : result string unit * FallbackBudgetState :=
  let cooling := match fb_opened_until b with Some until => bool_decide (now < until) | None => false end in
  if cooling then (Err "cooldown_active", b)
  else
    let '(allowed, window) := window_allow_and_record (fr_fallback_max_per_min cfg) now (fb_window b) in
    (if allowed : bool then Ok tt else Err "budget_exhausted", {| fb_opened_until := None; fb_window := window |}).

Definition trip_cooldown (cfg : FailoverRuntime) (now : Z) (b : FallbackBudgetState) : FallbackBudgetState :=
  {| fb_opened_until := Some (now + fr_fallback_cooldown_secs cfg * 1000); fb_window := fb_window b |}.

Definition calculate_retry_backoff_ms (cfg : FailoverRuntime) (attempt : Z) : Z :=
  let base := Z.max (fr_primary_retry_backoff_ms cfg) 1 in
  let exp := saturating_pow 2 (Z.min (saturating_sub attempt 1) 10) in
  let raw := saturating_mul base exp in
  Z.min raw (Z.max (fr_primary_retry_max_backoff_ms cfg) base).

(** ** Properties of the window *)

(** The window as the requests at the times [ts] leave it, and which of them were let through. *)
Fixpoint accepted (max_per_min : Z) (b : WindowBudgetState) (ts : list Z) : list Z :=
  match ts with
  | [] => []
  | now :: ts' =>
      let '(ok, b') := window_allow_and_record max_per_min now b in
      if ok : bool then now :: accepted max_per_min b' ts' else accepted max_per_min b' ts'
  end.

(** Events lie between the start of the window and the present. *)
Record window_ok (max now : Z) (b : WindowBudgetState) : Prop := {
  wo_start : wb_window_start b <= now;
  wo_events : Forall (fun e => wb_window_start b <= e <= now) (wb_window_events b);
  wo_len : Z.of_nat (length (wb_window_events b)) <= max
}.

Lemma secs_since_60 now ts : 60 <= secs_since now ts <-> 60000 <= now - ts.
Proof. unfold secs_since. pose proof (Z.div_mod (Z.max 0 (now - ts)) 1000). pose proof (Z.mod_pos_bound (Z.max 0 (now - ts)) 1000). lia. Qed.

(** The loop that drops old events has nothing to drop: an event is never older than its window. *)
Lemma roll_window_eq max now0 now b :
  window_ok max now0 b -> now0 <= now ->
  roll_window now b =
  if decide (60000 <= now - wb_window_start b) then {| wb_window_start := now; wb_window_events := [] |} else b.
Proof.
  intros [Hs He _] Hn. unfold roll_window.
  destruct (decide (60000 <= now - wb_window_start b)) as [Hr|Hr].
  - rewrite decide_True by by apply secs_since_60. done.
  - rewrite decide_False by (rewrite secs_since_60; lia). destruct b as [start events]. cbn in *. f_equal.
    destruct events as [|e events]; [done|]. apply Forall_cons in He as [He _]. cbn.
    rewrite decide_False; [done|]. rewrite secs_since_60. lia.
Qed.

Lemma window_ok_later max now now' b : window_ok max now b -> now <= now' -> window_ok max now' b.
Proof. intros [H1 H2 H3] H. split; [lia| |done]. eapply Forall_impl; [done|]. cbn. intros. lia. Qed.

Lemma window_ok_fresh max now : 0 <= max -> window_ok max now {| wb_window_start := now; wb_window_events := [] |}.
Proof. intros. by split; [|constructor|]. Qed.

Lemma roll_window_ok max now0 now b :
  0 <= max -> window_ok max now0 b -> now0 <= now -> window_ok max now (roll_window now b).
Proof.
  intros Hm Hb Hn. rewrite (roll_window_eq max now0) by done. case_decide; [by apply window_ok_fresh|].
  by eapply window_ok_later.
Qed.

Lemma push_event_ok max now b :
  window_ok max now b -> ~ max <= Z.of_nat (length (wb_window_events b)) -> window_ok max now (push_event now b).
Proof.
  intros [H1 H2 H3] H. split; cbn; [done| |].
  - apply Forall_app. split; [done|]. apply Forall_singleton. lia.
  - rewrite length_app. cbn. lia.
Qed.

(** How many of the times lie in the minute from [t]. *)
Definition in_minute (t : Z) (ts : list Z) : Z :=
  Z.of_nat (length (filter (fun e => t <= e < t + 60000) ts)).
Definition recent (t : Z) (b : WindowBudgetState) : Z :=
  Z.of_nat (length (filter (fun e => t <= e) (wb_window_events b))).

Lemma in_minute_cons t e ts : in_minute t (e :: ts) = (if decide (t <= e < t + 60000) then 1 else 0) + in_minute t ts.
Proof. unfold in_minute. rewrite filter_cons. case_decide; cbn [length]; lia. Qed.
Lemma recent_push t now b : recent t (push_event now b) = recent t b + (if decide (t <= now) then 1 else 0).
Proof.
  unfold recent. cbn [push_event wb_window_events]. rewrite list.filter_app, length_app, filter_cons.
  case_decide; cbn; lia.
Qed.
Lemma recent_le t b : 0 <= recent t b <= Z.of_nat (length (wb_window_events b)).
Proof. unfold recent. pose proof (length_filter (fun e => t <= e) (wb_window_events b)). lia. Qed.

(** Requests come in the order of their times, after the last use of the window. *)
Fixpoint ordered (now : Z) (ts : list Z) : Prop :=
  match ts with [] => True | t :: ts' => now <= t /\ ordered t ts' end.

(** A window that starts in the minute lets through what is left of it. *)
Lemma accepted_in_window max t ts : forall now b,
  0 <= max -> window_ok max now b -> ordered now ts -> t <= wb_window_start b ->
  in_minute t (accepted max b ts) <= max - Z.of_nat (length (wb_window_events b)).
Proof.
  induction ts as [|e ts IH]; intros now b Hm Hb Ho Ht; cbn [accepted]; [destruct Hb; change (in_minute t []) with 0; lia|].
  destruct Ho as [Hn Ho]; cbn in Hn. unfold window_allow_and_record.
  pose proof (roll_window_ok max now e b Hm Hb Hn) as Hr.
  assert (wb_window_start b <= wb_window_start (roll_window e b)) as Hstart.
  { rewrite (roll_window_eq max now) by done. destruct Hb. case_decide; cbn; lia. }
  set (late := 60000 <= e - wb_window_start b).
  assert (late \/ roll_window e b = b) as [Hlate|Hsame].
  { rewrite (roll_window_eq max now) by done. case_decide; [by left|by right]. }
  - (* everything from here on is past the minute *)
    assert (forall l, Forall (fun x => e <= x) l -> in_minute t l = 0) as Hnone.
    { intros l Hl. unfold in_minute. rewrite filter_all_false; [done|]. eapply Forall_impl; [done|]. cbn.
      unfold late in Hlate. intros. lia. }
    assert (forall ts b n, ordered n ts -> Forall (fun x => n <= x) (accepted max b ts)) as Hacc.
    { clear. induction ts as [|x ts IH]; intros b n Ho; cbn; [constructor|]. destruct Ho as [H Ho].
      destruct (window_allow_and_record _ _ _) as [[] b']; [constructor; [done|]|];
        (eapply Forall_impl; [by apply IH|]; cbn; lia). }
    rewrite Hnone; [destruct Hb; lia|]. case_decide; [by apply Hacc|constructor; [lia|by apply Hacc]].
  - rewrite Hsame in *. case_decide as Hfull; [by apply (IH e)|].
    rewrite in_minute_cons. pose proof (IH e (push_event e b)) as H. cbn in H. rewrite length_app in H. cbn in H.
    specialize (H Hm (push_event_ok _ _ _ Hr Hfull) Ho Ht). case_decide; lia.
Qed.

Lemma accepted_minute max t ts : forall now b,
  0 <= max -> window_ok max now b -> ordered now ts ->
  in_minute t (accepted max b ts) <= 2 * max - recent t b.
Proof.
  induction ts as [|e ts IH]; intros now b Hm Hb Ho; cbn [accepted];
    [pose proof (recent_le t b); destruct Hb; change (in_minute t []) with 0; lia|].
  destruct (decide (t <= wb_window_start (roll_window e b))) as [Hw|Hw].
  - destruct (decide (roll_window e b = b)) as [Hsame|Hsame].
    + pose proof (accepted_in_window max t (e :: ts) now b Hm Hb Ho) as H. rewrite Hsame in Hw.
      specialize (H Hw). cbn [accepted] in H. pose proof (recent_le t b). lia.
    + destruct Ho as [Hn Ho]; cbn in Hn.
      assert (roll_window e b = {| wb_window_start := e; wb_window_events := [] |}) as Hr.
      { rewrite (roll_window_eq max now) in * by done. by case_decide. }
      assert (window_allow_and_record max e b = window_allow_and_record max e (roll_window e b)) as ->.
      { unfold window_allow_and_record. rewrite Hr. 
        assert (forall n, roll_window n {| wb_window_start := n; wb_window_events := [] |} =
                          {| wb_window_start := n; wb_window_events := [] |}) as ->; [|done].
        intros n. unfold roll_window. by case_decide. }
      pose proof (accepted_in_window max t (e :: ts) e (roll_window e b) Hm) as H. rewrite Hr in *.
      specialize (H (window_ok_fresh _ _ Hm) (conj (Z.le_refl e) Ho) Hw). cbn [accepted wb_window_events length] in H.
      pose proof (recent_le t b). destruct Hb. cbn [Z.of_nat] in H. lia.
  - destruct Ho as [Hn Ho]; cbn in Hn. unfold window_allow_and_record.
    pose proof (roll_window_ok max now e b Hm Hb Hn) as Hr.
    assert (recent t b <= recent t (roll_window e b) \/ e < t) as Hrec.
    { rewrite (roll_window_eq max now) in * by done. case_decide; cbn in *; [right; lia|by left]. }
    assert (e < t -> recent t b = 0) as Hold.
    { intros He. unfold recent. rewrite filter_all_false; [done|]. destruct Hb as [_ H _].
      eapply Forall_impl; [exact H|]. cbn. intros. lia. }
    case_decide as Hfull.
    + pose proof (IH e (roll_window e b) Hm Hr Ho). pose proof (recent_le t (roll_window e b)). lia.
    + rewrite in_minute_cons. pose proof (IH e _ Hm (push_event_ok _ _ _ Hr Hfull) Ho) as H.
      rewrite recent_push in H. pose proof (recent_le t (roll_window e b)).
      repeat case_decide; lia.
Qed.

(** ** Fallbacks over time *)

(** What happens to the budget: a fallback is asked for, or one has failed. *)
Inductive BudgetOp := AskFallback | FallbackFailed.

(** The times at which a fallback was let through. *)
Fixpoint fallbacks (cfg : FailoverRuntime) (b : FallbackBudgetState) (ops : list (Z * BudgetOp)) : list Z :=
  match ops with
  | [] => []
  | (now, AskFallback) :: ops' =>
      let '(r, b') := fallback_allow_and_record cfg now b in
      if is_ok r then now :: fallbacks cfg b' ops' else fallbacks cfg b' ops'
  | (now, FallbackFailed) :: ops' => fallbacks cfg (trip_cooldown cfg now b) ops'
  end.

Lemma ordered_weaken n m ts : n <= m -> ordered m ts -> ordered n ts.
Proof. destruct ts; cbn; [done|]. intros ? []. split; [lia|done]. Qed.

Lemma fallbacks_accepted cfg ops : forall now b,
  ordered now ops.*1 ->
  exists ts, ordered now ts /\ fallbacks cfg b ops = accepted (fr_fallback_max_per_min cfg) (fb_window b) ts.
Proof.
  induction ops as [|[e op] ops IH]; intros now b Ho; [by exists []|]. destruct Ho as [Hn Ho]; cbn in Hn.
  destruct op; cbn [fallbacks].
  - unfold fallback_allow_and_record.
    destruct (match fb_opened_until b with Some until => bool_decide (e < until) | None => false end).
    + destruct (IH e b Ho) as (ts & H & E). exists ts. split; [by eapply ordered_weaken|done].
    + destruct (window_allow_and_record _ e (fb_window b)) as [ok w] eqn:Ew.
      destruct (IH e {| fb_opened_until := None; fb_window := w |} Ho) as (ts & H & E).
      exists (e :: ts). split; [done|]. cbn [accepted]. rewrite Ew. destruct ok; cbn; by rewrite E.
  - destruct (IH e (trip_cooldown cfg e b) Ho) as (ts & H & E). exists ts.
    split; [by eapply ordered_weaken|done].
Qed.

Lemma fallbacks_later cfg ops : forall now b t,
  ordered now ops.*1 -> t ∈ fallbacks cfg b ops -> now <= t.
Proof.
  induction ops as [|[e op] ops IH]; intros now b t Ho; [by intros ?%elem_of_nil|]. destruct Ho as [Hn Ho]; cbn in Hn.
  destruct op; cbn [fallbacks]; [|intros H; transitivity e; [done|by eapply IH]].
  destruct (fallback_allow_and_record cfg e b) as [r b']. case_match;
    [intros [->|Hin]%elem_of_cons; [done|]|intros Hin]; (transitivity e; [done|by eapply IH]).
Qed.

Lemma fallbacks_cooling cfg ops : forall now b until t,
  ordered now ops.*1 -> fb_opened_until b = Some until -> 0 <= fr_fallback_cooldown_secs cfg ->
  until <= now + fr_fallback_cooldown_secs cfg * 1000 ->
  t ∈ fallbacks cfg b ops -> until <= t.
Proof.
  induction ops as [|[e op] ops IH]; intros now b until t Ho Hu Hc Hw; [by intros ?%elem_of_nil|].
  destruct Ho as [Hn Ho]; cbn in Hn. destruct op; cbn [fallbacks].
  - unfold fallback_allow_and_record. rewrite Hu. case_bool_decide as He.
    + cbn. intros Hin. apply (IH e b until t); [done..|lia|done].
    + destruct (window_allow_and_record _ e (fb_window b)) as [ok w].
      assert (forall b t, t ∈ fallbacks cfg b ops -> e <= t) as Hl by (intros; by eapply fallbacks_later).
      destruct ok; cbn; [intros [->|H]%elem_of_cons; [lia|]|intros H]; specialize (Hl _ _ H); lia.
  - intros H. specialize (IH e (trip_cooldown cfg e b) _ t Ho eq_refl Hc (Z.le_refl _) H). lia.
Qed.

(** Fallbacks are rationed.  Whatever the sequence of requests for a fallback and of failed
    fallbacks, at most twice [fallback_max_per_min] fallbacks are let through in any minute (the
    window is restarted every 60 seconds, so that the ends of two windows may meet in one minute),
    and none is let through within the cooldown after a failed one. *)
Theorem fallback_rationed cfg t0 before failed_at after t :
  0 <= fr_fallback_max_per_min cfg -> 0 <= fr_fallback_cooldown_secs cfg ->
  ordered t0 (before ++ (failed_at, FallbackFailed) :: after).*1 ->
  (in_minute t (fallbacks cfg (FallbackBudgetState_new t0) (before ++ (failed_at, FallbackFailed) :: after))
     <= 2 * fr_fallback_max_per_min cfg) /\
  forall b, t ∈ fallbacks cfg (trip_cooldown cfg failed_at b) after ->
    failed_at + fr_fallback_cooldown_secs cfg * 1000 <= t.
Proof.
  intros Hm Hc Ho. split.
  - destruct (fallbacks_accepted cfg _ t0 (FallbackBudgetState_new t0) Ho) as (ts & Hts & ->).
    pose proof (accepted_minute (fr_fallback_max_per_min cfg) t ts t0 (WindowBudgetState_new t0) Hm) as H.
    specialize (H (window_ok_fresh _ _ Hm) Hts).
    change (recent t (WindowBudgetState_new t0)) with 0 in H. cbn [FallbackBudgetState_new fb_window]. lia.
  - intros b. rewrite fmap_app in Ho.
    assert (ordered failed_at after.*1) as Ha.
    { clear -Ho. revert t0 Ho. induction before as [|x l IH]; intros t0 [_ H]; [done|]. by apply (IH x.1). }
    by apply (fallbacks_cooling cfg after failed_at (trip_cooldown cfg failed_at b)).
Qed.

Definition demo_failover : FailoverRuntime :=
  {| fr_policy := Aggressive; fr_primary_retry_max := 3; fr_primary_retry_backoff_ms := 500;
     fr_primary_retry_max_backoff_ms := 5000; fr_retryable_status_codes := {[ 408; 429; 500; 502; 503; 504 ]};
     fr_fallback_cooldown_secs := 30; fr_fallback_max_per_min := 1 |}.

Lemma fallback_rationed_witness :
  in_minute 59000 (fallbacks demo_failover (FallbackBudgetState_new 0)
    [(59000, AskFallback); (60000, AskFallback); (60001, FallbackFailed); (89999, AskFallback)]) <= 2.
Proof.
  apply (fallback_rationed demo_failover 0 [(59000, AskFallback); (60000, AskFallback)] 60001
           [(89999, AskFallback)] 59000); [cbn; lia|cbn; lia|cbn; lia].
Defined.

(** The bound is met: with one fallback per minute, two are let through within one second. *)
Example two_in_a_second : accepted 1 (WindowBudgetState_new 0) [59000; 60000] = [59000; 60000].
Proof. vm_compute. reflexivity. Qed.

(** The delay before a retry doubles from the configured base up to the configured maximum,
    without overflow: it is never zero, never shorter than the delay before, and never longer than
    the larger of base and maximum, for all 64-bit settings and attempt numbers. *)
Theorem retry_backoff_bounds cfg attempt :
  is_u64 (fr_primary_retry_backoff_ms cfg) -> is_u64 (fr_primary_retry_max_backoff_ms cfg) -> is_u64 attempt ->
  1 <= attempt ->
  let base := Z.max (fr_primary_retry_backoff_ms cfg) 1 in
  let cap := Z.max (fr_primary_retry_max_backoff_ms cfg) base in
  calculate_retry_backoff_ms cfg attempt = Z.min (base * 2 ^ Z.min (attempt - 1) 10) cap /\
  1 <= base <= calculate_retry_backoff_ms cfg attempt /\ calculate_retry_backoff_ms cfg attempt <= cap /\
  (is_u64 (attempt + 1) -> calculate_retry_backoff_ms cfg attempt <= calculate_retry_backoff_ms cfg (attempt + 1)).
Proof.
  intros Hb Hm Ha H1. cbv zeta.
  assert (forall n, is_u64 n -> 1 <= n ->
    calculate_retry_backoff_ms cfg n =
    Z.min (Z.max (fr_primary_retry_backoff_ms cfg) 1 * 2 ^ Z.min (n - 1) 10)
          (Z.max (fr_primary_retry_max_backoff_ms cfg) (Z.max (fr_primary_retry_backoff_ms cfg) 1))) as E.
  { intros n Hn Hn1. unfold calculate_retry_backoff_ms, saturating_pow, saturating_sub, saturating_mul.
    rewrite (sat64_id (n - 1)) by (unfold is_u64 in *; lia).
    assert (1 <= 2 ^ Z.min (n - 1) 10 <= 1024) as Hp.
    { split; [change 1 with (2 ^ 0)|change 1024 with (2 ^ 10)]; apply Z.pow_le_mono_r; lia. }
    rewrite (sat64_id (2 ^ _)) by (unfold is_u64, u64_max; lia).
    unfold is_u64, sat64 in *. set (p := 2 ^ Z.min (n - 1) 10) in *.
    assert (Z.max (fr_primary_retry_backoff_ms cfg) 1 <= Z.max (fr_primary_retry_backoff_ms cfg) 1 * p) by nia. lia. }
  rewrite E by done.
  assert (1 <= 2 ^ Z.min (attempt - 1) 10) as Hp by (change 1 with (2 ^ 0); apply Z.pow_le_mono_r; lia).
  split_and!; [done|lia|nia|lia|]. intros Hs. rewrite E by (done || lia).
  assert (2 ^ Z.min (attempt - 1) 10 <= 2 ^ Z.min (attempt + 1 - 1) 10) by (apply Z.pow_le_mono_r; lia). nia.
Qed.

Lemma retry_backoff_bounds_witness :
  calculate_retry_backoff_ms demo_failover 3 = 2000 /\ calculate_retry_backoff_ms demo_failover 9 = 5000.
Proof.
  split.
  - by rewrite (proj1 (retry_backoff_bounds demo_failover 3 ltac:(done) ltac:(done) ltac:(done) ltac:(done))).
  - by rewrite (proj1 (retry_backoff_bounds demo_failover 9 ltac:(done) ltac:(done) ltac:(done) ltac:(done))).
Defined.
