(* ===== verification/LlmConfig.v ===== *)
(** * The configuration of the LLM worker

    [workers/llm-worker/src/main.rs]: [WorkerConfig] and [RoutingConfig], the environment variables
    that override them, the providers they resolve to, and [validate_config].  Reading the JSON
    file is left out: the definitions start from the parsed record.  The settings of the metrics
    endpoint and the catalogue of providers it shows are left out. *)

From S2P Require Import Prelude RustStr RustNum Types ConfigCore LlmAnswer LlmBudget.

Local Open Scope Z_scope.

Inductive ProviderKind := LmStudio | Ollama | Vllm | Openai | Anthropic | OpenaiCompatible | CustomJson.
Global Instance ProviderKind_eq_dec : EqDecision ProviderKind.
Proof. solve_decision. Defined.

Record ProviderConfig := {
  pv_name : string;
  pv_kind : ProviderKind;
  pv_endpoint : string;
  pv_model : option string;
  pv_timeout_ms : option Z;
  pv_headers : gmap string string;
  pv_api_key : option string;
  pv_api_key_env : option string
}.

Record RoutingConfig := {
  rc_default : option string;
  rc_fallback : option string;
  rc_policy : option string;
  rc_primary_retry_max : option Z;
  rc_primary_retry_backoff_ms : option Z;
  rc_primary_retry_max_backoff_ms : option Z;
  rc_retryable_status_codes : list Z;
  rc_fallback_cooldown_secs : option Z;
  rc_fallback_max_per_min : option Z;
  rc_stale_pending_minutes : option Z;
  rc_stale_pending_online_provider : option string;
  rc_stale_pending_health_ttl_secs : option Z;
  rc_stale_pending_max_per_min : option Z;
  rc_online_context_mode : option string;
  rc_metadata_only_force_action : option string;
  rc_metadata_only_max_confidence : option float;
  rc_metadata_only_requeue_for_content : option bool;
  rc_content_required_mode : option string;
  rc_metadata_only_allowed_for : option string;
  rc_metadata_only_fetch_failure_threshold : option Z;
  rc_metadata_only_no_content_statuses : option (list string);
  rc_pending_reconcile_enabled : option bool;
  rc_pending_reconcile_interval_secs : option Z;
  rc_pending_reconcile_stale_minutes : option Z;
  rc_pending_reconcile_batch : option Z;
  rc_requeue_max_attempts : option Z
}.

(** [#[derive(Default)]]. *)
Definition RoutingConfig_default : RoutingConfig :=
  {| rc_default := None; rc_fallback := None; rc_policy := None; rc_primary_retry_max := None;
     rc_primary_retry_backoff_ms := None; rc_primary_retry_max_backoff_ms := None;
     rc_retryable_status_codes := []; rc_fallback_cooldown_secs := None; rc_fallback_max_per_min := None;
     rc_stale_pending_minutes := None; rc_stale_pending_online_provider := None;
     rc_stale_pending_health_ttl_secs := None; rc_stale_pending_max_per_min := None;
     rc_online_context_mode := None; rc_metadata_only_force_action := None;
     rc_metadata_only_max_confidence := None; rc_metadata_only_requeue_for_content := None;
     rc_content_required_mode := None; rc_metadata_only_allowed_for := None;
     rc_metadata_only_fetch_failure_threshold := None; rc_metadata_only_no_content_statuses := None;
     rc_pending_reconcile_enabled := None; rc_pending_reconcile_interval_secs := None;
     rc_pending_reconcile_stale_minutes := None; rc_pending_reconcile_batch := None;
     rc_requeue_max_attempts := None |}.

Record WorkerConfig := {
  wc_queue_name : string;
  wc_redis_url : string;
  wc_cache_channel : string;
  wc_stream : string;
  wc_page_fetch_stream : string;
  wc_database_url : string;
  wc_llm_endpoint : option string;
  wc_llm_api_key : option string;
  wc_providers : list ProviderConfig;
  wc_routing : RoutingConfig
}.

Record ResolvedProvider := {
  rp_name : string;
  rp_kind : ProviderKind;
  rp_endpoint : string;
  rp_model : option string;
  rp_timeout_ms : option Z;
  rp_headers : gmap string string;
  rp_api_key : string
}.

Record ProviderRouter := { ro_primary : ResolvedProvider; ro_fallback : option ResolvedProvider }.

Definition by_name (r : ProviderRouter) (name : string) : option ResolvedProvider :=
  if decide (rp_name (ro_primary r) = name) then Some (ro_primary r)
  else p ← ro_fallback r; if decide (rp_name p = name) then Some p else None.

Definition is_online_provider (p : ResolvedProvider) : bool :=
  match rp_kind p with Openai | OpenaiCompatible | Anthropic | Vllm => true | _ => false end.

(** ** Modes *)

Inductive OnlineContextMode := ContextRequired | ContextPreferred | ContextMetadataOnly.
Inductive ContentRequiredMode := ContentRequired | ContentAuto.
Inductive MetadataOnlyAllowedFor := AllowedOnline | AllowedAll.

Definition OnlineContextMode_parse (value : string) : OnlineContextMode :=
  let v := to_ascii_lowercase (trim value) in
  if decide (v = "preferred") then ContextPreferred
  else if decide (v = "metadata_only") then ContextMetadataOnly else ContextRequired.
Definition ContentRequiredMode_parse (value : string) : ContentRequiredMode :=
  if decide (to_ascii_lowercase (trim value) = "auto") then ContentAuto else ContentRequired.
Definition MetadataOnlyAllowedFor_parse (value : string) : MetadataOnlyAllowedFor :=
  if decide (to_ascii_lowercase (trim value) = "all") then AllowedAll else AllowedOnline.

Record OnlineContextRuntime := {
  oc_mode : OnlineContextMode;
  oc_metadata_only_force_action : PolicyAction;
  oc_metadata_only_max_confidence : float;
  oc_metadata_only_requeue_for_content : bool;
  oc_content_required_mode : ContentRequiredMode;
  oc_metadata_only_allowed_for : MetadataOnlyAllowedFor;
  oc_metadata_only_fetch_failure_threshold : Z;
  oc_metadata_only_no_content_statuses : gset string
}.
Record PromptInjectionRuntime := { pi_enabled : bool; pi_review_threshold : Z; pi_confidence_cap : float }.
Record StalePendingRuntime := {
  sp_threshold_minutes : Z;
  sp_online_provider : ResolvedProvider;
  sp_health_ttl_secs : Z;
  sp_max_per_min : Z
}.
Record PendingReconcileRuntime := {
  pr_enabled : bool;
  pr_interval_secs : Z;
  pr_stale_minutes : Z;
  pr_batch : Z
}.

Section LlmConfig.
  Context (env : Env) `{X : Externals}.

(** ** The environment *)

Definition env_u64 (key : string) : option Z := raw ← env !! key; parse_unsigned u64_max (trim raw).
(** [usize] is as wide as [u64]. *)
Definition env_usize (key : string) : option Z := env_u64 key.
Definition env_csv_u16 (key : string) : option (list Z) :=
  raw ← env !! key;
  let values := omap (fun token =>
    let trimmed := trim token in
    if is_empty trimmed then None else parse_unsigned u16_max trimmed) (split_char "," raw) in
  if decide (values = []) then None else Some values.
Definition env_csv_strings (key : string) : option (list string) :=
  raw ← env !! key;
  let values := List.filter (fun t => negb (is_empty t))
                  ((fun token => to_ascii_lowercase (trim token)) <$> split_char "," raw) in
  if decide (values = []) then None else Some values.
Definition env_bool (key : string) : option bool :=
  raw ← env !! key;
  let v := to_ascii_lowercase (trim raw) in
  if decide (v ∈ ["1"; "true"; "yes"; "on"]) then Some true
  else if decide (v ∈ ["0"; "false"; "no"; "off"]) then Some false
  else None.
(** [env::var(key).ok().and_then(|v| v.trim().parse::<f32>().ok())]. *)
Definition env_f32 (key : string) : option float := raw ← env !! key; parse_f32 (trim raw).

(** [a.or(b).unwrap_or(d)]. *)
Definition or_default {A} (a b : option A) (d : A) : A :=
  match a with Some x => x | None => default d b end.

Definition apply_env_overrides (cfg : WorkerConfig) : WorkerConfig :=
  let override key old := match env !! key with
    | Some v => if is_empty (trim v) then old else trim v
    | None => old end in
  {| wc_queue_name := wc_queue_name cfg; wc_redis_url := override "OD_CACHE_REDIS_URL" (wc_redis_url cfg);
     wc_cache_channel := wc_cache_channel cfg; wc_stream := wc_stream cfg;
     wc_page_fetch_stream := wc_page_fetch_stream cfg;
     wc_database_url := override "OD_ADMIN_DATABASE_URL" (wc_database_url cfg);
     wc_llm_endpoint := wc_llm_endpoint cfg; wc_llm_api_key := wc_llm_api_key cfg;
     wc_providers := wc_providers cfg; wc_routing := wc_routing cfg |}.

(** ** Providers *)

Definition provider_from_config (config : ProviderConfig) : result string ResolvedProvider :=
  api_key ← match pv_api_key config, pv_api_key_env config with
            | Some value, key_env =>
                if negb (is_empty value) then Ok value
                else match key_env with
                     | Some env_key => ok_or (env !! env_key)
                         ("env var " +:+ env_key +:+ " not set for provider " +:+ pv_name config)
                     | None => Ok ""
                     end
            | None, Some env_key => ok_or (env !! env_key)
                ("env var " +:+ env_key +:+ " not set for provider " +:+ pv_name config)
            | None, None => Ok ""
            end;
  Ok {| rp_name := pv_name config; rp_kind := pv_kind config; rp_endpoint := pv_endpoint config;
        rp_model := pv_model config; rp_timeout_ms := pv_timeout_ms config;
        rp_headers := pv_headers config; rp_api_key := api_key |}.

Definition find_provider (cfg : WorkerConfig) (name : string) : result string ResolvedProvider :=
  provider ← ok_or (find_first (fun p => bool_decide (pv_name p = name)) (wc_providers cfg))
                   ("provider '" +:+ name +:+ "' not found");
  provider_from_config provider.

Definition resolve_router (cfg : WorkerConfig) : result string ProviderRouter :=
  match wc_providers cfg with
  | first :: _ =>
      let name := default (pv_name first) (rc_default (wc_routing cfg)) in
      primary ← find_provider cfg name;
      fallback ← match rc_fallback (wc_routing cfg) with
                 | Some fallback_name =>
                     if decide (fallback_name = name) then Ok None
                     else Some <$> find_provider cfg fallback_name
                 | None => Ok None
                 end;
      Ok {| ro_primary := primary; ro_fallback := fallback |}
  | [] =>
      endpoint ← ok_or (wc_llm_endpoint cfg) "llm_endpoint missing and no providers configured";
      let api_key := or_default (wc_llm_api_key cfg) (env !! "LLM_API_KEY") "" in
      Ok {| ro_primary := {| rp_name := "legacy"; rp_kind := CustomJson; rp_endpoint := endpoint;
                             rp_model := None; rp_timeout_ms := None; rp_headers := ∅; rp_api_key := api_key |};
            ro_fallback := None |}
  end.

(** ** Runtime settings *)

Definition from_routing (routing : RoutingConfig) : FailoverRuntime :=
  {| fr_policy := FailoverPolicy_parse (or_default (env !! "OD_LLM_FAILOVER_POLICY") (rc_policy routing) "aggressive");
     fr_primary_retry_max := or_default (env_usize "OD_LLM_PRIMARY_RETRY_MAX") (rc_primary_retry_max routing) 3;
     fr_primary_retry_backoff_ms :=
       or_default (env_u64 "OD_LLM_PRIMARY_RETRY_BACKOFF_MS") (rc_primary_retry_backoff_ms routing) 500;
     fr_primary_retry_max_backoff_ms :=
       or_default (env_u64 "OD_LLM_PRIMARY_RETRY_MAX_BACKOFF_MS") (rc_primary_retry_max_backoff_ms routing) 5000;
     fr_retryable_status_codes :=
       list_to_set (match env_csv_u16 "OD_LLM_RETRYABLE_STATUS_CODES" with
                    | Some codes => codes
                    | None => if decide (rc_retryable_status_codes routing = []) then [408; 429; 500; 502; 503; 504]
                              else rc_retryable_status_codes routing
                    end);
     fr_fallback_cooldown_secs :=
       or_default (env_u64 "OD_LLM_FALLBACK_COOLDOWN_SECS") (rc_fallback_cooldown_secs routing) 30;
     fr_fallback_max_per_min :=
       or_default (env_usize "OD_LLM_FALLBACK_MAX_PER_MIN") (rc_fallback_max_per_min routing) 30 |}.

Definition resolve_stale_pending (cfg : WorkerConfig) : result string (option StalePendingRuntime) :=
  let routing := wc_routing cfg in
  let threshold_minutes := or_default (env_u64 "OD_LLM_STALE_PENDING_MINUTES") (rc_stale_pending_minutes routing) 0 in
  if decide (threshold_minutes = 0) then Ok None
  else
    provider_name ← ok_or
      (match env_value env "OD_LLM_STALE_PENDING_ONLINE_PROVIDER" with
       | Some name => Some name
       | None => match rc_stale_pending_online_provider routing with
                 | Some name => Some name
                 | None => rc_fallback routing
                 end
       end)
      "stale pending diversion enabled but no online provider configured (OD_LLM_STALE_PENDING_ONLINE_PROVIDER or routing.fallback)";
    online_provider ← find_provider cfg provider_name;
    Ok (Some {| sp_threshold_minutes := threshold_minutes; sp_online_provider := online_provider;
                sp_health_ttl_secs := Z.max 1 (or_default (env_u64 "OD_LLM_STALE_PENDING_HEALTH_TTL_SECS")
                                                 (rc_stale_pending_health_ttl_secs routing) 30);
                sp_max_per_min := Z.max 1 (or_default (env_usize "OD_LLM_STALE_PENDING_MAX_PER_MIN")
                                             (rc_stale_pending_max_per_min routing) 10) |}).

Definition resolve_online_context (cfg : WorkerConfig) : result string OnlineContextRuntime :=
  let routing := wc_routing cfg in
  let setting key configured d := or_default (env_value env key) configured d in
  force_action ← parse_policy_action
    (setting "OD_LLM_METADATA_ONLY_FORCE_ACTION" (rc_metadata_only_force_action routing) "Monitor");
  let statuses := or_default (env_csv_strings "OD_LLM_METADATA_ONLY_NO_CONTENT_STATUSES")
                    (rc_metadata_only_no_content_statuses routing) ["failed"; "unsupported"; "blocked"] in
  Ok {| oc_mode := OnlineContextMode_parse
          (setting "OD_LLM_ONLINE_CONTEXT_MODE" (rc_online_context_mode routing) "required");
        oc_metadata_only_force_action := force_action;
        oc_metadata_only_max_confidence :=
          f32_clamp (or_default (env_f32 "OD_LLM_METADATA_ONLY_MAX_CONFIDENCE")
                       (rc_metadata_only_max_confidence routing) f32_0_4) f32_zero f32_one;
        oc_metadata_only_requeue_for_content :=
          or_default (env_bool "OD_LLM_METADATA_ONLY_REQUEUE_FOR_CONTENT")
            (rc_metadata_only_requeue_for_content routing) true;
        oc_content_required_mode := ContentRequiredMode_parse
          (setting "OD_LLM_CONTENT_REQUIRED_MODE" (rc_content_required_mode routing) "auto");
        oc_metadata_only_allowed_for := MetadataOnlyAllowedFor_parse
          (setting "OD_LLM_METADATA_ONLY_ALLOWED_FOR" (rc_metadata_only_allowed_for routing) "all");
        oc_metadata_only_fetch_failure_threshold :=
          Z.max 1 (or_default (env_usize "OD_LLM_METADATA_ONLY_FETCH_FAILURE_THRESHOLD")
                     (rc_metadata_only_fetch_failure_threshold routing) 1);
        oc_metadata_only_no_content_statuses :=
          list_to_set (List.filter (fun t => negb (is_empty t)) ((fun v => to_ascii_lowercase (trim v)) <$> statuses)) |}.

Definition resolve_pending_reconcile (cfg : WorkerConfig) : PendingReconcileRuntime :=
  let routing := wc_routing cfg in
  {| pr_enabled := or_default (env_bool "OD_PENDING_RECONCILE_ENABLED") (rc_pending_reconcile_enabled routing) true;
     pr_interval_secs := Z.max 10 (or_default (env_u64 "OD_PENDING_RECONCILE_INTERVAL_SECS")
                                     (rc_pending_reconcile_interval_secs routing) 60);
     pr_stale_minutes := Z.max 1 (or_default (env_u64 "OD_PENDING_RECONCILE_STALE_MINUTES")
                                    (rc_pending_reconcile_stale_minutes routing) 10);
     pr_batch := Z.max 1 (or_default (env_usize "OD_PENDING_RECONCILE_BATCH") (rc_pending_reconcile_batch routing) 100) |}.

Definition resolve_prompt_injection : PromptInjectionRuntime :=
  {| pi_enabled := default true (env_bool "OD_PROMPT_INJECTION_GUARDRAIL_ENABLED");
     pi_review_threshold := Z.max 1 (default 3 (env_usize "OD_PROMPT_INJECTION_REVIEW_THRESHOLD"));
     pi_confidence_cap :=
       f32_clamp (default f32_0_4 (env_f32 "OD_PROMPT_INJECTION_CONFIDENCE_CAP")) f32_zero f32_one |}.

(** ** Validation at start *)

Definition resolved_key (provider : ProviderConfig) : option string :=
  match pv_api_key provider with
  | Some value => if is_empty (trim value) then key ← pv_api_key_env provider; env_value env key else Some value
  | None => key ← pv_api_key_env provider; env_value env key
  end.

Definition validate_provider (provider : ProviderConfig) (v : ConfigValidator) : ConfigValidator :=
  let provider_key := "llm-worker.providers." +:+ pv_name provider +:+ ".api_key" in
  match pv_kind provider with
  | Openai | Anthropic | OpenaiCompatible =>
      require_strong_secret env provider_key (resolved_key provider) 16
        "set provider api_key/api_key_env with a strong non-default API key" v
  | LmStudio | Ollama | Vllm | CustomJson =>
      validate_optional_secret env provider_key (resolved_key provider) 16
        "if set, provider api_key/api_key_env must be strong and non-default" v
  end.

Definition llm_validate_config (cfg : WorkerConfig) : result string unit :=
  let v := new_validator "llm-worker" in
  let v := require_non_empty "queue_name" (Some (wc_queue_name cfg)) "set queue_name in config/llm-worker.json" v in
  let v := require_non_empty "redis_url" (Some (wc_redis_url cfg)) "set redis_url in config/llm-worker.json" v in
  let v := require_non_empty "database_url" (Some (wc_database_url cfg)) "set database_url in config/llm-worker.json" v in
  let v := require_auth_url env "llm-worker.redis_url" (Some (wc_redis_url cfg)) false true 16
             "set redis_url in config/llm-worker.json with password-authenticated Redis credentials" v in
  let v := require_auth_url env "llm-worker.database_url" (Some (wc_database_url cfg)) true true 12
             "set database_url in config/llm-worker.json with non-default DB credentials" v in
  let v := foldl (fun v p => validate_provider p v) v (wc_providers cfg) in
  let v := validate_optional_secret env "LLM_API_KEY" (wc_llm_api_key cfg) 16
             "if using legacy llm_api_key, set a strong non-default API key" v in
  _ ← finish v;
  _ ← map_err (fun _ => "failed to resolve LLM providers for startup") (resolve_router cfg);
  _ ← map_err (fun _ => "failed stale-pending provider validation") (resolve_stale_pending cfg);
  _ ← map_err (fun _ => "failed online-context validation") (resolve_online_context cfg);
  Ok tt.

End LlmConfig.
