(* ===== verification/LlmProvider.v ===== *)
(** * Jobs, prompts and calls of language models

    [workers/llm-worker/src/main.rs]: the job as it travels through the queue, the prompt built
    from it, the request each kind of provider gets and the reading of its response, and how a
    failed call is classified.  The network is the parameter [HttpNet]; what the code observes of a
    [reqwest::Error] is the record [ReqwestError].  Logging of excerpt lengths is left out. *)

From S2P Require Import Prelude RustStr RustNum Types Json Taxonomy LlmAnswer LlmBudget LlmConfig.

Local Open Scope Z_scope.

(** ** Jobs *)

Record ClassificationJobPayload := {
  cj_normalized_key : string;
  cj_entity_level : string;
  cj_hostname : string;
  cj_full_url : string;
  cj_trace_id : string;
  cj_idempotency_key : option string;
  cj_requires_content : bool;
  cj_base_url : option string;
  cj_content_excerpt : option string;
  cj_content_hash : option string;
  cj_content_version : option Z;
  cj_content_language : option string;
  cj_requeue_attempt : Z;
  cj_provider_override : option string
}.

Definition job_to_json (j : ClassificationJobPayload) : Json :=
  JObj ([("normalized_key", JStr (cj_normalized_key j)); ("entity_level", JStr (cj_entity_level j));
         ("hostname", JStr (cj_hostname j)); ("full_url", JStr (cj_full_url j)); ("trace_id", JStr (cj_trace_id j))] ++
        field_opt "idempotency_key" JStr (cj_idempotency_key j) ++
        [("requires_content", JBool (cj_requires_content j))] ++
        field_opt "base_url" JStr (cj_base_url j) ++
        field_opt "content_excerpt" JStr (cj_content_excerpt j) ++
        field_opt "content_hash" JStr (cj_content_hash j) ++
        field_opt "content_version" JInt (cj_content_version j) ++
        field_opt "content_language" JStr (cj_content_language j) ++
        [("requeue_attempt", JInt (cj_requeue_attempt j))] ++
        field_opt "provider_override" JStr (cj_provider_override j)).

Definition job_from_json (v : Json) : result string ClassificationJobPayload :=
  fields ← struct_fields ["normalized_key"; "entity_level"; "hostname"; "full_url"; "trace_id"; "idempotency_key";
    "requires_content"; "base_url"; "content_excerpt"; "content_hash"; "content_version"; "content_language";
    "requeue_attempt"; "provider_override"] v;
  normalized_key ← required "normalized_key" de_string fields;
  entity_level ← required "entity_level" de_string fields;
  hostname ← required "hostname" de_string fields;
  full_url ← required "full_url" de_string fields;
  trace_id ← required "trace_id" de_string fields;
  idempotency_key ← optional "idempotency_key" de_string fields;
  requires_content ← defaulted "requires_content" de_bool false fields;
  base_url ← optional "base_url" de_string fields;
  content_excerpt ← optional "content_excerpt" de_string fields;
  content_hash ← optional "content_hash" de_string fields;
  content_version ← optional "content_version" de_i64 fields;
  content_language ← optional "content_language" de_string fields;
  requeue_attempt ← defaulted "requeue_attempt" de_usize 0 fields;
  provider_override ← optional "provider_override" de_string fields;
  Ok {| cj_normalized_key := normalized_key; cj_entity_level := entity_level; cj_hostname := hostname;
        cj_full_url := full_url; cj_trace_id := trace_id; cj_idempotency_key := idempotency_key;
        cj_requires_content := requires_content; cj_base_url := base_url; cj_content_excerpt := content_excerpt;
        cj_content_hash := content_hash; cj_content_version := content_version;
        cj_content_language := content_language; cj_requeue_attempt := requeue_attempt;
        cj_provider_override := provider_override |}.

Definition set_content (excerpt hash : option string) (version : option Z) (language : option string)
    (j : ClassificationJobPayload) : ClassificationJobPayload :=
  {| cj_normalized_key := cj_normalized_key j; cj_entity_level := cj_entity_level j; cj_hostname := cj_hostname j;
     cj_full_url := cj_full_url j; cj_trace_id := cj_trace_id j; cj_idempotency_key := cj_idempotency_key j;
     cj_requires_content := cj_requires_content j; cj_base_url := cj_base_url j; cj_content_excerpt := excerpt;
     cj_content_hash := hash; cj_content_version := version; cj_content_language := language;
     cj_requeue_attempt := cj_requeue_attempt j; cj_provider_override := cj_provider_override j |}.
Definition set_requires_content (b : bool) (j : ClassificationJobPayload) : ClassificationJobPayload :=
  {| cj_normalized_key := cj_normalized_key j; cj_entity_level := cj_entity_level j; cj_hostname := cj_hostname j;
     cj_full_url := cj_full_url j; cj_trace_id := cj_trace_id j; cj_idempotency_key := cj_idempotency_key j;
     cj_requires_content := b; cj_base_url := cj_base_url j; cj_content_excerpt := cj_content_excerpt j;
     cj_content_hash := cj_content_hash j; cj_content_version := cj_content_version j;
     cj_content_language := cj_content_language j; cj_requeue_attempt := cj_requeue_attempt j;
     cj_provider_override := cj_provider_override j |}.
Definition set_requeue_attempt (n : Z) (j : ClassificationJobPayload) : ClassificationJobPayload :=
  {| cj_normalized_key := cj_normalized_key j; cj_entity_level := cj_entity_level j; cj_hostname := cj_hostname j;
     cj_full_url := cj_full_url j; cj_trace_id := cj_trace_id j; cj_idempotency_key := cj_idempotency_key j;
     cj_requires_content := cj_requires_content j; cj_base_url := cj_base_url j;
     cj_content_excerpt := cj_content_excerpt j; cj_content_hash := cj_content_hash j;
     cj_content_version := cj_content_version j; cj_content_language := cj_content_language j;
     cj_requeue_attempt := n; cj_provider_override := cj_provider_override j |}.

Definition classification_idempotency_key (j : ClassificationJobPayload) : string :=
  let derived := cj_normalized_key j +:+ ":" +:+ cj_full_url j +:+ ":" +:+ cj_trace_id j in
  match cj_idempotency_key j with
  | Some value => if is_empty (trim value) then derived else value
  | None => derived
  end.

Definition has_content (value : option string) : bool :=
  match value with Some text => negb (is_empty (trim text)) | None => false end.

Definition job_excerpt (j : ClassificationJobPayload) : option string :=
  text ← cj_content_excerpt j; if is_empty (trim text) then None else Some (trim text).

(** ** Prompts *)

Inductive PromptContextMode := WithExcerpt | MetadataOnly.
Global Instance PromptContextMode_eq_dec : EqDecision PromptContextMode.
Proof. solve_decision. Defined.

Definition context_mode_as_str (m : PromptContextMode) : string :=
  match m with WithExcerpt => "with_excerpt" | MetadataOnly => "metadata_only" end.

(** Characters of UTF-8 text: a byte that does not continue a character starts one. *)
Definition continues (c : ascii) : bool := between 128 191 c.
Fixpoint chars_count (s : string) : N :=
  match s with
  | "" => 0
  | String c s' => if continues c then chars_count s' else N.succ (chars_count s')
  end%N.
Fixpoint take_chars (n : N) (s : string) : string :=
  match s with
  | "" => ""
  | String c s' =>
      if continues c then String c (take_chars n s')
      else if decide (n = 0%N) then "" else String c (take_chars (N.pred n) s')
  end.

Definition PROMPT_HTML_CONTEXT_LIMIT : N := 120000.
Definition ELLIPSIS : string := bytes [226; 128; 166]%N.

Definition format_excerpt (excerpt : string) : string * bool :=
  let cleaned := trim excerpt in
  let buffer := take_chars PROMPT_HTML_CONTEXT_LIMIT cleaned in
  let truncated := bool_decide (chars_count buffer < chars_count cleaned)%N in
  (if truncated then buffer +:+ ELLIPSIS else buffer, truncated).

(** The text the prompt has between its parts: a backslash and the letter n. *)
Definition NL : string := "\n".

Definition build_prompt (j : ClassificationJobPayload) (taxonomy_prompt : string)
    (retry_instruction : option string) (context_mode : PromptContextMode) : string :=
  join NL (
    [ "Classify the following web request. Return JSON with fields: primary_category, subcategory, risk_level, confidence (0-1), recommended_action (Allow|Block|Warn|Monitor|Review|RequireApproval). Use ONLY canonical taxonomy IDs for primary_category and subcategory." +:+
      NL +:+ "Normalized Key: " +:+ cj_normalized_key j +:+ NL +:+ "Hostname: " +:+ cj_hostname j +:+
      NL +:+ "URL: " +:+ cj_full_url j +:+ NL +:+ "Entity Level: " +:+ cj_entity_level j +:+
      NL +:+ "Trace ID: " +:+ cj_trace_id j;
      "Allowed Taxonomy IDs:" +:+ String LF taxonomy_prompt ] ++
    match retry_instruction with Some i => ["Retry Instruction: " +:+ i] | None => [] end ++
    [ "Context Mode: " +:+ context_mode_as_str context_mode;
      match job_excerpt j with
      | Some excerpt =>
          let '(formatted, truncated) := format_excerpt excerpt in
          "Homepage Content Excerpt (markdown/plain text, " +:+ pretty (chars_count formatted) +:+ " chars" +:+
          (if truncated : bool then ", truncated" else "") +:+ "):" +:+ NL +:+ formatted
      | None => "Homepage Content Excerpt: unavailable (content fetch pending, failed, or disabled)."
      end ] ++
    match cj_content_hash j with Some hash => ["Content Hash: " +:+ hash] | None => [] end ++
    match cj_content_version j with Some version => ["Content Version: " +:+ pretty version] | None => [] end ++
    match cj_content_language j with Some language => ["Content Language: " +:+ language] | None => [] end).

Definition build_taxonomy_prompt (t : CanonicalTaxonomy) : string :=
  join (String LF "") (
    ("taxonomy_version: " +:+ tx_version t) ::
    (tx_categories t ≫= fun category =>
       [ "- " +:+ cat_id category +:+ " (" +:+ cat_name category +:+ ")";
         "  subcategories: " +:+
         join ", " ((fun sub => sub_id sub +:+ " (" +:+ sub_name sub +:+ ")") <$> cat_subcategories category) ])).

(** ** Requests *)

Definition SYSTEM_PROMPT : string :=
  "You are an AI analyst classifying web traffic for a trust and safety team. Respond ONLY with JSON matching the schema and avoid prose.".

Record HttpRequest := {
  hr_url : string;
  hr_headers : list (string * string);
  hr_provider_headers : gmap string string;
  hr_timeout_ms : option Z;
  hr_body : Json
}.

(** What the code observes of a [reqwest::Error]: whether it is a timeout, connection or request
    error, the HTTP status it carries, and its text. *)
Record ReqwestError := { re_transient : bool; re_status : option Z; re_text : string }.

(** A response has a status and a body, and reading the body may fail in turn. *)
Definition HttpReply : Type := result ReqwestError (Z * result ReqwestError string).

Inductive InvokeError := Reqwest (e : ReqwestError) | Message (text : string).

Class HttpNet := {
  (** The answer to the [n]-th request the worker sends, and how many milliseconds it took. *)
  http_send : nat -> HttpRequest -> Z * HttpReply;
  (** The texts of errors that [reqwest] makes up. *)
  status_error_text : Z -> string;
  decode_error_text : string -> string
}.

Definition system_and_user (prompt : string) : Json :=
  JArr [ JObj [("role", JStr "system"); ("content", JStr SYSTEM_PROMPT)];
         JObj [("role", JStr "user"); ("content", JStr prompt)] ].

(** The zero of [json!({"temperature": 0.0})]. *)
Definition json_zero : Json := JFloat f32_zero.

Definition bearer (p : ResolvedProvider) : list (string * string) :=
  if is_empty (rp_api_key p) then [] else [("Authorization", "Bearer " +:+ rp_api_key p)].

Definition post (p : ResolvedProvider) (headers : list (string * string)) (body : Json) : HttpRequest :=
  {| hr_url := rp_endpoint p; hr_headers := headers; hr_provider_headers := rp_headers p;
     hr_timeout_ms := rp_timeout_ms p; hr_body := body |}.

Definition openai_request (p : ResolvedProvider) (prompt : string) : HttpRequest :=
  post p (("Content-Type", "application/json") :: bearer p)
    (JObj [("model", JStr (default "gpt-4o-mini" (rp_model p))); ("temperature", json_zero);
           ("response_format", JObj [("type", JStr "json_object")]); ("max_tokens", JInt 256);
           ("messages", system_and_user prompt)]).

Definition lmstudio_request (p : ResolvedProvider) (prompt : string) : HttpRequest :=
  post p (("Content-Type", "application/json") :: bearer p)
    (JObj [("model", JStr (default "lmstudio-model" (rp_model p))); ("temperature", json_zero);
           ("stream", JBool false); ("max_tokens", JInt 256); ("messages", system_and_user prompt)]).

Definition anthropic_request (p : ResolvedProvider) (prompt : string) : HttpRequest :=
  post p [("content-type", "application/json"); ("x-api-key", rp_api_key p); ("anthropic-version", "2023-06-01")]
    (JObj [("model", JStr (default "claude-3-sonnet-20240229" (rp_model p))); ("max_tokens", JInt 512);
           ("temperature", json_zero); ("system", JStr SYSTEM_PROMPT);
           ("messages", JArr [JObj [("role", JStr "user");
              ("content", JArr [JObj [("type", JStr "text"); ("text", JStr prompt)]])]])]).

Definition ollama_request (p : ResolvedProvider) (prompt : string) : HttpRequest :=
  post p []
    (JObj [("model", JStr (default "llama3" (rp_model p)));
           ("prompt", JStr (SYSTEM_PROMPT +:+ String LF (String LF prompt))); ("stream", JBool false)]).

(** [PromptPayload]. *)
Definition custom_request (p : ResolvedProvider) (j : ClassificationJobPayload) : HttpRequest :=
  post p (bearer p)
    (JObj ([("normalized_key", JStr (cj_normalized_key j)); ("hostname", JStr (cj_hostname j));
            ("full_url", JStr (cj_full_url j)); ("entity_level", JStr (cj_entity_level j));
            ("trace_id", JStr (cj_trace_id j))] ++
           field_opt "content_excerpt" JStr (job_excerpt j) ++
           field_opt "content_hash" JStr (cj_content_hash j) ++
           field_opt "content_version" JInt (cj_content_version j))).

(** ** Responses *)

(** [OpenAiChatResponse]: the contents of the choices. *)
Definition chat_from_json (v : Json) : result string (list Json) :=
  fields ← struct_fields ["choices"] v;
  choices ← required "choices" (fun v => match v with JArr vs => Ok vs | _ => Err "invalid type: expected a sequence" end) fields;
  try_map (fun choice =>
    fields ← struct_fields ["message"] choice;
    required "message" (fun m => fields ← struct_fields ["content"] m; required "content" Ok fields) fields) choices.

(** [Value::get(key)] of an object; a repeated key has its last value. *)
Definition json_get (key : string) (v : Json) : option Json :=
  match v with
  | JObj fields => snd <$> last (filter (fun f => f.1 = key) fields)
  | _ => None
  end.

Definition content_text (content : Json) : result string string :=
  match content with
  | JStr text => Ok text
  | JArr parts =>
      let combined := join (String LF "") (omap (fun part =>
        match json_get "text" part with Some (JStr t) => Some t | _ => None end) parts) in
      if is_empty combined then Err "openai response missing text content" else Ok combined
  | _ => Err "unsupported OpenAI content type"
  end.

(** [AnthropicResponse]: the texts of its blocks. *)
Definition anthropic_from_json (v : Json) : result string (list (option string)) :=
  fields ← struct_fields ["content"] v;
  blocks ← required "content" (fun v => match v with JArr vs => Ok vs | _ => Err "invalid type: expected a sequence" end) fields;
  try_map (fun block => fields ← struct_fields ["text"] block; optional "text" de_string fields) blocks.

Definition first_text (blocks : list (option string)) : result string string :=
  ok_or (head (omap id blocks)) "anthropic response missing text".

Definition ollama_from_json (v : Json) : result string string :=
  fields ← struct_fields ["response"] v; required "response" de_string fields.

Section Invoke.
  Context `{U : Unicode} `{T : JsonText} `{N : HttpNet}.

(** [response.error_for_status()?] and [response.json()]. *)
Definition read_response {A} (decode : Json -> result string A) (reply : HttpReply) : result InvokeError A :=
  match reply with
  | Err e => Err (Reqwest e)
  | Ok (status, body) =>
      if decide (400 <= status < 600) then
        Err (Reqwest {| re_transient := false; re_status := Some status; re_text := status_error_text status |})
      else
        match body with
        | Err e => Err (Reqwest e)
        | Ok text =>
            map_err (fun e => Reqwest {| re_transient := false; re_status := None; re_text := decode_error_text e |})
              (v ← json_parse text; decode v)
        end
  end.

Definition read_chat (missing_choices : string) (reply : HttpReply) : result InvokeError LlmResponse :=
  contents ← read_response chat_from_json reply;
  content ← ok_or (head contents) (Message missing_choices);
  text ← map_err Message (content_text content);
  map_err Message (parse_llm_json_text text).

Definition read_anthropic (reply : HttpReply) : result InvokeError LlmResponse :=
  blocks ← read_response anthropic_from_json reply;
  text ← map_err Message (first_text blocks);
  map_err Message (parse_llm_json_text text).

Definition read_ollama (reply : HttpReply) : result InvokeError LlmResponse :=
  text ← read_response ollama_from_json reply;
  map_err Message (parse_llm_json_text (trim text)).

Definition read_custom (reply : HttpReply) : result InvokeError LlmResponse :=
  verdict ← read_response LlmResponse_from_json reply;
  map_err Message (normalize verdict).

(** The request a provider gets, or why none is sent, and the reading of its response. *)
Definition provider_request (p : ResolvedProvider) (j : ClassificationJobPayload) (prompt : string)
    : result InvokeError HttpRequest :=
  match rp_kind p with
  | Ollama => Ok (ollama_request p prompt)
  | LmStudio => Ok (lmstudio_request p prompt)
  | Openai | Vllm | OpenaiCompatible => Ok (openai_request p prompt)
  | Anthropic =>
      if is_empty (rp_api_key p) then Err (Message "anthropic provider requires api_key")
      else Ok (anthropic_request p prompt)
  | CustomJson => Ok (custom_request p j)
  end.

Definition read_reply (kind : ProviderKind) : HttpReply -> result InvokeError LlmResponse :=
  match kind with
  | Ollama => read_ollama
  | LmStudio => read_chat "lm studio response missing choices"
  | Openai | Vllm | OpenaiCompatible => read_chat "openai response missing choices"
  | Anthropic => read_anthropic
  | CustomJson => read_custom
  end.

(** ** Failures *)

Inductive InvocationFailureClass := Retryable | NonRetryable.
Global Instance InvocationFailureClass_eq_dec : EqDecision InvocationFailureClass.
Proof. solve_decision. Defined.

Record InvocationFailure := {
  if_class : InvocationFailureClass;
  if_status : option Z;
  if_reason : string;
  if_output_invalid : bool
}.

Definition is_output_invalid_message (lowered : string) : bool :=
  contains "did not contain valid json object" lowered || contains "invalid response format" lowered ||
  contains "missing choices" lowered || contains "failed to parse" lowered.

Definition error_text (e : InvokeError) : string := match e with Reqwest e => re_text e | Message m => m end.

Definition classify_invocation_failure (e : InvokeError) (failover : FailoverRuntime) : InvocationFailure :=
  let msg := error_text e in
  let lowered := to_ascii_lowercase msg in
  let output_invalid := is_output_invalid_message lowered in
  let failure class status :=
    {| if_class := class; if_status := status; if_reason := msg; if_output_invalid := output_invalid |} in
  let by_text :=
    if contains "timed out" lowered || contains "connection refused" lowered || contains "temporarily unavailable" lowered
    then Retryable else NonRetryable in
  match e with
  | Reqwest e =>
      if re_transient e then failure Retryable None
      else match re_status e with
           | Some status => failure (if is_retryable_status failover status then Retryable else NonRetryable) (Some status)
           | None => failure by_text None
           end
  | Message _ => failure by_text None
  end.

Definition synthesize_insufficient_evidence_verdict : LlmResponse :=
  {| lr_primary_category := "unknown-unclassified"; lr_subcategory := "insufficient-evidence";
     lr_risk_level := "low"; lr_confidence := f32_0_2; lr_recommended_action := action_to_string Monitor |}.

(** ** Properties *)

Lemma read_reply_valid kind reply r : read_reply kind reply = Ok r -> valid_answer r.
Proof.
  assert (forall text, map_err Message (parse_llm_json_text text) = Ok r -> valid_answer r) as Ht.
  { intros text. destruct (parse_llm_json_text text) eqn:E; cbn; [intros [= <-]|done].
    by eapply parse_llm_json_text_valid. }
  destruct kind; cbn; unfold read_chat, read_ollama, read_anthropic, read_custom;
    repeat (intros (? & _ & H)%bind_Ok; revert H); try apply Ht.
  destruct (normalize x) eqn:E; cbn; [intros [= <-]|done]. by apply normalize_valid in E as [? _].
Qed.

Lemma synthesized_valid : valid_answer synthesize_insufficient_evidence_verdict.
Proof. split_and!; [by vm_compute|by left|]. by exists Monitor. Qed.

End Invoke.

(** The job survives the queue. *)
Definition job_ok (j : ClassificationJobPayload) : Prop :=
  is_u64 (cj_requeue_attempt j) /\
  forall v, cj_content_version j = Some v -> - 2 ^ 63 <= v <= i64_max.

Lemma job_round_trip j : job_ok j -> job_from_json (job_to_json j) = Ok j.
Proof.
  intros [Ha Hv]. unfold job_from_json, job_to_json. cbn [struct_fields mbind result_bind].
  assert (forall o : option string, forall s, o = Some s -> de_string (JStr s) = Ok s /\ JStr s <> JNull) as Hs by done.
  do 5 (erewrite required_Ok; [|find_field|reflexivity]; cbn [mbind result_bind]).
  erewrite (optional_Ok _ JStr); [|find_field|apply Hs]. cbn [mbind result_bind].
  erewrite (defaulted_Ok "requires_content"); [|find_field|reflexivity]. cbn [mbind result_bind].
  do 3 (erewrite (optional_Ok _ JStr); [|find_field|apply Hs]; cbn [mbind result_bind]).
  erewrite (optional_Ok _ JInt); [|find_field|].
  2: { intros v E. unfold de_i64, de_int. rewrite decide_True by by apply Hv. done. }
  cbn [mbind result_bind].
  erewrite (optional_Ok _ JStr); [|find_field|apply Hs]. cbn [mbind result_bind].
  rewrite (defaulted_Ok "requeue_attempt" _ _ _ (JInt (cj_requeue_attempt j)) (cj_requeue_attempt j));
    [|find_field|unfold de_usize, de_int; by rewrite decide_True].
  cbn [mbind result_bind]. erewrite (optional_Ok _ JStr); [|find_field|apply Hs]. by destruct j.
Qed.

Lemma job_exact j : exact (job_to_json j) = true.
Proof. destruct j as [? ? ? ? ? [] ? [] [] [] [] [] ? []]; reflexivity. Qed.
