(* ===== verification/Db.v ===== *)
(** * The Postgres tables the policy engine reads and writes

    The tables are lists of rows with the columns of the migrations
    ([services/policy-engine/migrations], [services/admin-api/migrations]) that the queries
    mention; a query is written as the filter, ordering and limit of its SQL text.  The policy
    tables and the admin tables are disjoint, so one record serves both deployments (one shared
    database, or two).

    Every statement runs in a transaction of its own (the code opens none), takes a later time
    stamp than the one before, and may fail: [db_faults] is the script of which statements fail.
    A failed statement leaves the tables as they were; an error in the middle of an operation
    leaves the effects of the statements before it.  JSON columns hold values of [serde_json];
    [SerdeJson] is the (de)serialiser with its round-trip law. *)

From S2P Require Import Prelude RustStr Types.

Class SerdeJson := {
  Value : Type;
  conditions_to_value : Conditions -> Value;
  conditions_from_value : Value -> option Conditions;
  rules_to_value : list PolicyRule -> Value;
  rules_from_value : Value -> option (list PolicyRule);
  conditions_round_trip c : conditions_from_value (conditions_to_value c) = Some c;
  rules_round_trip rs : rules_from_value (rules_to_value rs) = Some rs
}.

(** Identifiers: [Uuid::nil()] is 0, [Uuid::new_v4()] is the next unused number. *)
Definition Uuid := nat.

Record PolicyRow := {
  p_id : Uuid; p_name : string; p_version : string; p_status : string;
  p_created_by : option string; p_created_at : Z
}.
Record RuleRow `{SerdeJson} := {
  rr_policy_id : Uuid; rr_priority : Z; rr_action : string;
  rr_description : option string; rr_conditions : Value
}.
Record VersionRow `{SerdeJson} := {
  v_policy_id : Uuid; v_version : string; v_status : string; v_created_by : option string;
  v_notes : option string; v_rules : Value; v_created_at : Z
}.
Record AuditRow := {
  au_policy_id : option Uuid; au_action : string; au_actor : option string;
  au_version : option string; au_status : option string; au_notes : option string
}.
Record ProfileRow := { ap_id : Uuid; ap_version : string; ap_updated_at : Z }.
Record EntryRow := {
  ae_profile_id : Uuid; ae_category_id : string; ae_subcategory_id : string; ae_enabled : bool
}.
Record ClassificationRow := {
  cl_normalized_key : string; cl_status : string; cl_primary_category : option string;
  cl_subcategory : option string; cl_risk_level : option string; cl_confidence : option float;
  cl_updated_at : Z
}.
Record OverrideRow := {
  o_scope_type : string; o_scope_value : string; o_action : string; o_status : string;
  o_expires_at : option Z; o_updated_at : Z; o_created_at : Z
}.

Record Db `{SerdeJson} := {
  db_policies : list PolicyRow;
  db_policy_rules : list RuleRow;
  db_policy_versions : list VersionRow;
  db_audit : list AuditRow;
  db_profiles : list ProfileRow;
  db_entries : list EntryRow;
  db_classifications : list ClassificationRow;
  db_overrides : list OverrideRow;
  db_clock : Z;
  db_next_uuid : Uuid;
  db_faults : list bool
}.

(** SQL [LIKE]: [%] any text, [_] one character, backslash quotes the next character. *)
Definition continuation_byte : ascii -> bool := between 128 191.
Fixpoint skip_continuation (s : string) : string :=
  match s with
  | String a s' => if continuation_byte a then skip_continuation s' else s
  | "" => ""
  end.
Fixpoint like (p s : string) : bool :=
  match p with
  | "" => is_empty s
  | String c p' =>
      if decide (c = "%"%char) then
        (fix any_suffix s := like p' s || match s with "" => false | String _ s' => any_suffix s' end) s
      else if decide (c = "_"%char) then
        match s with "" => false | String _ s' => like p' (skip_continuation s') end
      else if decide (c = byte 92) then
        match p', s with
        | String q p'', String a s' => bool_decide (q = a) && like p'' s'
        | _, _ => false
        end
      else match s with "" => false | String a s' => bool_decide (c = a) && like p' s' end
  end.

Section Db.
  Context `{J : SerdeJson}.

(** ** Computations on the database *)

Definition DbM (A : Type) : Type := Db -> result string A * Db.

Global Instance dbm_ret : MRet DbM := fun A a db => (Ok a, db).
Global Instance dbm_bind : MBind DbM := fun A B f m db =>
  match m db with
  | (Ok a, db') => f a db'
  | (Err e, db') => (Err e, db')
  end.

Definition lift {A} (r : result string A) : DbM A := fun db => (r, db).

Definition set_tables (pol : list PolicyRow) (rules : list RuleRow) (vers : list VersionRow)
    (aud : list AuditRow) (db : Db) : Db :=
  {| db_policies := pol; db_policy_rules := rules; db_policy_versions := vers; db_audit := aud;
     db_profiles := db_profiles db; db_entries := db_entries db;
     db_classifications := db_classifications db; db_overrides := db_overrides db;
     db_clock := db_clock db; db_next_uuid := db_next_uuid db; db_faults := db_faults db |}.

(** The clock moves and the next entry of the fault script is consumed. *)
Definition tick (db : Db) : Db :=
  {| db_policies := db_policies db; db_policy_rules := db_policy_rules db;
     db_policy_versions := db_policy_versions db; db_audit := db_audit db;
     db_profiles := db_profiles db; db_entries := db_entries db;
     db_classifications := db_classifications db; db_overrides := db_overrides db;
     db_clock := db_clock db + 1; db_next_uuid := db_next_uuid db;
     db_faults := tail (db_faults db) |}.

Definition DB_ERROR : string := "database error".

(** One statement. *)
Definition stmt {A} (f : Db -> A * Db) : DbM A := fun db =>
  let db' := tick db in
  match db_faults db with
  | true :: _ => (Err DB_ERROR, db')
  | _ => let '(a, db'') := f db' in (Ok a, db'')
  end.
Definition select {A} (f : Db -> A) : DbM A := stmt (fun db => (f db, db)).
Definition execute (f : Db -> Db) : DbM unit := stmt (fun db => (tt, f db)).

(** [Uuid::new_v4()]. *)
Definition new_uuid : DbM Uuid := fun db =>
  (Ok (db_next_uuid db),
   {| db_policies := db_policies db; db_policy_rules := db_policy_rules db;
      db_policy_versions := db_policy_versions db; db_audit := db_audit db;
      db_profiles := db_profiles db; db_entries := db_entries db;
      db_classifications := db_classifications db; db_overrides := db_overrides db;
      db_clock := db_clock db; db_next_uuid := S (db_next_uuid db); db_faults := db_faults db |}).

(** [ORDER BY key DESC]. *)
Definition order_desc {A} (key : A -> Z) (l : list A) : list A := sort_by_key (fun x => - key x)%Z l.

(** A loop of statements: [for x in l { .. .await?; }]. *)
Fixpoint for_each {A} (f : A -> DbM unit) (l : list A) : DbM unit :=
  match l with
  | [] => mret tt
  | x :: l' => _ ← f x; for_each f l'
  end.

(** No statement of the script fails. *)
Definition healthy (db : Db) : Prop := Forall (fun b => b = false) (db_faults db).

Lemma dbm_bind_ok {A B} (m : DbM A) (f : A -> DbM B) db a db' :
  m db = (Ok a, db') -> (m ≫= f) db = f a db'.
Proof. unfold mbind, dbm_bind. by intros ->. Qed.
Lemma dbm_bind_err {A B} (m : DbM A) (f : A -> DbM B) db e db' :
  m db = (Err e, db') -> (m ≫= f) db = (Err e, db').
Proof. unfold mbind, dbm_bind. by intros ->. Qed.

Lemma stmt_healthy {A} (f : Db -> A * Db) db :
  healthy db -> stmt f db = (Ok (f (tick db)).1, (f (tick db)).2).
Proof.
  unfold healthy, stmt. destruct (f (tick db)). destruct 1 as [|b l -> _]; done.
Qed.
Lemma select_healthy {A} (f : Db -> A) db :
  healthy db -> select f db = (Ok (f (tick db)), tick db).
Proof. intros H. unfold select. by rewrite stmt_healthy. Qed.
Lemma execute_healthy f db : healthy db -> execute f db = (Ok tt, f (tick db)).
Proof. intros H. unfold execute. by rewrite stmt_healthy. Qed.
Lemma healthy_tick db : healthy db -> healthy (tick db).
Proof. unfold healthy; cbn. destruct 1; [constructor|done]. Qed.

End Db.

(** ** A concrete serialiser and an empty database, for the witnesses *)
Module DbDemo.

#[refine] Instance json : SerdeJson := {|
  Value := Conditions + list PolicyRule;
  conditions_to_value := inl;
  conditions_from_value v := match v with inl c => Some c | inr _ => None end;
  rules_to_value := inr;
  rules_from_value v := match v with inr rs => Some rs | inl _ => None end
|}.
Proof. all: done. Defined.

Definition empty : Db :=
  {| db_policies := []; db_policy_rules := []; db_policy_versions := []; db_audit := [];
     db_profiles := []; db_entries := []; db_classifications := []; db_overrides := [];
     db_clock := 0; db_next_uuid := 1; db_faults := [] |}.

Definition with_activation (profiles : list ProfileRow) (entries : list EntryRow) (db : Db) : Db :=
  {| db_policies := db_policies db; db_policy_rules := db_policy_rules db;
     db_policy_versions := db_policy_versions db; db_audit := db_audit db;
     db_profiles := profiles; db_entries := entries;
     db_classifications := db_classifications db; db_overrides := db_overrides db;
     db_clock := db_clock db; db_next_uuid := db_next_uuid db; db_faults := db_faults db |}.

End DbDemo.
