(* ===== verification/Io.v ===== *)
(** * Computations of the workers and of the admin API

    A computation reads and changes the tables [S] of the database and sends commands to other
    services, which are kept in a trace of [Eff].  Every statement and command takes a millisecond
    and may fail: [io_faults] is the script of which do, and a failed one changes nothing.  A
    connection that cannot be opened is a failed command.

    In a transaction [NOW()] is the time it began, and an error in its body or in its commit
    restores the tables. *)

From S2P Require Import Prelude Db.

Local Open Scope Z_scope.

Record Io (S Eff : Type) := mkIo {
  io_now : Z;
  io_tx : option Z;
  io_faults : list bool;
  io_next_uuid : Uuid;
  io_trace : list Eff;
  io_tables : S
}.
Arguments mkIo {S Eff}.
Arguments io_now {S Eff}.
Arguments io_tx {S Eff}.
Arguments io_faults {S Eff}.
Arguments io_next_uuid {S Eff}.
Arguments io_trace {S Eff}.
Arguments io_tables {S Eff}.

(** Why a statement failed: a constraint, or anything else. *)
Inductive SqlError := Violation (constraint : string) | SqlFailure.

Definition M (S Eff E A : Type) : Type := Io S Eff -> result E A * Io S Eff.

Section Computations.
  Context {S Eff : Type}.
  Abbreviation IoM := (M S Eff).

Global Instance io_ret E : MRet (IoM E) := fun A a w => (Ok a, w).
Global Instance io_bind E : MBind (IoM E) := fun A B f m w =>
  match m w with
  | (Ok a, w') => f a w'
  | (Err e, w') => (Err e, w')
  end.
Definition of_result {E A} (r : result E A) : IoM E A := fun w => (r, w).

Definition with_tables (s : S) (w : Io S Eff) : Io S Eff :=
  mkIo (io_now w) (io_tx w) (io_faults w) (io_next_uuid w) (io_trace w) s.
Definition with_tx (tx : option Z) (w : Io S Eff) : Io S Eff :=
  mkIo (io_now w) tx (io_faults w) (io_next_uuid w) (io_trace w) (io_tables w).
(** The clock moves, and one entry of the fault script is used. *)
Definition elapse (w : Io S Eff) : Io S Eff :=
  mkIo (io_now w + 1) (io_tx w) (tail (io_faults w)) (io_next_uuid w) (io_trace w) (io_tables w).

(** [NOW()] of SQL, and [Utc::now()]. *)
Definition sql_now (w : Io S Eff) : Z := default (io_now w) (io_tx w).
Definition utc_now {E} : IoM E Z := fun w => (Ok (io_now w), w).
Definition new_v4 {E} : IoM E Uuid := fun w =>
  (Ok (io_next_uuid w),
   mkIo (io_now w) (io_tx w) (io_faults w) (Datatypes.S (io_next_uuid w)) (io_trace w) (io_tables w)).

Definition step {A} (f : Io S Eff -> A * Io S Eff) : IoM string A := fun w =>
  match io_faults w with
  | true :: _ => (Err DB_ERROR, elapse w)
  | _ => let '(a, w') := f (elapse w) in (Ok a, w')
  end.
(** A statement: a function of the time and the tables. *)
Definition sql {A} (f : Z -> S -> A * S) : IoM string A :=
  step (fun w => let '(a, s) := f (sql_now w) (io_tables w) in (a, with_tables s w)).
Definition fetch {A} (f : Z -> S -> A) : IoM string A := sql (fun now s => (f now s, s)).
Definition update (f : Z -> S -> S) : IoM string unit := sql (fun now s => (tt, f now s)).
Definition command (e : Eff) : IoM string unit :=
  step (fun w => (tt, mkIo (io_now w) (io_tx w) (io_faults w) (io_next_uuid w) (io_trace w ++ [e]) (io_tables w))).

(** [match m.await { Ok .. Err .. }], [let _ = m.await], and [tokio::time::sleep]. *)
Definition outcome {E F A} (m : IoM E A) : IoM F (result E A) := fun w => let '(r, w') := m w in (Ok r, w').
Definition dropped {E F A} (m : IoM E A) : IoM F unit := fun w => (Ok tt, (m w).2).
Definition pause {E} (ms : Z) : IoM E unit := fun w =>
  (Ok tt, mkIo (io_now w + ms) (io_tx w) (io_faults w) (io_next_uuid w) (io_trace w) (io_tables w)).

(** [.map_err(f)?]. *)
Definition map_error {E F A} (f : E -> F) (m : IoM E A) : IoM F A := fun w => let '(r, w') := m w in (map_err f r, w').

(** A statement that may violate a constraint of the schema, named by the error of [f]. *)
Definition checked {A} (f : Z -> S -> result string (A * S)) : IoM SqlError A := fun w =>
  match io_faults w with
  | true :: _ => (Err SqlFailure, elapse w)
  | _ =>
      let w' := elapse w in
      match f (sql_now w') (io_tables w') with
      | Ok (a, s) => (Ok a, with_tables s w')
      | Err c => (Err (Violation c), w')
      end
  end.

Fixpoint each {E A} (f : A -> IoM E unit) (l : list A) : IoM E unit :=
  match l with
  | [] => mret tt
  | x :: l' => _ ← f x; each f l'
  end.

(** [pool.begin()], the body, [tx.commit()]. *)
Definition transaction {A} (m : IoM string A) : IoM string A := fun w =>
  match step (fun w => (tt, w)) w with
  | (Err e, w0) => (Err e, w0)
  | (Ok _, w0) =>
      match (a ← m; _ ← step (fun w => (tt, w)); mret a) (with_tx (Some (io_now w0)) w0) with
      | (Ok a, w1) => (Ok a, with_tx None w1)
      | (Err e, w1) => (Err e, with_tx None (with_tables (io_tables w0) w1))
      end
  end.

(** ** What a computation may do to the tables

    [keeps R m Q]: however [m] ends, the supply of identifiers and the tables have moved along [R];
    an answer satisfies [Q]. *)

Definition view (w : Io S Eff) : Uuid * S := (io_next_uuid w, io_tables w).

Definition keeps {E A} (R : relation (Uuid * S)) (m : IoM E A) (Q : A -> Prop) : Prop :=
  forall w, (io_next_uuid w <= io_next_uuid (m w).2)%nat /\ R (view w) (view (m w).2) /\
    match (m w).1 with Ok a => Q a | Err _ => True end.

(** Identifiers may be taken at any time. *)
Class Supply (R : relation (Uuid * S)) : Prop := supply n n' s : (n <= n')%nat -> R (n, s) (n', s).

(** A relation on the tables alone. *)
Definition on_tables (R : relation S) : relation (Uuid * S) := fun a b => R a.2 b.2.
Global Instance on_tables_preorder R : PreOrder R -> PreOrder (on_tables R).
Proof. intros HR. unfold on_tables. split; [intros a; reflexivity|]. intros a b c H1 H2. by transitivity (b.2). Qed.
Global Instance on_tables_supply R : PreOrder R -> Supply (on_tables R).
Proof. intros HR n n' s _. unfold on_tables. reflexivity. Qed.

Section Keeps.
  Context (R : relation (Uuid * S)) {HR : PreOrder R} {HS : Supply R}.

Lemma keeps_ret {E A} (a : A) (Q : A -> Prop) : Q a -> keeps R (mret a : IoM E A) Q.
Proof. intros H w. split_and!; [done|reflexivity|done]. Qed.
Lemma keeps_bind {E A B} (m : IoM E A) (f : A -> IoM E B) Q P :
  keeps R m Q -> (forall a, Q a -> keeps R (f a) P) -> keeps R (m ≫= f) P.
Proof.
  intros Hm Hf w. unfold mbind, io_bind. destruct (Hm w) as (H0 & H1 & H2). destruct (m w) as [[a|e] w1]; cbn in *; [|done].
  destruct (Hf a H2 w1) as (H3 & H4 & H5). split_and!; [lia|by transitivity (view w1)|done].
Qed.
Lemma keeps_then {E A B} (m : IoM E A) (f : A -> IoM E B) P :
  keeps R m (fun _ => True) -> (forall a, keeps R (f a) P) -> keeps R (m ≫= f) P.
Proof. intros Hm Hf. eapply keeps_bind; [exact Hm|]. by intros a _. Qed.
Lemma keeps_result {E A} (r : result E A) (Q : A -> Prop) :
  (forall a, r = Ok a -> Q a) -> keeps R (of_result r) Q.
Proof. intros H w. split_and!; [done|reflexivity|]. cbn. destruct r; [by apply H|done]. Qed.
Lemma keeps_weaken {E A} (m : IoM E A) (Q P : A -> Prop) : keeps R m Q -> (forall a, Q a -> P a) -> keeps R m P.
Proof. intros H HP w. destruct (H w) as (H0 & H1 & H2). split_and!; [done..|]. destruct ((m w).1); [by apply HP|done]. Qed.
Lemma keeps_outcome {E F A} (m : IoM E A) Q :
  keeps R m Q -> keeps R (outcome m : IoM F _) (fun r => match r with Ok a => Q a | Err _ => True end).
Proof. intros H w. unfold outcome. specialize (H w). by destruct (m w). Qed.
Lemma keeps_dropped {E F A} (m : IoM E A) Q : keeps R m Q -> keeps R (dropped m : IoM F unit) (fun _ => True).
Proof. intros H w. unfold dropped. by destruct (H w) as (? & ? & _). Qed.
Lemma keeps_pause {E} ms : keeps R (pause ms : IoM E unit) (fun _ => True).
Proof. intros w. split_and!; [done|reflexivity|done]. Qed.
Lemma keeps_now {E} : keeps R (utc_now : IoM E Z) (fun _ => True).
Proof. intros w. split_and!; [done|reflexivity|done]. Qed.
Lemma keeps_sql {A} (f : Z -> S -> A * S) (Q : A -> Prop) :
  (forall now n s, R (n, s) (n, (f now s).2) /\ Q (f now s).1) -> keeps R (sql f) Q.
Proof.
  intros H w. unfold sql, step. specialize (H (sql_now (elapse w)) (io_next_uuid w) (io_tables w)). unfold view.
  destruct (io_faults w) as [|[] ?]; [|split_and!; [done|reflexivity|done]|]; cbn in *; destruct (f _ _); cbn in *;
    split_and!; naive_solver.
Qed.
Lemma keeps_fetch {A} (f : Z -> S -> A) : keeps R (fetch f) (fun _ => True).
Proof. apply keeps_sql. intros now n s. split; [reflexivity|done]. Qed.
Lemma keeps_update f : (forall now n s, R (n, s) (n, f now s)) -> keeps R (update f) (fun _ => True).
Proof. intros H. apply keeps_sql. intros now n s. split; [apply H|done]. Qed.
Lemma keeps_command e : keeps R (command e) (fun _ => True).
Proof. intros w. unfold command, step. destruct (io_faults w) as [|[] ?]; split_and!; first [done|reflexivity]. Qed.
Lemma keeps_v4 {E} : keeps R (new_v4 : IoM E Uuid) (fun _ => True).
Proof. intros w. split_and!; [cbn; lia|apply supply; cbn; lia|done]. Qed.
(** A statement with a new identifier. *)
Lemma keeps_v4_sql {A} (f : Uuid -> Z -> S -> A * S) :
  (forall now n s, R (n, s) (Datatypes.S n, (f n now s).2)) -> keeps R (id ← new_v4; sql (f id)) (fun _ => True).
Proof.
  intros H w. unfold mbind, io_bind, new_v4, sql, step, view. cbn.
  destruct (io_faults w) as [|[] ?]; cbn; [|split_and!; [by apply Nat.le_succ_diag_r|by apply supply, Nat.le_succ_diag_r|done]|];
    match goal with |- context [f ?n ?now ?s] => specialize (H now n s); destruct (f n now s) end; cbn in *;
    (split_and!; [by apply Nat.le_succ_diag_r|done|done]).
Qed.
Lemma keeps_each {E A} (f : A -> IoM E unit) l :
  (forall x, x ∈ l -> keeps R (f x) (fun _ => True)) -> keeps R (each f l) (fun _ => True).
Proof.
  induction l as [|x l IH]; intros H; cbn [each]; [by apply keeps_ret|].
  apply keeps_then; [apply H; by left|]. intros _. apply IH. intros y Hy. apply H. by right.
Qed.
Lemma keeps_noop w : let w' := (step (fun w : Io S Eff => (tt, w)) w).2 in view w' = view w.
Proof. unfold step. by destruct (io_faults w) as [|[] ?]. Qed.
Lemma keeps_transaction {A} (m : IoM string A) Q : keeps R m Q -> keeps R (transaction m) Q.
Proof.
  intros H w. unfold transaction. pose proof (keeps_noop w) as Hw. cbv zeta in Hw.
  destruct (step _ w) as [[u|e] w0]; cbn [snd] in Hw; injection Hw as Hn Ht; [|unfold view; cbn; rewrite Hn, Ht; split_and!; [done|reflexivity|done]].
  unfold mbind, io_bind. destruct (H (with_tx (Some (io_now w0)) w0)) as (H0 & H1 & H2). unfold view in *. cbn in *.
  rewrite Hn, Ht in *. destruct (m _) as [[a|e] w1]; cbn in *; [|split_and!; [done|by apply supply|done]].
  pose proof (keeps_noop w1) as Hw1. cbv zeta in Hw1. unfold view in Hw1.
  destruct (step _ w1) as [[[]|e] w2]; cbn in *; injection Hw1 as Hn1 Ht1; rewrite Hn1, ?Ht1; [done|].
  split_and!; [done|by apply supply|done].
Qed.
End Keeps.

Lemma fetch_view {A} (f : Z -> S -> A) w : view (fetch f w).2 = view w.
Proof. unfold fetch, sql, step. by destruct (io_faults w) as [|[] ?]. Qed.
Lemma command_view e w : view (command e w).2 = view w.
Proof. unfold command, step. by destruct (io_faults w) as [|[] ?]. Qed.
Lemma view_eq w w' : view w' = view w -> io_next_uuid w' = io_next_uuid w /\ io_tables w' = io_tables w.
Proof. by intros [= -> ->]. Qed.

(** A transaction fails and leaves the tables, or does what its body does. *)
Lemma transaction_cases {A} (m : IoM string A) w :
  let rw := transaction m w in
  is_ok rw.1 = false /\ io_tables rw.2 = io_tables w /\
    (io_next_uuid rw.2 = io_next_uuid w \/ exists w0, view w0 = view w /\ io_next_uuid rw.2 = io_next_uuid (m w0).2) \/
  exists a w0 w1, view w0 = view w /\ m w0 = (Ok a, w1) /\ rw.1 = Ok a /\ view rw.2 = view w1.
Proof.
  cbv zeta. unfold transaction. pose proof (keeps_noop w) as Hw. cbv zeta in Hw.
  destruct (step _ w) as [[u|e] w0]; cbn [snd] in Hw; apply view_eq in Hw as [Hn Ht]; [|left; by split_and!; [..|left]].
  set (w0' := with_tx _ w0). assert (view w0' = view w) as Hv by (unfold view; cbn; by rewrite Hn, Ht).
  unfold mbind, io_bind. destruct (m w0') as [[a|e] w1] eqn:Em; cbn.
  2: { left. split_and!; [done..|]. right. exists w0'. by rewrite Em. }
  pose proof (keeps_noop w1) as Hw1. cbv zeta in Hw1.
  destruct (step _ w1) as [[[]|e] w2]; cbn in *; apply view_eq in Hw1 as [Hn1 Ht1].
  - right. exists a, w0', w1. split_and!; [done..|]. unfold view. cbn. congruence.
  - left. split_and!; [done..|]. right. exists w0'. rewrite Em. done.
Qed.

(** Runs that answer. *)
Lemma io_bind_Ok {E A B} (m : IoM E A) (f : A -> IoM E B) w b w' :
  (m ≫= f) w = (Ok b, w') -> exists a w1, m w = (Ok a, w1) /\ f a w1 = (Ok b, w').
Proof. unfold mbind, io_bind. destruct (m w) as [[a|e] w1]; [by eauto|done]. Qed.
Lemma map_error_Ok {E F A} (g : E -> F) (m : IoM E A) w a w' : map_error g m w = (Ok a, w') -> m w = (Ok a, w').
Proof. unfold map_error. destruct (m w) as [[b|e] w1]; [|done]. by intros [= <- <-]. Qed.
Lemma io_bind_run {E A B} (m : IoM E A) (f : A -> IoM E B) w a w1 : m w = (Ok a, w1) -> (m ≫= f) w = f a w1.
Proof. unfold mbind, io_bind. by intros ->. Qed.
Lemma sql_Ok {A} (f : Z -> S -> A * S) w a w' :
  sql f w = (Ok a, w') -> exists now, a = (f now (io_tables w)).1 /\ view w' = (io_next_uuid w, (f now (io_tables w)).2).
Proof.
  unfold sql, step. destruct (io_faults w) as [|[] ?]; [|done|]; cbn; destruct (f _ _) eqn:E; intros [= <- <-];
    (eexists; rewrite E; split; [done|]; by rewrite ?E).
Qed.

(** The rule for transactions: only what the whole body does counts. *)
Lemma keeps_atomic {A} (R : relation (Uuid * S)) `{!PreOrder R, !Supply R} (m : IoM string A) :
  keeps (fun _ _ => True) m (fun _ => True) ->
  (forall w a w1, m w = (Ok a, w1) -> R (view w) (view w1)) -> keeps R (transaction m) (fun _ => True).
Proof.
  intros Hm HR w. destruct (transaction_cases m w) as [(H1 & H2 & H3)|(a & w0 & w1 & Hv & Hrun & H1 & H2)].
  - assert (io_next_uuid w <= io_next_uuid (transaction m w).2)%nat as Hn.
    { destruct H3 as [->|(w0 & [<- _]%view_eq & ->)]; [done|apply Hm]. }
    split_and!; [done| |by destruct (transaction m w) as [[] ?]]. unfold view. rewrite H2. by apply supply.
  - specialize (HR _ _ _ Hrun). rewrite Hv, <- H2 in HR. destruct (Hm w0) as (Hn & _ & _). rewrite Hrun in Hn. cbn in Hn.
    apply view_eq in Hv as [Hv _]. apply view_eq in H2 as [H2 _]. split_and!; [lia|done|by rewrite H1].
Qed.

(** ** Triples

    [triple P m Q I]: from tables that satisfy [P], an answer leaves [Q] and an error leaves [I]. *)

Definition triple {E A} (P : S -> Prop) (m : IoM E A) (Q : A -> S -> Prop) (I : S -> Prop) : Prop :=
  forall w, P (io_tables w) ->
    match m w with
    | (Ok a, w') => Q a (io_tables w')
    | (Err _, w') => I (io_tables w')
    end.

Section Triples.
  Context (I : S -> Prop).

Lemma triple_ret {E A} (a : A) (P : S -> Prop) (Q : A -> S -> Prop) :
  (forall s, P s -> Q a s) -> triple P (mret a : IoM E A) Q I.
Proof. intros H w Hw. by apply H. Qed.
Lemma triple_bind {E A B} (m : IoM E A) (f : A -> IoM E B) P Q R :
  triple P m Q I -> (forall a, triple (Q a) (f a) R I) -> triple P (m ≫= f) R I.
Proof.
  intros Hm Hf w Hw. unfold mbind, io_bind. specialize (Hm w Hw). destruct (m w) as [[a|e] w1]; [by apply Hf|done].
Qed.
Lemma triple_result {E A} (r : result E A) (P : S -> Prop) (Q : A -> S -> Prop) :
  (forall s, P s -> I s) -> (forall a s, r = Ok a -> P s -> Q a s) -> triple P (of_result r) Q I.
Proof. intros HI HQ w Hw. unfold of_result. destruct r; [by apply HQ|by apply HI]. Qed.
Lemma triple_weaken {E A} (m : IoM E A) (P P' : S -> Prop) (Q Q' : A -> S -> Prop) :
  triple P m Q I -> (forall s, P' s -> P s) -> (forall a s, Q a s -> Q' a s) -> triple P' m Q' I.
Proof. intros H HP HQ w Hw. specialize (H w (HP _ Hw)). destruct (m w) as [[] ?]; auto. Qed.
Lemma triple_map_error {E F A} (f : E -> F) (m : IoM E A) P Q : triple P m Q I -> triple P (map_error f m) Q I.
Proof. intros H w Hw. unfold map_error. specialize (H w Hw). by destruct (m w) as [[] ?]. Qed.
Lemma triple_outcome {E F A} (m : IoM E A) P Q :
  triple P m Q I -> triple P (outcome m : IoM F _) (fun r s => match r with Ok a => Q a s | Err _ => I s end) I.
Proof. intros H w Hw. unfold outcome. specialize (H w Hw). by destruct (m w) as [[] ?]. Qed.
Lemma triple_dropped {E F A} (m : IoM E A) P (Q : A -> S -> Prop) :
  triple P m Q I -> (forall a s, Q a s -> I s) -> triple P (dropped m : IoM F unit) (fun _ => I) I.
Proof. intros H HQ w Hw. unfold dropped. specialize (H w Hw). destruct (m w) as [[] ?]; eauto. Qed.
Lemma triple_now {E} P : triple P (utc_now : IoM E Z) (fun _ => P) I.
Proof. by intros w Hw. Qed.
Lemma triple_v4 {E} P : triple P (new_v4 : IoM E Uuid) (fun _ => P) I.
Proof. by intros w Hw. Qed.
Lemma triple_sql {A} (f : Z -> S -> A * S) (P : S -> Prop) (Q : A -> S -> Prop) :
  (forall s, P s -> I s) -> (forall now s, P s -> Q (f now s).1 (f now s).2) -> triple P (sql f) Q I.
Proof.
  intros HI HQ w Hw. unfold sql, step. destruct (io_faults w) as [|[] fs]; [|by apply HI|];
    specialize (HQ (sql_now (elapse w)) (io_tables w) Hw); cbn; by destruct (f _ _).
Qed.
Lemma triple_update f (P Q : S -> Prop) :
  (forall s, P s -> I s) -> (forall now s, P s -> Q (f now s)) -> triple P (update f) (fun _ => Q) I.
Proof. intros HI HQ. by apply triple_sql. Qed.
Lemma triple_fetch {A} (f : Z -> S -> A) (P : S -> Prop) :
  (forall s, P s -> I s) -> triple P (fetch f) (fun a s => P s /\ exists now, a = f now s) I.
Proof. intros HI. apply triple_sql; [done|]. cbn. eauto. Qed.
Lemma triple_checked {A} (f : Z -> S -> result string (A * S)) (P : S -> Prop) (Q : A -> S -> Prop) :
  (forall s, P s -> I s) -> (forall now s a s', P s -> f now s = Ok (a, s') -> Q a s') -> triple P (checked f) Q I.
Proof.
  intros HI HQ w Hw. unfold checked.
  destruct (io_faults w) as [|[] fs]; [|by apply HI|]; cbn; destruct (f _ _) as [[a s']|e] eqn:E; cbn; eauto.
Qed.
Lemma triple_each {E A} (f : A -> IoM E unit) (P : S -> Prop) l :
  (forall x, x ∈ l -> triple P (f x) (fun _ => P) I) -> triple P (each f l) (fun _ => P) I.
Proof.
  induction l as [|x l IH]; intros H; cbn [each]; [by apply triple_ret|].
  eapply triple_bind; [apply H; by left|]. intros u. apply IH. intros y Hy. apply H. by right.
Qed.
Lemma triple_transaction {A} (m : IoM string A) (P : S -> Prop) (Q : A -> S -> Prop) :
  (forall s, P s -> I s) -> triple P m Q (fun _ => True) -> triple P (transaction m) Q I.
Proof.
  intros HI Hm w Hw. destruct (transaction_cases m w) as [(H1 & H2 & _)|(a & w0 & w1 & Hv & Hrun & H1 & H2)].
  - destruct (transaction m w) as [[] ?]; [done|]. cbn in *. rewrite H2. by apply HI.
  - apply view_eq in Hv as [_ Hv]. apply view_eq in H2 as [_ H2]. specialize (Hm w0 ltac:(by rewrite Hv)). rewrite Hrun in Hm.
    destruct (transaction m w) as [r w']. cbn in *. subst r. by rewrite H2.
Qed.

End Triples.

(** ** Runs without failures *)

(** The script has no failure left. *)
Definition calm (w : Io S Eff) : Prop := io_faults w = [].

Lemma step_calm {A} (f : Io S Eff -> A * Io S Eff) w :
  calm w -> step f w = let '(a, w') := f (elapse w) in (Ok a, w').
Proof. unfold calm, step. by intros ->. Qed.
Lemma update_calm f w :
  calm w -> update f w = (Ok tt, with_tables (f (sql_now (elapse w)) (io_tables w)) (elapse w)).
Proof. intros H. unfold update, sql. by rewrite step_calm. Qed.
Lemma fetch_calm {A} (f : Z -> S -> A) w :
  calm w -> fetch f w = (Ok (f (sql_now (elapse w)) (io_tables w)), elapse w).
Proof. intros H. unfold fetch, sql. rewrite step_calm by done. by destruct w. Qed.
Definition told (e : Eff) (w : Io S Eff) : Io S Eff :=
  mkIo (io_now w) (io_tx w) (io_faults w) (io_next_uuid w) (io_trace w ++ [e]) (io_tables w).
Lemma command_calm e w : calm w -> command e w = (Ok tt, told e (elapse w)).
Proof. intros H. unfold command. by rewrite step_calm. Qed.
Lemma transaction_calm {A} (m : IoM string A) w a w1 :
  calm w -> m (with_tx (Some (io_now w + 1)) (elapse w)) = (Ok a, w1) -> calm w1 ->
  transaction m w = (Ok a, with_tx None (elapse w1)).
Proof.
  intros Hw Hm H1. unfold transaction. rewrite step_calm by done. cbn. unfold mbind, io_bind. rewrite Hm.
  by rewrite step_calm.
Qed.
Lemma calm_elapse w : calm w -> calm (elapse w).
Proof. unfold calm. cbn. by intros ->. Qed.

End Computations.
