(* ===== verification/Wp.v ===== *)
(** * Weakest preconditions of computations

    [wp m Q I w]: run from [w], the computation [m] ends with an answer that satisfies [Q], or with
    an error that satisfies [I]; both may speak of the clock, the trace and the tables.  One rule
    for each kind of statement; the tactic [wp] takes a computation apart down to its branches.

    [atomic] is a transaction whose body fails with errors of its own: leaving it by [?] drops the
    transaction, which restores the tables. *)

From S2P Require Import Prelude Db Io.

Local Open Scope Z_scope.

Section Wp.
  Context {S Eff : Type}.
  Abbreviation IoM := (M S Eff).
  Abbreviation World := (Io S Eff).

Definition atomic {E A} (err : string -> E) (m : IoM E A) : IoM E A := fun w =>
  match step (fun w => (tt, w)) w with
  | (Err e, w0) => (Err (err e), w0)
  | (Ok _, w0) =>
      match (a ← m; _ ← map_error err (step (fun w => (tt, w))); mret a) (with_tx (Some (io_now w0)) w0) with
      | (Ok a, w1) => (Ok a, with_tx None w1)
      | (Err e, w1) => (Err e, with_tx None (with_tables (io_tables w0) w1))
      end
  end.

(** A task that is spawned and not waited for. *)
Definition emit {E} (e : Eff) : IoM E unit := fun w => (Ok tt, told e w).

Definition wp {E A} (m : IoM E A) (Q : A -> World -> Prop) (I : E -> World -> Prop) (w : World) : Prop :=
  match m w with
  | (Ok a, w') => Q a w'
  | (Err e, w') => I e w'
  end.

Lemma wp_weaken {E A} (m : IoM E A) (Q Q' : A -> World -> Prop) (I I' : E -> World -> Prop) w :
  wp m Q I w -> (forall a w', Q a w' -> Q' a w') -> (forall e w', I e w' -> I' e w') -> wp m Q' I' w.
Proof. unfold wp. destruct (m w) as [[] ?]; eauto. Qed.
Lemma wp_conj {E A} (m : IoM E A) (Q Q' : A -> World -> Prop) (I I' : E -> World -> Prop) w :
  wp m Q I w -> wp m Q' I' w -> wp m (fun a w' => Q a w' /\ Q' a w') (fun e w' => I e w' /\ I' e w') w.
Proof. unfold wp. destruct (m w) as [[] ?]; eauto. Qed.
Lemma wp_ret {E A} (a : A) Q (I : E -> World -> Prop) w : Q a w -> wp (mret a : IoM E A) Q I w.
Proof. done. Qed.
Lemma wp_bind {E A B} (m : IoM E A) (f : A -> IoM E B) Q I w :
  wp m (fun a w' => wp (f a) Q I w') I w -> wp (m ≫= f) Q I w.
Proof. unfold wp, mbind, io_bind. by destruct (m w) as [[] ?]. Qed.
(** Two statements taken together. *)
Lemma wp_both {E A B D} (m : IoM E A) (c : A -> IoM E B) (k : B -> IoM E D) R Q I w :
  wp (a ← m; c a) R I w -> (forall b w', R b w' -> wp (k b) Q I w') -> wp (a ← m; b ← c a; k b) Q I w.
Proof.
  unfold wp, mbind, io_bind. destruct (m w) as [[a|e] w1]; [|done]. destruct (c a w1) as [[b|e] w2]; [|done]. intros H Hk. by apply Hk.
Qed.
Lemma wp_result {E A} (r : result E A) Q I w :
  (forall a, r = Ok a -> Q a w) -> (forall e, r = Err e -> I e w) -> wp (of_result r) Q I w.
Proof. unfold wp, of_result. destruct r; eauto. Qed.
Lemma wp_map_error {E F A} (g : E -> F) (m : IoM E A) Q (I : F -> World -> Prop) w :
  wp m Q (fun e => I (g e)) w -> wp (map_error g m) Q I w.
Proof. unfold wp, map_error. by destruct (m w) as [[] ?]. Qed.
Lemma wp_outcome {E F A} (m : IoM E A) (Q : result E A -> World -> Prop) (I : F -> World -> Prop) w :
  wp m (fun a => Q (Ok a)) (fun e => Q (Err e)) w -> wp (outcome m : IoM F _) Q I w.
Proof. unfold wp, outcome. by destruct (m w) as [[] ?]. Qed.
Lemma wp_dropped {E F A} (m : IoM E A) (Q : unit -> World -> Prop) (I : F -> World -> Prop) w :
  wp m (fun _ => Q tt) (fun _ => Q tt) w -> wp (dropped m : IoM F unit) Q I w.
Proof. unfold wp, dropped. by destruct (m w) as [[] ?]. Qed.
Lemma wp_now {E} Q (I : E -> World -> Prop) w : Q (io_now w) w -> wp (utc_now : IoM E Z) Q I w.
Proof. done. Qed.
Definition took_uuid (w : World) : World :=
  mkIo (io_now w) (io_tx w) (io_faults w) (Datatypes.S (io_next_uuid w)) (io_trace w) (io_tables w).
Lemma wp_v4 {E} Q (I : E -> World -> Prop) w : Q (io_next_uuid w) (took_uuid w) -> wp (new_v4 : IoM E Uuid) Q I w.
Proof. done. Qed.
Lemma wp_emit {E} e Q (I : E -> World -> Prop) w : Q tt (told e w) -> wp (emit e : IoM E unit) Q I w.
Proof. done. Qed.
Lemma wp_step {A} (f : World -> A * World) Q I w :
  I DB_ERROR (elapse w) -> Q (f (elapse w)).1 (f (elapse w)).2 -> wp (step f) Q I w.
Proof. unfold wp, step. destruct (io_faults w) as [|[] ?]; [|done|]; by destruct (f (elapse w)). Qed.
Lemma wp_sql {A} (f : Z -> S -> A * S) Q I w :
  I DB_ERROR (elapse w) ->
  Q (f (sql_now (elapse w)) (io_tables w)).1 (with_tables (f (sql_now (elapse w)) (io_tables w)).2 (elapse w)) ->
  wp (sql f) Q I w.
Proof. intros HI HQ. apply wp_step; [done|]. cbn. by destruct (f _ _). Qed.
Lemma wp_fetch {A} (f : Z -> S -> A) Q I w :
  I DB_ERROR (elapse w) -> Q (f (sql_now (elapse w)) (io_tables w)) (elapse w) -> wp (fetch f) Q I w.
Proof. intros HI HQ. apply wp_sql; [done|]. by destruct w. Qed.
Lemma wp_update f Q I w :
  I DB_ERROR (elapse w) -> Q tt (with_tables (f (sql_now (elapse w)) (io_tables w)) (elapse w)) -> wp (update f) Q I w.
Proof. intros HI HQ. by apply wp_sql. Qed.
Lemma wp_command e Q I w : I DB_ERROR (elapse w) -> Q tt (told e (elapse w)) -> wp (command e) Q I w.
Proof. intros HI HQ. by apply wp_step. Qed.
Lemma wp_checked {A} (f : Z -> S -> result string (A * S)) Q I w :
  I SqlFailure (elapse w) ->
  (forall c, f (sql_now (elapse w)) (io_tables w) = Err c -> I (Violation c) (elapse w)) ->
  (forall a s, f (sql_now (elapse w)) (io_tables w) = Ok (a, s) -> Q a (with_tables s (elapse w))) ->
  wp (checked f) Q I w.
Proof.
  intros HI HV HQ. unfold wp, checked. destruct (io_faults w) as [|[] ?]; [|done|]; cbn in *;
    destruct (f _ _) as [[a s]|c]; eauto.
Qed.

(** The body runs at a fixed time; nothing of it stays when it, or the commit, fails. *)
Lemma wp_atomic {E A} (err : string -> E) (m : IoM E A) Q I w :
  I (err DB_ERROR) (elapse w) ->
  wp m (fun a w1 => Q a (with_tx None (elapse w1)) /\
                    I (err DB_ERROR) (with_tx None (with_tables (io_tables w) (elapse w1))))
       (fun e w1 => I e (with_tx None (with_tables (io_tables w) w1)))
       (with_tx (Some (io_now w + 1)) (elapse w)) ->
  wp (atomic err m) Q I w.
Proof.
  unfold wp, atomic. intros HI Hm. unfold step at 1.
  destruct (io_faults w) as [|[] fs]; [|exact HI|]; cbn -[elapse step] in *; unfold mbind, io_bind;
    change (io_now w + 1) with (io_now (elapse w)) in Hm; cbn -[elapse step with_tx] in *;
    destruct (m _) as [[a|e] w1]; [|done| |done]; destruct Hm as [H1 H2]; unfold map_error, step;
    by destruct (io_faults w1) as [|[] ?].
Qed.

Lemma wp_each {E A} (f : A -> IoM E unit) (P : list A -> World -> Prop) I l w :
  P [] w ->
  (forall l1 x l2 w', l = l1 ++ x :: l2 -> P l1 w' -> wp (f x) (fun _ => P (l1 ++ [x])) I w') ->
  wp (each f l) (fun _ => P l) I w.
Proof.
  intros H0 Hs. cut (forall l2 l1 w', l = l1 ++ l2 -> P l1 w' -> wp (each f l2) (fun _ => P l) I w'); [intros H; by apply (H l [])|].
  induction l2 as [|x l2 IH]; intros l1 w' Hl Hp; cbn [each].
  - apply wp_ret. by rewrite Hl, app_nil_r.
  - apply wp_bind. eapply wp_weaken; [by eapply Hs| |done]. intros [] w1 H1. apply (IH (l1 ++ [x])); [|done]. by rewrite Hl, <- app_assoc.
Qed.

Lemma wp_if {E A} (b : bool) (m1 m2 : IoM E A) Q I w :
  (b = true -> wp m1 Q I w) -> (b = false -> wp m2 Q I w) -> wp (if b then m1 else m2) Q I w.
Proof. destruct b; eauto. Qed.

(** Any run at all. *)
Lemma wp_run {E A} (m : IoM E A) Q I w : wp m Q I w -> match m w with (Ok a, w') => Q a w' | (Err e, w') => I e w' end.
Proof. done. Qed.

Lemma wp_self {E A} (m : IoM E A) w : wp m (fun a w' => m w = (Ok a, w')) (fun _ _ => True) w.
Proof. unfold wp. by destruct (m w) as [[] ?]. Qed.
Lemma wp_runs {E A} (m : IoM E A) Q I w a w1 : m w = (Ok a, w1) -> Q a w1 -> wp m Q I w.
Proof. unfold wp. by intros ->. Qed.
Lemma wp_answers {E A} (m : IoM E A) Q w : wp m Q (fun _ _ => False) w -> exists a w', m w = (Ok a, w') /\ Q a w'.
Proof. unfold wp. destruct (m w) as [[a|e] w']; [by eauto|done]. Qed.

(** ** What runs leave alone *)

(** Time passes and identifiers are taken; nobody is told anything. *)
Definition later (w w1 : World) : Prop :=
  io_now w <= io_now w1 /\ (io_next_uuid w <= io_next_uuid w1)%nat /\ io_tx w1 = io_tx w /\ io_trace w1 = io_trace w.
Global Instance later_preorder : PreOrder later.
Proof. split; [by intros w|]. intros a b c (?&?&?&?) (?&?&?&?). split_and!; [lia|lia|congruence..]. Qed.
Lemma later_elapse w : later w (elapse w).
Proof. split_and!; cbn; [lia|done..]. Qed.
Lemma later_tables s w w1 : later w w1 -> later w (with_tables s w1).
Proof. done. Qed.
Lemma later_uuid (w : World) : later w (took_uuid w).
Proof. split_and!; cbn; [lia|lia|done..]. Qed.
Lemma later_tables_elapse s w : later w (with_tables s (elapse w)).
Proof. apply later_tables, later_elapse. Qed.

(** Nothing but the trace moves. *)
Definition unmoved (w w' : World) : Prop :=
  io_now w <= io_now w' /\ (io_next_uuid w <= io_next_uuid w')%nat /\ io_tx w' = io_tx w /\ io_tables w' = io_tables w.

(** ** An invariant of the clock, the supply of identifiers and the tables *)

Section Invariant.
  Context (ok : Z -> Uuid -> S -> Prop) (ok_mono : forall now now' next next' s, now <= now' -> (next <= next')%nat -> ok now next s -> ok now' next' s).

(** Between transactions. *)
Definition sound (w : World) : Prop := io_tx w = None /\ ok (io_now w) (io_next_uuid w) (io_tables w).
Lemma sound_unmoved w w' : unmoved w w' -> sound w -> sound w'.
Proof. intros (H1 & H2 & H3 & H4) [Htx Hok]. split; [congruence|]. rewrite H4. by eapply ok_mono. Qed.
Lemma sound_later w w' : later w w' -> io_tables w' = io_tables w -> sound w -> sound w'.
Proof. intros (H1 & H2 & H3 & _) Ht. by apply sound_unmoved. Qed.

(** A transaction that moves the tables, or fails and does not. *)
Lemma atomic_sound {E A} (err : string -> E) (m : IoM E A) (Q : A -> S -> Prop) (w : World) :
  sound w ->
  (forall w0, io_tx w0 = Some (io_now w + 1) -> io_next_uuid w0 = io_next_uuid w -> io_tables w0 = io_tables w ->
    wp m (fun a w1 => later w0 w1 /\ ok (io_now w + 1) (io_next_uuid w1) (io_tables w1) /\ Q a (io_tables w1))
         (fun _ w1 => later w0 w1) w0) ->
  wp (atomic err m)
    (fun a w1 => later w w1 /\ sound w1 /\ Q a (io_tables w1))
    (fun _ w1 => later w w1 /\ sound w1 /\ io_tables w1 = io_tables w) w.
Proof.
  intros [Htx Hok] Hm. apply wp_atomic.
  - split_and!; [apply later_elapse| |done]. split; [done|]. cbn. eapply ok_mono; [..|exact Hok]; cbn; lia.
  - eapply wp_weaken; [by apply Hm|..]; cbn.
    + intros a w1 ((H1 & H2 & H3 & H4) & Hok1 & HQ). cbn in *. split; (split_and!; [split_and!; cbn; [lia|done|done|done]|split; [done|]; cbn|done]).
      * eapply ok_mono; [..|exact Hok1]; lia.
      * eapply ok_mono; [..|exact Hok]; lia.
    + intros e w1 (H1 & H2 & H3 & H4). cbn in *. split_and!; [split_and!; cbn; [lia|done|done|done]|split; [done|]|done]. cbn.
      eapply ok_mono; [..|exact Hok]; lia.
Qed.

End Invariant.

(** ** Runs without failures *)

Lemma wp_calm_sql {A} (f : Z -> S -> A * S) Q I w :
  calm w -> Q (f (sql_now (elapse w)) (io_tables w)).1 (with_tables (f (sql_now (elapse w)) (io_tables w)).2 (elapse w)) -> wp (sql f) Q I w.
Proof. intros Hc HQ. unfold wp, sql. rewrite step_calm by done. cbn in *. by destruct (f _ _). Qed.
Lemma wp_calm_fetch {A} (f : Z -> S -> A) Q I w :
  calm w -> Q (f (sql_now (elapse w)) (io_tables w)) (elapse w) -> wp (fetch f) Q I w.
Proof. intros Hc HQ. unfold wp. by rewrite fetch_calm. Qed.
Lemma wp_calm_update f Q I w :
  calm w -> Q tt (with_tables (f (sql_now (elapse w)) (io_tables w)) (elapse w)) -> wp (update f) Q I w.
Proof. intros Hc HQ. unfold wp. by rewrite update_calm. Qed.
Lemma wp_calm_command e Q I w : calm w -> Q tt (told e (elapse w)) -> wp (command e) Q I w.
Proof. intros Hc HQ. unfold wp. by rewrite command_calm. Qed.
Lemma wp_calm_checked {A} (f : Z -> S -> result string (A * S)) Q I w a s :
  calm w -> f (sql_now (elapse w)) (io_tables w) = Ok (a, s) -> Q a (with_tables s (elapse w)) -> wp (checked f) Q I w.
Proof. unfold calm, wp, checked. intros -> Hf HQ. cbn in *. by rewrite Hf. Qed.

End Wp.
Create HintDb later.
#[export] Hint Resolve later_elapse later_tables_elapse later_uuid : later.
#[global] Arguments wp {S Eff E A} m Q I w : simpl never.

(** One rule; the caller goes on after operations that have lemmas of their own. *)
Ltac wp1 :=
  lazymatch goal with
  | |- wp (mret _) _ _ _ => apply wp_ret
  | |- wp (_ ≫= _) _ _ _ => apply wp_bind
  | |- wp (of_result _) _ _ _ => apply wp_result
  | |- wp (map_error _ _) _ _ _ => apply wp_map_error
  | |- wp (outcome _) _ _ _ => apply wp_outcome
  | |- wp (dropped _) _ _ _ => apply wp_dropped
  | |- wp utc_now _ _ _ => apply wp_now
  | |- wp new_v4 _ _ _ => apply wp_v4
  | |- wp (emit _) _ _ _ => apply wp_emit
  | |- wp (fetch _) _ _ _ => apply wp_fetch
  | |- wp (update _) _ _ _ => apply wp_update
  | |- wp (sql _) _ _ _ => apply wp_sql
  | |- wp (command _) _ _ _ => apply wp_command
  | |- wp (checked _) _ _ _ => apply wp_checked
  | |- wp (atomic _ _) _ _ _ => apply wp_atomic
  | |- wp (if ?b then _ else _) _ _ _ => apply wp_if; intros ?
  end; cbn beta.
Ltac wp := repeat wp1.

(** The same for runs without failures. *)
Ltac wp_calm1 :=
  lazymatch goal with
  | |- wp (mret _) _ _ _ => apply wp_ret
  | |- wp (_ ≫= _) _ _ _ => apply wp_bind
  | |- wp (map_error _ _) _ _ _ => apply wp_map_error
  | |- wp (outcome _) _ _ _ => apply wp_outcome
  | |- wp (dropped _) _ _ _ => apply wp_dropped
  | |- wp utc_now _ _ _ => apply wp_now
  | |- wp new_v4 _ _ _ => apply wp_v4
  | |- wp (emit _) _ _ _ => apply wp_emit
  | |- wp (fetch _) _ _ _ => apply wp_calm_fetch; [by repeat apply calm_elapse|]
  | |- wp (update _) _ _ _ => apply wp_calm_update; [by repeat apply calm_elapse|]
  | |- wp (sql _) _ _ _ => apply wp_calm_sql; [by repeat apply calm_elapse|]
  | |- wp (command _) _ _ _ => apply wp_calm_command; [by repeat apply calm_elapse|]
  | |- wp (if ?b then _ else _) _ _ _ => apply wp_if; intros ?
  end; cbn beta.
Ltac wp_calm := repeat wp_calm1.
