(* ===== verification/Texts.v ===== *)
(** * Texts made by other libraries

    Base64 without padding, RFC 3339 times and UUIDs, as the admin API writes and reads them: the
    crates [base64], [chrono] and [uuid], of which only the round trips are used, and that the
    URL-safe alphabet has no dot. *)

From S2P Require Import Prelude RustStr RustNum Json Db.
From stdpp Require Import countable pretty.

(** [URL_SAFE_NO_PAD]. *)
Class Base64 := {
  b64_encode : string -> string;
  b64_decode : string -> option string;
  b64_round_trip s : b64_decode (b64_encode s) = Some s;
  b64_no_dot s : clean "." (b64_encode s)
}.

(** [DateTime<Utc>] and [Uuid] in JSON and in messages; times are milliseconds. *)
Class Texts := {
  to_rfc3339 : Z -> string;
  from_rfc3339 : string -> option Z;
  rfc3339_round_trip t : from_rfc3339 (to_rfc3339 t) = Some t;
  uuid_parse : string -> option Uuid;
  uuid_round_trip (id : Uuid) : uuid_parse (pretty id) = Some id
}.

Section Values.
  Context `{X : Texts}.

Definition time_to_json (t : Z) : Json := JStr (to_rfc3339 t).
Definition de_time (v : Json) : result string Z :=
  match v with JStr s => ok_or (from_rfc3339 s) "premature end of input" | _ => Err "invalid type: expected a date" end.
Definition uuid_to_json (id : Uuid) : Json := JStr (pretty id).
Definition de_uuid (v : Json) : result string Uuid :=
  match v with JStr s => ok_or (uuid_parse s) "UUID parsing failed" | _ => Err "invalid type: expected a UUID" end.

Lemma de_time_to_json t : de_time (time_to_json t) = Ok t.
Proof. cbn. by rewrite rfc3339_round_trip. Qed.
Lemma de_uuid_to_json id : de_uuid (uuid_to_json id) = Ok id.
Proof. cbn. by rewrite uuid_round_trip. Qed.

End Values.

(** ** Instances for examples *)

Module TextsDemo.

(** Two letters for each byte. *)
Definition nibble (n : N) : ascii := ascii_of_N (97 + n).
Definition unnibble (c : ascii) : N := (N_of_ascii c - 97)%N.
Fixpoint enc (s : string) : string :=
  match s with
  | "" => ""
  | String c s' => String (nibble (N_of_ascii c / 16)) (String (nibble (N_of_ascii c mod 16)) (enc s'))
  end.
Fixpoint dec (s : string) : option string :=
  match s with
  | "" => Some ""
  | String a (String b s') => String (ascii_of_N (unnibble a * 16 + unnibble b)) <$> dec s'
  | _ => None
  end.

Lemma unnibble_nibble n : (n < 16)%N -> unnibble (nibble n) = n.
Proof. intros H. unfold unnibble, nibble. rewrite N_ascii_embedding; lia. Qed.
Lemma nibble_not_dot n : (n < 16)%N -> nibble n <> "."%char.
Proof. intros H E. apply (f_equal N_of_ascii) in E. unfold nibble in E. rewrite N_ascii_embedding in E; [cbn in E|]; lia. Qed.
Lemma byte_bound c : (N_of_ascii c < 256)%N.
Proof. apply N_ascii_bounded. Qed.

#[refine] Instance base64 : Base64 := {| b64_encode := enc; b64_decode := dec |}.
Proof.
  - induction s as [|c s IH]; [done|]. cbn [enc dec]. rewrite IH. cbn. pose proof (byte_bound c).
    rewrite !unnibble_nibble; [|apply N.mod_lt; lia|apply N.Div0.div_lt_upper_bound; lia].
    rewrite N.mul_comm, <- N.div_mod'. by rewrite ascii_N_embedding.
  - induction s as [|c s IH]; [done|]. pose proof (byte_bound c). cbn [enc str_forall].
    assert (forall n, (n < 16)%N -> is_char "." (nibble n) = false) as Hn.
    { intros n Hn. apply bool_decide_eq_false. intros E. by apply (nibble_not_dot n). }
    rewrite !Hn; [done|apply N.mod_lt; lia|apply N.Div0.div_lt_upper_bound; lia].
Defined.

#[refine] Instance texts : Texts := {|
  to_rfc3339 t := JsonDemo.bits (encode t);
  from_rfc3339 s := decode (JsonDemo.unbits s);
  uuid_parse s := if all_digits s then Some (Z.to_nat (digits_value 0 s)) else None
|}.
Proof.
  - intros t. by rewrite JsonDemo.unbits_bits, decode_encode.
  - intros id. unfold pretty, pretty_nat. destruct (pretty_N_digits (N.of_nat id)) as [-> ->]. f_equal. lia.
Defined.

End TextsDemo.
