(* ===== verification/Pagination.v ===== *)
(** * Pages of a listing

    [services/admin-api/src/pagination.rs], and the way every listing of the admin API uses it: the
    rows after (or before) an anchor in a total order, one more than the limit to see whether there
    are more, and opaque cursors that carry the direction and the key of the last (or first) row.

    The theorem follows the cursors: from the first page on, they show every row exactly once and in
    order, and the cursor back shows the page before again, unless a page ends with a row whose key
    the statement takes for no anchor at all. *)

From stdpp Require Import sorting countable strings.
From S2P Require Import Prelude RustStr RustNum Json Db Texts.

Local Open Scope Z_scope.

(** ** Numbered pages *)

Record PageOptions := { po_page : Z; po_page_size : Z }.
Definition clamp (lo hi v : Z) : Z := Z.max lo (Z.min hi v).
Definition PageOptions_new (page page_size : option Z) : PageOptions :=
  {| po_page := Z.max (default 1 page) 1; po_page_size := clamp 1 200 (default 50 page_size) |}.
Definition offset (o : PageOptions) : Z := Z.max 0 (po_page o - 1) * po_page_size o.

Record PageMeta := { pm_page : Z; pm_page_size : Z; pm_total : Z; pm_has_more : bool }.
Definition Paged_new (total : Z) (o : PageOptions) : PageMeta :=
  {| pm_page := po_page o; pm_page_size := po_page_size o; pm_total := total;
     pm_has_more := bool_decide (po_page o * po_page_size o < total) |}.

(** [has_more] says whether rows follow the page, and the products fit an [i64]. *)
Lemma paged_has_more page page_size (rows : nat) :
  (forall p, page = Some p -> is_u32 p) ->
  let o := PageOptions_new page page_size in
  0 <= offset o <= i64_max /\ po_page o * po_page_size o <= i64_max /\
  (pm_has_more (Paged_new (Z.of_nat rows) o) = true <-> offset o + po_page_size o < Z.of_nat rows).
Proof.
  intros Hp. assert (1 <= Z.max (default 1 page) 1 <= u32_max) as H.
  { destruct page as [p|]; cbn; [|done]. specialize (Hp p eq_refl). unfold is_u32, u32_max in *. lia. }
  unfold offset, Paged_new, PageOptions_new, clamp. cbn [po_page po_page_size pm_has_more]. rewrite bool_decide_eq_true.
  set (s := Z.max 1 _). assert (1 <= s <= 200) by lia. unfold u32_max, i64_max in *. nia.
Qed.

(** ** Cursors *)

Inductive CursorDirection := Next | Prev.
#[global] Instance direction_eq_dec : EqDecision CursorDirection.
Proof. solve_decision. Defined.

(** What a cursor carries besides its direction. *)
Class Anchor (K : Type) := {
  anchor_to_json : K -> Json;
  anchor_from_json : Json -> result string K;
  anchor_exact k : exact (anchor_to_json k) = true;
  anchor_round_trip k : anchor_from_json (anchor_to_json k) = Ok k
}.

Definition cursor_limit (limit : option Z) : Z := clamp 1 200 (default 50 limit).

Section Cursors.
  Context `{T : JsonText} `{B : Base64} {K : Type} `{A : Anchor K}.

Definition direction_to_json (d : CursorDirection) : Json := JStr (match d with Next => "next" | Prev => "prev" end).
Definition de_direction (v : Json) : result string CursorDirection :=
  match v with
  | JStr "next" => Ok Next
  | JStr "prev" => Ok Prev
  | _ => Err "unknown variant, expected `next` or `prev`"
  end.

Definition directional_from_json (v : Json) : result string (CursorDirection * K) :=
  fields ← struct_fields ["direction"; "anchor"] v;
  direction ← required "direction" de_direction fields;
  anchor ← required "anchor" anchor_from_json fields;
  Ok (direction, anchor).

Definition encode_cursor (v : Json) : string := b64_encode (json_print v).
Definition encode_directional_cursor (d : CursorDirection) (anchor : K) : string :=
  encode_cursor (JObj [("direction", direction_to_json d); ("anchor", anchor_to_json anchor)]).

(** A cursor without a direction goes forward. *)
Definition decode_cursor_with_direction (cursor : string) : result string (CursorDirection * K) :=
  decoded ← ok_or (b64_decode cursor) "invalid cursor encoding";
  match (v ← json_parse decoded; directional_from_json v) with
  | Ok da => Ok da
  | Err _ => map_err (fun _ => "invalid cursor payload") (v ← json_parse decoded; a ← anchor_from_json v; Ok (Next, a))
  end.

Lemma cursor_round_trip d a : decode_cursor_with_direction (encode_directional_cursor d a) = Ok (d, a).
Proof.
  unfold decode_cursor_with_direction, encode_directional_cursor, encode_cursor. rewrite b64_round_trip. cbn [ok_or].
  unfold mbind at 1, result_bind at 1. rewrite json_parse_print by (cbn; by rewrite anchor_exact).
  assert (directional_from_json (JObj [("direction", direction_to_json d); ("anchor", anchor_to_json a)]) = Ok (d, a)) as E.
  { unfold directional_from_json. cbn [struct_fields mbind result_bind].
    rewrite (required_Ok "direction" _ _ (direction_to_json d) d); [|find_field|by destruct d].
    cbn [mbind result_bind]. by rewrite (required_Ok "anchor" _ _ (anchor_to_json a) a); [|find_field|apply anchor_round_trip]. }
  cbn [mbind result_bind]. by rewrite E.
Qed.

(** Where a listing continues. *)
Definition decode_position (cursor : option string) : result string (CursorDirection * option K) :=
  match cursor with
  | None => Ok (Next, None)
  | Some c => '(d, a) ← decode_cursor_with_direction c; Ok (d, Some a)
  end.

End Cursors.

Record CursorPaged (R : Type) := {
  cp_data : list R;
  cp_limit : Z;
  cp_has_more : bool;
  cp_next_cursor : option string;
  cp_prev_cursor : option string
}.
Arguments cp_data {R}.
Arguments cp_limit {R}.
Arguments cp_has_more {R}.
Arguments cp_next_cursor {R}.
Arguments cp_prev_cursor {R}.
Arguments Build_CursorPaged {R}.

(** ** Rows after an anchor *)

Section Keyset.
  Context `{T : JsonText} `{B : Base64} {R K : Type} `{A : Anchor K}.
  (** The key of a row, the order of the listing, and the anchors that the statement does not use: it
      compares with an empty name as with none. *)
  Context (key : R -> K) (before : relation K) `{Hdec : !RelDecision before} (unbounded : K -> bool).

Definition listed (d : CursorDirection) (x y : R) : Prop :=
  match d with Next => ~ before (key y) (key x) | Prev => ~ before (key x) (key y) end.
#[local] Instance listed_dec d : RelDecision (listed d).
Proof. intros x y. unfold listed. destruct d; apply _. Defined.

Definition beyond (d : CursorDirection) (anchor : option K) (r : R) : bool :=
  match anchor with
  | None => true
  | Some k =>
      unbounded k || match d with Next => bool_decide (before k (key r)) | Prev => bool_decide (before (key r) k) end
  end.

(** [SELECT .. WHERE .. ORDER BY .. LIMIT limit + 1]. *)
Definition page_rows (position : CursorDirection * option K) (limit : Z) (rows : list R) : list R :=
  take (Z.to_nat (limit + 1)) (merge_sort (listed position.1) (List.filter (beyond position.1 position.2) rows)).

(** The same with [OFFSET skip]. *)
Definition rows_from (skip : nat) (position : CursorDirection * option K) (limit : Z) (rows : list R) : list R :=
  take (Z.to_nat (limit + 1)) (drop skip (merge_sort (listed position.1) (List.filter (beyond position.1 position.2) rows))).

(** The page made of the rows that were found. *)
Definition paged (cursor : option string) (d : CursorDirection) (limit : Z) (found : list R) : CursorPaged R :=
  let has_more := bool_decide (limit < Z.of_nat (length found)) in
  let data := if has_more then take (Z.to_nat limit) found else found in
  let data := match d with Prev => reverse data | Next => data end in
  {| cp_data := data; cp_limit := limit; cp_has_more := has_more;
     cp_next_cursor := if has_more then (fun r => encode_directional_cursor Next (key r)) <$> last data else None;
     cp_prev_cursor := match cursor with
                       | Some _ => (fun r => encode_directional_cursor Prev (key r)) <$> head data
                       | None => None
                       end |}.

Definition cursor_page (cursor : option string) (limit : option Z) (rows : list R) : result string (CursorPaged R) :=
  position ← decode_position cursor;
  Ok (paged cursor position.1 (cursor_limit limit) (page_rows position (cursor_limit limit) rows)).

(** A client that follows the cursors. *)
Fixpoint walk (fuel : nat) (cursor : option string) (limit : option Z) (rows : list R) : option (list (CursorPaged R)) :=
  match fuel with
  | O => None
  | S fuel' =>
      page ← result_ok (cursor_page cursor limit rows);
      match cp_next_cursor page with
      | None => Some [page]
      | Some c => pages ← walk fuel' (Some c) limit rows; Some (page :: pages)
      end
  end.

(** The whole listing. *)
Definition listing (rows : list R) : list R := merge_sort (listed Next) rows.

(** ** Facts *)

Context `{!StrictOrder before, !Trichotomy before} (rows : list R).
Hypothesis (Hnd : NoDup (key <$> rows)).

Lemma not_before_trans a b c : ~ before b a -> ~ before c b -> ~ before c a.
Proof.
  intros H1 H2 H. destruct (trichotomy before a b) as [H'|[->|H']]; [|done|done].
  apply H2. by trans a.
Qed.
#[local] Instance listed_trans d : Transitive (listed d).
Proof. intros x y z. destruct d; cbn; eauto using not_before_trans. Qed.
#[local] Instance listed_total d : Total (listed d).
Proof.
  intros x y. unfold listed. destruct d.
  - destruct (decide (before (key y) (key x))) as [H|H]; [right|by left]. intros H'. by apply (asymmetry H H').
  - destruct (decide (before (key x) (key y))) as [H|H]; [right|by left]. intros H'. by apply (asymmetry H H').
Qed.

Lemma elem_of_listing r : r ∈ listing rows <-> r ∈ rows.
Proof. unfold listing. by rewrite merge_sort_Permutation. Qed.

(** Rows that are not told apart by the order are the same. *)
Lemma listed_antisymm d x y : x ∈ rows -> y ∈ rows -> listed d x y -> listed d y x -> x = y.
Proof.
  intros Hx Hy H1 H2. apply (NoDup_fmap_unique key rows); [done..|].
  destruct (trichotomy before (key x) (key y)) as [H|[H|H]]; [|done|]; destruct d; cbn in *; tauto.
Qed.

(** A sorted list of some of the rows is what the statement returns. *)
Lemma sorted_rows d p l :
  StronglySorted (listed d) l -> List.filter p rows ≡ₚ l -> merge_sort (listed d) (List.filter p rows) = l.
Proof.
  intros Hs Hp. apply (StronglySorted_unique_strong (listed d)).
  - intros x y Hx Hy. rewrite merge_sort_Permutation in Hx. rewrite <- Hp in Hy.
    apply listed_antisymm; [by eapply sublist_subseteq in Hx; [|apply filter_sublist]|by eapply sublist_subseteq in Hy; [|apply filter_sublist]].
  - apply StronglySorted_merge_sort; apply _.
  - done.
  - by rewrite merge_sort_Permutation.
Qed.

Lemma listing_sorted : StronglySorted (listed Next) (listing rows).
Proof. apply StronglySorted_merge_sort; apply _. Qed.

(** The listing around one of its rows. *)
Lemma listing_split l1 x l2 :
  listing rows = l1 ++ x :: l2 ->
  (forall r, r ∈ l1 -> before (key r) (key x)) /\ (forall r, r ∈ l2 -> before (key x) (key r)).
Proof.
  intros E. pose proof listing_sorted as Hs. rewrite E in Hs.
  assert (NoDup (key <$> l1 ++ x :: l2)) as Hn by (rewrite <- E; unfold listing; by rewrite merge_sort_Permutation).
  rewrite fmap_app, fmap_cons in Hn. apply NoDup_app in Hn as (_ & Hd & [Hx _]%NoDup_cons).
  apply StronglySorted_app in Hs as (Ho & _ & Hs). apply StronglySorted_inv in Hs as [_ Hs]. rewrite Forall_forall in Hs.
  split; intros r Hr.
  - destruct (trichotomy before (key r) (key x)) as [H|[H|H]]; [done|exfalso..].
    + apply (Hd (key r)); [apply list_elem_of_fmap; by exists r|rewrite H; left].
    + by apply (Ho r x Hr ltac:(left)).
  - destruct (trichotomy before (key x) (key r)) as [H|[H|H]]; [done|exfalso..].
    + apply Hx, list_elem_of_fmap. by exists r.
    + by apply (Hs r Hr).
Qed.

Lemma filter_listing p : List.filter p rows ≡ₚ List.filter p (listing rows).
Proof. unfold listing. by rewrite merge_sort_Permutation. Qed.

Lemma filter_split (p : R -> bool) l1 l2 :
  (forall r, r ∈ l1 -> p r = false) -> (forall r, r ∈ l2 -> p r = true) -> List.filter p (l1 ++ l2) = l2.
Proof. intros H1 H2. rewrite List.filter_app, filter_none, filter_all by done. done. Qed.

Lemma rows_after l1 x l2 :
  unbounded (key x) = false -> listing rows = l1 ++ x :: l2 -> merge_sort (listed Next) (List.filter (beyond Next (Some (key x))) rows) = l2.
Proof.
  intros Hu E. destruct (listing_split _ _ _ E) as [H1 H2]. pose proof listing_sorted as Hs. rewrite E in Hs.
  apply sorted_rows.
  - apply StronglySorted_app in Hs as (_ & _ & [Hs _]%StronglySorted_inv). exact Hs.
  - rewrite filter_listing, E, (cons_middle x l1 l2), app_assoc. rewrite filter_split; [done|..]; cbn; rewrite Hu; cbn.
    + intros r [Hr| ->%list_elem_of_singleton]%elem_of_app; apply bool_decide_eq_false; [|apply irreflexivity; apply _].
      intros H. by apply (asymmetry H (H1 r Hr)).
    + intros r Hr. apply bool_decide_eq_true. by apply H2.
Qed.

Lemma StronglySorted_reverse l : StronglySorted (listed Next) l -> StronglySorted (listed Prev) (reverse l).
Proof.
  induction 1 as [|x l Hs IH Hall]; [constructor|]. rewrite reverse_cons. apply StronglySorted_app_2; [|done|repeat constructor].
  intros y z Hy ->%list_elem_of_singleton. rewrite elem_of_reverse in Hy. rewrite Forall_forall in Hall. exact (Hall y Hy).
Qed.

Lemma rows_before l1 x l2 :
  unbounded (key x) = false -> listing rows = l1 ++ x :: l2 -> merge_sort (listed Prev) (List.filter (beyond Prev (Some (key x))) rows) = reverse l1.
Proof.
  intros Hu E. destruct (listing_split _ _ _ E) as [H1 H2]. pose proof listing_sorted as Hs. rewrite E in Hs.
  apply sorted_rows.
  - apply StronglySorted_app in Hs as (_ & Hs & _). by apply StronglySorted_reverse.
  - rewrite filter_listing, E, reverse_Permutation, List.filter_app. rewrite filter_all, filter_none, app_nil_r; [done|..]; cbn; rewrite Hu; cbn.
    + intros r [-> |Hr]%elem_of_cons; apply bool_decide_eq_false; [apply irreflexivity; apply _|].
      intros H. by apply (asymmetry H (H2 r Hr)).
    + intros r Hr. apply bool_decide_eq_true. by apply H1.
Qed.

(** ** Following the cursors *)

Section Walk.
  Context (limit : option Z).
  Abbreviation n := (Z.to_nat (cursor_limit limit)).

Lemma limit_pos : 1 <= cursor_limit limit <= 200.
Proof. unfold cursor_limit, clamp. lia. Qed.

(** The forward page that begins after the rows [l1] of the listing. *)
Definition forward_page (cursor : option string) (l1 l2 : list R) : CursorPaged R :=
  paged cursor Next (cursor_limit limit) (take (Z.to_nat (cursor_limit limit + 1)) l2).

Lemma first_page : cursor_page None limit rows = Ok (forward_page None [] (listing rows)).
Proof.
  unfold cursor_page, decode_position, forward_page, page_rows, listing. cbn. by rewrite filter_all.
Qed.

Lemma next_page l1 x l2 :
  unbounded (key x) = false -> listing rows = l1 ++ x :: l2 ->
  cursor_page (Some (encode_directional_cursor Next (key x))) limit rows =
    Ok (forward_page (Some (encode_directional_cursor Next (key x))) (l1 ++ [x]) l2).
Proof.
  intros Hu E. unfold cursor_page, decode_position, forward_page, page_rows. rewrite cursor_round_trip. cbn [mbind result_bind fst snd].
  by rewrite (rows_after _ _ _ Hu E).
Qed.
(** A cursor that the statement does not use leads back to the first page. *)
Lemma unbounded_page x : unbounded (key x) = true ->
  cursor_page (Some (encode_directional_cursor Next (key x))) limit rows =
    Ok (forward_page (Some (encode_directional_cursor Next (key x))) [] (listing rows)).
Proof.
  intros Hu. unfold cursor_page, decode_position, forward_page, page_rows, listing. rewrite cursor_round_trip. cbn [mbind result_bind fst snd].
  rewrite filter_all; [done|]. intros r _. cbn. by rewrite Hu.
Qed.

Lemma forward_page_data cursor l1 l2 : cp_data (forward_page cursor l1 l2) = take n l2.
Proof.
  pose proof limit_pos. unfold forward_page, paged. cbn [cp_data]. case_bool_decide as H'.
  - rewrite take_take. f_equal. lia.
  - rewrite length_take in H'. rewrite !take_ge by lia. done.
Qed.

Lemma forward_page_next cursor l1 l2 :
  cp_next_cursor (forward_page cursor l1 l2) =
    if decide (n < length l2)%nat then (fun r => encode_directional_cursor Next (key r)) <$> last (take n l2) else None.
Proof.
  rewrite <- (forward_page_data cursor l1 l2). unfold forward_page, paged. cbn [cp_next_cursor cp_data]. pose proof limit_pos.
  rewrite length_take. case_bool_decide; case_decide; [done|lia|lia|done].
Qed.

(** Going back from a row shows the rows just before it. *)
Lemma prev_page l1 x l2 :
  unbounded (key x) = false -> listing rows = l1 ++ x :: l2 ->
  exists page, cursor_page (Some (encode_directional_cursor Prev (key x))) limit rows = Ok page /\
    cp_data page = drop (length l1 - n) l1.
Proof.
  intros Hu E. unfold cursor_page, decode_position, page_rows. rewrite cursor_round_trip. cbn [mbind result_bind fst snd].
  rewrite (rows_before _ _ _ Hu E). eexists. split; [reflexivity|]. pose proof limit_pos. unfold paged. cbn [cp_data].
  rewrite length_take, length_reverse. case_bool_decide as Hl.
  - rewrite take_take, take_reverse, reverse_involutive. f_equal. lia.
  - rewrite take_ge by (rewrite length_reverse; lia). rewrite reverse_involutive. by rewrite (proj2 (Nat.sub_0_le _ _)) by lia.
Qed.

(** The cursor back of each page but the first shows the page before it. *)
Fixpoint backward (pages : list (CursorPaged R)) : Prop :=
  match pages with
  | p :: ((q :: _) as pages') =>
      (exists c p', cp_prev_cursor q = Some c /\ cursor_page (Some c) limit rows = Ok p' /\ cp_data p' = cp_data p) /\
      backward pages'
  | _ => True
  end.

Lemma take_last {X} (k : nat) (l : list X) :
  (1 <= k)%nat -> (k <= length l)%nat -> exists l' x, take k l = l' ++ [x] /\ last (take k l) = Some x.
Proof.
  intros H1 H2. destruct (take k l) as [|y t] eqn:E using rev_ind.
  - apply (f_equal length) in E. rewrite length_take in E. cbn in E. lia.
  - exists t, y. split; [done|apply last_snoc].
Qed.

(** A page that is not the last ends with a row whose key the statement does not use. *)
Definition trapped : Prop :=
  exists m l1 x l2, listing rows = l1 ++ x :: l2 /\ l2 <> [] /\ length (l1 ++ [x]) = (m * n)%nat /\ unbounded (key x) = true.
(** No key is of that kind. *)
Definition all_bounded : Prop := forall r, r ∈ rows -> unbounded (key r) = false.

(** The row that ends a page. *)
Lemma page_end l1 l2 : listing rows = l1 ++ l2 -> (n < length l2)%nat ->
  exists l' x, last (take n l2) = Some x /\ listing rows = (l1 ++ l') ++ x :: drop n l2 /\ length ((l1 ++ l') ++ [x]) = (length l1 + n)%nat.
Proof.
  pose proof limit_pos as Hl. intros E Hd. destruct (take_last n l2) as (l' & x & Ht & Hx); [lia..|]. exists l', x. split_and!; [done| |].
  - rewrite E, <- app_assoc, <- (take_drop n l2) at 1. rewrite Ht, <- app_assoc. done.
  - rewrite <- app_assoc, <- Ht, length_app, length_take. lia.
Qed.

Lemma walk_from (Hfree : ~ trapped) : forall fuel cursor l1 l2 k,
  listing rows = l1 ++ l2 -> (length l2 < fuel)%nat -> length l1 = (k * n)%nat -> (l2 = [] -> l1 = []) ->
  cursor_page cursor limit rows = Ok (forward_page cursor l1 l2) ->
  exists pages, walk fuel cursor limit rows = Some pages /\ mjoin (cp_data <$> pages) = l2 /\
    Forall (fun p => Z.of_nat (length (cp_data p)) <= cursor_limit limit) pages /\
    head pages = Some (forward_page cursor l1 l2) /\ (all_bounded -> backward pages).
Proof.
  pose proof limit_pos as Hl. induction fuel as [|fuel IH]; intros cursor l1 l2 k E Hf Hk Hne Hp; [lia|].
  cbn [walk]. rewrite Hp. cbn [result_ok mbind option_bind]. rewrite forward_page_next.
  assert (Z.of_nat (length (cp_data (forward_page cursor l1 l2))) <= cursor_limit limit) as Hlen.
  { rewrite forward_page_data, length_take. lia. }
  case_decide as Hd.
  2: { eexists. split_and!; [reflexivity| |by constructor|done|done].
       change (cp_data (forward_page cursor l1 l2) ++ [] = l2). rewrite app_nil_r, forward_page_data. by apply take_ge; lia. }
  destruct (page_end l1 l2 E Hd) as (l' & x & Hx & E' & Hlx). rewrite Hx. cbn [fmap option_fmap option_map].
  assert (length (drop n l2) < fuel)%nat as Hf' by (rewrite length_drop; lia).
  assert (drop n l2 <> []) as Hne'.
  { intros H0. apply (f_equal length) in H0. rewrite length_drop in H0. cbn in H0. lia. }
  assert (length ((l1 ++ l') ++ [x]) = (S k * n)%nat) as Hk' by lia.
  assert (unbounded (key x) = false) as Hu.
  { destruct (unbounded (key x)) eqn:Hu; [|done]. destruct Hfree. by exists (S k), (l1 ++ l'), x, (drop n l2). }
  destruct (IH (Some (encode_directional_cursor Next (key x))) ((l1 ++ l') ++ [x]) (drop n l2) (S k)) as (pages & Hw & Hj & Hall & Hh & Hb).
  { by rewrite <- (app_assoc (l1 ++ l') [x]). } { done. } { done. } { done. } { by apply next_page. }
  rewrite Hw. cbn [mbind option_bind]. eexists. split_and!; [reflexivity| |by constructor|done|].
  - change (cp_data (forward_page cursor l1 l2) ++ mjoin (cp_data <$> pages) = l2).
    by rewrite forward_page_data, Hj, take_drop.
  - intros Hbound. destruct pages as [|q pages]; [done|]. injection Hh as ->. split; [|by apply Hb].
    destruct (drop n l2) as [|y l3] eqn:Ed; [done|].
    assert (listing rows = (l1 ++ take n l2) ++ y :: l3) as Ey by by rewrite <- app_assoc, <- Ed, take_drop.
    assert (unbounded (key y) = false) as Huy by (apply Hbound, elem_of_listing; rewrite Ey; set_solver).
    destruct (prev_page _ _ _ Huy Ey) as (p' & Hp' & Hd'). eexists _, p'. split_and!; [|exact Hp'|].
    + pose proof (forward_page_data (Some (encode_directional_cursor Next (key x))) ((l1 ++ l') ++ [x]) (y :: l3)) as Hdata.
      unfold forward_page, paged in *. cbn [cp_prev_cursor cp_data] in *. rewrite Hdata. destruct n eqn:En; [lia|]. done.
    + rewrite Hd', forward_page_data, length_app, length_take. rewrite drop_app_ge by lia.
      replace (_ - _)%nat with 0%nat by lia. done.
Qed.

(** Before the trap, a client never gets beyond it. *)
Lemma walk_loops m t1 x t2 :
  listing rows = t1 ++ x :: t2 -> t2 <> [] -> length (t1 ++ [x]) = (m * n)%nat -> unbounded (key x) = true ->
  forall fuel cursor l1 l2 k, listing rows = l1 ++ l2 -> length l1 = (k * n)%nat -> (k < m)%nat ->
    cursor_page cursor limit rows = Ok (forward_page cursor l1 l2) -> walk fuel cursor limit rows = None.
Proof.
  intros Et Hne Hm Hu. pose proof limit_pos as Hl. rewrite length_app in Hm. cbn [length] in Hm.
  induction fuel as [|fuel IH]; intros cursor l1 l2 k E Hk Hkm Hp; [done|].
  assert (length (listing rows) = length t1 + S (length t2))%nat as Hlen by (rewrite Et, length_app; done).
  assert (0 < length t2)%nat as Hpos by (destruct t2; [done|cbn; lia]).
  assert (n < length l2)%nat as Hd by (rewrite E, length_app in Hlen; nia).
  cbn [walk]. rewrite Hp. cbn [result_ok mbind option_bind]. rewrite forward_page_next, decide_True by done.
  destruct (page_end l1 l2 E Hd) as (l' & y & Hy & E' & Hly). rewrite Hy. cbn [fmap option_fmap option_map].
  assert (walk fuel (Some (encode_directional_cursor Next (key y))) limit rows = None) as ->; [|done].
  destruct (unbounded (key y)) eqn:Huy; [by apply (IH _ [] (listing rows) 0%nat); [done|done|nia|apply unbounded_page]|].
  apply (IH _ ((l1 ++ l') ++ [y]) (drop n l2) (S k)); [by rewrite <- (app_assoc (l1 ++ l') [y])|lia| |by apply next_page].
  destruct (decide (S k = m)) as [<-|]; [exfalso|lia].
  rewrite E' in Et. apply app_inj_1 in Et as [_ [= -> _]]; [congruence|]. rewrite length_app in Hly. cbn [length] in Hly. lia.
Qed.

End Walk.

(** C27: Pages are complete: where the keys of the rows differ and the order tells them apart, a client
    that follows the cursors of a listing that does not change from its first page sees every row exactly once and in order, in pages of at most the limit; it needs at most one page
    for each row, and from every page the cursor back shows the page before.  The exception are keys
    that the statement takes for no anchor, those with an empty name in the listings by name: when a
    page that is not the last ends with such a row, its cursor leads back to the first page and the
    client never ends.  Where such a row does not end a page, only the cursors back are not
    promised; the listings by time have no such keys. *)
Theorem cursor_walk_complete limit :
  (~ trapped limit ->
   exists pages, walk (S (length rows)) None limit rows = Some pages /\
     mjoin (cp_data <$> pages) = listing rows /\
     Forall (fun p => Z.of_nat (length (cp_data p)) <= cursor_limit limit) pages /\ (all_bounded -> backward limit pages)) /\
  (trapped limit -> forall fuel, walk fuel None limit rows = None).
Proof.
  assert (length (listing rows) = length rows) as Hlen by (unfold listing; by rewrite merge_sort_Permutation). split.
  - intros Hfree. destruct (walk_from limit Hfree (S (length rows)) None [] (listing rows) 0%nat) as (pages & H1 & H2 & H3 & _ & H4);
      [done|lia|done|done|apply first_page|]. by exists pages.
  - intros (m & t1 & x & t2 & Et & Hne & Hm & Hu) fuel.
    apply (walk_loops limit m t1 x t2 Et Hne Hm Hu fuel None [] (listing rows) 0%nat); [done|done| |apply first_page].
    destruct m; [|lia]. rewrite length_app in Hm. cbn in Hm. lia.
Qed.

End Keyset.

(** ** The keys of the listings *)

(** [(created_at, id)], the newest first. *)
Definition newest (a b : Z * Uuid) : Prop := b.1 < a.1 \/ (a.1 = b.1 /\ (b.2 < a.2)%nat).
#[global] Instance newest_dec : RelDecision newest.
Proof. intros a b. unfold newest. apply _. Defined.
#[global] Instance newest_strict : StrictOrder newest.
Proof. unfold newest. split; [intros [t i]; unfold complement; cbn; lia|]. intros [t i] [u j] [v k]. cbn. lia. Qed.
#[global] Instance newest_trichotomy : Trichotomy newest.
Proof.
  unfold newest. intros [t i] [u j]. cbn. destruct (Z.lt_trichotomy t u) as [|[->|]]; [lia| |lia].
  destruct (Nat.lt_trichotomy i j) as [|[->|]]; [lia|by right; left|lia].
Qed.

(** The order of the database on texts. *)
Class Collation := {
  text_lt : relation string;
  text_lt_dec :: RelDecision text_lt;
  text_lt_strict :: StrictOrder text_lt;
  text_lt_trichotomy :: Trichotomy text_lt
}.

(** [(name, id)]. *)
Definition by_name `{Collation} (a b : string * Uuid) : Prop := text_lt a.1 b.1 \/ (a.1 = b.1 /\ (a.2 < b.2)%nat).
#[global] Instance by_name_dec `{Collation} : RelDecision by_name.
Proof. intros a b. unfold by_name. apply _. Defined.
#[global] Instance by_name_strict `{Collation} : StrictOrder by_name.
Proof.
  unfold by_name. split.
  - intros [n i] [Hn|[_ Hi]]; cbn in *; [by apply (irreflexivity text_lt n)|lia].
  - intros [n i] [m j] [o k]. cbn. intros [H1|[-> H1]] [H2|[<- H2]]; [left; by trans m|by left|by left|right; split; [done|lia]].
Qed.
#[global] Instance by_name_trichotomy `{Collation} : Trichotomy by_name.
Proof.
  unfold by_name. intros [n i] [m j]. cbn. destruct (trichotomy text_lt n m) as [Ht|[->|Ht]]; [by left; left| |by right; right; left].
  destruct (Nat.lt_trichotomy i j) as [|[->|]]; [by left; right|by right; left|by right; right; right].
Qed.

Section Anchors.
  Context `{X : Texts}.

(** A struct of two fields. *)
Definition pair_from_json {A B} (n1 n2 : string) (f : Json -> result string A) (g : Json -> result string B) (v : Json)
    : result string (A * B) :=
  fields ← struct_fields [n1; n2] v;
  a ← required n1 f fields;
  b ← required n2 g fields;
  Ok (a, b).
Lemma pair_round_trip {A B} n1 n2 (f : Json -> result string A) (g : Json -> result string B) v w a b :
  n1 <> n2 -> f v = Ok a -> g w = Ok b -> pair_from_json n1 n2 f g (JObj [(n1, v); (n2, w)]) = Ok (a, b).
Proof.
  intros Hn Hf Hg. unfold pair_from_json. cbn [struct_fields mbind result_bind].
  rewrite (required_Ok n1 _ _ v a); [|apply lookup_field_here; cbn; by rewrite bool_decide_eq_false_2|done].
  cbn [mbind result_bind].
  rewrite (required_Ok n2 _ _ w b); [done| |done]. rewrite lookup_field_ne by done. by apply lookup_field_here.
Qed.

#[export, refine] Instance time_anchor : Anchor (Z * Uuid) := {|
  anchor_to_json k := JObj [("created_at", time_to_json k.1); ("id", uuid_to_json k.2)];
  anchor_from_json := pair_from_json "created_at" "id" de_time de_uuid
|}.
Proof. { done. } intros [t i]. apply pair_round_trip; [done|apply de_time_to_json|apply de_uuid_to_json]. Defined.
#[export, refine] Instance name_anchor : Anchor (string * Uuid) := {|
  anchor_to_json k := JObj [("name", JStr k.1); ("id", uuid_to_json k.2)];
  anchor_from_json := pair_from_json "name" "id" de_string de_uuid
|}.
Proof. { done. } intros [n i]. apply pair_round_trip; [done|done|apply de_uuid_to_json]. Defined.

End Anchors.

Module PagesDemo.
#[local] Existing Instance JsonDemo.text.
#[local] Existing Instance TextsDemo.base64.
#[local] Existing Instance TextsDemo.texts.

(** Texts in the order of their codes. *)
Definition code_lt (a b : string) : Prop := (encode a < encode b)%positive.
#[export, refine] Instance collation : Collation := {| text_lt := code_lt |}.
Proof.
  - intros a b. unfold code_lt. apply _.
  - unfold code_lt. split; [intros a; unfold complement; lia|intros a b c; lia].
  - intros a b. unfold code_lt. destruct (Pos.lt_total (encode a) (encode b)) as [|[E%encode_inj|]]; auto.
Defined.

Definition rows : list (Z * Uuid) := [(30, 3%nat); (10, 1%nat); (40, 4%nat); (20, 2%nat); (20, 5%nat)].
Definition page (cursor : option string) : result string (CursorPaged (Z * Uuid)) :=
  cursor_page id newest (fun _ => false) cursor (Some 2) rows.

(** Once all keys are anchors, and once the key of the newest row is none. *)
Lemma cursor_walk_complete_witness :
  (exists pages, walk id newest (fun _ => false) 6 None (Some 2) rows = Some pages /\
    mjoin (cp_data <$> pages) = [(40, 4%nat); (30, 3%nat); (20, 5%nat); (20, 2%nat); (10, 1%nat)]) /\
  walk id newest (fun k => bool_decide (k.1 = 40)) 1000 None (Some 1) rows = None.
Proof.
  assert (NoDup (id <$> rows)) as Hnd by (apply (bool_decide_unpack _); vm_compute; exact I). split.
  - destruct (cursor_walk_complete id newest (fun _ => false) rows Hnd (Some 2)) as [(pages & H1 & H2 & _) _].
    + intros (m & l1 & x & l2 & _ & _ & _ & H). discriminate H.
    + exists pages. split; [exact H1|]. etransitivity; [exact H2|vm_compute; reflexivity].
  - destruct (cursor_walk_complete id newest (fun k => bool_decide (k.1 = 40)) rows Hnd (Some 1)) as [_ H]. apply H.
    exists 1%nat, [], (40, 4%nat), [(30, 3%nat); (20, 5%nat); (20, 2%nat); (10, 1%nat)]. split; [vm_compute; reflexivity|].
    split; [discriminate|]. split; vm_compute; reflexivity.
Defined.

(** Back on the first page there is no cursor forward any more. *)
Definition has_next (p : CursorPaged (Z * Uuid)) : bool := bool_decide (is_Some (cp_next_cursor p)).
Example first_page_again :
  (p ← page None; c ← ok_or (cp_next_cursor p) "no next cursor";
   q ← page (Some c); d ← ok_or (cp_prev_cursor q) "no previous cursor";
   p' ← page (Some d); Ok (bool_decide (cp_data p' = cp_data p), has_next p, has_next p')) = Ok (true, true, false).
Proof. vm_compute. reflexivity. Qed.
End PagesDemo.
