(* ===== verification/Iam.v ===== *)
(** * Identity and access of the admin API

    [services/admin-api/src/iam.rs] over its tables (migrations 0008 to 0024): users, groups and
    roles, service accounts and their tokens, personal tokens, passwords and lockouts.

    A statement that would violate a constraint of the schema fails and changes nothing.  Argon2 and
    the random tokens are parameters; each draw of randomness takes a number of the same supply as
    the identifiers. *)

From S2P Require Import Prelude RustStr RustNum Types Http Json ConfigCore Db Io Texts Pagination.

Local Open Scope Z_scope.

(** ** Tables *)

Record IamUser := {
  iu_id : Uuid;
  iu_username : option string;
  iu_subject : option string;
  iu_email : option string;
  iu_display_name : option string;
  iu_status : string;
  iu_is_protected : bool;
  iu_last_login_at : option Z;
  iu_created_at : Z;
  iu_updated_at : Z;
  iu_password_hash : option string;
  iu_password_updated_at : option Z;
  iu_failed_login_attempts : Z;
  iu_locked_until : option Z;
  iu_must_change_password : bool;
  iu_token_version : Z
}.
Record IamGroup := {
  ig_id : Uuid; ig_name : string; ig_description : option string; ig_status : string; ig_created_at : Z; ig_updated_at : Z
}.
Record IamRole := { ir_id : Uuid; ir_name : string; ir_description : option string; ir_builtin : bool; ir_created_at : Z }.
Record ServiceAccount := {
  sa_id : Uuid;
  sa_name : string;
  sa_description : option string;
  sa_status : string;
  sa_token_hash : string;
  sa_token_hint : option string;
  sa_created_at : Z;
  sa_last_rotated_at : option Z;
  sa_expires_at : option Z
}.
Record UserToken := {
  ut_id : Uuid;
  ut_user_id : Uuid;
  ut_name : string;
  ut_token_hash : string;
  ut_token_hint : option string;
  ut_status : string;
  ut_created_at : Z;
  ut_last_used_at : option Z;
  ut_expires_at : option Z
}.
(** [iam_refresh_tokens]. *)
Record RefreshToken := {
  rk_id : Uuid;
  rk_user_id : Uuid;
  rk_token_hash : string;
  rk_token_hint : option string;
  rk_token_version : Z;
  rk_created_at : Z;
  rk_last_used_at : option Z;
  rk_expires_at : Z;
  rk_revoked_at : option Z;
  rk_revoked_reason : option string;
  rk_replaced_by_id : option Uuid
}.
Record IamAuditEvent := {
  ae_id : Uuid; ae_actor : option string; ae_action : string; ae_target_type : string; ae_target_id : option string;
  ae_payload : Json; ae_created_at : Z
}.

Record IamTables := mkIam {
  it_users : list IamUser;
  it_groups : list IamGroup;
  it_members : list (Uuid * Uuid);
  it_roles : list IamRole;
  it_role_permissions : list (Uuid * string);
  it_user_roles : list (Uuid * Uuid);
  it_group_roles : list (Uuid * Uuid);
  it_service_accounts : list ServiceAccount;
  it_service_account_roles : list (Uuid * Uuid);
  it_user_tokens : list UserToken;
  it_refresh_tokens : list RefreshToken;
  it_audit_events : list IamAuditEvent
}.

Definition set_users (l : list IamUser) (t : IamTables) : IamTables :=
  mkIam l (it_groups t) (it_members t) (it_roles t) (it_role_permissions t) (it_user_roles t) (it_group_roles t)
    (it_service_accounts t) (it_service_account_roles t) (it_user_tokens t) (it_refresh_tokens t)
    (it_audit_events t).
Definition set_groups (l : list IamGroup) (t : IamTables) : IamTables :=
  mkIam (it_users t) l (it_members t) (it_roles t) (it_role_permissions t) (it_user_roles t) (it_group_roles t)
    (it_service_accounts t) (it_service_account_roles t) (it_user_tokens t) (it_refresh_tokens t)
    (it_audit_events t).
Definition set_members (l : list (Uuid * Uuid)) (t : IamTables) : IamTables :=
  mkIam (it_users t) (it_groups t) l (it_roles t) (it_role_permissions t) (it_user_roles t) (it_group_roles t)
    (it_service_accounts t) (it_service_account_roles t) (it_user_tokens t) (it_refresh_tokens t)
    (it_audit_events t).
Definition set_roles (l : list IamRole) (t : IamTables) : IamTables :=
  mkIam (it_users t) (it_groups t) (it_members t) l (it_role_permissions t) (it_user_roles t) (it_group_roles t)
    (it_service_accounts t) (it_service_account_roles t) (it_user_tokens t) (it_refresh_tokens t)
    (it_audit_events t).
Definition set_role_permissions (l : list (Uuid * string)) (t : IamTables) : IamTables :=
  mkIam (it_users t) (it_groups t) (it_members t) (it_roles t) l (it_user_roles t) (it_group_roles t)
    (it_service_accounts t) (it_service_account_roles t) (it_user_tokens t) (it_refresh_tokens t)
    (it_audit_events t).
Definition set_user_roles (l : list (Uuid * Uuid)) (t : IamTables) : IamTables :=
  mkIam (it_users t) (it_groups t) (it_members t) (it_roles t) (it_role_permissions t) l (it_group_roles t)
    (it_service_accounts t) (it_service_account_roles t) (it_user_tokens t) (it_refresh_tokens t)
    (it_audit_events t).
Definition set_group_roles (l : list (Uuid * Uuid)) (t : IamTables) : IamTables :=
  mkIam (it_users t) (it_groups t) (it_members t) (it_roles t) (it_role_permissions t) (it_user_roles t) l
    (it_service_accounts t) (it_service_account_roles t) (it_user_tokens t) (it_refresh_tokens t)
    (it_audit_events t).
Definition set_service_accounts (l : list ServiceAccount) (t : IamTables) : IamTables :=
  mkIam (it_users t) (it_groups t) (it_members t) (it_roles t) (it_role_permissions t) (it_user_roles t)
    (it_group_roles t) l (it_service_account_roles t) (it_user_tokens t) (it_refresh_tokens t) (it_audit_events t).
Definition set_service_account_roles (l : list (Uuid * Uuid)) (t : IamTables) : IamTables :=
  mkIam (it_users t) (it_groups t) (it_members t) (it_roles t) (it_role_permissions t) (it_user_roles t)
    (it_group_roles t) (it_service_accounts t) l (it_user_tokens t) (it_refresh_tokens t) (it_audit_events t).
Definition set_user_tokens (l : list UserToken) (t : IamTables) : IamTables :=
  mkIam (it_users t) (it_groups t) (it_members t) (it_roles t) (it_role_permissions t) (it_user_roles t)
    (it_group_roles t) (it_service_accounts t) (it_service_account_roles t) l (it_refresh_tokens t)
    (it_audit_events t).
Definition set_refresh_tokens (l : list RefreshToken) (t : IamTables) : IamTables :=
  mkIam (it_users t) (it_groups t) (it_members t) (it_roles t) (it_role_permissions t) (it_user_roles t)
    (it_group_roles t) (it_service_accounts t) (it_service_account_roles t) (it_user_tokens t) l (it_audit_events t).
Definition set_audit_events (l : list IamAuditEvent) (t : IamTables) : IamTables :=
  mkIam (it_users t) (it_groups t) (it_members t) (it_roles t) (it_role_permissions t) (it_user_roles t)
    (it_group_roles t) (it_service_accounts t) (it_service_account_roles t) (it_user_tokens t) (it_refresh_tokens t)
    l.

(** [UPDATE .. SET .. WHERE ..]. *)
Definition set_where {A} (p : A -> bool) (f : A -> A) (l : list A) : list A := (fun r => if p r then f r else r) <$> l.
Definition drop_where {A} (p : A -> bool) (l : list A) : list A := List.filter (fun r => negb (p r)) l.

Definition is_user (id : Uuid) (u : IamUser) : bool := bool_decide (iu_id u = id).
Definition is_group (id : Uuid) (g : IamGroup) : bool := bool_decide (ig_id g = id).
Definition is_account (id : Uuid) (a : ServiceAccount) : bool := bool_decide (sa_id a = id).

(** ** Errors *)

Inductive IamError :=
  | NotFound (resource : string)
  | Validation (message : string)
  | DbError (e : SqlError)
  | Crypto (message : string)
  | InvalidCredentials
  | Disabled
  | Locked (until : Z)
  | ProtectedUser
  | LastActiveAdmin.

(** The message of a violated constraint is the database's; here its name stands for it. *)
Definition map_db_error (e : SqlError) : IamError :=
  match e with Violation constraint => Validation constraint | SqlFailure => DbError SqlFailure end.

Definition map_iam_error `{Texts} (e : IamError) : HttpError :=
  match e with
  | NotFound resource => {| he_status := NOT_FOUND; he_code := "NOT_FOUND"; he_message := resource +:+ " not found" |}
  | Validation message => {| he_status := BAD_REQUEST; he_code := "VALIDATION_ERROR"; he_message := message |}
  | DbError _ => {| he_status := INTERNAL_SERVER_ERROR; he_code := "DB_ERROR"; he_message := DB_ERROR |}
  | Crypto message => {| he_status := INTERNAL_SERVER_ERROR; he_code := "CRYPTO_ERROR"; he_message := message |}
  | InvalidCredentials => {| he_status := UNAUTHORIZED; he_code := "INVALID_CREDENTIALS"; he_message := "invalid credentials" |}
  | Disabled => {| he_status := FORBIDDEN; he_code := "ACCOUNT_DISABLED"; he_message := "account disabled" |}
  | Locked until =>
      {| he_status := TOO_MANY_REQUESTS; he_code := "ACCOUNT_LOCKED";
         he_message := "account locked until " +:+ to_rfc3339 until |}
  | ProtectedUser =>
      {| he_status := CONFLICT; he_code := "PROTECTED_USER";
         he_message := "protected local admin cannot be disabled, renamed, or deleted" |}
  | LastActiveAdmin =>
      {| he_status := CONFLICT; he_code := "LAST_ACTIVE_ADMIN";
         he_message := "operation would remove the last active policy-admin" |}
  end.

(** ** Secrets *)

Class Secrets := {
  (** [thread_rng().sample_iter(&Alphanumeric).take(n)] *)
  random_alphanumeric : Uuid -> nat -> string;
  (** [Argon2::hash_password] with a salt of the operating system *)
  argon_hash : Uuid -> string -> result string string;
  (** [PasswordHash::new] and [verify_password] *)
  argon_verify : string -> string -> result string bool;
  argon_verify_hash e secret hash : argon_hash e secret = Ok hash -> argon_verify secret hash = Ok true
}.

Abbreviation IM := (M IamTables Empty_set).
Abbreviation IamM := (M IamTables Empty_set IamError).

Section Service.
  Context `{U : Unicode} `{SE : Secrets} `{X : Texts} `{C : Collation} (env : Env).

Definition iam_fetch {A} (f : Z -> IamTables -> A) : IamM A := map_error (fun _ => DbError SqlFailure) (fetch f).
Definition iam_update (f : Z -> IamTables -> IamTables) : IamM unit := map_error (fun _ => DbError SqlFailure) (update f).
(** A statement with its constraints: [?] and [.map_err(map_db_error)?]. *)
Definition iam_checked {A} (f : Z -> IamTables -> result string (A * IamTables)) : IamM A := map_error DbError (checked f).
Definition iam_insert {A} (f : Z -> IamTables -> result string (A * IamTables)) : IamM A := map_error map_db_error (checked f).
Definition iam_transaction {A} (m : IM string A) : IamM A := map_error (fun _ => DbError SqlFailure) (transaction m).
Definition fail {A} (e : IamError) : IamM A := of_result (Err e).
Definition found {A} (resource : string) (o : option A) : IamM A := of_result (ok_or o (NotFound resource)).

Definition generate_token : IamM string := e ← new_v4; mret (random_alphanumeric e 48).
Definition hash_token (token : string) : IamM string := e ← new_v4; of_result (map_err Crypto (argon_hash e token)).
Definition verify_hash (token hash : string) : IamM bool := of_result (map_err Crypto (argon_verify token hash)).

(** The last eight bytes. *)
Definition token_hint (token : string) : string :=
  let trimmed := trim token in
  if decide (str_len trimmed <= 8)%nat then trimmed else String.substring (str_len trimmed - 8) 8 trimmed.

Definition default_service_account_expiry : IamM Z :=
  t ← utc_now;
  let ttl_days := Z.max (default 90 (v ← env !! "OD_IAM_SERVICE_TOKEN_TTL_DAYS"; parse_i64 v)) 1 in
  mret (t + ttl_days * 86400000).

(** ** Users *)

(** [LOWER(a) = LOWER(b)], and [BTRIM]. *)
Definition lower_eq (a b : string) : bool := bool_decide (to_lowercase a = to_lowercase b).
Definition btrim (s : string) : string := trim_start_matches " " (trim_end_matches " " s).
Definition opt_eq (f : string -> string -> bool) (a b : option string) : bool :=
  match a, b with Some a, Some b => f a b | _, _ => false end.
Definition same_text (a b : string) : bool := bool_decide (a = b).
Definition STATUSES : list string := ["active"; "disabled"].

(** The constraints on a row of [iam_users] beside the other rows. *)
Definition user_violation (others : list IamUser) (u : IamUser) : option string :=
  if negb (bool_decide (iu_status u ∈ STATUSES)) then Some "iam_users_status_check"
  else if is_empty (btrim (default "" (iu_username u))) && is_empty (btrim (default "" (iu_email u)))
  then Some "iam_users_identity_not_empty"
  else if any (fun o => bool_decide (iu_id o = iu_id u)) others then Some "iam_users_pkey"
  else if any (fun o => opt_eq same_text (iu_subject o) (iu_subject u)) others then Some "iam_users_subject_key"
  else if any (fun o => opt_eq same_text (iu_email o) (iu_email u)) others then Some "iam_users_email_key"
  else if any (fun o => opt_eq lower_eq (iu_email o) (iu_email u)) others then Some "iam_users_email_lower_uidx"
  else if any (fun o => opt_eq lower_eq (iu_username o) (iu_username u)) others then Some "iam_users_username_lower_uidx"
  else None.

Definition insert_user (u : IamUser) (t : IamTables) : result string (IamUser * IamTables) :=
  match user_violation (it_users t) u with
  | Some c => Err c
  | None => Ok (u, set_users (it_users t ++ [u]) t)
  end.
(** [UPDATE iam_users SET .. WHERE id = $1 RETURNING ..]. *)
Definition change_user (id : Uuid) (f : IamUser -> IamUser) (t : IamTables) : result string (option IamUser * IamTables) :=
  match find_first (is_user id) (it_users t) with
  | None => Ok (None, t)
  | Some u =>
      match user_violation (drop_where (is_user id) (it_users t)) (f u) with
      | Some c => Err c
      | None => Ok (Some (f u), set_users (set_where (is_user id) f (it_users t)) t)
      end
  end.

Definition get_user (id : Uuid) : IamM IamUser :=
  u ← iam_fetch (fun _ t => find_first (is_user id) (it_users t)); found "user" u.
Definition find_user_by_subject (subject : string) : IamM (option IamUser) :=
  iam_fetch (fun _ t => find_first (fun u => bool_decide (iu_subject u = Some subject)) (it_users t)).
Definition find_user_by_email (email : string) : IamM (option IamUser) :=
  iam_fetch (fun _ t => find_first (fun u => bool_decide (iu_email u = Some (trim email))) (it_users t)).

Record CreateUserRequest := {
  cu_username : string; cu_subject : option string; cu_email : option string; cu_display_name : option string;
  cu_status : option string; cu_password : string; cu_must_change_password : option bool
}.
Record UpdateUserRequest := {
  uu_username : option string; uu_subject : option string; uu_email : option string; uu_display_name : option string;
  uu_status : option string
}.

(** [.map(trim).filter(|v| !v.is_empty())]. *)
Definition non_blank (o : option string) : option string :=
  v ← o; if is_empty (trim v) then None else Some (trim v).

Definition new_user (id : Uuid) (p : CreateUserRequest) (password_hash : string) (now : Z) : IamUser :=
  {| iu_id := id; iu_username := Some (trim (cu_username p)); iu_subject := cu_subject p; iu_email := non_blank (cu_email p);
     iu_display_name := cu_display_name p; iu_status := default "active" (cu_status p); iu_is_protected := false;
     iu_last_login_at := None; iu_created_at := now; iu_updated_at := now; iu_password_hash := Some password_hash;
     iu_password_updated_at := Some now; iu_failed_login_attempts := 0; iu_locked_until := None;
     iu_must_change_password := default true (cu_must_change_password p); iu_token_version := 1 |}.

Definition create_user (p : CreateUserRequest) : IamM IamUser :=
  if is_empty (trim (cu_username p)) then fail (Validation "username required")
  else
    let trimmed_password := trim (cu_password p) in
    if is_empty trimmed_password then fail (Validation "password is required for user creation")
    else if decide (str_len trimmed_password < 8)%nat then fail (Validation "password must be at least 8 characters")
    else
      password_hash ← hash_token trimmed_password;
      id ← new_v4;
      iam_insert (fun now t => insert_user (new_user id p password_hash now) t).

(** The columns that updates of a user change. *)
Definition with_profile (p : UpdateUserRequest) (now : Z) (u : IamUser) : IamUser :=
  let status := default (iu_status u) (uu_status p) in
  {| iu_id := iu_id u; iu_username := match uu_username p with Some v => Some v | None => iu_username u end;
     iu_subject := match uu_subject p with Some v => Some v | None => iu_subject u end;
     iu_email := match uu_email p with Some v => Some v | None => iu_email u end;
     iu_display_name := match uu_display_name p with Some v => Some v | None => iu_display_name u end;
     iu_status := status; iu_is_protected := iu_is_protected u; iu_last_login_at := iu_last_login_at u;
     iu_created_at := iu_created_at u; iu_updated_at := now; iu_password_hash := iu_password_hash u;
     iu_password_updated_at := iu_password_updated_at u; iu_failed_login_attempts := iu_failed_login_attempts u;
     iu_locked_until := iu_locked_until u; iu_must_change_password := iu_must_change_password u;
     iu_token_version := if decide (status = "disabled" /\ iu_status u <> "disabled")
                         then iu_token_version u + 1 else iu_token_version u |}.
Definition with_status (status : string) (token_version : Z) (now : Z) (u : IamUser) : IamUser :=
  {| iu_id := iu_id u; iu_username := iu_username u; iu_subject := iu_subject u; iu_email := iu_email u;
     iu_display_name := iu_display_name u; iu_status := status; iu_is_protected := iu_is_protected u;
     iu_last_login_at := iu_last_login_at u; iu_created_at := iu_created_at u; iu_updated_at := now;
     iu_password_hash := iu_password_hash u; iu_password_updated_at := iu_password_updated_at u;
     iu_failed_login_attempts := iu_failed_login_attempts u; iu_locked_until := iu_locked_until u;
     iu_must_change_password := iu_must_change_password u; iu_token_version := token_version |}.
Definition with_attempts (failed : Z) (locked_until : option Z) (last_login_at : option Z) (now : Z) (u : IamUser) : IamUser :=
  {| iu_id := iu_id u; iu_username := iu_username u; iu_subject := iu_subject u; iu_email := iu_email u;
     iu_display_name := iu_display_name u; iu_status := iu_status u; iu_is_protected := iu_is_protected u;
     iu_last_login_at := last_login_at; iu_created_at := iu_created_at u; iu_updated_at := now;
     iu_password_hash := iu_password_hash u; iu_password_updated_at := iu_password_updated_at u;
     iu_failed_login_attempts := failed; iu_locked_until := locked_until;
     iu_must_change_password := iu_must_change_password u; iu_token_version := iu_token_version u |}.
Definition with_password (hash : string) (must_change : bool) (now : Z) (u : IamUser) : IamUser :=
  {| iu_id := iu_id u; iu_username := iu_username u; iu_subject := iu_subject u; iu_email := iu_email u;
     iu_display_name := iu_display_name u; iu_status := iu_status u; iu_is_protected := iu_is_protected u;
     iu_last_login_at := iu_last_login_at u; iu_created_at := iu_created_at u; iu_updated_at := now;
     iu_password_hash := Some hash; iu_password_updated_at := Some now; iu_failed_login_attempts := 0;
     iu_locked_until := None; iu_must_change_password := must_change; iu_token_version := iu_token_version u + 1 |}.

(** ** Roles *)

Definition POLICY_ADMIN : string := "policy-admin".

(** The roles of a user, its own and those of its groups. *)
Definition user_role_ids (t : IamTables) (user_id : Uuid) : list Uuid :=
  (snd <$> List.filter (fun ur => bool_decide (ur.1 = user_id)) (it_user_roles t)) ++
  (snd <$> List.filter (fun gr => bool_decide ((gr.1, user_id) ∈ it_members t)) (it_group_roles t)).
Definition user_role_rows (t : IamTables) (user_id : Uuid) : list IamRole :=
  List.filter (fun r => bool_decide (ir_id r ∈ user_role_ids t user_id)) (it_roles t).
Definition account_role_rows (t : IamTables) (account_id : Uuid) : list IamRole :=
  List.filter (fun r => bool_decide ((account_id, ir_id r) ∈ it_service_account_roles t)) (it_roles t).
Definition group_role_rows (t : IamTables) (group_id : Uuid) : list IamRole :=
  List.filter (fun r => bool_decide ((group_id, ir_id r) ∈ it_group_roles t)) (it_roles t).

Definition name_le (a b : string) : Prop := ~ text_lt b a.
#[local] Instance name_le_dec : RelDecision name_le.
Proof. intros a b. unfold name_le. apply _. Defined.
Definition ordered_names (l : list IamRole) : list string := merge_sort name_le (ir_name <$> l).

Definition user_roles (user_id : Uuid) : IamM (list string) := iam_fetch (fun _ t => ordered_names (user_role_rows t user_id)).
Definition group_roles (group_id : Uuid) : IamM (list string) := iam_fetch (fun _ t => ordered_names (group_role_rows t group_id)).
Definition service_account_roles (id : Uuid) : IamM (list string) :=
  iam_fetch (fun _ t => ordered_names (account_role_rows t id)).

Record EffectiveAccess := { ea_roles : gset string; ea_permissions : gset string }.

Definition permissions_of (role_ids : list Uuid) (t : IamTables) : gset string :=
  list_to_set (snd <$> List.filter (fun rp => bool_decide (rp.1 ∈ role_ids)) (it_role_permissions t)).
Definition effective (rows : list IamRole) : IamM EffectiveAccess :=
  let role_ids := ir_id <$> rows in
  permissions ← (if decide (role_ids = []) then mret ∅ else iam_fetch (fun _ t => permissions_of role_ids t));
  mret {| ea_roles := list_to_set (ir_name <$> rows); ea_permissions := permissions |}.
Definition effective_permissions_for_user (user_id : Uuid) : IamM EffectiveAccess :=
  rows ← iam_fetch (fun _ t => user_role_rows t user_id); effective rows.
Definition effective_permissions_for_service_account (id : Uuid) : IamM EffectiveAccess :=
  rows ← iam_fetch (fun _ t => account_role_rows t id); effective rows.

Definition role_id_by_name (role : string) : IamM Uuid :=
  row ← iam_fetch (fun _ t => find_first (fun r => bool_decide (ir_name r = role)) (it_roles t));
  of_result (ok_or (ir_id <$> row) (Validation ("unknown role: " +:+ role))).
Definition role_ids_by_name (names : list string) : IamM (list Uuid) :=
  if decide (names = []) then mret []
  else
    rows ← iam_fetch (fun _ t => List.filter (fun r => bool_decide (ir_name r ∈ names)) (it_roles t));
    let missing := List.filter (fun n => negb (bool_decide (n ∈ ir_name <$> rows))) names in
    if decide (missing = []) then mret (ir_id <$> rows)
    else fail (Validation ("unknown role(s): " +:+ join ", " missing)).

(** ** Who may be changed *)

Definition holds_policy_admin (t : IamTables) (user_id : Uuid) : bool :=
  any (fun r => bool_decide (ir_name r = POLICY_ADMIN)) (user_role_rows t user_id).
Definition active_admin (t : IamTables) (u : IamUser) : bool :=
  bool_decide (iu_status u = "active") && holds_policy_admin t (iu_id u).

Definition user_is_protected (id : Uuid) : IamM bool :=
  row ← iam_fetch (fun _ t => find_first (is_user id) (it_users t));
  u ← found "user" row; mret (iu_is_protected u).
Definition user_is_active_policy_admin (id : Uuid) : IamM bool :=
  iam_fetch (fun _ t => any (fun u => is_user id u && active_admin t u) (it_users t)).
Definition active_policy_admin_count : IamM Z :=
  iam_fetch (fun _ t => Z.of_nat (length (List.filter (active_admin t) (it_users t)))).
Definition has_active_policy_admin : IamM bool := n ← active_policy_admin_count; mret (bool_decide (0 < n)).

Definition ensure_user_mutation_allowed (id : Uuid) (enforce_last_admin : bool) : IamM unit :=
  protected ← user_is_protected id;
  if protected : bool then fail ProtectedUser
  else
    is_admin ← (if enforce_last_admin then user_is_active_policy_admin id else mret false);
    if is_admin : bool then
      active_admins ← active_policy_admin_count;
      if decide (active_admins <= 1) then fail LastActiveAdmin else mret tt
    else mret tt.

Definition update_user (id : Uuid) (p : UpdateUserRequest) : IamM IamUser :=
  let disable_requested := match uu_status p with Some s => eq_ignore_ascii_case s "disabled" | None => false end in
  _ ← (if disable_requested then ensure_user_mutation_allowed id true else mret tt);
  protected ← (if bool_decide (is_Some (uu_username p)) then user_is_protected id else mret false);
  if protected : bool then fail ProtectedUser
  else
    row ← iam_checked (fun now t => change_user id (with_profile p now) t);
    found "user" row.

(** [rows_affected() == 0] is a missing row. *)
Definition affect_user (id : Uuid) (f : Z -> IamUser -> IamUser) : IamM unit :=
  row ← iam_checked (fun now t => change_user id (f now) t);
  _ ← found "user" row;
  mret tt.

Definition disable_user (id : Uuid) : IamM unit :=
  _ ← ensure_user_mutation_allowed id true;
  affect_user id (fun now u => with_status "disabled" (iu_token_version u + 1) now u).
Definition enable_user (id : Uuid) : IamM unit :=
  affect_user id (fun now u => with_status "active" (iu_token_version u) now u).

(** [DELETE FROM iam_users] with its cascades. *)
Definition delete_user_row (id : Uuid) (t : IamTables) : bool * IamTables :=
  (any (is_user id) (it_users t),
   mkIam (drop_where (is_user id) (it_users t)) (it_groups t)
     (drop_where (fun gm => bool_decide (gm.2 = id)) (it_members t)) (it_roles t) (it_role_permissions t)
     (drop_where (fun ur => bool_decide (ur.1 = id)) (it_user_roles t)) (it_group_roles t) (it_service_accounts t)
     (it_service_account_roles t) (drop_where (fun k => bool_decide (ut_user_id k = id)) (it_user_tokens t))
     (drop_where (fun k => bool_decide (rk_user_id k = id)) (it_refresh_tokens t)) (it_audit_events t)).
Definition affected (resource : string) (f : Z -> IamTables -> bool * IamTables) : IamM unit :=
  hit ← map_error (fun _ => DbError SqlFailure) (sql f);
  if hit : bool then mret tt else fail (NotFound resource).
Definition hard_delete_user (id : Uuid) : IamM unit :=
  _ ← ensure_user_mutation_allowed id true;
  affected "user" (fun _ => delete_user_row id).

(** ** Groups *)

Record CreateGroupRequest := { cg_name : string; cg_description : option string; cg_status : option string }.
Record UpdateGroupRequest := { ug_name : option string; ug_description : option string; ug_status : option string }.

Definition group_violation (others : list IamGroup) (g : IamGroup) : option string :=
  if negb (bool_decide (ig_status g ∈ STATUSES)) then Some "iam_groups_status_check"
  else if any (fun o => bool_decide (ig_id o = ig_id g)) others then Some "iam_groups_pkey"
  else if any (fun o => bool_decide (ig_name o = ig_name g)) others then Some "iam_groups_name_key"
  else None.

Definition get_group (id : Uuid) : IamM IamGroup :=
  g ← iam_fetch (fun _ t => find_first (is_group id) (it_groups t)); found "group" g.

Definition create_group (p : CreateGroupRequest) : IamM IamGroup :=
  if is_empty (trim (cg_name p)) then fail (Validation "name required")
  else
    id ← new_v4;
    iam_insert (fun now t =>
      let g := {| ig_id := id; ig_name := trim (cg_name p); ig_description := cg_description p;
                  ig_status := default "active" (cg_status p); ig_created_at := now; ig_updated_at := now |} in
      match group_violation (it_groups t) g with
      | Some c => Err c
      | None => Ok (g, set_groups (it_groups t ++ [g]) t)
      end).

Definition with_group (p : UpdateGroupRequest) (now : Z) (g : IamGroup) : IamGroup :=
  {| ig_id := ig_id g; ig_name := default (ig_name g) (ug_name p);
     ig_description := match ug_description p with Some v => Some v | None => ig_description g end;
     ig_status := default (ig_status g) (ug_status p); ig_created_at := ig_created_at g; ig_updated_at := now |}.
Definition update_group (id : Uuid) (p : UpdateGroupRequest) : IamM IamGroup :=
  row ← iam_checked (fun now t =>
    match find_first (is_group id) (it_groups t) with
    | None => Ok (None, t)
    | Some g =>
        match group_violation (drop_where (is_group id) (it_groups t)) (with_group p now g) with
        | Some c => Err c
        | None => Ok (Some (with_group p now g), set_groups (set_where (is_group id) (with_group p now) (it_groups t)) t)
        end
    end);
  found "group" row.

(** [DELETE FROM iam_groups] with its cascades. *)
Definition delete_group_row (id : Uuid) (t : IamTables) : bool * IamTables :=
  (any (is_group id) (it_groups t),
   mkIam (it_users t) (drop_where (is_group id) (it_groups t))
     (drop_where (fun gm => bool_decide (gm.1 = id)) (it_members t)) (it_roles t) (it_role_permissions t) (it_user_roles t)
     (drop_where (fun gr => bool_decide (gr.1 = id)) (it_group_roles t)) (it_service_accounts t)
     (it_service_account_roles t) (it_user_tokens t) (it_refresh_tokens t) (it_audit_events t)).
Definition delete_group (id : Uuid) : IamM unit := affected "group" (fun _ => delete_group_row id).

(** [INSERT .. ON CONFLICT DO NOTHING] into a table of pairs that refer to two others. *)
Definition insert_pair (pair : Uuid * Uuid) (here there : bool) (pairs : list (Uuid * Uuid)) (constraint : string)
    (set : list (Uuid * Uuid) -> IamTables -> IamTables) (t : IamTables) : result string (unit * IamTables) :=
  if decide (pair ∈ pairs) then Ok (tt, t)
  else if here && there then Ok (tt, set (pairs ++ [pair]) t)
  else Err constraint.

Definition user_exists (id : Uuid) (t : IamTables) : bool := any (is_user id) (it_users t).
Definition group_exists (id : Uuid) (t : IamTables) : bool := any (is_group id) (it_groups t).
Definition role_exists (id : Uuid) (t : IamTables) : bool := any (fun r => bool_decide (ir_id r = id)) (it_roles t).
Definition account_exists (id : Uuid) (t : IamTables) : bool := any (is_account id) (it_service_accounts t).

Definition email_le (a b : IamUser) : Prop :=
  match iu_email a, iu_email b with
  | Some x, Some y => name_le x y
  | None, Some _ => False
  | _, None => True
  end.
#[local] Instance email_le_dec : RelDecision email_le.
Proof. intros a b. unfold email_le. destruct (iu_email a), (iu_email b); apply _. Defined.
Definition list_group_members (group_id : Uuid) : IamM (list IamUser) :=
  iam_fetch (fun _ t => merge_sort email_le
    (List.filter (fun u => bool_decide ((group_id, iu_id u) ∈ it_members t)) (it_users t))).

Definition add_group_member (group_id user_id : Uuid) : IamM unit :=
  iam_checked (fun _ t => insert_pair (group_id, user_id) (group_exists group_id t) (user_exists user_id t)
    (it_members t) "iam_group_members_fkey" set_members t).
Definition remove_group_member (group_id user_id : Uuid) : IamM unit :=
  affected "membership" (fun _ t =>
    (bool_decide ((group_id, user_id) ∈ it_members t),
     set_members (drop_where (fun gm => bool_decide (gm = (group_id, user_id))) (it_members t)) t)).

Definition assign_role_to_user (user_id : Uuid) (role : string) : IamM (list string) :=
  role_id ← role_id_by_name role;
  _ ← iam_checked (fun _ t => insert_pair (user_id, role_id) (user_exists user_id t) (role_exists role_id t)
        (it_user_roles t) "iam_user_roles_fkey" set_user_roles t);
  user_roles user_id.
Definition revoke_role_from_user (user_id : Uuid) (role : string) : IamM (list string) :=
  _ ← (if eq_ignore_ascii_case role POLICY_ADMIN then ensure_user_mutation_allowed user_id true else mret tt);
  role_id ← role_id_by_name role;
  _ ← iam_update (fun _ t =>
        set_user_roles (drop_where (fun ur => bool_decide (ur = (user_id, role_id))) (it_user_roles t)) t);
  user_roles user_id.
Definition assign_role_to_group (group_id : Uuid) (role : string) : IamM (list string) :=
  role_id ← role_id_by_name role;
  _ ← iam_checked (fun _ t => insert_pair (group_id, role_id) (group_exists group_id t) (role_exists role_id t)
        (it_group_roles t) "iam_group_roles_fkey" set_group_roles t);
  group_roles group_id.
Definition revoke_role_from_group (group_id : Uuid) (role : string) : IamM (list string) :=
  role_id ← role_id_by_name role;
  _ ← iam_update (fun _ t =>
        set_group_roles (drop_where (fun gr => bool_decide (gr = (group_id, role_id))) (it_group_roles t)) t);
  group_roles group_id.

(** ** Service accounts *)

Record CreateServiceAccountRequest := {
  ca_name : string; ca_description : option string; ca_roles : list string; ca_status : option string; ca_expires_at : option Z
}.
Record UpdateServiceAccountRoles := { us_roles : list string; us_expires_at : option Z }.

Definition account_violation (others : list ServiceAccount) (a : ServiceAccount) : option string :=
  if negb (bool_decide (sa_status a ∈ STATUSES)) then Some "iam_service_accounts_status_check"
  else if any (fun o => bool_decide (sa_id o = sa_id a)) others then Some "iam_service_accounts_pkey"
  else if any (fun o => bool_decide (sa_name o = sa_name a)) others then Some "iam_service_accounts_name_key"
  else None.

Definition get_service_account (id : Uuid) : IamM ServiceAccount :=
  a ← iam_fetch (fun _ t => find_first (is_account id) (it_service_accounts t)); found "service_account" a.

(** The transaction that replaces the roles of an account. *)
Definition insert_account_role (id role_id : Uuid) : IM string unit :=
  map_error (fun _ => DB_ERROR) (checked (fun _ t =>
    if bool_decide ((id, role_id) ∈ it_service_account_roles t) then Err "iam_service_account_roles_pkey"
    else if account_exists id t && role_exists role_id t
    then Ok (tt, set_service_account_roles (it_service_account_roles t ++ [(id, role_id)]) t)
    else Err "iam_service_account_roles_fkey")).
Definition replace_service_account_roles (id : Uuid) (roles : list string) : IamM unit :=
  role_ids ← role_ids_by_name roles;
  iam_transaction (
    _ ← update (fun _ t => set_service_account_roles
          (drop_where (fun sr => bool_decide (sr.1 = id)) (it_service_account_roles t)) t);
    each (insert_account_role id) role_ids).

Definition expiry_or_default (o : option Z) : IamM Z :=
  match o with Some t => mret t | None => default_service_account_expiry end.

Definition create_service_account (p : CreateServiceAccountRequest) : IamM (ServiceAccount * string) :=
  if is_empty (trim (ca_name p)) then fail (Validation "name required")
  else
    token ← generate_token;
    hash ← hash_token token;
    expires_at ← expiry_or_default (ca_expires_at p);
    id ← new_v4;
    record ← iam_insert (fun now t =>
      let a := {| sa_id := id; sa_name := trim (ca_name p); sa_description := ca_description p;
                  sa_status := default "active" (ca_status p); sa_token_hash := hash; sa_token_hint := Some (token_hint token);
                  sa_created_at := now; sa_last_rotated_at := Some now; sa_expires_at := Some expires_at |} in
      match account_violation (it_service_accounts t) a with
      | Some c => Err c
      | None => Ok (a, set_service_accounts (it_service_accounts t ++ [a]) t)
      end);
    _ ← (if decide (ca_roles p = []) then mret tt else replace_service_account_roles (sa_id record) (ca_roles p));
    mret (record, token).

Definition with_token (hash hint : string) (expires_at : Z) (now : Z) (a : ServiceAccount) : ServiceAccount :=
  {| sa_id := sa_id a; sa_name := sa_name a; sa_description := sa_description a; sa_status := sa_status a;
     sa_token_hash := hash; sa_token_hint := Some hint; sa_created_at := sa_created_at a; sa_last_rotated_at := Some now;
     sa_expires_at := Some expires_at |}.
Definition with_account_status (status : string) (a : ServiceAccount) : ServiceAccount :=
  {| sa_id := sa_id a; sa_name := sa_name a; sa_description := sa_description a; sa_status := status;
     sa_token_hash := sa_token_hash a; sa_token_hint := sa_token_hint a; sa_created_at := sa_created_at a;
     sa_last_rotated_at := sa_last_rotated_at a; sa_expires_at := sa_expires_at a |}.
(** [UPDATE iam_service_accounts SET .. WHERE id = $1 RETURNING ..]. *)
Definition change_account (id : Uuid) (f : ServiceAccount -> ServiceAccount) (t : IamTables) : option ServiceAccount * IamTables :=
  (f <$> find_first (is_account id) (it_service_accounts t),
   set_service_accounts (set_where (is_account id) f (it_service_accounts t)) t).

Definition rotate_service_account (id : Uuid) (p : option UpdateServiceAccountRoles) : IamM (ServiceAccount * string) :=
  token ← generate_token;
  hash ← hash_token token;
  expires_at ← expiry_or_default (p ≫= us_expires_at);
  row ← map_error (fun _ => DbError SqlFailure) (sql (fun now => change_account id (with_token hash (token_hint token) expires_at now)));
  record ← found "service_account" row;
  _ ← match p with
      | Some u => if decide (us_roles u = []) then mret tt else replace_service_account_roles (sa_id record) (us_roles u)
      | None => mret tt
      end;
  mret (record, token).
Definition disable_service_account (id : Uuid) : IamM unit :=
  row ← map_error (fun _ => DbError SqlFailure) (sql (fun _ => change_account id (with_account_status "disabled")));
  _ ← found "service_account" row;
  mret tt.

Record ServiceAccountPrincipal := { sp_id : Uuid; sp_name : string; sp_access : EffectiveAccess }.

(** The first candidate whose hash the token has. *)
Fixpoint verify_accounts (token : string) (candidates : list ServiceAccount) : IamM (option ServiceAccountPrincipal) :=
  match candidates with
  | [] => mret None
  | a :: candidates' =>
      ok ← verify_hash token (sa_token_hash a);
      if ok : bool then
        access ← effective_permissions_for_service_account (sa_id a);
        mret (Some {| sp_id := sa_id a; sp_name := sa_name a; sp_access := access |})
      else verify_accounts token candidates'
  end.
Definition verify_service_token (token : string) : IamM (option ServiceAccountPrincipal) :=
  candidates ← iam_fetch (fun now t => List.filter (fun a =>
    bool_decide (sa_status a = "active") && bool_decide (sa_token_hint a = Some (token_hint token)) &&
    match sa_expires_at a with Some at_ => bool_decide (now < at_) | None => true end) (it_service_accounts t));
  verify_accounts token candidates.

(** ** Passwords *)

Record LocalAuthenticatedUser := {
  lu_id : Uuid; lu_username : option string; lu_email : string; lu_display_name : option string; lu_access : EffectiveAccess;
  lu_must_change_password : bool; lu_token_version : Z
}.

Definition email_or_username (u : IamUser) : string :=
  match iu_email u with Some e => e | None => default "" (iu_username u) end.
Definition local_user (u : IamUser) (access : EffectiveAccess) (must_change : bool) : LocalAuthenticatedUser :=
  {| lu_id := iu_id u; lu_username := iu_username u; lu_email := email_or_username u; lu_display_name := iu_display_name u;
     lu_access := access; lu_must_change_password := must_change; lu_token_version := iu_token_version u |}.

Definition named (name : string) (u : IamUser) : bool :=
  opt_eq lower_eq (iu_email u) (Some name) || lower_eq (default "" (iu_username u)) name.

(** [UPDATE iam_users .. WHERE id = $1] of columns without constraints. *)
Definition touch_user (id : Uuid) (f : Z -> IamUser -> IamUser) : IamM unit :=
  iam_update (fun now t => set_users (set_where (is_user id) (f now) (it_users t)) t).

Definition authenticate_local_user (username_or_email password : string) (max_failed_attempts lockout_seconds : Z)
    : IamM LocalAuthenticatedUser :=
  row ← iam_fetch (fun _ t => find_first (named (trim username_or_email)) (it_users t));
  u ← of_result (ok_or row InvalidCredentials);
  if negb (bool_decide (iu_status u = "active")) then fail Disabled
  else
    t ← utc_now;
    match iu_locked_until u with
    | Some until => if decide (t < until) then fail (Locked until) else mret tt
    | None => mret tt
    end ;;
    hash ← of_result (ok_or (iu_password_hash u) InvalidCredentials);
    valid ← verify_hash password hash;
    if valid : bool then
      _ ← touch_user (iu_id u) (fun now => with_attempts 0 None (Some now) now);
      access ← effective_permissions_for_user (iu_id u);
      mret (local_user u access (iu_must_change_password u))
    else
      let failed := as_i32 (iu_failed_login_attempts u + 1) in
      t ← utc_now;
      let lock_until := if decide (max_failed_attempts <= failed) then Some (t + Z.max lockout_seconds 1 * 1000) else None in
      _ ← touch_user (iu_id u) (fun now r => with_attempts failed lock_until (iu_last_login_at r) now r);
      fail InvalidCredentials.

Definition user_token_version (user_id : Uuid) : IamM Z :=
  row ← iam_fetch (fun _ t => find_first (is_user user_id) (it_users t));
  u ← found "user" row;
  mret (iu_token_version u).

Definition set_user_password (user_id : Uuid) (password : string) (must_change_password : bool) : IamM unit :=
  if is_empty (trim password) then fail (Validation "password is required")
  else if decide (str_len (trim password) < 8)%nat then fail (Validation "password must be at least 8 characters")
  else
    hash ← hash_token (trim password);
    hit ← map_error (fun _ => DbError SqlFailure) (sql (fun now t =>
      (user_exists user_id t, set_users (set_where (is_user user_id) (with_password hash must_change_password now) (it_users t)) t)));
    if hit : bool then mret tt else fail (NotFound "user").

Definition change_password (user_id : Uuid) (current_password new_password : string) : IamM unit :=
  row ← iam_fetch (fun _ t => find_first (is_user user_id) (it_users t));
  u ← found "user" row;
  existing ← of_result (ok_or (iu_password_hash u) InvalidCredentials);
  ok ← verify_hash current_password existing;
  if ok : bool then set_user_password user_id new_password false else fail InvalidCredentials.

(** ** Personal tokens *)

Record CreateUserTokenRequest := { ct_name : string; ct_expires_at : option Z }.

Definition user_token_violation (t : IamTables) (k : UserToken) : option string :=
  if any (fun o => bool_decide (ut_id o = ut_id k)) (it_user_tokens t) then Some "iam_user_tokens_pkey"
  else if negb (user_exists (ut_user_id k) t) then Some "iam_user_tokens_user_id_fkey"
  else if any (fun o => bool_decide (ut_user_id o = ut_user_id k) && lower_eq (ut_name o) (ut_name k)) (it_user_tokens t)
  then Some "iam_user_tokens_user_name_uidx"
  else None.

Definition create_user_token (user_id : Uuid) (p : CreateUserTokenRequest) : IamM (string * UserToken) :=
  if is_empty (trim (ct_name p)) then fail (Validation "token name is required")
  else
    token ← generate_token;
    hash ← hash_token token;
    id ← new_v4;
    record ← iam_insert (fun now t =>
      let k := {| ut_id := id; ut_user_id := user_id; ut_name := trim (ct_name p); ut_token_hash := hash;
                  ut_token_hint := Some (token_hint token); ut_status := "active"; ut_created_at := now;
                  ut_last_used_at := None; ut_expires_at := ct_expires_at p |} in
      match user_token_violation t k with
      | Some c => Err c
      | None => Ok (k, set_user_tokens (it_user_tokens t ++ [k]) t)
      end);
    mret (token, record).

Definition list_user_tokens (user_id : Uuid) : IamM (list UserToken) :=
  iam_fetch (fun _ t => order_desc ut_created_at (List.filter (fun k => bool_decide (ut_user_id k = user_id)) (it_user_tokens t))).

Definition with_token_status (status : string) (k : UserToken) : UserToken :=
  {| ut_id := ut_id k; ut_user_id := ut_user_id k; ut_name := ut_name k; ut_token_hash := ut_token_hash k;
     ut_token_hint := ut_token_hint k; ut_status := status; ut_created_at := ut_created_at k;
     ut_last_used_at := ut_last_used_at k; ut_expires_at := ut_expires_at k |}.
Definition with_last_use (now : Z) (k : UserToken) : UserToken :=
  {| ut_id := ut_id k; ut_user_id := ut_user_id k; ut_name := ut_name k; ut_token_hash := ut_token_hash k;
     ut_token_hint := ut_token_hint k; ut_status := ut_status k; ut_created_at := ut_created_at k;
     ut_last_used_at := Some now; ut_expires_at := ut_expires_at k |}.
Definition revoke_user_token (user_id token_id : Uuid) : IamM unit :=
  let hit k := bool_decide (ut_id k = token_id) && bool_decide (ut_user_id k = user_id) in
  affected "user_token" (fun _ t =>
    (any hit (it_user_tokens t), set_user_tokens (set_where hit (with_token_status "disabled") (it_user_tokens t)) t)).

(** The candidates with their users: [JOIN iam_users u ON u.id = t.user_id]. *)
Definition token_candidates (token : string) (t : IamTables) : list (UserToken * IamUser) :=
  k ← List.filter (fun k => bool_decide (ut_status k = "active") && bool_decide (ut_token_hint k = Some (token_hint token)))
        (it_user_tokens t);
  pair k <$> List.filter (is_user (ut_user_id k)) (it_users t).
Fixpoint verify_candidates (token : string) (candidates : list (UserToken * IamUser)) : IamM (option LocalAuthenticatedUser) :=
  match candidates with
  | [] => mret None
  | (k, u) :: candidates' =>
      t ← utc_now;
      if match ut_expires_at k with Some at_ => bool_decide (at_ <= t) | None => false end
      then verify_candidates token candidates'
      else
        ok ← verify_hash token (ut_token_hash k);
        if negb ok then verify_candidates token candidates'
        else if negb (bool_decide (iu_status u = "active")) then verify_candidates token candidates'
        else
          access ← effective_permissions_for_user (iu_id u);
          _ ← dropped (iam_update (fun now t => set_user_tokens
                (set_where (fun o => bool_decide (ut_id o = ut_id k)) (with_last_use now) (it_user_tokens t)) t));
          mret (Some (local_user u access false))
  end.
Definition verify_user_token (token : string) : IamM (option LocalAuthenticatedUser) :=
  candidates ← iam_fetch (fun _ t => token_candidates token t);
  verify_candidates token candidates.

(** ** The first administrator *)

Definition default_admin (id : Uuid) (password_hash : string) (now : Z) : IamUser :=
  {| iu_id := id; iu_username := Some "admin"; iu_subject := None; iu_email := Some "admin@local";
     iu_display_name := Some "Default Admin"; iu_status := "active"; iu_is_protected := true; iu_last_login_at := None;
     iu_created_at := now; iu_updated_at := now; iu_password_hash := Some password_hash; iu_password_updated_at := Some now;
     iu_failed_login_attempts := 0; iu_locked_until := None; iu_must_change_password := true; iu_token_version := 1 |}.
(** [ON CONFLICT (email) DO UPDATE SET ..]. *)
Definition keep_admin (password_hash : string) (now : Z) (u : IamUser) : IamUser :=
  {| iu_id := iu_id u; iu_username := match iu_username u with Some n => Some n | None => Some "admin" end;
     iu_subject := iu_subject u; iu_email := iu_email u; iu_display_name := iu_display_name u; iu_status := iu_status u;
     iu_is_protected := true; iu_last_login_at := iu_last_login_at u; iu_created_at := iu_created_at u;
     iu_updated_at := iu_updated_at u;
     iu_password_hash := match iu_password_hash u with Some h => Some h | None => Some password_hash end;
     iu_password_updated_at := match iu_password_updated_at u with Some t => Some t | None => Some now end;
     iu_failed_login_attempts := iu_failed_login_attempts u; iu_locked_until := iu_locked_until u;
     iu_must_change_password := iu_must_change_password u; iu_token_version := iu_token_version u |}.
Definition upsert_admin (id : Uuid) (password_hash : string) (now : Z) (t : IamTables) : result string (Uuid * IamTables) :=
  match find_first (fun u => bool_decide (iu_email u = Some "admin@local")) (it_users t) with
  | Some u =>
      '(_, t') ← change_user (iu_id u) (keep_admin password_hash now) t;
      Ok (iu_id u, t')
  | None => '(u, t') ← insert_user (default_admin id password_hash now) t; Ok (iu_id u, t')
  end.

Definition bootstrap_local_admin (default_password : string) : IamM unit :=
  if is_empty (trim default_password) then fail (Validation "OD_DEFAULT_ADMIN_PASSWORD cannot be empty")
  else
    row ← iam_fetch (fun _ t => any (fun u => bool_decide (iu_status u = "active") &&
      any (fun r => bool_decide (ir_name r = POLICY_ADMIN) && bool_decide ((iu_id u, ir_id r) ∈ it_user_roles t)) (it_roles t))
      (it_users t));
    if row : bool then mret tt
    else
      password_hash ← hash_token default_password;
      user_id ← new_v4;
      iam_transaction (
        admin_id ← map_error (fun _ => DB_ERROR) (checked (upsert_admin user_id password_hash));
        role ← fetch (fun _ t => find_first (fun r => bool_decide (ir_name r = POLICY_ADMIN)) (it_roles t));
        role_id ← of_result (ok_or (ir_id <$> role) DB_ERROR);
        map_error (fun _ => DB_ERROR) (checked (fun _ t => insert_pair (admin_id, role_id) (user_exists admin_id t)
          (role_exists role_id t) (it_user_roles t) "iam_user_roles_fkey" set_user_roles t))).

(** ** The audit trail *)

(** [let _ = ..]: a failed insert is not noticed. *)
Definition record_iam_event {E} (actor : option string) (action target_type : string) (target_id : option string) (payload : Json)
    : IM E unit :=
  id ← new_v4;
  dropped (update (fun now t => set_audit_events (it_audit_events t ++
    [{| ae_id := id; ae_actor := actor; ae_action := action; ae_target_type := target_type; ae_target_id := target_id;
        ae_payload := payload; ae_created_at := now |}]) t)).

End Service.
