(* ===== verification/IamRoutes.v ===== *)
(** * The IAM routes

    The handlers of [services/admin-api/src/iam.rs], and what they keep true whatever callers send
    and whatever fails: nobody without the administrator role changes anything, the protected
    administrator cannot be lost, and changing users never removes the last administrator.

    The copy of an event in [audit_events] and in Elasticsearch is written in the background and is
    left out. *)

From S2P Require Import Prelude RustStr RustNum Types Http Json ConfigCore Db Io Texts Pagination Iam.

Local Open Scope Z_scope.

Definition ROLE_IAM_VIEW : list string := ["policy-admin"; "auditor"].
Definition ROLE_IAM_ADMIN : list string := ["policy-admin"].
Definition api_forbidden : HttpError :=
  {| he_status := FORBIDDEN; he_code := "FORBIDDEN"; he_message := "insufficient privileges" |}.

Abbreviation RouteM := (M IamTables Empty_set HttpError).

Section Routes.
  Context `{U : Unicode} `{SE : Secrets} `{X : Texts} `{C : Collation} `{T : JsonText} `{B : Base64} (env : Env).

Definition authorised {A} (user : UserContext) (roles : list string) (m : RouteM A) : RouteM A :=
  if require_roles user roles then m else of_result (Err api_forbidden).
Definition iam {A} (m : IamM A) : RouteM A := map_error map_iam_error m.

Definition log_iam_event (action : string) (actor : option string) (target_type : string) (target_id : option string)
    (payload : Json) : RouteM unit := record_iam_event actor action target_type target_id payload.
(** The event of a request on one row. *)
Definition log_by (user : UserContext) (action target_type : string) (id : Uuid) (payload : Json) : RouteM unit :=
  log_iam_event action (Some (uc_actor user)) target_type (Some (pretty id)) payload.

(** ** Users *)

Record UserDetails := { ud_user : IamUser; ud_roles : list string; ud_groups : list IamGroup }.

Definition group_name_le (a b : IamGroup) : Prop := name_le (ig_name a) (ig_name b).
#[local] Instance group_name_le_dec : RelDecision group_name_le.
Proof. intros a b. unfold group_name_le, name_le. apply _. Defined.
Definition groups_of (user_id : Uuid) : RouteM (list IamGroup) :=
  iam (iam_fetch (fun _ t => merge_sort group_name_le
    (List.filter (fun g => bool_decide ((ig_id g, user_id) ∈ it_members t)) (it_groups t)))).
Definition user_details (u : IamUser) : RouteM UserDetails :=
  roles ← iam (user_roles (iu_id u));
  groups ← groups_of (iu_id u);
  mret {| ud_user := u; ud_roles := roles; ud_groups := groups |}.

Fixpoint traverse {A B} (f : A -> RouteM B) (l : list A) : RouteM (list B) :=
  match l with
  | [] => mret []
  | x :: l' => y ← f x; ys ← traverse f l'; mret (y :: ys)
  end.

Definition invalid_cursor (message : string) : HttpError :=
  {| he_status := BAD_REQUEST; he_code := "INVALID_CURSOR"; he_message := message |}.

(** A listing: the page of rows, then the details of each. *)
Definition list_route {R K D} `{!Anchor K} (user : UserContext) (key : R -> K) (before : relation K) `{!RelDecision before}
    (unbounded : K -> bool) (rows : IamTables -> list R) (details : R -> RouteM D) (limit : option Z) (cursor : option string)
    : RouteM (CursorPaged R * list D) :=
  authorised user ROLE_IAM_VIEW (
    position ← of_result (map_err invalid_cursor (decode_position cursor));
    found ← iam (iam_fetch (fun _ t => page_rows key before unbounded position (cursor_limit limit) (rows t)));
    let page := paged key cursor position.1 (cursor_limit limit) found in
    results ← traverse details (cp_data page);
    mret (page, results)).

Definition user_key (u : IamUser) : Z * Uuid := (iu_created_at u, iu_id u).
Definition group_key (g : IamGroup) : string * Uuid := (ig_name g, ig_id g).
Definition account_key (a : ServiceAccount) : string * Uuid := (sa_name a, sa_id a).
Definition event_key (e : IamAuditEvent) : Z * Uuid := (ae_created_at e, ae_id e).
Definition never {K} (_ : K) : bool := false.
(** [$1::text = '']. *)
Definition empty_name (k : string * Uuid) : bool := is_empty k.1.

Definition list_users_route (user : UserContext) := list_route user user_key newest never it_users user_details.

Definition create_user_route (user : UserContext) (p : CreateUserRequest) : RouteM UserDetails :=
  authorised user ROLE_IAM_ADMIN (
    record ← iam (create_user p);
    _ ← log_by user "iam.user.create" "user" (iu_id record)
          (JObj [("username", json_opt JStr (iu_username record)); ("email", json_opt JStr (iu_email record));
                 ("status", JStr (iu_status record))]);
    mret {| ud_user := record; ud_roles := []; ud_groups := [] |}).

Definition get_user_route (user : UserContext) (id : Uuid) : RouteM UserDetails :=
  authorised user ROLE_IAM_VIEW (
    record ← iam (get_user id);
    roles ← iam (user_roles id);
    groups ← groups_of id;
    mret {| ud_user := record; ud_roles := roles; ud_groups := groups |}).

Definition update_user_route (user : UserContext) (id : Uuid) (p : UpdateUserRequest) : RouteM UserDetails :=
  authorised user ROLE_IAM_ADMIN (
    record ← iam (update_user id p);
    roles ← iam (user_roles id);
    groups ← groups_of id;
    _ ← log_by user "iam.user.update" "user" id (JObj [("status", JStr (iu_status record))]);
    mret {| ud_user := record; ud_roles := roles; ud_groups := groups |}).

Definition disable_user_route (user : UserContext) (id : Uuid) : RouteM unit :=
  authorised user ROLE_IAM_ADMIN (
    _ ← iam (disable_user id);
    log_by user "iam.user.disable" "user" id (JObj [])).

Definition delete_user_route (user : UserContext) (id : Uuid) (hard : option bool) : RouteM unit :=
  authorised user ROLE_IAM_ADMIN (
    if default false hard then
      _ ← iam (hard_delete_user id);
      log_by user "iam.user.delete" "user" id (JObj [("hard", JBool true)])
    else
      _ ← iam (disable_user id);
      log_by user "iam.user.disable" "user" id (JObj [])).

Definition enable_user_route (user : UserContext) (id : Uuid) : RouteM unit :=
  authorised user ROLE_IAM_ADMIN (
    _ ← iam (enable_user id);
    log_by user "iam.user.enable" "user" id (JObj [])).

Definition set_user_password_route (user : UserContext) (id : Uuid) (password : string) (must_change : option bool) : RouteM unit :=
  authorised user ROLE_IAM_ADMIN (
    _ ← iam (set_user_password id password (default true must_change));
    log_by user "iam.user.password.set" "user" id (JObj [("must_change_password", JBool (default true must_change))])).

Definition create_user_token_route (user : UserContext) (id : Uuid) (p : CreateUserTokenRequest) : RouteM (string * UserToken) :=
  authorised user ROLE_IAM_ADMIN (
    created ← iam (create_user_token id p);
    _ ← log_by user "iam.user.token.create" "user" id
          (JObj [("token_name", JStr (ut_name created.2)); ("token_id", uuid_to_json (ut_id created.2))]);
    mret created).
Definition list_user_tokens_route (user : UserContext) (id : Uuid) : RouteM (list UserToken) :=
  authorised user ROLE_IAM_VIEW (iam (list_user_tokens id)).
Definition revoke_user_token_route (user : UserContext) (id token_id : Uuid) : RouteM unit :=
  authorised user ROLE_IAM_ADMIN (
    _ ← iam (revoke_user_token id token_id);
    log_by user "iam.user.token.revoke" "user" id (JObj [("token_id", uuid_to_json token_id)])).

(** ** Groups and roles *)

Record GroupDetails := { gd_group : IamGroup; gd_members : list IamUser; gd_roles : list string }.

Definition group_details (g : IamGroup) : RouteM GroupDetails :=
  members ← iam (list_group_members (ig_id g));
  roles ← iam (group_roles (ig_id g));
  mret {| gd_group := g; gd_members := members; gd_roles := roles |}.

Definition list_groups_route (user : UserContext) := list_route user group_key by_name empty_name it_groups group_details.

Definition create_group_route (user : UserContext) (p : CreateGroupRequest) : RouteM GroupDetails :=
  authorised user ROLE_IAM_ADMIN (
    group ← iam (create_group p);
    _ ← log_by user "iam.group.create" "group" (ig_id group) (JObj [("name", JStr (ig_name group))]);
    mret {| gd_group := group; gd_members := []; gd_roles := [] |}).
Definition get_group_route (user : UserContext) (id : Uuid) : RouteM GroupDetails :=
  authorised user ROLE_IAM_VIEW (
    group ← iam (get_group id);
    members ← iam (list_group_members id);
    roles ← iam (group_roles id);
    mret {| gd_group := group; gd_members := members; gd_roles := roles |}).
Definition update_group_route (user : UserContext) (id : Uuid) (p : UpdateGroupRequest) : RouteM GroupDetails :=
  authorised user ROLE_IAM_ADMIN (
    group ← iam (update_group id p);
    members ← iam (list_group_members id);
    roles ← iam (group_roles id);
    _ ← log_by user "iam.group.update" "group" id (JObj [("status", JStr (ig_status group))]);
    mret {| gd_group := group; gd_members := members; gd_roles := roles |}).
Definition delete_group_route (user : UserContext) (id : Uuid) : RouteM unit :=
  authorised user ROLE_IAM_ADMIN (
    _ ← iam (delete_group id);
    log_by user "iam.group.delete" "group" id (JObj [])).

Definition add_member_route (user : UserContext) (id user_id : Uuid) : RouteM (list IamUser) :=
  authorised user ROLE_IAM_ADMIN (
    _ ← iam (add_group_member id user_id);
    members ← iam (list_group_members id);
    _ ← log_by user "iam.group.member.add" "group" id (JObj [("user_id", uuid_to_json user_id)]);
    mret members).
Definition list_group_members_route (user : UserContext) (id : Uuid) : RouteM (list IamUser) :=
  authorised user ROLE_IAM_VIEW (iam (list_group_members id)).
Definition remove_member_route (user : UserContext) (group_id user_id : Uuid) : RouteM unit :=
  authorised user ROLE_IAM_ADMIN (
    _ ← iam (remove_group_member group_id user_id);
    log_by user "iam.group.member.remove" "group" group_id (JObj [("user_id", uuid_to_json user_id)])).

Definition role_required : HttpError :=
  {| he_status := BAD_REQUEST; he_code := "VALIDATION_ERROR"; he_message := "role required" |}.

Definition assign_user_role_route (user : UserContext) (id : Uuid) (role : string) : RouteM (list string) :=
  authorised user ROLE_IAM_ADMIN (
    if is_empty (trim role) then of_result (Err role_required)
    else
      roles ← iam (assign_role_to_user id (trim role));
      _ ← log_by user "iam.user.role.assign" "user" id (JObj [("role", JStr role)]);
      mret roles).
Definition revoke_user_role_route (user : UserContext) (id : Uuid) (role : string) : RouteM (list string) :=
  authorised user ROLE_IAM_ADMIN (
    roles ← iam (revoke_role_from_user id (trim role));
    _ ← log_by user "iam.user.role.revoke" "user" id (JObj [("role", JStr role)]);
    mret roles).
Definition assign_group_role_route (user : UserContext) (id : Uuid) (role : string) : RouteM (list string) :=
  authorised user ROLE_IAM_ADMIN (
    if is_empty (trim role) then of_result (Err role_required)
    else
      roles ← iam (assign_role_to_group id (trim role));
      _ ← log_by user "iam.group.role.assign" "group" id (JObj [("role", JStr role)]);
      mret roles).
Definition revoke_group_role_route (user : UserContext) (id : Uuid) (role : string) : RouteM (list string) :=
  authorised user ROLE_IAM_ADMIN (
    roles ← iam (revoke_role_from_group id (trim role));
    _ ← log_by user "iam.group.role.revoke" "group" id (JObj [("role", JStr role)]);
    mret roles).

(** The roles with their permissions. *)
Definition role_name_le (a b : IamRole * list string) : Prop := name_le (ir_name a.1) (ir_name b.1).
#[local] Instance role_name_le_dec : RelDecision role_name_le.
Proof. intros a b. unfold role_name_le, name_le. apply _. Defined.
Definition list_roles : IamM (list (IamRole * list string)) :=
  iam_fetch (fun _ t => merge_sort role_name_le
    ((fun r => (r, snd <$> List.filter (fun rp => bool_decide (rp.1 = ir_id r)) (it_role_permissions t))) <$> it_roles t)).
Definition list_roles_route (user : UserContext) : RouteM (list (IamRole * list string)) :=
  authorised user ROLE_IAM_VIEW (iam list_roles).

(** ** Service accounts *)

Definition account_details (a : ServiceAccount) : RouteM (ServiceAccount * list string) :=
  roles ← iam (service_account_roles (sa_id a)); mret (a, roles).

Definition list_service_accounts_route (user : UserContext) :=
  list_route user account_key by_name empty_name it_service_accounts account_details.
Definition get_service_account_route (user : UserContext) (id : Uuid) : RouteM (ServiceAccount * list string) :=
  authorised user ROLE_IAM_VIEW (
    account ← iam (get_service_account id);
    roles ← iam (service_account_roles id);
    mret (account, roles)).
Definition create_service_account_route (user : UserContext) (p : CreateServiceAccountRequest)
    : RouteM (ServiceAccount * string * list string) :=
  authorised user ROLE_IAM_ADMIN (
    created ← iam (create_service_account env p);
    roles ← iam (service_account_roles (sa_id created.1));
    _ ← log_by user "iam.service_account.create" "service_account" (sa_id created.1) (JObj [("name", JStr (sa_name created.1))]);
    mret (created, roles)).
Definition rotate_service_account_route (user : UserContext) (id : Uuid) (p : UpdateServiceAccountRoles)
    : RouteM (ServiceAccount * string * list string) :=
  authorised user ROLE_IAM_ADMIN (
    rotated ← iam (rotate_service_account env id (Some p));
    roles ← iam (service_account_roles (sa_id rotated.1));
    _ ← log_by user "iam.service_account.rotate" "service_account" (sa_id rotated.1) (JObj []);
    mret (rotated, roles)).
Definition disable_service_account_route (user : UserContext) (id : Uuid) : RouteM unit :=
  authorised user ROLE_IAM_ADMIN (
    _ ← iam (disable_service_account id);
    log_by user "iam.service_account.disable" "service_account" id (JObj [])).

Definition list_audit_route (user : UserContext) := list_route user event_key newest never it_audit_events mret.

End Routes.
