(* ===== verification/IamInvariants.v ===== *)
(** * What the IAM operations keep true

    The schema as an invariant of the tables ([iam_ok]), the protected administrator, and that there
    is an active administrator; each operation of [Iam.v] against each of them. *)

From S2P Require Import Prelude RustStr RustNum Types Http Json ConfigCore Db Io Texts Pagination Iam IamRoutes.

Local Open Scope Z_scope.

(** ** Computations that keep a property *)

Definition kept {E A} (I : IamTables -> Prop) (m : M IamTables Empty_set E A) : Prop := triple I m (fun _ => I) I.

Section Kept.
  Context (I : IamTables -> Prop).

Lemma kept_ret {E A} (a : A) : kept I (mret a : M _ _ E A).
Proof. by apply triple_ret. Qed.
Lemma kept_bind {E A B} (m : M IamTables Empty_set E A) (f : A -> M IamTables Empty_set E B) :
  kept I m -> (forall a, kept I (f a)) -> kept I (m ≫= f).
Proof. intros Hm Hf. eapply triple_bind; [exact Hm|exact Hf]. Qed.
Lemma kept_result {E A} (r : result E A) : kept I (of_result r : M IamTables Empty_set E A).
Proof. by apply triple_result. Qed.
Lemma kept_map_error {E F A} (f : E -> F) (m : M IamTables Empty_set E A) : kept I m -> kept I (map_error f m).
Proof. apply triple_map_error. Qed.
Lemma kept_dropped {E F A} (m : M IamTables Empty_set E A) : kept I m -> kept I (dropped m : M _ _ F unit).
Proof. intros H. by eapply triple_dropped; [exact H|]. Qed.
Lemma kept_now {E} : kept I (utc_now : M IamTables Empty_set E Z).
Proof. apply triple_now. Qed.
Lemma kept_v4 {E} : kept I (new_v4 : M IamTables Empty_set E Uuid).
Proof. apply triple_v4. Qed.
Lemma kept_fetch {A} (f : Z -> IamTables -> A) : kept I (fetch f : M IamTables Empty_set string A).
Proof. by apply triple_sql. Qed.
Lemma kept_sql {A} (f : Z -> IamTables -> A * IamTables) :
  (forall now t, I t -> I (f now t).2) -> kept I (sql f : M IamTables Empty_set string A).
Proof. intros H. by apply triple_sql. Qed.
Lemma kept_update f : (forall now t, I t -> I (f now t)) -> kept I (update f : M IamTables Empty_set string unit).
Proof. intros H. by apply (triple_update I f I I). Qed.
Lemma kept_checked {A} (f : Z -> IamTables -> result string (A * IamTables)) :
  (forall now t a t', I t -> f now t = Ok (a, t') -> I t') -> kept I (checked f : M IamTables Empty_set SqlError A).
Proof. intros H. apply triple_checked; [done|exact H]. Qed.
Lemma kept_each {E A} (f : A -> M IamTables Empty_set E unit) l : (forall x, kept I (f x)) -> kept I (each f l).
Proof. intros H. apply triple_each. intros x _. apply H. Qed.
Lemma kept_transaction {A} (m : M IamTables Empty_set string A) : kept I m -> kept I (transaction m).
Proof.
  intros H. apply triple_transaction; [done|]. intros w Hw. specialize (H w Hw). by destruct (m w) as [[] ?].
Qed.

End Kept.

(** Take a computation apart down to the statements that change something. *)
Ltac keep_step :=
  lazymatch goal with
  | |- kept _ (mbind _ _) => apply kept_bind; [|intros ?]
  | |- kept _ (mret _) => apply kept_ret
  | |- kept _ (of_result _) => apply kept_result
  | |- kept _ (fail _) => apply kept_result
  | |- kept _ (found _ _) => apply kept_result
  | |- kept _ (verify_hash _ _) => apply kept_result
  | |- kept _ (map_error _ _) => apply kept_map_error
  | |- kept _ (dropped _) => apply kept_dropped
  | |- kept _ utc_now => apply kept_now
  | |- kept _ new_v4 => apply kept_v4
  | |- kept _ (fetch _) => apply kept_fetch
  | |- kept _ (iam_fetch _) => apply kept_map_error, kept_fetch
  | |- kept _ (transaction _) => apply kept_transaction
  | |- kept _ (each _ _) => apply kept_each; intros ?
  | |- kept _ (iam _) => apply kept_map_error
  | |- kept _ (authorised _ _ _) => unfold authorised
  | |- kept _ (iam_transaction _) => apply kept_map_error
  | |- kept _ (if ?b then _ else _) => destruct b
  | |- kept _ (match ?x with _ => _ end) => destruct x
  end.
Ltac keep := repeat keep_step.

(** ** Lists *)

Lemma elem_of_set_where {A} (p : A -> bool) (f : A -> A) l x :
  x ∈ set_where p f l <-> exists y, y ∈ l /\ x = if p y then f y else y.
Proof. unfold set_where. rewrite list_elem_of_fmap. split; intros (y & H1 & H2); exists y; auto. Qed.
Lemma elem_of_drop_where {A} (p : A -> bool) l x : x ∈ drop_where p l <-> x ∈ l /\ p x = false.
Proof. unfold drop_where. rewrite !list_elem_of_In, filter_In, negb_true_iff. done. Qed.
Lemma drop_where_sublist {A} (p : A -> bool) l : drop_where p l `sublist_of` l.
Proof. apply filter_sublist. Qed.
Lemma NoDup_drop {A B} (f : A -> B) p l : NoDup (f <$> l) -> NoDup (f <$> drop_where p l).
Proof. intros H. eapply sublist_NoDup; [exact H|]. apply fmap_sublist, drop_where_sublist. Qed.
Lemma set_where_proj {A B} (g : A -> B) p f (l : list A) :
  (forall x, g (f x) = g x) -> g <$> set_where p f l = g <$> l.
Proof.
  intros H. unfold set_where. rewrite <- list_fmap_compose. apply list_fmap_ext. intros i x _. cbn. by destruct (p x).
Qed.
Lemma find_user id t u : find_first (is_user id) (it_users t) = Some u -> u ∈ it_users t /\ iu_id u = id.
Proof. intros (l1 & l2 & -> & Hu & _)%find_first_Some. apply bool_decide_eq_true in Hu. set_solver. Qed.
Lemma user_exists_iff id t : user_exists id t = true <-> exists u, u ∈ it_users t /\ iu_id u = id.
Proof. unfold user_exists. rewrite any_true. unfold is_user. by setoid_rewrite bool_decide_eq_true. Qed.

(** ** The schema *)

Section Schema.
  Context `{U : Unicode}.

Record users_ok (us : list IamUser) : Prop := {
  ok_user_ids : NoDup (iu_id <$> us);
  ok_user_status : forall u, u ∈ us -> iu_status u ∈ STATUSES;
  ok_usernames : forall u v, u ∈ us -> v ∈ us -> opt_eq lower_eq (iu_username u) (iu_username v) = true -> iu_id u = iu_id v;
  ok_emails : forall u v, u ∈ us -> v ∈ us -> opt_eq lower_eq (iu_email u) (iu_email v) = true -> iu_id u = iu_id v
}.

(** A table of pairs has no pair twice and refers to rows that exist. *)
Definition pairs_ok (pairs : list (Uuid * Uuid)) (here there : Uuid -> bool) : Prop :=
  NoDup pairs /\ forall a b, (a, b) ∈ pairs -> here a = true /\ there b = true.

Record iam_ok (t : IamTables) : Prop := {
  ok_users : users_ok (it_users t);
  ok_group_ids : NoDup (ig_id <$> it_groups t);
  ok_group_names : NoDup (ig_name <$> it_groups t);
  ok_role_ids : NoDup (ir_id <$> it_roles t);
  ok_role_names : NoDup (ir_name <$> it_roles t);
  ok_members : pairs_ok (it_members t) (fun g => group_exists g t) (fun u => user_exists u t);
  ok_user_roles : pairs_ok (it_user_roles t) (fun u => user_exists u t) (fun r => role_exists r t);
  ok_group_roles : pairs_ok (it_group_roles t) (fun g => group_exists g t) (fun r => role_exists r t);
  ok_account_ids : NoDup (sa_id <$> it_service_accounts t);
  ok_account_names : NoDup (sa_name <$> it_service_accounts t);
  ok_account_roles : pairs_ok (it_service_account_roles t) (fun a => account_exists a t) (fun r => role_exists r t);
  ok_user_tokens : forall k, k ∈ it_user_tokens t -> user_exists (ut_user_id k) t = true;
  ok_refresh_tokens : forall k, k ∈ it_refresh_tokens t -> user_exists (rk_user_id k) t = true;
  ok_refresh_ids : NoDup (rk_id <$> it_refresh_tokens t);
  ok_refresh_hashes : NoDup (rk_token_hash <$> it_refresh_tokens t)
}.

Lemma opt_eq_sym f a b : (forall x y, f x y = f y x) -> opt_eq f a b = opt_eq f b a.
Proof. intros H. destruct a, b; cbn; auto. Qed.
Lemma lower_eq_sym a b : lower_eq a b = lower_eq b a.
Proof. unfold lower_eq. apply bool_decide_ext. done. Qed.

(** What the constraints leave of a row beside the others. *)
Lemma user_violation_None others u :
  user_violation others u = None ->
  iu_status u ∈ STATUSES /\ forall o, o ∈ others -> iu_id o <> iu_id u /\
    opt_eq lower_eq (iu_email o) (iu_email u) = false /\ opt_eq lower_eq (iu_username o) (iu_username u) = false.
Proof.
  unfold user_violation. destruct (bool_decide (iu_status u ∈ STATUSES)) eqn:E1; [|done]. cbn [negb].
  destruct (is_empty _ && is_empty _); [done|].
  destruct (any (fun o => bool_decide (iu_id o = iu_id u)) others) eqn:E2; [done|].
  destruct (any (fun o => opt_eq same_text (iu_subject o) (iu_subject u)) others); [done|].
  destruct (any (fun o => opt_eq same_text (iu_email o) (iu_email u)) others); [done|].
  destruct (any (fun o => opt_eq lower_eq (iu_email o) (iu_email u)) others) eqn:E3; [done|].
  destruct (any (fun o => opt_eq lower_eq (iu_username o) (iu_username u)) others) eqn:E4; [done|]. intros _.
  apply bool_decide_eq_true in E1. rewrite any_false in E2, E3, E4. split; [done|]. intros o Ho.
  split_and!; [|by apply E3|by apply E4]. specialize (E2 o Ho). by apply bool_decide_eq_false in E2.
Qed.

(** A row replaced or added within the constraints. *)
Lemma users_ok_replace others u us :
  users_ok others -> user_violation others u = None -> us ≡ₚ others ++ [u] -> users_ok us.
Proof.
  intros [H1 H2 H3 H4] [Hs Ho]%user_violation_None Hp.
  assert (forall x, x ∈ us -> x ∈ others \/ x = u) as Hin by (intros x; rewrite Hp; set_solver).
  split.
  - rewrite Hp, fmap_app. apply NoDup_app. split_and!; [done| |apply NoDup_singleton].
    intros i (o & -> & Hi)%list_elem_of_fmap Hu%list_elem_of_singleton. by destruct (Ho o Hi) as [Hne _].
  - intros x [Hx| ->]%Hin; auto.
  - intros x y [Hx| ->]%Hin [Hy| ->]%Hin E; [by apply H3| | |done].
    + destruct (Ho x Hx) as (_ & _ & E'). congruence.
    + destruct (Ho y Hy) as (_ & _ & E'). rewrite (opt_eq_sym _ _ _ lower_eq_sym) in E. congruence.
  - intros x y [Hx| ->]%Hin [Hy| ->]%Hin E; [by apply H4| | |done].
    + destruct (Ho x Hx) as (_ & E' & _). congruence.
    + destruct (Ho y Hy) as (_ & E' & _). rewrite (opt_eq_sym _ _ _ lower_eq_sym) in E. congruence.
Qed.

Lemma users_ok_sublist us us' : us' `sublist_of` us -> users_ok us -> users_ok us'.
Proof.
  intros Hs [H1 H2 H3 H4]. assert (forall x, x ∈ us' -> x ∈ us) as Hin by (intros x Hx; by eapply sublist_subseteq in Hx).
  split; eauto. eapply sublist_NoDup; [exact H1|by apply fmap_sublist].
Qed.

(** Of users with unique identifiers, the others and the one make all of them. *)
Lemma set_where_split id f us u :
  NoDup (iu_id <$> us) -> u ∈ us -> iu_id u = id ->
  set_where (is_user id) f us ≡ₚ drop_where (is_user id) us ++ [f u].
Proof.
  intros Hnd Hu <-. induction us as [|v us IH]; [by apply elem_of_nil in Hu|].
  rewrite fmap_cons in Hnd. apply NoDup_cons in Hnd as [Hv Hnd]. unfold set_where, drop_where. cbn [fmap list_fmap List.filter].
  unfold is_user at 1 3. destruct (decide (iu_id v = iu_id u)) as [E|E].
  - rewrite !bool_decide_eq_true_2 by done. cbn [negb]. assert (v = u) as ->.
    { apply elem_of_cons in Hu as [->|Hu]; [done|]. exfalso. apply Hv. rewrite E. apply list_elem_of_fmap. by exists u. }
    assert (forall x, x ∈ us -> is_user (iu_id u) x = false) as Hno.
    { intros x Hx. apply bool_decide_eq_false. intros Ex. apply Hv. rewrite <- Ex. apply list_elem_of_fmap. by exists x. }
    rewrite filter_all by (intros x Hx; by rewrite Hno). rewrite Permutation_app_comm. cbn [app]. apply perm_skip.
    rewrite <- (list_fmap_id us) at 2. apply Permutation_refl', list_fmap_ext. intros i x Hx. cbn.
    by rewrite Hno by by eapply list_elem_of_lookup_2.
  - rewrite !bool_decide_eq_false_2 by done. cbn [negb app]. apply perm_skip, IH; [done|].
    apply elem_of_cons in Hu as [->|Hu]; [done|done].
Qed.

Lemma pairs_ok_mono pairs h t h' t' :
  pairs_ok pairs h t -> (forall x, h x = true -> h' x = true) -> (forall x, t x = true -> t' x = true) -> pairs_ok pairs h' t'.
Proof. intros [H1 H2] Hh Ht. split; [done|]. intros a b Hab. destruct (H2 a b Hab). auto. Qed.
Lemma pairs_ok_sublist pairs pairs' h t : pairs' `sublist_of` pairs -> pairs_ok pairs h t -> pairs_ok pairs' h t.
Proof. intros Hs [H1 H2]. split; [by eapply sublist_NoDup|]. intros a b Hab. apply H2. by eapply sublist_subseteq in Hab. Qed.
Lemma pairs_ok_insert pair pairs h t :
  pairs_ok pairs h t -> pair ∉ pairs -> h pair.1 = true -> t pair.2 = true -> pairs_ok (pairs ++ [pair]) h t.
Proof.
  intros [H1 H2] Hn Hh Ht. split.
  - apply NoDup_app. split_and!; [done|set_solver|apply NoDup_singleton].
  - intros a b [Hab|E%list_elem_of_singleton]%elem_of_app; [by apply H2|by subst pair].
Qed.
Lemma pairs_ok_drop (p : Uuid * Uuid -> bool) pairs (h t h' t' : Uuid -> bool) :
  pairs_ok pairs h t ->
  (forall a b, p (a, b) = false -> h a = true -> h' a = true) -> (forall a b, p (a, b) = false -> t b = true -> t' b = true) ->
  pairs_ok (drop_where p pairs) h' t'.
Proof.
  intros [H1 H2] Hh Ht. split; [by eapply sublist_NoDup; [|apply drop_where_sublist]|].
  intros a b [Hab Hp]%elem_of_drop_where. destruct (H2 a b Hab). eauto.
Qed.

(** *** Users *)

Lemma iam_ok_users t us :
  iam_ok t -> users_ok us -> (forall id, user_exists id t = true -> user_exists id (set_users us t) = true) ->
  iam_ok (set_users us t).
Proof.
  intros [] Hus He. split; cbn; try done; try (by eapply pairs_ok_mono; [eassumption|..]); intros; apply He; auto.
Qed.

Lemma insert_user_ok u t r t' : iam_ok t -> insert_user u t = Ok (r, t') -> iam_ok t'.
Proof.
  intros Hok. unfold insert_user. destruct (user_violation _ _) eqn:E; [done|]. intros [= <- <-].
  apply iam_ok_users; [done|by eapply users_ok_replace; [apply Hok|..]|].
  intros id (v & Hv & Hid)%user_exists_iff. apply user_exists_iff. exists v. split; [cbn; set_solver|done].
Qed.

Lemma exists_set_where id p f us t :
  (forall u, iu_id (f u) = iu_id u) -> it_users t = us -> user_exists id t = true ->
  user_exists id (set_users (set_where p f us) t) = true.
Proof.
  intros Hf <- (v & Hv & Hid)%user_exists_iff. apply user_exists_iff. exists (if p v then f v else v).
  split; [apply elem_of_set_where; by exists v|]. by destruct (p v); rewrite ?Hf.
Qed.

Lemma change_user_ok id f t r t' :
  (forall u, iu_id (f u) = iu_id u) -> iam_ok t -> change_user id f t = Ok (r, t') -> iam_ok t'.
Proof.
  intros Hf Hok. unfold change_user. destruct (find_first _ _) as [u|] eqn:Eu; [|by intros [= <- <-]].
  destruct (user_violation _ _) eqn:E; [done|]. intros [= <- <-]. apply find_user in Eu as [Hu Hid].
  apply iam_ok_users; [done| |by intros; apply exists_set_where].
  eapply users_ok_replace; [|exact E|by apply set_where_split; [apply Hok|..]].
  eapply users_ok_sublist; [apply drop_where_sublist|apply Hok].
Qed.

(** Changes of a user that no constraint looks at. *)
Definition harmless (f : IamUser -> IamUser) : Prop :=
  forall u, iu_id (f u) = iu_id u /\ iu_username (f u) = iu_username u /\ iu_email (f u) = iu_email u /\
    iu_status (f u) = iu_status u.

Lemma harmless_users_ok p f us : harmless f -> users_ok us -> users_ok (set_where p f us).
Proof.
  intros Hf [H1 H2 H3 H4].
  assert (forall x, x ∈ set_where p f us -> exists y, y ∈ us /\ iu_id x = iu_id y /\ iu_username x = iu_username y /\
    iu_email x = iu_email y /\ iu_status x = iu_status y) as Hin.
  { intros x (y & Hy & ->)%elem_of_set_where. exists y. split; [done|]. destruct (p y); [|done]. by destruct (Hf y) as (? & ? & ? & ?). }
  split.
  - rewrite set_where_proj; [done|]. intros x. apply Hf.
  - intros x (y & Hy & _ & _ & _ & ->)%Hin. auto.
  - intros x y (x' & Hx & -> & -> & _ & _)%Hin (y' & Hy & -> & -> & _ & _)%Hin. auto.
  - intros x y (x' & Hx & -> & _ & -> & _)%Hin (y' & Hy & -> & _ & -> & _)%Hin. auto.
Qed.
Lemma touch_user_ok p f t : harmless f -> iam_ok t -> iam_ok (set_users (set_where p f (it_users t)) t).
Proof.
  intros Hf Hok. apply iam_ok_users; [done|by apply harmless_users_ok; [|apply Hok]|].
  intros id. apply exists_set_where; [|done]. intros u. apply Hf.
Qed.

Lemma exists_drop_user id id' t us : it_users t = us ->
  id' <> id -> user_exists id' t = true -> any (is_user id') (drop_where (is_user id) us) = true.
Proof.
  intros <- Hne (v & Hv & Hid)%user_exists_iff. apply any_true. exists v. split; [|by apply bool_decide_eq_true].
  apply elem_of_drop_where. split; [done|]. apply bool_decide_eq_false. congruence.
Qed.

Lemma delete_user_ok id t : iam_ok t -> iam_ok (delete_user_row id t).2.
Proof.
  intros []. split; cbn; try done.
  - by eapply users_ok_sublist; [apply drop_where_sublist|].
  - eapply pairs_ok_drop; [eassumption|done|]. cbn. intros a b Hne. apply bool_decide_eq_false in Hne. by apply exists_drop_user.
  - eapply pairs_ok_drop; [eassumption| |done]. cbn. intros a b Hne. apply bool_decide_eq_false in Hne. by apply exists_drop_user.
  - intros k [Hk Hne]%elem_of_drop_where. apply bool_decide_eq_false in Hne. apply exists_drop_user with t; auto.
  - intros k [Hk Hne]%elem_of_drop_where. apply bool_decide_eq_false in Hne. apply exists_drop_user with t; auto.
  - by apply NoDup_drop.
  - by apply NoDup_drop.
Qed.

(** *** Groups *)

Lemma group_exists_iff id t : group_exists id t = true <-> exists g, g ∈ it_groups t /\ ig_id g = id.
Proof. unfold group_exists. rewrite any_true. unfold is_group. by setoid_rewrite bool_decide_eq_true. Qed.

Lemma iam_ok_groups t gs :
  iam_ok t -> NoDup (ig_id <$> gs) -> NoDup (ig_name <$> gs) ->
  (forall id, group_exists id t = true -> group_exists id (set_groups gs t) = true) -> iam_ok (set_groups gs t).
Proof. intros [] Hi Hn He. split; cbn; try done; by eapply pairs_ok_mono; [eassumption|..]. Qed.

Lemma group_violation_None others g :
  group_violation others g = None -> forall o, o ∈ others -> ig_id o <> ig_id g /\ ig_name o <> ig_name g.
Proof.
  unfold group_violation. destruct (negb _); [done|].
  destruct (any (fun o => bool_decide (ig_id o = ig_id g)) others) eqn:E1; [done|].
  destruct (any (fun o => bool_decide (ig_name o = ig_name g)) others) eqn:E2; [done|]. intros _ o Ho.
  rewrite any_false in E1, E2. specialize (E1 o Ho). specialize (E2 o Ho). by apply bool_decide_eq_false in E1, E2.
Qed.

Lemma NoDup_snoc_proj {A B} (f : A -> B) l x : NoDup (f <$> l) -> (forall y, y ∈ l -> f y <> f x) -> NoDup (f <$> l ++ [x]).
Proof.
  intros Hn Hx. rewrite fmap_app. apply NoDup_app. split_and!; [done| |apply NoDup_singleton].
  intros b (y & -> & Hy)%list_elem_of_fmap. intros E%list_elem_of_singleton. by apply (Hx y Hy).
Qed.
Lemma add_group_ok t g : iam_ok t -> group_violation (it_groups t) g = None -> iam_ok (set_groups (it_groups t ++ [g]) t).
Proof.
  intros Hok Hv. pose proof (group_violation_None _ _ Hv) as Ho.
  apply iam_ok_groups; [done|apply NoDup_snoc_proj; [apply Hok|apply Ho]|apply NoDup_snoc_proj; [apply Hok|apply Ho]|].
  intros id (v & Hv' & Hid)%group_exists_iff. apply group_exists_iff. exists v. split; [cbn; set_solver|done].
Qed.

(** One row of a list with unique keys replaced: the names stay unique. *)
Lemma NoDup_replaced {A B} (key : A -> Uuid) (name : A -> B) p f (l : list A) :
  NoDup (key <$> l) -> NoDup (name <$> l) -> (forall x y, x ∈ l -> y ∈ l -> p x = true -> p y = true -> key x = key y) ->
  (forall x o, x ∈ l -> p x = true -> o ∈ drop_where p l -> name o <> name (f x)) -> NoDup (name <$> set_where p f l).
Proof.
  induction l as [|x l IH]; intros Hk Hn Hp Hf; [constructor|]. cbn in Hk, Hn. apply NoDup_cons in Hk as [Hk1 Hk2].
  apply NoDup_cons in Hn as [Hn1 Hn2].
  assert (p x = true -> forall y, y ∈ l -> p y = false) as Hothers.
  { intros Hx y Hy. destruct (p y) eqn:Ey; [|done]. exfalso. apply Hk1. rewrite (Hp x y) by (try done; set_solver).
    apply list_elem_of_fmap. by exists y. }
  unfold set_where. cbn. apply NoDup_cons. split.
  - intros (z & Ez & (y & -> & Hy)%list_elem_of_fmap)%list_elem_of_fmap. destruct (p x) eqn:Ex.
    + rewrite (Hothers eq_refl y Hy) in Ez. apply (Hf x y); [by left|done| |done]. apply elem_of_drop_where. split; [by right|by apply Hothers].
    + destruct (p y) eqn:Ey.
      * apply (Hf y x); [by right|done| |done]. apply elem_of_drop_where. by split; [left|].
      * apply Hn1. apply list_elem_of_fmap. by exists y.
  - apply IH; [done|done| |].
    + intros a b Ha Hb. apply Hp; by right.
    + intros a o Ha Hpa [Ho Hpo]%elem_of_drop_where. apply Hf; [by right|done|]. apply elem_of_drop_where. by split; [right|].
Qed.

Lemma update_group_ok id f t g :
  (forall x, ig_id (f x) = ig_id x) -> iam_ok t -> find_first (is_group id) (it_groups t) = Some g ->
  group_violation (drop_where (is_group id) (it_groups t)) (f g) = None ->
  iam_ok (set_groups (set_where (is_group id) f (it_groups t)) t).
Proof.
  intros Hf Hok (l1 & l2 & E & Hg & _)%find_first_Some Hv. apply bool_decide_eq_true in Hg.
  assert (g ∈ it_groups t) as Hin by (rewrite E; set_solver).
  assert (forall x, x ∈ it_groups t -> is_group id x = true -> x = g) as Huniq.
  { intros x Hx Ex%bool_decide_eq_true. apply (NoDup_fmap_unique ig_id (it_groups t)); [apply Hok|done|done|congruence]. }
  apply iam_ok_groups; [done| | |].
  - rewrite set_where_proj by done. apply Hok.
  - eapply (NoDup_replaced ig_id); [apply Hok|apply Hok| |].
    + intros x y Hx Hy Ex Ey. by rewrite (Huniq x), (Huniq y).
    + intros x o Hx Ex Ho. rewrite (Huniq x) by done. by apply (group_violation_None _ _ Hv).
  - intros i (v & Hv' & Hid)%group_exists_iff. apply group_exists_iff. exists (if is_group id v then f v else v).
    split; [apply elem_of_set_where; by exists v|]. by destruct (is_group id v); rewrite ?Hf.
Qed.

Lemma delete_group_ok id t : iam_ok t -> iam_ok (delete_group_row id t).2.
Proof.
  assert (forall id', id' <> id -> group_exists id' t = true -> any (is_group id') (drop_where (is_group id) (it_groups t)) = true) as He.
  { intros id' Hne (v & Hv & Hid)%group_exists_iff. apply any_true. exists v. split; [|by apply bool_decide_eq_true].
    apply elem_of_drop_where. split; [done|]. apply bool_decide_eq_false. congruence. }
  intros []. split; cbn; try done.
  - by apply NoDup_drop.
  - by apply NoDup_drop.
  - eapply pairs_ok_drop; [eassumption| |done]. cbn. intros a b Hne%bool_decide_eq_false. by apply He.
  - eapply pairs_ok_drop; [eassumption| |done]. cbn. intros a b Hne%bool_decide_eq_false. by apply He.
Qed.

(** *** Roles, accounts and tokens *)

Lemma iam_ok_members t l : iam_ok t -> pairs_ok l (fun g => group_exists g t) (fun u => user_exists u t) -> iam_ok (set_members l t).
Proof. by intros []. Qed.
Lemma iam_ok_user_roles t l : iam_ok t -> pairs_ok l (fun u => user_exists u t) (fun r => role_exists r t) -> iam_ok (set_user_roles l t).
Proof. by intros []. Qed.
Lemma iam_ok_group_roles t l : iam_ok t -> pairs_ok l (fun g => group_exists g t) (fun r => role_exists r t) -> iam_ok (set_group_roles l t).
Proof. by intros []. Qed.
Lemma iam_ok_account_roles t l :
  iam_ok t -> pairs_ok l (fun a => account_exists a t) (fun r => role_exists r t) -> iam_ok (set_service_account_roles l t).
Proof. by intros []. Qed.

Lemma insert_pair_ok pair h th pairs c set t r t' (here there : Uuid -> bool) :
  iam_ok t -> pairs_ok pairs here there -> (h = true -> here pair.1 = true) -> (th = true -> there pair.2 = true) ->
  (forall l, pairs_ok l here there -> iam_ok (set l t)) -> insert_pair pair h th pairs c set t = Ok (r, t') -> iam_ok t'.
Proof.
  intros Hok Hp Hh Ht Hset. unfold insert_pair. case_decide; [by intros [= <- <-]|].
  destruct h, th; cbn; try done. intros [= <- <-]. apply Hset, pairs_ok_insert; auto.
Qed.

Lemma account_exists_iff id t : account_exists id t = true <-> exists a, a ∈ it_service_accounts t /\ sa_id a = id.
Proof. unfold account_exists. rewrite any_true. unfold is_account. by setoid_rewrite bool_decide_eq_true. Qed.
Lemma iam_ok_accounts t l :
  iam_ok t -> NoDup (sa_id <$> l) -> NoDup (sa_name <$> l) ->
  (forall id, account_exists id t = true -> account_exists id (set_service_accounts l t) = true) -> iam_ok (set_service_accounts l t).
Proof. intros [] Hi Hn He. split; cbn; try done. by eapply pairs_ok_mono; [eassumption|..]. Qed.
Lemma add_account_ok t a :
  iam_ok t -> account_violation (it_service_accounts t) a = None -> iam_ok (set_service_accounts (it_service_accounts t ++ [a]) t).
Proof.
  intros Hok. unfold account_violation. destruct (negb _); [done|].
  destruct (any (fun o => bool_decide (sa_id o = sa_id a)) _) eqn:E1; [done|].
  destruct (any (fun o => bool_decide (sa_name o = sa_name a)) _) eqn:E2; [done|]. intros _. rewrite any_false in E1, E2.
  apply iam_ok_accounts; [done| | |].
  - apply NoDup_snoc_proj; [apply Hok|]. intros y Hy. specialize (E1 y Hy). by apply bool_decide_eq_false in E1.
  - apply NoDup_snoc_proj; [apply Hok|]. intros y Hy. specialize (E2 y Hy). by apply bool_decide_eq_false in E2.
  - intros id (v & Hv & Hid)%account_exists_iff. apply account_exists_iff. exists v. split; [cbn; set_solver|done].
Qed.
Lemma change_account_ok id f t :
  (forall a, sa_id (f a) = sa_id a /\ sa_name (f a) = sa_name a) -> iam_ok t -> iam_ok (change_account id f t).2.
Proof.
  intros Hf Hok. cbn. apply iam_ok_accounts; [done| | |].
  - rewrite set_where_proj by apply Hf. apply Hok.
  - rewrite set_where_proj by apply Hf. apply Hok.
  - intros i (v & Hv & Hid)%account_exists_iff. apply account_exists_iff. exists (if is_account id v then f v else v).
    split; [apply elem_of_set_where; by exists v|]. destruct (is_account id v); [|done]. by destruct (Hf v) as [-> _].
Qed.

Lemma iam_ok_user_tokens t l :
  iam_ok t -> (forall k, k ∈ l -> user_exists (ut_user_id k) t = true) -> iam_ok (set_user_tokens l t).
Proof. by intros []. Qed.
Lemma set_user_token_ok p f t :
  (forall k, ut_user_id (f k) = ut_user_id k) -> iam_ok t -> iam_ok (set_user_tokens (set_where p f (it_user_tokens t)) t).
Proof.
  intros Hf Hok. apply iam_ok_user_tokens; [done|]. intros k (k' & Hk & ->)%elem_of_set_where.
  destruct (p k'); rewrite ?Hf; by apply (ok_user_tokens _ Hok).
Qed.
Lemma iam_ok_refresh t l :
  iam_ok t -> (forall k, k ∈ l -> user_exists (rk_user_id k) t = true) -> NoDup (rk_id <$> l) -> NoDup (rk_token_hash <$> l) ->
  iam_ok (set_refresh_tokens l t).
Proof. by intros []. Qed.
Lemma iam_ok_audit t l : iam_ok t -> iam_ok (set_audit_events l t).
Proof. by intros []. Qed.

End Schema.

(** ** The tables as a state machine *)

(** Changes of a user that no check looks at. *)
Definition inert (f : IamUser -> IamUser) : Prop :=
  harmless f /\ forall u, iu_is_protected (f u) = iu_is_protected u /\ iu_token_version u <= iu_token_version (f u).

(** The user may be disabled, deleted or stripped of the administrator role. *)
Definition mutable (id : Uuid) (t : IamTables) : Prop :=
  (exists u, find_first (is_user id) (it_users t) = Some u /\ iu_is_protected u = false) /\
  (any (fun u => is_user id u && active_admin t u) (it_users t) = true ->
   (2 <= length (List.filter (active_admin t) (it_users t)))%nat).

Section Machine.
  Context `{U : Unicode}.

(** Statements that a run may be forbidden: those that take a role away from a group or a member out
    of it, and the deletion of a user. *)
Inductive Privilege := WithdrawFromGroup | EraseUser (id : Uuid).

(** One statement that changes the tables. *)
Inductive iam_step (allowed : Privilege -> Prop) (t : IamTables) : IamTables -> Prop :=
  | step_insert_user u r t' : insert_user u t = Ok (r, t') -> iam_step allowed t t'
  | step_profile id p now r t' :
      (match uu_status p with Some s => eq_ignore_ascii_case s "disabled" | None => false end = true -> mutable id t) ->
      change_user id (with_profile p now) t = Ok (r, t') -> iam_step allowed t t'
  | step_disable id now r t' :
      mutable id t -> change_user id (fun u => with_status "disabled" (iu_token_version u + 1) now u) t = Ok (r, t') ->
      iam_step allowed t t'
  | step_enable id now r t' :
      change_user id (fun u => with_status "active" (iu_token_version u) now u) t = Ok (r, t') -> iam_step allowed t t'
  | step_delete_user id : allowed (EraseUser id) -> mutable id t -> iam_step allowed t (delete_user_row id t).2
  | step_touch p f : inert f -> iam_step allowed t (set_users (set_where p f (it_users t)) t)
  | step_admin id hash now r t' : upsert_admin id hash now t = Ok (r, t') -> iam_step allowed t t'
  | step_add_group g : group_violation (it_groups t) g = None -> iam_step allowed t (set_groups (it_groups t ++ [g]) t)
  | step_update_group id f g :
      (forall x, ig_id (f x) = ig_id x) -> find_first (is_group id) (it_groups t) = Some g ->
      group_violation (drop_where (is_group id) (it_groups t)) (f g) = None ->
      iam_step allowed t (set_groups (set_where (is_group id) f (it_groups t)) t)
  | step_delete_group id : allowed WithdrawFromGroup -> iam_step allowed t (delete_group_row id t).2
  | step_add_member g u r t' :
      insert_pair (g, u) (group_exists g t) (user_exists u t) (it_members t) "iam_group_members_fkey" set_members t = Ok (r, t') ->
      iam_step allowed t t'
  | step_remove_member g u :
      allowed WithdrawFromGroup -> iam_step allowed t (set_members (drop_where (fun gm => bool_decide (gm = (g, u))) (it_members t)) t)
  | step_assign_user u role r t' :
      insert_pair (u, role) (user_exists u t) (role_exists role t) (it_user_roles t) "iam_user_roles_fkey" set_user_roles t
        = Ok (r, t') -> iam_step allowed t t'
  | step_revoke_user u r :
      r ∈ it_roles t -> (ir_name r = POLICY_ADMIN -> mutable u t) ->
      iam_step allowed t (set_user_roles (drop_where (fun ur => bool_decide (ur = (u, ir_id r))) (it_user_roles t)) t)
  | step_assign_group g role r t' :
      insert_pair (g, role) (group_exists g t) (role_exists role t) (it_group_roles t) "iam_group_roles_fkey" set_group_roles t
        = Ok (r, t') -> iam_step allowed t t'
  | step_revoke_group g role :
      allowed WithdrawFromGroup -> iam_step allowed t (set_group_roles (drop_where (fun gr => bool_decide (gr = (g, role))) (it_group_roles t)) t)
  | step_add_account a :
      account_violation (it_service_accounts t) a = None ->
      iam_step allowed t (set_service_accounts (it_service_accounts t ++ [a]) t)
  | step_change_account id f :
      (forall a, sa_id (f a) = sa_id a /\ sa_name (f a) = sa_name a) -> iam_step allowed t (change_account id f t).2
  | step_drop_account_roles p :
      iam_step allowed t (set_service_account_roles (drop_where p (it_service_account_roles t)) t)
  | step_add_account_role id role :
      (id, role) ∉ it_service_account_roles t -> account_exists id t = true -> role_exists role t = true ->
      iam_step allowed t (set_service_account_roles (it_service_account_roles t ++ [(id, role)]) t)
  | step_add_user_token k : user_exists (ut_user_id k) t = true -> iam_step allowed t (set_user_tokens (it_user_tokens t ++ [k]) t)
  | step_set_user_token p f :
      (forall k, ut_user_id (f k) = ut_user_id k) -> iam_step allowed t (set_user_tokens (set_where p f (it_user_tokens t)) t)
  | step_add_refresh k :
      user_exists (rk_user_id k) t = true -> rk_id k ∉ (rk_id <$> it_refresh_tokens t) ->
      rk_token_hash k ∉ (rk_token_hash <$> it_refresh_tokens t) ->
      iam_step allowed t (set_refresh_tokens (it_refresh_tokens t ++ [k]) t)
  | step_set_refresh p f :
      (forall k, rk_id (f k) = rk_id k /\ rk_user_id (f k) = rk_user_id k /\ rk_token_hash (f k) = rk_token_hash k /\
        rk_token_version (f k) = rk_token_version k /\ is_Some (rk_revoked_at (f k))) ->
      iam_step allowed t (set_refresh_tokens (set_where p f (it_refresh_tokens t)) t)
  | step_audit l : iam_step allowed t (set_audit_events l t).

Lemma upsert_admin_ok id hash now t r t' : iam_ok t -> upsert_admin id hash now t = Ok (r, t') -> iam_ok t'.
Proof.
  intros Hok. unfold upsert_admin. destruct (find_first _ _).
  - intros ([x t1] & H & [= <- <-])%bind_Ok. by eapply change_user_ok in H.
  - intros ([x t1] & H & [= <- <-])%bind_Ok. by eapply insert_user_ok in H.
Qed.

(** The schema is kept. *)
Lemma iam_step_ok allowed t t' : iam_step allowed t t' -> iam_ok t -> iam_ok t'.
Proof.
  intros Hs Hok.
  destruct Hs as [u r t' H|id p now r t' _ H|id now r t' _ H|id now r t' H|id _ _|p f [Hf _]|id hash now r t' H|g H|id f g Hf Hg Hv|id _
    |g u r t' H|g u _|u role r t' H|u r _ _|g role r t' H|g role _|a H|id f Hf|p|id role H1 H2 H3|k Hk|p f Hf|k H1 H2 H3|p f Hf|l].
  - by eapply insert_user_ok.
  - by eapply change_user_ok in H.
  - by eapply change_user_ok in H.
  - by eapply change_user_ok in H.
  - by apply delete_user_ok.
  - by apply touch_user_ok.
  - by eapply upsert_admin_ok.
  - by apply add_group_ok.
  - by eapply update_group_ok.
  - by apply delete_group_ok.
  - eapply insert_pair_ok; [done|apply (ok_members _ Hok)|done|done| |exact H]. intros l. by apply iam_ok_members.
  - apply iam_ok_members; [done|]. eapply pairs_ok_sublist; [apply drop_where_sublist|apply Hok].
  - eapply insert_pair_ok; [done|apply (ok_user_roles _ Hok)|done|done| |exact H]. intros l. by apply iam_ok_user_roles.
  - apply iam_ok_user_roles; [done|]. eapply pairs_ok_sublist; [apply drop_where_sublist|apply Hok].
  - eapply insert_pair_ok; [done|apply (ok_group_roles _ Hok)|done|done| |exact H]. intros l. by apply iam_ok_group_roles.
  - apply iam_ok_group_roles; [done|]. eapply pairs_ok_sublist; [apply drop_where_sublist|apply Hok].
  - by apply add_account_ok.
  - by apply change_account_ok.
  - apply iam_ok_account_roles; [done|]. eapply pairs_ok_sublist; [apply drop_where_sublist|apply Hok].
  - apply iam_ok_account_roles; [done|]. by apply pairs_ok_insert; [apply Hok|..].
  - apply iam_ok_user_tokens; [done|]. intros k' [Hk'| ->%list_elem_of_singleton]%elem_of_app; [by apply (ok_user_tokens _ Hok)|done].
  - by apply set_user_token_ok.
  - apply iam_ok_refresh; [done| | |].
    + intros k' [Hk'| ->%list_elem_of_singleton]%elem_of_app; [by apply (ok_refresh_tokens _ Hok)|done].
    + apply NoDup_snoc_proj; [apply Hok|]. intros y Hy E. apply H2. rewrite <- E. apply list_elem_of_fmap. by exists y.
    + apply NoDup_snoc_proj; [apply Hok|]. intros y Hy E. apply H3. rewrite <- E. apply list_elem_of_fmap. by exists y.
  - apply iam_ok_refresh; [done| | |].
    + intros k (k' & Hk & ->)%elem_of_set_where. specialize (Hf k'). destruct (p k'); [destruct Hf as (_ & -> & _)|];
        by apply (ok_refresh_tokens _ Hok).
    + rewrite set_where_proj by apply Hf. apply Hok.
    + rewrite set_where_proj by apply Hf. apply Hok.
  - by apply iam_ok_audit.
Qed.

End Machine.

(** ** The protected administrator *)

Definition protected_admin (id : Uuid) (t : IamTables) : Prop :=
  (exists u, u ∈ it_users t /\ iu_id u = id /\ iu_is_protected u = true /\ iu_status u = "active") /\
  (exists r, r ∈ it_roles t /\ ir_name r = POLICY_ADMIN /\ (id, ir_id r) ∈ it_user_roles t).

Section Administrators.
  Context `{U : Unicode}.

Lemma mutable_not_protected id t : iam_ok t -> mutable id t -> ~ protected_admin id t.
Proof.
  intros Hok [(u & [Hu Hid]%find_user & Hp) _] [(v & Hv & Hid' & Hp' & _) _].
  assert (u = v) as -> by (apply (NoDup_fmap_unique iu_id (it_users t)); [apply Hok|done|done|congruence]). congruence.
Qed.

(** What a changed user has become, under the constraints. *)
Lemma change_user_inv id f t r t' :
  change_user id f t = Ok (r, t') ->
  (r = None /\ t' = t) \/
  exists u, u ∈ it_users t /\ iu_id u = id /\ iu_status (f u) ∈ STATUSES /\ t' = set_users (set_where (is_user id) f (it_users t)) t.
Proof.
  unfold change_user. destruct (find_first _ _) as [u|] eqn:Eu; [|by intros [= <- <-]; left].
  destruct (user_violation _ _) eqn:E; [done|]. intros [= <- <-]. apply find_user in Eu as [Hu Hid].
  apply user_violation_None in E as [Hs _]. right. by exists u.
Qed.

Lemma set_where_other id f us u : u ∈ us -> iu_id u <> id -> u ∈ set_where (is_user id) f us.
Proof. intros Hu Hne. apply elem_of_set_where. exists u. split; [done|]. unfold is_user. by rewrite bool_decide_eq_false_2. Qed.
Lemma set_where_same id f us u : u ∈ us -> iu_id u = id -> f u ∈ set_where (is_user id) f us.
Proof. intros Hu Hid. apply elem_of_set_where. exists u. split; [done|]. unfold is_user. by rewrite bool_decide_eq_true_2. Qed.

(** A profile that is not asked to be disabled stays active. *)
Lemma profile_active p now u :
  match uu_status p with Some s => eq_ignore_ascii_case s "disabled" | None => false end = false ->
  iu_status (with_profile p now u) ∈ STATUSES -> iu_status u = "active" -> iu_status (with_profile p now u) = "active".
Proof.
  unfold with_profile. cbn. destruct (uu_status p) as [s|]; cbn; [|done]. intros Hs Hin _.
  apply elem_of_cons in Hin as [->|[->|?%elem_of_nil]%elem_of_cons]; [done|by vm_compute in Hs|done].
Qed.

Lemma protected_change id uid f t r t' :
  change_user id f t = Ok (r, t') -> protected_admin uid t ->
  (forall u, u ∈ it_users t -> iu_id u = uid -> id = uid -> iu_is_protected u = true -> iu_status u = "active" ->
   iu_status (f u) ∈ STATUSES -> iu_id (f u) = uid /\ iu_is_protected (f u) = true /\ iu_status (f u) = "active") ->
  iam_ok t -> protected_admin uid t'.
Proof.
  intros [[_ ->]|(v & Hv & Hid & Hs & ->)]%change_user_inv [(u & Hu & Hi & Hp & Ha) Hrole] Hf Hok; [by split; [exists u|]|].
  split; [|exact Hrole]. cbn. destruct (decide (id = uid)) as [E|E].
  - assert (v = u) as -> by (apply (NoDup_fmap_unique iu_id (it_users t)); [apply Hok|done|done|congruence]).
    destruct (Hf u) as (? & ? & ?); [done..|]. exists (f u). split_and!; [|done..]. by apply set_where_same.
  - exists u. split_and!; [|done..]. apply set_where_other; [done|congruence].
Qed.

Lemma protected_same t t' uid :
  it_users t' = it_users t -> it_roles t' = it_roles t -> it_user_roles t' = it_user_roles t ->
  protected_admin uid t -> protected_admin uid t'.
Proof. unfold protected_admin. by intros -> -> ->. Qed.
Lemma insert_pair_same {A} (g : IamTables -> A) {pair h th pairs c set t r t'} :
  insert_pair pair h th pairs c set t = Ok (r, t') -> (forall l, g (set l t) = g t) -> g t' = g t.
Proof.
  intros H Hg. revert H. unfold insert_pair. case_decide; [by intros [= <- <-]|]. destruct (h && th); [|done]. by intros [= <- <-].
Qed.

Lemma protected_step allowed uid t t' :
  iam_step allowed t t' -> iam_ok t -> protected_admin uid t -> protected_admin uid t'.
Proof.
  intros Hs Hok Hp. assert (forall id, mutable id t -> id <> uid) as Hmut by (intros id Hm ->; by apply (mutable_not_protected uid t)).
  destruct Hs as [u r t' H|id p now r t' Hm H|id now r t' Hm H|id now r t' H|id _ Hm|p f [Hf Hf']|id hash now r t' H|g H|id f g Hf Hg Hv|id _
    |g u r t' H|g u _|u role r t' H|u r Hr Hm|g role r t' H|g role _|a H|id f Hf|p|id role H1 H2 H3|k Hk|p f Hf|k H1 H2 H3|p f Hf|l];
    try (by apply (protected_same t)).
  - destruct Hp as [(v & Hv & Hrest) Hrole]. unfold insert_user in H. destruct (user_violation _ _); [done|]. injection H as <- <-.
    split; [exists v; split; [cbn; set_solver|done]|done].
  - eapply protected_change; [exact H|done| |done]. intros u Hu Hi -> Hpu Ha Hst. split_and!; [done|done|].
    apply profile_active; [|done|done]. destruct (match uu_status p with Some s => _ | None => _ end); [|done]. by destruct (Hmut uid (Hm eq_refl)).
  - eapply protected_change; [exact H|done| |done]. intros u _ _ ->. by destruct (Hmut uid Hm).
  - by eapply protected_change; [exact H|done|..].
  - specialize (Hmut id Hm). destruct Hp as [(v & Hv & Hi & Hrest) (r & Hr & Hn & Hur)]. split.
    + exists v. split_and!; [|done..|apply Hrest|apply Hrest]. cbn. apply elem_of_drop_where. split; [done|].
      apply bool_decide_eq_false. congruence.
    + exists r. split_and!; [done..|]. cbn. apply elem_of_drop_where. split; [done|]. cbn. apply bool_decide_eq_false. congruence.
  - destruct Hp as [(v & Hv & Hi & Hpv & Ha) Hrole]. split; [|done]. cbn. exists (if p v then f v else v).
    split; [apply elem_of_set_where; by exists v|]. destruct (p v); [|done]. destruct (Hf v) as (-> & _ & _ & ->). by destruct (Hf' v) as [-> _].
  - unfold upsert_admin in H. destruct (find_first _ _) as [v|].
    + apply bind_Ok in H as ([x t1] & H & [= <- <-]). by eapply protected_change; [exact H|done|..].
    + apply bind_Ok in H as ([x t1] & H & [= <- <-]). unfold insert_user in H. destruct (user_violation _ _); [done|]. injection H as <- <-.
      destruct Hp as [(v & Hv & Hrest) Hrole]. split; [exists v; split; [cbn; set_solver|done]|done].
  - apply (protected_same t); [..|done]; by eapply (insert_pair_same _ H).
  - destruct Hp as [Huser (r' & Hr & Hn & Hur)]. split.
    { by rewrite (insert_pair_same it_users H) by done. }
    exists r'. unfold insert_pair in H. case_decide; [by injection H as <- <-|]. destruct (_ && _); [|done]. injection H as <- <-.
    split_and!; [done..|]. cbn. set_solver.
  - destruct Hp as [Huser (r' & Hr' & Hn & Hur)]. split; [done|]. exists r'. split_and!; [done..|]. cbn.
    apply elem_of_drop_where. split; [done|]. apply bool_decide_eq_false. intros [= <- E].
    assert (r' = r) as -> by (apply (NoDup_fmap_unique ir_id (it_roles t)); [apply Hok|done|done|congruence]).
    by destruct (Hmut uid (Hm Hn)).
  - apply (protected_same t); [..|done]; by eapply (insert_pair_same _ H).
Qed.

(** ** Some administrator *)

Definition some_admin (t : IamTables) : Prop := exists u, u ∈ it_users t /\ active_admin t u = true.

(** The administrator role, given to the user or to a group it is in. *)
Definition admin_by (t : IamTables) (id : Uuid) : Prop :=
  exists r, r ∈ it_roles t /\ ir_name r = POLICY_ADMIN /\
    ((id, ir_id r) ∈ it_user_roles t \/ exists g, (g, ir_id r) ∈ it_group_roles t /\ (g, id) ∈ it_members t).

Lemma elem_of_user_role_ids t id role :
  role ∈ user_role_ids t id <->
  (id, role) ∈ it_user_roles t \/ exists g, (g, role) ∈ it_group_roles t /\ (g, id) ∈ it_members t.
Proof.
  unfold user_role_ids. rewrite elem_of_app, !list_elem_of_fmap. setoid_rewrite list_elem_of_In. setoid_rewrite filter_In.
  setoid_rewrite <- list_elem_of_In. split.
  - intros [([a b] & -> & Hin & E)|([a b] & -> & Hin & E)]; apply bool_decide_eq_true in E; cbn in *; [left; by subst|right; by exists a].
  - intros [H|(g & H1 & H2)]; [left; exists (id, role)|right; exists (g, role)]; (split; [done|split; [done|by apply bool_decide_eq_true]]).
Qed.

Lemma active_admin_iff t u : active_admin t u = true <-> iu_status u = "active" /\ admin_by t (iu_id u).
Proof.
  unfold active_admin, holds_policy_admin. rewrite andb_true_iff, bool_decide_eq_true, any_true. apply and_iff_compat_l.
  unfold admin_by, user_role_rows. split.
  - intros (r & Hr & Hn). apply bool_decide_eq_true in Hn. apply list_elem_of_In, filter_In in Hr as [Hr Hid].
    apply bool_decide_eq_true, elem_of_user_role_ids in Hid. exists r. by apply list_elem_of_In in Hr.
  - intros (r & Hr & Hn & Hid%elem_of_user_role_ids). exists r. split; [|by apply bool_decide_eq_true].
    apply list_elem_of_In, filter_In. split; [by apply list_elem_of_In|by apply bool_decide_eq_true].
Qed.

(** A user that may be changed is not the only administrator. *)
Lemma another_admin id t : iam_ok t -> mutable id t -> some_admin t -> exists u, u ∈ it_users t /\ active_admin t u = true /\ iu_id u <> id.
Proof.
  intros Hok [_ Hm] (u & Hu & Ha). destruct (decide (iu_id u = id)) as [E|E]; [|by exists u].
  assert (2 <= length (List.filter (active_admin t) (it_users t)))%nat as Hlen.
  { apply Hm, any_true. exists u. split; [done|]. rewrite Ha. unfold is_user. by rewrite bool_decide_eq_true_2. }
  assert (NoDup (iu_id <$> List.filter (active_admin t) (it_users t))) as Hnd.
  { eapply sublist_NoDup; [apply (ok_users _ Hok)|]. apply fmap_sublist, filter_sublist. }
  destruct (List.filter (active_admin t) (it_users t)) as [|x [|y l]] eqn:El; [cbn in Hlen; lia..|].
  assert (forall z, z ∈ x :: y :: l -> z ∈ it_users t /\ active_admin t z = true) as Hin.
  { intros z Hz. rewrite <- El in Hz. apply list_elem_of_In, filter_In in Hz as [Hz ?]. by apply list_elem_of_In in Hz. }
  cbn in Hnd. apply NoDup_cons in Hnd as [Hxy _]. destruct (decide (iu_id x = id)) as [Ex|Ex].
  - exists y. destruct (Hin y) as [? ?]; [set_solver|]. split_and!; [done..|]. intros Ey. apply Hxy. rewrite Ex, <- Ey. by left.
  - exists x. destruct (Hin x) as [? ?]; [set_solver|]. done.
Qed.

Lemma admin_by_mono t t' id :
  it_roles t' = it_roles t -> (forall p, p ∈ it_user_roles t -> p.1 = id -> p ∈ it_user_roles t') ->
  (forall p, p ∈ it_group_roles t -> p ∈ it_group_roles t') -> (forall p, p ∈ it_members t -> p.2 = id -> p ∈ it_members t') ->
  admin_by t id -> admin_by t' id.
Proof.
  intros E H1 H2 H3 (r & Hr & Hn & Hby). exists r. rewrite E. split_and!; [done..|].
  destruct Hby as [H|(g & Hg & Hm)]; [left; by apply H1|right; exists g; auto].
Qed.

(** An administrator that stays one. *)
Lemma admin_stays t t' u :
  active_admin t u = true -> (admin_by t (iu_id u) -> admin_by t' (iu_id u)) -> u ∈ it_users t' -> some_admin t'.
Proof. intros [Ha Hb]%active_admin_iff Hmono Hu. exists u. split; [done|]. apply active_admin_iff. auto. Qed.
Lemma some_admin_same t t' :
  it_users t' = it_users t -> it_roles t' = it_roles t -> (forall p, p ∈ it_user_roles t -> p ∈ it_user_roles t') ->
  (forall p, p ∈ it_group_roles t -> p ∈ it_group_roles t') -> (forall p, p ∈ it_members t -> p ∈ it_members t') ->
  some_admin t -> some_admin t'.
Proof.
  intros E1 E2 H1 H2 H3 (u & Hu & Ha). eapply admin_stays; [exact Ha| |by rewrite E1]. apply admin_by_mono; auto.
Qed.

Lemma some_admin_change id f t r t' :
  change_user id f t = Ok (r, t') -> iam_ok t ->
  (forall u, iu_id (f u) = iu_id u) ->
  (forall u, iu_status (f u) ∈ STATUSES -> iu_status u = "active" -> iu_status (f u) = "active") \/ mutable id t ->
  some_admin t -> some_admin t'.
Proof.
  intros [[_ ->]|(v & Hv & Hid & Hs & ->)]%change_user_inv Hok Hf Hcase Ha; [done|]. destruct Hcase as [Hkeep|Hm].
  - destruct Ha as (u & Hu & Ha). destruct (decide (iu_id u = id)) as [E|E].
    + assert (v = u) as -> by (apply (NoDup_fmap_unique iu_id (it_users t)); [apply Hok|done|done|congruence]).
      apply active_admin_iff in Ha as [Hact Hby]. exists (f u). split; [by apply set_where_same|]. apply active_admin_iff.
      rewrite Hf. split; [by apply Hkeep|]. exact Hby.
    + eapply admin_stays; [exact Ha|done|]. by apply set_where_other.
  - destruct (another_admin id t Hok Hm Ha) as (u & Hu & Hau & Hne). eapply admin_stays; [exact Hau|done|]. by apply set_where_other.
Qed.

Lemma insert_pair_grows {pair h th pairs c set t r t'} (g : IamTables -> list (Uuid * Uuid)) :
  insert_pair pair h th pairs c set t = Ok (r, t') -> g t = pairs -> (forall l, g (set l t) = l) -> forall p, p ∈ g t -> p ∈ g t'.
Proof.
  intros H <- Hset. revert H. unfold insert_pair. case_decide; [by intros [= <- <-]|]. destruct (h && th); [|done]. intros [= <- <-] p Hp.
  rewrite Hset. set_solver.
Qed.

Lemma some_admin_step allowed t t' : ~ allowed WithdrawFromGroup -> iam_step allowed t t' -> iam_ok t -> some_admin t -> some_admin t'.
Proof.
  intros Hw Hs Hok Ha.
  destruct Hs as [u r t' H|id p now r t' Hm H|id now r t' Hm H|id now r t' H|id _ Hm|p f [Hf Hf']|id hash now r t' H|g H|id f g Hf Hg Hv|id
    |g u r t' H|g u|u role r t' H|u r Hr Hm|g role r t' H|g role|a H|id f Hf|p|id role H1 H2 H3|k Hk|p f Hf|k H1 H2 H3|p f Hf|l];
    try done; try (by apply (some_admin_same t)).
  - destruct Ha as (v & Hv & Ha). unfold insert_user in H. destruct (user_violation _ _); [done|]. injection H as <- <-.
    eapply admin_stays; [exact Ha|done|]. cbn. set_solver.
  - eapply some_admin_change; [exact H|done|done| |done].
    destruct (match uu_status p with Some s => _ | None => _ end) eqn:E; [right; by apply Hm|left].
    intros v Hst Hact. by apply profile_active.
  - eapply some_admin_change; [exact H|done|done|by right|done].
  - by eapply some_admin_change; [exact H|done|done|left|].
  - destruct (another_admin id t Hok Hm Ha) as (u & Hu & Hau & Hne). eapply admin_stays; [exact Hau| |].
    + apply admin_by_mono; [done| |done|]; intros p Hp E; cbn; apply elem_of_drop_where; (split; [done|]); apply bool_decide_eq_false; congruence.
    + cbn. apply elem_of_drop_where. split; [done|]. apply bool_decide_eq_false. done.
  - destruct Ha as (v & Hv & [Hact Hby]%active_admin_iff). exists (if p v then f v else v).
    split; [cbn; apply elem_of_set_where; by exists v|]. apply active_admin_iff. destruct (p v); [|done].
    destruct (Hf v) as (-> & _ & _ & ->). done.
  - unfold upsert_admin in H. destruct (find_first _ _) as [v|].
    + apply bind_Ok in H as ([x t1] & H & [= <- <-]). by eapply some_admin_change; [exact H|done|done|left|].
    + apply bind_Ok in H as ([x t1] & H & [= <- <-]). unfold insert_user in H. destruct (user_violation _ _); [done|]. injection H as <- <-.
      destruct Ha as (v & Hv & Ha). eapply admin_stays; [exact Ha|done|]. cbn. set_solver.
  - apply (some_admin_same t); [by eapply (insert_pair_same _ H)..| | | |done].
    + intros p. by rewrite (insert_pair_same it_user_roles H) by done.
    + intros p. by rewrite (insert_pair_same it_group_roles H) by done.
    + by apply (insert_pair_grows it_members H).
  - apply (some_admin_same t); [by eapply (insert_pair_same _ H)..| | | |done].
    + by apply (insert_pair_grows it_user_roles H).
    + intros p. by rewrite (insert_pair_same it_group_roles H) by done.
    + intros p. by rewrite (insert_pair_same it_members H) by done.
  - assert (exists v, v ∈ it_users t /\ active_admin t v = true /\ (iu_id v = u -> ir_name r <> POLICY_ADMIN)) as (v & Hv & Hav & Hne).
    { destruct (decide (ir_name r = POLICY_ADMIN)) as [E|E].
      - destruct (another_admin u t Hok (Hm E) Ha) as (v & ? & ? & ?). by exists v.
      - destruct Ha as (v & ? & ?). by exists v. }
    eapply admin_stays; [exact Hav| |done]. intros (r' & Hr' & Hn & Hby). exists r'. split_and!; [done..|]. cbn.
    destruct Hby as [Hby|?]; [left|by right]. apply elem_of_drop_where. split; [done|]. apply bool_decide_eq_false.
    intros [= E1 E2]. apply (Hne E1).
    by rewrite <- (NoDup_fmap_unique ir_id (it_roles t) r' r (ok_role_ids _ Hok) Hr' Hr E2).
  - apply (some_admin_same t); [by eapply (insert_pair_same _ H)..| | | |done].
    + intros p. by rewrite (insert_pair_same it_user_roles H) by done.
    + by apply (insert_pair_grows it_group_roles H).
    + intros p. by rewrite (insert_pair_same it_members H) by done.
Qed.

(** Along a run. *)
Lemma reached_ok allowed t t' : rtc (iam_step allowed) t t' -> iam_ok t -> iam_ok t'.
Proof. induction 1; intros; [done|]. eauto using iam_step_ok. Qed.
Lemma reached_protected allowed uid t t' : rtc (iam_step allowed) t t' -> iam_ok t -> protected_admin uid t -> protected_admin uid t'.
Proof. induction 1; intros; [done|]. eauto using iam_step_ok, protected_step. Qed.
Lemma reached_some_admin allowed t t' :
  ~ allowed WithdrawFromGroup -> rtc (iam_step allowed) t t' -> iam_ok t -> some_admin t -> some_admin t'.
Proof. induction 2; intros; [done|]. eauto using iam_step_ok, some_admin_step. Qed.

End Administrators.

(** ** Every operation is a run of the machine *)

Section Operations.
  Context `{U : Unicode} `{SE : Secrets} `{X : Texts} `{C : Collation} `{T : JsonText} `{B : Base64} (env : Env).
  Context (allowed : Privilege -> Prop) (t0 : IamTables).

Definition reached : IamTables -> Prop := rtc (iam_step allowed) t0.
Lemma reached_step t t' : iam_step allowed t t' -> reached t -> reached t'.
Proof. intros Hs Hr. by eapply rtc_r. Qed.

Lemma create_user_kept p : kept reached (create_user p).
Proof.
  unfold create_user, generate_token, hash_token, iam_insert. keep. apply kept_checked. intros now t r' t' Hr H.
  eapply reached_step; [by eapply step_insert_user|done].
Qed.

Lemma protected_triple (P : IamTables -> Prop) id :
  (forall t, P t -> reached t) ->
  triple P (user_is_protected id)
    (fun b t => P t /\ exists u, find_first (is_user id) (it_users t) = Some u /\ iu_is_protected u = b) reached.
Proof.
  intros HP. unfold user_is_protected. eapply triple_bind; [apply triple_map_error, triple_fetch; exact HP|]. intros row.
  eapply triple_bind; [apply triple_result; [|intros a t]|].
  - intros t [Ht _]. by apply HP.
  - intros Ha%ok_or_Ok [Ht [now ->]]. instantiate (1 := fun a t => P t /\ find_first (is_user id) (it_users t) = Some a). done.
  - intros u. apply triple_ret. intros t [Ht Hu]. by eauto.
Qed.

(** The guard lets only users pass that may be changed. *)
Lemma guard_triple id :
  triple reached (ensure_user_mutation_allowed id true) (fun _ t => reached t /\ mutable id t) reached.
Proof.
  unfold ensure_user_mutation_allowed. eapply triple_bind; [by apply protected_triple|]. intros protected.
  destruct protected; [by apply triple_result; [intros t [? _]|]|].
  eapply triple_bind; [apply triple_map_error, triple_fetch; by intros t [? _]|]. intros is_admin. destruct is_admin.
  2: { apply triple_ret. intros t [[Ht Hu] [now Hn]]. split; [done|]. split; [done|]. by rewrite <- Hn. }
  eapply triple_bind; [apply triple_map_error, triple_fetch; by intros t [[? _] _]|]. intros n. case_decide.
  { apply triple_result; [by intros t [[[? _] _] _]|done]. }
  apply triple_ret. intros t [[[Ht Hu] _] [now ->]]. split; [done|]. split; [done|]. intros _. lia.
Qed.

(** A checked update of a user that may be changed. *)
Lemma affect_triple (P : IamTables -> Prop) id f :
  (forall t, P t -> reached t) ->
  (forall now t r t', P t -> change_user id (f now) t = Ok (r, t') -> iam_step allowed t t') ->
  triple P (affect_user id f) (fun _ => reached) reached.
Proof.
  intros HP Hf. unfold affect_user. eapply triple_bind; [apply triple_map_error, triple_checked; [exact HP|]|].
  - intros now t r' t' Ht E. instantiate (1 := fun _ => reached). eapply reached_step; [by eapply Hf|by apply HP].
  - intros row. change (kept reached (_ ← found "user" row; mret ())). keep.
Qed.

Lemma update_user_kept id p : kept reached (update_user id p).
Proof.
  unfold update_user.
  set (asked := match uu_status p with Some s => eq_ignore_ascii_case s "disabled" | None => false end).
  set (P := fun t => reached t /\ (asked = true -> mutable id t)).
  assert (forall t, P t -> reached t) as HP by by intros t [? _].
  eapply triple_bind; [instantiate (1 := fun _ => P)|intros ?].
  { destruct asked eqn:E; [eapply triple_weaken; [apply guard_triple|done|]|apply triple_ret]; unfold P; rewrite ?E; [|done].
    intros _ t [? ?]. done. }
  eapply triple_bind; [instantiate (1 := fun _ => P)|intros protected].
  { case_bool_decide; [|by apply triple_ret]. eapply triple_weaken; [by apply protected_triple|done|]. by intros b t [? _]. }
  destruct protected; [by apply triple_result|].
  eapply triple_bind; [apply triple_map_error, triple_checked; [exact HP|]|].
  - intros now t r' t' [Ht Hm] E. instantiate (1 := fun _ => reached). eapply reached_step; [by eapply step_profile|done].
  - intros row. apply kept_result.
Qed.
Lemma disable_user_kept id : kept reached (disable_user id).
Proof.
  unfold disable_user. eapply triple_bind; [apply guard_triple|intros ?]. apply affect_triple; [by intros t [? _]|].
  intros now t r t' [_ Hm] E. by eapply step_disable.
Qed.
Lemma enable_user_kept id : kept reached (enable_user id).
Proof. apply affect_triple; [done|]. intros now t r t' _ E. by eapply step_enable. Qed.
Lemma affected_kept resource f : (forall now t, iam_step allowed t (f now t).2) -> kept reached (affected resource f).
Proof. intros H. unfold affected. keep. apply kept_sql. intros now t Hr. by eapply reached_step. Qed.
Lemma hard_delete_user_kept id : allowed (EraseUser id) -> kept reached (hard_delete_user id).
Proof.
  intros Hw. unfold hard_delete_user. eapply triple_bind; [apply guard_triple|intros ?]. unfold affected.
  eapply triple_bind; [apply triple_map_error, triple_sql; [by intros t [? _]|]|].
  - intros now t [Ht Hm]. instantiate (1 := fun _ => reached). eapply reached_step; [by apply step_delete_user|done].
  - intros hit. change (kept reached (if hit then mret () else fail (NotFound "user"))). keep.
Qed.

Lemma create_group_kept p : kept reached (create_group p).
Proof.
  unfold create_group, iam_insert. keep. apply kept_checked. intros now t r' t' Hr. cbv zeta.
  destruct (group_violation _ _) eqn:E; [done|]. intros [= <- <-]. eapply reached_step; [by apply step_add_group|done].
Qed.
Lemma update_group_kept id p : kept reached (update_group id p).
Proof.
  unfold update_group, iam_checked. keep. apply kept_checked. intros now t r' t' Hr.
  destruct (find_first _ _) as [g|] eqn:Eg; [|by intros [= <- <-]]. destruct (group_violation _ _) eqn:E; [done|].
  intros [= <- <-]. eapply reached_step; [by eapply step_update_group|done].
Qed.
Lemma delete_group_kept id : allowed WithdrawFromGroup -> kept reached (delete_group id).
Proof. intros Hw. apply affected_kept. intros _ t. by apply step_delete_group. Qed.
Lemma add_group_member_kept g u : kept reached (add_group_member g u).
Proof.
  unfold add_group_member, iam_checked. keep. apply kept_checked. intros now t r' t' Hr H.
  eapply reached_step; [by eapply step_add_member|done].
Qed.
Lemma remove_group_member_kept g u : allowed WithdrawFromGroup -> kept reached (remove_group_member g u).
Proof. intros Hw. apply affected_kept. intros _ t. by apply step_remove_member. Qed.
Lemma assign_role_to_user_kept u role : kept reached (assign_role_to_user u role).
Proof.
  unfold assign_role_to_user, role_id_by_name, user_roles, iam_checked. keep. apply kept_checked. intros now t r' t' Hr H.
  eapply reached_step; [by eapply step_assign_user|done].
Qed.
Lemma role_triple (P : IamTables -> Prop) role :
  (forall t, P t -> reached t) ->
  triple P (role_id_by_name role) (fun id t => P t /\ exists r, r ∈ it_roles t /\ ir_name r = role /\ ir_id r = id) reached.
Proof.
  intros HP. unfold role_id_by_name. eapply triple_bind; [apply triple_map_error, triple_fetch; exact HP|]. intros row.
  apply triple_result; [intros t [Ht _]; by apply HP|]. intros id t Hid%ok_or_Ok [Ht [now ->]]. split; [done|].
  apply fmap_Some in Hid as (r & Hr & ->). apply find_first_Some in Hr as (l1 & l2 & -> & Hn & _).
  apply bool_decide_eq_true in Hn. exists r. set_solver.
Qed.
Lemma revoke_role_from_user_kept u role : kept reached (revoke_role_from_user u role).
Proof.
  unfold revoke_role_from_user. set (P := fun t => reached t /\ (role = POLICY_ADMIN -> mutable u t)).
  eapply triple_bind; [instantiate (1 := fun _ => P)|intros ?].
  { destruct (eq_ignore_ascii_case role POLICY_ADMIN) eqn:E.
    - eapply triple_weaken; [apply guard_triple|done|]. by intros _ t [? ?].
    - apply triple_ret. intros t Ht. split; [done|]. intros ->. done. }
  eapply triple_bind; [apply role_triple; by intros t [? _]|intros role_id].
  eapply triple_bind; [apply triple_map_error, triple_update; [by intros t [[? _] _]|]|].
  - intros now t [[Ht Hm] (r & Hr & Hn & <-)]. instantiate (1 := reached).
    eapply reached_step; [apply step_revoke_user; [done|intros E; apply Hm; congruence]|done].
  - intros []. unfold user_roles. change (kept reached (iam_fetch (fun _ t => ordered_names (user_role_rows t u)))). keep.
Qed.
Lemma assign_role_to_group_kept g role : kept reached (assign_role_to_group g role).
Proof.
  unfold assign_role_to_group, role_id_by_name, group_roles, iam_checked. keep. apply kept_checked. intros now t r' t' Hr H.
  eapply reached_step; [by eapply step_assign_group|done].
Qed.
Lemma revoke_role_from_group_kept g role : allowed WithdrawFromGroup -> kept reached (revoke_role_from_group g role).
Proof.
  intros Hw. unfold revoke_role_from_group, role_id_by_name, group_roles, iam_update. keep. apply kept_update. intros _ t Hr.
  eapply reached_step; [by apply step_revoke_group|done].
Qed.

Lemma replace_roles_kept id roles : kept reached (replace_service_account_roles id roles).
Proof.
  unfold replace_service_account_roles, role_ids_by_name. keep.
  - apply kept_update. intros _ t Hr. eapply reached_step; [apply step_drop_account_roles|done].
  - unfold insert_account_role. keep. apply kept_checked. intros now t r' t' Hr. case_bool_decide; [done|].
    destruct (account_exists id t) eqn:Ea, (role_exists _ t) eqn:Er; cbn; try done. intros [= <- <-].
    eapply reached_step; [by apply step_add_account_role|done].
Qed.
Lemma create_service_account_kept p : kept reached (create_service_account env p).
Proof.
  unfold create_service_account, generate_token, hash_token, expiry_or_default, default_service_account_expiry, iam_insert.
  keep; try apply replace_roles_kept; apply kept_checked; intros now t r' t' Hr; cbv zeta;
    (destruct (account_violation _ _) eqn:E; [done|]); intros [= <- <-]; (eapply reached_step; [by apply step_add_account|done]).
Qed.
Lemma rotate_service_account_kept id p : kept reached (rotate_service_account env id p).
Proof.
  unfold rotate_service_account, generate_token, hash_token, expiry_or_default, default_service_account_expiry.
  keep; try apply replace_roles_kept; apply kept_sql; intros now t Hr; (eapply reached_step; [by apply step_change_account|done]).
Qed.
Lemma disable_service_account_kept id : kept reached (disable_service_account id).
Proof.
  unfold disable_service_account. keep. apply kept_sql. intros now t Hr. eapply reached_step; [by apply step_change_account|done].
Qed.

Lemma touch_user_kept id f : (forall now, inert (f now)) -> kept reached (touch_user id f).
Proof.
  intros Hf. unfold touch_user, iam_update. keep. apply kept_update. intros now t Hr. eapply reached_step; [by apply step_touch|done].
Qed.
Lemma access_kept I id : kept I (effective_permissions_for_user id).
Proof. unfold effective_permissions_for_user, effective. keep. Qed.
Lemma authenticate_local_user_kept name password attempts lockout :
  kept reached (authenticate_local_user name password attempts lockout).
Proof. unfold authenticate_local_user. keep; try apply access_kept; by apply touch_user_kept. Qed.
Lemma set_user_password_kept id password b : kept reached (set_user_password id password b).
Proof.
  unfold set_user_password, hash_token. keep. apply kept_sql. intros now t Hr. cbn. eapply reached_step; [apply step_touch|done].
  split; [done|]. intros u. split; [done|cbn; lia].
Qed.
Lemma change_password_kept id a b : kept reached (change_password id a b).
Proof. unfold change_password. keep. apply set_user_password_kept. Qed.
Lemma create_user_token_kept id p : kept reached (create_user_token id p).
Proof.
  unfold create_user_token, generate_token, hash_token, iam_insert. keep. apply kept_checked. intros now t r' t' Hr. cbv zeta.
  destruct (user_token_violation _ _) eqn:E; [done|]. intros [= <- <-]. eapply reached_step; [apply step_add_user_token|done].
  unfold user_token_violation in E. cbn in *. destruct (any _ _); [done|]. by destruct (user_exists id t).
Qed.
Lemma revoke_user_token_kept u k : kept reached (revoke_user_token u k).
Proof. apply affected_kept. intros _ t. by apply step_set_user_token. Qed.
Lemma verify_user_token_kept token : kept reached (verify_user_token token).
Proof.
  unfold verify_user_token. keep. generalize a. clear a. induction a as [|[k u] l IH]; cbn [verify_candidates]; keep; try done; [apply access_kept|].
  apply kept_map_error, kept_update. intros now t Hr. eapply reached_step; [by apply step_set_user_token|done].
Qed.
Lemma verify_service_token_kept I token : kept I (verify_service_token token).
Proof.
  unfold verify_service_token. keep. generalize a. clear a. induction a as [|k l IH]; cbn [verify_accounts]; keep; try done.
  unfold effective_permissions_for_service_account, effective. keep.
Qed.
Lemma bootstrap_kept password : kept reached (bootstrap_local_admin password).
Proof.
  unfold bootstrap_local_admin, hash_token. keep; apply kept_checked; intros now t r' t' Hr H.
  - eapply reached_step; [by eapply step_admin|done].
  - eapply reached_step; [by eapply step_assign_user|done].
Qed.
Lemma record_event_kept {E} actor action ty id payload : kept reached (record_iam_event actor action ty id payload : M _ _ E unit).
Proof. unfold record_iam_event. keep. apply kept_update. intros now t Hr. eapply reached_step; [apply step_audit|done]. Qed.

End Operations.
