(* ===== verification/Auth.v ===== *)
(** * Authentication of the admin API

    [services/admin-api/src/auth.rs]: the settings, the tokens signed by this service and by an
    OpenID provider, personal and service tokens, and the sessions kept as refresh tokens.

    HMAC-SHA256 and SHA-256 are parameters.  Metrics are left out. *)

From S2P Require Import Prelude RustStr RustNum Types Http Json ConfigCore Db Io Texts Pagination Iam IamRoutes.

Local Open Scope Z_scope.

Definition ROLE_POLICY_ADMIN : string := "policy-admin".
Definition ROLE_POLICY_EDITOR : string := "policy-editor".
Definition ROLE_POLICY_VIEWER : string := "policy-viewer".
Definition ROLE_AUDITOR : string := "auditor".
Definition default_static_roles : list string := [ROLE_POLICY_ADMIN; ROLE_POLICY_EDITOR; ROLE_POLICY_VIEWER; ROLE_AUDITOR].

(** ** Settings *)

Inductive AuthMode := Local | Hybrid | Oidc.
#[export] Instance auth_mode_eq_dec : EqDecision AuthMode.
Proof. solve_decision. Defined.

Record AuthSettings := mkSettings {
  as_mode : AuthMode;
  as_static_roles : option (list string);
  as_oidc_issuer : option string;
  as_oidc_audience : option string;
  as_oidc_hs256_secret : option string;
  as_allow_claim_fallback : bool;
  as_local_jwt_secret : option string;
  as_local_jwt_ttl_seconds : Z;
  as_max_failed_attempts : Z;
  as_lockout_seconds : Z;
  as_refresh_ttl_seconds : Z;
  as_refresh_max_sessions : Z
}.

Definition default_allow_claim_fallback : bool := true.
Definition default_local_jwt_ttl_seconds : Z := 60 * 60.
Definition default_max_failed_attempts : Z := 5.
Definition default_lockout_seconds : Z := 15 * 60.
Definition default_refresh_ttl_seconds : Z := 7 * 24 * 60 * 60.
Definition default_refresh_max_sessions : Z := 5.

Definition local_mode (mode : AuthMode) : bool := match mode with Local | Hybrid => true | Oidc => false end.
Definition oidc_mode (mode : AuthMode) : bool := match mode with Oidc | Hybrid => true | Local => false end.

Section Settings.
  Context (env : Env).

(** A number of the environment, at least [lo]; what does not parse is ignored. *)
Definition env_number (key : string) (parse : string -> option Z) (lo : Z) (current : Z) : Z :=
  match env !! key with
  | Some value => match parse value with Some parsed => Z.max parsed lo | None => current end
  | None => current
  end.
Definition env_text (key : string) (current : option string) : option string :=
  match env !! key with Some value => Some value | None => current end.

Definition merge_env (s : AuthSettings) : AuthSettings := {|
  as_mode :=
    match env !! "OD_AUTH_MODE" with
    | Some mode =>
        let m := to_ascii_lowercase mode in
        if decide (m = "oidc") then Oidc else if decide (m = "hybrid") then Hybrid else Local
    | None => as_mode s
    end;
  as_static_roles :=
    match as_static_roles s with
    | Some (r :: rs) => Some (r :: rs)
    | _ => Some default_static_roles
    end;
  as_oidc_issuer := env_text "OD_OIDC_ISSUER" (as_oidc_issuer s);
  as_oidc_audience := env_text "OD_OIDC_AUDIENCE" (as_oidc_audience s);
  as_oidc_hs256_secret := env_text "OD_OIDC_HS256_SECRET" (as_oidc_hs256_secret s);
  as_allow_claim_fallback := as_allow_claim_fallback s;
  as_local_jwt_secret := env_text "OD_LOCAL_AUTH_JWT_SECRET" (as_local_jwt_secret s);
  as_local_jwt_ttl_seconds := env_number "OD_LOCAL_AUTH_TTL_SECONDS" parse_i64 300 (as_local_jwt_ttl_seconds s);
  as_max_failed_attempts := env_number "OD_LOCAL_AUTH_MAX_FAILED_ATTEMPTS" parse_i32 1 (as_max_failed_attempts s);
  as_lockout_seconds := env_number "OD_LOCAL_AUTH_LOCKOUT_SECONDS" parse_i64 30 (as_lockout_seconds s);
  as_refresh_ttl_seconds := env_number "OD_LOCAL_AUTH_REFRESH_TTL_SECONDS" parse_i64 600 (as_refresh_ttl_seconds s);
  as_refresh_max_sessions := env_number "OD_LOCAL_AUTH_REFRESH_MAX_SESSIONS" parse_i64 1 (as_refresh_max_sessions s)
|}.

Definition validate_local_jwt_secret (secret : string) : result string unit :=
  finish (require_strong_secret_with_blocklist env "OD_LOCAL_AUTH_JWT_SECRET" (Some secret) 32
    ["od-local-dev-secret-change-me"; "changeme-local-jwt-secret"; "local-jwt-secret"]
    "OD_LOCAL_AUTH_JWT_SECRET must be at least 32 characters and not use default/test values"
    (new_validator "admin-api.auth")).

Definition SECRET_REQUIRED : string := "OD_LOCAL_AUTH_JWT_SECRET is required when auth.mode is local or hybrid".

Definition validate_settings_for_startup (settings : AuthSettings) : result string AuthSettings :=
  let merged := merge_env settings in
  if local_mode (as_mode merged) then
    secret ← ok_or (as_local_jwt_secret merged) SECRET_REQUIRED;
    _ ← validate_local_jwt_secret secret;
    Ok merged
  else Ok merged.

Record JwtValidator := { jv_secret : string; jv_issuer : string; jv_audience : string }.
Record LocalJwtIssuer := { li_secret : string; li_ttl_seconds : Z }.
Definition new_issuer (secret : string) (ttl_seconds : Z) : LocalJwtIssuer :=
  {| li_secret := secret; li_ttl_seconds := Z.max ttl_seconds 300 |}.

Record AdminAuth := {
  au_static_token : option string;
  au_fallback_roles : list string;
  au_mode : AuthMode;
  au_allow_claim_fallback : bool;
  au_local_jwt : LocalJwtIssuer;
  au_max_failed_attempts : Z;
  au_lockout_seconds : Z;
  au_refresh_ttl_seconds : Z;
  au_refresh_max_sessions : Z;
  au_jwt : option JwtValidator
}.

Definition from_config (static_token : option string) (settings : AuthSettings) : result string AdminAuth :=
  merged ← validate_settings_for_startup settings;
  local_secret ←
    (if local_mode (as_mode merged) then
       secret ← ok_or (as_local_jwt_secret merged) SECRET_REQUIRED;
       _ ← validate_local_jwt_secret secret;
       Ok secret
     else Ok (default "od-oidc-local-jwt-unused" (as_local_jwt_secret merged)));
  Ok {|
    au_static_token := static_token;
    au_fallback_roles := default default_static_roles (as_static_roles merged);
    au_mode := as_mode merged;
    au_allow_claim_fallback := as_allow_claim_fallback merged;
    au_local_jwt := new_issuer local_secret (as_local_jwt_ttl_seconds merged);
    au_max_failed_attempts := as_max_failed_attempts merged;
    au_lockout_seconds := as_lockout_seconds merged;
    au_refresh_ttl_seconds := as_refresh_ttl_seconds merged;
    au_refresh_max_sessions := as_refresh_max_sessions merged;
    au_jwt :=
      match as_oidc_hs256_secret merged, as_oidc_issuer merged, as_oidc_audience merged with
      | Some secret, Some issuer, Some audience =>
          Some {| jv_secret := secret; jv_issuer := issuer; jv_audience := audience |}
      | _, _, _ => None
      end
  |}.

End Settings.

(** ** Callers *)

Inductive PrincipalType := System | User | ServiceAccountType | Fallback.

(** [UserContext] of the admin API: the actor and the roles of [Http], and the rest. *)
Record Principal := {
  pc_context :> UserContext; pc_type : PrincipalType; pc_id : option Uuid; pc_permissions : gset string
}.

Definition from_fallback (actor : string) (roles : list string) : Principal :=
  {| pc_context := {| uc_actor := actor; uc_roles := list_to_set roles |}; pc_type := Fallback; pc_id := None;
     pc_permissions := list_to_set roles |}.
Definition system : Principal :=
  {| pc_context := {| uc_actor := "system"; uc_roles := list_to_set default_static_roles |}; pc_type := System; pc_id := None;
     pc_permissions := list_to_set default_static_roles |}.
Definition from_effective (actor : string) (type : PrincipalType) (id : option Uuid) (access : EffectiveAccess) : Principal :=
  {| pc_context := {| uc_actor := actor; uc_roles := ea_roles access |}; pc_type := type; pc_id := id;
     pc_permissions := ea_permissions access |}.
Definition from_service_account (p : ServiceAccountPrincipal) : Principal :=
  from_effective (sp_name p) ServiceAccountType (Some (sp_id p)) (sp_access p).

(** ** Errors *)

Inductive AuthError :=
  | InvalidFormat | InvalidSignature | InvalidIssuer | InvalidAudience | Expired | BadCredentials
  | AccountLocked (until : string) | NotProvisioned | AccountDisabled | Database (message : string) | Internal (message : string).

Definition map_auth_error (e : AuthError) : StatusCode :=
  match e with
  | InvalidFormat | InvalidSignature | InvalidIssuer | InvalidAudience | Expired | BadCredentials => UNAUTHORIZED
  | AccountLocked _ => TOO_MANY_REQUESTS
  | NotProvisioned | AccountDisabled => FORBIDDEN
  | Database _ | Internal _ => INTERNAL_SERVER_ERROR
  end.

Definition map_login_error (e : AuthError) : HttpError :=
  match e with
  | AccountDisabled => {| he_status := FORBIDDEN; he_code := "ACCOUNT_DISABLED"; he_message := "account disabled" |}
  | NotProvisioned | BadCredentials | InvalidFormat | InvalidSignature | InvalidIssuer | InvalidAudience | Expired =>
      {| he_status := UNAUTHORIZED; he_code := "INVALID_CREDENTIALS"; he_message := "invalid credentials" |}
  | AccountLocked until =>
      {| he_status := TOO_MANY_REQUESTS; he_code := "ACCOUNT_LOCKED"; he_message := "account locked until " +:+ until |}
  | Database message | Internal message =>
      {| he_status := INTERNAL_SERVER_ERROR; he_code := "AUTH_ERROR"; he_message := message |}
  end.

(** [From<IamError> for AuthError]. *)
Definition from_iam_error `{Texts} (e : IamError) : AuthError :=
  match e with
  | NotFound _ => NotProvisioned
  | Validation message => Internal message
  | DbError _ => Database DB_ERROR
  | Crypto message => Internal message
  | InvalidCredentials => BadCredentials
  | Disabled => AccountDisabled
  | Locked until => AccountLocked (to_rfc3339 until)
  | ProtectedUser => Internal "protected user mutation blocked"
  | LastActiveAdmin => Internal "last active admin guard blocked mutation"
  end.

Class Digests := {
  (** [Hmac<Sha256>] of a key and a text *)
  hmac_sha256 : string -> string -> string;
  (** [Sha256::digest], in hexadecimal *)
  sha256_hex : string -> string
}.

(** [Utc::now().timestamp()]. *)
Definition timestamp (now : Z) : Z := now / 1000.

(** [#[derive(Default)]], for a configuration without an [auth] section. *)
Definition derived_settings : AuthSettings := mkSettings Local None None None None false None 0 0 0 0 0.

Section Tokens.
  Context `{X : Texts} `{T : JsonText} `{B : Base64} `{D : Digests}.

Definition decode_segment (segment : string) : result AuthError string := ok_or (b64_decode segment) InvalidFormat.

Definition verify_signature (secret header payload signature : string) : result AuthError unit :=
  let expected := hmac_sha256 secret (header +:+ "." +:+ payload) in
  provided ← decode_segment signature;
  if decide (expected = provided) then Ok tt else Err InvalidSignature.

Definition parts3 (token : string) : result AuthError (string * string * string) :=
  match split_char "." token with
  | [a; b; c] => Ok (a, b, c)
  | _ => Err InvalidFormat
  end.

(** *** Tokens of this service *)

Record LocalTokenClaims := {
  lc_sub : Uuid; lc_username : option string; lc_email : string; lc_token_version : Z;
  lc_iss : string; lc_aud : string; lc_exp : Z; lc_iat : Z
}.
Definition local_claims_to_json (c : LocalTokenClaims) : Json :=
  JObj [("sub", uuid_to_json (lc_sub c)); ("username", json_opt JStr (lc_username c)); ("email", JStr (lc_email c));
        ("token_version", JInt (lc_token_version c)); ("iss", JStr (lc_iss c)); ("aud", JStr (lc_aud c));
        ("exp", JInt (lc_exp c)); ("iat", JInt (lc_iat c))].
Definition local_claims_from_json (v : Json) : result string LocalTokenClaims :=
  fields ← struct_fields ["sub"; "username"; "email"; "token_version"; "iss"; "aud"; "exp"; "iat"] v;
  sub ← required "sub" de_uuid fields;
  username ← optional "username" de_string fields;
  email ← required "email" de_string fields;
  token_version ← required "token_version" de_i64 fields;
  iss ← required "iss" de_string fields;
  aud ← required "aud" de_string fields;
  exp ← required "exp" de_i64 fields;
  iat ← required "iat" de_i64 fields;
  Ok {| lc_sub := sub; lc_username := username; lc_email := email; lc_token_version := token_version; lc_iss := iss;
        lc_aud := aud; lc_exp := exp; lc_iat := iat |}.

Definition local_claims (issuer : LocalJwtIssuer) (user : LocalAuthenticatedUser) (now : Z) : LocalTokenClaims :=
  {| lc_sub := lu_id user; lc_username := lu_username user; lc_email := lu_email user; lc_token_version := lu_token_version user;
     lc_iss := "od-local"; lc_aud := "od-admin-ui"; lc_exp := timestamp now + li_ttl_seconds issuer; lc_iat := timestamp now |}.

(** The token issued at a time. *)
Definition issue (issuer : LocalJwtIssuer) (user : LocalAuthenticatedUser) (now : Z) : string :=
  let header := b64_encode (json_print (JObj [("alg", JStr "HS256"); ("typ", JStr "JWT")])) in
  let payload := b64_encode (json_print (local_claims_to_json (local_claims issuer user now))) in
  let signing_input := header +:+ "." +:+ payload in
  signing_input +:+ "." +:+ b64_encode (hmac_sha256 (li_secret issuer) signing_input).

Definition validate_local (issuer : LocalJwtIssuer) (token : string) (now : Z) : result AuthError LocalTokenClaims :=
  '(header, payload, signature) ← parts3 token;
  _ ← verify_signature (li_secret issuer) header payload signature;
  text ← decode_segment payload;
  claims ← map_err (fun _ => InvalidFormat) (v ← json_parse text; local_claims_from_json v);
  if negb (bool_decide (lc_iss claims = "od-local") && bool_decide (lc_aud claims = "od-admin-ui")) then Err InvalidAudience
  else if decide (lc_exp claims <= timestamp now) then Err Expired
  else Ok claims.

(** *** Tokens of an OpenID provider *)

Record Claims := {
  cl_sub : string; cl_iss : string; cl_aud : option string; cl_exp : option Z; cl_preferred_username : option string;
  cl_email : option string; cl_roles : option (list string); cl_scope : option string
}.
Definition de_strings (v : Json) : result string (list string) :=
  match v with JArr vs => mapM de_string vs | _ => Err "invalid type: expected a sequence" end.
Definition claims_from_json (v : Json) : result string Claims :=
  fields ← struct_fields ["sub"; "iss"; "aud"; "exp"; "preferred_username"; "email"; "roles"; "scope"] v;
  sub ← required "sub" de_string fields;
  iss ← required "iss" de_string fields;
  aud ← optional "aud" de_string fields;
  exp ← optional "exp" de_i64 fields;
  preferred_username ← optional "preferred_username" de_string fields;
  email ← optional "email" de_string fields;
  roles ← optional "roles" de_strings fields;
  scope ← optional "scope" de_string fields;
  Ok {| cl_sub := sub; cl_iss := iss; cl_aud := aud; cl_exp := exp; cl_preferred_username := preferred_username;
        cl_email := email; cl_roles := roles; cl_scope := scope |}.
Definition header_alg (v : Json) : result string string :=
  fields ← struct_fields ["alg"] v; required "alg" de_string fields.

Definition validate_claims (c : Claims) (issuer audience : string) (now : Z) : result AuthError unit :=
  if negb (bool_decide (cl_iss c = issuer)) then Err InvalidIssuer
  else if negb (bool_decide (cl_aud c = Some audience)) then Err InvalidAudience
  else match cl_exp c with
       | Some exp => if decide (exp < timestamp now) then Err Expired else Ok tt
       | None => Ok tt
       end.

Definition validate_oidc (jwt : JwtValidator) (token : string) (now : Z) : result AuthError Claims :=
  '(header, payload, signature) ← parts3 token;
  header_text ← decode_segment header;
  payload_text ← decode_segment payload;
  _ ← verify_signature (jv_secret jwt) header payload signature;
  alg ← map_err (fun _ => InvalidFormat) (v ← json_parse header_text; header_alg v);
  if negb (bool_decide (alg = "HS256")) then Err InvalidFormat
  else
    claims ← map_err (fun _ => InvalidFormat) (v ← json_parse payload_text; claims_from_json v);
    _ ← validate_claims claims (jv_issuer jwt) (jv_audience jwt) now;
    Ok claims.

Definition compute_roles (c : Claims) : list string :=
  match cl_roles c with
  | Some (r :: rs) => r :: rs
  | _ => match cl_scope c with Some scope => split_whitespace scope | None => default_static_roles end
  end.
Definition actor (c : Claims) : string :=
  match cl_preferred_username c with
  | Some u => u
  | None => default (cl_sub c) (cl_email c)
  end.

End Tokens.

(** ** Refresh tokens *)

Definition refresh_token_hint (token : string) : option string :=
  if decide (str_len token < 8)%nat then None
  else Some (String.substring 0 4 token +:+ "..." +:+ String.substring (str_len token - 4) 4 token).

(** [revoked_at IS NULL AND expires_at > NOW()]. *)
Definition live (now : Z) (k : RefreshToken) : bool := negb (bool_decide (is_Some (rk_revoked_at k))) && bool_decide (now < rk_expires_at k).

Definition revoked (now : Z) (reason : string) (k : RefreshToken) : RefreshToken :=
  {| rk_id := rk_id k; rk_user_id := rk_user_id k; rk_token_hash := rk_token_hash k; rk_token_hint := rk_token_hint k;
     rk_token_version := rk_token_version k; rk_created_at := rk_created_at k; rk_last_used_at := rk_last_used_at k;
     rk_expires_at := rk_expires_at k; rk_revoked_at := Some now; rk_revoked_reason := Some reason;
     rk_replaced_by_id := rk_replaced_by_id k |}.
Definition rotated (now : Z) (replacement : Uuid) (k : RefreshToken) : RefreshToken :=
  {| rk_id := rk_id k; rk_user_id := rk_user_id k; rk_token_hash := rk_token_hash k; rk_token_hint := rk_token_hint k;
     rk_token_version := rk_token_version k; rk_created_at := rk_created_at k; rk_last_used_at := Some now;
     rk_expires_at := rk_expires_at k; rk_revoked_at := Some now; rk_revoked_reason := Some "rotated";
     rk_replaced_by_id := Some replacement |}.

Definition refresh_violation (t : IamTables) (k : RefreshToken) : option string :=
  if any (fun o => bool_decide (rk_id o = rk_id k)) (it_refresh_tokens t) then Some "iam_refresh_tokens_pkey"
  else if negb (user_exists (rk_user_id k) t) then Some "iam_refresh_tokens_user_id_fkey"
  else if any (fun o => bool_decide (rk_token_hash o = rk_token_hash k)) (it_refresh_tokens t)
  then Some "iam_refresh_tokens_token_hash_key"
  else None.

(** The sessions of a user, newest first: [row_number() OVER (ORDER BY created_at DESC)]. *)
Definition sessions (now : Z) (user_id : Uuid) (t : IamTables) : list RefreshToken :=
  order_desc rk_created_at (List.filter (fun k => bool_decide (rk_user_id k = user_id) && live now k) (it_refresh_tokens t)).
Definition limit_sessions (now : Z) (user_id : Uuid) (limit : Z) (t : IamTables) : IamTables :=
  let over := rk_id <$> drop (Z.to_nat limit) (sessions now user_id t) in
  set_refresh_tokens (set_where (fun k => bool_decide (rk_id k ∈ over)) (revoked now "max_sessions_exceeded") (it_refresh_tokens t)) t.

Abbreviation AuthM := (M IamTables Empty_set AuthError).

Section Service.
  Context `{U : Unicode} `{SE : Secrets} `{X : Texts} `{T : JsonText} `{B : Base64} `{D : Digests} (auth : AdminAuth).

Definition deny {A} (e : AuthError) : AuthM A := of_result (Err e).
(** [?] on an operation of [IamService]. *)
Definition of_iam {A} (m : IamM A) : AuthM A := map_error from_iam_error m.
Definition auth_db {E A} (m : M IamTables Empty_set E A) : AuthM A := map_error (fun _ => Database DB_ERROR) m.

Definition generate_refresh_token : AuthM string := e ← new_v4; mret ("odr_" +:+ random_alphanumeric e 64).
Definition hash_refresh_token (token : string) : string := sha256_hex token.

(** ** Who the caller is *)

Definition resolve_local_subject (claims : LocalTokenClaims) : AuthM Principal :=
  user ← map_error (fun _ => NotProvisioned) (get_user (lc_sub claims));
  if negb (bool_decide (iu_status user = "active")) then deny AccountDisabled
  else
    current_token_version ← of_iam (user_token_version (iu_id user));
    if negb (bool_decide (lc_token_version claims = current_token_version)) then deny BadCredentials
    else
      access ← of_iam (effective_permissions_for_user (iu_id user));
      let name := match lc_username claims with
                  | Some n => n
                  | None => match iu_username user with Some n => n | None => default (pretty (iu_id user)) (iu_email user) end
                  end in
      mret (from_effective name User (Some (iu_id user)) access).

(** A provisioned user of a provider's token. *)
Definition resolve_user (name : string) (user : IamUser) : AuthM Principal :=
  if negb (bool_decide (iu_status user = "active")) then deny AccountDisabled
  else
    access ← of_iam (effective_permissions_for_user (iu_id user));
    mret (from_effective name User (Some (iu_id user)) access).

Definition resolve_claims (claims : Claims) : AuthM Principal :=
  by_subject ← of_iam (find_user_by_subject (cl_sub claims));
  match by_subject with
  | Some user => resolve_user (actor claims) user
  | None =>
      by_email ← match cl_email claims with
                 | Some email => of_iam (find_user_by_email email)
                 | None => mret None
                 end;
      match by_email with
      | Some user => resolve_user (actor claims) user
      | None =>
          if au_allow_claim_fallback auth then mret (from_fallback (actor claims) (compute_roles claims))
          else deny NotProvisioned
      end
  end.

Abbreviation GateM := (M IamTables Empty_set StatusCode).

Definition authenticate_bearer (token : string) : GateM Principal :=
  t ← utc_now;
  match (if local_mode (au_mode auth) then validate_local (au_local_jwt auth) token t else Err InvalidFormat) with
  | Ok local_claims => map_error map_auth_error (resolve_local_subject local_claims)
  | Err _ =>
      match (if oidc_mode (au_mode auth) then au_jwt auth else None) with
      | Some jwt =>
          claims ← of_result (map_err map_auth_error (validate_oidc jwt token t));
          map_error map_auth_error (resolve_claims claims)
      | None => of_result (Err UNAUTHORIZED)
      end
  end.

Definition authenticate_admin (provided : string) : GateM Principal :=
  user ← map_error (fun _ => INTERNAL_SERVER_ERROR) (verify_user_token provided);
  match user with
  | Some u => mret (from_effective (default (lu_email u) (lu_username u)) User (Some (lu_id u)) (lu_access u))
  | None =>
      service ← map_error (fun _ => INTERNAL_SERVER_ERROR) (verify_service_token provided);
      match service with
      | Some s => mret (from_service_account s)
      | None =>
          if bool_decide (au_static_token auth = Some provided)
          then mret (from_fallback "static-admin" (au_fallback_roles auth))
          else of_result (Err UNAUTHORIZED)
      end
  end.

Definition authenticate (bearer admin : option string) : GateM Principal :=
  match bearer, admin with
  | Some token, _ => authenticate_bearer token
  | None, Some provided => authenticate_admin provided
  | None, None => of_result (Err UNAUTHORIZED)
  end.

(** The middleware before every route but those of [/auth/login], [refresh], [logout] and [mode]:
    the headers are those that are valid text. *)
Definition enforce_admin {A} (authorization admin_token : option string) (next : Principal -> GateM A) : GateM A :=
  user ← authenticate (value ← authorization; strip_prefix "Bearer " value) admin_token;
  next user.

(** ** Sessions *)

Record LocalLoginSuccess := { ls_access_token : string; ls_expires_in : Z; ls_user : LocalAuthenticatedUser }.

Definition issue_token (user : LocalAuthenticatedUser) : AuthM string := t ← utc_now; mret (issue (au_local_jwt auth) user t).

Definition login_local (username password : string) : AuthM LocalLoginSuccess :=
  if negb (local_mode (au_mode auth)) then deny (Internal "local authentication is disabled in current auth mode")
  else
    user ← of_iam (authenticate_local_user username password (au_max_failed_attempts auth) (au_lockout_seconds auth));
    access_token ← issue_token user;
    mret {| ls_access_token := access_token; ls_expires_in := li_ttl_seconds (au_local_jwt auth); ls_user := user |}.

Definition local_user_for_token (user_id : Uuid) : AuthM LocalAuthenticatedUser :=
  user ← of_iam (get_user user_id);
  if negb (bool_decide (iu_status user = "active")) then deny AccountDisabled
  else
    access ← of_iam (effective_permissions_for_user (iu_id user));
    version ← of_iam (user_token_version (iu_id user));
    mret {| lu_id := iu_id user; lu_username := iu_username user; lu_email := default (pretty (iu_id user)) (iu_email user);
            lu_display_name := iu_display_name user; lu_access := access; lu_must_change_password := false;
            lu_token_version := version |}.

Definition enforce_refresh_session_limit (user_id : Uuid) : AuthM unit :=
  auth_db (update (fun now t => limit_sessions now user_id (Z.max (au_refresh_max_sessions auth) 1) t)).

Definition insert_refresh (k : Z -> RefreshToken) (now : Z) (t : IamTables) : result string (unit * IamTables) :=
  match refresh_violation t (k now) with
  | Some c => Err c
  | None => Ok (tt, set_refresh_tokens (it_refresh_tokens t ++ [k now]) t)
  end.

Definition issue_refresh_token (user_id : Uuid) : AuthM string :=
  token ← generate_refresh_token;
  token_version ← of_iam (user_token_version user_id);
  t ← utc_now;
  let expires_at := t + Z.max (au_refresh_ttl_seconds auth) 600 * 1000 in
  refresh_id ← new_v4;
  _ ← auth_db (checked (insert_refresh (fun now =>
        {| rk_id := refresh_id; rk_user_id := user_id; rk_token_hash := hash_refresh_token token;
           rk_token_hint := refresh_token_hint token; rk_token_version := token_version; rk_created_at := now;
           rk_last_used_at := None; rk_expires_at := expires_at; rk_revoked_at := None; rk_revoked_reason := None;
           rk_replaced_by_id := None |})));
  _ ← enforce_refresh_session_limit user_id;
  mret token.

Definition is_refresh (id : Uuid) (k : RefreshToken) : bool := bool_decide (rk_id k = id).

Definition rotate_refresh_token (refresh_token : string) : AuthM (string * string) :=
  row ← auth_db (fetch (fun now t => find_first (fun k =>
    bool_decide (rk_token_hash k = hash_refresh_token refresh_token) && live now k) (it_refresh_tokens t)));
  k ← of_result (ok_or row BadCredentials);
  user ← local_user_for_token (rk_user_id k);
  if negb (bool_decide (lu_token_version user = rk_token_version k)) then
    _ ← auth_db (update (fun now t => set_refresh_tokens
          (set_where (is_refresh (rk_id k)) (revoked now "token_version_mismatch") (it_refresh_tokens t)) t));
    deny BadCredentials
  else
    new_access ← issue_token user;
    new_refresh ← issue_refresh_token (rk_user_id k);
    replacement ← auth_db (fetch (fun _ t =>
      find_first (fun o => bool_decide (rk_token_hash o = hash_refresh_token new_refresh)) (it_refresh_tokens t)));
    r ← of_result (ok_or replacement (Database DB_ERROR));
    _ ← auth_db (update (fun now t => set_refresh_tokens
          (set_where (is_refresh (rk_id k)) (rotated now (rk_id r)) (it_refresh_tokens t)) t));
    mret (new_access, new_refresh).

Definition revoke_refresh_token (refresh_token : string) : AuthM unit :=
  auth_db (update (fun now t => set_refresh_tokens
    (set_where (fun k => bool_decide (rk_token_hash k = hash_refresh_token refresh_token) && negb (bool_decide (is_Some (rk_revoked_at k))))
       (revoked now "logout") (it_refresh_tokens t)) t)).

(** ** Routes *)

Definition bad_request (code message : string) : HttpError :=
  {| he_status := BAD_REQUEST; he_code := code; he_message := message |}.
Definition of_auth {A} (m : AuthM A) : RouteM A := map_error map_login_error m.

Record LocalLoginResponse := { lr_login : LocalLoginSuccess; lr_refresh_token : string; lr_refresh_expires_in : Z }.

Definition login_route (username password : string) : RouteM LocalLoginResponse :=
  if is_empty (trim username) || is_empty password then of_result (Err (bad_request "VALIDATION_ERROR" "username and password are required"))
  else
    login ← of_auth (login_local (trim username) password);
    refresh_token ← of_auth (issue_refresh_token (lu_id (ls_user login)));
    _ ← log_iam_event "iam.auth.login.success" (Some (lu_email (ls_user login))) "user" (Some (pretty (lu_id (ls_user login))))
          (JObj [("username", json_opt JStr (lu_username (ls_user login)))]);
    mret {| lr_login := login; lr_refresh_token := refresh_token; lr_refresh_expires_in := au_refresh_ttl_seconds auth |}.

Definition refresh_route (refresh_token : string) : RouteM (string * string) :=
  if is_empty (trim refresh_token) then of_result (Err (bad_request "VALIDATION_ERROR" "refresh_token is required"))
  else if negb (local_mode (au_mode auth))
  then of_result (Err (bad_request "AUTH_MODE_UNSUPPORTED" "refresh tokens are only available in local or hybrid auth mode"))
  else of_auth (rotate_refresh_token (trim refresh_token)).

Definition logout_route (refresh_token : string) : RouteM unit :=
  if is_empty (trim refresh_token) then mret tt else of_auth (revoke_refresh_token (trim refresh_token)).

Definition auth_mode_route : string := match au_mode auth with Local => "local" | Hybrid => "hybrid" | Oidc => "oidc" end.

Definition change_password_route (user : Principal) (current_password new_password : string) : RouteM unit :=
  match pc_id user with
  | None =>
      of_result (Err {| he_status := FORBIDDEN; he_code := "FORBIDDEN";
        he_message := "password change is only supported for authenticated user principals" |})
  | Some user_id =>
      if is_empty (trim current_password) || is_empty (trim new_password)
      then of_result (Err (bad_request "VALIDATION_ERROR" "current_password and new_password are required"))
      else
        _ ← iam (change_password user_id current_password new_password);
        log_iam_event "iam.auth.password.change" (Some (uc_actor user)) "user" (Some (pretty user_id)) (JObj [])
  end.

(** The profile columns of the caller, when it is a user. *)
Definition whoami_route (user : Principal) : RouteM (Principal * option (option string * option string * option string * bool)) :=
  match pc_type user, pc_id user with
  | User, Some user_id =>
      profile ← iam (iam_fetch (fun _ t => find_first (is_user user_id) (it_users t)));
      mret (user, (fun u => (iu_username u, iu_email u, iu_display_name u, iu_must_change_password u)) <$> profile)
  | _, _ => mret (user, None)
  end.

End Service.
