(* ===== verification/AdminAccess.v ===== *)
(** * The admin API under any requests

    The routes of [Auth.v] and [IamRoutes.v] as one machine: what a run of requests, from anybody
    and with any failures of the database, cannot do to the accounts; and what each kind of
    credential proves. *)

From S2P Require Import Prelude RustStr RustNum Types Http Json ConfigCore Db Io Texts Pagination Iam IamRoutes IamInvariants Auth.

Local Open Scope Z_scope.

(** Routes and operations taken apart down to the statements that change something. *)
Create HintDb kept.
#[local] Hint Resolve create_user_kept update_user_kept disable_user_kept enable_user_kept hard_delete_user_kept create_group_kept
  update_group_kept delete_group_kept add_group_member_kept remove_group_member_kept assign_role_to_user_kept
  revoke_role_from_user_kept assign_role_to_group_kept revoke_role_from_group_kept create_service_account_kept
  rotate_service_account_kept disable_service_account_kept access_kept authenticate_local_user_kept set_user_password_kept
  change_password_kept create_user_token_kept revoke_user_token_kept verify_user_token_kept verify_service_token_kept
  record_event_kept : kept.
#[local] Hint Extern 2 (kept _ (log_iam_event _ _ _ _ _)) => apply record_event_kept : kept.
Ltac reads := unfold get_user, get_group, get_service_account, user_roles, group_roles, service_account_roles, list_group_members,
  list_user_tokens, list_roles, groups_of, find_user_by_subject, find_user_by_email, user_token_version in *.
Lemma traverse_kept {A R} I (f : A -> RouteM R) l : (forall x, kept I (f x)) -> kept I (traverse f l).
Proof. intros H. induction l as [|x l IH]; cbn [traverse]; keep; [apply H|apply IH]. Qed.
Ltac serves := repeat first [progress keep|progress reads|lazymatch goal with |- kept _ (traverse _ _) => apply traverse_kept; intros ? end];
  eauto with kept.

(** ** Requests *)

Inductive IamRequest :=
  | ListUsers (limit : option Z) (cursor : option string)
  | CreateUser (p : CreateUserRequest)
  | GetUser (id : Uuid)
  | UpdateUser (id : Uuid) (p : UpdateUserRequest)
  | DisableUser (id : Uuid)
  | DeleteUser (id : Uuid) (hard : option bool)
  | EnableUser (id : Uuid)
  | SetUserPassword (id : Uuid) (password : string) (must_change : option bool)
  | CreateUserToken (id : Uuid) (p : CreateUserTokenRequest)
  | ListUserTokens (id : Uuid)
  | RevokeUserToken (id token_id : Uuid)
  | ListGroups (limit : option Z) (cursor : option string)
  | CreateGroup (p : CreateGroupRequest)
  | GetGroup (id : Uuid)
  | UpdateGroup (id : Uuid) (p : UpdateGroupRequest)
  | DeleteGroup (id : Uuid)
  | AddMember (id user_id : Uuid)
  | ListMembers (id : Uuid)
  | RemoveMember (id user_id : Uuid)
  | AssignUserRole (id : Uuid) (role : string)
  | RevokeUserRole (id : Uuid) (role : string)
  | AssignGroupRole (id : Uuid) (role : string)
  | RevokeGroupRole (id : Uuid) (role : string)
  | ListRoles
  | ListServiceAccounts (limit : option Z) (cursor : option string)
  | GetServiceAccount (id : Uuid)
  | CreateServiceAccount (p : CreateServiceAccountRequest)
  | RotateServiceAccount (id : Uuid) (p : UpdateServiceAccountRoles)
  | DisableServiceAccount (id : Uuid)
  | ListAudit (limit : option Z) (cursor : option string)
  | WhoAmI
  | ChangePassword (current_password new_password : string).

(** A request of a caller with its headers, or one of the routes without the middleware. *)
Inductive AdminRequest :=
  | Login (username password : string)
  | Refresh (refresh_token : string)
  | Logout (refresh_token : string)
  | Request (authorization admin_token : option string) (q : IamRequest).

Section Server.
  Context `{U : Unicode} `{SE : Secrets} `{X : Texts} `{C : Collation} `{T : JsonText} `{B : Base64} `{D : Digests}.
  Context (env : Env) (auth : AdminAuth).

Definition done_with {A} (m : RouteM A) : RouteM unit := _ ← m; mret tt.

Definition serve_iam (user : Principal) (q : IamRequest) : RouteM unit :=
  match q with
  | ListUsers limit cursor => done_with (list_users_route user limit cursor)
  | CreateUser p => done_with (create_user_route user p)
  | GetUser id => done_with (get_user_route user id)
  | UpdateUser id p => done_with (update_user_route user id p)
  | DisableUser id => disable_user_route user id
  | DeleteUser id hard => delete_user_route user id hard
  | EnableUser id => enable_user_route user id
  | SetUserPassword id password must_change => set_user_password_route user id password must_change
  | CreateUserToken id p => done_with (create_user_token_route user id p)
  | ListUserTokens id => done_with (list_user_tokens_route user id)
  | RevokeUserToken id token_id => revoke_user_token_route user id token_id
  | ListGroups limit cursor => done_with (list_groups_route user limit cursor)
  | CreateGroup p => done_with (create_group_route user p)
  | GetGroup id => done_with (get_group_route user id)
  | UpdateGroup id p => done_with (update_group_route user id p)
  | DeleteGroup id => delete_group_route user id
  | AddMember id user_id => done_with (add_member_route user id user_id)
  | ListMembers id => done_with (list_group_members_route user id)
  | RemoveMember id user_id => remove_member_route user id user_id
  | AssignUserRole id role => done_with (assign_user_role_route user id role)
  | RevokeUserRole id role => done_with (revoke_user_role_route user id role)
  | AssignGroupRole id role => done_with (assign_group_role_route user id role)
  | RevokeGroupRole id role => done_with (revoke_group_role_route user id role)
  | ListRoles => done_with (list_roles_route user)
  | ListServiceAccounts limit cursor => done_with (list_service_accounts_route user limit cursor)
  | GetServiceAccount id => done_with (get_service_account_route user id)
  | CreateServiceAccount p => done_with (create_service_account_route env user p)
  | RotateServiceAccount id p => done_with (rotate_service_account_route env user id p)
  | DisableServiceAccount id => disable_service_account_route user id
  | ListAudit limit cursor => done_with (list_audit_route user limit cursor)
  | WhoAmI => done_with (whoami_route user)
  | ChangePassword current_password new_password => change_password_route user current_password new_password
  end.

(** The middleware answers a bare status. *)
Definition bare (s : StatusCode) : HttpError := {| he_status := s; he_code := ""; he_message := "" |}.

Definition serve (r : AdminRequest) : RouteM unit :=
  match r with
  | Login username password => done_with (login_route auth username password)
  | Refresh refresh_token => done_with (refresh_route auth refresh_token)
  | Logout refresh_token => logout_route refresh_token
  | Request authorization admin_token q =>
      user ← map_error bare (enforce_admin auth authorization admin_token mret);
      serve_iam user q
  end.

(** The requests one after the other, each with its own answer. *)
Definition serve_all (rs : list AdminRequest) : RouteM unit := each (fun r => dropped (serve r)) rs.

(** ** Each request as statements of the machine *)

Definition demands (q : IamRequest) : list Privilege :=
  match q with
  | DeleteUser id (Some true) => [EraseUser id]
  | DeleteGroup _ | RemoveMember _ _ | RevokeGroupRole _ _ => [WithdrawFromGroup]
  | _ => []
  end.
Definition demands_of (r : AdminRequest) : list Privilege :=
  match r with Request _ _ q => demands q | _ => [] end.

Ltac open_routes :=
  unfold done_with, log_by, list_users_route, list_groups_route, list_service_accounts_route, list_audit_route,
    create_user_route, get_user_route, update_user_route, disable_user_route, delete_user_route, enable_user_route,
    set_user_password_route, create_user_token_route, list_user_tokens_route, revoke_user_token_route, create_group_route,
    get_group_route, update_group_route, delete_group_route, add_member_route, list_group_members_route, remove_member_route,
    assign_user_role_route, revoke_user_role_route, assign_group_role_route, revoke_group_role_route, list_roles_route,
    get_service_account_route, create_service_account_route, rotate_service_account_route, disable_service_account_route,
    whoami_route, change_password_route.

Lemma details_kept I u : kept I (user_details u).
Proof. unfold user_details, user_roles, groups_of. keep. Qed.
Lemma group_details_kept I g : kept I (group_details g).
Proof. unfold group_details, list_group_members, group_roles. keep. Qed.
Lemma account_details_kept I a : kept I (account_details a).
Proof. unfold account_details, service_account_roles. keep. Qed.

#[local] Hint Resolve details_kept group_details_kept account_details_kept : kept.
Lemma list_route_kept I {R K E} `{!Anchor K} (user : UserContext) (key : R -> K) (before : relation K) `{!RelDecision before}
    unbounded rows (details : R -> RouteM E) limit cursor :
  (forall x, kept I (details x)) -> kept I (list_route user key before unbounded rows details limit cursor).
Proof. intros H. unfold list_route. serves. Qed.
#[local] Hint Resolve list_route_kept : kept.

Section Kept.
  Context (allowed : Privilege -> Prop) (t0 : IamTables).
  Abbreviation reached := (reached allowed t0).

Lemma serve_iam_kept user q : (forall p, p ∈ demands q -> allowed p) -> kept reached (serve_iam user q).
Proof.
  intros Hd. destruct q as [| | | | |id [[]|]| | | | | | | | | | | | | | | | | | | | | | | | | |];
    cbn [serve_iam demands] in *; open_routes; cbn [from_option Datatypes.id]; serves;
    first [apply hard_delete_user_kept|apply delete_group_kept|apply remove_group_member_kept|apply revoke_role_from_group_kept
          |apply list_route_kept; intros ?; apply kept_ret]; apply Hd; by left.
Qed.

(** *** Authentication and sessions *)

Lemma resolve_claims_kept I claims : kept I (resolve_claims auth claims).
Proof. unfold resolve_claims, resolve_user, of_iam, deny. serves. Qed.
Lemma resolve_local_kept I claims : kept I (resolve_local_subject claims).
Proof. unfold resolve_local_subject, of_iam, deny. serves. Qed.
Lemma authenticate_kept bearer admin : kept reached (authenticate auth bearer admin).
Proof.
  unfold authenticate, authenticate_bearer, authenticate_admin. serves; [apply resolve_local_kept|apply resolve_claims_kept].
Qed.

Lemma limit_kept user_id : kept reached (enforce_refresh_session_limit auth user_id).
Proof.
  unfold enforce_refresh_session_limit, auth_db. serves. apply kept_update. intros now t Hr.
  eapply reached_step; [apply step_set_refresh|done]. intros k. cbn. eauto.
Qed.
Lemma refresh_violation_None t k :
  refresh_violation t k = None ->
  user_exists (rk_user_id k) t = true /\ (rk_id k ∉ (rk_id <$> it_refresh_tokens t)) /\
  rk_token_hash k ∉ (rk_token_hash <$> it_refresh_tokens t).
Proof.
  unfold refresh_violation. destruct (any _ (it_refresh_tokens t)) eqn:E1; [done|]. destruct (user_exists _ t); [|done]. cbn [negb].
  destruct (any (fun o => bool_decide (rk_token_hash o = _)) _) eqn:E2; [done|]. intros _. rewrite any_false in E1, E2.
  split_and!; [done| |]; intros (y & E & Hy)%list_elem_of_fmap; [apply (E1 y) in Hy|apply (E2 y) in Hy];
    apply bool_decide_eq_false in Hy; congruence.
Qed.
Lemma issue_refresh_kept user_id : kept reached (issue_refresh_token auth user_id).
Proof.
  unfold issue_refresh_token, generate_refresh_token, of_iam, auth_db. serves; [|apply limit_kept].
  apply kept_checked. intros now t r t' Hr. unfold insert_refresh. destruct (refresh_violation _ _) eqn:E; [done|]. intros [= <- <-].
  apply refresh_violation_None in E as (H1 & H2 & H3). eapply reached_step; [by apply step_add_refresh|done].
Qed.
Lemma set_refresh_kept p f :
  (forall now k, rk_id (f now k) = rk_id k /\ rk_user_id (f now k) = rk_user_id k /\ rk_token_hash (f now k) = rk_token_hash k /\
    rk_token_version (f now k) = rk_token_version k /\ is_Some (rk_revoked_at (f now k))) ->
  kept reached (auth_db (update (fun now t => set_refresh_tokens (set_where p (f now) (it_refresh_tokens t)) t))).
Proof.
  intros Hf. apply kept_map_error, kept_update. intros now t Hr. eapply reached_step; [by apply step_set_refresh|done].
Qed.
Lemma rotate_kept token : kept reached (rotate_refresh_token auth token).
Proof.
  unfold rotate_refresh_token, local_user_for_token, issue_token, of_iam, deny. serves; try (apply kept_map_error, kept_fetch);
    try apply issue_refresh_kept; (apply set_refresh_kept; intros; cbn; eauto).
Qed.
Lemma revoke_kept token : kept reached (revoke_refresh_token token).
Proof. apply set_refresh_kept. intros. cbn. eauto. Qed.

Lemma serve_kept r : (forall p, p ∈ demands_of r -> allowed p) -> kept reached (serve r).
Proof.
  intros Hd. destruct r as [username password|token|token|authorization admin_token q]; cbn [serve].
  - unfold done_with, login_route, of_auth, login_local, issue_token, of_iam, deny. serves. apply issue_refresh_kept.
  - unfold done_with, refresh_route, of_auth. serves. apply rotate_kept.
  - unfold logout_route, of_auth. serves. apply revoke_kept.
  - unfold enforce_admin. serves; [apply authenticate_kept|by apply serve_iam_kept].
Qed.

Lemma serve_all_kept rs : (forall r p, r ∈ rs -> p ∈ demands_of r -> allowed p) -> kept reached (serve_all rs).
Proof.
  intros Hd. induction rs as [|r rs IH]; [apply kept_ret|]. unfold serve_all. cbn [each].
  apply kept_bind; [apply kept_dropped, serve_kept; intros; eapply Hd; [by left|done]|]. intros _. apply IH.
  intros r' p Hr'. apply Hd. by right.
Qed.

End Kept.

(** What a run does to the tables. *)
Lemma serve_all_reached rs w :
  rtc (iam_step (fun p => exists r, r ∈ rs /\ p ∈ demands_of r)) (io_tables w) (io_tables (serve_all rs w).2).
Proof.
  assert (forall r p, r ∈ rs -> p ∈ demands_of r -> exists r, r ∈ rs /\ p ∈ demands_of r) as Hd by eauto.
  pose proof (serve_all_kept _ (io_tables w) rs Hd w (rtc_refl _ _)) as H. by destruct (serve_all rs w) as [[]].
Qed.

(** C23: However many requests of whatever callers are served, and whichever of their statements fail
    in between, the tables keep their constraints and the protected administrator stays active and
    an administrator. *)
Theorem protected_administrator_survives rs w uid :
  iam_ok (io_tables w) -> protected_admin uid (io_tables w) ->
  iam_ok (io_tables (serve_all rs w).2) /\ protected_admin uid (io_tables (serve_all rs w).2).
Proof. intros Hok Hp. split; [by eapply reached_ok; [apply serve_all_reached|]|by eapply reached_protected; [apply serve_all_reached|..]]. Qed.

(** Requests that do not delete a group, remove a member or revoke a role of a group never leave
    the system without an active administrator. *)
Theorem some_administrator_survives rs w :
  iam_ok (io_tables w) -> some_admin (io_tables w) -> (forall r, r ∈ rs -> WithdrawFromGroup ∉ demands_of r) ->
  some_admin (io_tables (serve_all rs w).2).
Proof.
  intros Hok Ha Hrs. eapply reached_some_admin; [|apply serve_all_reached|done|done]. intros (r & Hr & Hd). by apply (Hrs r).
Qed.

(** A caller without the administrator role changes nothing through the IAM routes, except its
    own password. *)
Theorem only_administrators_change (user : Principal) q w :
  require_roles user ROLE_IAM_ADMIN = false -> (forall a b, q <> ChangePassword a b) ->
  io_tables (serve_iam user q w).2 = io_tables w.
Proof.
  intros Hr Hq.
  assert (kept (fun t => t = io_tables w) (serve_iam user q)) as H; [|by specialize (H w eq_refl); destruct (serve_iam user q w) as [[]]].
  destruct q; cbn [serve_iam]; open_routes; unfold authorised; rewrite ?Hr;
    try (by destruct (Hq current_password new_password)); serves.
  apply list_route_kept. intros ?. apply kept_ret.
Qed.

End Server.
