(* ===== verification/Credentials.v ===== *)
(** * What a credential proves

    The tokens of the admin API: what the signed ones carry, whom each kind stands for, when they
    stop working; lockouts and the limit on sessions. *)

From S2P Require Import Prelude RustStr RustNum Types Http Json ConfigCore Db Io Texts Pagination Iam IamRoutes IamInvariants Auth AdminAccess.

Local Open Scope Z_scope.

(** ** Signed tokens *)

Section Signed.
  Context `{X : Texts} `{T : JsonText} `{B : Base64} `{D : Digests}.

Lemma local_claims_json_round_trip c :
  is_i64 (lc_token_version c) -> is_i64 (lc_exp c) -> is_i64 (lc_iat c) -> local_claims_from_json (local_claims_to_json c) = Ok c.
Proof.
  intros Hv He Hi. unfold local_claims_from_json, local_claims_to_json. cbn [struct_fields mbind result_bind].
  rewrite (required_Ok "sub" _ _ (uuid_to_json (lc_sub c)) (lc_sub c)); [|find_field|apply de_uuid_to_json]. cbn [mbind result_bind].
  rewrite (optional_nullable "username" JStr _ _ (lc_username c)); [|find_field|done]. cbn [mbind result_bind].
  rewrite (required_Ok "email" _ _ (JStr (lc_email c)) (lc_email c)); [|find_field|done]. cbn [mbind result_bind].
  rewrite (required_Ok "token_version" _ _ (JInt (lc_token_version c)) (lc_token_version c)); [|find_field|by apply de_i64_JInt].
  cbn [mbind result_bind]. rewrite (required_Ok "iss" _ _ (JStr (lc_iss c)) (lc_iss c)); [|find_field|done]. cbn [mbind result_bind].
  rewrite (required_Ok "aud" _ _ (JStr (lc_aud c)) (lc_aud c)); [|find_field|done]. cbn [mbind result_bind].
  rewrite (required_Ok "exp" _ _ (JInt (lc_exp c)) (lc_exp c)); [|find_field|by apply de_i64_JInt]. cbn [mbind result_bind].
  rewrite (required_Ok "iat" _ _ (JInt (lc_iat c)) (lc_iat c)); [|find_field|by apply de_i64_JInt]. by destruct c.
Qed.

Definition accepted (issuer : LocalJwtIssuer) (token : string) (now : Z) (c : LocalTokenClaims) : Prop :=
  exists header payload signature text v,
    split_char "." token = [header; payload; signature] /\
    b64_decode signature = Some (hmac_sha256 (li_secret issuer) (header +:+ "." +:+ payload)) /\
    b64_decode payload = Some text /\ json_parse text = Ok v /\ local_claims_from_json v = Ok c /\
    lc_iss c = "od-local" /\ lc_aud c = "od-admin-ui" /\ timestamp now < lc_exp c.

Lemma validate_accepted issuer token now c : accepted issuer token now c -> validate_local issuer token now = Ok c.
Proof.
  intros (header & payload & signature & text & v & E & Hs & Ht & Hp & Hc & Hi & Ha & He). unfold validate_local, parts3.
  rewrite E. cbn [mbind result_bind]. unfold verify_signature, decode_segment. rewrite Hs, Ht. cbn. rewrite decide_True by done.
  cbn. rewrite Hp. cbn. rewrite Hc. cbn. rewrite !bool_decide_eq_true_2 by done. cbn. by rewrite decide_False by lia.
Qed.

(** A token accepted as one of this service's is three parts of which the third is the HMAC of
    the other two under its secret, and the second holds the claims, addressed to the admin UI and
    not expired; and every such token is accepted. *)
Theorem local_token_accepted_iff issuer token now c :
  validate_local issuer token now = Ok c <-> accepted issuer token now c.
Proof.
  split; [|apply validate_accepted]. unfold validate_local. rewrite bind_Ok.
  intros ([[header payload] signature] & Hp & H). unfold parts3 in Hp.
  destruct (split_char "." token) as [|a [|b [|d [|]]]] eqn:E; try done. injection Hp as -> -> ->.
  apply bind_Ok in H as (? & Hs & H). apply bind_Ok in H as (text & Ht%ok_or_Ok & H). apply bind_Ok in H as (claims & Hc & H).
  unfold verify_signature in Hs. apply bind_Ok in Hs as (provided & Hprov%ok_or_Ok & Hs). destruct (decide (_ = provided)) as [Hh|]; [|done].
  destruct (v ← json_parse text; _) as [c'|] eqn:Hv; [|done]. injection Hc as ->. apply bind_Ok in Hv as (v & Hparse & Hv).
  destruct (bool_decide (lc_iss claims = _)) eqn:E1; [|done]. destruct (bool_decide (lc_aud claims = _)) eqn:E2; [|done].
  apply bool_decide_eq_true in E1, E2. cbn in H. case_decide; [done|]. injection H as ->.
  exists header, payload, signature, text, v. split_and!; try done; [by rewrite Hprov, Hh|lia].
Qed.

(** A token issued to a user is accepted until it expires, with the claims it was issued with. *)
Theorem local_token_round_trip issuer user t now :
  is_i64 (lu_token_version user) -> is_i64 (timestamp t) -> is_i64 (timestamp t + li_ttl_seconds issuer) ->
  timestamp now < timestamp t + li_ttl_seconds issuer ->
  validate_local issuer (issue issuer user t) now = Ok (local_claims issuer user t).
Proof.
  intros Hv Ht He Hnow. apply validate_accepted. unfold issue.
  set (header := b64_encode (json_print _)). set (claims := local_claims issuer user t).
  set (payload := b64_encode (json_print (local_claims_to_json claims))). set (signature := b64_encode (hmac_sha256 _ _)).
  exists header, payload, signature, (json_print (local_claims_to_json claims)), (local_claims_to_json claims).
  split_and!; [|apply b64_round_trip|apply b64_round_trip| |by apply local_claims_json_round_trip|done..].
  - rewrite <- (split_char_join "." [header; payload; signature]); [|done|repeat constructor; apply b64_no_dot].
    f_equal. cbn [join]. by rewrite str_app_assoc.
  - apply json_parse_print. unfold claims, local_claims_to_json. cbn. by destruct (lu_username user).
Qed.

End Signed.

(** ** Runs that only look *)

Record idle (w w' : Io IamTables Empty_set) : Prop := {
  idle_tables : io_tables w' = io_tables w;
  idle_now : io_now w <= io_now w';
  idle_tx : io_tx w' = io_tx w
}.
#[export] Instance idle_preorder : PreOrder idle.
Proof.
  split; [by split|]. intros w1 w2 w3 [] []. split; [congruence|lia|congruence].
Qed.

Section Runs.
  Context `{U : Unicode} `{SE : Secrets} `{X : Texts} `{T : JsonText} `{B : Base64} `{D : Digests}.

Lemma iam_fetch_run {A} (f : Z -> IamTables -> A) w a w' :
  io_tx w = None -> iam_fetch f w = (Ok a, w') -> a = f (io_now w') (io_tables w) /\ idle w w'.
Proof.
  intros Htx H%map_error_Ok. unfold fetch, sql, step in H. destruct (io_faults w) as [|[] fs]; [|done|]; cbn in H; injection H as <- <-;
    unfold sql_now; cbn; rewrite Htx; (split; [done|split; cbn; [done|lia|done]]).
Qed.
Lemma of_result_Ok {E A} (r : result E A) (w : Io IamTables Empty_set) a w' : of_result r w = (Ok a, w') -> r = Ok a /\ w' = w.
Proof. unfold of_result. by intros [= -> ->]. Qed.
Lemma found_run {A} resource (o : option A) w a w' : found resource o w = (Ok a, w') -> o = Some a /\ w' = w.
Proof. by intros [H%ok_or_Ok ->]%of_result_Ok. Qed.

Lemma access_run rows w access w' :
  io_tx w = None -> effective rows w = (Ok access, w') -> ea_roles access = list_to_set (ir_name <$> rows) /\ idle w w'.
Proof.
  intros Htx (p & w1 & Hp & [= <- <-])%io_bind_Ok. split; [done|]. case_decide; [by injection Hp as <- <-|].
  by apply iam_fetch_run in Hp as [_ ?].
Qed.
Definition roles_of_user (t : IamTables) (id : Uuid) : gset string := list_to_set (ir_name <$> user_role_rows t id).
Definition roles_of_account (t : IamTables) (id : Uuid) : gset string := list_to_set (ir_name <$> account_role_rows t id).
Lemma user_access_run id w access w' :
  io_tx w = None -> effective_permissions_for_user id w = (Ok access, w') -> ea_roles access = roles_of_user (io_tables w) id /\ idle w w'.
Proof.
  intros Htx (rows & w1 & [-> Hi]%iam_fetch_run & H)%io_bind_Ok; [|done].
  apply access_run in H as [-> Hi']; [|by rewrite (idle_tx _ _ Hi)]. split; [done|by transitivity w1].
Qed.
Lemma account_access_run id w access w' :
  io_tx w = None -> effective_permissions_for_service_account id w = (Ok access, w') ->
  ea_roles access = roles_of_account (io_tables w) id /\ idle w w'.
Proof.
  intros Htx (rows & w1 & [-> Hi]%iam_fetch_run & H)%io_bind_Ok; [|done].
  apply access_run in H as [-> Hi']; [|by rewrite (idle_tx _ _ Hi)]. split; [done|by transitivity w1].
Qed.
Lemma get_user_run id w u w' :
  io_tx w = None -> get_user id w = (Ok u, w') -> find_first (is_user id) (io_tables w).(it_users) = Some u /\ idle w w'.
Proof. intros Htx (row & w1 & [-> Hi]%iam_fetch_run & [H ->]%found_run)%io_bind_Ok; done. Qed.
Lemma version_run id w v w' :
  io_tx w = None -> user_token_version id w = (Ok v, w') ->
  exists u, find_first (is_user id) (io_tables w).(it_users) = Some u /\ iu_token_version u = v /\ idle w w'.
Proof.
  intros Htx (row & w1 & [-> Hi]%iam_fetch_run & H)%io_bind_Ok; [|done].
  apply io_bind_Ok in H as (u & w2 & [Hu ->]%found_run & [= <- <-]). by exists u.
Qed.

(** ** Whom a credential stands for *)

(** The active user of the tables, with the roles it has there. *)
Definition acts_for (t : IamTables) (u : IamUser) (p : Principal) : Prop :=
  u ∈ it_users t /\ iu_status u = "active" /\
  pc_type p = User /\ pc_id p = Some (iu_id u) /\ uc_roles p = roles_of_user t (iu_id u).

Inductive vouched (auth : AdminAuth) (t : IamTables) (now : Z) : option string -> option string -> Principal -> Prop :=
  | vouched_local token admin claims u p :
      local_mode (au_mode auth) = true -> validate_local (au_local_jwt auth) token now = Ok claims ->
      iu_id u = lc_sub claims -> iu_token_version u = lc_token_version claims -> acts_for t u p ->
      vouched auth t now (Some token) admin p
  | vouched_provider token admin jwt claims u p :
      oidc_mode (au_mode auth) = true -> au_jwt auth = Some jwt -> validate_oidc jwt token now = Ok claims ->
      (iu_subject u = Some (cl_sub claims) \/ exists email, cl_email claims = Some email /\ iu_email u = Some (trim email)) ->
      acts_for t u p -> vouched auth t now (Some token) admin p
  | vouched_claims token admin jwt claims :
      oidc_mode (au_mode auth) = true -> au_jwt auth = Some jwt -> validate_oidc jwt token now = Ok claims ->
      au_allow_claim_fallback auth = true ->
      vouched auth t now (Some token) admin (from_fallback (actor claims) (compute_roles claims))
  | vouched_personal provided k u later p :
      k ∈ it_user_tokens t -> ut_status k = "active" -> ut_user_id k = iu_id u ->
      argon_verify provided (ut_token_hash k) = Ok true ->
      now <= later -> (forall e, ut_expires_at k = Some e -> later < e) -> acts_for t u p ->
      vouched auth t now None (Some provided) p
  | vouched_service provided a later p :
      a ∈ it_service_accounts t -> sa_status a = "active" -> argon_verify provided (sa_token_hash a) = Ok true ->
      now <= later -> (forall e, sa_expires_at a = Some e -> later < e) ->
      pc_type p = ServiceAccountType -> pc_id p = Some (sa_id a) -> uc_roles p = roles_of_account t (sa_id a) ->
      vouched auth t now None (Some provided) p
  | vouched_static provided :
      au_static_token auth = Some provided ->
      vouched auth t now None (Some provided) (from_fallback "static-admin" (au_fallback_roles auth)).

Lemma resolve_local_run claims w p w' :
  io_tx w = None -> resolve_local_subject claims w = (Ok p, w') ->
  exists u, iu_id u = lc_sub claims /\ iu_token_version u = lc_token_version claims /\ acts_for (io_tables w) u p.
Proof.
  intros Htx H.
  apply io_bind_Ok in H as (u & w1 & H0 & H). apply map_error_Ok, get_user_run in H0 as [Hu Hi]; [|done].
  pose proof (find_user _ _ _ Hu) as [Hin Hid].
  destruct (bool_decide (iu_status u = "active")) eqn:Ha; [|done]. apply bool_decide_eq_true in Ha. cbn [negb] in H.
  assert (io_tx w1 = None) as Htx1 by by rewrite (idle_tx _ _ Hi).
  apply io_bind_Ok in H as (v & w2 & H0 & H).
  apply map_error_Ok, version_run in H0 as (u' & Hu' & <- & Hi'); [|done].
  rewrite (idle_tables _ _ Hi), Hid, Hu in Hu'. injection Hu' as <-.
  destruct (bool_decide (lc_token_version claims = _)) eqn:Hv; [|done]. apply bool_decide_eq_true in Hv. cbn [negb] in H.
  apply io_bind_Ok in H as (access & w3 & H0 & [= <- <-]).
  apply map_error_Ok, user_access_run in H0 as [Hr _]; [|by rewrite (idle_tx _ _ Hi')].
  exists u. split_and!; [done|done|]. split_and!; [done..|]. cbn.
  by rewrite Hr, (idle_tables _ _ Hi'), (idle_tables _ _ Hi).
Qed.
Lemma resolve_user_run name u w p w' :
  io_tx w = None -> u ∈ it_users (io_tables w) -> resolve_user name u w = (Ok p, w') -> acts_for (io_tables w) u p.
Proof.
  intros Htx Hu. unfold resolve_user. destruct (bool_decide (iu_status u = "active")) eqn:Ha; [|done].
  apply bool_decide_eq_true in Ha. cbn [negb].
  intros H.
  apply io_bind_Ok in H as (access & w1 & H0 & H). apply map_error_Ok, user_access_run in H0 as [Hr _]; [|done]. injection H as <- <-. by split_and!.
Qed.
Lemma find_first_in {A} (f : A -> bool) l x : find_first f l = Some x -> x ∈ l /\ f x = true.
Proof. intros (l1 & l2 & -> & Hx & _)%find_first_Some. split; [set_solver|done]. Qed.

Lemma resolve_claims_run auth jwt token now admin claims w p w' :
  io_tx w = None -> oidc_mode (au_mode auth) = true -> au_jwt auth = Some jwt -> validate_oidc jwt token now = Ok claims ->
  resolve_claims auth claims w = (Ok p, w') -> vouched auth (io_tables w) now (Some token) admin p.
Proof.
  intros Htx Hm Hj Hv H.
  apply io_bind_Ok in H as (row & w1 & H0 & H). apply map_error_Ok, iam_fetch_run in H0 as [-> Hi]; [|done].
  assert (io_tx w1 = None) as Htx1 by by rewrite (idle_tx _ _ Hi). pose proof (idle_tables _ _ Hi) as Ht.
  destruct (find_first _ _) as [u|] eqn:Eu.
  { apply find_first_in in Eu as [Hu Hs%bool_decide_eq_true]. apply resolve_user_run in H; [|done|by rewrite Ht].
    rewrite Ht in H. eapply vouched_provider; eauto. }
  apply io_bind_Ok in H as (row & w2 & Hrow & H).
  destruct row as [u|]; [|by destruct (au_allow_claim_fallback auth) eqn:Ef; [injection H as <- <-; eapply vouched_claims|]].
  destruct (cl_email claims) as [email|] eqn:Ee; [|done].
  apply map_error_Ok, iam_fetch_run in Hrow as [Hrow Hi2]; [|done]. symmetry in Hrow.
  apply find_first_in in Hrow as [Hu Hs%bool_decide_eq_true]. rewrite Ht in Hu. pose proof (idle_tables _ _ Hi2) as Ht2.
  apply resolve_user_run in H; [|by rewrite (idle_tx _ _ Hi2)|by rewrite Ht2, Ht]. rewrite Ht2, Ht in H.
  eapply vouched_provider; eauto.
Qed.

Lemma bearer_run auth token admin w p w' :
  io_tx w = None -> authenticate_bearer auth token w = (Ok p, w') -> vouched auth (io_tables w) (io_now w) (Some token) admin p.
Proof.
  intros Htx H. unfold authenticate_bearer in H. apply io_bind_Ok in H as (now & w1 & [= <- <-] & H).
  destruct (if local_mode (au_mode auth) then _ else _) as [claims|e] eqn:El.
  - destruct (local_mode (au_mode auth)) eqn:Em; [|done].
    apply map_error_Ok, resolve_local_run in H as (u & Hid & Hv & Ha); [|done]. by eapply vouched_local.
  - destruct (if oidc_mode (au_mode auth) then _ else _) as [jwt|] eqn:Ej; [|done].
    destruct (oidc_mode (au_mode auth)) eqn:Em; [|done].
    apply io_bind_Ok in H as (claims & w1 & [Hc ->]%of_result_Ok & H). destruct (validate_oidc jwt token _) eqn:Ev; [|done].
    injection Hc as ->. apply map_error_Ok in H. by eapply resolve_claims_run.
Qed.

Lemma verify_hash_run token hash w b w' : verify_hash token hash w = (Ok b, w') -> argon_verify token hash = Ok b /\ w' = w.
Proof. intros [H ->]%of_result_Ok. destruct (argon_verify token hash); [|done]. by injection H as ->. Qed.

Lemma candidates_run token cs w u w' :
  io_tx w = None -> verify_candidates token cs w = (Ok (Some u), w') ->
  exists k r now, (k, r) ∈ cs /\ io_now w <= now /\ (forall e, ut_expires_at k = Some e -> now < e) /\
    argon_verify token (ut_token_hash k) = Ok true /\ iu_status r = "active" /\ lu_id u = iu_id r /\
    ea_roles (lu_access u) = roles_of_user (io_tables w) (iu_id r).
Proof.
  intros Htx. induction cs as [|[k r] cs IH]; cbn [verify_candidates]; [done|]. intros H.
  apply io_bind_Ok in H as (now & w1 & [= <- <-] & H).
  assert (forall w1, idle w w1 -> verify_candidates token cs w1 = (Ok (Some u), w') -> w1 = w ->
    exists k0 r0 now, (k0, r0) ∈ (k, r) :: cs /\ io_now w <= now /\ (forall e, ut_expires_at k0 = Some e -> now < e) /\
      argon_verify token (ut_token_hash k0) = Ok true /\ iu_status r0 = "active" /\ lu_id u = iu_id r0 /\
      ea_roles (lu_access u) = roles_of_user (io_tables w) (iu_id r0)) as Hskip.
  { intros w1 _ H1 ->. apply IH in H1 as (k0 & r0 & now & Hin & Hrest). exists k0, r0, now. split; [by right|done]. }
  destruct (match ut_expires_at k with Some at_ => _ | None => _ end) eqn:Ee; [by eapply Hskip|].
  apply io_bind_Ok in H as (ok & w1 & H0 & H). apply verify_hash_run in H0 as [Hv ->].
  destruct ok; cbn [negb] in H; [|by eapply Hskip].
  destruct (bool_decide (iu_status r = "active")) eqn:Ea; cbn [negb] in H; [|by eapply Hskip]. apply bool_decide_eq_true in Ea.
  apply io_bind_Ok in H as (access & w1 & H0 & H). apply user_access_run in H0 as [Hr Hi]; [|done].
  apply io_bind_Ok in H as (? & w2 & _ & [= <- <-]).
  exists k, r, (io_now w). split_and!; [by left|lia| |done..]. intros e He. rewrite He in Ee. apply bool_decide_eq_false in Ee. lia.
Qed.
Lemma user_token_run token w u w' :
  io_tx w = None -> verify_user_token token w = (Ok (Some u), w') ->
  exists k r later, k ∈ it_user_tokens (io_tables w) /\ r ∈ it_users (io_tables w) /\ ut_status k = "active" /\ ut_user_id k = iu_id r /\
    io_now w <= later /\ (forall e, ut_expires_at k = Some e -> later < e) /\ argon_verify token (ut_token_hash k) = Ok true /\
    iu_status r = "active" /\ lu_id u = iu_id r /\ ea_roles (lu_access u) = roles_of_user (io_tables w) (iu_id r).
Proof.
  intros Htx H. apply io_bind_Ok in H as (cs & w1 & H0 & H). apply iam_fetch_run in H0 as [-> Hi]; [|done].
  apply candidates_run in H as (k & r & now & Hin & Hnow & He & Hv & Ha & Hid & Hr); [|by rewrite (idle_tx _ _ Hi)].
  rewrite (idle_tables _ _ Hi) in Hr. pose proof (idle_now _ _ Hi). unfold token_candidates in Hin.
  apply list_elem_of_bind in Hin as (k' & Hin & Hk). apply list_elem_of_fmap in Hin as (r' & [= <- <-] & Hr').
  apply list_elem_of_In, filter_In in Hk as [Hk [Hs%bool_decide_eq_true _]%andb_true_iff].
  apply list_elem_of_In, filter_In in Hr' as [Hr' Hu%bool_decide_eq_true].
  apply list_elem_of_In in Hk, Hr'. exists k, r, now. split_and!; try done. lia.
Qed.
(** A token that nobody has is not noted anywhere. *)
Lemma no_candidate_run token cs w w' : verify_candidates token cs w = (Ok None, w') -> w' = w.
Proof.
  induction cs as [|[k r] cs IH]; cbn [verify_candidates]; [by intros [= ->]|]. intros H.
  apply io_bind_Ok in H as (now & w1 & [= <- <-] & H). destruct (match ut_expires_at k with Some at_ => _ | None => _ end); [by apply IH|].
  apply io_bind_Ok in H as (ok & w1 & H0 & H). apply verify_hash_run in H0 as [_ ->]. destruct ok; cbn [negb] in H; [|by apply IH].
  destruct (bool_decide _); cbn [negb] in H; [|by apply IH].
  apply io_bind_Ok in H as (access & w1 & _ & H). by apply io_bind_Ok in H as (? & w2 & _ & [=]).
Qed.
Lemma no_user_token_run token w w' : io_tx w = None -> verify_user_token token w = (Ok None, w') -> idle w w'.
Proof.
  intros Htx H. apply io_bind_Ok in H as (cs & w1 & H0 & H). apply iam_fetch_run in H0 as [-> Hi]; [|done].
  by apply no_candidate_run in H as ->.
Qed.
Lemma accounts_run token cs w s w' :
  io_tx w = None -> verify_accounts token cs w = (Ok (Some s), w') ->
  exists a, a ∈ cs /\ argon_verify token (sa_token_hash a) = Ok true /\ sp_id s = sa_id a /\
    ea_roles (sp_access s) = roles_of_account (io_tables w) (sa_id a).
Proof.
  intros Htx. induction cs as [|a cs IH]; cbn [verify_accounts]; [done|]. intros H.
  apply io_bind_Ok in H as (ok & w1 & H0 & H). apply verify_hash_run in H0 as [Hv ->]. destruct ok.
  2: { apply IH in H as (a' & Hin & Hrest). exists a'. split; [by right|done]. }
  apply io_bind_Ok in H as (access & w1 & H0 & [= <- <-]). apply account_access_run in H0 as [Hr _]; [|done].
  exists a. split_and!; [by left|done..].
Qed.
Lemma service_token_run token w s w' :
  io_tx w = None -> verify_service_token token w = (Ok (Some s), w') ->
  exists a later, a ∈ it_service_accounts (io_tables w) /\ sa_status a = "active" /\ argon_verify token (sa_token_hash a) = Ok true /\
    io_now w <= later /\ (forall e, sa_expires_at a = Some e -> later < e) /\ sp_id s = sa_id a /\
    ea_roles (sp_access s) = roles_of_account (io_tables w) (sa_id a).
Proof.
  intros Htx H. apply io_bind_Ok in H as (cs & w1 & H0 & H). apply iam_fetch_run in H0 as [-> Hi]; [|done].
  apply accounts_run in H as (a & Hin & Hv & Hid & Hr); [|by rewrite (idle_tx _ _ Hi)]. rewrite (idle_tables _ _ Hi) in Hr.
  apply list_elem_of_In, filter_In in Hin as [Hin Hc]. rewrite !andb_true_iff in Hc. destruct Hc as [[Hs%bool_decide_eq_true _] He].
  apply list_elem_of_In in Hin. exists a, (io_now w1). split_and!; try done; [apply Hi|].
  intros e Hexp. rewrite Hexp in He. by apply bool_decide_eq_true in He.
Qed.

(** C24: Whoever [authenticate] lets in is vouched for by the tables as they stand: a signed token by
    an active user of the version it names, a provider's token by the user with its subject or email
    or, when the settings allow it, by its own claims, a personal or service token by an unexpired,
    enabled entry whose hash it matches; with exactly the roles the tables give that principal.
    Nothing else is let in but the configured static token. *)
Theorem authenticate_sound auth bearer admin w p w' :
  io_tx w = None -> authenticate auth bearer admin w = (Ok p, w') -> vouched auth (io_tables w) (io_now w) bearer admin p.
Proof.
  intros Htx. destruct bearer as [token|]; cbn [authenticate]; [by apply bearer_run|]. destruct admin as [provided|]; [|done].
  intros H. apply io_bind_Ok in H as (user & w1 & H0 & H). apply map_error_Ok in H0.
  destruct user as [u|].
  { injection H as <- <-. apply user_token_run in H0 as (k & r & later & Hk & Hr & Hs & Hkr & Hl & He & Hv & Ha & Hid & Hroles); [|done].
    eapply vouched_personal; [done..|]. split_and!; [done..| |done]. cbn. by rewrite Hid. }
  apply no_user_token_run in H0 as Hi; [|done]. apply io_bind_Ok in H as (service & w2 & H1 & H). apply map_error_Ok in H1.
  destruct service as [a|].
  - injection H as <- <-.
    apply service_token_run in H1 as (row & later & Hin & Hs & Hv & Hl & He & Hid & Hr); [|by rewrite (idle_tx _ _ Hi)].
    rewrite (idle_tables _ _ Hi) in Hin, Hr. pose proof (idle_now _ _ Hi).
    eapply vouched_service; [done..| |done|done|by cbn; rewrite Hid|done]. lia.
  - case_bool_decide; [|done]. injection H as <- <-. by apply vouched_static.
Qed.

End Runs.

(** ** Revoked credentials *)

(** The user has moved past a version of its tokens. *)
Definition stale (id : Uuid) (v : Z) (t : IamTables) : Prop := exists u, u ∈ it_users t /\ iu_id u = id /\ v < iu_token_version u.

Section Revocation.
  Context `{U : Unicode} `{SE : Secrets} `{X : Texts} `{C : Collation} `{T : JsonText} `{B : Base64} `{D : Digests}.

Lemma stale_set p f id v us :
  (forall u, iu_id (f u) = iu_id u /\ iu_token_version u <= iu_token_version (f u)) ->
  (exists u, u ∈ us /\ iu_id u = id /\ v < iu_token_version u) ->
  exists u, u ∈ set_where p f us /\ iu_id u = id /\ v < iu_token_version u.
Proof.
  intros Hf (u & Hu & Hid & Hv). exists (if p u then f u else u). split; [apply elem_of_set_where; by exists u|].
  destruct (Hf u). destruct (p u); [split; [congruence|lia]|done].
Qed.
Lemma stale_change id' f t r t' id v :
  change_user id' f t = Ok (r, t') -> (forall u, iu_id (f u) = iu_id u /\ iu_token_version u <= iu_token_version (f u)) ->
  stale id v t -> stale id v t'.
Proof.
  intros [[_ ->]|(u & _ & _ & _ & ->)]%change_user_inv Hf Hs; [done|]. by apply stale_set.
Qed.
Lemma stale_insert u t r t' id v : insert_user u t = Ok (r, t') -> stale id v t -> stale id v t'.
Proof.
  unfold insert_user. destruct (user_violation _ _); [done|]. intros [= <- <-] (x & Hx & Hrest). exists x.
  split; [cbn; set_solver|done].
Qed.

Lemma stale_step allowed id v t t' : ~ allowed (EraseUser id) -> iam_step allowed t t' -> stale id v t -> stale id v t'.
Proof.
  intros Hna Hs Hst.
  destruct Hs as [u r t' H|i p now r t' Hm H|i now r t' Hm H|i now r t' H|i Hal Hm|p f [Hf Hf']|i hash now r t' H|g H|i f g Hf Hg Hv|i
    |g u r t' H|g u|u role r t' H|u r Hr Hm|g role r t' H|g role|a H|i f Hf|p|i role H1 H2 H3|k Hk|p f Hf|k H1 H2 H3|p f Hf|l];
    try done; try (unfold stale; by rewrite (insert_pair_same it_users H) by done).
  - by eapply stale_insert.
  - eapply stale_change; [exact H| |done]. intros u. split; [done|]. cbn. case_decide; lia.
  - eapply stale_change; [exact H| |done]. intros u. split; [done|cbn; lia].
  - eapply stale_change; [exact H| |done]. intros u. split; [done|cbn; lia].
  - destruct Hst as (u & Hu & Hid & Hv). exists u. split; [|done]. cbn. apply elem_of_drop_where. split; [done|].
    apply bool_decide_eq_false. intros E. apply Hna. by rewrite <- Hid, E.
  - apply stale_set; [|done]. intros u. destruct (Hf u) as (-> & _), (Hf' u) as [_ Hle]. done.
  - unfold upsert_admin in H. destruct (find_first _ _) as [a|]; apply bind_Ok in H as ([x t1] & H & [= <- <-]).
    + eapply stale_change; [exact H| |done]. intros u. split; [done|cbn; lia].
    + by eapply stale_insert.
Qed.
Lemma reached_stale allowed id v t t' :
  ~ allowed (EraseUser id) -> rtc (iam_step allowed) t t' -> stale id v t -> stale id v t'.
Proof. intros Hn. induction 1; intros; [done|]. eauto using stale_step. Qed.

(** What may be done with credentials of a version the user has moved past. *)
Lemma stale_jwt claims v w p w' :
  iam_ok (io_tables w) -> io_tx w = None -> stale (lc_sub claims) v (io_tables w) -> lc_token_version claims <= v ->
  resolve_local_subject claims w <> (Ok p, w').
Proof.
  intros Hok Htx (u & Hu & Hid & Hv) Hle (x & Hxid & Hxv & Hx & _)%resolve_local_run; [|done].
  assert (x = u) as -> by (apply (NoDup_fmap_unique iu_id (it_users (io_tables w))); [apply Hok|done|done|congruence]). lia.
Qed.
Lemma local_user_run id w u w' :
  io_tx w = None -> local_user_for_token id w = (Ok u, w') ->
  exists r, r ∈ it_users (io_tables w) /\ iu_id r = id /\ lu_token_version u = iu_token_version r.
Proof.
  intros Htx H. apply io_bind_Ok in H as (r & w1 & H0 & H). apply map_error_Ok, get_user_run in H0 as [Hr Hi]; [|done].
  destruct (negb _); [done|]. apply io_bind_Ok in H as (access & w2 & H0 & H).
  apply map_error_Ok, user_access_run in H0 as [_ Hi2]; [|by rewrite (idle_tx _ _ Hi)].
  apply io_bind_Ok in H as (version & w3 & H0 & [= <- <-]).
  apply map_error_Ok, version_run in H0 as (r' & Hr' & Hv & _); [|by rewrite (idle_tx _ _ Hi2), (idle_tx _ _ Hi)].
  pose proof (find_user _ _ _ Hr) as [Hin Hid]. rewrite (idle_tables _ _ Hi2), (idle_tables _ _ Hi), Hid, Hr in Hr'.
  injection Hr' as <-. by exists r.
Qed.
Lemma auth_fetch_run {A} (f : Z -> IamTables -> A) w a w' :
  io_tx w = None -> auth_db (fetch f) w = (Ok a, w') -> a = f (io_now w') (io_tables w) /\ idle w w'.
Proof.
  intros Htx H%map_error_Ok. unfold fetch, sql, step in H. destruct (io_faults w) as [|[] fs]; [|done|]; cbn in H; injection H as <- <-;
    unfold sql_now; cbn; rewrite Htx; (split; [done|split; cbn; [done|lia|done]]).
Qed.
(** A session that is renewed belongs to the current version of its user. *)
Lemma rotate_run auth token w tokens w' :
  io_tx w = None -> rotate_refresh_token auth token w = (Ok tokens, w') ->
  exists k r, k ∈ it_refresh_tokens (io_tables w) /\ rk_token_hash k = hash_refresh_token token /\ rk_revoked_at k = None /\
    io_now w < rk_expires_at k /\
    r ∈ it_users (io_tables w) /\ iu_id r = rk_user_id k /\ iu_token_version r = rk_token_version k.
Proof.
  intros Htx H. apply io_bind_Ok in H as (row & w1 & H0 & H). apply auth_fetch_run in H0 as [-> Hi]; [|done].
  apply io_bind_Ok in H as (k & w2 & [Hk%ok_or_Ok ->]%of_result_Ok & H).
  apply find_first_in in Hk as [Hk [Hh%bool_decide_eq_true [Hrev He%bool_decide_eq_true]%andb_true_iff]%andb_true_iff].
  apply io_bind_Ok in H as (u & w2 & H0 & H). apply local_user_run in H0 as (r & Hr & Hid & Hv); [|by rewrite (idle_tx _ _ Hi)].
  rewrite (idle_tables _ _ Hi) in Hr. pose proof (idle_now _ _ Hi).
  destruct (bool_decide (lu_token_version u = _)) eqn:Ev; [apply bool_decide_eq_true in Ev|by apply io_bind_Ok in H as (? & ? & _ & [=])].
  exists k, r. split_and!; try done; [|lia|congruence]. destruct (rk_revoked_at k); [by rewrite bool_decide_eq_true_2 in Hrev|done].
Qed.
Lemma stale_refresh auth token k v w tokens w' :
  iam_ok (io_tables w) -> io_tx w = None -> stale (rk_user_id k) v (io_tables w) ->
  k ∈ it_refresh_tokens (io_tables w) -> rk_token_hash k = hash_refresh_token token -> rk_token_version k <= v ->
  rotate_refresh_token auth token w <> (Ok tokens, w').
Proof.
  intros Hok Htx (u & Hu & Hid & Hv) Hk Hh Hle (k' & r & Hk' & Hh' & _ & _ & Hr & Hrid & Hrv)%rotate_run; [|done].
  assert (k' = k) as -> by (apply (NoDup_fmap_unique rk_token_hash (it_refresh_tokens (io_tables w))); [apply Hok|done|done|congruence]).
  assert (r = u) as -> by (apply (NoDup_fmap_unique iu_id (it_users (io_tables w))); [apply Hok|done|done|congruence]). lia.
Qed.

(** The requests that revoke what a user holds, and whose. *)
Definition revokes (user : Principal) (q : IamRequest) : option Uuid :=
  match q with
  | SetUserPassword id _ _ | DisableUser id | DeleteUser id None | DeleteUser id (Some false) => Some id
  | ChangePassword _ _ => pc_id user
  | _ => None
  end.

Definition at_version (id : Uuid) (v : Z) (t : IamTables) : Prop := exists u, u ∈ it_users t /\ iu_id u = id /\ v <= iu_token_version u.

Lemma triple_kept {E A} I (m : M IamTables Empty_set E A) (J : IamTables -> Prop) : kept I m -> (forall t, I t -> J t) -> triple I m (fun _ => I) J.
Proof. intros H HJ w Hw. specialize (H w Hw). destruct (m w) as [[] ?]; auto. Qed.
Lemma bump_stale f id v t :
  (forall u, iu_id (f u) = iu_id u /\ iu_token_version u < iu_token_version (f u)) ->
  at_version id v t -> stale id v (set_users (set_where (is_user id) f (it_users t)) t).
Proof.
  intros Hf (u & Hu & Hid & Hv). destruct (Hf u) as [Hfid Hfv]. exists (f u). split; [by apply set_where_same|].
  split; [congruence|lia].
Qed.
Lemma set_password_stale id v password b :
  triple (at_version id v) (set_user_password id password b) (fun _ => stale id v) (fun _ => True).
Proof.
  unfold set_user_password. destruct (is_empty _); [by apply triple_result|]. case_decide; [by apply triple_result|].
  eapply triple_bind; [apply (triple_kept (at_version id v)); [unfold hash_token; keep|done]|intros hash].
  eapply triple_bind; [apply triple_map_error, triple_sql; [done|]|intros hit].
  - intros now t Ht. instantiate (1 := fun _ => stale id v). apply bump_stale; [|done]. intros u. split; [done|cbn; lia].
  - destruct hit; [by apply triple_ret|by apply triple_result].
Qed.
Lemma guard_kept I id b : kept I (ensure_user_mutation_allowed id b).
Proof. unfold ensure_user_mutation_allowed, user_is_protected, user_is_active_policy_admin, active_policy_admin_count. keep. Qed.
Lemma disable_stale id v : triple (at_version id v) (disable_user id) (fun _ => stale id v) (fun _ => True).
Proof.
  unfold disable_user, affect_user. eapply triple_bind; [by apply triple_kept; [apply guard_kept|]|intros ?].
  eapply triple_bind; [apply triple_map_error, triple_checked; [done|]|intros row].
  - intros now t r t' Ht E. instantiate (1 := fun row t => match row with Some _ => stale id v t | None => True end).
    apply change_user_inv in E as [[-> ->]|(u & Hu & Hid & Hs & ->)]; [done|].
    destruct r; [apply bump_stale; [|done]; intros x; split; [done|cbn; lia]|done].
  - destruct row; [|by apply triple_result]. apply (triple_kept (stale id v)); [keep|done].
Qed.

Lemma events_stale id v actor action ty target payload : kept (stale id v) (log_iam_event actor action ty target payload).
Proof. unfold log_iam_event, record_iam_event. keep. by apply kept_update. Qed.

Lemma serve_revokes env user q id v :
  revokes user q = Some id -> triple (at_version id v) (serve_iam env user q) (fun _ => stale id v) (fun _ => True).
Proof.
  intros Hq.
  assert (forall (m : IamM unit) (log : RouteM unit), triple (at_version id v) m (fun _ => stale id v) (fun _ => True) -> kept (stale id v) log ->
    triple (at_version id v) (_ ← iam m; log : RouteM unit) (fun _ => stale id v) (fun _ => True)) as Hrun.
  { intros m log Hm Hlog. eapply triple_bind; [by apply triple_map_error|]. intros ?. by apply triple_kept. }
  assert (forall m : RouteM unit, triple (at_version id v) m (fun _ => stale id v) (fun _ => True) ->
    triple (at_version id v) (authorised user ROLE_IAM_ADMIN m) (fun _ => stale id v) (fun _ => True)) as Hauth.
  { intros m Hm. unfold authorised. destruct (require_roles _ _); [done|by apply triple_result]. }
  destruct q as [| | | |id'|id' [[]|]|id'|id' password b| | | | | | | | | | | | | | | | | | | | | | | | ]; try done; cbn in Hq;
    try (injection Hq as ->); cbn [serve_iam];
    try (apply Hauth, Hrun; [apply disable_stale|apply events_stale]);
    try (apply Hauth, Hrun; [apply set_password_stale|apply events_stale]).
  unfold change_password_route. rewrite Hq. destruct (_ || _); [by apply triple_result|]. apply Hrun; [|apply events_stale].
  unfold change_password. eapply triple_bind; [apply (triple_kept (at_version id v)); [keep|done]|intros row].
  eapply triple_bind; [apply (triple_kept (at_version id v)); [keep|done]|intros u].
  eapply triple_bind; [apply (triple_kept (at_version id v)); [keep|done]|intros existing].
  eapply triple_bind; [apply (triple_kept (at_version id v)); [keep|done]|intros ok].
  destruct ok; [apply set_password_stale|by apply triple_result].
Qed.

(** C25: Once a password has been changed or set, or a user disabled, no signed token and no refresh
    token of a version up to the one the user had then works again: not after any further requests,
    enabling the user included, short of deleting it. *)
Theorem revoked_for_good env auth user q id u w w1 rs :
  iam_ok (io_tables w) -> find_first (is_user id) (it_users (io_tables w)) = Some u -> revokes user q = Some id ->
  serve_iam env user q w = (Ok tt, w1) -> (forall r, r ∈ rs -> EraseUser id ∉ demands_of r) ->
  forall w2, io_tables w2 = io_tables (serve_all env auth rs w1).2 -> io_tx w2 = None ->
  (forall claims p w3, lc_sub claims = id -> lc_token_version claims <= iu_token_version u ->
     resolve_local_subject claims w2 <> (Ok p, w3)) /\
  (forall token k tokens w3, k ∈ it_refresh_tokens (io_tables w2) -> rk_token_hash k = hash_refresh_token token ->
     rk_user_id k = id -> rk_token_version k <= iu_token_version u -> rotate_refresh_token auth token w2 <> (Ok tokens, w3)).
Proof.
  intros Hok [Hu Hid]%find_user Hq Hrun Hrs w2 Ht Htx. set (v := iu_token_version u).
  assert (stale id v (io_tables w1)) as Hst.
  { pose proof (serve_revokes env user q id v Hq w (ex_intro _ u (conj Hu (conj Hid (Z.le_refl _))))) as H. by rewrite Hrun in H. }
  assert (iam_ok (io_tables w1)) as Hok1.
  { pose proof (serve_iam_kept env (fun _ => True) (io_tables w) user q ltac:(done) w (rtc_refl _ _)) as H. rewrite Hrun in H.
    by eapply reached_ok. }
  pose proof (serve_all_reached env auth rs w1) as Hr. rewrite <- Ht in Hr.
  assert (stale id v (io_tables w2)) as Hst2.
  { eapply reached_stale; [|exact Hr|done]. intros (r & Hin & Hd). by apply (Hrs r). }
  assert (iam_ok (io_tables w2)) as Hok2 by by eapply reached_ok.
  split.
  - intros claims p w3 <- Hle. by eapply stale_jwt.
  - intros token k tokens w3 Hk Hh <- Hle. by eapply stale_refresh.
Qed.

End Revocation.
