(* ===== verification/Sessions.v ===== *)
(** * Sessions and lockouts

    Refresh tokens of the admin API: how many a user may have, and that each is good for one renewal;
    and what wrong passwords lead to. *)

From S2P Require Import Prelude RustStr RustNum Types Http Json ConfigCore Db Io Texts Pagination Iam IamRoutes IamInvariants Auth AdminAccess Credentials.

Local Open Scope Z_scope.

(** ** The limit on sessions *)

Lemma length_filter_le {A} (p : A -> bool) l : (length (List.filter p l) <= length l)%nat.
Proof. induction l as [|x l IH]; cbn; [done|]. destruct (p x); cbn; lia. Qed.
Lemma length_filter_perm {A} (p : A -> bool) l l' : l ≡ₚ l' -> length (List.filter p l) = length (List.filter p l').
Proof.
  induction 1 as [|x l l' H IH|x y l|l1 l2 l3 H1 IH1 H2 IH2]; cbn; [done|destruct (p x); cbn; lia| |congruence].
  destruct (p x), (p y); done.
Qed.

Lemma filter_nothing {A} (p : A -> bool) l : (forall x, x ∈ l -> p x = false) -> List.filter p l = [].
Proof.
  induction l as [|x l IH]; intros H; [done|]. cbn. rewrite H by by left. apply IH. intros y Hy. apply H. by right.
Qed.

Section Sessions.
  Context `{U : Unicode} `{SE : Secrets} `{X : Texts} `{C : Collation} `{T : JsonText} `{B : Base64} `{D : Digests} (auth : AdminAuth).

Abbreviation mine now id := (fun k => bool_decide (rk_user_id k = id) && live now k).

Lemma sessions_perm now id t : sessions now id t ≡ₚ List.filter (mine now id) (it_refresh_tokens t).
Proof. unfold sessions, order_desc. by rewrite sort_by_key_perm. Qed.

(** Revoking rows leaves the others. *)
Lemma filter_revoked now id (over : list Uuid) reason l :
  length (List.filter (mine now id) (set_where (fun k => bool_decide (rk_id k ∈ over)) (revoked now reason) l)) =
  length (List.filter (fun k => negb (bool_decide (rk_id k ∈ over))) (List.filter (mine now id) l)).
Proof.
  induction l as [|k l IH]; [done|]. unfold set_where in *. rewrite fmap_cons. cbn [List.filter].
  destruct (bool_decide (rk_id k ∈ over)) eqn:E.
  - assert (live now (revoked now reason k) = false) as -> by done. rewrite andb_false_r.
    destruct (bool_decide (rk_user_id k = id) && live now k); cbn; rewrite ?E; apply IH.
  - destruct (bool_decide (rk_user_id k = id) && live now k); cbn; rewrite ?E; cbn; by rewrite IH.
Qed.

Lemma limit_bound now id limit t : (length (sessions now id (limit_sessions now id limit t)) <= Z.to_nat limit)%nat.
Proof.
  rewrite sessions_perm. unfold limit_sessions. cbn [it_refresh_tokens set_refresh_tokens]. rewrite filter_revoked.
  set (n := Z.to_nat limit). set (over := rk_id <$> drop n (sessions now id t)).
  rewrite <- (length_filter_perm _ _ _ (sessions_perm now id t)), <- (take_drop n (sessions now id t)) at 1.
  rewrite List.filter_app, length_app.
  rewrite (filter_nothing _ (drop n (sessions now id t))).
  - cbn [length]. rewrite Nat.add_0_r. pose proof (length_filter_le (fun k => negb (bool_decide (rk_id k ∈ over))) (take n (sessions now id t))).
    rewrite length_take in H. lia.
  - intros k Hk. apply negb_false_iff, bool_decide_eq_true. apply list_elem_of_fmap. by exists k.
Qed.

(** ** Renewing a session *)

(** The row of a token, which only the deletion of its user removes. *)
Definition session_row (h : string) (id : Uuid) (t : IamTables) : Prop :=
  exists k, k ∈ it_refresh_tokens t /\ rk_token_hash k = h /\ rk_user_id k = id.
Definition spent (h : string) (id : Uuid) (t : IamTables) : Prop :=
  exists k, k ∈ it_refresh_tokens t /\ rk_token_hash k = h /\ rk_user_id k = id /\ is_Some (rk_revoked_at k).

Lemma spent_step allowed h id t t' : ~ allowed (EraseUser id) -> iam_step allowed t t' -> spent h id t -> spent h id t'.
Proof.
  intros Hna Hs Hsp.
  destruct Hs as [u r t' H|i p now r t' Hm H|i now r t' Hm H|i now r t' H|i Hal Hm|p f [Hf Hf']|i hash now r t' H|g H|i f g Hf Hg Hv|i
    |g u r t' H|g u|u role r t' H|u r Hr Hm|g role r t' H|g role|a H|i f Hf|p|i role H1 H2 H3|k Hk|p f Hf|k H1 H2 H3|p f Hf|l];
    try done; try (unfold spent; by rewrite (insert_pair_same it_refresh_tokens H) by done);
    try (by apply change_user_inv in H as [[_ ->]|(? & _ & _ & _ & ->)]).
  - unfold insert_user in H. destruct (user_violation _ _); [done|]. by injection H as <- <-.
  - destruct Hsp as (k & Hk & Hh & Hu & Hr). exists k. split_and!; [|done..]. cbn. apply elem_of_drop_where. split; [done|].
    apply bool_decide_eq_false. intros E. apply Hna. by rewrite <- Hu, E.
  - unfold upsert_admin in H. destruct (find_first _ _) as [a|]; apply bind_Ok in H as ([x t1] & H & [= <- <-]).
    + by apply change_user_inv in H as [[_ ->]|(? & _ & _ & _ & ->)].
    + unfold insert_user in H. destruct (user_violation _ _); [done|]. by injection H as <- <-.
  - destruct Hsp as (x & Hx & Hrest). exists x. split; [cbn; set_solver|done].
  - destruct Hsp as (x & Hx & Hh & Hu & Hr). exists (if p x then f x else x). split; [cbn; apply elem_of_set_where; by exists x|].
    destruct (p x); [|done]. destruct (Hf x) as (_ & -> & -> & _ & ?). done.
Qed.
Lemma reached_spent allowed h id t t' :
  ~ allowed (EraseUser id) -> rtc (iam_step allowed) t t' -> spent h id t -> spent h id t'.
Proof. intros Hn. induction 1; intros; [done|]. eauto using spent_step. Qed.
Lemma spent_refused token id w tokens w' :
  iam_ok (io_tables w) -> io_tx w = None -> spent (hash_refresh_token token) id (io_tables w) ->
  rotate_refresh_token auth token w <> (Ok tokens, w').
Proof.
  intros Hok Htx (k & Hk & Hh & _ & Hr) (k' & r & Hk' & Hh' & Hn & _)%rotate_run; [|done].
  assert (k' = k) as -> by (apply (NoDup_fmap_unique rk_token_hash (it_refresh_tokens (io_tables w))); [apply Hok|done|done|congruence]).
  rewrite Hn in Hr. by destruct Hr.
Qed.

Lemma set_row_spent (p : RefreshToken -> bool) f h id t :
  (exists k, k ∈ it_refresh_tokens t /\ rk_token_hash k = h /\ rk_user_id k = id /\ (p k = true \/ is_Some (rk_revoked_at k))) ->
  (forall k, rk_user_id (f k) = rk_user_id k /\ rk_token_hash (f k) = rk_token_hash k /\ is_Some (rk_revoked_at (f k))) ->
  spent h id (set_refresh_tokens (set_where p f (it_refresh_tokens t)) t).
Proof.
  intros (k & Hk & Hh & Hu & Hp) Hf. exists (if p k then f k else k). split; [cbn; apply elem_of_set_where; by exists k|].
  destruct (Hf k) as (E1 & E2 & E3). destruct (p k); [by rewrite E1, E2|]. by destruct Hp.
Qed.

(** The row stays where it is while a new session is written. *)
Definition row_at (rid : Uuid) (h : string) (id : Uuid) (t : IamTables) : Prop :=
  exists k, k ∈ it_refresh_tokens t /\ rk_id k = rid /\ rk_token_hash k = h /\ rk_user_id k = id.
Lemma issue_row_kept rid h id user : kept (row_at rid h id) (issue_refresh_token auth user).
Proof.
  unfold issue_refresh_token, generate_refresh_token, enforce_refresh_session_limit, of_iam, auth_db, user_token_version. keep.
  - apply kept_checked. intros now t r t' (k & Hk & Hrest). unfold insert_refresh. destruct (refresh_violation _ _); [done|].
    intros [= <- <-]. exists k. split; [cbn; set_solver|done].
  - apply kept_update. intros now t (k & Hk & H1 & H2 & H3). unfold limit_sessions.
    set (over := rk_id <$> _). exists (if bool_decide (rk_id k ∈ over) then revoked now "max_sessions_exceeded" k else k).
    split; [cbn; apply elem_of_set_where; by exists k|]. by case_bool_decide.
Qed.
Lemma rotate_spends token id :
  triple (fun t => iam_ok t /\ session_row (hash_refresh_token token) id t) (rotate_refresh_token auth token)
    (fun _ => spent (hash_refresh_token token) id) (fun _ => True).
Proof.
  unfold rotate_refresh_token. eapply triple_bind; [by apply triple_map_error, triple_fetch|intros row].
  eapply triple_bind; [apply triple_result; [done|]|intros k].
  { intros k t Hk%ok_or_Ok [[Hok (k0 & Hk0 & Hh & Hu)] (now & ->)]. apply find_first_in in Hk as [Hin [Hh'%bool_decide_eq_true _]%andb_true_iff].
    instantiate (1 := fun k => row_at (rk_id k) (hash_refresh_token token) id). exists k0.
    assert (k0 = k) as -> by (apply (NoDup_fmap_unique rk_token_hash (it_refresh_tokens t)); [apply Hok|done|done|congruence]). done. }
  set (P := row_at (rk_id k) (hash_refresh_token token) id). eapply triple_bind; [apply (triple_kept P); [|done]|intros user].
  { unfold local_user_for_token, get_user, user_token_version, of_iam, deny. keep; apply access_kept. }
  destruct (negb _).
  { eapply triple_bind; [apply (triple_map_error), (triple_update _ _ P (fun _ => True)); done|]. intros ?. by apply triple_result. }
  eapply triple_bind; [apply (triple_kept P); [unfold issue_token; keep|done]|intros new_access].
  eapply triple_bind; [apply (triple_kept P); [apply issue_row_kept|done]|intros new_refresh].
  eapply triple_bind; [apply (triple_kept P); [apply kept_map_error, kept_fetch|done]|intros replacement].
  eapply triple_bind; [apply (triple_kept P); [keep|done]|intros r].
  eapply triple_bind; [apply triple_map_error, (triple_update _ _ P (spent (hash_refresh_token token) id)); [done|]|intros ?; by apply triple_ret].
  intros now t (x & Hx & Hid & Hh & Hu). apply set_row_spent; [|intros; cbn; eauto]. exists x. split_and!; [done..|]. left.
  by apply bool_decide_eq_true.
Qed.
Lemma revoke_spends token id :
  triple (session_row (hash_refresh_token token) id) (revoke_refresh_token token)
    (fun _ => spent (hash_refresh_token token) id) (fun _ => True).
Proof.
  apply triple_map_error, (triple_update _ _ _ (spent (hash_refresh_token token) id)); [done|].
  intros now t (k & Hk & Hh & Hu). apply set_row_spent; [|intros; cbn; eauto]. exists k. split_and!; [done..|].
  destruct (rk_revoked_at k) eqn:E; [right; by eauto|left]. rewrite bool_decide_eq_true_2 by done.
  by rewrite bool_decide_eq_false_2 by (intros [? [=]]).
Qed.

(** C26: A refresh token is good for one renewal: after it was renewed or logged out, it is refused
    whatever is requested in between, short of deleting its user. *)
Theorem session_used_once env r token k w w1 rs w2 tokens w3 :
  (r = Refresh token \/ r = Logout token) -> is_empty (trim token) = false ->
  iam_ok (io_tables w) -> k ∈ it_refresh_tokens (io_tables w) -> rk_token_hash k = hash_refresh_token (trim token) ->
  serve env auth r w = (Ok tt, w1) -> (forall q, q ∈ rs -> EraseUser (rk_user_id k) ∉ demands_of q) ->
  io_tables w2 = io_tables (serve_all env auth rs w1).2 -> io_tx w2 = None ->
  rotate_refresh_token auth (trim token) w2 <> (Ok tokens, w3).
Proof.
  intros Hr Hne Hok Hk Hh Hrun Hrs Ht Htx. set (id := rk_user_id k).
  assert (iam_ok (io_tables w1)) as Hok1.
  { pose proof (serve_kept env auth (fun _ => True) (io_tables w) r ltac:(done) w (rtc_refl _ _)) as H. rewrite Hrun in H.
    by eapply reached_ok. }
  assert (session_row (hash_refresh_token (trim token)) id (io_tables w)) as Hrow by by exists k.
  assert (spent (hash_refresh_token (trim token)) id (io_tables w1)) as Hsp.
  { destruct Hr as [-> | ->]; cbn [serve] in Hrun; unfold done_with, refresh_route, logout_route in Hrun; rewrite Hne in Hrun.
    - apply io_bind_Ok in Hrun as (ts & w' & Hrun & [= ->]). destruct (negb _); [done|]. apply map_error_Ok in Hrun.
      pose proof (rotate_spends (trim token) id w (conj Hok Hrow)) as H. by rewrite Hrun in H.
    - apply map_error_Ok in Hrun. pose proof (revoke_spends (trim token) id w Hrow) as H. by rewrite Hrun in H. }
  pose proof (serve_all_reached env auth rs w1) as Hreach. rewrite <- Ht in Hreach.
  apply (spent_refused _ id); [by eapply reached_ok|done|]. eapply reached_spent; [|exact Hreach|done].
  intros (q & Hq & Hd). by apply (Hrs q).
Qed.

Lemma checked_tx {A} (f : Z -> IamTables -> result string (A * IamTables)) w a w' :
  auth_db (checked f) w = (Ok a, w') -> io_tx w' = io_tx w.
Proof.
  intros H%map_error_Ok. unfold checked in H. destruct (io_faults w) as [|[] ?]; [|done|]; cbn in H;
    (destruct (f _ _) as [[]|]; [|done]); by injection H as <- <-.
Qed.
Lemma update_run f w (a : unit) w' :
  io_tx w = None -> auth_db (update f) w = (Ok a, w') -> io_tables w' = f (io_now w') (io_tables w).
Proof.
  intros Htx H%map_error_Ok. unfold update, sql, step in H. destruct (io_faults w) as [|[] ?]; [|done|]; cbn in H;
    injection H as <- <-; unfold sql_now; cbn; by rewrite Htx.
Qed.

(** Whenever a session is opened or renewed, the user is left with at most the configured number
    of live sessions. *)
Theorem session_limit id w token w' :
  io_tx w = None -> issue_refresh_token auth id w = (Ok token, w') ->
  (length (sessions (io_now w') id (io_tables w')) <= Z.to_nat (Z.max (au_refresh_max_sessions auth) 1))%nat.
Proof.
  intros Htx H. unfold issue_refresh_token in H. apply io_bind_Ok in H as (tok & w1 & H0 & H).
  apply io_bind_Ok in H0 as (e & w0 & [= <- <-] & [= <- <-]). apply io_bind_Ok in H as (v & w2 & H0 & H).
  apply map_error_Ok, version_run in H0 as (u & _ & _ & Hi); [|done]. apply io_bind_Ok in H as (now & w3 & [= <- <-] & H).
  apply io_bind_Ok in H as (rid & w3 & [= <- <-] & H). apply io_bind_Ok in H as ([] & w4 & H0 & H). apply checked_tx in H0 as Htx4.
  apply io_bind_Ok in H as (x & w5 & H1 & [= <- <-]). cbn in Htx4. rewrite (idle_tx _ _ Hi) in Htx4. cbn in Htx4.
  apply update_run in H1; [|congruence]. rewrite H1. apply limit_bound.
Qed.

End Sessions.

(** ** Lockouts *)

Section Lockouts.
  Context `{U : Unicode} `{SE : Secrets} `{X : Texts}.

Lemma find_first_set_where {A} (p q : A -> bool) f (l : list A) :
  (forall x, p (f x) = p x) -> find_first p (set_where q f l) = (fun x => if q x then f x else x) <$> find_first p l.
Proof.
  intros Hp. induction l as [|x l IH]; [done|]. unfold set_where in *. rewrite fmap_cons. cbn [find_first].
  assert (p (if q x then f x else x) = p x) as -> by by destruct (q x). destruct (p x); [done|apply IH].
Qed.
Definition unlocked (now : Z) (u : IamUser) : Prop := match iu_locked_until u with Some until => until <= now | None => True end.
(** The account that answers to a name, and the hash of its password. *)
Definition account_at (name : string) (h : string) (u : IamUser) (t : IamTables) : Prop :=
  find_first (named (trim name)) (it_users t) = Some u /\ iu_status u = "active" /\ iu_password_hash u = Some h.

(** A wrong password. *)
Lemma wrong_password_run name p h u max lockout w :
  calm w -> io_tx w = None -> account_at name h u (io_tables w) -> unlocked (io_now w + 1) u -> argon_verify p h = Ok false ->
  let failed := as_i32 (iu_failed_login_attempts u + 1) in
  let lock := if decide (max <= failed) then Some (io_now w + 1 + Z.max lockout 1 * 1000) else None in
  exists w', authenticate_local_user name p max lockout w = (Err InvalidCredentials, w') /\ calm w' /\ io_tx w' = None /\
    io_now w' = io_now w + 2 /\
    account_at name h (with_attempts failed lock (iu_last_login_at u) (io_now w + 2) u) (io_tables w').
Proof.
  intros Hc Htx (Hu & Ha & Hh) Hl Hv. cbv zeta. unfold authenticate_local_user, iam_fetch, map_error, mbind, io_bind. rewrite fetch_calm by done.
  cbn [map_err]. unfold of_result. cbn [io_tables elapse]. rewrite Hu. cbn [ok_or]. rewrite bool_decide_eq_true_2 by done. cbn [negb].
  unfold utc_now. cbn [io_now elapse].
  assert (forall (f : unit -> IamM LocalAuthenticatedUser) (w1 : Io IamTables Empty_set),
    match (match iu_locked_until u with
           | Some until => if decide (io_now w + 1 < until) then fail (Locked until) else mret ()
           | None => mret () end) w1 with (Ok a, w2) => f a w2 | (Err e, w2) => (Err e, w2) end = f tt w1) as ->.
  { intros f w1. unfold unlocked in Hl. destruct (iu_locked_until u); [rewrite decide_False by lia|]; done. }
  rewrite Hh. cbn [ok_or]. unfold verify_hash, of_result. rewrite Hv. cbn [map_err].
  unfold touch_user, iam_update, map_error. rewrite update_calm by by apply calm_elapse.
  eexists. split; [reflexivity|]. cbn [io_now io_tx elapse with_tables io_tables]. unfold sql_now. cbn. rewrite Htx. cbn.
  replace (io_now w + 1 + 1) with (io_now w + 2) by lia.
  split_and!; [unfold calm in *; cbn; by rewrite Hc|done|done|]. split_and!; [|done|done]. cbn [it_users set_users].
  rewrite find_first_set_where by done. rewrite Hu. cbn. unfold is_user. by rewrite bool_decide_eq_true_2.
Qed.

(** The right password or a wrong one, while the account is locked. *)
Lemma locked_run name p h u until max lockout w :
  calm w -> account_at name h u (io_tables w) -> iu_locked_until u = Some until -> io_now w + 1 < until ->
  authenticate_local_user name p max lockout w = (Err (Locked until), elapse w).
Proof.
  intros Hc (Hu & Ha & Hh) Hl Hn. unfold authenticate_local_user, iam_fetch, map_error, mbind, io_bind. rewrite fetch_calm by done.
  cbn [map_err]. unfold of_result. cbn [io_tables elapse]. rewrite Hu. cbn [ok_or]. rewrite bool_decide_eq_true_2 by done. cbn [negb].
  unfold utc_now. cbn [io_now elapse]. rewrite Hl. by rewrite decide_True by lia.
Qed.

Lemma wrong_passwords_run name h max lockout ps : forall u w,
  ps <> [] -> calm w -> io_tx w = None -> account_at name h u (io_tables w) -> unlocked (io_now w + 1) u ->
  Forall (fun p => argon_verify p h = Ok false) ps ->
  0 <= iu_failed_login_attempts u -> iu_failed_login_attempts u + Z.of_nat (length ps) = max -> max <= i32_max ->
  let w1 := (each (fun p => dropped (authenticate_local_user name p max lockout) : IamM unit) ps w).2 in
  exists u1, account_at name h u1 (io_tables w1) /\ iu_locked_until u1 = Some (io_now w1 - 1 + Z.max lockout 1 * 1000).
Proof.
  induction ps as [|p ps IH]; intros u w Hne Hc Htx Hacc Hl Hps Hf Hmax Hi; [done|].
  apply Forall_cons in Hps as [Hp Hps]. cbn [length] in Hmax.
  destruct (wrong_password_run name p h u max lockout w Hc Htx Hacc Hl Hp) as (w' & Hrun & Hc' & Htx' & Hnow & Hacc').
  rewrite as_i32_small in Hacc' by (unfold i32_min, i32_max in *; lia). cbv zeta.
  assert (forall l, each (fun p => dropped (authenticate_local_user name p max lockout) : IamM unit) (p :: l) w =
    each (fun p => dropped (authenticate_local_user name p max lockout)) l w') as ->.
  { intros l. cbn [each]. unfold mbind at 1, io_bind at 1, dropped at 1. by rewrite Hrun. }
  destruct ps as [|q ps].
  - cbn. rewrite decide_True in Hacc' by (cbn in Hmax; lia). eexists. split; [exact Hacc'|]. cbn. rewrite Hnow. f_equal. lia.
  - rewrite decide_False in Hacc' by (cbn in Hmax; lia). eapply IH; [done|done|done|exact Hacc'|done|done|cbn; lia| |done].
    cbn [iu_failed_login_attempts with_attempts]. lia.
Qed.

(** As many wrong passwords as the settings allow lock the account: until the lockout has passed
    every password is refused, the right one too, and nothing is changed. *)
Theorem wrong_passwords_lock name h u max lockout ps w p w2 :
  ps <> [] -> calm w -> io_tx w = None -> account_at name h u (io_tables w) -> unlocked (io_now w + 1) u ->
  Forall (fun p => argon_verify p h = Ok false) ps ->
  0 <= iu_failed_login_attempts u -> iu_failed_login_attempts u + Z.of_nat (length ps) = max -> max <= i32_max ->
  let w1 := (each (fun p => dropped (authenticate_local_user name p max lockout) : IamM unit) ps w).2 in
  calm w2 -> io_tables w2 = io_tables w1 -> io_now w2 + 1 < io_now w1 - 1 + Z.max lockout 1 * 1000 ->
  exists until, authenticate_local_user name p max lockout w2 = (Err (Locked until), elapse w2).
Proof.
  intros Hne Hc Htx Hacc Hl Hps Hf Hmax Hi w1 Hc2 Ht Hn.
  destruct (wrong_passwords_run name h max lockout ps u w Hne Hc Htx Hacc Hl Hps Hf Hmax Hi) as (u1 & Hacc1 & Hl1).
  eexists. eapply locked_run; [done|by rewrite Ht|exact Hl1|done].
Qed.

End Lockouts.
