(* ===== verification/AccessDemo.v ===== *)
(** * A small installation

    Concrete parameters and tables on which the theorems about identity and access are used, and the
    ways in which an installation can be left without an administrator. *)

From S2P Require Import Prelude RustStr RustNum Types Http Json ConfigCore Db Io Texts Pagination Iam IamRoutes IamInvariants Auth AdminAccess Credentials Sessions.

Local Open Scope Z_scope.

Module AccessDemo.

#[local] Existing Instance Demo.unicode.
#[local] Existing Instance TextsDemo.base64.
#[local] Existing Instance TextsDemo.texts.
#[local] Existing Instance JsonDemo.text.
#[local] Existing Instance PagesDemo.collation.

(** A hash that can be read. *)
#[refine] Instance secrets : Secrets := {|
  random_alphanumeric e n := "token" +:+ pretty e;
  argon_hash e secret := Ok ("#" +:+ secret);
  argon_verify secret hash := Ok (bool_decide (hash = "#" +:+ secret))
|}.
Proof. intros e secret hash [= <-]. by rewrite bool_decide_eq_true_2. Defined.
#[local] Instance digests : Digests := {| hmac_sha256 key text := key +:+ "|" +:+ text; sha256_hex text := "sha" +:+ text |}.

Definition person (id : Uuid) (name : string) (protected : bool) : IamUser :=
  {| iu_id := id; iu_username := Some name; iu_subject := None; iu_email := Some (name +:+ "@local"); iu_display_name := None;
     iu_status := "active"; iu_is_protected := protected; iu_last_login_at := None; iu_created_at := 0; iu_updated_at := 0;
     iu_password_hash := Some ("#" +:+ name +:+ "-password"); iu_password_updated_at := None; iu_failed_login_attempts := 0;
     iu_locked_until := None; iu_must_change_password := false; iu_token_version := 1 |}.
Definition role (id : Uuid) (name : string) : IamRole :=
  {| ir_id := id; ir_name := name; ir_description := None; ir_builtin := true; ir_created_at := 0 |}.
Definition ops : IamGroup :=
  {| ig_id := 20%nat; ig_name := "ops"; ig_description := None; ig_status := "active"; ig_created_at := 0; ig_updated_at := 0 |}.
Definition roles : list IamRole := [role 10%nat "policy-admin"; role 11%nat "auditor"].

(** The protected administrator, and Bob who is an administrator through the group of operators. *)
Definition tables : IamTables :=
  mkIam [person 1%nat "admin" true; person 2%nat "bob" false] [ops] [(20, 2)]%nat roles [(10%nat, "iam:manage")] [(1, 10)]%nat
    [(20, 10)]%nat [] [] [] [] [].
(** An installation whose only administrator is Bob. *)
Definition bobs : IamTables :=
  mkIam [person 2%nat "bob" false] [ops] [(20, 2)]%nat roles [] [] [(20, 10)]%nat [] [] [] [] [].

Definition auth : AdminAuth := {|
  au_static_token := Some "static"; au_fallback_roles := default_static_roles; au_mode := Local; au_allow_claim_fallback := true;
  au_local_jwt := new_issuer "a-long-secret" 3600; au_max_failed_attempts := 3; au_lockout_seconds := 900;
  au_refresh_ttl_seconds := 3600; au_refresh_max_sessions := 2; au_jwt := None
|}.
Definition start (t : IamTables) : Io IamTables Empty_set := mkIo 1000000 None [] 100%nat [] t.
Definition as_static (q : IamRequest) : AdminRequest := Request None (Some "static") q.

Ltac each_row :=
  repeat match goal with
  | H : _ ∈ [] |- _ => by apply elem_of_nil in H
  | H : _ ∈ _ :: _ |- _ => apply elem_of_cons in H as [->|H]
  end.
Ltac schema :=
  split; [|cbn; solve [repeat constructor; set_solver]..];
  split; [cbn; solve [repeat constructor; set_solver]|intros u Hu|intros u v Hu Hv|intros u v Hu Hv]; cbn in *; each_row;
  first [done|by left|by vm_compute].

Lemma tables_ok : iam_ok tables.
Proof. schema. Qed.
Lemma bobs_ok : iam_ok bobs.
Proof. schema. Qed.

Lemma admin_protected : protected_admin 1%nat tables.
Proof. split; [exists (person 1%nat "admin" true)|exists (role 10%nat "policy-admin")]; cbn; split_and!; try done; by left. Qed.
Lemma bob_administrates : some_admin bobs.
Proof. exists (person 2%nat "bob" false). split; [by left|by vm_compute]. Qed.

(** Whoever holds the static token tries to get rid of the administrator. *)
Definition coup : list AdminRequest :=
  [as_static (DisableUser 1%nat); as_static (DeleteUser 1%nat (Some true)); as_static (RevokeUserRole 1%nat "policy-admin");
   as_static (UpdateUser 1%nat {| uu_username := None; uu_subject := None; uu_email := None; uu_display_name := None;
                                  uu_status := Some "Disabled" |});
   as_static (DeleteGroup 20%nat)].

Lemma protected_administrator_survives_witness :
  protected_admin 1%nat (io_tables (serve_all ∅ auth coup (start tables)).2).
Proof. apply (protected_administrator_survives ∅ auth coup (start tables) 1%nat); [apply tables_ok|apply admin_protected]. Defined.

Lemma some_administrator_survives_witness :
  some_admin (io_tables (serve_all ∅ auth (take 4 coup) (start bobs)).2).
Proof.
  apply (some_administrator_survives ∅ auth (take 4 coup) (start bobs)); [apply bobs_ok|apply bob_administrates|].
  intros r Hr. cbn in Hr. each_row; cbn; set_solver.
Defined.

(** Deleting the group is not guarded: nobody is an administrator afterwards. *)
Example group_deletion_strands :
  iam_ok bobs /\ some_admin bobs /\
  let w := (serve_all ∅ auth [as_static (DeleteGroup 20%nat)] (start bobs)).2 in
  any (active_admin (io_tables w)) (it_users (io_tables w)) = false.
Proof. split_and!; [apply bobs_ok|apply bob_administrates|by vm_compute]. Qed.
(** So are taking its only administrator out of it, and taking the role from it. *)
Example membership_strands :
  let after r := io_tables (serve_all ∅ auth [as_static r] (start bobs)).2 in
  forall r, r ∈ [RemoveMember 20%nat 2%nat; RevokeGroupRole 20%nat "policy-admin"] ->
  any (active_admin (after r)) (it_users (after r)) = false.
Proof. intros after r Hr. each_row; by vm_compute. Qed.
(** A group that is disabled gives its roles as before. *)
Example disabled_group_still_counts :
  let w := (serve_all ∅ auth [as_static (UpdateGroup 20%nat {| ug_name := None; ug_description := None; ug_status := Some "disabled" |})]
              (start bobs)).2 in
  (ig_status <$> it_groups (io_tables w)) = ["disabled"] /\
  any (active_admin (io_tables w)) (it_users (io_tables w)) = true.
Proof. by vm_compute. Qed.

Definition viewer : Principal := from_fallback "eve" ["policy-viewer"].
Lemma only_administrators_change_witness :
  io_tables (serve_iam ∅ viewer (DeleteUser 2%nat (Some true)) (start tables)).2 = tables.
Proof. by apply (only_administrators_change ∅ viewer (DeleteUser 2%nat (Some true)) (start tables)). Defined.

Definition root : Principal := from_fallback "root" ["policy-admin"].

(** ** Bob's credentials *)

Definition bob_login : result HttpError LocalLoginResponse * Io IamTables Empty_set := login_route auth "bob" "bob-password" (start tables).
Definition bob_user : LocalAuthenticatedUser :=
  {| lu_id := 2%nat; lu_username := Some "bob"; lu_email := "bob@local"; lu_display_name := None;
     lu_access := {| ea_roles := {["policy-admin"]}; ea_permissions := {["iam:manage"]} |};
     lu_must_change_password := false; lu_token_version := 1 |}.
Definition bob_token : string := issue (au_local_jwt auth) bob_user 1000000.

Lemma local_token_round_trip_witness :
  validate_local (au_local_jwt auth) bob_token 2000000 = Ok (local_claims (au_local_jwt auth) bob_user 1000000).
Proof. apply (local_token_round_trip (au_local_jwt auth) bob_user 1000000 2000000); unfold is_i64; by vm_compute. Defined.

Definition bob_caller : Principal := from_effective "bob" User (Some 2%nat) (lu_access bob_user).
Lemma authenticate_sound_witness :
  vouched auth tables 1000000 (Some bob_token) None bob_caller.
Proof.
  apply (authenticate_sound auth (Some bob_token) None (start tables) bob_caller (authenticate auth (Some bob_token) None (start tables)).2).
  - reflexivity.
  - vm_compute. reflexivity.
Defined.

(** Bob logs in; then his password is set, he is enabled again, and somebody else logs in. *)
Definition bob_claims : LocalTokenClaims := local_claims (au_local_jwt auth) bob_user 1000000.
Definition reset : IamRequest := SetUserPassword 2%nat "a-new-password" None.
Definition later : list AdminRequest := [as_static (EnableUser 2%nat); Login "admin" "admin-password"].

Definition bob_row : IamUser := with_attempts 0 None (Some 1000002) 1000002 (person 2%nat "bob" false).
Definition bob_session : RefreshToken :=
  {| rk_id := 101%nat; rk_user_id := 2%nat; rk_token_hash := "shaodr_token100"; rk_token_hint := Some "odr_...n100"; rk_token_version := 1;
     rk_created_at := 1000006; rk_last_used_at := None; rk_expires_at := 4600005; rk_revoked_at := None; rk_revoked_reason := None;
     rk_replaced_by_id := None |}.

(** The tables after requests keep the schema. *)
Lemma run_ok rs t : iam_ok (io_tables t) -> iam_ok (io_tables (serve_all ∅ auth rs t).2).
Proof. intros H. by eapply reached_ok; [apply serve_all_reached|]. Qed.
Lemma logged_in_ok : iam_ok (io_tables bob_login.2).
Proof.
  assert (io_tables bob_login.2 = io_tables (serve_all ∅ auth [Login "bob" "bob-password"] (start tables)).2) as -> by by vm_compute.
  apply run_ok, tables_ok.
Qed.

Lemma revoked_for_good_witness :
  let w := bob_login.2 in
  let w1 := (serve_iam ∅ root reset w).2 in
  let w2 := (serve_all ∅ auth later w1).2 in
  (forall p w3, resolve_local_subject bob_claims w2 <> (Ok p, w3)) /\
  (forall k tokens w3, k ∈ it_refresh_tokens (io_tables w2) -> rk_token_hash k = hash_refresh_token "odr_token100" ->
     rk_user_id k = 2%nat -> rk_token_version k <= 1 -> rotate_refresh_token auth "odr_token100" w2 <> (Ok tokens, w3)).
Proof.
  intros w w1 w2. destruct (revoked_for_good ∅ auth root reset 2%nat bob_row w w1 later) with (w2 := w2) as [H1 H2].
  - apply logged_in_ok.
  - by vm_compute.
  - done.
  - by vm_compute.
  - intros r Hr. unfold later in Hr. each_row; apply not_elem_of_nil.
  - done.
  - by vm_compute.
  - split; [intros p w3; by apply H1|intros k tokens w3; apply H2].
Defined.

Lemma session_used_once_witness :
  let w1 := (serve ∅ auth (Refresh "odr_token100") bob_login.2).2 in
  let w2 := (serve_all ∅ auth later w1).2 in
  is_ok (rotate_refresh_token auth "odr_token100" w2).1 = false.
Proof.
  intros w1 w2. destruct (rotate_refresh_token auth "odr_token100" w2) as [[tokens|e] w3] eqn:E; [exfalso; revert E|done].
  apply (session_used_once auth ∅ (Refresh "odr_token100") "odr_token100" bob_session bob_login.2 w1 later w2 tokens w3).
  - by left.
  - done.
  - apply logged_in_ok.
  - vm_compute. by left.
  - done.
  - by vm_compute.
  - intros q Hq. unfold later in Hq. each_row; apply not_elem_of_nil.
  - done.
  - by vm_compute.
Defined.

Lemma session_limit_witness :
  let w' := (issue_refresh_token auth 2%nat bob_login.2).2 in (length (sessions (io_now w') 2%nat (io_tables w')) <= 2)%nat.
Proof. intros w'. apply (session_limit auth 2%nat bob_login.2 "odr_token103" w'); by vm_compute. Defined.

(** Three wrong passwords and then the right one, a minute later. *)
Lemma wrong_passwords_lock_witness :
  let w1 := (each (fun p => dropped (authenticate_local_user "bob" p 3 900) : IamM unit) ["a"; "b"; "c"] (start tables)).2 in
  let w2 := mkIo (io_now w1 + 60000) None [] 200%nat [] (io_tables w1) in
  exists until, authenticate_local_user "bob" "bob-password" 3 900 w2 = (Err (Locked until), elapse w2).
Proof.
  intros w1 w2.
  apply (wrong_passwords_lock "bob" "#bob-password" (person 2%nat "bob" false) 3 900 ["a"; "b"; "c"] (start tables) "bob-password" w2);
    try by vm_compute.
  repeat constructor.
Defined.

(** ** What the settings and the code leave open *)

(** Bob at the limit of two sessions renews the newer one: the older one is lost as well, although
    the renewal adds none. *)
Example renewal_costs_a_session :
  let w := (login_route auth "bob" "bob-password" bob_login.2).2 in
  let w' := (serve ∅ auth (Refresh "odr_token103") w).2 in
  length (sessions (io_now w) 2%nat (io_tables w)) = 2%nat /\ length (sessions (io_now w') 2%nat (io_tables w')) = 1%nat.
Proof. by vm_compute. Qed.

(** Without an [auth] section in the configuration one wrong password locks an account. *)
Example no_section_locks_at_once :
  default_max_failed_attempts = 5 /\ as_max_failed_attempts (merge_env ∅ derived_settings) = 0 /\
  let w1 := (authenticate_local_user "bob" "wrong" (as_max_failed_attempts (merge_env ∅ derived_settings)) 900 (start tables)).2 in
  exists until, (authenticate_local_user "bob" "bob-password" 0 900 w1).1 = Err (Locked until).
Proof. split_and!; [done..|]. eexists. by vm_compute. Qed.

(** A provider's token that says nothing about roles is given them all, and one that says nothing
    about expiry does not expire. *)
Example claims_without_roles c : cl_roles c = None -> cl_scope c = None -> compute_roles c = default_static_roles.
Proof. unfold compute_roles. by intros -> ->. Qed.
Example claims_without_expiry c issuer audience now :
  cl_iss c = issuer -> cl_aud c = Some audience -> cl_exp c = None -> validate_claims c issuer audience now = Ok tt.
Proof. unfold validate_claims. intros -> -> ->. by rewrite !bool_decide_eq_true_2. Qed.

(** A password with a space at its end is stored without it, and then refused as it was typed. *)
Example trailing_space_locks_out :
  let p := {| cu_username := "carol"; cu_subject := None; cu_email := None; cu_display_name := None; cu_status := None;
              cu_password := "long-password "; cu_must_change_password := None |} in
  let w := (serve ∅ auth (as_static (CreateUser p)) (start tables)).2 in
  (authenticate_local_user "carol" "long-password " 3 900 w).1 = Err InvalidCredentials /\
  is_ok (authenticate_local_user "carol" "long-password" 3 900 w).1 = true.
Proof. by vm_compute. Qed.

(** A group renamed to nothing comes first in the listing, and the cursor after it leads to it again. *)
Definition unnamed : IamTables :=
  set_groups [ops; {| ig_id := 21%nat; ig_name := ""; ig_description := None; ig_status := "active"; ig_created_at := 0; ig_updated_at := 0 |}] tables.
Definition page_of (cursor : option string) : option (list string * option string) :=
  match (list_groups_route root (Some 1) cursor (start unnamed)).1 with
  | Ok (page, _) => Some (ig_name <$> cp_data page, cp_next_cursor page)
  | Err _ => None
  end.
Definition first_cursor : string := match page_of None with Some (_, Some c) => c | _ => "" end.
Example unnamed_group_loops :
  page_of None = Some ([""], Some first_cursor) /\ page_of (Some first_cursor) = Some ([""], Some first_cursor).
Proof. split; vm_compute; reflexivity. Qed.

End AccessDemo.
