(* ===== verification/Activation.v ===== *)
(** * Taxonomy activation profiles

    [crates/taxonomy/src/activation.rs]: which categories and subcategories are enabled, loaded
    from the database and refreshed in the background.  The [RwLock] holds one
    [ActivationProfile]; an operation that takes it for writing is a function to the new
    profile. *)

From S2P Require Import Prelude RustStr Types Db.

Definition CATEGORY_SENTINEL_ID : string := "__CATEGORY__".

Record ActivationProfile := {
  act_id : Uuid;
  act_version : string;
  act_updated_at : Z;
  act_category_states : gmap string bool;
  act_subcategory_states : gmap string (gmap string bool);
  act_default_enabled : bool
}.

Section Activation.
  Context `{J : SerdeJson}.

(** ** Operations *)

Definition is_enabled (p : ActivationProfile) (category_id : string)
    (subcategory_id : option string) : bool :=
  match sub_id ← subcategory_id;
        subs ← act_subcategory_states p !! category_id; (subs : gmap string bool) !! sub_id with
  | Some state => state
  | None => default (act_default_enabled p) (act_category_states p !! category_id)
  end.

Definition allow_all (now : Z) : ActivationProfile :=
  {| act_id := 0; act_version := "allow-all"; act_updated_at := now;
     act_category_states := ∅; act_subcategory_states := ∅; act_default_enabled := true |}.

Definition deny_all (now : Z) : ActivationProfile :=
  {| act_id := 0; act_version := "deny-all"; act_updated_at := now;
     act_category_states := ∅; act_subcategory_states := ∅; act_default_enabled := false |}.

Definition from_maps (now : Z) (category_states : gmap string bool)
    (subcategory_states : gmap string (gmap string bool)) (default_enabled : bool)
    : ActivationProfile :=
  {| act_id := 0; act_version := "static"; act_updated_at := now;
     act_category_states := category_states; act_subcategory_states := subcategory_states;
     act_default_enabled := default_enabled |}.

(** The loop over the entries of a profile. *)
Definition add_entry (st : gmap string bool * gmap string (gmap string bool)) (entry : EntryRow)
    : gmap string bool * gmap string (gmap string bool) :=
  if decide (ae_subcategory_id entry = CATEGORY_SENTINEL_ID) then
    (<[ae_category_id entry := ae_enabled entry]> st.1, st.2)
  else
    (st.1,
     <[ae_category_id entry :=
         <[ae_subcategory_id entry := ae_enabled entry]> (default ∅ (st.2 !! ae_category_id entry))]> st.2).

Definition load_from_db : DbM ActivationProfile :=
  row ← select (fun db => head (order_desc ap_updated_at (db_profiles db)));
  match row with
  | None => lift (Err "taxonomy activation profile not found")
  | Some row =>
      entries ← select (fun db => filter (fun e => ae_profile_id e = ap_id row) (db_entries db));
      let states := foldl add_entry (∅, ∅) entries in
      mret {| act_id := ap_id row; act_version := ap_version row; act_updated_at := ap_updated_at row;
              act_category_states := states.1; act_subcategory_states := states.2;
              act_default_enabled := false |}
  end.

(** [replace_if_new]: the profile held afterwards, and the version when it was replaced. *)
Definition replace_if_new (guard profile : ActivationProfile) : ActivationProfile * option string :=
  if decide (act_updated_at guard < act_updated_at profile)%Z then (profile, Some (act_version profile))
  else if decide (act_id profile <> act_id guard) then (profile, Some (act_version profile))
  else (guard, None).

(** [refresh_from_db]: on an error the held profile is unchanged. *)
Definition refresh_from_db (guard : ActivationProfile) (db : Db)
    : result string bool * ActivationProfile * Db :=
  match load_from_db db with
  | (Ok profile, db') =>
      let '(guard', version) := replace_if_new guard profile in
      (Ok (bool_decide (is_Some version)), guard', db')
  | (Err e, db') => (Err e, guard, db')
  end.

(** One turn of the refresh task's loop: errors are logged and dropped. *)
Definition refresh_turn (s : ActivationProfile * Db) : ActivationProfile * Db :=
  let '(_, guard', db') := refresh_from_db s.1 s.2 in (guard', db').

(** ** Properties *)

(** A subcategory's own state decides; without one the category's decides; without either the
    profile's default does. *)
Theorem is_enabled_precedence p c s :
  is_enabled p c s =
  match s with
  | Some sub =>
      match act_subcategory_states p !! c with
      | Some subs =>
          match subs !! sub with
          | Some state => state
          | None => is_enabled p c None
          end
      | None => is_enabled p c None
      end
  | None =>
      match act_category_states p !! c with
      | Some state => state
      | None => act_default_enabled p
      end
  end.
Proof.
  unfold is_enabled. destruct s as [sub|]; cbn; [|done].
  destruct (act_subcategory_states p !! c) as [subs|]; cbn; [|done].
  by destruct (subs !! sub).
Qed.

Lemma deny_all_denies now c s : is_enabled (deny_all now) c s = false.
Proof.
  unfold is_enabled. destruct s; cbn; [|by rewrite lookup_empty].
  rewrite lookup_empty. cbn. by rewrite lookup_empty.
Qed.
Lemma allow_all_allows now c s : is_enabled (allow_all now) c s = true.
Proof.
  unfold is_enabled. destruct s; cbn; [|by rewrite lookup_empty].
  rewrite lookup_empty. cbn. by rewrite lookup_empty.
Qed.

(** The state of [(c, s)] that the entries give: that of the last entry for it. *)
Definition entry_for (c s : string) (e : EntryRow) : Prop :=
  ae_category_id e = c /\ ae_subcategory_id e = s.
Global Instance entry_for_dec c s e : Decision (entry_for c s e).
Proof. unfold entry_for. apply _. Defined.
Definition last_entry (c s : string) (l : list EntryRow) : option bool :=
  ae_enabled <$> last (filter (entry_for c s) l).

Definition states_of (st : gmap string bool * gmap string (gmap string bool)) (c s : string) : option bool :=
  if decide (s = CATEGORY_SENTINEL_ID) then st.1 !! c
  else subs ← st.2 !! c; (subs : gmap string bool) !! s.

Lemma states_of_add st e c s :
  states_of (add_entry st e) c s =
  if decide (entry_for c s e) then Some (ae_enabled e) else states_of st c s.
Proof.
  unfold states_of, add_entry, entry_for.
  destruct (decide (ae_subcategory_id e = CATEGORY_SENTINEL_ID)) as [He|He]; cbn.
  - case_decide as Hs; [subst s|].
    + rewrite lookup_insert. repeat case_decide; naive_solver.
    + case_decide as Hc; [|done]. destruct Hc as [_ <-]. done.
  - case_decide as Hs; [subst s|].
    + rewrite decide_False; [done|]. by intros [_ ?].
    + rewrite lookup_insert. repeat case_decide; try naive_solver; cbn; subst.
      * rewrite lookup_insert. rewrite decide_True by naive_solver. done.
      * rewrite lookup_insert_ne by naive_solver.
        destruct (st.2 !! ae_category_id e); [done|cbn; by rewrite lookup_empty].
Qed.

Lemma states_of_fold l st c s :
  states_of (foldl add_entry st l) c s =
  match last_entry c s l with Some b => Some b | None => states_of st c s end.
Proof.
  revert st; induction l as [|e l IH] using rev_ind; intros st; [done|].
  rewrite foldl_app. cbn [foldl]. rewrite states_of_add, IH. unfold last_entry.
  rewrite filter_app, filter_cons, filter_nil. case_decide as He.
  - cbn. by rewrite last_snoc.
  - cbn. by rewrite app_nil_r.
Qed.

Lemma states_of_fold_empty l c s : states_of (foldl add_entry (∅, ∅) l) c s = last_entry c s l.
Proof.
  rewrite states_of_fold. destruct (last_entry c s l); [done|].
  unfold states_of; cbn. case_decide; by rewrite lookup_empty.
Qed.

(** The sentinel is no subcategory. *)
Lemma no_sentinel_state l c subs :
  (foldl add_entry (∅, ∅) l).2 !! c = Some subs -> (subs : gmap string bool) !! CATEGORY_SENTINEL_ID = None.
Proof.
  revert c subs. induction l as [|e l IH] using rev_ind; intros c subs; [intros H; cbn in H; by rewrite lookup_empty in H|].
  rewrite foldl_app. cbn [foldl]. set (st := foldl add_entry (∅, ∅) l) in *. unfold add_entry.
  case_decide as He; cbn [snd]; [apply IH|]. intros [[<- <-]|[_ H]]%lookup_insert_Some; [|by eapply IH].
  rewrite lookup_insert_ne by done. destruct (st.2 !! ae_category_id e) as [m|] eqn:E; [by eapply IH|apply lookup_empty].
Qed.

(** What a loaded profile answers: from the newest profile row's entries, the subcategory's
    entry if it has one, else the category's sentinel entry, and disabled when there is neither
    (a category the profile does not list is blocked). *)
Theorem load_from_db_enabled db row :
  healthy db -> head (order_desc ap_updated_at (db_profiles db)) = Some row ->
  let entries := filter (fun e => ae_profile_id e = ap_id row) (db_entries db) in
  exists p, load_from_db db = (Ok p, tick (tick db)) /\
    act_id p = ap_id row /\ act_updated_at p = ap_updated_at row /\
    forall c, is_enabled p c None = default false (last_entry c CATEGORY_SENTINEL_ID entries) /\
      forall s, is_enabled p c (Some s) =
        match last_entry c s entries with
        | Some b => b
        | None => default false (last_entry c CATEGORY_SENTINEL_ID entries)
        end.
Proof.
  intros Hh Hrow entries. unfold load_from_db.
  rewrite (dbm_bind_ok _ _ _ _ _ (select_healthy _ _ Hh)). cbn [db_profiles tick]. rewrite Hrow.
  rewrite (dbm_bind_ok _ _ _ _ _ (select_healthy _ _ (healthy_tick _ Hh))). cbn [db_entries tick].
  fold entries. eexists. split; [done|]. split_and!; [done..|]. intros c.
  assert ((foldl add_entry (∅, ∅) entries).1 !! c = last_entry c CATEGORY_SENTINEL_ID entries) as H1.
  { pose proof (states_of_fold_empty entries c CATEGORY_SENTINEL_ID) as H.
    unfold states_of in H. by rewrite decide_True in H. }
  unfold is_enabled. cbn. rewrite H1. split; [done|]. intros s.
  destruct (decide (s = CATEGORY_SENTINEL_ID)) as [->|Hs].
  - destruct ((foldl add_entry (∅, ∅) entries).2 !! c) as [subs|] eqn:E; cbn;
      [rewrite (no_sentinel_state _ _ _ E)|]; by destruct (last_entry c CATEGORY_SENTINEL_ID entries).
  - pose proof (states_of_fold_empty entries c s) as H2. unfold states_of in H2.
    rewrite decide_False in H2 by done.
    destruct ((foldl add_entry (∅, ∅) entries).2 !! c) as [subs|]; cbn in *; by rewrite <- H2.
Qed.

Lemma refresh_turn_step q db :
  (act_updated_at q <= act_updated_at (refresh_turn (q, db)).1)%Z \/
  act_id (refresh_turn (q, db)).1 <> act_id q.
Proof.
  unfold refresh_turn, refresh_from_db. cbn [fst snd].
  destruct (load_from_db db) as [[q'|e] db']; cbn; [|by left].
  unfold replace_if_new. case_decide; cbn; [left; lia|]. case_decide; cbn; auto. by left.
Qed.

(** Refreshing never goes back in time on one profile: after any number of turns of the
    refresh task, with any failures, the held profile is either of another id or at least as new,
    and a turn whose load fails keeps the profile held before. *)
Theorem refresh_monotone n p db :
  let p' := (Nat.iter n refresh_turn (p, db)).1 in
  (act_updated_at p <= act_updated_at p')%Z \/ act_id p' <> act_id p \/
  exists k, k < n /\ act_id (Nat.iter k refresh_turn (p, db)).1 <> act_id p.
Proof.
  cbv zeta. induction n as [|n IH]; [left; cbn; lia|]. rewrite Nat.iter_succ.
  destruct (Nat.iter n refresh_turn (p, db)) as [q qdb] eqn:E. cbn in IH.
  destruct IH as [Hle|[Hid|(k & Hk & Hid)]]; [|right; right; exists n; rewrite E; split; [lia|done]|
    right; right; exists k; split; [lia|done]].
  destruct (decide (act_id q = act_id p)) as [Hqp|Hqp].
  - destruct (refresh_turn_step q qdb) as [?|?]; [left; lia|right; left; congruence].
  - right; right. exists n. split; [lia|]. by rewrite E.
Qed.

End Activation.

(** ** Witness *)

Definition demo_profile : ProfileRow := {| ap_id := 7; ap_version := "v1"; ap_updated_at := 10 |}.
Definition demo_db : @Db DbDemo.json :=
  DbDemo.with_activation [demo_profile]
    [{| ae_profile_id := 7; ae_category_id := "news-media"; ae_subcategory_id := CATEGORY_SENTINEL_ID;
        ae_enabled := true |};
     {| ae_profile_id := 7; ae_category_id := "news-media"; ae_subcategory_id := "tabloids";
        ae_enabled := false |}] DbDemo.empty.

Lemma load_from_db_enabled_witness :
  exists p, load_from_db demo_db = (Ok p, tick (tick demo_db)) /\
    is_enabled p "news-media" (Some "tabloids") = false /\ is_enabled p "news-media" None = true.
Proof.
  destruct (load_from_db_enabled demo_db demo_profile) as (p & Hp & _ & _ & H).
  - constructor.
  - reflexivity.
  - exists p. split; [exact Hp|]. destruct (H "news-media") as [H1 H2].
    split; [rewrite H2|rewrite H1]; vm_compute; reflexivity.
Defined.
