(* ===== verification/LlmWorker.v ===== *)
(** * The LLM worker

    [workers/llm-worker/src/main.rs], [JobConsumer] and [PendingReconciler]: taking classification
    jobs from the queue, calling providers with retries, fallback and stale diversion, the
    guardrails on what they answer, storing the classification, and requeueing.

    The state is the admin database's tables the worker writes, its Redis markers, budgets and
    cached provider health, a clock in milliseconds, and a trace of what it sends.  A statement or
    command takes a millisecond and may fail ([lw_faults] is the script of which do; a connection
    that cannot be opened is a failed command).  [page_contents] is the table the page fetcher
    writes, as a function of time.  The background refresh of the activation profile happens
    between jobs.  Metrics are left out. *)

From S2P Require Import Prelude RustStr RustNum Types Json Db Taxonomy Activation LlmAnswer LlmBudget LlmConfig LlmProvider.

Local Open Scope Z_scope.

(** ** State *)

(** A row of [classification_requests], found by its key. *)
Record PendingRequest := {
  pq_status : string;
  pq_base_url : option string;
  pq_last_error : option string;
  pq_requested_at : Z;
  pq_updated_at : Z
}.
(** A row of [classifications], found by its unique normalized key. *)
Record StoredClassification := {
  sc_id : Uuid;
  sc_taxonomy_version : string;
  sc_model_version : string;
  sc_primary_category : string;
  sc_subcategory : string;
  sc_risk_level : string;
  sc_recommended_action : string;
  sc_confidence : float;
  sc_sfw : bool;
  sc_flags : list (string * Json);
  sc_ttl_seconds : Z;
  sc_status : string;
  sc_next_refresh_at : Z;
  sc_updated_at : Z
}.
Record ClassificationVersion := {
  cve_classification_id : Uuid;
  cve_version : Z;
  cve_changed_by : option string;
  cve_reason : option string;
  cve_payload : Json
}.
Record PageContentRow := {
  pg_normalized_key : string;
  pg_fetch_version : Z;
  pg_fetch_status : string;
  pg_text_excerpt : option string;
  pg_content_hash : option string;
  pg_expires_at : Z
}.

Inductive LlmEffect :=
  | XAdd (stream payload : string)
  | Del (key : string)
  | Publish (channel payload : string)
  | Sent (provider : string) (request : HttpRequest)
  | DeadLetter (entry_id reason : string) (payload : option string)
  | Ack (entry_id : string).

Record LlmWorld := {
  lw_now : Z;
  lw_faults : list bool;
  lw_requests : gmap string PendingRequest;
  lw_classifications : gmap string StoredClassification;
  lw_versions : list ClassificationVersion;
  lw_next_uuid : Uuid;
  lw_markers : gmap string Z;
  lw_fallback_budget : FallbackBudgetState;
  lw_stale_divert_budget : WindowBudgetState;
  lw_provider_health : gmap string (Z * bool);
  lw_sent : nat;
  lw_trace : list LlmEffect
}.

(** The tables, and what else the worker keeps. *)
Definition set_requests (r : gmap string PendingRequest) (w : LlmWorld) : LlmWorld :=
  {| lw_now := lw_now w; lw_faults := lw_faults w; lw_requests := r; lw_classifications := lw_classifications w;
     lw_versions := lw_versions w; lw_next_uuid := lw_next_uuid w; lw_markers := lw_markers w;
     lw_fallback_budget := lw_fallback_budget w; lw_stale_divert_budget := lw_stale_divert_budget w;
     lw_provider_health := lw_provider_health w; lw_sent := lw_sent w; lw_trace := lw_trace w |}.
Definition set_classifications (c : gmap string StoredClassification) (v : list ClassificationVersion)
    (n : Uuid) (w : LlmWorld) : LlmWorld :=
  {| lw_now := lw_now w; lw_faults := lw_faults w; lw_requests := lw_requests w; lw_classifications := c;
     lw_versions := v; lw_next_uuid := n; lw_markers := lw_markers w;
     lw_fallback_budget := lw_fallback_budget w; lw_stale_divert_budget := lw_stale_divert_budget w;
     lw_provider_health := lw_provider_health w; lw_sent := lw_sent w; lw_trace := lw_trace w |}.
Definition set_markers (m : gmap string Z) (w : LlmWorld) : LlmWorld :=
  {| lw_now := lw_now w; lw_faults := lw_faults w; lw_requests := lw_requests w;
     lw_classifications := lw_classifications w; lw_versions := lw_versions w; lw_next_uuid := lw_next_uuid w;
     lw_markers := m; lw_fallback_budget := lw_fallback_budget w;
     lw_stale_divert_budget := lw_stale_divert_budget w; lw_provider_health := lw_provider_health w;
     lw_sent := lw_sent w; lw_trace := lw_trace w |}.
Definition set_budgets (f : FallbackBudgetState) (d : WindowBudgetState) (h : gmap string (Z * bool))
    (w : LlmWorld) : LlmWorld :=
  {| lw_now := lw_now w; lw_faults := lw_faults w; lw_requests := lw_requests w;
     lw_classifications := lw_classifications w; lw_versions := lw_versions w; lw_next_uuid := lw_next_uuid w;
     lw_markers := lw_markers w; lw_fallback_budget := f; lw_stale_divert_budget := d; lw_provider_health := h;
     lw_sent := lw_sent w; lw_trace := lw_trace w |}.
Definition set_clock (now : Z) (faults : list bool) (sent : nat) (trace : list LlmEffect) (w : LlmWorld) : LlmWorld :=
  {| lw_now := now; lw_faults := faults; lw_requests := lw_requests w;
     lw_classifications := lw_classifications w; lw_versions := lw_versions w; lw_next_uuid := lw_next_uuid w;
     lw_markers := lw_markers w; lw_fallback_budget := lw_fallback_budget w;
     lw_stale_divert_budget := lw_stale_divert_budget w; lw_provider_health := lw_provider_health w;
     lw_sent := sent; lw_trace := trace |}.

(** ** Computations *)

(** How a job fails: the errors the code tells apart by [downcast_ref], and any other.  A panic
    would end the task; no run of a validated taxonomy has one. *)
Inductive JobError :=
  | ContentNotReady
  | RetryableJobError (reason : string)
  | NonRetryableJobError (reason : string)
  | OtherError (text : string)
  | Panicked.

Definition job_error_text (e : JobError) : string :=
  match e with
  | ContentNotReady => "page content not ready"
  | RetryableJobError r | NonRetryableJobError r | OtherError r => r
  | Panicked => ""
  end.

Definition W (E A : Type) : Type := LlmWorld -> result E A * LlmWorld.
Global Instance w_ret E : MRet (W E) := fun A a w => (Ok a, w).
Global Instance w_bind E : MBind (W E) := fun A B f m w =>
  match m w with
  | (Ok a, w') => f a w'
  | (Err e, w') => (Err e, w')
  end.
Definition w_lift {E A} (r : result E A) : W E A := fun w => (r, w).
Definition now : forall {E}, W E Z := fun E w => (Ok (lw_now w), w).
(** [tokio::time::sleep]. *)
Definition sleep {E} (ms : Z) : W E unit := fun w =>
  (Ok tt, set_clock (lw_now w + ms) (lw_faults w) (lw_sent w) (lw_trace w) w).
Definition emit {E} (e : LlmEffect) : W E unit := fun w =>
  (Ok tt, set_clock (lw_now w) (lw_faults w) (lw_sent w) (lw_trace w ++ [e]) w).

(** One statement or command. *)
Definition io {A} (f : LlmWorld -> A * LlmWorld) : W JobError A := fun w =>
  let w' := set_clock (lw_now w + 1) (tail (lw_faults w)) (lw_sent w) (lw_trace w) w in
  match lw_faults w with
  | true :: _ => (Err (OtherError DB_ERROR), w')
  | _ => let '(a, w'') := f w' in (Ok a, w'')
  end.
Definition query {A} (f : LlmWorld -> A) : W JobError A := io (fun w => (f w, w)).
Definition exec (f : LlmWorld -> LlmWorld) : W JobError unit := io (fun w => (tt, f w)).
Definition redis_effect (e : LlmEffect) : W JobError unit :=
  io (fun w => (tt, set_clock (lw_now w) (lw_faults w) (lw_sent w) (lw_trace w ++ [e]) w)).
(** [let _ = ..]: the outcome is dropped. *)
Definition ignore {E F A} (m : W E A) : W F unit := fun w => (Ok tt, (m w).2).
(** The outcome as a value: [match m.await { Ok .. Err .. }]. *)
Definition attempt {E F A} (m : W E A) : W F (result E A) := fun w => let '(r, w') := m w in (Ok r, w').
(** [.context(text)?]: the text replaces that of an error, which can still be told apart. *)
Definition with_context {A} (text : string) (m : W JobError A) : W JobError A := fun w =>
  let '(r, w') := m w in
  (map_err (fun e => match e with OtherError _ => OtherError text | _ => e end) r, w').

Record JobConsumer := {
  jc_stream : string;
  jc_page_fetch_stream : string;
  jc_cache_channel : string;
  jc_router : ProviderRouter;
  jc_taxonomy : TaxonomyStore;
  jc_activation : ActivationProfile;
  jc_failover : FailoverRuntime;
  jc_stale_pending : option StalePendingRuntime;
  jc_online_context : OnlineContextRuntime;
  jc_prompt_injection : PromptInjectionRuntime;
  jc_max_requeue_attempts : Z;
  jc_idempotency_ttl_seconds : Z
}.

Definition JobConsumer_new (env : gmap string string) (cfg : WorkerConfig) (router : ProviderRouter)
    (stale_pending : option StalePendingRuntime) (online_context : OnlineContextRuntime)
    (taxonomy : TaxonomyStore) (activation : ActivationProfile) (failover : FailoverRuntime)
    (prompt_injection : PromptInjectionRuntime) : JobConsumer :=
  {| jc_stream := wc_stream cfg; jc_page_fetch_stream := wc_page_fetch_stream cfg;
     jc_cache_channel := wc_cache_channel cfg; jc_router := router; jc_taxonomy := taxonomy;
     jc_activation := activation; jc_failover := failover; jc_stale_pending := stale_pending;
     jc_online_context := online_context; jc_prompt_injection := prompt_injection;
     jc_max_requeue_attempts :=
       Z.max 1 (or_default (env_usize env "OD_LLM_JOB_REQUEUE_MAX") (rc_requeue_max_attempts (wc_routing cfg)) 6);
     jc_idempotency_ttl_seconds := Z.max 60 (default 86400 (env_usize env "OD_LLM_IDEMPOTENCY_TTL_SECONDS")) |}.

Definition page_fetch_to_json (j : PageFetchJob) : Json :=
  JObj ([("normalized_key", JStr (pfj_normalized_key j)); ("url", JStr (pfj_url j)); ("hostname", JStr (pfj_hostname j))] ++
        (if decide (pfj_candidate_urls j = []) then [] else [("candidate_urls", JArr (JStr <$> pfj_candidate_urls j))]) ++
        field_opt "trace_id" JStr (pfj_trace_id j) ++ field_opt "idempotency_key" JStr (pfj_idempotency_key j) ++
        field_opt "ttl_seconds" JInt (pfj_ttl_seconds j)).

Section Worker.
  Context `{U : Unicode} `{T : JsonText} `{N : HttpNet}.
  Context (page_contents : Z -> list PageContentRow) (c : JobConsumer).

(** [serde_json::from_str::<ClassificationJobPayload>]. *)
Definition job_from_str (payload : string) : result string ClassificationJobPayload :=
  v ← json_parse payload; job_from_json v.

(** ** Pending requests *)

Definition upsert_pending (j : ClassificationJobPayload) (status : string) (error : option string) (w : LlmWorld)
    : LlmWorld :=
  let base_url := Some (default (cj_full_url j) (cj_base_url j)) in
  let row :=
    match lw_requests w !! cj_normalized_key j with
    | Some old => {| pq_status := status; pq_base_url := base_url; pq_last_error := error;
                     pq_requested_at := pq_requested_at old; pq_updated_at := lw_now w |}
    | None => {| pq_status := status; pq_base_url := base_url; pq_last_error := error;
                 pq_requested_at := lw_now w; pq_updated_at := lw_now w |}
    end in
  set_requests (<[cj_normalized_key j := row]> (lw_requests w)) w.

Definition mark_pending (j : ClassificationJobPayload) (status : string) (error : option string) : W JobError unit :=
  exec (upsert_pending j status error).

Definition pending_age_seconds (key : string) : W JobError (option Z) :=
  query (fun w => (fun r => Z.max 0 (lw_now w - pq_requested_at r)) <$> lw_requests w !! key).

Definition clear_pending (key : string) : W JobError unit :=
  _ ← pending_age_seconds key;
  exec (fun w => set_requests (delete key (lw_requests w)) w).

Definition stale_pending_age_minutes (key : string) (threshold_minutes : Z) : W JobError (option Z) :=
  row ← query (fun w =>
    r ← lw_requests w !! key;
    if decide (pq_status r = "waiting_content") then Some ((lw_now w - pq_requested_at r) / 60000) else None);
  mret match row with
       | None => None
       | Some age_minutes => if decide (age_minutes < as_i64 threshold_minutes) then None else Some (Z.max 0 age_minutes)
       end.

(** ** Page content *)

Record PageContentSnippet := { sn_excerpt : option string; sn_hash : option string; sn_version : option Z }.

Definition load_page_content (key : string) : W JobError (option PageContentSnippet) :=
  query (fun w =>
    (fun r => {| sn_excerpt := pg_text_excerpt r; sn_hash := pg_content_hash r; sn_version := Some (pg_fetch_version r) |}) <$>
    head (order_desc pg_fetch_version (List.filter (fun r =>
      bool_decide (pg_normalized_key r = key) && bool_decide (to_ascii_lowercase (pg_fetch_status r) = "ok") &&
      bool_decide (lw_now w < pg_expires_at r)) (page_contents (lw_now w))))).

Record PageFetchState := { fs_latest_status : option string; fs_failure_count : Z }.

Definition load_page_fetch_state (key : string) : W JobError PageFetchState :=
  latest ← query (fun w =>
    head (order_desc pg_fetch_version (List.filter (fun r => bool_decide (pg_normalized_key r = key)) (page_contents (lw_now w)))));
  let latest_status :=
    row ← latest;
    let status := to_ascii_lowercase (trim (pg_fetch_status row)) in if is_empty status then None else Some status in
  failure_count ← query (fun w =>
    Z.of_nat (length (List.filter (fun r =>
      bool_decide (pg_normalized_key r = key) &&
      bool_decide (to_ascii_lowercase (pg_fetch_status r) ∈ oc_metadata_only_no_content_statuses (jc_online_context c)))
      (page_contents (lw_now w)))));
  mret {| fs_latest_status := latest_status; fs_failure_count := failure_count |}.

(** [for _ in 0..CONTENT_WAIT_ATTEMPTS]. *)
Fixpoint await_page_content (attempts : nat) (key : string) : W JobError PageContentSnippet :=
  match attempts with
  | O => w_lift (Err ContentNotReady)
  | S attempts' =>
      snippet ← load_page_content key;
      match snippet with
      | Some s => mret s
      | None => _ ← sleep 3000; await_page_content attempts' key
      end
  end.
Definition CONTENT_WAIT_ATTEMPTS : nat := 40.

Definition enrich_job_with_content (j : ClassificationJobPayload) (require_content : bool)
    : W JobError ClassificationJobPayload :=
  if require_content then
    s ← await_page_content CONTENT_WAIT_ATTEMPTS (cj_normalized_key j);
    mret (set_content (sn_excerpt s) (sn_hash s) (sn_version s) None j)
  else if has_content (cj_content_excerpt j) && bool_decide (is_Some (cj_content_hash j)) &&
          bool_decide (is_Some (cj_content_version j)) then mret j
  else
    snippet ← load_page_content (cj_normalized_key j);
    mret match snippet with
         | Some s =>
             set_content
               (if has_content (cj_content_excerpt j) then cj_content_excerpt j else sn_excerpt s)
               (match cj_content_hash j with Some h => Some h | None => sn_hash s end)
               (match cj_content_version j with Some v => Some v | None => sn_version s end)
               (cj_content_language j) j
         | None => j
         end.

(** ** What a provider is sent *)

Record ProviderRequestPlan := {
  pl_require_content : bool;
  pl_send_excerpt : bool;
  pl_metadata_only_reason : option string
}.

Definition metadata_only_fetch_failure_reason (j : ClassificationJobPayload) : W JobError (option string) :=
  state ← load_page_fetch_state (cj_normalized_key j);
  let has_terminal_status :=
    match fs_latest_status state with
    | Some status => bool_decide (status ∈ oc_metadata_only_no_content_statuses (jc_online_context c))
    | None => false
    end in
  mret (if has_terminal_status &&
           bool_decide (as_i64 (oc_metadata_only_fetch_failure_threshold (jc_online_context c)) <= fs_failure_count state)
        then Some "fetch_failed_threshold" else None).

Definition provider_request_plan (p : ResolvedProvider) (j : ClassificationJobPayload) : W JobError ProviderRequestPlan :=
  let metadata_only_allowed :=
    match oc_metadata_only_allowed_for (jc_online_context c) with
    | AllowedAll => true
    | AllowedOnline => is_online_provider p
    end in
  reason ← (if cj_requires_content j && metadata_only_allowed then metadata_only_fetch_failure_reason j else mret None);
  mret match reason with
       | Some reason => {| pl_require_content := false; pl_send_excerpt := true; pl_metadata_only_reason := Some reason |}
       | None =>
           if negb (is_online_provider p) then
             {| pl_require_content := cj_requires_content j; pl_send_excerpt := true; pl_metadata_only_reason := None |}
           else
             let require_content :=
               match oc_content_required_mode (jc_online_context c) with
               | ContentRequired => cj_requires_content j
               | ContentAuto => false
               end in
             match oc_mode (jc_online_context c) with
             | ContextRequired | ContextPreferred =>
                 {| pl_require_content := require_content; pl_send_excerpt := true; pl_metadata_only_reason := None |}
             | ContextMetadataOnly =>
                 {| pl_require_content := false; pl_send_excerpt := false; pl_metadata_only_reason := Some "mode_forced" |}
             end
       end.

(** The request's job and prompt, and how it was made. *)
Record Prepared := {
  pp_job : ClassificationJobPayload;
  pp_prompt : string;
  pp_context_mode : PromptContextMode;
  pp_excerpt_sent : bool;
  pp_metadata_only_reason : option string
}.

Definition taxonomy_prompt : string := build_taxonomy_prompt (ts_taxonomy (jc_taxonomy c)).

Definition prepare (j : ClassificationJobPayload) (retry_instruction : option string) (mode : PromptContextMode)
    (excerpt_sent : bool) (reason : option string) : Prepared :=
  {| pp_job := j; pp_prompt := build_prompt j taxonomy_prompt retry_instruction mode;
     pp_context_mode := mode; pp_excerpt_sent := excerpt_sent; pp_metadata_only_reason := reason |}.

Definition prepare_provider_request (base_job : ClassificationJobPayload) (p : ResolvedProvider)
    (retry_instruction : option string) : W JobError Prepared :=
  plan ← provider_request_plan p base_job;
  j ← enrich_job_with_content base_job (pl_require_content plan);
  mret (if pl_send_excerpt plan && has_content (cj_content_excerpt j)
        then prepare j retry_instruction WithExcerpt true None
        else
          let reason :=
            match pl_metadata_only_reason plan with
            | Some r => r
            | None => if pl_send_excerpt plan then "missing_excerpt" else "mode_forced"
            end in
          prepare (set_content None None None None j) retry_instruction MetadataOnly false (Some reason)).

Definition prepare_online_verification_request (base_job : ClassificationJobPayload)
    (retry_instruction : option string) : Prepared :=
  prepare (set_requires_content false (set_content None None None None base_job)) retry_instruction MetadataOnly false
    (Some "local_output_invalid_online_verification").

(** ** Calling providers *)

Definition send (p : ResolvedProvider) (request : HttpRequest) : W InvokeError LlmResponse := fun w =>
  let '(elapsed, reply) := http_send (lw_sent w) request in
  (read_reply (rp_kind p) reply,
   set_clock (lw_now w + Z.max 0 elapsed) (lw_faults w) (S (lw_sent w)) (lw_trace w ++ [Sent (rp_name p) request]) w).

Definition invoke_llm (p : ResolvedProvider) (j : ClassificationJobPayload) (prompt : string) : W InvokeError LlmResponse :=
  request ← w_lift (provider_request p j prompt); send p request.

(** The loop of [invoke_primary_with_retry] at attempt number [n], with [remaining] attempts after it. *)
Fixpoint invoke_attempts (p : ResolvedProvider) (j : ClassificationJobPayload) (prompt : string) (n : Z)
    (remaining : nat) : W InvocationFailure LlmResponse :=
  r ← attempt (invoke_llm p j prompt);
  match r with
  | Ok response => mret response
  | Err e =>
      let failure := classify_invocation_failure e (jc_failover c) in
      match remaining with
      | O => w_lift (Err failure)
      | S remaining' =>
          if decide (if_class failure = NonRetryable) then w_lift (Err failure)
          else
            _ ← sleep (calculate_retry_backoff_ms (jc_failover c) n);
            invoke_attempts p j prompt (n + 1) remaining'
      end
  end.

Definition max_attempts : nat := Z.to_nat (Z.max (fr_primary_retry_max (jc_failover c)) 1).

Definition invoke_primary_with_retry (p : ResolvedProvider) (j : ClassificationJobPayload) (prompt : string)
    : W InvocationFailure LlmResponse :=
  invoke_attempts p j prompt 1 (pred max_attempts).

Definition should_attempt_fallback (failure : InvocationFailure) : bool :=
  if if_output_invalid failure then true
  else match fr_policy (jc_failover c) with
       | Disabled => false
       | Aggressive => true
       | Safe => bool_decide (if_class failure = Retryable)
       end.

(** A verdict with the provider that gave it and how it was asked. *)
Record Answered := {
  an_verdict : LlmResponse;
  an_provider : string;
  an_context_mode : PromptContextMode;
  an_excerpt_sent : bool;
  an_metadata_only_reason : option string
}.

Definition answered (r : LlmResponse) (p : ResolvedProvider) (q : Prepared) : Answered :=
  {| an_verdict := r; an_provider := rp_name p; an_context_mode := pp_context_mode q;
     an_excerpt_sent := pp_excerpt_sent q; an_metadata_only_reason := pp_metadata_only_reason q |}.

Definition insufficient_evidence (reason : string) : Answered :=
  {| an_verdict := synthesize_insufficient_evidence_verdict; an_provider := "terminal-insufficient-evidence";
     an_context_mode := MetadataOnly; an_excerpt_sent := false; an_metadata_only_reason := Some reason |}.

Definition job_error (class : InvocationFailureClass) (reason : string) : JobError :=
  match class with Retryable => RetryableJobError reason | NonRetryable => NonRetryableJobError reason end.

Definition allow_fallback : W JobError (result string unit) := fun w =>
  let '(r, b) := fallback_allow_and_record (jc_failover c) (lw_now w) (lw_fallback_budget w) in
  (Ok r, set_budgets b (lw_stale_divert_budget w) (lw_provider_health w) w).
Definition trip_fallback : W JobError unit := fun w =>
  (Ok tt, set_budgets (trip_cooldown (jc_failover c) (lw_now w) (lw_fallback_budget w))
            (lw_stale_divert_budget w) (lw_provider_health w) w).

(** After the primary has failed with [err]. *)
Definition run_fallback (j : ClassificationJobPayload) (retry_instruction : option string)
    (primary : ResolvedProvider) (err : InvocationFailure) : W JobError Answered :=
  let terminal_or reason e : W JobError Answered :=
    if if_output_invalid err then mret (insufficient_evidence reason) else w_lift (Err e) in
  if negb (should_attempt_fallback err) then
    terminal_or "local_output_invalid_online_unavailable"
      (job_error (if_class err) ("primary provider failed and fallback skipped: " +:+ if_reason err))
  else
    let fallback :=
      if decide (rp_name primary = rp_name (ro_primary (jc_router c))) then ro_fallback (jc_router c)
      else Some (ro_primary (jc_router c)) in
    match fallback with
    | None =>
        terminal_or "local_output_invalid_online_unavailable"
          (RetryableJobError ("primary failed and fallback not configured: " +:+ if_reason err))
    | Some fallback =>
        allowed ← allow_fallback;
        match allowed with
        | Err blocked_reason =>
            terminal_or "local_output_invalid_online_skipped"
              (RetryableJobError ("fallback blocked by " +:+ blocked_reason +:+ " after primary failure: " +:+ if_reason err))
        | Ok _ =>
            q ← (if if_output_invalid err then mret (prepare_online_verification_request j retry_instruction)
                 else prepare_provider_request j fallback retry_instruction);
            r ← attempt (invoke_llm fallback (pp_job q) (pp_prompt q));
            match r with
            | Ok response => mret (answered response fallback q)
            | Err fallback_err =>
                let classified := classify_invocation_failure fallback_err (jc_failover c) in
                _ ← trip_fallback;
                terminal_or "local_output_invalid_online_failed"
                  (job_error (if_class classified)
                     ("fallback provider failed after primary error: " +:+ if_reason classified))
            end
        end
    end.

(** The diversion of a stale request to the online provider; [None] when it is not tried or fails. *)
Definition try_stale_provider (j : ClassificationJobPayload) (retry_instruction : option string)
    (primary : ResolvedProvider) (stale_provider : option ResolvedProvider) : W JobError (option Answered) :=
  match stale_provider with
  | Some p =>
      if decide (rp_name p = rp_name primary) then mret None
      else
        q ← prepare_provider_request j p retry_instruction;
        r ← attempt (invoke_primary_with_retry p (pp_job q) (pp_prompt q));
        mret match r with Ok response => Some (answered response p q) | Err _ => None end
  | None => mret None
  end.

Definition invoke_with_fallback (j : ClassificationJobPayload) (retry_instruction : option string)
    (stale_provider : option ResolvedProvider) : W JobError Answered :=
  let primary := default (ro_primary (jc_router c)) (name ← cj_provider_override j; by_name (jc_router c) name) in
  diverted ← try_stale_provider j retry_instruction primary stale_provider;
  match diverted with
  | Some a => mret a
  | None =>
      q ← prepare_provider_request j primary retry_instruction;
      r ← attempt (invoke_primary_with_retry primary (pp_job q) (pp_prompt q));
      match r with
      | Ok response => mret (answered response primary q)
      | Err err => run_fallback j retry_instruction primary err
      end
  end.

(** ** Stale requests *)

Definition q_ (s : string) : string := String quote (s +:+ String quote "").
Definition HEALTHCHECK_PROMPT : string :=
  "Return JSON only with this exact shape: {" +:+ q_ "primary_category" +:+ ":" +:+ q_ "unknown" +:+ "," +:+
  q_ "subcategory" +:+ ":" +:+ q_ "unclassified" +:+ "," +:+ q_ "risk_level" +:+ ":" +:+ q_ "low" +:+ "," +:+
  q_ "confidence" +:+ ":0.5," +:+ q_ "recommended_action" +:+ ":" +:+ q_ "Allow" +:+ "}.".

Definition dummy_job : ClassificationJobPayload :=
  {| cj_normalized_key := "domain:healthcheck.internal"; cj_entity_level := "domain";
     cj_hostname := "healthcheck.internal"; cj_full_url := "https://healthcheck.internal/";
     cj_trace_id := "stale-pending-healthcheck"; cj_idempotency_key := None; cj_requires_content := false;
     cj_base_url := None; cj_content_excerpt := Some "Healthcheck payload"; cj_content_hash := None;
     cj_content_version := None; cj_content_language := None; cj_requeue_attempt := 0; cj_provider_override := None |}.

Definition invoke_provider_healthcheck (p : ResolvedProvider) : W InvokeError LlmResponse :=
  invoke_llm p dummy_job HEALTHCHECK_PROMPT.

(** The state of a provider that was checked recently. *)
Definition cached_health (p : ResolvedProvider) (ttl_secs : Z) (w : LlmWorld) : option bool :=
  '(checked_at, healthy) ← lw_provider_health w !! rp_name p;
  if decide (secs_since (lw_now w) checked_at <= ttl_secs) then Some healthy else None.

Definition provider_health_ok (p : ResolvedProvider) (ttl_secs : Z) : W JobError bool := fun w =>
  match cached_health p ttl_secs w with
  | Some healthy => (Ok healthy, w)
  | None =>
      let '(r, w') := invoke_provider_healthcheck p w in
      (Ok (is_ok r), set_budgets (lw_fallback_budget w') (lw_stale_divert_budget w')
         (<[rp_name p := (lw_now w', is_ok r)]> (lw_provider_health w')) w')
  end.

Definition allow_divert (max_per_min : Z) : W JobError bool := fun w =>
  let '(ok, b) := window_allow_and_record max_per_min (lw_now w) (lw_stale_divert_budget w) in
  (Ok ok, set_budgets (lw_fallback_budget w) b (lw_provider_health w) w).

Definition select_stale_pending_provider (j : ClassificationJobPayload) : W JobError (option ResolvedProvider) :=
  match jc_stale_pending c with
  | None => mret None
  | Some cfg =>
      if negb (cj_requires_content j) then mret None
      else
        age ← stale_pending_age_minutes (cj_normalized_key j) (sp_threshold_minutes cfg);
        match age with
        | None => mret None
        | Some _ =>
            let p := sp_online_provider cfg in
            if decide (rp_name p = rp_name (ro_primary (jc_router c))) then mret None
            else
              healthy ← provider_health_ok p (sp_health_ttl_secs cfg);
              if negb healthy then mret None
              else
                allowed ← allow_divert (sp_max_per_min cfg);
                mret (if allowed : bool then Some p else None)
        end
  end.
End Worker.

(** ** Reasoning about runs

    [runs R m Q]: however the run of [m] ends, the state has moved along [R], and an answer
    satisfies [Q]. *)

Definition runs {E A} (R : relation LlmWorld) (m : W E A) (Q : A -> Prop) : Prop :=
  forall w, R w (m w).2 /\ match (m w).1 with Ok a => Q a | Err _ => True end.

Section Runs.
  Context (R : relation LlmWorld) {HR : PreOrder R}.

Lemma runs_ret {E A} (a : A) (Q : A -> Prop) : Q a -> runs R (mret a : W E A) Q.
Proof. intros H w. by split. Qed.
Lemma runs_bind {E A B} (m : W E A) (f : A -> W E B) Q S :
  runs R m Q -> (forall a, Q a -> runs R (f a) S) -> runs R (m ≫= f) S.
Proof.
  intros Hm Hf w. unfold mbind, w_bind. destruct (Hm w) as [H1 H2]. destruct (m w) as [[a|e] w1]; cbn in *; [|done].
  destruct (Hf a H2 w1) as [H3 H4]. split; [by transitivity w1|done].
Qed.
Lemma runs_seq {E A B} (m : W E A) (f : A -> W E B) S :
  runs R m (fun _ => True) -> (forall a, runs R (f a) S) -> runs R (m ≫= f) S.
Proof. intros Hm Hf. eapply runs_bind; [exact Hm|]. by intros a _. Qed.
Lemma runs_lift {E A} (r : result E A) (Q : A -> Prop) :
  (forall a, r = Ok a -> Q a) -> runs R (w_lift r) Q.
Proof. intros H w. split; [done|]. cbn. destruct r; [by apply H|done]. Qed.
Lemma runs_attempt {E F A} (m : W E A) Q :
  runs R m Q -> runs R (attempt m : W F _) (fun r => match r with Ok a => Q a | Err _ => True end).
Proof. intros H w. unfold attempt. destruct (H w) as [H1 H2]. by destruct (m w). Qed.
Lemma runs_ignore {E F A} (m : W E A) Q : runs R m Q -> runs R (ignore m : W F unit) (fun _ => True).
Proof. intros H w. unfold ignore. by destruct (H w). Qed.
Lemma runs_context {A} text (m : W JobError A) Q : runs R m Q -> runs R (with_context text m) Q.
Proof. intros H w. unfold with_context. destruct (H w) as [H1 H2]. by destruct (m w) as [[] ?]. Qed.
Lemma runs_weaken {E A} (m : W E A) (Q S : A -> Prop) : runs R m Q -> (forall a, Q a -> S a) -> runs R m S.
Proof. intros H HS w. destruct (H w) as [H1 H2]. split; [done|]. destruct ((m w).1); [by apply HS|done]. Qed.

(** What the relation must allow: time passing, requests to providers, and the budgets. *)
Class QuietSteps := {
  quiet_clock w now : R w (set_clock now (lw_faults w) (lw_sent w) (lw_trace w) w);
  quiet_io w : R w (set_clock (lw_now w + 1) (tail (lw_faults w)) (lw_sent w) (lw_trace w) w);
  quiet_sent w now p request :
    R w (set_clock now (lw_faults w) (S (lw_sent w)) (lw_trace w ++ [Sent p request]) w);
  quiet_budgets w f d h : R w (set_budgets f d h w)
}.
Context {HQ : QuietSteps}.

Lemma runs_io {A} (f : LlmWorld -> A * LlmWorld) : (forall w, R w (f w).2) -> runs R (io f) (fun _ => True).
Proof.
  intros H w. unfold io. pose proof (quiet_io w) as Hc.
  set (w' := set_clock _ _ _ _ _) in *. specialize (H w').
  destruct (lw_faults w) as [|[] ?]; [|by split|]; destruct (f w') as [a w'']; cbn in *; (split; [by transitivity w'|done]).
Qed.
Lemma runs_query {A} (f : LlmWorld -> A) : runs R (query f) (fun _ => True).
Proof. by apply runs_io. Qed.
Lemma runs_exec f : (forall w, R w (f w)) -> runs R (exec f) (fun _ => True).
Proof. intros H. by apply runs_io. Qed.
Lemma runs_effect e :
  (forall w, R w (set_clock (lw_now w) (lw_faults w) (lw_sent w) (lw_trace w ++ [e]) w)) ->
  runs R (redis_effect e) (fun _ => True).
Proof. intros H. by apply runs_io. Qed.
Lemma runs_sleep {E} ms : runs R (sleep ms : W E unit) (fun _ => True).
Proof. intros w. split; [apply quiet_clock|done]. Qed.
End Runs.
Arguments QuietSteps R : clear implicits.

(** ** Asking providers leaves the tables alone, and every answer is valid *)

Section Quiet.
  Context `{U : Unicode} `{T : JsonText} `{N : HttpNet}.
  Context (page_contents : Z -> list PageContentRow) (c : JobConsumer).
  Context (R : relation LlmWorld) {HR : PreOrder R} {HQ : QuietSteps R}.

Lemma runs_load_page_content key : runs R (load_page_content page_contents key) (fun _ => True).
Proof. by apply runs_query. Qed.

Lemma runs_await n key : runs R (await_page_content page_contents n key) (fun _ => True).
Proof.
  induction n as [|n IH]; cbn [await_page_content]; [by apply runs_lift|].
  eapply runs_bind; [done|apply runs_load_page_content|]. intros [s|] _; [by apply runs_ret|].
  eapply runs_bind; [done|by apply runs_sleep|]. by intros _ _.
Qed.

Lemma runs_enrich j b : runs R (enrich_job_with_content page_contents j b) (fun _ => True).
Proof.
  unfold enrich_job_with_content. destruct b.
  - eapply runs_bind; [done|apply runs_await|]. intros. by apply runs_ret.
  - destruct (_ && _); [by apply runs_ret|]. eapply runs_bind; [done|apply runs_load_page_content|].
    intros. by apply runs_ret.
Qed.

Lemma runs_plan p j : runs R (provider_request_plan page_contents c p j) (fun _ => True).
Proof.
  unfold provider_request_plan, metadata_only_fetch_failure_reason, load_page_fetch_state.
  apply runs_seq; [done| |intros; by apply runs_ret]. destruct (_ && _); [|by apply runs_ret].
  apply runs_seq; [done| |intros; by apply runs_ret].
  apply runs_seq; [done|by apply runs_query|intros].
  apply runs_seq; [done|by apply runs_query|intros]. by apply runs_ret.
Qed.

Lemma runs_prepare j p i : runs R (prepare_provider_request page_contents c j p i) (fun _ => True).
Proof.
  unfold prepare_provider_request. eapply runs_bind; [done|apply runs_plan|]. intros plan _.
  eapply runs_bind; [done|apply runs_enrich|]. intros. by apply runs_ret.
Qed.

Lemma runs_invoke_llm p j prompt : runs R (invoke_llm p j prompt) valid_answer.
Proof.
  unfold invoke_llm. eapply runs_bind; [done|by apply (runs_lift R _ (fun _ => True))|]. intros request _ w.
  unfold send. destruct (http_send _ _) as [ms reply]. cbn [fst snd]. split; [apply (@quiet_sent R HQ)|].
  destruct (read_reply (rp_kind p) reply) eqn:E; [|done]. by eapply read_reply_valid.
Qed.

Lemma runs_attempts p j prompt n m : runs R (invoke_attempts c p j prompt m n) valid_answer.
Proof.
  revert m. induction n as [|n IH]; intros m; cbn [invoke_attempts];
    (eapply runs_bind; [done|apply runs_attempt, runs_invoke_llm|]); intros [r|e] Hr; try by apply runs_ret.
  - by apply runs_lift.
  - case_decide; [by apply runs_lift|]. eapply runs_bind; [done|by apply runs_sleep|]. by intros _ _.
Qed.

Lemma runs_allow_fallback : runs R (allow_fallback c) (fun _ => True).
Proof. intros w. unfold allow_fallback. destruct (fallback_allow_and_record _ _ _). split; [apply (@quiet_budgets R HQ)|done]. Qed.
Lemma runs_trip_fallback : runs R (trip_fallback c) (fun _ => True).
Proof. intros w. split; [apply (@quiet_budgets R HQ)|done]. Qed.

Lemma runs_fallback j i primary err :
  runs R (run_fallback page_contents c j i primary err) (fun a => valid_answer (an_verdict a)).
Proof.
  assert (forall reason e,
    runs R (if if_output_invalid err then mret (insufficient_evidence reason) else w_lift (Err e) : W JobError Answered)
      (fun a => valid_answer (an_verdict a))) as Hterm.
  { intros. destruct (if_output_invalid err); [apply runs_ret; [done|apply synthesized_valid]|by apply runs_lift]. }
  unfold run_fallback. destruct (negb _); [apply Hterm|].
  set (fb := if decide _ then _ else _). destruct fb as [p|]; [|apply Hterm].
  eapply runs_bind; [done|apply runs_allow_fallback|]. intros [u|reason] _; [|apply Hterm].
  apply runs_seq; [done| |intros q].
  { destruct (if_output_invalid err); [by apply runs_ret|apply runs_prepare]. }
  eapply runs_bind; [done|apply runs_attempt, runs_invoke_llm|]. intros [r|e] Hr; [by apply runs_ret|].
  eapply runs_bind; [done|apply runs_trip_fallback|]. intros _ _. apply Hterm.
Qed.

Lemma runs_try_stale j i primary stale :
  runs R (try_stale_provider page_contents c j i primary stale)
    (fun o => match o with Some a => valid_answer (an_verdict a) | None => True end).
Proof.
  unfold try_stale_provider. destruct stale as [p|]; [|by apply runs_ret]. case_decide; [by apply runs_ret|].
  eapply runs_bind; [done|apply runs_prepare|]. intros q _.
  eapply runs_bind; [done|apply runs_attempt, runs_attempts|]. intros [r|e] Hr; by apply runs_ret.
Qed.

Lemma runs_invoke_with_fallback j i stale :
  runs R (invoke_with_fallback page_contents c j i stale) (fun a => valid_answer (an_verdict a)).
Proof.
  unfold invoke_with_fallback. eapply runs_bind; [done|apply runs_try_stale|]. intros [a|] Ha; [by apply runs_ret|].
  eapply runs_bind; [done|apply runs_prepare|]. intros q _.
  eapply runs_bind; [done|apply runs_attempt, runs_attempts|]. intros [r|e] Hr; [by apply runs_ret|apply runs_fallback].
Qed.

Lemma runs_health p ttl : runs R (provider_health_ok p ttl) (fun _ => True).
Proof.
  intros w. unfold provider_health_ok. destruct (cached_health p ttl w); [done|].
  destruct (runs_invoke_llm p dummy_job HEALTHCHECK_PROMPT w) as [H _]. unfold invoke_provider_healthcheck.
  destruct (invoke_llm p dummy_job HEALTHCHECK_PROMPT w) as [r w']. split; [|done].
  etransitivity; [exact H|apply (@quiet_budgets R HQ)].
Qed.

Lemma runs_select_stale j : runs R (select_stale_pending_provider c j) (fun _ => True).
Proof.
  unfold select_stale_pending_provider. destruct (jc_stale_pending c) as [cfg|]; [|by apply runs_ret].
  destruct (negb _); [by apply runs_ret|]. apply runs_seq; [done| |].
  { unfold stale_pending_age_minutes. apply runs_seq; [done|by apply runs_query|]. intros. by apply runs_ret. }
  intros [age|]; [|by apply runs_ret]. case_decide; [by apply runs_ret|].
  eapply runs_bind; [done|apply runs_health|]. intros [] _; cbn [negb]; [|by apply runs_ret].
  apply runs_seq; [done| |intros; by apply runs_ret]. intros w. unfold allow_divert.
  destruct (window_allow_and_record _ _ _). split; [apply (@quiet_budgets R HQ)|done].
Qed.

End Quiet.
