(* ===== verification/LlmJobs.v ===== *)
(** * Handling classification jobs

    [workers/llm-worker/src/main.rs]: [handle_job] with its guardrails and
    [store_classification], [process_job] with its requeueing, the entries of the stream, and the
    reconciler of stale requests.  The state and the provider calls are those of [LlmWorker]. *)

From S2P Require Import Prelude RustStr RustNum Types Json Db Taxonomy Activation LlmAnswer LlmBudget LlmConfig LlmProvider LlmWorker.

Local Open Scope Z_scope.

(** ** Guardrails *)

Record Guarded := {
  gu_action : PolicyAction;
  gu_confidence : float;
  gu_forced_action : bool;
  gu_capped_confidence : bool;
  gu_forced_review : bool;
  gu_injection_capped : bool
}.

(** [if x > cap { x = cap; capped = true }]. *)
Definition cap_confidence (x cap : float) : float * bool := if f_lt cap x then (cap, true) else (x, false).

Definition apply_guardrails (oc : OnlineContextRuntime) (pi : PromptInjectionRuntime) (mode : PromptContextMode)
    (assessment : PromptInjectionAssessment) (action : PolicyAction) (confidence : float) : Guarded :=
  let metadata_only := bool_decide (mode = MetadataOnly) in
  let forced_action := metadata_only && negb (bool_decide (action = oc_metadata_only_force_action oc)) in
  let action1 := if forced_action then oc_metadata_only_force_action oc else action in
  let '(confidence1, capped) :=
    if metadata_only then cap_confidence confidence (oc_metadata_only_max_confidence oc) else (confidence, false) in
  let injected := pi_enabled pi && bool_decide (pi_review_threshold pi <= pa_score assessment) in
  let forced_review := injected && negb (bool_decide (action1 = Review)) in
  let '(confidence2, injection_capped) :=
    if injected then cap_confidence confidence1 (pi_confidence_cap pi) else (confidence1, false) in
  {| gu_action := if forced_review then Review else action1; gu_confidence := confidence2;
     gu_forced_action := forced_action; gu_capped_confidence := capped; gu_forced_review := forced_review;
     gu_injection_capped := injection_capped |}.

Definition set_verdict (confidence : float) (action : string) (v : LlmResponse) : LlmResponse :=
  {| lr_primary_category := lr_primary_category v; lr_subcategory := lr_subcategory v;
     lr_risk_level := lr_risk_level v; lr_confidence := confidence; lr_recommended_action := action |}.

(** The column [flags]; a [serde_json::Map] is ordered by its keys, which is of no consequence. *)
Definition classification_flags (fallback_reason : option FallbackReason) (activation_blocked : bool)
    (a : Answered) (g : Guarded) (assessment : PromptInjectionAssessment) : list (string * Json) :=
  [("source", JStr "llm-worker")] ++
  match fallback_reason with Some r => [("taxonomy_fallback_reason", JStr (fallback_as_str r))] | None => [] end ++
  (if activation_blocked then [("taxonomy_activation_state", JStr "blocked")] else []) ++
  [("context_mode", JStr (context_mode_as_str (an_context_mode a))); ("excerpt_sent", JBool (an_excerpt_sent a))] ++
  (if decide (an_context_mode a = MetadataOnly) then
     [("metadata_only", JBool true)] ++
     field_opt "metadata_only_reason" JStr (an_metadata_only_reason a) ++
     [("metadata_only_guardrail_forced_action", JBool (gu_forced_action g));
      ("metadata_only_guardrail_confidence_cap", JBool (gu_capped_confidence g))]
   else []) ++
  (if suspicious assessment then
     [("prompt_injection_suspected", JBool true); ("prompt_injection_score", JInt (pa_score assessment));
      ("prompt_injection_markers", JArr (JStr <$> pa_markers assessment));
      ("prompt_injection_guardrail_forced_review", JBool (gu_forced_review g));
      ("prompt_injection_guardrail_confidence_cap", JBool (gu_injection_capped g))]
   else []).

Lemma context_mode_in_flags r b a g s :
  ("context_mode", JStr (context_mode_as_str (an_context_mode a))) ∈ classification_flags r b a g s.
Proof. apply list_elem_of_In. unfold classification_flags. do 3 (apply in_or_app; right). by left. Qed.

(** ** Storing *)

(** [INSERT .. ON CONFLICT (normalized_key) DO UPDATE .. RETURNING id]. *)
Definition upsert_classification (key : string) (new_id : Uuid) (taxonomy_version : string) (v : LlmResponse)
    (action : PolicyAction) (flags : list (string * Json)) (w : LlmWorld) : Uuid * LlmWorld :=
  let id := match lw_classifications w !! key with Some old => sc_id old | None => new_id end in
  let old := lw_classifications w !! key in
  let row :=
    {| sc_id := id;
       sc_taxonomy_version := match old with Some o => sc_taxonomy_version o | None => taxonomy_version end;
       sc_model_version := match old with Some o => sc_model_version o | None => "llm-sim" end;
       sc_primary_category := lr_primary_category v; sc_subcategory := lr_subcategory v;
       sc_risk_level := lr_risk_level v; sc_recommended_action := action_to_string action;
       sc_confidence := f32_as_f64 (lr_confidence v); sc_sfw := bool_decide (action = Allow); sc_flags := flags;
       sc_ttl_seconds := 3600; sc_status := match old with Some o => sc_status o | None => "active" end;
       sc_next_refresh_at := match old with Some o => sc_next_refresh_at o | None => lw_now w + 4 * 3600 * 1000 end;
       sc_updated_at := lw_now w |} in
  (id, set_classifications (<[key := row]> (lw_classifications w)) (lw_versions w) (lw_next_uuid w) w).

(** [Uuid::new_v4()]. *)
Definition fresh_uuid {E} : W E Uuid := fun w =>
  (Ok (lw_next_uuid w),
   set_classifications (lw_classifications w) (lw_versions w) (S (lw_next_uuid w)) w).

(** [SELECT MAX(version)]; no version counts as 0. *)
Definition max_version (id : Uuid) (w : LlmWorld) : Z :=
  foldl Z.max 0 (cve_version <$> List.filter (fun v => bool_decide (cve_classification_id v = id)) (lw_versions w)).

Definition store_classification (key : string) (taxonomy_version : string) (v : LlmResponse) (action : PolicyAction)
    (flags : list (string * Json)) : W JobError PolicyAction :=
  new_id ← fresh_uuid;
  id ← io (upsert_classification key new_id taxonomy_version v action flags);
  current_version ← query (max_version id);
  _ ← fresh_uuid;
  _ ← exec (fun w =>
    set_classifications (lw_classifications w)
      (lw_versions w ++ [{| cve_classification_id := id; cve_version := current_version + 1;
                            cve_changed_by := Some "llm-worker"; cve_reason := Some "automated";
                            cve_payload := JObj [("normalized_key", JStr key);
                              ("category", JStr (lr_primary_category v)); ("action", JStr (action_to_string action))] |}])
      (lw_next_uuid w) w);
  mret action.

(** ** Jobs *)

Definition RETRY_INSTRUCTION : string :=
  "Previous response used non-canonical taxonomy labels. Retry and return ONLY canonical IDs listed in Allowed Taxonomy IDs.".

Section Jobs.
  Context `{U : Unicode} `{T : JsonText} `{N : HttpNet}.
  Context (page_contents : Z -> list PageContentRow) (c : JobConsumer).

(** [DecisionCachePublisher::publish]: the entry is dropped and the adaptors are told. *)
Definition review_event (key : string) : string :=
  json_print (JObj [("kind", JStr "review"); ("normalized_key", JStr key)]).
Definition publish_cache_entry (key : string) : W JobError unit :=
  _ ← redis_effect (Del key); redis_effect (Publish (jc_cache_channel c) (review_event key)).

Definition apply_taxonomy (v : LlmResponse) : W JobError (LlmResponse * option FallbackReason) :=
  let sub_input := if is_empty (trim (lr_subcategory v)) then None else Some (lr_subcategory v) in
  w_lift
    (validated ← ok_or (validate_labels (jc_taxonomy c) (lr_primary_category v) sub_input) Panicked;
     Ok ({| lr_primary_category := cat_id (vl_category validated); lr_subcategory := sub_id (vl_subcategory validated);
            lr_risk_level := lr_risk_level v; lr_confidence := lr_confidence v;
            lr_recommended_action := lr_recommended_action v |}, vl_fallback_reason validated)).

(** The loop over [1..=NON_CANONICAL_RETRY_ATTEMPTS], with [remaining] rounds after this one. *)
Fixpoint canonical_attempts (j : ClassificationJobPayload) (stale_provider : option ResolvedProvider)
    (retry_instruction : option string) (remaining : nat)
    : W JobError (Answered * LlmResponse * option FallbackReason) :=
  a ← invoke_with_fallback page_contents c j retry_instruction stale_provider;
  canonical ← apply_taxonomy (an_verdict a);
  match canonical.2, remaining with
  | Some _, S remaining' =>
      _ ← sleep 250; canonical_attempts j stale_provider (Some RETRY_INSTRUCTION) remaining'
  | _, _ => mret (a, canonical.1, canonical.2)
  end.
Definition NON_CANONICAL_RETRY_ATTEMPTS : nat := 3.

(** From the verdict to the row: guardrails, activation, storage, and the notice to the caches. *)
Definition finish_job (j : ClassificationJobPayload) (a : Answered) (verdict : LlmResponse)
    (fallback_reason : option FallbackReason) : W JobError unit :=
  recommended_action ← w_lift (map_err OtherError (parse_policy_action (lr_recommended_action verdict)));
  let assessment := assess_prompt_injection (cj_content_excerpt j) in
  let g := apply_guardrails (jc_online_context c) (jc_prompt_injection c) (an_context_mode a) assessment
             recommended_action (lr_confidence verdict) in
  let activation_allowed :=
    is_enabled (jc_activation c) (lr_primary_category verdict) (Some (lr_subcategory verdict)) in
  let final_action := if activation_allowed then gu_action g else Block in
  let verdict := set_verdict (gu_confidence g) (action_to_string final_action) verdict in
  _ ← with_context "failed to persist classification"
        (store_classification (cj_normalized_key j) (tx_version (ts_taxonomy (jc_taxonomy c))) verdict final_action
           (classification_flags fallback_reason (negb activation_allowed) a g assessment));
  _ ← with_context "failed to publish cache entry" (publish_cache_entry (cj_normalized_key j));
  if bool_decide (an_context_mode a = MetadataOnly) && oc_metadata_only_requeue_for_content (jc_online_context c) &&
     negb (bool_decide (an_metadata_only_reason a = Some "fetch_failed_threshold"))
  then mark_pending j "waiting_content" (Some "metadata_only_classification")
  else clear_pending (cj_normalized_key j).

Definition handle_job (payload : string) : W JobError unit :=
  j ← w_lift (map_err OtherError (job_from_str payload));
  _ ← (if cj_requires_content j then mark_pending j "waiting_content" None else mret tt);
  stale_provider ← select_stale_pending_provider c j;
  selected ← canonical_attempts j stale_provider None (pred NON_CANONICAL_RETRY_ATTEMPTS);
  finish_job j selected.1.1 selected.1.2 selected.2.

(** ** The queue *)

Definition marker (key : string) : string := "od:idempotency:llm:" +:+ key.

Definition idempotency_key_seen (key : string) : W JobError bool :=
  query (fun w => match lw_markers w !! marker key with
                  | Some expires_at => bool_decide (lw_now w < expires_at)
                  | None => false end).
Definition idempotency_mark_processed (key : string) : W JobError unit :=
  exec (fun w => set_markers (<[marker key := lw_now w + jc_idempotency_ttl_seconds c * 1000]> (lw_markers w)) w).

Definition requeue_fetch_job (j : ClassificationJobPayload) : PageFetchJob :=
  {| pfj_normalized_key := cj_normalized_key j; pfj_url := cj_full_url j; pfj_hostname := cj_hostname j;
     pfj_candidate_urls := match cj_base_url j with Some b => [b] | None => [] end;
     pfj_trace_id := Some (cj_trace_id j);
     pfj_idempotency_key := Some ("page:" +:+ cj_normalized_key j +:+ ":" +:+ cj_trace_id j);
     pfj_ttl_seconds := None |}.

Definition requeue (payload : string) (hint : option ClassificationJobPayload) : W JobError unit :=
  let outbound :=
    match hint with
    | Some j => json_print (job_to_json (set_requeue_attempt (saturating_add (cj_requeue_attempt j) 1) j))
    | None => payload
    end in
  _ ← redis_effect (XAdd (jc_stream c) outbound);
  match hint with
  | Some j =>
      if cj_requires_content j then
        ignore (redis_effect (XAdd (jc_page_fetch_stream c) (json_print (page_fetch_to_json (requeue_fetch_job j)))))
      else mret tt
  | None => mret tt
  end.

Definition should_requeue (e : JobError) : bool :=
  match e with ContentNotReady | RetryableJobError _ => true | _ => false end.

(** The [Err] arm of [process_job]. *)
Definition failed_job (payload : string) (hint : option ClassificationJobPayload) (e : JobError) : W JobError unit :=
  let fail_with j text : W JobError unit := ignore (mark_pending j "failed" (Some text)) in
  if should_requeue e then
    match hint with
    | Some j =>
        if decide (jc_max_requeue_attempts c <= cj_requeue_attempt j) then
          fail_with j ("retry exhausted after " +:+ pretty (jc_max_requeue_attempts c) +:+ " queue requeues: " +:+ job_error_text e)
        else
          r ← attempt (requeue payload hint);
          match r with
          | Ok _ => mret tt
          | Err requeue_err => fail_with j ("requeue publish failed: " +:+ job_error_text requeue_err)
          end
    | None => ignore (requeue payload hint)
    end
  else match hint with Some j => fail_with j (job_error_text e) | None => mret tt end.

(** The marker cannot be looked up for a payload that does not decode; a failed lookup counts as no. *)
Definition already_seen (hint : option ClassificationJobPayload) : W JobError bool :=
  match hint with
  | Some j => r ← attempt (idempotency_key_seen (classification_idempotency_key j)); mret (default false (result_ok r))
  | None => mret false
  end.

Definition process_job (payload : string) : W JobError unit :=
  let hint := result_ok (job_from_str payload) in
  seen ← already_seen hint;
  if seen : bool then mret tt
  else
    r ← attempt (handle_job payload);
    _ ← match r with
        | Ok _ => match hint with
                  | Some j => ignore (idempotency_mark_processed (classification_idempotency_key j))
                  | None => mret tt
                  end
        | Err e => failed_job payload hint e
        end;
    w_lift r.

(** Entries of the stream: an id and the field [payload]. *)
Definition entry_too_old (entry_id : string) (max_age_ms : Z) (now_ms : Z) : bool :=
  match split_once "-" entry_id with
  | Some (millis, _) =>
      match parse_unsigned u64_max millis with
      | Some ts_ms => bool_decide (max_age_ms < saturating_sub now_ms ts_ms)
      | None => false
      end
  | None => false
  end.

Definition ack (entry_id : string) : W JobError unit := ignore (redis_effect (Ack entry_id)).
Definition publish_dead_letter (entry_id reason : string) (payload : option string) : W JobError unit :=
  redis_effect (DeadLetter entry_id reason payload).

Definition consume_entry (entry : string * option string) : W JobError unit :=
  t ← now;
  if entry_too_old entry.1 300000 t then ack entry.1
  else
    _ ← match entry.2 with
        | Some payload =>
            r ← attempt (process_job payload);
            if is_ok r || is_ok (job_from_str payload) then mret tt
            else ignore (publish_dead_letter entry.1 "invalid_payload" (Some payload))
        | None => ignore (publish_dead_letter entry.1 "missing_payload" None)
        end;
    ack entry.1.

Fixpoint consume_entries (entries : list (string * option string)) : W JobError unit :=
  match entries with
  | [] => mret tt
  | e :: entries' => _ ← consume_entry e; consume_entries entries'
  end.

End Jobs.

(** ** Reconciling stale requests *)

Definition parse_normalized_key_parts (key : string) : option (string * string) :=
  match strip_prefix "domain:" key with
  | Some rest => Some ("domain", rest)
  | None => match strip_prefix "subdomain:" key with Some rest => Some ("subdomain", rest) | None => None end
  end.

Section Reconciler.
  Context `{T : JsonText} `{X : Externals} `{P : UrlPrinter}.
  Context (classification_stream page_fetch_stream : string) (cfg : PendingReconcileRuntime).

Definition normalize_base_url (value : string) : option string :=
  let trimmed := trim value in
  if is_empty trimmed then None
  else url ← Url_parse trimmed; Some (if is_empty (u_path url) then Url_print_root trimmed else Url_print trimmed).

Definition derive_urls (key_value : string) (base_url : option string) : string * string * string :=
  match base_url ≫= normalize_base_url with
  | Some base => (default key_value (url ← Url_parse base; u_host_str url), base, base)
  | None => let fallback := "https://" +:+ key_value +:+ "/" in (key_value, fallback, fallback)
  end.

Definition stale_rows (w : LlmWorld) : list (string * option string) :=
  (fun kr => (kr.1, pq_base_url kr.2)) <$>
  take (Z.to_nat (as_i64 (pr_batch cfg)))
    (sort_by_key (fun kr => pq_updated_at kr.2)
       (List.filter (fun kr =>
          bool_decide (pq_status kr.2 = "waiting_content") &&
          bool_decide (pq_updated_at kr.2 <= lw_now w - as_i32 (pr_stale_minutes cfg) * 60000))
        (map_to_list (lw_requests w)))).

Definition touch (now : Z) (base_url last_error : option string) (r : PendingRequest) : PendingRequest :=
  {| pq_status := pq_status r; pq_base_url := base_url; pq_last_error := last_error;
     pq_requested_at := pq_requested_at r; pq_updated_at := now |}.

Definition reconcile_jobs (key entity_level key_value : string) (base_url : option string) (trace_id : string)
    : ClassificationJobPayload * PageFetchJob * string :=
  let '(hostname, full_url, base) := derive_urls key_value base_url in
  ({| cj_normalized_key := key; cj_entity_level := entity_level; cj_hostname := hostname; cj_full_url := full_url;
      cj_trace_id := trace_id; cj_idempotency_key := Some ("cls:" +:+ key +:+ ":" +:+ trace_id);
      cj_requires_content := true; cj_base_url := Some base; cj_content_excerpt := None; cj_content_hash := None;
      cj_content_version := None; cj_content_language := None; cj_requeue_attempt := 0; cj_provider_override := None |},
   {| pfj_normalized_key := key; pfj_url := full_url; pfj_hostname := hostname; pfj_candidate_urls := [base];
      pfj_trace_id := Some trace_id; pfj_idempotency_key := Some ("page:" +:+ key +:+ ":" +:+ base);
      pfj_ttl_seconds := None |}, base).

Definition reconcile_row (row : string * option string) : W JobError unit :=
  let key := row.1 in
  classified ← query (fun w => bool_decide (is_Some (lw_classifications w !! key)));
  if classified : bool then exec (fun w => set_requests (delete key (lw_requests w)) w)
  else
    match parse_normalized_key_parts key with
    | None =>
        exec (fun w => set_requests (alter (fun r => touch (lw_now w) (pq_base_url r) (Some "invalid normalized key") r)
                                       key (lw_requests w)) w)
    | Some (entity_level, key_value) =>
        id ← fresh_uuid;
        let '(class_job, fetch_job, base) :=
          reconcile_jobs key entity_level key_value row.2 ("reconcile-" +:+ pretty id) in
        _ ← redis_effect (XAdd classification_stream (json_print (job_to_json class_job)));
        _ ← redis_effect (XAdd page_fetch_stream (json_print (page_fetch_to_json fetch_job)));
        exec (fun w => set_requests (alter (fun r => touch (lw_now w) (Some base) None r) key (lw_requests w)) w)
    end.

Fixpoint reconcile_rows (rows : list (string * option string)) : W JobError unit :=
  match rows with
  | [] => mret tt
  | row :: rows' => _ ← reconcile_row row; reconcile_rows rows'
  end.

(** The connection to Redis is opened once, when there is something to do. *)
Definition reconcile_once : W JobError unit :=
  rows ← query stale_rows;
  match rows with
  | [] => mret tt
  | _ => _ ← exec id; reconcile_rows rows
  end.

End Reconciler.

(** ** What is stored *)

(** A confidence cap is a number between 0 and 1, or not a number and then without effect. *)
Definition cap_ok (cap : float) : Prop := in_unit cap = true \/ cap = f32_nan.

Lemma cap_confidence_spec x cap :
  in_unit x = true -> cap_ok cap ->
  in_unit (cap_confidence x cap).1 = true /\
  (in_unit cap = true -> f_le (cap_confidence x cap).1 cap = true) /\
  ((cap_confidence x cap).1 = x \/ f_lt (cap_confidence x cap).1 x = true).
Proof.
  intros Hx Hc. unfold cap_confidence. destruct (f_lt cap x) eqn:E; cbn [fst].
  - destruct Hc as [Hc| ->]; [|done]. split_and!; [done| |by right]. intros _. by apply f_le_refl_in_unit.
  - split_and!; [done| |by left]. intros Hu. apply f_le_total_in_unit; [|done..].
    by apply andb_true_iff in Hx as [? _].
Qed.

Section Guardrails.
  Context (oc : OnlineContextRuntime) (pi : PromptInjectionRuntime).
  Hypothesis (Hoc : cap_ok (oc_metadata_only_max_confidence oc)) (Hpi : cap_ok (pi_confidence_cap pi)).

Lemma guardrails_confidence mode s a x :
  in_unit x = true ->
  let g := apply_guardrails oc pi mode s a x in
  in_unit (gu_confidence g) = true /\
  (mode = MetadataOnly -> in_unit (oc_metadata_only_max_confidence oc) = true ->
     f_le (gu_confidence g) (oc_metadata_only_max_confidence oc) = true) /\
  (pi_enabled pi = true -> pi_review_threshold pi <= pa_score s -> in_unit (pi_confidence_cap pi) = true ->
     f_le (gu_confidence g) (pi_confidence_cap pi) = true).
Proof.
  intros Hx. cbv zeta. unfold apply_guardrails.
  destruct (cap_confidence_spec x _ Hx Hoc) as (H1 & H2 & _).
  destruct (cap_confidence x (oc_metadata_only_max_confidence oc)) as [x1 c1] eqn:E1. cbn [fst] in *.
  set (y := if bool_decide (mode = MetadataOnly) then (x1, c1) else (x, false)).
  assert (in_unit y.1 = true) as Hy by (unfold y; by case_bool_decide).
  assert (mode = MetadataOnly -> y.1 = x1) as Hm by (intros ->; done).
  destruct y as [y cy]. cbn [fst] in *. destruct (cap_confidence_spec y _ Hy Hpi) as (H3 & H4 & H5).
  destruct (cap_confidence y (pi_confidence_cap pi)) as [y1 c2] eqn:E2. cbn [fst] in *.
  destruct (pi_enabled pi && bool_decide (pi_review_threshold pi <= pa_score s)) eqn:Einj; cbn.
  - split_and!; [done| |by intros _ _ Hu; apply H4]. intros Hmode Hu. specialize (Hm Hmode). subst y.
    destruct H5 as [->|Hlt]; [by apply H2|]. eapply f_lt_le_trans_in_unit; [..|exact Hlt|]; try done. by apply H2.
  - split_and!; [done| |]. { intros Hmode Hu. rewrite (Hm Hmode). by apply H2. }
    intros He Ht. rewrite He, bool_decide_eq_true_2 in Einj by done. done.
Qed.

Lemma guardrails_action mode s a x :
  let g := apply_guardrails oc pi mode s a x in
  (mode = MetadataOnly -> gu_action g = oc_metadata_only_force_action oc \/ gu_action g = Review) /\
  (pi_enabled pi = true -> pi_review_threshold pi <= pa_score s -> gu_action g = Review) /\
  (mode = WithExcerpt -> gu_action g = a \/ gu_action g = Review) /\
  (pa_score s < pi_review_threshold pi -> mode = MetadataOnly -> gu_action g = oc_metadata_only_force_action oc) /\
  (pa_score s < pi_review_threshold pi -> mode = WithExcerpt -> gu_action g = a).
Proof.
  cbv zeta. unfold apply_guardrails.
  destruct (if bool_decide (mode = MetadataOnly) then _ else _) as [y cy]. destruct (if pi_enabled pi && _ then _ else _) as [z cz].
  cbn [gu_action].
  destruct mode; rewrite ?bool_decide_true, ?bool_decide_false by done; cbn [andb negb];
    destruct (decide (a = oc_metadata_only_force_action oc)) as [->|Ha];
    rewrite ?(bool_decide_eq_true_2 (oc_metadata_only_force_action oc = _)), ?(bool_decide_eq_false_2 (a = oc_metadata_only_force_action oc)) by done;
    cbn [andb negb]; destruct (pi_enabled pi); cbn [andb];
    destruct (decide (pi_review_threshold pi <= pa_score s));
    rewrite ?(bool_decide_eq_true_2 (pi_review_threshold pi <= _)), ?(bool_decide_eq_false_2 (pi_review_threshold pi <= _)) by done;
    cbn [andb negb]; repeat case_bool_decide; cbn [negb andb]; naive_solver lia.
Qed.

End Guardrails.

(** *** The row of a job *)

Section Stored.
  Context `{U : Unicode} `{T : JsonText} `{N : HttpNet}.
  Context (page_contents : Z -> list PageContentRow) (c : JobConsumer).
  Hypothesis (Hst : store_wf (jc_taxonomy c)).
  Hypothesis (Hoc : cap_ok (oc_metadata_only_max_confidence (jc_online_context c))).
  Hypothesis (Hpi : cap_ok (pi_confidence_cap (jc_prompt_injection c))).

(** Labels of the taxonomy: a category and one of its own subcategories. *)
Definition canonical_labels (category subcategory : string) : Prop :=
  exists cat sub, cat ∈ tx_categories (ts_taxonomy (jc_taxonomy c)) /\ sub ∈ cat_subcategories cat /\
    category = cat_id cat /\ subcategory = sub_id sub.

(** What every row the worker writes for a job satisfies, whatever the provider said: canonical
    labels, a known risk level, an action that agrees with the safe-for-work flag, a block when the
    activation profile does not enable the labels, and the guardrails of requests without page
    content and of pages that look injected. *)
Definition row_guarded (j : ClassificationJobPayload) (row : StoredClassification) : Prop :=
  let score := pa_score (assess_prompt_injection (cj_content_excerpt j)) in
  let pi := jc_prompt_injection c in
  let oc := jc_online_context c in
  exists mode action confidence,
    ("context_mode", JStr (context_mode_as_str mode)) ∈ sc_flags row /\
    sc_recommended_action row = action_to_string action /\ sc_sfw row = bool_decide (action = Allow) /\
    sc_confidence row = f32_as_f64 confidence /\ in_unit confidence = true /\ sc_risk_level row ∈ RISK_LEVELS /\
    canonical_labels (sc_primary_category row) (sc_subcategory row) /\
    (is_enabled (jc_activation c) (sc_primary_category row) (Some (sc_subcategory row)) = false -> action = Block) /\
    (mode = MetadataOnly ->
       (action = oc_metadata_only_force_action oc \/ action = Review \/ action = Block) /\
       (in_unit (oc_metadata_only_max_confidence oc) = true ->
          f_le confidence (oc_metadata_only_max_confidence oc) = true)) /\
    (pi_enabled pi = true -> pi_review_threshold pi <= score ->
       (action = Review \/ action = Block) /\
       (in_unit (pi_confidence_cap pi) = true -> f_le confidence (pi_confidence_cap pi) = true)).

(** One job changes no other key, and leaves a guarded row if it changes its own. *)
Definition guarded_step (j : ClassificationJobPayload) (w w' : LlmWorld) : Prop :=
  forall k, lw_classifications w' !! k = lw_classifications w !! k \/
    k = cj_normalized_key j /\ exists row, lw_classifications w' !! k = Some row /\ row_guarded j row.

#[local] Instance guarded_step_preorder j : PreOrder (guarded_step j).
Proof.
  split; [by intros w k; left|]. intros w1 w2 w3 H12 H23 k. destruct (H23 k) as [E|H]; [|by right].
  rewrite E. apply H12.
Qed.
#[local] Instance guarded_step_quiet j : QuietSteps (guarded_step j).
Proof. split; intros; intros k; by left. Qed.

(** What a run of the attempts answers: the provider's answer with canonical labels. *)
Definition canonical_answer (s : Answered * LlmResponse * option FallbackReason) : Prop :=
  valid_answer s.1.2 /\ canonical_labels (lr_primary_category s.1.2) (lr_subcategory s.1.2).

Lemma apply_taxonomy_runs R `{!PreOrder R} v :
  valid_answer v ->
  runs R (apply_taxonomy c v) (fun r => valid_answer r.1 /\ canonical_labels (lr_primary_category r.1) (lr_subcategory r.1)).
Proof.
  intros Hv. unfold apply_taxonomy. apply runs_lift; [done|]. intros r.
  set (sub := if is_empty _ then _ else _).
  destruct (validate_labels_cases _ Hst (lr_primary_category v) sub) as (l & -> & (i & k & Hi & Hk) & _).
  cbn. intros [= <-]. cbn. split; [done|]. exists (vl_category l), (vl_subcategory l).
  split_and!; [by eapply list_elem_of_lookup_2|by eapply list_elem_of_lookup_2|done|done].
Qed.

Lemma canonical_attempts_runs R `{!PreOrder R, !QuietSteps R} j stale n : forall i,
  runs R (canonical_attempts page_contents c j stale i n) canonical_answer.
Proof.
  induction n as [|n IH]; intros i; cbn [canonical_attempts];
    (eapply runs_bind; [done|by apply runs_invoke_with_fallback|]); intros a Ha;
    (eapply runs_bind; [done|by apply apply_taxonomy_runs|]); intros [v fr] Hv; cbn [snd fst].
  - destruct fr; by apply runs_ret.
  - destruct fr; [|by apply runs_ret]. eapply runs_bind; [done|by apply runs_sleep|]. intros _ _. apply IH.
Qed.

Lemma fresh_uuid_runs j : runs (guarded_step j) (fresh_uuid : W JobError Uuid) (fun _ => True).
Proof. intros w. split; [|done]. intros k. by left. Qed.

Lemma store_runs j tv v a flags :
  (forall row, sc_primary_category row = lr_primary_category v -> sc_subcategory row = lr_subcategory v ->
     sc_risk_level row = lr_risk_level v -> sc_recommended_action row = action_to_string a ->
     sc_confidence row = f32_as_f64 (lr_confidence v) -> sc_sfw row = bool_decide (a = Allow) ->
     sc_flags row = flags -> row_guarded j row) ->
  runs (guarded_step j) (store_classification (cj_normalized_key j) tv v a flags) (fun _ => True).
Proof.
  intros Hrow. unfold store_classification.
  apply runs_seq; [apply _|apply fresh_uuid_runs|intros id]. apply runs_seq; [apply _| |intros id'].
  { apply runs_io; [apply _..|]. intros w k. unfold upsert_classification. cbn.
    destruct (decide (k = cj_normalized_key j)) as [->|Hk].
    - right. split; [done|]. rewrite lookup_insert_eq. eexists. split; [done|]. by apply Hrow.
    - left. by rewrite lookup_insert_ne. }
  apply runs_seq; [apply _|apply runs_query; apply _|intros v'].
  apply runs_seq; [apply _|apply fresh_uuid_runs|intros _].
  apply runs_seq; [apply _| |intros _; by apply runs_ret; [apply _|]].
  apply runs_exec; [apply _..|]. intros w k. by left.
Qed.

Lemma finish_job_runs j a v fr :
  valid_answer v -> canonical_labels (lr_primary_category v) (lr_subcategory v) ->
  runs (guarded_step j) (finish_job c j a v fr) (fun _ => True).
Proof.
  intros (Hc & Hr & (act & Hact & _ & _)) Hl. unfold finish_job.
  eapply runs_bind; [apply _|apply (runs_lift _ _ (fun x => x = act)); intros x; rewrite Hact; by intros [= <-]|].
  intros ? ->. set (s := assess_prompt_injection _).
  pose proof (guardrails_confidence _ _ Hoc Hpi (an_context_mode a) s act _ Hc) as (G1 & G2 & G3).
  pose proof (guardrails_action (jc_online_context c) (jc_prompt_injection c) (an_context_mode a) s act (lr_confidence v))
    as (A1 & A2 & _).
  set (g := apply_guardrails _ _ _ _ _ _) in *.
  apply runs_seq; [apply _| |intros _].
  { apply runs_context, store_runs. intros row Hcat Hsub Hrisk Hrec Hconf Hsfw Hflags.
    exists (an_context_mode a), (if is_enabled (jc_activation c) (lr_primary_category v) (Some (lr_subcategory v))
      then gu_action g else Block), (gu_confidence g).
    rewrite Hcat, Hsub. cbn [lr_primary_category lr_subcategory set_verdict]. split_and!; try done.
    - rewrite Hflags. apply context_mode_in_flags.
    - by rewrite Hrisk.
    - by intros ->.
    - intros Hm. split; [|by apply G2]. destruct (is_enabled _ _ _); [|by do 2 right]. destruct (A1 Hm); auto.
    - intros He Ht. split; [|by apply G3]. destruct (is_enabled _ _ _); [left; by apply A2|by right]. }
  apply runs_seq; [apply _| |intros _].
  { apply runs_context. unfold publish_cache_entry.
    apply runs_seq; [apply _| |intros _]; (apply runs_effect; [apply _..|]; intros w k; by left). }
  destruct (_ && _).
  - apply runs_exec; [apply _..|]. intros w k. by left.
  - apply runs_seq; [apply _|apply runs_query; apply _|intros _]. apply runs_exec; [apply _..|]. intros w k. by left.
Qed.

(** C15: Whatever the language models answer and whatever fails, handling a job writes at most the
    classification of the job's own key, and what it writes is guarded: labels of the taxonomy, a
    confidence between 0 and 1, a block for labels the activation profile does not enable; without
    page content the action is the configured one (or a review or block) and the confidence is
    capped; and a job whose excerpt looks injected is never stored as allowed. *)
Theorem stored_rows_guarded payload j w r w' :
  job_from_str payload = Ok j -> handle_job page_contents c payload w = (r, w') -> guarded_step j w w'.
Proof.
  intros Hj Hrun. assert (runs (guarded_step j) (handle_job page_contents c payload) (fun _ => True)) as H.
  { unfold handle_job. rewrite Hj. cbn [map_err].
    eapply runs_bind; [apply _|apply (runs_lift _ _ (fun x => x = j)); by intros ? [= <-]|]. intros ? ->.
    apply runs_seq; [apply _| |intros _].
    { destruct (cj_requires_content j); [|by apply runs_ret; [apply _|]].
      apply runs_exec; [apply _..|]. intros w0 k. by left. }
    apply runs_seq; [apply _|apply runs_select_stale; apply _|intros stale].
    eapply runs_bind; [apply _|apply canonical_attempts_runs; apply _|]. intros [[a v] fr] [Hv Hl].
    by apply finish_job_runs. }
  destruct (H w) as [Hg _]. by rewrite Hrun in Hg.
Qed.
End Stored.
