(* ===== verification/LlmReconcile.v ===== *)
(** * What a pass over stale requests does

    [PendingReconciler::reconcile_once] of the LLM worker ([LlmJobs.reconcile_once]): requests that
    have waited for content for too long are removed when their key is classified by now, and put
    on the streams again otherwise, the oldest first. *)

From S2P Require Import Prelude RustStr RustNum Types Http Json Db LlmAnswer LlmConfig LlmProvider LlmWorker LlmJobs LlmLifecycle.

Local Open Scope Z_scope.

Section Reconcile.
  Context `{T : JsonText} `{X : Externals} `{P : UrlPrinter}.
  Context (classification_stream page_fetch_stream : string) (cfg : PendingReconcileRuntime).

(** A request that has waited for too long, at the time of [w]. *)
Definition stale (w : LlmWorld) (r : PendingRequest) : Prop :=
  pq_status r = "waiting_content" /\ pq_updated_at r <= lw_now w - as_i32 (pr_stale_minutes cfg) * 60000.

(** The keys of a pass, with the requests as they were. *)
Definition taken (w : LlmWorld) : list (string * PendingRequest) :=
  take (Z.to_nat (as_i64 (pr_batch cfg)))
    (sort_by_key (fun kr => pq_updated_at kr.2)
       (List.filter (fun kr =>
          bool_decide (pq_status kr.2 = "waiting_content") &&
          bool_decide (pq_updated_at kr.2 <= lw_now w - as_i32 (pr_stale_minutes cfg) * 60000))
        (map_to_list (lw_requests w)))).

Lemma stale_rows_taken w : stale_rows cfg w = (fun kr => (kr.1, pq_base_url kr.2)) <$> taken w.
Proof. done. Qed.

Lemma elem_of_stale w k r :
  (k, r) ∈ List.filter (fun kr => bool_decide (pq_status kr.2 = "waiting_content") &&
      bool_decide (pq_updated_at kr.2 <= lw_now w - as_i32 (pr_stale_minutes cfg) * 60000)) (map_to_list (lw_requests w)) <->
  lw_requests w !! k = Some r /\ stale w r.
Proof.
  rewrite list_elem_of_In, filter_In, <- list_elem_of_In, elem_of_map_to_list, andb_true_iff, !bool_decide_eq_true. done.
Qed.

Lemma elem_of_taken w k r : (k, r) ∈ taken w -> lw_requests w !! k = Some r /\ stale w r.
Proof.
  intros H. apply elem_of_stale. rewrite <- (sort_by_key_perm (fun kr => pq_updated_at kr.2)).
  unfold taken in H. by eapply elem_of_take in H as (i & H & _); eapply list_elem_of_lookup_2.
Qed.

Lemma taken_keys w : NoDup (taken w).*1.
Proof.
  unfold taken. eapply sublist_NoDup; [|apply fmap_sublist, sublist_take].
  rewrite sort_by_key_perm. apply (sublist_NoDup _ (map_to_list (lw_requests w)).*1); [apply NoDup_fst_map_to_list|].
  apply fmap_sublist, filter_sublist.
Qed.

(** What becomes of a request [r] taken for [key] between [w] and [w']. *)
Definition reconciled (w w' : LlmWorld) (key : string) (r : PendingRequest) : Prop :=
  match lw_classifications w !! key with
  | Some _ => lw_requests w' !! key = None
  | None =>
      exists r', lw_requests w' !! key = Some r' /\ pq_status r' = pq_status r /\
        pq_requested_at r' = pq_requested_at r /\ lw_now w < pq_updated_at r' /\
        match parse_normalized_key_parts key with
        | None => pq_last_error r' = Some "invalid normalized key" /\ pq_base_url r' = pq_base_url r
        | Some _ =>
            pq_last_error r' = None /\
            exists job fetch, cj_normalized_key job = key /\ cj_requeue_attempt job = 0 /\
              cj_requires_content job = true /\ pq_base_url r' = cj_base_url job /\ pfj_normalized_key fetch = key /\
              XAdd classification_stream (job_text job) ∈ lw_trace w' /\ job_from_str (job_text job) = Ok job /\
              XAdd page_fetch_stream (json_print (page_fetch_to_json fetch)) ∈ lw_trace w'
        end
  end.

(** What every row leaves alone. *)
Definition frame (keys : list string) (w w' : LlmWorld) : Prop :=
  lw_faults w' = [] /\ lw_classifications w' = lw_classifications w /\ lw_now w < lw_now w' /\
  (exists es, lw_trace w' = lw_trace w ++ es) /\
  forall k, k ∉ keys -> lw_requests w' !! k = lw_requests w !! k.

Lemma reconcile_jobs_ok key level value base id job fetch b :
  reconcile_jobs key level value base id = (job, fetch, b) ->
  cj_normalized_key job = key /\ cj_requeue_attempt job = 0 /\ cj_requires_content job = true /\
  cj_base_url job = Some b /\ pfj_normalized_key fetch = key /\ job_ok job.
Proof.
  unfold reconcile_jobs. destruct (derive_urls value base) as [[hostname full] b']. intros [= <- <- <-]. cbn.
  split_and!; [done..|]. split; cbn; [|done]. unfold is_u64, u64_max. lia.
Qed.

Lemma reconcile_row_calm key r w :
  lw_faults w = [] -> lw_requests w !! key = Some r ->
  exists w', reconcile_row classification_stream page_fetch_stream (key, pq_base_url r) w = (Ok tt, w') /\
    frame [key] w w' /\ reconciled w w' key r.
Proof.
  intros Hf Hr. unfold reconcile_row, query, exec. unfold mbind at 1, w_bind at 1. rewrite io_calm by done. cbn [fst snd].
  set (w1 := set_clock _ _ _ _ w). unfold reconciled. change (lw_classifications w1) with (lw_classifications w).
  destruct (lw_classifications w !! key) as [row|];
    [rewrite bool_decide_eq_true_2 by done|rewrite bool_decide_eq_false_2 by (by intros [])].
  { rewrite io_calm by done. eexists. split; [done|]. split; [|apply lookup_delete_eq].
    split_and!; cbn; [done|done|lia|by exists []; rewrite app_nil_r|]. intros k Hk. rewrite lookup_delete_ne by set_solver. done. }
  destruct (parse_normalized_key_parts key) as [[level value]|].
  - unfold mbind, w_bind, fresh_uuid. destruct (reconcile_jobs _ _ _ _ _) as [[job fetch] b] eqn:Ejob.
    apply reconcile_jobs_ok in Ejob as (Hk & Ha & Hc & Hb & Hp & Hok).
    unfold redis_effect. do 3 (rewrite io_calm by done; cbn [fst snd]). eexists. split; [done|]. split.
    { split_and!; cbn; [done|done|lia| |].
      - eexists. by rewrite <- (assoc_L (++)).
      - intros k Hk'. by rewrite lookup_alter_ne by set_solver. }
    cbn. rewrite lookup_alter_eq, Hr. cbn. eexists. split; [done|]. cbn. split_and!; [done|done|lia|done|].
    exists job, fetch. split_and!; [done..|set_solver|by apply job_text_round_trip|set_solver].
  - rewrite io_calm by done. eexists. split; [done|]. split.
    { split_and!; cbn; [done|done|lia|by exists []; rewrite app_nil_r|]. intros k Hk. by rewrite lookup_alter_ne by set_solver. }
    cbn. rewrite lookup_alter_eq, Hr. cbn. eexists. split; [done|]. cbn. split_and!; [done|done|lia|done|done].
Qed.

Lemma frame_trans k1 k2 w1 w2 w3 : frame k1 w1 w2 -> frame k2 w2 w3 -> frame (k1 ++ k2) w1 w3.
Proof.
  intros (_ & Hc1 & Hn1 & (e1 & He1) & Hk1) (Hf2 & Hc2 & Hn2 & (e2 & He2) & Hk2). split_and!; [done|congruence|lia| |].
  - exists (e1 ++ e2). by rewrite He2, He1, (assoc_L (++)).
  - intros k Hk. rewrite Hk2, Hk1 by set_solver. done.
Qed.

Lemma reconciled_before keys w1 w2 w3 key r :
  frame keys w1 w2 -> reconciled w2 w3 key r -> reconciled w1 w3 key r.
Proof.
  intros (_ & Hc & Hn & _). unfold reconciled. rewrite Hc. destruct (lw_classifications w1 !! key); [done|].
  intros (r' & H1 & H2 & H3 & H4 & H5). exists r'. split_and!; [done..|lia|done].
Qed.
Lemma reconciled_after keys w1 w2 w3 key r :
  frame keys w2 w3 -> key ∉ keys -> reconciled w1 w2 key r -> reconciled w1 w3 key r.
Proof.
  intros (_ & _ & _ & (es & Hes) & Hk) Hkey. unfold reconciled. destruct (lw_classifications w1 !! key); [by rewrite Hk|].
  intros (r' & H1 & H2 & H3 & H4 & H5). exists r'. rewrite Hk by done. split_and!; [done..|].
  destruct (parse_normalized_key_parts key); [|done]. destruct H5 as (? & job & fetch & ? & ? & ? & ? & ? & H6 & ? & H7).
  split; [done|]. exists job, fetch. rewrite Hes. split_and!; [done..|by apply elem_of_app; left|done|by apply elem_of_app; left].
Qed.

Lemma reconcile_rows_calm rows : forall w,
  lw_faults w = [] -> NoDup rows.*1 -> (forall k r, (k, r) ∈ rows -> lw_requests w !! k = Some r) -> rows <> [] ->
  exists w', reconcile_rows classification_stream page_fetch_stream ((fun kr => (kr.1, pq_base_url kr.2)) <$> rows) w = (Ok tt, w') /\
    frame rows.*1 w w' /\ forall k r, (k, r) ∈ rows -> reconciled w w' k r.
Proof.
  induction rows as [|[k0 r0] rows IH]; intros w Hf Hnd Hrows Hne; [done|]. apply NoDup_cons in Hnd as [Hk0 Hnd].
  cbn [fmap list_fmap reconcile_rows fst snd]. unfold mbind, w_bind.
  destruct (reconcile_row_calm k0 r0 w Hf (Hrows _ _ ltac:(by left))) as (w1 & -> & Hfr & Hrec).
  destruct (decide (rows = [])) as [->|Hne'].
  { exists w1. split_and!; [done..|]. intros k r [[= -> ->]|?%elem_of_nil]%elem_of_cons; done. }
  destruct (IH w1) as (w2 & Hrun & Hfr2 & Hrec2); [apply Hfr|done| |done|].
  { intros k r Hkr. rewrite (proj2 (proj2 (proj2 (proj2 Hfr)))); [apply Hrows; by right|].
    intros ->%list_elem_of_singleton. apply Hk0. apply list_elem_of_fmap. by exists (k0, r). }
  exists w2. split; [exact Hrun|]. split; [exact (frame_trans [k0] _ _ _ _ Hfr Hfr2)|].
  intros k r [[= -> ->]|Hkr]%elem_of_cons; [by eapply reconciled_after|]. by eapply reconciled_before; [|apply Hrec2].
Qed.

(** A pass over the stale requests, when nothing fails, takes the oldest of those that have
    waited for content for too long, up to the batch: a request whose key is classified by now is
    removed; one with a proper key is put on both streams, as a job that reads back with its
    attempts at zero, and one with an improper key is marked; all of these are stamped with the
    current time, so that the next pass takes others.  Every other request is left alone. *)
Theorem reconcile_pass w :
  lw_faults w = [] ->
  let w0 := set_clock (lw_now w + 1) [] (lw_sent w) (lw_trace w) w in
  exists w', reconcile_once classification_stream page_fetch_stream cfg w = (Ok tt, w') /\
    lw_classifications w' = lw_classifications w /\
    (forall k r, (k, r) ∈ taken w0 -> lw_requests w !! k = Some r /\ stale w0 r /\ reconciled w0 w' k r) /\
    (forall k, k ∉ (taken w0).*1 -> lw_requests w' !! k = lw_requests w !! k) /\
    forall k r, lw_requests w !! k = Some r -> stale w0 r ->
      (k, r) ∈ taken w0 \/
      length (taken w0) = Z.to_nat (as_i64 (pr_batch cfg)) /\
      forall k' r', (k', r') ∈ taken w0 -> pq_updated_at r' <= pq_updated_at r.
Proof.
  intros Hf w0.
  assert (forall k r, lw_requests w !! k = Some r -> stale w0 r -> (k, r) ∈ taken w0 \/
      length (taken w0) = Z.to_nat (as_i64 (pr_batch cfg)) /\
      forall k' r', (k', r') ∈ taken w0 -> pq_updated_at r' <= pq_updated_at r) as Hfair.
  { intros k r Hr Hs. destruct (take_sorted (fun kr : string * PendingRequest => pq_updated_at kr.2)
      (Z.to_nat (as_i64 (pr_batch cfg))) _ (k, r) (proj2 (elem_of_stale w0 k r) (conj Hr Hs))) as [H|[H1 H2]]; [by left|].
    right. split; [done|]. intros k' r' H. exact (H2 (k', r') H). }
  unfold reconcile_once, query. unfold mbind at 1, w_bind at 1. rewrite io_calm by done. fold w0. rewrite stale_rows_taken.
  pose proof (taken_keys w0) as Hnd. pose proof (elem_of_taken w0) as Htaken.
  destruct (taken w0) as [|x rows]; cbn [fmap list_fmap].
  { exists w0. split_and!; [done..| |done|done]. by intros k r ?%elem_of_nil. }
  unfold exec, mbind, w_bind. rewrite io_calm by done. set (w1 := id _).
  destruct (reconcile_rows_calm (x :: rows) w1) as (w' & Hrun & Hfr & Hrec); [done|done| |done|].
  { intros k r Hkr. by apply Htaken. }
  exists w'. split; [exact Hrun|]. pose proof Hfr as (_ & Hc & _ & _ & Hk). split_and!; [done| |done|done].
  intros k r Hkr. destruct (Htaken k r Hkr). split_and!; [done..|].
  eapply (reconciled_before []); [|by apply Hrec]. split_and!; [done|done|cbn; lia|by exists []; cbn; rewrite app_nil_r|done].
Qed.

End Reconcile.

Module ReconcileDemo.
#[local] Existing Instance JsonDemo.text.

Definition urls : UrlPrinter := {| Url_print s := s; Url_print_root s := s |}.
Definition cfg : PendingReconcileRuntime :=
  {| pr_enabled := true; pr_interval_secs := 60; pr_stale_minutes := 10; pr_batch := 1 |}.
Definition waiting (at_ : Z) : PendingRequest :=
  {| pq_status := "waiting_content"; pq_base_url := None; pq_last_error := None; pq_requested_at := at_; pq_updated_at := at_ |}.
Definition world : LlmWorld :=
  set_clock 1000000 [] 0 [] (set_requests {[ "domain:a.com" := waiting 5; "domain:b.com" := waiting 7 ]} LlmDemo.world).

Lemma reconcile_pass_witness :
  exists w', reconcile_once (X := Demo.libs) (P := urls) "jobs" "pages" cfg world = (Ok tt, w') /\
    lw_requests w' !! "domain:b.com" = Some (waiting 7).
Proof.
  destruct (reconcile_pass (X := Demo.libs) (P := urls) "jobs" "pages" cfg world eq_refl) as (w' & Hrun & _ & _ & Hrest & _).
  exists w'. split; [exact Hrun|]. rewrite Hrest; [vm_compute; reflexivity|]. apply (bool_decide_unpack _). vm_compute. exact I.
Defined.

End ReconcileDemo.
