(* ===== verification/Reclass.v ===== *)
(** * The reclassification worker

    [workers/reclass-worker/src/main.rs]: the planner schedules a job for every classification
    whose time has come, and the dispatcher hands pending jobs to the classification queue.  The
    two run concurrently on the admin database.

    [FOR UPDATE SKIP LOCKED] only matters between instances of the worker and is left out; so are
    the metrics, except that reading the backlog for them can fail an iteration. *)

From S2P Require Import Prelude RustStr RustNum Types Json ConfigCore ServiceConfig Db Io Taxonomy CanonicalTaxonomy LlmProvider LlmWorker.

Local Open Scope Z_scope.

(** ** Configuration *)

Record ReclassConfig := {
  rcf_redis_url : string;
  rcf_job_stream : string;
  rcf_database_url : string;
  rcf_planner_interval_seconds : Z;
  rcf_planner_batch_size : Z;
  rcf_dispatcher_batch_size : Z;
  rcf_db_pool_size : Z;
  rcf_page_fetch_queue : option PageFetchQueueConfig
}.

Section Configuration.
  Context (env : Env) `{X : Externals}.

Definition reclass_validate_config (cfg : ReclassConfig) : result string unit :=
  let v := new_validator "reclass-worker" in
  let v := require_non_empty "reclass.redis_url" (Some (rcf_redis_url cfg))
    "set redis_url in config/reclass-worker.json" v in
  let v := require_non_empty "reclass.database_url" (Some (rcf_database_url cfg))
    "set database_url in config/reclass-worker.json" v in
  let v := require_auth_url env "reclass.redis_url" (Some (rcf_redis_url cfg)) false true 16
    "set redis_url in config/reclass-worker.json with password-authenticated Redis credentials" v in
  let v := require_auth_url env "reclass.database_url" (Some (rcf_database_url cfg)) true true 12
    "set database_url in config/reclass-worker.json with non-default DB credentials" v in
  let v := when (rcf_page_fetch_queue cfg) (fun queue =>
    require_auth_url env "reclass.page_fetch_queue.redis_url" (Some (pf_redis_url queue)) false true 16
      "set page_fetch_queue.redis_url with password-authenticated Redis credentials") v in
  finish v.

Definition reclass_apply_env_overrides (cfg : ReclassConfig) : ReclassConfig :=
  let override key old := match env !! key with
    | Some v => if is_empty (trim v) then old else trim v
    | None => old end in
  {| rcf_redis_url := override "OD_CACHE_REDIS_URL" (rcf_redis_url cfg);
     rcf_job_stream := rcf_job_stream cfg;
     rcf_database_url := override "OD_ADMIN_DATABASE_URL" (rcf_database_url cfg);
     rcf_planner_interval_seconds := rcf_planner_interval_seconds cfg;
     rcf_planner_batch_size := rcf_planner_batch_size cfg;
     rcf_dispatcher_batch_size := rcf_dispatcher_batch_size cfg;
     rcf_db_pool_size := rcf_db_pool_size cfg;
     rcf_page_fetch_queue :=
       (fun queue => {| pf_redis_url := override "OD_PAGE_FETCH_REDIS_URL" (pf_redis_url queue);
                        pf_stream := pf_stream queue; pf_ttl_seconds := pf_ttl_seconds queue |})
       <$> rcf_page_fetch_queue cfg |}.

End Configuration.

(** ** Tables and effects *)

(** The columns of [classifications] the worker reads or writes. *)
Record DueClassification := {
  dc_id : Uuid;
  dc_normalized_key : string;
  dc_primary_category : string;
  dc_subcategory : string;
  dc_taxonomy_version : string;
  dc_ttl_seconds : option Z;
  dc_status : string;
  dc_next_refresh_at : option Z;
  dc_updated_at : Z
}.
Record ReclassJob := {
  rj_id : Uuid;
  rj_normalized_key : string;
  rj_reason : string;
  rj_status : string;
  rj_created_at : Z;
  rj_started_at : option Z;
  rj_completed_at : option Z
}.
Record ReclassTables := {
  rt_classifications : list DueClassification;
  rt_jobs : list ReclassJob;
  rt_pages : list PageContentRow
}.
Definition set_jobs (jobs : list ReclassJob) (t : ReclassTables) : ReclassTables :=
  {| rt_classifications := rt_classifications t; rt_jobs := jobs; rt_pages := rt_pages t |}.
Definition set_due (rows : list DueClassification) (t : ReclassTables) : ReclassTables :=
  {| rt_classifications := rows; rt_jobs := rt_jobs t; rt_pages := rt_pages t |}.

(** [XADD stream * payload ..]. *)
Record Added := { ad_stream : string; ad_payload : string }.

Abbreviation RM := (M ReclassTables Added string).

(** [UPDATE .. WHERE id = $1]. *)
Definition update_where {A} (id_of : A -> Uuid) (id : Uuid) (f : A -> A) (rows : list A) : list A :=
  (fun r => if decide (id_of r = id) then f r else r) <$> rows.

(** [LIMIT n]; a negative limit is an error of the statement. *)
Definition limited {A} (n : Z) (m : RM (list A)) : RM (list A) :=
  if decide (n < 0) then of_result (Err DB_ERROR) else rows ← m; mret (take (Z.to_nat n) rows).

Definition fetch_backlog : RM Z :=
  fetch (fun _ t => Z.of_nat (length (filter (fun j => rj_status j = "pending") (rt_jobs t)))).

(** ** The planner *)

Section Planner.
  Context `{U : Unicode} (taxonomy : TaxonomyStore) (batch_size : Z).

Definition is_due (now : Z) (r : DueClassification) : bool :=
  bool_decide (dc_status r = "active") &&
  match dc_next_refresh_at r with Some at_ => bool_decide (at_ <= now) | None => false end.

Definition due_rows : RM (list DueClassification) :=
  limited batch_size (fetch (fun now t =>
    sort_by_key (fun r => default 0 (dc_next_refresh_at r)) (List.filter (is_due now) (rt_classifications t)))).

Definition relabel (category subcategory version : string) (now : Z) (r : DueClassification) : DueClassification :=
  {| dc_id := dc_id r; dc_normalized_key := dc_normalized_key r; dc_primary_category := category;
     dc_subcategory := subcategory; dc_taxonomy_version := version; dc_ttl_seconds := dc_ttl_seconds r;
     dc_status := dc_status r; dc_next_refresh_at := dc_next_refresh_at r; dc_updated_at := now |}.
Definition reschedule (next : Z) (now : Z) (r : DueClassification) : DueClassification :=
  {| dc_id := dc_id r; dc_normalized_key := dc_normalized_key r; dc_primary_category := dc_primary_category r;
     dc_subcategory := dc_subcategory r; dc_taxonomy_version := dc_taxonomy_version r;
     dc_ttl_seconds := dc_ttl_seconds r; dc_status := dc_status r; dc_next_refresh_at := Some next;
     dc_updated_at := now |}.

(** A taxonomy that cannot resolve a label would panic; a validated one always can. *)
Definition ensure_canonical_labels (id : Uuid) (category subcategory : string) : RM unit :=
  validated ← of_result (ok_or (validate_labels taxonomy category (Some subcategory)) "panic");
  let new_category := cat_id (vl_category validated) in
  let new_subcategory := sub_id (vl_subcategory validated) in
  if bool_decide (vl_fallback_reason validated <> None) || negb (bool_decide (new_category = category)) ||
     negb (bool_decide (new_subcategory = subcategory))
  then update (fun now t => set_due (update_where dc_id id
         (relabel new_category new_subcategory (tx_version (ts_taxonomy taxonomy)) now) (rt_classifications t)) t)
  else mret tt.

Definition is_open (j : ReclassJob) : bool :=
  bool_decide (rj_status j = "pending") || bool_decide (rj_status j = "running").

(** [INSERT .. SELECT .. WHERE NOT EXISTS (..) RETURNING id]: whether a row was inserted. *)
Definition insert_unless_open (id : Uuid) (key : string) (now : Z) (t : ReclassTables) : bool * ReclassTables :=
  if any (fun j => bool_decide (rj_normalized_key j = key) && is_open j) (rt_jobs t) then (false, t)
  else (true, set_jobs (rt_jobs t ++ [{| rj_id := id; rj_normalized_key := key; rj_reason := "ttl_refresh";
                                        rj_status := "pending"; rj_created_at := now; rj_started_at := None;
                                        rj_completed_at := None |}]) t).

Definition plan_row (r : DueClassification) : RM bool :=
  _ ← ensure_canonical_labels (dc_id r) (dc_primary_category r) (dc_subcategory r);
  let ttl := Z.max (default 3600 (dc_ttl_seconds r)) 300 in
  t ← utc_now;
  _ ← update (fun now s => set_due (update_where dc_id (dc_id r) (reschedule (t + ttl * 1000) now) (rt_classifications s)) s);
  id ← new_v4;
  sql (insert_unless_open id (dc_normalized_key r)).

Fixpoint plan_rows (rows : list DueClassification) : RM Z :=
  match rows with
  | [] => mret 0
  | r :: rows' => inserted ← plan_row r; n ← plan_rows rows'; mret (if inserted : bool then n + 1 else n)
  end.

Definition plan_batch : RM Z :=
  planned ← transaction (rows ← due_rows; plan_rows rows);
  _ ← fetch_backlog;
  mret planned.

End Planner.

(** ** The dispatcher *)

Record JobTarget := { jt_entity_level : string; jt_hostname : string; jt_full_url : string }.

Section Dispatcher.
  Context `{X : Externals} `{P : UrlPrinter} `{T : JsonText}.
  Context (job_stream : string) (page_fetch : option (string * Z)) (batch_size : Z).

Definition derive_base_url (full_url hostname : string) : string :=
  match (parsed ← Url_parse full_url; host ← u_host_str parsed; Some (u_scheme parsed +:+ "://" +:+ host +:+ "/")) with
  | Some base => base
  | None => "https://" +:+ hostname +:+ "/"
  end.

Definition build_target (key : string) : result string JobTarget :=
  match split_once ":" key with
  | None => Err ("normalized_key missing prefix: " +:+ key)
  | Some (prefix, remainder) =>
      if decide (prefix = "domain" \/ prefix = "subdomain") then
        let host := trim_end_matches "/" (trim_start_matches "/" (trim remainder)) in
        if is_empty host then Err ("empty host for normalized key " +:+ key)
        else Ok {| jt_entity_level := prefix; jt_hostname := host; jt_full_url := "https://" +:+ host +:+ "/" |}
      else if decide (prefix = "url" \/ prefix = "page") then
        parsed ← ok_or (Url_parse remainder) ("invalid URL in normalized key " +:+ key);
        host ← ok_or (u_host_str parsed) ("url missing host for key " +:+ key);
        Ok {| jt_entity_level := prefix; jt_hostname := host; jt_full_url := Url_print remainder |}
      else Err ("unsupported entity level " +:+ prefix +:+ " for key " +:+ key)
  end.

(** [ClassificationJobMessage] as it is written; the counter and override of the worker's own
    payload are absent. *)
Definition message_to_json (key : string) (target : JobTarget) (trace_id base_url : string)
    (content : option PageContentSnippet) : Json :=
  JObj ([("normalized_key", JStr key); ("entity_level", JStr (jt_entity_level target));
         ("hostname", JStr (jt_hostname target)); ("full_url", JStr (jt_full_url target)); ("trace_id", JStr trace_id);
         ("idempotency_key", JStr ("cls:" +:+ key +:+ ":" +:+ trace_id)); ("requires_content", JBool true);
         ("base_url", JStr base_url)] ++
        field_opt "content_excerpt" JStr (content ≫= sn_excerpt) ++
        field_opt "content_hash" JStr (content ≫= sn_hash) ++
        field_opt "content_version" JInt (content ≫= sn_version)).

(** [PageFetchPublisher::new] keeps the default at 60 seconds or more. *)
Definition fetch_message (key base_url hostname trace_id : string) (default_ttl : Z) : PageFetchJob :=
  {| pfj_normalized_key := key; pfj_url := base_url; pfj_hostname := hostname; pfj_candidate_urls := [base_url];
     pfj_trace_id := Some trace_id; pfj_idempotency_key := Some ("page:" +:+ key +:+ ":" +:+ trace_id);
     pfj_ttl_seconds := Some (Z.max default_ttl 60) |}.

(** The latest content that has not expired, whatever became of the fetch. *)
Definition load_content (key : string) : RM (option PageContentSnippet) :=
  fetch (fun now t =>
    (fun r => {| sn_excerpt := pg_text_excerpt r; sn_hash := pg_content_hash r; sn_version := Some (pg_fetch_version r) |}) <$>
    head (order_desc pg_fetch_version (List.filter (fun r =>
      bool_decide (pg_normalized_key r = key) && bool_decide (now < pg_expires_at r)) (rt_pages t)))).

Definition set_job_status (status : string) (started completed : option Z) (j : ReclassJob) : ReclassJob :=
  {| rj_id := rj_id j; rj_normalized_key := rj_normalized_key j; rj_reason := rj_reason j; rj_status := status;
     rj_created_at := rj_created_at j; rj_started_at := started; rj_completed_at := completed |}.
Definition update_job (id : Uuid) (f : Z -> ReclassJob -> ReclassJob) : RM unit :=
  update (fun now t => set_jobs (update_where rj_id id (f now) (rt_jobs t)) t).
Definition start_job (now : Z) (j : ReclassJob) : ReclassJob := set_job_status "running" (Some now) (rj_completed_at j) j.
Definition complete_job (now : Z) (j : ReclassJob) : ReclassJob :=
  set_job_status "completed" (rj_started_at j) (Some now) j.
Definition retry_job (now : Z) (j : ReclassJob) : ReclassJob := set_job_status "pending" None (rj_completed_at j) j.
Definition fail_job (now : Z) (j : ReclassJob) : ReclassJob := set_job_status "failed" (rj_started_at j) (Some now) j.

Definition pending_rows : RM (list ReclassJob) :=
  limited batch_size (fetch (fun _ t =>
    sort_by_key rj_created_at (List.filter (fun j => bool_decide (rj_status j = "pending")) (rt_jobs t)))).

(** The transaction that takes a batch. *)
Definition claim_batch : RM (list ReclassJob) :=
  transaction (rows ← pending_rows; _ ← each (fun j => update_job (rj_id j) start_job) rows; mret rows).

(** One job of the batch: whether it was dispatched. *)
Definition dispatch_job (j : ReclassJob) : RM bool :=
  let key := rj_normalized_key j in
  let trace_id := pretty (rj_id j) in
  match build_target key with
  | Err _ => _ ← update_job (rj_id j) fail_job; mret false
  | Ok target =>
      content ← load_content key;
      let base_url := derive_base_url (jt_full_url target) (jt_hostname target) in
      r ← outcome (command {| ad_stream := job_stream;
                              ad_payload := json_print (message_to_json key target trace_id base_url content) |});
      match r with
      | Ok _ =>
          _ ← update_job (rj_id j) complete_job;
          _ ← match page_fetch with
              | Some (stream, default_ttl) =>
                  dropped (command {| ad_stream := stream; ad_payload := json_print
                    (page_fetch_to_json (fetch_message key base_url (jt_hostname target) trace_id default_ttl)) |})
              | None => mret tt
              end;
          mret true
      | Err _ => _ ← update_job (rj_id j) retry_job; mret false
      end
  end.

Fixpoint dispatch_jobs (rows : list ReclassJob) : RM Z :=
  match rows with
  | [] => mret 0
  | j :: rows' => sent ← dispatch_job j; n ← dispatch_jobs rows'; mret (if sent : bool then n + 1 else n)
  end.

Definition dispatch_batch : RM Z :=
  rows ← claim_batch;
  processed ← dispatch_jobs rows;
  _ ← fetch_backlog;
  mret processed.

End Dispatcher.

(** ** At most one open job for a key *)

Definition open_keys (jobs : list ReclassJob) : list string :=
  rj_normalized_key <$> List.filter is_open jobs.

Record jobs_ok (n : Uuid) (jobs : list ReclassJob) : Prop := {
  jobs_ids : NoDup (rj_id <$> jobs);
  jobs_supply : forall j, j ∈ jobs -> (rj_id j < n)%nat;
  jobs_open : NoDup (open_keys jobs)
}.

Lemma elem_of_open_keys jobs key :
  key ∈ open_keys jobs <-> exists j, j ∈ jobs /\ is_open j = true /\ rj_normalized_key j = key.
Proof.
  unfold open_keys. rewrite list_elem_of_fmap. split.
  - intros (j & -> & Hj). apply list_elem_of_In, filter_In in Hj as [Hj ?]. exists j. by rewrite list_elem_of_In.
  - intros (j & Hj & Ho & <-). exists j. split; [done|]. apply list_elem_of_In, filter_In. by rewrite <- list_elem_of_In.
Qed.

Lemma open_keys_app jobs jobs' : open_keys (jobs ++ jobs') = open_keys jobs ++ open_keys jobs'.
Proof. unfold open_keys. by rewrite List.filter_app, fmap_app. Qed.

(** An update of one row that opens nothing. *)
Lemma update_where_ok n jobs id f :
  (forall j, rj_id (f j) = rj_id j /\ rj_normalized_key (f j) = rj_normalized_key j) ->
  (forall j, j ∈ jobs -> rj_id j = id -> is_open (f j) = true -> is_open j = true) ->
  jobs_ok n jobs -> jobs_ok n (update_where rj_id id f jobs).
Proof.
  intros Hf Hopen [H1 H2 H3].
  assert (rj_id <$> update_where rj_id id f jobs = rj_id <$> jobs) as Hids.
  { unfold update_where. rewrite <- list_fmap_compose. apply list_fmap_ext. intros i j _. cbn. case_decide; [apply Hf|done]. }
  split; [by rewrite Hids| |].
  - intros j Hj. assert (rj_id j ∈ (rj_id <$> jobs)) as (j' & -> & Hj')%list_elem_of_fmap; [|by apply H2].
    rewrite <- Hids. by apply list_elem_of_fmap; exists j.
  - eapply sublist_NoDup; [exact H3|]. clear H1 H2 H3 Hids. unfold open_keys, update_where.
    induction jobs as [|j jobs IH]; cbn; [done|].
    assert (rj_normalized_key <$> List.filter is_open ((fun r => if decide (rj_id r = id) then f r else r) <$> jobs)
      `sublist_of` rj_normalized_key <$> List.filter is_open jobs) as IH'.
    { apply IH. intros j' Hj'. apply Hopen. by right. }
    case_decide as Hid; [|by destruct (is_open j); [constructor|]].
    destruct (is_open (f j)) eqn:Eo.
    + rewrite (Hopen j ltac:(by left) Hid Eo). cbn. rewrite (proj2 (Hf j)). by constructor.
    + destruct (is_open j); [by constructor|done].
Qed.

Lemma insert_ok n jobs key now :
  jobs_ok n jobs -> key ∉ open_keys jobs ->
  jobs_ok (S n) (jobs ++ [{| rj_id := n; rj_normalized_key := key; rj_reason := "ttl_refresh"; rj_status := "pending";
                             rj_created_at := now; rj_started_at := None; rj_completed_at := None |}]).
Proof.
  intros [H1 H2 H3] Hk. split.
  - rewrite fmap_app. apply NoDup_app. split_and!; [done| |by apply NoDup_singleton].
    intros i (j & -> & Hj)%list_elem_of_fmap. cbn. intros E%list_elem_of_singleton. specialize (H2 j Hj). lia.
  - intros j [Hj| ->%list_elem_of_singleton]%elem_of_app; [specialize (H2 j Hj); lia|cbn; lia].
  - rewrite open_keys_app. apply NoDup_app. split_and!; [done| |by apply NoDup_singleton].
    intros k Hk'. cbn. by intros ->%list_elem_of_singleton.
Qed.

(** Every step of the planner keeps the jobs in order, and the jobs that are there. *)
Definition plans (a b : Uuid * ReclassTables) : Prop :=
  jobs_ok a.1 (rt_jobs a.2) ->
  jobs_ok b.1 (rt_jobs b.2) /\ exists new, rt_jobs b.2 = rt_jobs a.2 ++ new.

#[local] Instance plans_preorder : PreOrder plans.
Proof.
  split; [intros a H; split; [done|exists []; by rewrite app_nil_r]|]. intros a b c H1 H2 H.
  destruct (H1 H) as (Hb & n1 & E1). destruct (H2 Hb) as (Hc & n2 & E2). split; [done|].
  exists (n1 ++ n2). by rewrite E2, E1, (assoc_L (++)).
Qed.
Lemma jobs_ok_more n n' jobs : (n <= n')%nat -> jobs_ok n jobs -> jobs_ok n' jobs.
Proof. intros Hn [H1 H2 H3]. split; [done| |done]. intros j Hj. specialize (H2 j Hj). lia. Qed.
#[local] Instance plans_supply : Supply plans.
Proof. intros n n' s Hn H. split; [by eapply jobs_ok_more|exists []; by rewrite app_nil_r]. Qed.
Lemma plans_same n s s' : rt_jobs s' = rt_jobs s -> plans (n, s) (n, s').
Proof. intros E H. cbn in *. rewrite E. split; [done|exists []; by rewrite app_nil_r]. Qed.

Lemma insert_unless_open_plans now n s key :
  plans (n, s) (S n, (insert_unless_open n key now s).2).
Proof.
  intros H. cbn in *. unfold insert_unless_open. destruct (any _ _) eqn:E; cbn.
  - split; [by eapply jobs_ok_more; [|exact H]; lia|exists []; by rewrite app_nil_r].
  - split; [|by eexists]. apply insert_ok; [done|]. rewrite elem_of_open_keys. intros (j & Hj & Ho & Hk).
    rewrite any_false in E. specialize (E j Hj). rewrite Hk, bool_decide_true in E by done. by rewrite Ho in E.
Qed.

Section System.
  Context `{U : Unicode} `{X : Externals} `{P : UrlPrinter} `{T : JsonText}.
  Context (taxonomy : TaxonomyStore) (planner_batch : Z).
  Context (job_stream : string) (page_fetch : option (string * Z)) (dispatcher_batch : Z).
  Abbreviation World := (Io ReclassTables Added).

Lemma plan_batch_keeps : keeps plans (plan_batch taxonomy planner_batch) (fun _ => True).
Proof.
  unfold plan_batch. apply keeps_then; [apply _| |intros n].
  2: { apply keeps_then; [apply _|by apply keeps_fetch; apply _|intros; by apply keeps_ret; [apply _|]]. }
  apply keeps_transaction; [apply _..|]. apply keeps_then; [apply _| |intros rows].
  { unfold due_rows, limited. case_decide; [by apply keeps_result; [apply _|]|].
    apply keeps_then; [apply _|apply keeps_fetch; apply _|intros; by apply keeps_ret; [apply _|]]. }
  induction rows as [|r rows IH]; cbn [plan_rows]; [by apply keeps_ret; [apply _|]|].
  apply keeps_then; [apply _| |intros inserted].
  2: { apply keeps_then; [apply _|exact IH|intros; by apply keeps_ret; [apply _|]]. }
  unfold plan_row. apply keeps_then; [apply _| |intros _].
  { unfold ensure_canonical_labels. apply keeps_then; [apply _|by apply keeps_result; [apply _|]|intros v].
    destruct (_ || _); [|by apply keeps_ret; [apply _|]]. apply keeps_update; [apply _..|]. intros. by apply plans_same. }
  apply keeps_then; [apply _|apply keeps_now; apply _|intros now].
  apply keeps_then; [apply _|apply keeps_update; [apply _..|]; intros; by apply plans_same|intros _].
  apply keeps_v4_sql; [apply _..|]. intros. apply insert_unless_open_plans.
Qed.

Lemma update_job_cases id f (w : World) :
  is_ok (update_job id f w).1 = false /\ view (update_job id f w).2 = view w \/
  exists now, (update_job id f w).1 = Ok tt /\
    view (update_job id f w).2 = (io_next_uuid w, set_jobs (update_where rj_id id (f now) (rt_jobs (io_tables w))) (io_tables w)).
Proof.
  unfold update_job, update, sql, step. destruct (io_faults w) as [|[] ?]; [right|by left|right]; by eexists.
Qed.

(** What one job of the batch does to the table: nothing and an error, or one change of its row. *)
Definition job_done (j : ReclassJob) (w : World) (rw : result string bool * World) : Prop :=
  is_ok rw.1 = false /\ view rw.2 = view w \/
  exists f now, (f = complete_job \/ f = retry_job \/ f = fail_job) /\ is_ok rw.1 = true /\
    view rw.2 = (io_next_uuid w, set_jobs (update_where rj_id (rj_id j) (f now) (rt_jobs (io_tables w))) (io_tables w)).

Lemma update_then_done j f b w w0 :
  (f = complete_job \/ f = retry_job \/ f = fail_job) -> view w0 = view w ->
  job_done j w ((_ ← update_job (rj_id j) f; mret b) w0).
Proof.
  intros Hf Hv. unfold mbind, io_bind. destruct (update_job_cases (rj_id j) f w0) as [[H1 H2]|(now & H1 & H2)];
    destruct (update_job (rj_id j) f w0) as [[[]|e] w1]; cbn in H1, H2; try done; [left|right].
  - split; [done|cbn; congruence].
  - exists f, now. split_and!; [done..|]. cbn. rewrite H2. by apply view_eq in Hv as [-> ->].
Qed.

Lemma load_content_view key (w : World) : view (load_content key w).2 = view w.
Proof. apply fetch_view. Qed.

Lemma dispatch_job_done j w :
  job_done j w (dispatch_job job_stream page_fetch j w).
Proof.
  unfold dispatch_job. destruct (build_target _) as [target|e]; [|by apply update_then_done; [right; right|]].
  unfold mbind at 1, io_bind at 1. pose proof (load_content_view (rj_normalized_key j) w) as Hc.
  destruct (load_content _ w) as [[content|e] w1]; cbn [snd] in Hc; [|by left].
  unfold mbind at 1, io_bind at 1, outcome. set (msg := {| ad_stream := _; ad_payload := _ |}).
  pose proof (command_view msg w1) as Hmsg. destruct (command msg w1) as [[[]|e] w2]; cbn [snd] in Hmsg;
    [|apply update_then_done; [by right; left|congruence]].
  unfold mbind at 1, io_bind at 1.
  destruct (update_job_cases (rj_id j) complete_job w2) as [[H1 H2]|(now & H1 & H2)];
    destruct (update_job (rj_id j) complete_job w2) as [[[]|e] w3]; cbn in H1, H2; try done.
  { left. split; [done|]. cbn. congruence. }
  set (fetched := match page_fetch with Some _ => _ | None => _ end).
  assert (is_ok (fetched w3).1 = true /\ view (fetched w3).2 = view w3) as [H3 H4].
  { unfold fetched. destruct page_fetch as [[stream ttl]|]; [|done]. split; [done|apply command_view]. }
  unfold mbind, io_bind. destruct (fetched w3) as [[[]|e] w4]; cbn in H3, H4; [|done].
  right. exists complete_job, now. split_and!; [by left|done|]. cbn. rewrite H4, H2.
  assert (view w2 = view w) as [-> ->]%view_eq by congruence. done.
Qed.

(** ** The planner and the dispatcher together *)

Definition has_status (status : string) (i : Uuid) (jobs : list ReclassJob) : Prop :=
  exists r, r ∈ jobs /\ rj_id r = i /\ rj_status r = status.
Definition is_open_id (i : Uuid) (jobs : list ReclassJob) : Prop :=
  exists r, r ∈ jobs /\ rj_id r = i /\ is_open r = true.

Lemma elem_of_update_where {A} (id_of : A -> Uuid) id f (l : list A) x :
  x ∈ update_where id_of id f l <->
  x ∈ l /\ id_of x <> id \/ exists y, y ∈ l /\ id_of y = id /\ x = f y.
Proof.
  unfold update_where. rewrite list_elem_of_fmap. split.
  - intros (y & -> & Hy). case_decide; [right; by exists y|by left].
  - intros [[Hx Hn]|(y & Hy & Hi & ->)]; [exists x; by rewrite decide_False|exists y; by rewrite decide_True].
Qed.

Lemma id_unique n jobs r r' : jobs_ok n jobs -> r ∈ jobs -> r' ∈ jobs -> rj_id r = rj_id r' -> r = r'.
Proof.
  intros [H _ _] Hr Hr' E. by eapply NoDup_fmap_unique.
Qed.

Lemma status_other f id i status jobs : i <> id -> has_status status i jobs -> has_status status i (update_where rj_id id f jobs).
Proof. intros Hne (r & Hr & Hi & Hs). exists r. split_and!; [|done..]. apply elem_of_update_where. left. split; [done|congruence]. Qed.

Lemma start_one n id now jobs :
  jobs_ok n jobs -> is_open_id id jobs ->
  let jobs' := update_where rj_id id (start_job now) jobs in
  jobs_ok n jobs' /\ has_status "running" id jobs' /\ (forall i, is_open_id i jobs -> is_open_id i jobs') /\
  (forall i, has_status "running" i jobs -> has_status "running" i jobs').
Proof.
  intros Hok (r & Hr & Hi & Ho) jobs'. assert (start_job now r ∈ jobs') as Hr'.
  { apply elem_of_update_where. right. by exists r. }
  split_and!.
  - apply update_where_ok; [done| |done]. intros j Hj Hid _. by rewrite (id_unique n jobs j r) by (done || congruence).
  - by exists (start_job now r).
  - intros i (r1 & Hr1 & Hi1 & Ho1). destruct (decide (i = id)) as [->|Hne]; [by exists (start_job now r)|].
    exists r1. split_and!; [|done..]. apply elem_of_update_where. left. split; [done|congruence].
  - intros i Hst. destruct (decide (i = id)) as [->|Hne]; [by exists (start_job now r)|by apply status_other].
Qed.

Lemma start_rows rows : forall (w : World),
  jobs_ok (io_next_uuid w) (rt_jobs (io_tables w)) -> (forall j, j ∈ rows -> is_open_id (rj_id j) (rt_jobs (io_tables w))) ->
  let rw := each (fun j => update_job (rj_id j) start_job) rows w in
  io_next_uuid rw.2 = io_next_uuid w /\ jobs_ok (io_next_uuid w) (rt_jobs (io_tables rw.2)) /\
  (forall i, has_status "running" i (rt_jobs (io_tables w)) -> has_status "running" i (rt_jobs (io_tables rw.2))) /\
  (is_ok rw.1 = true -> forall j, j ∈ rows -> has_status "running" (rj_id j) (rt_jobs (io_tables rw.2))).
Proof.
  induction rows as [|j rows IH]; intros w Hok Hopen; cbn [each].
  { cbn. split_and!; [done..|]. by intros _ j ?%elem_of_nil. }
  unfold mbind, io_bind. destruct (update_job_cases (rj_id j) start_job w) as [[H1 H2]|(now & H1 & H2)];
    destruct (update_job (rj_id j) start_job w) as [[[]|e] w1]; cbn in H1, H2; try done.
  { apply view_eq in H2 as [E1 E2]. cbn. rewrite E1, E2. by split_and!. }
  injection H2 as Hn Ht. destruct (start_one (io_next_uuid w) (rj_id j) now _ Hok (Hopen j ltac:(by left))) as (S1 & S2 & S3 & S4).
  specialize (IH w1). rewrite Hn, Ht in IH. cbn in IH. destruct IH as (I1 & I2 & I3 & I4); [done| |].
  { intros j' Hj'. apply S3, Hopen. by right. }
  cbn. split_and!; [done..|by intros i Hi; apply I3, S4|]. intros Hr j' [->|Hj']%elem_of_cons; [by apply I3|by apply I4].
Qed.

(** The rows a batch takes are pending jobs of the table, each once. *)
Lemma pending_rows_ok (w w' : World) rows :
  pending_rows dispatcher_batch w = (Ok rows, w') -> NoDup (rj_id <$> rt_jobs (io_tables w)) ->
  view w' = view w /\ NoDup (rj_id <$> rows) /\ forall j, j ∈ rows -> j ∈ rt_jobs (io_tables w) /\ rj_status j = "pending".
Proof.
  unfold pending_rows, limited. case_decide; [done|]. unfold mbind, io_bind.
  set (f := fun (_ : Z) t => sort_by_key rj_created_at _). pose proof (fetch_view f w) as Hv.
  assert (forall l w1, fetch f w = (Ok l, w1) -> l = f 0 (io_tables w)) as Hl.
  { intros l w1. unfold fetch, sql, step. by destruct (io_faults w) as [|[] ?]; intros [= <- _]. }
  destruct (fetch f w) as [[l|e] w1]; [|done]. intros [= <- <-] Hnd. rewrite (Hl l w1 eq_refl). split; [done|].
  assert (forall j, j ∈ f 0 (io_tables w) <-> j ∈ rt_jobs (io_tables w) /\ rj_status j = "pending") as Hin.
  { intros j. unfold f. rewrite sort_by_key_perm, list_elem_of_In, filter_In, <- list_elem_of_In, bool_decide_eq_true. done. }
  split.
  - eapply sublist_NoDup; [|apply fmap_sublist, sublist_take]. unfold f. rewrite sort_by_key_perm.
    eapply sublist_NoDup; [exact Hnd|]. apply fmap_sublist, filter_sublist.
  - intros j Hj. apply Hin. by eapply elem_of_take in Hj as (i & Hj & _); eapply list_elem_of_lookup_2.
Qed.

(** What the dispatcher holds: distinct jobs that are running. *)
Definition holds (h : list ReclassJob) (jobs : list ReclassJob) : Prop :=
  NoDup (rj_id <$> h) /\ forall j, j ∈ h -> has_status "running" (rj_id j) jobs.

Definition system_ok (s : World * list ReclassJob) : Prop :=
  jobs_ok (io_next_uuid s.1) (rt_jobs (io_tables s.1)) /\ holds s.2 (rt_jobs (io_tables s.1)).

Definition in_hand {A} (r : result string (list A)) : list A := default [] (result_ok r).

Lemma claim_batch_ok w :
  jobs_ok (io_next_uuid w) (rt_jobs (io_tables w)) ->
  system_ok ((claim_batch dispatcher_batch w).2, in_hand (claim_batch dispatcher_batch w).1).
Proof.
  intros Hok. unfold claim_batch, system_ok. cbn [fst snd].
  match goal with |- context [transaction ?m w] => set (body := m); destruct (transaction_cases body w) as
    [(H1 & H2 & H3)|(rows & w0 & w1 & Hv & Hm & H1 & H2)] end.
  - destruct (transaction body w) as [[]]; cbn in *; [done|]. rewrite H2. split; [|split; [constructor|by intros j ?%elem_of_nil]].
    destruct H3 as [->|(w0 & Hv & ->)]; [done|]. eapply jobs_ok_more; [|exact Hok]. apply view_eq in Hv as [<- _].
    assert (keeps (fun _ _ => True) body (fun _ => True)) as Hk; [|apply Hk].
    unfold body. assert (PreOrder (fun _ _ : Uuid * ReclassTables => True)) by by split.
    assert (Supply (fun _ _ : Uuid * ReclassTables => True)) by by intros ?.
    apply keeps_then; [done| |intros; apply keeps_then; [done| |intros; by apply keeps_ret]].
    + unfold pending_rows, limited. case_decide; [by apply keeps_result|]. apply keeps_then; [done|by apply keeps_fetch|intros; by apply keeps_ret].
    + apply keeps_each; [done|]. intros. by apply keeps_update.
  - rewrite H1. cbn. apply view_eq in H2 as [-> ->]. revert Hm. unfold body, mbind, io_bind.
    destruct (pending_rows dispatcher_batch w0) as [[rows'|e] w0'] eqn:Ep; [|done].
    apply view_eq in Hv as [Hn Ht]. apply pending_rows_ok in Ep as (Hv' & Hnd & Hrows); [|rewrite Ht; apply Hok].
    apply view_eq in Hv' as [Hn' Ht']. destruct (start_rows rows' w0') as (S1 & S2 & _ & S4).
    { by rewrite Hn', Ht', Hn, Ht. }
    { intros j Hj. destruct (Hrows j Hj) as [Hj' Hst]. rewrite Ht'. exists j. split_and!; [done..|]. unfold is_open. by rewrite Hst. }
    destruct (each _ rows' w0') as [[u|e] w2]; cbn in *; [|done]. intros [= <- <-].
    rewrite S1. split; [done|]. split; [done|]. by apply S4.
Qed.

(** One step of the two tasks, in any order: a batch of the planner, the dispatcher taking a batch
    when it holds none, or dispatching the next job it holds (an error ends the batch).  In between
    other services may change everything but the table of jobs, and any statement may fail. *)
Inductive reclass_step : World * list ReclassJob -> World * list ReclassJob -> Prop :=
  | step_plan w h : reclass_step (w, h) ((plan_batch taxonomy planner_batch w).2, h)
  | step_claim w :
      reclass_step (w, []) ((claim_batch dispatcher_batch w).2, in_hand (claim_batch dispatcher_batch w).1)
  | step_dispatch w j h :
      reclass_step (w, j :: h)
        ((dispatch_job job_stream page_fetch j w).2, if is_ok (dispatch_job job_stream page_fetch j w).1 then h else [])
  | step_others w w' h :
      rt_jobs (io_tables w') = rt_jobs (io_tables w) -> (io_next_uuid w <= io_next_uuid w')%nat ->
      reclass_step (w, h) (w', h).

Lemma dispatch_keeps_ok j h w :
  system_ok (w, j :: h) ->
  system_ok ((dispatch_job job_stream page_fetch j w).2, if is_ok (dispatch_job job_stream page_fetch j w).1 then h else []).
Proof.
  intros [Hok [Hnd Hrun]]. cbn in *. apply NoDup_cons in Hnd as [Hj Hnd]. unfold system_ok, holds. cbn [fst snd].
  destruct (dispatch_job_done j w) as [[H1 H2]|(f & now & Hf & H1 & H2)]; rewrite H1; injection H2 as -> ->.
  { split; [done|]. split; [constructor|by intros j' ?%elem_of_nil]. }
  cbn. split; [|split; [done|]].
  - apply update_where_ok; [by destruct Hf as [->|[-> | ->]]| |done]. intros j' Hj' Hid _.
    destruct (Hrun j ltac:(by left)) as (r & Hr & Hi & Hs). rewrite (id_unique _ _ j' r Hok Hj' Hr) by congruence.
    unfold is_open. by rewrite Hs.
  - intros j' Hj'. apply status_other; [|apply Hrun; by right]. intros E. apply Hj. apply list_elem_of_fmap. by exists j'.
Qed.

Lemma reclass_step_ok s s' : reclass_step s s' -> system_ok s -> system_ok s'.
Proof.
  intros Hstep. destruct Hstep as [w h|w|w j h|w w' h Hjobs Hn]; intros Hs.
  - destruct Hs as [Hok [Hnd Hrun]]. cbn in *. destruct (plan_batch_keeps w) as (_ & Hk & _). destruct (Hk Hok) as [Hok' [new E]].
    split; [done|]. split; [done|]. intros j Hj. cbn in E. destruct (Hrun j Hj) as (r & Hr & ?). exists r.
    cbn. rewrite E. split; [|done]. apply elem_of_app. by left.
  - apply claim_batch_ok, Hs.
  - by apply dispatch_keeps_ok.
  - destruct Hs as [Hok Hh]. split; cbn in *; rewrite Hjobs; [by eapply jobs_ok_more|done].
Qed.

(** C28: At most one reclassification of a key is ever under way: whatever the order in which the
    planner and the dispatcher take their turns and whichever statements fail, the open jobs
    (pending or running) have different keys, and the jobs the dispatcher holds are running. *)
Theorem one_open_job_per_key w0 w h :
  jobs_ok (io_next_uuid w0) (rt_jobs (io_tables w0)) -> rtc reclass_step (w0, []) (w, h) ->
  NoDup (open_keys (rt_jobs (io_tables w))) /\
  forall j, j ∈ h -> has_status "running" (rj_id j) (rt_jobs (io_tables w)).
Proof.
  intros Hok Hsteps. assert (system_ok (w, h)) as [[_ _ H] [_ Hrun]]; [|done].
  apply (rtc_ind_r (fun s => system_ok s) (w0, [])) in Hsteps; [done| |].
  - split; [done|]. split; [constructor|by intros j ?%elem_of_nil].
  - intros s s' _ Hstep Hs. by eapply reclass_step_ok.
Qed.

End System.

(** ** What the LLM worker receives *)

Section Delivery.
  Context `{X : Externals} `{P : UrlPrinter} `{T : JsonText}.
  Context (job_stream : string) (page_fetch : option (string * Z)).
  Abbreviation World := (Io ReclassTables Added).

(** The job as the LLM worker reads it. *)
Definition delivered (key : string) (target : JobTarget) (trace_id base_url : string)
    (content : option PageContentSnippet) : ClassificationJobPayload :=
  {| cj_normalized_key := key; cj_entity_level := jt_entity_level target; cj_hostname := jt_hostname target;
     cj_full_url := jt_full_url target; cj_trace_id := trace_id;
     cj_idempotency_key := Some ("cls:" +:+ key +:+ ":" +:+ trace_id); cj_requires_content := true;
     cj_base_url := Some base_url; cj_content_excerpt := content ≫= sn_excerpt; cj_content_hash := content ≫= sn_hash;
     cj_content_version := content ≫= sn_version; cj_content_language := None; cj_requeue_attempt := 0;
     cj_provider_override := None |}.

Lemma message_round_trip key target trace_id base_url content :
  (forall v, content ≫= sn_version = Some v -> is_i32 v) ->
  job_from_str (json_print (message_to_json key target trace_id base_url content)) =
  Ok (delivered key target trace_id base_url content).
Proof.
  intros Hv. unfold job_from_str. rewrite json_parse_print.
  2: { unfold message_to_json. destruct (content ≫= sn_excerpt), (content ≫= sn_hash), (content ≫= sn_version); reflexivity. }
  cbn [mbind result_bind]. unfold job_from_json, message_to_json. cbn [struct_fields mbind result_bind].
  assert (forall o : option string, forall s, o = Some s -> de_string (JStr s) = Ok s /\ JStr s <> JNull) as Hs by done.
  do 5 (erewrite required_Ok; [|find_field|reflexivity]; cbn [mbind result_bind]).
  erewrite (optional_Some "idempotency_key"); [|find_field|done|reflexivity]. cbn [mbind result_bind].
  erewrite (defaulted_Ok "requires_content"); [|find_field|reflexivity]. cbn [mbind result_bind].
  erewrite (optional_Some "base_url"); [|find_field|done|reflexivity]. cbn [mbind result_bind].
  erewrite (optional_Ok "content_excerpt" JStr); [|find_field|apply Hs]. cbn [mbind result_bind].
  erewrite (optional_Ok "content_hash" JStr); [|find_field|apply Hs]. cbn [mbind result_bind].
  erewrite (optional_Ok "content_version" JInt); [|find_field|].
  2: { intros v E. specialize (Hv v E). unfold is_i32, i32_min, i32_max in Hv. unfold de_i64, de_int, i64_max.
       rewrite decide_True by lia. done. }
  cbn [mbind result_bind]. unfold optional, defaulted. rewrite !lookup_field_absent by solve_absent. reflexivity.
Qed.

(** The jobs the LLM worker reads from the stream. *)
Definition received (es : list Added) : list ClassificationJobPayload :=
  omap (fun e => if decide (ad_stream e = job_stream) then result_ok (job_from_str (ad_payload e)) else None) es.

Lemma received_app es es' : received (es ++ es') = received es ++ received es'.
Proof. apply omap_app. Qed.

Definition valid_key (key : string) : bool := is_ok (build_target key).

Hypothesis (Hstream : forall stream ttl, page_fetch = Some (stream, ttl) -> stream <> job_stream).

(** Versions of page contents are [i32] columns. *)
Definition pages_ok (t : ReclassTables) : Prop := forall r, r ∈ rt_pages t -> is_i32 (pg_fetch_version r).

Lemma load_content_calm key (w : World) :
  calm w -> pages_ok (io_tables w) ->
  exists content, load_content key w = (Ok content, elapse w) /\ forall v, content ≫= sn_version = Some v -> is_i32 v.
Proof.
  intros Hw Hp. unfold load_content. rewrite fetch_calm by done. eexists. split; [done|]. intros v.
  destruct (head _) as [r|] eqn:E; cbn; [|done]. intros [= <-]. apply Hp. apply head_Some_elem_of in E.
  unfold order_desc in E. rewrite sort_by_key_perm in E. by apply list_elem_of_In, filter_In in E as [?%list_elem_of_In _].
Qed.

(** One job when nothing fails. *)
Lemma dispatch_job_calm j (w : World) :
  calm w -> pages_ok (io_tables w) ->
  exists w' now es, dispatch_job job_stream page_fetch j w = (Ok (valid_key (rj_normalized_key j)), w') /\ calm w' /\
    io_trace w' = io_trace w ++ es /\
    io_tables w' = set_jobs (update_where rj_id (rj_id j)
      ((if valid_key (rj_normalized_key j) then complete_job else fail_job) now) (rt_jobs (io_tables w))) (io_tables w) /\
    ((fun p => (cj_normalized_key p, cj_trace_id p, cj_requeue_attempt p)) <$> received es) =
      if valid_key (rj_normalized_key j) then [(rj_normalized_key j, pretty (rj_id j), 0)] else [].
Proof.
  intros Hw Hp. unfold dispatch_job, valid_key. destruct (build_target _) as [target|e]; cbn [is_ok].
  2: { unfold mbind, io_bind, update_job. rewrite update_calm by done. eexists _, _, []. split_and!; try done;
       [by apply calm_elapse|by rewrite app_nil_r]. }
  unfold mbind, io_bind. destruct (load_content_calm (rj_normalized_key j) w Hw Hp) as (content & -> & Hv).
  assert (calm (elapse w)) as Hw1 by by apply calm_elapse. unfold outcome. rewrite command_calm by done.
  assert (forall w0 : World, calm w0 -> calm (elapse w0)) as Hel by apply calm_elapse.
  unfold update_job. rewrite update_calm by (by apply Hel).
  set (msg := {| ad_stream := job_stream; ad_payload := _ |}).
  assert (received [msg] = [delivered (rj_normalized_key j) target (pretty (rj_id j))
    (derive_base_url (jt_full_url target) (jt_hostname target)) content]) as Hmsg.
  { unfold received. cbn. rewrite decide_True by done. by rewrite message_round_trip. }
  destruct page_fetch as [[stream ttl]|].
  - unfold dropped. rewrite command_calm by (by repeat apply Hel). set (fetched := {| ad_stream := stream; ad_payload := _ |}).
    eexists _, _, ([msg] ++ [fetched]). split_and!; [done|by repeat apply Hel|cbn; by rewrite <- (assoc_L (++))|done|].
    rewrite received_app, Hmsg. unfold received at 1. cbn. rewrite decide_False by by eapply Hstream. done.
  - eexists _, _, [msg]. split_and!; [done|by repeat apply Hel|done|done|]. by rewrite Hmsg.
Qed.

Definition end_status (j : ReclassJob) : string :=
  if valid_key (rj_normalized_key j) then "completed" else "failed".
Definition sent (j : ReclassJob) : string * string * Z := (rj_normalized_key j, pretty (rj_id j), 0).

Lemma dispatch_jobs_calm rows : forall (w : World),
  calm w -> pages_ok (io_tables w) -> holds rows (rt_jobs (io_tables w)) ->
  exists w' es, dispatch_jobs job_stream page_fetch rows w =
      (Ok (Z.of_nat (length (List.filter (fun j => valid_key (rj_normalized_key j)) rows))), w') /\ calm w' /\
    io_trace w' = io_trace w ++ es /\
    ((fun p => (cj_normalized_key p, cj_trace_id p, cj_requeue_attempt p)) <$> received es) =
      sent <$> List.filter (fun j => valid_key (rj_normalized_key j)) rows /\
    (forall j, j ∈ rows -> has_status (end_status j) (rj_id j) (rt_jobs (io_tables w'))) /\
    forall i st, i ∉ (rj_id <$> rows) -> has_status st i (rt_jobs (io_tables w)) -> has_status st i (rt_jobs (io_tables w')).
Proof.
  induction rows as [|j rows IH]; intros w Hw Hp [Hnd Hrun]; cbn [dispatch_jobs].
  { exists w, []. split_and!; [done|done|by rewrite app_nil_r|done|by intros j ?%elem_of_nil|done]. }
  apply NoDup_cons in Hnd as [Hj Hnd]. unfold mbind, io_bind.
  destruct (dispatch_job_calm j w Hw Hp) as (w1 & now & es1 & -> & Hw1 & Ht1 & Hs1 & He1).
  assert (forall i st, i <> rj_id j -> has_status st i (rt_jobs (io_tables w)) -> has_status st i (rt_jobs (io_tables w1))) as Hoth.
  { intros i st Hi H. rewrite Hs1. by apply status_other. }
  destruct (IH w1) as (w2 & es2 & -> & Hw2 & Ht2 & He2 & Hdone & Hkeep); [done|by rewrite Hs1| |].
  { split; [done|]. intros j' Hj'. apply Hoth; [|apply Hrun; by right]. intros E. apply Hj. apply list_elem_of_fmap. by exists j'. }
  exists w2, (es1 ++ es2). cbn [List.filter]. split_and!.
  - destruct (valid_key _); cbn [length]; [|done]. by rewrite Nat2Z.inj_succ.
  - done.
  - by rewrite Ht2, Ht1, (assoc_L (++)).
  - rewrite received_app, fmap_app, He1, He2. by destruct (valid_key _).
  - intros j' [->|Hj']%elem_of_cons; [|by apply Hdone]. apply Hkeep; [done|].
    destruct (Hrun j ltac:(by left)) as (r & Hr & Hi & _). unfold end_status.
    exists ((if valid_key (rj_normalized_key j) then complete_job else fail_job) now r). rewrite Hs1.
    split; [apply elem_of_update_where; right; by exists r|by destruct (valid_key _)].
  - intros i st [Hi Hi']%not_elem_of_cons H. apply Hkeep; [done|]. by apply Hoth.
Qed.

Lemma start_each_calm rows : forall w : World,
  calm w -> exists w', each (fun j => update_job (rj_id j) start_job) rows w = (Ok tt, w') /\ calm w' /\
    io_trace w' = io_trace w /\ rt_pages (io_tables w') = rt_pages (io_tables w).
Proof.
  induction rows as [|j rows IH]; intros w Hw; cbn [each]; [by exists w|]. unfold mbind, io_bind, update_job.
  rewrite update_calm by done. set (w1 := with_tables _ _). by apply (IH w1), calm_elapse.
Qed.

(** When nothing fails, the dispatcher takes the oldest pending jobs up to its batch and hands
    each to the LLM worker exactly once, in order, as a job the worker reads with the key, the
    job's id as trace, and no attempts used; the jobs end completed, and those whose key names no
    site end failed. *)
Theorem dispatch_batch_delivers batch (w : World) :
  calm w -> pages_ok (io_tables w) -> jobs_ok (io_next_uuid w) (rt_jobs (io_tables w)) -> 0 <= batch ->
  let rows := take (Z.to_nat batch)
    (sort_by_key rj_created_at (List.filter (fun j => bool_decide (rj_status j = "pending")) (rt_jobs (io_tables w)))) in
  let valid := List.filter (fun j => valid_key (rj_normalized_key j)) rows in
  exists w' es, dispatch_batch job_stream page_fetch batch w = (Ok (Z.of_nat (length valid)), w') /\
    io_trace w' = io_trace w ++ es /\
    ((fun p => (cj_normalized_key p, cj_trace_id p, cj_requeue_attempt p)) <$> received es) = sent <$> valid /\
    forall j, j ∈ rows -> has_status (end_status j) (rj_id j) (rt_jobs (io_tables w')).
Proof.
  intros Hw Hp Hok Hb rows valid. unfold dispatch_batch.
  set (w0 := with_tx (Some (io_now w + 1)) (elapse w)).
  assert (pending_rows batch w0 = (Ok rows, elapse w0)) as Hrows.
  { unfold pending_rows, limited. rewrite decide_False by lia. unfold mbind, io_bind.
    rewrite fetch_calm by by apply calm_elapse. done. }
  destruct (start_each_calm rows (elapse w0)) as (w1 & Heach & Hw1 & Ht1 & Hp1); [by apply calm_elapse, calm_elapse|].
  assert (claim_batch batch w = (Ok rows, with_tx None (elapse w1))) as Hclaim.
  { apply transaction_calm; [done| |done]. fold w0. unfold mbind, io_bind. by rewrite Hrows, Heach. }
  pose proof (claim_batch_ok batch w Hok) as [_ Hholds]. rewrite Hclaim in Hholds. cbn in Hholds.
  unfold mbind, io_bind. rewrite Hclaim.
  destruct (dispatch_jobs_calm rows (with_tx None (elapse w1))) as (w2 & es & -> & Hw2 & Ht2 & He & Hdone & _);
    [by apply calm_elapse|intros r; cbn; rewrite Hp1; apply Hp|done|].
  unfold fetch_backlog. rewrite fetch_calm by done. exists (elapse w2), es. split_and!; [done| |done|done].
  cbn. rewrite Ht2. cbn. by rewrite Ht1.
Qed.

End Delivery.

(** ** What the planner schedules *)

Section Planning.
  Context `{U : Unicode} (taxonomy : TaxonomyStore) (Htax : store_wf taxonomy).
  Abbreviation World := (Io ReclassTables Added).

(** The row after its turn: labels of the taxonomy, and the next turn at least five minutes away. *)
Definition refreshed (since : Z) (r r' : DueClassification) : Prop :=
  dc_id r' = dc_id r /\ dc_normalized_key r' = dc_normalized_key r /\ dc_status r' = dc_status r /\
  (exists next, dc_next_refresh_at r' = Some next /\ since + Z.max (default 3600 (dc_ttl_seconds r)) 300 * 1000 <= next) /\
  exists cat sub, cat ∈ tx_categories (ts_taxonomy taxonomy) /\ sub ∈ cat_subcategories cat /\
    dc_primary_category r' = cat_id cat /\ dc_subcategory r' = sub_id sub.

Lemma insert_unless_open_spec id key now t :
  let bt := insert_unless_open id key now t in
  rt_classifications bt.2 = rt_classifications t /\ key ∈ open_keys (rt_jobs bt.2) /\
  (forall k, k ∈ open_keys (rt_jobs t) -> k ∈ open_keys (rt_jobs bt.2)) /\
  Z.of_nat (length (rt_jobs bt.2)) = Z.of_nat (length (rt_jobs t)) + (if bt.1 then 1 else 0).
Proof.
  cbv zeta. unfold insert_unless_open. destruct (any _ _) eqn:E; cbn [fst snd set_jobs rt_jobs rt_classifications].
  - split_and!; [done| |done|lia]. apply any_true in E as (j & Hj & [Hk Ho]%andb_true_iff).
    apply bool_decide_eq_true in Hk. apply elem_of_open_keys. by exists j.
  - split_and!; [done| | |rewrite length_app; cbn; lia].
    + rewrite open_keys_app. apply elem_of_app. right. cbn. by left.
    + intros k Hk. rewrite open_keys_app. apply elem_of_app. by left.
Qed.

Definition keeps_identity (g : DueClassification -> DueClassification) : Prop :=
  forall r, dc_id (g r) = dc_id r /\ dc_normalized_key (g r) = dc_normalized_key r /\ dc_status (g r) = dc_status r.

Lemma update_where_compose id f g l :
  keeps_identity g ->
  update_where dc_id id f (update_where dc_id id g l) = update_where dc_id id (fun r => f (g r)) l.
Proof.
  intros Hg. unfold update_where. rewrite <- list_fmap_compose. apply list_fmap_ext. intros i r _. cbn.
  destruct (decide (dc_id r = id)) as [E|E]; [|by rewrite decide_False]. destruct (Hg r) as [-> _]. by rewrite decide_True.
Qed.
Lemma update_where_id id (l : list DueClassification) : update_where dc_id id (fun r => r) l = l.
Proof. unfold update_where. rewrite <- (list_fmap_id l) at 2. apply list_fmap_ext. intros i r _. by case_decide. Qed.

Definition canonical_row (r : DueClassification) : Prop :=
  exists cat sub, cat ∈ tx_categories (ts_taxonomy taxonomy) /\ sub ∈ cat_subcategories cat /\
    dc_primary_category r = cat_id cat /\ dc_subcategory r = sub_id sub.

Lemma ensure_labels_calm r (w : World) :
  calm w -> exists w' g,
    ensure_canonical_labels taxonomy (dc_id r) (dc_primary_category r) (dc_subcategory r) w = (Ok tt, w') /\
    calm w' /\ io_now w <= io_now w' /\ rt_jobs (io_tables w') = rt_jobs (io_tables w) /\
    rt_classifications (io_tables w') = update_where dc_id (dc_id r) g (rt_classifications (io_tables w)) /\
    keeps_identity g /\ canonical_row (g r).
Proof.
  intros Hw. unfold ensure_canonical_labels.
  destruct (validate_labels_cases _ Htax (dc_primary_category r) (Some (dc_subcategory r))) as (l & -> & (i & k & Hi & Hk) & _).
  unfold mbind, io_bind, of_result. cbn [ok_or].
  assert (vl_category l ∈ tx_categories (ts_taxonomy taxonomy)) as Hcat by by eapply list_elem_of_lookup_2.
  assert (vl_subcategory l ∈ cat_subcategories (vl_category l)) as Hsub by by eapply list_elem_of_lookup_2.
  destruct (_ || _) eqn:E.
  - rewrite update_calm by done. eexists _, _. split_and!; [done|by apply calm_elapse|cbn; lia|done|done|done|].
    by exists (vl_category l), (vl_subcategory l).
  - exists w, (fun r => r). rewrite update_where_id. split_and!; [done|done|lia|done|done|done|].
    apply orb_false_iff in E as [[_ E1]%orb_false_iff E2]. apply negb_false_iff, bool_decide_eq_true in E1, E2.
    by exists (vl_category l), (vl_subcategory l).
Qed.

Lemma plan_row_calm r (w : World) :
  calm w -> exists w' b g, plan_row taxonomy r w = (Ok b, w') /\ calm w' /\ io_now w <= io_now w' /\
    rt_classifications (io_tables w') = update_where dc_id (dc_id r) g (rt_classifications (io_tables w)) /\
    refreshed (io_now w) r (g r) /\ keeps_identity g /\
    dc_normalized_key r ∈ open_keys (rt_jobs (io_tables w')) /\
    (forall k, k ∈ open_keys (rt_jobs (io_tables w)) -> k ∈ open_keys (rt_jobs (io_tables w'))) /\
    Z.of_nat (length (rt_jobs (io_tables w'))) = Z.of_nat (length (rt_jobs (io_tables w))) + (if b then 1 else 0).
Proof.
  intros Hw. unfold plan_row. unfold mbind, io_bind.
  destruct (ensure_labels_calm r w Hw) as (w1 & g & -> & Hw1 & Hn1 & Hj1 & Hc1 & Hg & Hcan).
  cbn [utc_now]. rewrite update_calm by done. unfold new_v4, sql. rewrite step_calm by (by apply calm_elapse).
  set (next := io_now w1 + _). set (t := sql_now (elapse w1)). cbn [elapse io_next_uuid io_tables with_tables].
  set (w2 := set_due _ _). set (now2 := sql_now _). set (id := io_next_uuid w1).
  destruct (insert_unless_open_spec id (dc_normalized_key r) now2 w2) as (I1 & I2 & I3 & I4).
  destruct (insert_unless_open id (dc_normalized_key r) now2 w2) as [b w3]. cbn [fst snd] in *.
  exists (with_tables w3 (elapse (mkIo (io_now (elapse w1)) (io_tx w1) (io_faults (elapse w1)) (S id) (io_trace w1) w2))), b,
    (fun r0 => reschedule next t (g r0)).
  split_and!; cbn [with_tables io_tables io_now elapse]; [done| |lia| | | |done| |].
  - unfold calm in *. cbn. by rewrite Hw1.
  - rewrite I1. unfold w2. cbn. rewrite Hc1. by apply update_where_compose.
  - destruct (Hg r) as (E1 & E2 & E3). split_and!; [done..| |done]. exists next. split; [done|]. unfold next. lia.
  - intros r0. apply Hg.
  - intros k Hk. apply I3. unfold w2. cbn. by rewrite Hj1.
  - rewrite I4. unfold w2. cbn. by rewrite Hj1.
Qed.

Lemma update_where_other id g (l : list DueClassification) r : dc_id r <> id -> r ∈ l -> r ∈ update_where dc_id id g l.
Proof. intros Hne Hr. apply elem_of_update_where. by left. Qed.

Lemma refreshed_since since since' r r' : since <= since' -> refreshed since' r r' -> refreshed since r r'.
Proof.
  intros Hs (H1 & H2 & H3 & (next & H4 & H5) & H6). split_and!; [done..| |done]. exists next. split; [done|lia].
Qed.

Lemma plan_rows_calm rows : forall w : World,
  calm w -> NoDup (dc_id <$> rows) -> (forall r, r ∈ rows -> r ∈ rt_classifications (io_tables w)) ->
  exists w' planned, plan_rows taxonomy rows w = (Ok planned, w') /\ calm w' /\ io_now w <= io_now w' /\
    (forall r, r ∈ rows -> dc_normalized_key r ∈ open_keys (rt_jobs (io_tables w')) /\
       exists r', r' ∈ rt_classifications (io_tables w') /\ refreshed (io_now w) r r') /\
    (forall r, r ∈ rt_classifications (io_tables w) -> dc_id r ∉ (dc_id <$> rows) -> r ∈ rt_classifications (io_tables w')) /\
    (forall k, k ∈ open_keys (rt_jobs (io_tables w)) -> k ∈ open_keys (rt_jobs (io_tables w'))) /\
    Z.of_nat (length (rt_jobs (io_tables w'))) = Z.of_nat (length (rt_jobs (io_tables w))) + planned.
Proof.
  induction rows as [|r rows IH]; intros w Hw Hnd Hin; cbn [plan_rows].
  { exists w, 0. split_and!; [done|done|lia|by intros r ?%elem_of_nil|done|done|lia]. }
  apply NoDup_cons in Hnd as [Hr Hnd]. unfold mbind, io_bind.
  destruct (plan_row_calm r w Hw) as (w1 & b & g & -> & Hw1 & Hn1 & Hc1 & Hg & Hid & Hk1 & Ho1 & Hl1).
  assert (forall r0, r0 ∈ rt_classifications (io_tables w) -> dc_id r0 <> dc_id r -> r0 ∈ rt_classifications (io_tables w1)) as Hoth.
  { intros r0 Hr0 Hne. rewrite Hc1. by apply update_where_other. }
  destruct (IH w1) as (w2 & n & -> & Hw2 & Hn2 & Hdone & Hkeep & Ho2 & Hl2); [done|done| |].
  { intros r0 Hr0. apply Hoth; [apply Hin; by right|]. intros E. apply Hr. rewrite <- E. apply list_elem_of_fmap. by exists r0. }
  exists w2, (if b then n + 1 else n). split_and!; [done|done|lia| | |by auto|rewrite Hl2, Hl1; destruct b; lia].
  - intros r0 [->|Hr0]%elem_of_cons.
    + split; [by apply Ho2|]. exists (g r). split; [|done]. apply Hkeep; [|by rewrite (proj1 (Hid r))].
      rewrite Hc1. apply elem_of_update_where. right. exists r. split_and!; [apply Hin; by left|done|done].
    + destruct (Hdone r0 Hr0) as (H1 & r' & H2 & H3). split; [done|]. exists r'. split; [done|]. by eapply refreshed_since.
  - intros r0 Hr0 [H1 H2]%not_elem_of_cons. apply Hkeep; [|done]. by apply Hoth.
Qed.

(** When nothing fails, the planner takes the classifications whose time has come, the longest
    overdue first and up to its batch: each has an open job afterwards, labels of the taxonomy, and
    its next turn at least its time to live and five minutes away; the other rows are as before,
    and the number reported is the number of jobs created. *)
Theorem plan_batch_schedules batch (w : World) :
  calm w -> NoDup (dc_id <$> rt_classifications (io_tables w)) -> 0 <= batch ->
  let due := take (Z.to_nat batch) (sort_by_key (fun r => default 0 (dc_next_refresh_at r))
    (List.filter (is_due (io_now w + 1)) (rt_classifications (io_tables w)))) in
  exists w' planned, plan_batch taxonomy batch w = (Ok planned, w') /\
    (forall r, r ∈ due -> dc_normalized_key r ∈ open_keys (rt_jobs (io_tables w')) /\
       exists r', r' ∈ rt_classifications (io_tables w') /\ refreshed (io_now w) r r') /\
    (forall r, r ∈ rt_classifications (io_tables w) -> r ∉ due -> r ∈ rt_classifications (io_tables w')) /\
    Z.of_nat (length (rt_jobs (io_tables w'))) = Z.of_nat (length (rt_jobs (io_tables w))) + planned.
Proof.
  intros Hw Hnd Hb due. set (w0 := with_tx (Some (io_now w + 1)) (elapse w)).
  assert (due_rows batch w0 = (Ok due, elapse w0)) as Hdue.
  { unfold due_rows, limited. rewrite decide_False by lia. unfold mbind, io_bind. rewrite fetch_calm by by apply calm_elapse. done. }
  assert (forall r, r ∈ due -> r ∈ rt_classifications (io_tables w)) as Hin.
  { intros r Hr. eapply elem_of_take in Hr as (i & Hr%list_elem_of_lookup_2 & _). rewrite sort_by_key_perm in Hr.
    by apply list_elem_of_In, filter_In in Hr as [?%list_elem_of_In _]. }
  assert (NoDup (dc_id <$> due)) as Hndd.
  { eapply sublist_NoDup; [|apply fmap_sublist, sublist_take]. rewrite sort_by_key_perm.
    eapply sublist_NoDup; [exact Hnd|]. apply fmap_sublist, filter_sublist. }
  destruct (plan_rows_calm due (elapse w0)) as (w1 & planned & Hrun & Hw1 & Hn1 & Hdone & Hkeep & _ & Hl);
    [by apply calm_elapse, calm_elapse|done|done|].
  unfold plan_batch, mbind, io_bind. erewrite transaction_calm; [|done| |exact Hw1].
  2: { fold w0. unfold mbind, io_bind. rewrite Hdue. exact Hrun. }
  unfold fetch_backlog. rewrite fetch_calm by by apply calm_elapse. eexists _, planned. split; [done|]. cbn. split_and!; [| |done].
  - intros r Hr. destruct (Hdone r Hr) as (H1 & r' & H2 & H3). split; [done|]. exists r'. split; [done|].
    eapply refreshed_since; [|exact H3]. cbn. lia.
  - intros r Hr Hn. apply Hkeep; [done|]. intros (r' & E & Hr')%list_elem_of_fmap. apply Hn.
    by rewrite (NoDup_fmap_unique dc_id _ r r' Hnd Hr (Hin _ Hr') E).
Qed.

End Planning.

Module ReclassDemo.
#[local] Existing Instance Demo.unicode.
#[local] Existing Instance Demo.libs.
#[local] Existing Instance JsonDemo.text.
#[local] Instance urls : UrlPrinter := {| Url_print s := s; Url_print_root s := s |}.

Definition due (id : Uuid) (key : string) : DueClassification :=
  {| dc_id := id; dc_normalized_key := key; dc_primary_category := "Social"; dc_subcategory := "Short form video";
     dc_taxonomy_version := "legacy"; dc_ttl_seconds := Some 3600; dc_status := "active";
     dc_next_refresh_at := Some (Z.of_nat id); dc_updated_at := 0 |}.

(** Two classifications whose time has come. *)
Definition world (faults : list bool) : Io ReclassTables Added :=
  mkIo 1000 None faults 10%nat []
    {| rt_classifications := [due 1%nat "domain:a.test"; due 2%nat "domain:b.test"]; rt_jobs := []; rt_pages := [] |}.

Abbreviation plan := (plan_batch demo_store 200).
Abbreviation dispatch := (dispatch_batch "jobs" (Some ("pages", 0)) 200).
Definition statuses (w : Io ReclassTables Added) : list string := rj_status <$> rt_jobs (io_tables w).
Definition repair (faults : list bool) (w : Io ReclassTables Added) : Io ReclassTables Added :=
  mkIo (io_now w) (io_tx w) faults (io_next_uuid w) (io_trace w) (io_tables w).

Lemma demo_jobs_ok : jobs_ok 10%nat (rt_jobs (io_tables (world []))).
Proof. split; [constructor|by intros j ?%elem_of_nil|constructor]. Qed.

Example planned : (plan (world [])).1 = Ok 2 /\ statuses (dispatch (plan (world [])).2).2 = ["completed"; "completed"].
Proof. vm_compute. done. Qed.

Lemma one_open_job_per_key_witness :
  NoDup (open_keys (rt_jobs (io_tables (plan (plan (world [])).2).2))).
Proof.
  apply (one_open_job_per_key demo_store 200 "jobs" None 200 (world []) (plan (plan (world [])).2).2 []).
  - exact demo_jobs_ok.
  - eapply rtc_l; [apply step_plan|]. eapply rtc_l; [apply step_plan|]. apply rtc_refl.
Defined.

Lemma plan_batch_schedules_witness :
  exists w' planned, plan (world []) = (Ok planned, w') /\ "domain:a.test" ∈ open_keys (rt_jobs (io_tables w')).
Proof.
  destruct (plan_batch_schedules demo_store demo_store_wf 200 (world [])) as (w' & n & Hrun & Hdue & _).
  - reflexivity.
  - apply (bool_decide_unpack _). vm_compute. exact I.
  - lia.
  - exists w', n. split; [exact Hrun|]. apply (Hdue (due 1%nat "domain:a.test")).
    apply list_elem_of_In. vm_compute. by left.
Defined.

Definition scheduled : Io ReclassTables Added :=
  mkIo 5000 None [] 12%nat []
    {| rt_classifications := []; rt_pages := [];
       rt_jobs := [{| rj_id := 10%nat; rj_normalized_key := "domain:a.test"; rj_reason := "ttl_refresh"; rj_status := "pending";
                      rj_created_at := 1; rj_started_at := None; rj_completed_at := None |};
                   {| rj_id := 11%nat; rj_normalized_key := "nonsense"; rj_reason := "ttl_refresh"; rj_status := "pending";
                      rj_created_at := 2; rj_started_at := None; rj_completed_at := None |}] |}.

Lemma dispatch_batch_delivers_witness :
  exists w', dispatch scheduled = (Ok 1, w') /\ has_status "completed" 10%nat (rt_jobs (io_tables w')) /\
    has_status "failed" 11%nat (rt_jobs (io_tables w')).
Proof.
  destruct (dispatch_batch_delivers "jobs" (Some ("pages", 0)) ltac:(by intros ? ? [= <- _]) 200 scheduled)
    as (w' & es & Hrun & _ & _ & Hdone).
  - reflexivity.
  - by intros r ?%elem_of_nil.
  - split; [apply (bool_decide_unpack _); vm_compute; exact I| |apply (bool_decide_unpack _); vm_compute; exact I].
    intros j [-> |[-> |?%elem_of_nil]%elem_of_cons]%elem_of_cons; cbn; [lia|lia|done].
  - lia.
  - exists w'. split_and!; [exact Hrun|..].
    + refine (Hdone {| rj_id := 10%nat; rj_normalized_key := "domain:a.test"; rj_reason := "ttl_refresh"; rj_status := "pending";
                       rj_created_at := 1; rj_started_at := None; rj_completed_at := None |} _).
      apply list_elem_of_In. vm_compute. by left.
    + refine (Hdone {| rj_id := 11%nat; rj_normalized_key := "nonsense"; rj_reason := "ttl_refresh"; rj_status := "pending";
                       rj_created_at := 2; rj_started_at := None; rj_completed_at := None |} _).
      apply list_elem_of_In. vm_compute. right. by left.
Defined.

(** One failed read in the middle of a batch leaves the rest of it running for ever: the next
    batches skip these jobs, and the planner takes them for open. *)
Example abandoned_jobs :
  let w1 := (dispatch (repair [false; false; false; false; false; true] (plan (world [])).2)).2 in
  let w2 := (plan (repair [] (mkIo 100000000 None [] (io_next_uuid w1) (io_trace w1) (io_tables w1)))).2 in
  let w3 := (dispatch w2).2 in
  statuses w1 = ["running"; "running"] /\ statuses w3 = ["running"; "running"] /\ io_trace w3 = [].
Proof. vm_compute. done. Qed.

End ReclassDemo.
