(* ===== verification/PageFetch.v ===== *)
(** * The page fetcher

    [workers/page-fetcher/src/main.rs]: fetching pages through the crawl service for the LLM worker,
    and keeping the results as versions of a key in [page_contents].

    The tables are [page_contents] and the Redis markers; name resolution, the crawl service and
    SHA-256 are parameters.  Claiming entries of dead consumers and the metrics are left out. *)

From S2P Require Import Prelude RustStr RustNum Types Json ConfigCore Db Io LlmConfig LlmProvider LlmWorker LlmJobs.

Local Open Scope Z_scope.

(** ** Configuration *)

Record FetcherConfig := {
  fc_queue_name : string;
  fc_stream : string;
  fc_redis_url : string;
  fc_crawl_service_url : string;
  fc_database_url : string;
  fc_max_excerpt_chars : Z;
  fc_max_html_context_chars : Z;
  fc_max_html_bytes : Z;
  fc_ttl_seconds : Z;
  fc_page_content_max_versions_per_key : Z;
  fc_idempotency_ttl_seconds : Z;
  fc_terminal_retry_cooldown_seconds : Z;
  fc_blocked_retry_cooldown_seconds : Z;
  fc_unsupported_retry_cooldown_seconds : Z;
  fc_unsupported_host_allowlist : list string
}.

Section Configuration.
  Context (env : Env) `{X : Externals}.

Definition fetcher_validate_config (cfg : FetcherConfig) : result string unit :=
  let v := new_validator "page-fetcher" in
  let v := require_non_empty "queue_name" (Some (fc_queue_name cfg)) "set queue_name in config/page-fetcher.json" v in
  let v := require_non_empty "redis_url" (Some (fc_redis_url cfg)) "set redis_url in config/page-fetcher.json" v in
  let v := require_non_empty "crawl_service_url" (Some (fc_crawl_service_url cfg))
    "set crawl_service_url in config/page-fetcher.json" v in
  let v := require_non_empty "database_url" (Some (fc_database_url cfg)) "set database_url in config/page-fetcher.json" v in
  let v := require_auth_url env "page-fetcher.redis_url" (Some (fc_redis_url cfg)) false true 16
    "set redis_url in config/page-fetcher.json with password-authenticated Redis credentials" v in
  let v := require_auth_url env "page-fetcher.database_url" (Some (fc_database_url cfg)) true true 12
    "set database_url in config/page-fetcher.json with non-default DB credentials" v in
  _ ← finish v;
  if decide (fc_page_content_max_versions_per_key cfg < 1) then Err "page_content_max_versions_per_key must be >= 1"
  else Ok tt.

Definition fetcher_apply_env_overrides (cfg : FetcherConfig) : FetcherConfig :=
  let override key old := match env !! key with
    | Some v => if is_empty (trim v) then old else trim v
    | None => old end in
  {| fc_queue_name := fc_queue_name cfg; fc_stream := fc_stream cfg;
     fc_redis_url := override "OD_PAGE_FETCH_REDIS_URL" (fc_redis_url cfg);
     fc_crawl_service_url := fc_crawl_service_url cfg;
     fc_database_url := override "OD_ADMIN_DATABASE_URL" (fc_database_url cfg);
     fc_max_excerpt_chars := fc_max_excerpt_chars cfg; fc_max_html_context_chars := fc_max_html_context_chars cfg;
     fc_max_html_bytes := fc_max_html_bytes cfg; fc_ttl_seconds := fc_ttl_seconds cfg;
     fc_page_content_max_versions_per_key := fc_page_content_max_versions_per_key cfg;
     fc_idempotency_ttl_seconds := fc_idempotency_ttl_seconds cfg;
     fc_terminal_retry_cooldown_seconds := fc_terminal_retry_cooldown_seconds cfg;
     fc_blocked_retry_cooldown_seconds := fc_blocked_retry_cooldown_seconds cfg;
     fc_unsupported_retry_cooldown_seconds := fc_unsupported_retry_cooldown_seconds cfg;
     fc_unsupported_host_allowlist := fc_unsupported_host_allowlist cfg |}.

End Configuration.

(** ** Outcomes of a crawl *)

Record CrawlApiResponse := {
  ca_status : string;
  ca_markdown_text : string;
  ca_cleaned_text : string;
  ca_content_type : string;
  ca_title : option string
}.
Record FetchFailure := { ff_fetch_status : string; ff_fetch_reason : string; ff_detail : string }.
Record CrawlAttempt := { at_url : string; at_outcome : string; at_reason : string }.

Definition attempt_to_json (a : CrawlAttempt) : Json :=
  JObj [("url", JStr (at_url a)); ("outcome", JStr (at_outcome a)); ("reason", JStr (at_reason a))].

Definition de_any (v : Json) : result string Json := Ok v.

(** [CrawlApiResponse], whose [language] and [metadata] are read and not used. *)
Definition crawl_from_json (v : Json) : result string CrawlApiResponse :=
  fields ← struct_fields ["status"; "markdown_text"; "cleaned_text"; "content_type"; "language"; "title"; "metadata"] v;
  status ← required "status" de_string fields;
  markdown_text ← required "markdown_text" de_string fields;
  cleaned_text ← required "cleaned_text" de_string fields;
  content_type ← required "content_type" de_string fields;
  _ ← optional "language" de_string fields;
  title ← optional "title" de_string fields;
  _ ← optional "metadata" de_any fields;
  Ok {| ca_status := status; ca_markdown_text := markdown_text; ca_cleaned_text := cleaned_text;
        ca_content_type := content_type; ca_title := title |}.

(** [CrawlErrorDetail] and [CrawlErrorEnvelope]. *)
Definition error_detail_from_json (v : Json) : result string (option string * option string * option string) :=
  fields ← struct_fields ["report"; "reason"; "detail"] v;
  report ← optional "report" de_string fields;
  reason ← optional "reason" de_string fields;
  detail ← optional "detail" de_string fields;
  Ok (report, reason, detail).
Definition error_envelope_from_json (v : Json) : result string (option (option string * option string * option string)) :=
  fields ← struct_fields ["detail"] v;
  optional "detail" error_detail_from_json fields.

Section Parsing.
  Context `{T : JsonText}.

Definition parse_crawl_error_payload (payload : string) : option FetchFailure :=
  parsed ← result_ok (v ← json_parse payload; error_envelope_from_json v);
  '(report, reason, detail) ← parsed;
  report ← to_ascii_lowercase <$> report;
  Some {| ff_fetch_status := if decide (report = "blocked") then "blocked"
                             else if decide (report = "unsupported") then "unsupported" else "failed";
          ff_fetch_reason := default "crawl_failed" reason; ff_detail := default "crawl service error" detail |}.

Definition classify_crawl_failure (detail : string) (status_code : option Z) : string * string :=
  let lowered := to_ascii_lowercase detail in
  let has s := contains s lowered in
  if decide (status_code = Some 403) then ("blocked", "http_403")
  else if decide (status_code = Some 429) then ("blocked", "http_429")
  else if has "minimal_text" || has "no_content_elements" then ("unsupported", "no_content_endpoint")
  else if has "anti_bot_or_access_denied" || has "http_403" || has "http_429" || has "access denied" || has "captcha"
  then ("blocked", "anti_bot_or_access_denied")
  else if has "name_not_resolved" || has "dns" then ("failed", "dns_resolution_failed")
  else if has "connection_refused" then ("failed", "connection_refused")
  else if has "timed out" || has "timeout" then ("failed", "timeout")
  else ("failed", "crawl_failed").

End Parsing.

(** ** Excerpts *)

(** The lines, trimmed, with runs of empty ones made one; [last_empty] says that the last line kept
    is empty. *)
Fixpoint normalize_lines (last_empty : bool) (l : list string) : list string :=
  match l with
  | [] => []
  | line :: l' =>
      let trimmed := trim line in
      if is_empty trimmed then
        if last_empty then normalize_lines true l' else "" :: normalize_lines true l'
      else trimmed :: normalize_lines false l'
  end.

Definition truncate_chars (value : string) (limit : Z) : string := take_chars (Z.to_N limit) value.

Definition build_markdown_excerpt (markdown_text cleaned_text : string) (title : option string) (max_chars : Z) : string :=
  let base := if is_empty (trim markdown_text) then cleaned_text else markdown_text in
  let excerpt := trim (join (String LF "") (normalize_lines false (lines base))) in
  let excerpt := if is_empty excerpt then trim base else excerpt in
  let excerpt :=
    match trim <$> title with
    | Some title => if is_empty title then excerpt else "# " +:+ title +:+ String LF (String LF excerpt)
    | None => excerpt
    end in
  truncate_chars excerpt max_chars.

(** ** Jobs *)

Definition is_likely_asset_host (hostname : string) (allowlist : list string) : bool :=
  if any (fun allowed => eq_ignore_ascii_case hostname allowed || ends_with ("." +:+ allowed) hostname) allowlist then false
  else any (fun label => bool_decide (label ∈ ["cdn"; "cdns"; "img"; "images"; "image"; "static"; "assets"; "media"; "js"]))
         (split_char "." (to_ascii_lowercase hostname)).

Definition resolve_candidate_urls `{X : Externals} (j : PageFetchJob) : result string (list string) :=
  let deduped := dedupe_from [] (List.filter (fun v => bool_decide (is_Some (Url_parse v))) (pfj_url j :: pfj_candidate_urls j)) in
  if decide (deduped = []) then Err "no valid candidate URLs in job payload" else Ok deduped.

Definition page_fetch_idempotency_key (j : PageFetchJob) : string :=
  let derived := pfj_normalized_key j +:+ ":" +:+ pfj_url j +:+ ":" +:+ default "none" (pfj_trace_id j) in
  match pfj_idempotency_key j with
  | Some value => if is_empty (trim value) then derived else value
  | None => derived
  end.

(** [PageFetchJob] as it is read. *)
Definition fetch_job_from_json (v : Json) : result string PageFetchJob :=
  fields ← struct_fields ["normalized_key"; "url"; "hostname"; "candidate_urls"; "trace_id"; "idempotency_key"; "ttl_seconds"] v;
  normalized_key ← required "normalized_key" de_string fields;
  url ← required "url" de_string fields;
  hostname ← required "hostname" de_string fields;
  candidate_urls ← defaulted "candidate_urls"
    (fun v => match v with JArr vs => try_map de_string vs | _ => Err "invalid type: expected a sequence" end) [] fields;
  trace_id ← optional "trace_id" de_string fields;
  idempotency_key ← optional "idempotency_key" de_string fields;
  ttl_seconds ← optional "ttl_seconds" (de_int i32_min i32_max) fields;
  Ok {| pfj_normalized_key := normalized_key; pfj_url := url; pfj_hostname := hostname; pfj_candidate_urls := candidate_urls;
        pfj_trace_id := trace_id; pfj_idempotency_key := idempotency_key; pfj_ttl_seconds := ttl_seconds |}.

(** ** Tables *)

(** A row of [page_contents]. *)
Record FetchedPage := {
  fp_id : Uuid;
  fp_normalized_key : string;
  fp_fetch_version : Z;
  fp_content_type : option string;
  fp_content_hash : option string;
  fp_text_excerpt : option string;
  fp_char_count : option Z;
  fp_byte_count : option Z;
  fp_fetch_status : string;
  fp_fetch_reason : option string;
  fp_ttl_seconds : Z;
  fp_fetched_at : Z;
  fp_source_url : option string;
  fp_resolved_url : option string;
  fp_attempt_summary : option string
}.
(** The trigger [page_contents_set_expiry]. *)
Definition fp_expires_at (r : FetchedPage) : Z := fp_fetched_at r + fp_ttl_seconds r * 1000.

Record FetcherTables := { ft_pages : list FetchedPage; ft_markers : gmap string Z }.
Definition set_pages (l : list FetchedPage) (t : FetcherTables) : FetcherTables :=
  {| ft_pages := l; ft_markers := ft_markers t |}.
Definition set_page_markers (m : gmap string Z) (t : FetcherTables) : FetcherTables :=
  {| ft_pages := ft_pages t; ft_markers := m |}.

Inductive FetcherEffect :=
  | Crawled (url : string)
  | PageDeadLetter (entry_id reason : string) (payload : option string)
  | PageAck (entry_id : string).

Abbreviation FM := (M FetcherTables FetcherEffect string).

(** The rest of the world: names resolve or not at a time, and the crawl service takes some time to
    answer the request with the given body. *)
Class CrawlNet := {
  lookup_host : Z -> string -> bool;
  crawl : Z -> string -> Json -> Z * HttpReply;
  crawl_error_text : string -> string;
  sha256_hex : string -> string
}.

Section Fetcher.
  Context `{X : Externals} `{T : JsonText} `{C : CrawlNet} (cfg : FetcherConfig).

Definition fetch_marker (key : string) : string := "od:idempotency:page-fetch:" +:+ key.

Definition fetch_key_seen (key : string) : FM bool :=
  fetch (fun now t => match ft_markers t !! fetch_marker key with
                      | Some expires_at => bool_decide (now < expires_at) | None => false end).
Definition fetch_mark_processed (key : string) : FM unit :=
  update (fun now t =>
    set_page_markers (<[fetch_marker key := now + fc_idempotency_ttl_seconds cfg * 1000]> (ft_markers t)) t).

Definition of_key (key : string) (r : FetchedPage) : bool := bool_decide (fp_normalized_key r = key).

Definition content_fresh (key : string) : FM bool :=
  fetch (fun now t => any (fun r => of_key key r && bool_decide (now < fp_expires_at r) &&
                                     bool_decide (to_ascii_lowercase (fp_fetch_status r) = "ok")) (ft_pages t)).

(** The age is a number of seconds rounded by the cast to [bigint]. *)
Definition terminal_fetch_recently_recorded (key : string) : FM bool :=
  row ← fetch (fun now t =>
    (fun r => (to_ascii_lowercase (fp_fetch_status r), (now - fp_fetched_at r + 500) / 1000)) <$>
    head (order_desc fp_fetched_at (List.filter (of_key key) (ft_pages t))));
  mret match row with
       | None => false
       | Some (status, age) =>
           let age_seconds := Z.max age 0 in
           if decide (status = "blocked") then bool_decide (age_seconds <= fc_blocked_retry_cooldown_seconds cfg)
           else if decide (status = "unsupported") then bool_decide (age_seconds <= fc_unsupported_retry_cooldown_seconds cfg)
           else if decide (status = "failed") then bool_decide (age_seconds <= fc_terminal_retry_cooldown_seconds cfg)
           else false
       end.

(** The crawl service: [POST url/crawl]. *)
Definition crawl_request (j : PageFetchJob) (url : string) : Json :=
  JObj [("url", JStr url); ("normalized_key", JStr (pfj_normalized_key j));
        ("max_html_bytes", JInt (fc_max_html_bytes cfg)); ("max_text_chars", JInt (fc_max_excerpt_chars cfg))].

Definition read_crawl (reply : HttpReply) : result FetchFailure CrawlApiResponse :=
  match reply with
  | Err e => Err {| ff_fetch_status := "failed"; ff_fetch_reason := "crawl_service_unreachable";
                    ff_detail := "crawl service request failed: " +:+ re_text e |}
  | Ok (status, body) =>
      if decide (200 <= status < 300) then
        match (text ← map_err re_text body; map_err crawl_error_text (v ← json_parse text; crawl_from_json v)) with
        | Err e => Err {| ff_fetch_status := "failed"; ff_fetch_reason := "invalid_crawl_payload";
                          ff_detail := "invalid crawl payload: " +:+ e |}
        | Ok parsed =>
            if decide (ca_status parsed = "ok") then Ok parsed
            else Err {| ff_fetch_status := "failed"; ff_fetch_reason := "crawl_status_non_ok";
                        ff_detail := "crawl service returned status " +:+ ca_status parsed |}
        end
      else
        let text := match body with Ok text => text | Err _ => "<empty>" end in
        match parse_crawl_error_payload text with
        | Some failure => Err failure
        | None =>
            let '(fetch_status, fetch_reason) := classify_crawl_failure text (Some status) in
            Err {| ff_fetch_status := fetch_status; ff_fetch_reason := fetch_reason;
                   ff_detail := "crawl service error: " +:+ text |}
        end
  end.

Definition fetch_content (j : PageFetchJob) (url : string) : FM (result FetchFailure CrawlApiResponse) := fun w =>
  let endpoint := trim_end_matches "/" (fc_crawl_service_url cfg) +:+ "/crawl" in
  let '(elapsed, reply) := crawl (io_now w) endpoint (crawl_request j url) in
  (Ok (read_crawl reply),
   mkIo (io_now w + Z.max 0 elapsed) (io_tx w) (io_faults w) (io_next_uuid w) (io_trace w ++ [Crawled url]) (io_tables w)).

(** [host_resolves] with its cache. *)
Definition host_resolves (host : string) (cache : gmap string bool) : FM (bool * gmap string bool) :=
  match cache !! host with
  | Some resolved => mret (resolved, cache)
  | None => t ← utc_now; let resolved := lookup_host t host in mret (resolved, <[host := resolved]> cache)
  end.

(** ** Storing versions *)

(** [pg_advisory_xact_lock]: writers of one key wait for each other. *)
Definition lock_page_content_key : FM unit := update (fun _ t => t).

Definition next_version_tx (key : string) : FM Z :=
  current ← fetch (fun _ t => foldl Z.max 0 (fp_fetch_version <$> List.filter (of_key key) (ft_pages t)));
  mret (current + 1).

Definition newest_first (l : list FetchedPage) : list FetchedPage :=
  order_desc fp_fetch_version (order_desc fp_fetched_at (order_desc (fun r => Z.of_nat (fp_id r)) l)).

(** The rows left when all but the [keep] newest of the key are deleted. *)
Definition pruned (key : string) (keep : nat) (rows : list FetchedPage) : list FetchedPage :=
  let doomed := fp_id <$> drop keep (newest_first (List.filter (of_key key) rows)) in
  List.filter (fun r => negb (bool_decide (fp_id r ∈ doomed))) rows.

Definition prune_page_content_versions (key : string) : FM unit :=
  update (fun _ t => set_pages (pruned key (Z.to_nat (fc_page_content_max_versions_per_key cfg)) (ft_pages t)) t).

(** The column is an [INTEGER]. *)
Definition insert_page (mk : Uuid -> Z -> FetchedPage) : FM unit :=
  id ← new_v4;
  sql (fun now t => (tt, set_pages (ft_pages t ++ [mk id now]) t)).
Definition store_version (key : string) (mk : Z -> Uuid -> Z -> FetchedPage) : FM unit :=
  transaction (
    _ ← lock_page_content_key;
    version ← next_version_tx key;
    _ ← (if decide (version <= i32_max) then mret tt else of_result (Err DB_ERROR));
    _ ← insert_page (mk version);
    prune_page_content_versions key).

Definition summary (attempts : list CrawlAttempt) : string := json_print (JArr (attempt_to_json <$> attempts)).

Definition failure_row (j : PageFetchJob) (ttl_seconds : Z) (failure : FetchFailure) (attempts : list CrawlAttempt)
    (version : Z) (id : Uuid) (now : Z) : FetchedPage :=
  {| fp_id := id; fp_normalized_key := pfj_normalized_key j; fp_fetch_version := version; fp_content_type := None;
     fp_content_hash := None; fp_text_excerpt := None; fp_char_count := None; fp_byte_count := None;
     fp_fetch_status := ff_fetch_status failure; fp_fetch_reason := Some (ff_fetch_reason failure);
     fp_ttl_seconds := ttl_seconds; fp_fetched_at := now; fp_source_url := Some (pfj_url j); fp_resolved_url := None;
     fp_attempt_summary := Some (summary attempts) |}.

Definition store_failure (j : PageFetchJob) (ttl_seconds : Z) (failure : FetchFailure) (attempts : list CrawlAttempt)
    : FM unit := store_version (pfj_normalized_key j) (failure_row j ttl_seconds failure attempts).

Definition excerpt_of (crawled : CrawlApiResponse) : string :=
  build_markdown_excerpt (ca_markdown_text crawled) (ca_cleaned_text crawled) (ca_title crawled)
    (fc_max_html_context_chars cfg).

Definition content_row (j : PageFetchJob) (ttl_seconds : Z) (crawled : CrawlApiResponse) (resolved_url : string)
    (attempts : list CrawlAttempt) (version : Z) (id : Uuid) (now : Z) : FetchedPage :=
  let text_excerpt := excerpt_of crawled in
  let resolved_host := default (pfj_hostname j) (parsed ← Url_parse resolved_url; u_host_str parsed) in
  {| fp_id := id; fp_normalized_key := pfj_normalized_key j; fp_fetch_version := version;
     fp_content_type := Some (ca_content_type crawled); fp_content_hash := Some (sha256_hex text_excerpt);
     fp_text_excerpt := Some text_excerpt; fp_char_count := Some (as_i32 (Z.of_N (chars_count text_excerpt)));
     fp_byte_count := Some (as_i32 (Z.of_nat (str_len text_excerpt))); fp_fetch_status := "ok";
     fp_fetch_reason := Some resolved_host; fp_ttl_seconds := ttl_seconds; fp_fetched_at := now;
     fp_source_url := Some (pfj_url j); fp_resolved_url := Some resolved_url; fp_attempt_summary := Some (summary attempts) |}.

Definition store_content (j : PageFetchJob) (ttl_seconds : Z) (crawled : CrawlApiResponse) (resolved_url : string)
    (attempts : list CrawlAttempt) : FM unit :=
  store_version (pfj_normalized_key j) (content_row j ttl_seconds crawled resolved_url attempts).

(** ** Processing a job *)

(** The loop over the candidates: [true] when one was stored. *)
Record Candidates := {
  ca_attempts : list CrawlAttempt;
  ca_last_failure : option FetchFailure;
  ca_dns : gmap string bool;
  ca_had_crawl_attempt : bool
}.
Definition add_attempt (url outcome reason : string) (last_failure : option FetchFailure) (dns : gmap string bool)
    (had_crawl : bool) (s : Candidates) : Candidates :=
  {| ca_attempts := ca_attempts s ++ [{| at_url := url; at_outcome := outcome; at_reason := reason |}];
     ca_last_failure := last_failure; ca_dns := dns; ca_had_crawl_attempt := had_crawl |}.

Fixpoint try_candidates (j : PageFetchJob) (ttl_seconds : Z) (candidates : list string) (s : Candidates)
    : FM (bool * Candidates) :=
  match candidates with
  | [] => mret (false, s)
  | url :: candidates' =>
      parsed ← of_result (ok_or (Url_parse url) "candidate url invalid");
      let host := default "" (u_host_str parsed) in
      if is_empty host then
        let failure := {| ff_fetch_status := "failed"; ff_fetch_reason := "invalid_candidate_host";
                          ff_detail := "candidate URL is missing a hostname" |} in
        try_candidates j ttl_seconds candidates'
          (add_attempt url "failed" "invalid_candidate_host" (Some failure) (ca_dns s) (ca_had_crawl_attempt s) s)
      else if is_likely_asset_host host (fc_unsupported_host_allowlist cfg) then
        try_candidates j ttl_seconds candidates'
          (add_attempt url "unsupported" "asset_endpoint" (ca_last_failure s) (ca_dns s) (ca_had_crawl_attempt s) s)
      else
        resolved ← host_resolves host (ca_dns s);
        if negb resolved.1 then
          try_candidates j ttl_seconds candidates'
            (add_attempt url "unsupported" "dns_unresolvable" (ca_last_failure s) resolved.2 (ca_had_crawl_attempt s) s)
        else
          r ← fetch_content j url;
          match r with
          | Ok response =>
              let s' := add_attempt url "ok" "ok" (ca_last_failure s) resolved.2 true s in
              _ ← store_content j ttl_seconds response url (ca_attempts s');
              mret (true, s')
          | Err failure =>
              try_candidates j ttl_seconds candidates'
                (add_attempt url (ff_fetch_status failure) (ff_fetch_reason failure) (Some failure) resolved.2 true s)
          end
  end.

(** What is recorded when no candidate could be stored. *)
Definition final_failure (s : Candidates) : FetchFailure :=
  let all_unresolvable := negb (bool_decide (ca_attempts s = [])) &&
    forallb (fun a => bool_decide (at_reason a = "dns_unresolvable")) (ca_attempts s) in
  if negb (ca_had_crawl_attempt s) && all_unresolvable then
    {| ff_fetch_status := "unsupported"; ff_fetch_reason := "dns_unresolvable";
       ff_detail := "all candidate hosts failed DNS preflight before Crawl4AI" |}
  else default {| ff_fetch_status := "unsupported"; ff_fetch_reason := "all_candidates_filtered";
                  ff_detail := "all candidate URLs were filtered as non-page endpoints" |} (ca_last_failure s).

Definition no_candidates : Candidates :=
  {| ca_attempts := []; ca_last_failure := None; ca_dns := ∅; ca_had_crawl_attempt := false |}.

Definition fetch_job_from_str (payload : string) : result string PageFetchJob := v ← json_parse payload; fetch_job_from_json v.

Definition fetch_page (j : PageFetchJob) (ttl_seconds : Z) (idempotency_key : string) : FM unit :=
  candidates ← of_result (resolve_candidate_urls j);
  done ← try_candidates j ttl_seconds candidates no_candidates;
  if done.1 : bool then fetch_mark_processed idempotency_key
  else
    let failure := final_failure done.2 in
    _ ← store_failure j ttl_seconds failure (ca_attempts done.2);
    of_result (Err (ff_detail failure)).

Definition process_fetch_job (payload : string) : FM unit :=
  j ← of_result (fetch_job_from_str payload);
  let idempotency_key := page_fetch_idempotency_key j in
  seen ← fetch_key_seen idempotency_key;
  if seen : bool then mret tt
  else
    let ttl_seconds := default (fc_ttl_seconds cfg) (pfj_ttl_seconds j) in
    fresh ← content_fresh (pfj_normalized_key j);
    if fresh : bool then fetch_mark_processed idempotency_key
    else
      cooling ← terminal_fetch_recently_recorded (pfj_normalized_key j);
      if cooling : bool then fetch_mark_processed idempotency_key
      else fetch_page j ttl_seconds idempotency_key.

(** An entry of the stream. *)
Definition consume_fetch_entry (entry : string * option string) : FM unit :=
  t ← utc_now;
  if entry_too_old entry.1 300000 t then dropped (command (PageAck entry.1))
  else
    _ ← match entry.2 with
        | Some payload =>
            r ← outcome (process_fetch_job payload);
            if is_ok r || is_ok (fetch_job_from_str payload) then mret tt
            else dropped (command (PageDeadLetter entry.1 "invalid_payload" (Some payload)))
        | None => dropped (command (PageDeadLetter entry.1 "missing_payload" None))
        end;
    dropped (command (PageAck entry.1)).

End Fetcher.

(** ** Versions of a key *)

Record pages_ok (keep : nat) (a : Uuid * FetcherTables) : Prop := {
  pages_ids : NoDup (fp_id <$> ft_pages a.2);
  pages_supply : forall r, r ∈ ft_pages a.2 -> (fp_id r < a.1)%nat;
  pages_versions : NoDup ((fun r => (fp_normalized_key r, fp_fetch_version r)) <$> ft_pages a.2);
  pages_positive : forall r, r ∈ ft_pages a.2 -> 1 <= fp_fetch_version r <= i32_max;
  pages_kept : forall key, (length (List.filter (of_key key) (ft_pages a.2)) <= keep)%nat
}.

Lemma pages_newest_first_perm l : newest_first l ≡ₚ l.
Proof. unfold newest_first, order_desc. by rewrite !sort_by_key_perm. Qed.

Lemma elem_of_filter_of_key key l r : r ∈ List.filter (of_key key) l <-> r ∈ l /\ fp_normalized_key r = key.
Proof. rewrite !list_elem_of_In, filter_In. unfold of_key. by rewrite bool_decide_eq_true. Qed.

(** Exactly the newest rows of the key are left. *)
Lemma pruned_key key keep rows :
  NoDup (fp_id <$> rows) ->
  List.filter (of_key key) (pruned key keep rows) ≡ₚ take keep (newest_first (List.filter (of_key key) rows)).
Proof.
  intros Hnd. unfold pruned. rewrite filter_comm. set (l := newest_first (List.filter (of_key key) rows)).
  rewrite <- (pages_newest_first_perm (List.filter (of_key key) rows)) at 1. fold l.
  assert (NoDup (fp_id <$> l)) as Hl.
  { unfold l. rewrite pages_newest_first_perm. eapply sublist_NoDup; [exact Hnd|]. apply fmap_sublist, filter_sublist. }
  set (p := fun r => negb (bool_decide (fp_id r ∈ _))). transitivity (List.filter p (take keep l ++ drop keep l)); [by rewrite take_drop|].
  rewrite List.filter_app.
  rewrite <- (take_drop keep l), fmap_app in Hl. apply NoDup_app in Hl as (_ & Hdis & _).
  rewrite filter_all, filter_none, app_nil_r; [done| |].
  - intros r Hr. unfold p. rewrite bool_decide_eq_true_2; [done|]. apply list_elem_of_fmap. by exists r.
  - intros r Hr. unfold p. rewrite bool_decide_eq_false_2; [done|]. apply Hdis. apply list_elem_of_fmap. by exists r.
Qed.

Lemma pruned_other key key' keep rows :
  NoDup (fp_id <$> rows) -> key' <> key -> List.filter (of_key key') (pruned key keep rows) = List.filter (of_key key') rows.
Proof.
  intros Hnd Hne. unfold pruned. rewrite filter_comm. apply filter_all. intros r [Hr Hk]%elem_of_filter_of_key.
  rewrite bool_decide_eq_false_2; [done|]. intros (r' & E & Hr')%list_elem_of_fmap.
  eapply subseteq_drop in Hr'. rewrite pages_newest_first_perm in Hr'. apply elem_of_filter_of_key in Hr' as [Hr' Hk'].
  assert (r = r') as -> by by eapply (NoDup_fmap_unique fp_id). congruence.
Qed.

Lemma foldl_max_ge l : forall a x, x ∈ l \/ x <= a -> x <= foldl Z.max a l.
Proof.
  induction l as [|y l IH]; intros a x; cbn; [intros [?%elem_of_nil|?]; done|].
  intros [[->|Hx]%elem_of_cons|Hx]; apply IH; [right; lia|by left|right; lia].
Qed.

(** The row of a new version survives the pruning. *)
Lemma new_version_kept key keep rows row :
  (1 <= keep)%nat -> NoDup (fp_id <$> rows ++ [row]) -> fp_normalized_key row = key ->
  (forall r, r ∈ rows -> fp_normalized_key r = key -> fp_fetch_version r < fp_fetch_version row) ->
  row ∈ pruned key keep (rows ++ [row]).
Proof.
  intros Hkeep Hnd Hk Hmax. assert (row ∈ List.filter (of_key key) (pruned key keep (rows ++ [row]))) as H;
    [|by apply elem_of_filter_of_key in H as [? _]].
  rewrite pruned_key by done. unfold newest_first at 1, order_desc at 1.
  assert (forall r, r ∈ List.filter (of_key key) (rows ++ [row]) -> r = row \/ fp_fetch_version r < fp_fetch_version row) as Hall.
  { intros r [Hr Hrk]%elem_of_filter_of_key. apply elem_of_app in Hr as [Hr|Hr%list_elem_of_singleton]; [right; by apply Hmax|by left]. }
  set (l := order_desc fp_fetched_at _). assert (forall r, r ∈ l <-> r ∈ List.filter (of_key key) (rows ++ [row])) as Hl.
  { intros r. unfold l, order_desc. by rewrite !sort_by_key_perm. }
  destruct (take_sorted (fun r => - fp_fetch_version r) keep l row) as [H|[H1 H2]]; [|done|].
  { apply Hl, elem_of_filter_of_key. split; [apply elem_of_app; right; by left|done]. }
  destruct (take keep (sort_by_key _ l)) as [|y t] eqn:E; [cbn in H1; lia|]. specialize (H2 y ltac:(by left)).
  assert (y ∈ l) as Hy.
  { rewrite <- (sort_by_key_perm (fun r => - fp_fetch_version r) l), <- (take_drop keep (sort_by_key _ l)), E.
    apply elem_of_app. left. by left. }
  apply Hl, Hall in Hy as [->|Hy]; [by left|lia].
Qed.

Lemma add_version_ok keep n t row :
  (1 <= keep)%nat -> pages_ok keep (n, t) -> fp_id row = n -> 1 <= fp_fetch_version row <= i32_max ->
  (forall r, r ∈ ft_pages t -> fp_normalized_key r = fp_normalized_key row -> fp_fetch_version r < fp_fetch_version row) ->
  pages_ok keep (S n, set_pages (pruned (fp_normalized_key row) keep (ft_pages t ++ [row])) t).
Proof.
  intros Hkeep [H1 H2 H3 H4 H5] Hid Hv Hmax. cbn in *.
  assert (NoDup (fp_id <$> ft_pages t ++ [row])) as Hnd.
  { rewrite fmap_app. apply NoDup_app. split_and!; [done| |apply NoDup_singleton].
    intros i (r & -> & Hr)%list_elem_of_fmap. cbn. intros E%list_elem_of_singleton. specialize (H2 r Hr). lia. }
  assert (pruned (fp_normalized_key row) keep (ft_pages t ++ [row]) `sublist_of` ft_pages t ++ [row]) as Hsub by apply filter_sublist.
  assert (forall r, r ∈ pruned (fp_normalized_key row) keep (ft_pages t ++ [row]) -> r ∈ ft_pages t \/ r = row) as Hin.
  { intros r Hr. eapply sublist_subseteq in Hr; [|exact Hsub]. apply elem_of_app in Hr as [?|?%list_elem_of_singleton]; auto. }
  split; cbn [fst snd set_pages ft_pages].
  - eapply sublist_NoDup; [exact Hnd|by apply fmap_sublist].
  - intros r [Hr| ->]%Hin; [specialize (H2 r Hr); lia|lia].
  - eapply sublist_NoDup; [|by apply fmap_sublist]. rewrite fmap_app. apply NoDup_app.
    split_and!; [done| |apply NoDup_singleton]. intros kv (r & -> & Hr)%list_elem_of_fmap. cbn.
    intros E%list_elem_of_singleton. injection E as Ek Ev. specialize (Hmax r Hr Ek). lia.
  - intros r [Hr| ->]%Hin; [by apply H4|done].
  - intros key. destruct (decide (key = fp_normalized_key row)) as [->|Hne].
    + rewrite pruned_key by done. rewrite length_take. lia.
    + rewrite pruned_other by done. rewrite List.filter_app. cbn.
      unfold of_key at 2. rewrite bool_decide_eq_false_2 by congruence. rewrite app_nil_r. apply H5.
Qed.

Section Storage.
  Context `{X : Externals} `{T : JsonText} `{C : CrawlNet} (cfg : FetcherConfig).
  Abbreviation World := (Io FetcherTables FetcherEffect).
  Abbreviation keep := (Z.to_nat (fc_page_content_max_versions_per_key cfg)).
  Hypothesis (Hkeep : 1 <= fc_page_content_max_versions_per_key cfg).

(** The row made for a version has its key and version and the identifier it is given. *)
Definition makes_row (key : string) (mk : Z -> Uuid -> Z -> FetchedPage) : Prop :=
  forall v id now, fp_id (mk v id now) = id /\ fp_normalized_key (mk v id now) = key /\ fp_fetch_version (mk v id now) = v.

Lemma failure_row_makes j ttl failure attempts :
  makes_row (pfj_normalized_key j) (failure_row j ttl failure attempts).
Proof. done. Qed.
Lemma content_row_makes j ttl crawled url attempts :
  makes_row (pfj_normalized_key j) (content_row cfg j ttl crawled url attempts).
Proof. done. Qed.

(** What storing a version did. *)
Definition stored_version (key : string) (mk : Z -> Uuid -> Z -> FetchedPage) (a b : Uuid * FetcherTables) : Prop :=
  exists v now, let row := mk v a.1 now in
    1 <= v <= i32_max /\
    (forall r, r ∈ ft_pages a.2 -> fp_normalized_key r = key -> fp_fetch_version r < v) /\
    b = (S a.1, set_pages (pruned key keep (ft_pages a.2 ++ [row])) a.2).

Definition store_body (key : string) (mk : Z -> Uuid -> Z -> FetchedPage) : FM unit :=
  _ ← lock_page_content_key;
  version ← next_version_tx key;
  _ ← (if decide (version <= i32_max) then mret tt else of_result (Err DB_ERROR));
  _ ← insert_page (mk version);
  prune_page_content_versions cfg key.

Lemma store_body_ok key mk (w w' : World) :
  store_body key mk w = (Ok tt, w') -> stored_version key mk (view w) (view w').
Proof.
  intros (u1 & w1 & (t1 & _ & V1)%sql_Ok & (v & w2 & Hv & (u3 & w3 & Hd & (u4 & w4 & Hins & (t5 & _ & V5)%sql_Ok)%io_bind_Ok)%io_bind_Ok)%io_bind_Ok)%io_bind_Ok.
  apply io_bind_Ok in Hv as (m & w2' & (t2 & -> & V2)%sql_Ok & [= <- <-]).
  case_decide as Hi; [injection Hd as <-|done].
  apply io_bind_Ok in Hins as (id & w3' & [= <- <-] & (t4 & _ & V4)%sql_Ok).
  unfold view in *. cbn in *. injection V1 as N1 T1. injection V2 as N2 T2. injection V4 as N4 T4. injection V5 as N5 T5.
  subst w3. rewrite T5, T4, T2, N5, N4, N2, N1, T1. rewrite T1 in Hi. eexists _, t4. cbn. split_and!; [|exact Hi| |reflexivity].
  - assert (0 <= foldl Z.max 0 (fp_fetch_version <$> List.filter (of_key key) (ft_pages (io_tables w)))); [|lia].
    apply foldl_max_ge. by right.
  - intros r Hr Hk. apply Z.lt_succ_r. apply foldl_max_ge. left. apply list_elem_of_fmap. exists r. split; [done|].
    by apply elem_of_filter_of_key.
Qed.

#[local] Instance true_preorder : PreOrder (fun _ _ : Uuid * FetcherTables => True).
Proof. by split. Qed.
#[local] Instance true_supply : Supply (fun _ _ : Uuid * FetcherTables => True).
Proof. by intros ?. Qed.

Lemma store_version_keeps (R : relation (Uuid * FetcherTables)) `{!PreOrder R, !Supply R} key mk :
  (forall a b, stored_version key mk a b -> R a b) -> keeps R (store_version cfg key mk) (fun _ => True).
Proof.
  intros HR. apply (keeps_atomic R (store_body key mk)); [|intros w [] w1 Hrun; by apply HR, store_body_ok].
  unfold store_body. apply keeps_then; [apply _|by apply keeps_update; [apply _..|]|intros _].
  apply keeps_then; [apply _| |intros v].
  { apply keeps_then; [apply _|by apply keeps_fetch; apply _|intros; by apply keeps_ret; [apply _|]]. }
  apply keeps_then; [apply _| |intros _].
  { case_decide; [by apply keeps_ret; [apply _|]|by apply keeps_result; [apply _|]]. }
  apply keeps_then; [apply _|by apply keeps_v4_sql; [apply _..|]|intros _]. by apply keeps_update; [apply _..|].
Qed.

(** ** Every run of the fetcher *)

Definition page_step (a b : Uuid * FetcherTables) : Prop := pages_ok keep a -> pages_ok keep b.
#[local] Instance page_step_preorder : PreOrder page_step.
Proof. split; [by intros a H|]. intros a b c H1 H2 H. auto. Qed.
#[local] Instance page_step_supply : Supply page_step.
Proof. intros n n' s Hn [H1 H2 H3 H4 H5]. split; [done| |done..]. intros r Hr. specialize (H2 r Hr). cbn in *. lia. Qed.

Lemma stored_version_ok key mk a b : makes_row key mk -> stored_version key mk a b -> page_step a b.
Proof.
  intros Hmk (v & now & Hv & Hmax & ->) Hok. destruct a as [n t]. cbn in *. destruct (Hmk v n now) as (E1 & E2 & E3).
  rewrite <- E2. apply add_version_ok; [lia|done|done|by rewrite E3|]. intros r Hr Hk. rewrite E3. apply Hmax; congruence.
Qed.

Lemma page_step_markers m n t : page_step (n, t) (n, set_page_markers m t).
Proof. intros [H1 H2 H3 H4 H5]. by split. Qed.

Lemma host_resolves_keeps host cache : keeps page_step (host_resolves host cache) (fun _ => True).
Proof.
  unfold host_resolves. destruct (cache !! host); [by apply keeps_ret; [apply _|]|].
  apply keeps_then; [apply _|apply keeps_now; apply _|intros; by apply keeps_ret; [apply _|]].
Qed.

Lemma try_candidates_keeps j ttl candidates : forall s,
  keeps page_step (try_candidates cfg j ttl candidates s) (fun _ => True).
Proof.
  induction candidates as [|url candidates IH]; intros s; cbn [try_candidates]; [by apply keeps_ret; [apply _|]|].
  apply keeps_then; [apply _|by apply keeps_result; [apply _|]|intros parsed].
  destruct (is_empty _); [apply IH|]. destruct (is_likely_asset_host _ _); [apply IH|].
  apply keeps_then; [apply _|apply host_resolves_keeps|intros r]. destruct (negb _); [apply IH|].
  apply keeps_then; [apply _| |intros [response|failure]; [|apply IH]].
  { intros w. unfold fetch_content. destruct (crawl _ _ _). cbn. split_and!; [done|reflexivity|done]. }
  apply keeps_then; [apply _| |intros; by apply keeps_ret; [apply _|]].
  apply store_version_keeps; [apply _..|]. intros a b. apply stored_version_ok, content_row_makes.
Qed.

Lemma process_keeps payload : keeps page_step (process_fetch_job cfg payload) (fun _ => True).
Proof.
  assert (forall key, keeps page_step (fetch_mark_processed cfg key) (fun _ => True)) as Hmark.
  { intros key. apply keeps_update; [apply _..|]. intros. apply page_step_markers. }
  unfold process_fetch_job. apply keeps_then; [apply _|by apply keeps_result; [apply _|]|intros j].
  apply keeps_then; [apply _|apply keeps_fetch; apply _|intros []]; [by apply keeps_ret; [apply _|]|].
  apply keeps_then; [apply _|apply keeps_fetch; apply _|intros []]; [apply Hmark|].
  apply keeps_then; [apply _| |intros []]; [|apply Hmark|].
  { apply keeps_then; [apply _|apply keeps_fetch; apply _|intros; by apply keeps_ret; [apply _|]]. }
  unfold fetch_page. apply keeps_then; [apply _|by apply keeps_result; [apply _|]|intros candidates].
  apply keeps_then; [apply _|apply try_candidates_keeps|intros [[] s]]; [apply Hmark|]. cbn [fst snd].
  apply keeps_then; [apply _| |intros; by apply keeps_result; [apply _|]].
  apply store_version_keeps; [apply _..|]. intros a b. apply stored_version_ok, failure_row_makes.
Qed.

(** C30: The table of page contents stays in order: after any jobs, in any order, and whatever
    fails, no key has two rows of one version or more rows than configured, versions are positive
    and fit their column, and identifiers are unique. *)
Theorem page_contents_invariant payloads (w : World) :
  pages_ok keep (view w) -> pages_ok keep (view (foldl (fun w p => (process_fetch_job cfg p w).2) w payloads)).
Proof.
  revert w. induction payloads as [|p payloads IH]; intros w Hok; cbn; [done|]. apply IH.
  destruct (process_keeps p w) as (_ & H & _). by apply H.
Qed.

(** ** What the LLM worker finds *)

Definition as_page_row (r : FetchedPage) : PageContentRow :=
  {| pg_normalized_key := fp_normalized_key r; pg_fetch_version := fp_fetch_version r; pg_fetch_status := fp_fetch_status r;
     pg_text_excerpt := fp_text_excerpt r; pg_content_hash := fp_content_hash r; pg_expires_at := fp_expires_at r |}.
Definition page_table (w : World) : Z -> list PageContentRow := fun _ => as_page_row <$> ft_pages (io_tables w).

(** A row that is the latest of its key. *)
Definition latest (row : FetchedPage) (rows : list FetchedPage) : Prop :=
  row ∈ rows /\ forall r, r ∈ rows -> fp_normalized_key r = fp_normalized_key row -> r = row \/ fp_fetch_version r < fp_fetch_version row.

Lemma stored_version_latest key mk a b :
  makes_row key mk -> pages_ok keep a -> stored_version key mk a b ->
  exists v now, latest (mk v a.1 now) (ft_pages b.2).
Proof.
  intros Hmk Hok (v & now & Hv & Hmax & ->). exists v, now. destruct (Hmk v a.1 now) as (E1 & E2 & E3). cbn.
  assert (NoDup (fp_id <$> ft_pages a.2 ++ [mk v a.1 now])) as Hnd.
  { rewrite fmap_app. apply NoDup_app. split_and!; [apply Hok| |apply NoDup_singleton].
    intros i (r & -> & Hr)%list_elem_of_fmap. cbn. intros E%list_elem_of_singleton. pose proof (pages_supply _ _ Hok r Hr). lia. }
  split.
  - apply new_version_kept; [lia|done|done|]. intros r Hr Hk. rewrite E3. by apply Hmax.
  - intros r Hr Hk. eapply sublist_subseteq in Hr; [|apply filter_sublist].
    apply elem_of_app in Hr as [Hr| ->%list_elem_of_singleton]; [|by left]. right. rewrite E3. apply Hmax; congruence.
Qed.

Lemma latest_head row rows (p : PageContentRow -> bool) :
  latest row rows -> p (as_page_row row) = true ->
  (forall r, p r = true -> pg_normalized_key r = fp_normalized_key row) ->
  head (order_desc pg_fetch_version (List.filter p (as_page_row <$> rows))) = Some (as_page_row row).
Proof.
  intros [Hin Hmax] Hp Hkey. apply head_sort_by_key.
  - apply list_elem_of_In, filter_In. split; [|done]. apply list_elem_of_In, list_elem_of_fmap. by exists row.
  - intros r [Hr Hpr]%list_elem_of_In%filter_In. apply list_elem_of_In, list_elem_of_fmap in Hr as (r' & -> & Hr').
    destruct (Hmax r' Hr' (Hkey _ Hpr)) as [->|Hlt]; [by left|right]. cbn. lia.
Qed.

(** The LLM worker reads the latest content that has not expired. *)
Lemma latest_content_read row (w : World) (lw : LlmWorld) :
  latest row (ft_pages (io_tables w)) -> to_ascii_lowercase (fp_fetch_status row) = "ok" ->
  lw_faults lw = [] -> lw_now lw + 1 < fp_expires_at row ->
  (load_page_content (page_table w) (fp_normalized_key row) lw).1 =
    Ok (Some {| sn_excerpt := fp_text_excerpt row; sn_hash := fp_content_hash row; sn_version := Some (fp_fetch_version row) |}).
Proof.
  intros Hrow Hok Hf Hexp. unfold load_page_content, query, io. rewrite Hf. cbn [fst]. unfold page_table.
  rewrite (latest_head row); [done|done| |].
  - cbn [as_page_row pg_fetch_status pg_normalized_key pg_expires_at]. rewrite Hok, !bool_decide_eq_true_2 by done. done.
  - intros r [[Hk _]%andb_true_iff _]%andb_true_iff. by apply bool_decide_eq_true in Hk.
Qed.

Lemma chars_count_take n s : (chars_count (take_chars n s) <= n)%N.
Proof.
  revert n. induction s as [|c s IH]; intros n; cbn; [lia|]. destruct (continues c) eqn:E; cbn; rewrite ?E; [apply IH|].
  case_decide; [cbn; lia|]. cbn. rewrite E. specialize (IH (N.pred n)). lia.
Qed.

(** ** A job in calm weather *)

Definition room (key : string) (a : Uuid * FetcherTables) : Prop :=
  forall r, r ∈ ft_pages a.2 -> fp_normalized_key r = key -> fp_fetch_version r < i32_max.

Lemma foldl_max_lt l : forall a b, a < b -> (forall x, x ∈ l -> x < b) -> foldl Z.max a l < b.
Proof.
  induction l as [|y l IH]; intros a b Ha Hl; cbn; [done|]. apply IH; [|intros; apply Hl; by right].
  specialize (Hl y ltac:(by left)). lia.
Qed.

Lemma store_body_calm key mk (w : World) :
  calm w -> room key (view w) -> exists w', store_body key mk w = (Ok tt, w') /\ calm w'.
Proof.
  intros H0 Hroom. eexists.
  unfold store_body, lock_page_content_key, next_version_tx, insert_page, prune_page_content_versions.
  unfold mbind, io_bind. rewrite update_calm by done. rewrite fetch_calm by (unfold calm; cbn; by rewrite H0). cbn [fst snd].
  unfold mret, io_ret. rewrite decide_True.
  2: { apply Z.le_succ_l, foldl_max_lt; [done|]. intros x (r & -> & [Hr Hk]%elem_of_filter_of_key)%list_elem_of_fmap.
       by apply (Hroom r). }
  unfold new_v4, sql. rewrite step_calm by (unfold calm; cbn; by rewrite H0). cbn [elapse].
  rewrite update_calm by (unfold calm; cbn; by rewrite H0). split; [reflexivity|]. unfold calm. cbn. by rewrite H0.
Qed.

Lemma store_version_calm key mk (w : World) :
  calm w -> room key (view w) ->
  exists w', store_version cfg key mk w = (Ok tt, w') /\ calm w' /\ stored_version key mk (view w) (view w').
Proof.
  intros Hw Hroom.
  destruct (store_body_calm key mk (with_tx (Some (io_now w + 1)) (elapse w))) as (w1 & E1 & H1); [by apply calm_elapse|done|].
  eexists. split; [exact (transaction_calm _ _ _ _ Hw E1 H1)|]. split.
  - unfold calm. cbn. by rewrite H1.
  - apply store_body_ok in E1. exact E1.
Qed.

Definition TERMINAL : list string := ["blocked"; "unsupported"; "failed"].
Definition terminal (f : FetchFailure) : Prop := ff_fetch_status f ∈ TERMINAL.
Ltac terminal_tac := unfold terminal, TERMINAL; cbn; set_solver.

Lemma classify_terminal detail status : (classify_crawl_failure detail status).1 ∈ TERMINAL.
Proof. unfold classify_crawl_failure, TERMINAL. repeat (case_match; cbn; [set_solver|]). set_solver. Qed.

Lemma payload_terminal text f : parse_crawl_error_payload text = Some f -> terminal f.
Proof.
  unfold parse_crawl_error_payload. intros ([[[report reason] detail]|] & _ & H)%bind_Some; [|done]. cbn in H.
  destruct report as [report|]; [|done]. cbn in H. injection H as <-. unfold terminal, TERMINAL. cbn. repeat case_decide; set_solver.
Qed.

Lemma read_crawl_terminal reply f : read_crawl reply = Err f -> terminal f.
Proof.
  unfold read_crawl. destruct reply as [[status body]|e]; [|intros [= <-]; terminal_tac]. case_decide.
  - destruct (mbind _ _) as [parsed|e]; [|intros [= <-]; terminal_tac]. case_decide; [done|intros [= <-]; terminal_tac].
  - destruct (parse_crawl_error_payload _) eqn:E; [intros [= <-]; by eapply payload_terminal|].
    pose proof (classify_terminal (match body with Ok text => text | Err _ => "<empty>" end) (Some status)) as Hc.
    destruct (classify_crawl_failure _ _). by intros [= <-].
Qed.

Definition last_terminal (s : Candidates) : Prop := forall f, ca_last_failure s = Some f -> terminal f.

Lemma final_terminal s : last_terminal s -> terminal (final_failure s).
Proof.
  intros H. unfold final_failure. destruct (_ && _); [terminal_tac|].
  destruct (ca_last_failure s) eqn:E; [by apply H|terminal_tac].
Qed.

Lemma try_candidates_calm j ttl candidates : forall s (w : World),
  calm w -> Forall (fun url => is_Some (Url_parse url)) candidates -> last_terminal s ->
  room (pfj_normalized_key j) (view w) ->
  exists stored s' w', try_candidates cfg j ttl candidates s w = (Ok (stored, s'), w') /\ calm w' /\
    if stored : bool
    then exists crawled url attempts,
      stored_version (pfj_normalized_key j) (content_row cfg j ttl crawled url attempts) (view w) (view w')
    else view w' = view w /\ last_terminal s'.
Proof.
  induction candidates as [|url candidates IH]; intros s w Hw Hall Hs Hroom; cbn [try_candidates]; [by eexists false, s, w|].
  apply Forall_cons in Hall as [[parsed Hparse] Hall]. rewrite Hparse. unfold mbind at 1, io_bind at 1, of_result at 1.
  cbn [ok_or]. destruct (is_empty _).
  { apply IH; [done..| |done]. intros f [= <-]. terminal_tac. }
  destruct (is_likely_asset_host _ _); [by apply IH|].
  assert (exists r, host_resolves (default "" (u_host_str parsed)) (ca_dns s) w = (Ok r, w)) as (r & Hr).
  { unfold host_resolves. destruct (_ !! _); by eexists. }
  unfold mbind at 1, io_bind at 1. rewrite Hr. destruct (negb _); [by apply IH|].
  unfold mbind at 1, io_bind at 1, fetch_content. destruct (crawl _ _ _) as [elapsed reply].
  set (w1 := mkIo _ _ _ _ _ _). assert (calm w1) as H1 by exact Hw.
  destruct (read_crawl reply) as [response|failure] eqn:E.
  - destruct (store_version_calm (pfj_normalized_key j)
      (content_row cfg j ttl response url (ca_attempts (add_attempt url "ok" "ok" (ca_last_failure s) r.2 true s))) w1 H1 Hroom)
      as (w2 & E2 & H2 & Hst).
    unfold mbind, io_bind, store_content. rewrite E2. eexists true, _, w2. split_and!; [done|done|]. by eexists _, _, _.
  - apply (IH _ w1); [done..| |done]. intros f [= <-]. by eapply read_crawl_terminal.
Qed.

Lemma resolve_parses j candidates :
  resolve_candidate_urls j = Ok candidates -> Forall (fun url => is_Some (Url_parse url)) candidates.
Proof.
  unfold resolve_candidate_urls. generalize (pfj_url j :: pfj_candidate_urls j). intros urls. cbv zeta. case_decide; [done|]. intros [= <-]. apply Forall_forall.
  intros url [[_ Hp]%list_elem_of_In%filter_In _]%elem_of_dedupe_from. by apply bool_decide_eq_true in Hp.
Qed.

(** The LLM worker stops waiting for a page whose last fetch failed. *)
Lemma failed_page_plan row (w : World) (lw : LlmWorld) c p cj :
  latest row (ft_pages (io_tables w)) -> lw_faults lw = [] ->
  fp_fetch_status row ∈ TERMINAL -> fp_fetch_status row ∈ oc_metadata_only_no_content_statuses (jc_online_context c) ->
  cj_normalized_key cj = fp_normalized_key row -> cj_requires_content cj = true ->
  (oc_metadata_only_allowed_for (jc_online_context c) = AllowedAll \/ is_online_provider p = true) ->
  as_i64 (oc_metadata_only_fetch_failure_threshold (jc_online_context c)) <= 1 ->
  (provider_request_plan (page_table w) c p cj lw).1 =
    Ok {| pl_require_content := false; pl_send_excerpt := true; pl_metadata_only_reason := Some "fetch_failed_threshold" |}.
Proof.
  intros Hrow Hf Hterm Hin Hk Hreq Hallow Hth.
  assert (to_ascii_lowercase (fp_fetch_status row) = fp_fetch_status row /\
          to_ascii_lowercase (trim (fp_fetch_status row)) = fp_fetch_status row /\ is_empty (fp_fetch_status row) = false) as (E1 & E2 & E3).
  { by apply elem_of_cons in Hterm as [->|[->|[->|?%elem_of_nil]%elem_of_cons]%elem_of_cons]. }
  unfold provider_request_plan. rewrite Hreq.
  assert ((match oc_metadata_only_allowed_for (jc_online_context c) with
           | AllowedAll => true | AllowedOnline => is_online_provider p end) = true) as ->.
  { destruct Hallow as [-> | ->]; [done|by destruct (oc_metadata_only_allowed_for _)]. }
  unfold metadata_only_fetch_failure_reason, load_page_fetch_state, query, io. cbn [andb]. unfold mbind, w_bind.
  rewrite Hf. cbn [fst snd lw_faults set_clock tail]. unfold page_table. rewrite Hk.
  rewrite (latest_head row); [|done|by apply bool_decide_eq_true_2|intros r; by rewrite bool_decide_eq_true].
  cbn [mbind option_bind as_page_row pg_fetch_status]. rewrite E2, E3. cbn [fs_latest_status fs_failure_count mret w_ret].
  rewrite (bool_decide_eq_true_2 _ Hin). rewrite bool_decide_eq_true_2; [done|].
  etrans; [exact Hth|]. destruct (List.filter _ _) as [|r l] eqn:E; [exfalso|cbn; lia].
  assert (as_page_row row ∈ ([] : list PageContentRow)) as []%elem_of_nil. rewrite <- E. apply list_elem_of_In, filter_In.
  split; [apply list_elem_of_In, list_elem_of_fmap; exists row; by split; [|apply Hrow]|].
  cbn [as_page_row pg_fetch_status pg_normalized_key]. rewrite E1. by rewrite !bool_decide_eq_true_2.
Qed.

(** What the LLM worker finds after a job: the content of the page until it expires, or that there
    will be none. *)
Definition settled (r : result string unit) (row : FetchedPage) (w : World) : Prop :=
  match r with
  | Ok _ => exists excerpt, (chars_count excerpt <= Z.to_N (fc_max_html_context_chars cfg))%N /\
      forall lw, lw_faults lw = [] -> lw_now lw + 1 < fp_expires_at row ->
        (load_page_content (page_table w) (fp_normalized_key row) lw).1 =
          Ok (Some {| sn_excerpt := Some excerpt; sn_hash := Some (sha256_hex excerpt); sn_version := Some (fp_fetch_version row) |})
  | Err _ => fp_fetch_status row ∈ TERMINAL /\ fp_text_excerpt row = None /\
      forall lw c p cj, lw_faults lw = [] ->
        fp_fetch_status row ∈ oc_metadata_only_no_content_statuses (jc_online_context c) ->
        cj_normalized_key cj = fp_normalized_key row -> cj_requires_content cj = true ->
        (oc_metadata_only_allowed_for (jc_online_context c) = AllowedAll \/ is_online_provider p = true) ->
        as_i64 (oc_metadata_only_fetch_failure_threshold (jc_online_context c)) <= 1 ->
        (provider_request_plan (page_table w) c p cj lw).1 =
          Ok {| pl_require_content := false; pl_send_excerpt := true; pl_metadata_only_reason := Some "fetch_failed_threshold" |}
  end.

(** C29: A fetch always settles its page: when nothing fails, every job with a usable address ends
    with a new latest version of its key that lives for the time to live.  Either the version
    carries an excerpt within the configured length, and the LLM worker reads exactly this excerpt
    with its hash until it expires; or it is a terminal failure, after which the LLM worker, where
    its configuration counts the status, no longer waits for content. *)
Theorem fetch_page_settles j ttl ik candidates (w : World) :
  pages_ok keep (view w) -> calm w -> room (pfj_normalized_key j) (view w) -> resolve_candidate_urls j = Ok candidates ->
  let '(r, w') := fetch_page cfg j ttl ik w in
  exists row, latest row (ft_pages (io_tables w')) /\ fp_normalized_key row = pfj_normalized_key j /\
    (fp_expires_at row = fp_fetched_at row + ttl * 1000) /\ settled r row w'.
Proof.
  intros Hok Hw Hroom Hc. unfold fetch_page, mbind, io_bind, of_result. rewrite Hc.
  destruct (try_candidates_calm j ttl candidates no_candidates w Hw (resolve_parses _ _ Hc) ltac:(done) Hroom)
    as (stored & s & w1 & E & H1 & Hst). rewrite E. destruct stored; cbn [fst snd].
  - destruct Hst as (crawled & url & attempts & Hst).
    destruct (stored_version_latest _ _ _ _ (content_row_makes _ _ _ _ _) Hok Hst) as (v & now & Hlatest).
    unfold fetch_mark_processed. rewrite update_calm by done. eexists. split_and!; [exact Hlatest|done..|].
    exists (excerpt_of cfg crawled). split; [apply chars_count_take|].
    intros lw Hf He. exact (latest_content_read _ (with_tables _ (elapse w1)) lw Hlatest eq_refl Hf He).
  - destruct Hst as [Hv Hs]. rewrite <- Hv in Hok, Hroom.
    destruct (store_version_calm (pfj_normalized_key j) (failure_row j ttl (final_failure s) (ca_attempts s)) w1 H1 Hroom)
      as (w2 & E2 & H2 & Hst).
    unfold store_failure. rewrite E2.
    destruct (stored_version_latest _ _ _ _ (failure_row_makes _ _ _ _) Hok Hst) as (v & now & Hlatest).
    eexists. split_and!; [exact Hlatest|done..|]. split_and!; [by apply final_terminal|done|].
    intros. by apply (failed_page_plan _ _ _ _ _ _ Hlatest); [|apply final_terminal|..].
Qed.

End Storage.

(** ** A fetcher at work *)

Module FetcherDemo.
#[local] Existing Instance Demo.unicode.
#[local] Existing Instance Demo.libs.
#[local] Existing Instance JsonDemo.text.

(** The crawl service finds a page on one host and refuses the others. *)
Definition net : CrawlNet := {|
  lookup_host _ host := negb (bool_decide (host = "gone.test"));
  crawl _ _ body :=
    (40, match json_get "url" body with
         | Some (JStr "https://page.test/") =>
             Ok (200, Ok (json_print (JObj [("status", JStr "ok"); ("markdown_text", JStr "Hello there"); ("cleaned_text", JStr "");
                                            ("content_type", JStr "text/html"); ("title", JStr "Greeting")])))
         | _ => Ok (403, Ok "nothing to see")
         end);
  crawl_error_text e := e;
  sha256_hex s := "sha256:" +:+ s
|}.
#[local] Existing Instance net.

Definition config : FetcherConfig :=
  {| fc_queue_name := "page-fetch-jobs"; fc_stream := "page-fetch-jobs"; fc_redis_url := "redis://redis:6379";
     fc_crawl_service_url := "http://crawl:8085/"; fc_database_url := "postgres://db"; fc_max_excerpt_chars := 4000;
     fc_max_html_context_chars := 16; fc_max_html_bytes := 500000; fc_ttl_seconds := 3600;
     fc_page_content_max_versions_per_key := 2; fc_idempotency_ttl_seconds := 60; fc_terminal_retry_cooldown_seconds := 900;
     fc_blocked_retry_cooldown_seconds := 86400; fc_unsupported_retry_cooldown_seconds := 604800;
     fc_unsupported_host_allowlist := [] |}.

Definition job (url : string) : PageFetchJob :=
  {| pfj_normalized_key := "domain:page.test"; pfj_url := url; pfj_hostname := "page.test"; pfj_candidate_urls := [];
     pfj_trace_id := None; pfj_idempotency_key := None; pfj_ttl_seconds := None |}.
Definition payload (url : string) : string :=
  json_print (JObj [("normalized_key", JStr "domain:page.test"); ("url", JStr url); ("hostname", JStr "page.test")]).

Definition world : Io FetcherTables FetcherEffect := mkIo 1000 None [] 1%nat [] {| ft_pages := []; ft_markers := ∅ |}.
Lemma world_ok : pages_ok 2 (view world).
Proof. by split; cbn; [constructor|intros ? ?%elem_of_nil|constructor|intros ? ?%elem_of_nil|intros; lia]. Qed.

Definition rows (w : Io FetcherTables FetcherEffect) : list (Z * string * option string) :=
  (fun r => (fp_fetch_version r, fp_fetch_status r, fp_text_excerpt r)) <$> ft_pages (io_tables w).

Lemma page_contents_invariant_witness :
  pages_ok 2 (view (foldl (fun w p => (process_fetch_job config p w).2) world [payload "https://page.test/"; "nonsense"])) /\
  rows (foldl (fun w p => (process_fetch_job config p w).2) world [payload "https://page.test/"; "nonsense"]) =
    [(1, "ok", Some ("# Greeting" +:+ String LF (String LF "Hell")))].
Proof.
  split; [|vm_compute; reflexivity].
  apply (page_contents_invariant config ltac:(cbn; lia) [payload "https://page.test/"; "nonsense"] world world_ok).
Defined.

(** A page that refuses the crawler, then a page that has content. *)
Lemma fetch_page_settles_witness :
  rows (fetch_page config (job "https://shy.test/") 3600 "k" world).2 = [(1, "blocked", None)] /\
  exists row, latest row (ft_pages (io_tables (fetch_page config (job "https://page.test/") 3600 "k" world).2)) /\
    fp_normalized_key row = "domain:page.test" /\ exists excerpt, (chars_count excerpt <= 16)%N.
Proof.
  split; [vm_compute; reflexivity|].
  pose proof (fetch_page_settles config ltac:(cbn; lia) (job "https://page.test/") 3600 "k" ["https://page.test/"] world
    world_ok eq_refl ltac:(by intros ? ?%elem_of_nil) ltac:(vm_compute; reflexivity)) as H.
  destruct (fetch_page config (job "https://page.test/") 3600 "k" world) as [r w'] eqn:E. cbn [snd].
  destruct H as (row & H1 & H2 & _ & H3). exists row. split_and!; [exact H1|exact H2|].
  assert (r = Ok tt) as -> by (apply (f_equal fst) in E; cbn [fst] in E; rewrite <- E; vm_compute; reflexivity).
  destruct H3 as (excerpt & Hle & _). by exists excerpt.
Defined.

(** The marker of a job keeps a second delivery from crawling, and a page is not crawled again
    while its last failure cools down. *)
Example crawled_once :
  let crawls w := length (List.filter (fun e => match e with Crawled _ => true | _ => false end) (io_trace w)) in
  let run url w := (process_fetch_job config (payload url) w).2 in
  crawls (run "https://page.test/" (run "https://page.test/" world)) = 1%nat /\
  crawls (run "https://other.test/" (run "https://shy.test/" world)) = 1%nat /\
  crawls (run "https://gone.test/" world) = 0%nat.
Proof. vm_compute. done. Qed.
End FetcherDemo.
