(* ===== verification/Ingest.v ===== *)
(** * The event ingester

    [services/event-ingester/src]: proxy log events arrive from Filebeat, are completed from the Squid
    log line they carry and written to Elasticsearch in bulk; events that name a page are queued for
    the page fetcher.

    The text form of dates and of JSON, URLs and the answers of Elasticsearch are parameters.  The
    templates that [bootstrap.rs] puts into Elasticsearch at the start and the metrics are left out. *)

From S2P Require Import Prelude RustStr RustNum IpAddr Types Http Json ConfigCore Normalizer LlmWorker Db Io Wp Texts.

Local Open Scope Z_scope.

(** ** Configuration *)

Record IngestConfig := {
  ic_bind_addr : string; ic_elastic_url : string; ic_elastic_index_prefix : string; ic_elastic_index_pattern : string;
  ic_elastic_template_name : string; ic_elastic_ilm_name : string; ic_elastic_api_key : option string;
  ic_elastic_username : option string; ic_elastic_password : option string; ic_filebeat_secret : option string;
  ic_log_level : string; ic_ingest_retry_attempts : Z; ic_apply_templates : bool; ic_page_fetch_redis_url : option string;
  ic_page_fetch_stream : string; ic_page_fetch_ttl_seconds : Z; ic_trust_proxy_headers : bool; ic_trusted_proxy_cidrs : list string
}.

Definition env_some (env : Env) (key : string) : option string := v ← env !! key; if is_empty v then None else Some v.
Definition env_or (env : Env) (key default_ : string) : string := default default_ (env_some env key).
Definition env_req (env : Env) (key : string) : result string string :=
  value ← ok_or (env !! key) ("missing required env var " +:+ key);
  let value := trim value in
  if is_empty value then Err ("env var " +:+ key +:+ " cannot be empty") else Ok value.

(** [str::parse::<bool>]. *)
Definition parse_bool (s : string) : option bool :=
  if decide (s = "true") then Some true else if decide (s = "false") then Some false else None.

Fixpoint parse_cidr_tokens (tokens cidrs : list string) : result string (list string) :=
  match tokens with
  | [] => Ok cidrs
  | token :: tokens' =>
      let trimmed := trim token in
      if is_empty trimmed then parse_cidr_tokens tokens' cidrs
      else
        '(ip, prefix) ← ok_or (split_once "/" trimmed) ("invalid CIDR '" +:+ trimmed +:+ "'");
        ip_addr ← ok_or (parse_ip ip) ("invalid CIDR ip '" +:+ trimmed +:+ "'");
        prefix_len ← ok_or (parse_unsigned 255 prefix) ("invalid CIDR prefix '" +:+ trimmed +:+ "'");
        if decide (width ip_addr < prefix_len) then Err ("CIDR prefix out of range '" +:+ trimmed +:+ "'")
        else parse_cidr_tokens tokens' (cidrs ++ [trimmed])
  end.
Definition parse_cidr_csv (value : string) : result string (list string) := parse_cidr_tokens (split_char "," value) [].

Definition ingest_from_env (env : Env) : result string IngestConfig :=
  elastic_url ← env_req env "OD_ELASTIC_URL";
  trusted_proxy_cidrs ← parse_cidr_csv (env_or env "OD_TRUSTED_PROXY_CIDRS" "");
  Ok {| ic_bind_addr := env_or env "OD_INGEST_BIND" "0.0.0.0:19100"; ic_elastic_url := elastic_url;
        ic_elastic_index_prefix := env_or env "OD_ELASTIC_INDEX_PREFIX" "traffic-events";
        ic_elastic_index_pattern := env_or env "OD_ELASTIC_INDEX_PATTERN" "traffic-events-*";
        ic_elastic_template_name := env_or env "OD_ELASTIC_TEMPLATE_NAME" "traffic-events-template";
        ic_elastic_ilm_name := env_or env "OD_ELASTIC_ILM_NAME" "traffic-events-ilm";
        ic_elastic_api_key := env_some env "OD_ELASTIC_API_KEY"; ic_elastic_username := env_some env "OD_ELASTIC_USERNAME";
        ic_elastic_password := env_some env "OD_ELASTIC_PASSWORD"; ic_filebeat_secret := env_some env "OD_FILEBEAT_SECRET";
        ic_log_level := env_or env "OD_LOG" "info";
        ic_ingest_retry_attempts := default 3 (parse_unsigned u64_max (env_or env "OD_INGEST_RETRY_ATTEMPTS" "3"));
        ic_apply_templates := default true (parse_bool (env_or env "OD_ELASTIC_APPLY_TEMPLATES" "true"));
        ic_page_fetch_redis_url := env_some env "OD_PAGE_FETCH_REDIS_URL";
        ic_page_fetch_stream := env_or env "OD_PAGE_FETCH_STREAM" "page-fetch-jobs";
        ic_page_fetch_ttl_seconds := default 21600 (parse_i32 (env_or env "OD_PAGE_FETCH_TTL_SECONDS" "21600"));
        ic_trust_proxy_headers := default false (parse_bool (env_or env "OD_TRUST_PROXY_HEADERS" "false"));
        ic_trusted_proxy_cidrs := trusted_proxy_cidrs |}.

Definition ingest_validate_config `{X : Externals} (env : Env) (config : IngestConfig) : result string unit :=
  let v := new_validator "event-ingester" in
  let v := require_non_empty "OD_INGEST_BIND" (Some (ic_bind_addr config)) "set OD_INGEST_BIND to a valid host:port value" v in
  let v := require_non_empty "OD_ELASTIC_URL" (Some (ic_elastic_url config)) "set OD_ELASTIC_URL before starting event-ingester" v in
  let v := validate_optional_secret env "OD_ELASTIC_PASSWORD" (ic_elastic_password config) 12
    "set OD_ELASTIC_PASSWORD to a strong Elasticsearch password" v in
  let v := validate_optional_secret env "OD_ELASTIC_API_KEY" (ic_elastic_api_key config) 16
    "set OD_ELASTIC_API_KEY to a non-default API key" v in
  let v := require_strong_secret env "OD_FILEBEAT_SECRET" (ic_filebeat_secret config) 16
    "set OD_FILEBEAT_SECRET to a strong shared ingest secret" v in
  let v := if decide (ic_elastic_api_key config = None /\ ic_elastic_password config = None) then
             require_non_empty "OD_ELASTIC_PASSWORD|OD_ELASTIC_API_KEY" None
               "set OD_ELASTIC_PASSWORD or OD_ELASTIC_API_KEY for authenticated Elasticsearch ingest" v
           else v in
  let v := match ic_page_fetch_redis_url config with
           | None => v
           | Some url =>
               let v := require_non_empty "OD_PAGE_FETCH_STREAM" (Some (ic_page_fetch_stream config))
                 "set OD_PAGE_FETCH_STREAM when OD_PAGE_FETCH_REDIS_URL is configured" v in
               require_auth_url env "OD_PAGE_FETCH_REDIS_URL" (Some url) false true 16
                 "set OD_PAGE_FETCH_REDIS_URL with password-authenticated Redis credentials" v
           end in
  finish v.

(** ** Documents *)

Abbreviation Fields := (list (string * Json)).

(** [Map::insert]: a field that is there gets the value, a new one stands before the first one with
    a later name.  The fields of a document are in the order of their names ([value_of]). *)
Fixpoint obj_replace (key : string) (v : Json) (fields : Fields) : Fields :=
  match fields with
  | [] => []
  | (k, old) :: fields' => if decide (k = key) then (key, v) :: fields' else (k, old) :: obj_replace key v fields'
  end.
Fixpoint obj_insert (key : string) (v : Json) (fields : Fields) : Fields :=
  match fields with
  | [] => [(key, v)]
  | (k, old) :: fields' => if String.ltb key k then (key, v) :: fields else (k, old) :: obj_insert key v fields'
  end.
Definition obj_put (key : string) (v : Json) (fields : Fields) : Fields :=
  match obj_get key fields with Some _ => obj_replace key v fields | None => obj_insert key v fields end.
(** [Map::entry(key).or_insert(v)]. *)
Definition obj_or_insert (key : string) (v : Json) (fields : Fields) : Fields :=
  match obj_get key fields with Some _ => fields | None => obj_put key v fields end.
Definition is_null (v : Json) : bool := match v with JNull => true | _ => false end.
(** A document as a [Value]: of a repeated field the last one counts. *)
Fixpoint value_of (v : Json) : Json :=
  match v with
  | JArr vs => JArr (map value_of vs)
  | JObj fields => JObj (foldl (fun m f => obj_put f.1 f.2 m) [] (map (fun f => (f.1, value_of f.2)) fields))
  | _ => v
  end.

(** The untagged alternatives of the request body, in order. *)
Inductive FilebeatEnvelope := Events (events : list Json) | Array (values : list Json) | Single (value : Json).
Definition envelope_from_json (v : Json) : FilebeatEnvelope :=
  let other := match v with JArr vs => Array (value_of <$> vs) | _ => Single (value_of v) end in
  match v with
  | JObj fields => match lookup_field "events" fields with Ok (Some (JArr vs)) => Events (value_of <$> vs) | _ => other end
  | _ => other
  end.
Definition into_events (e : FilebeatEnvelope) : list Json :=
  match e with Events events => events | Array values => values | Single value => [value] end.

(** ** Completing an event from its log line *)

Definition ensure_value (key : string) (v : Json) (map : Fields) : Fields :=
  match obj_get key map with
  | Some existing => if is_null existing then obj_put key v map else map
  | None => obj_put key v map
  end.
Fixpoint ensure_path_value (path : list string) (v : Json) (map : Fields) : Fields :=
  match path with
  | [] => map
  | head :: path' =>
      match path' with
      | [] => ensure_value head v map
      | _ => match default (JObj []) (obj_get head map) with
             | JObj child => obj_put head (JObj (ensure_path_value path' v child)) map
             | _ => map
             end
      end
  end.

Definition QUOTE : ascii := byte 34.
(** The text before a final quote. *)
Definition before_quote (s : string) : option string :=
  match rsplit_once QUOTE s with Some (before, "") => Some before | _ => None end.
Fixpoint trailing_quoted (max_fields : nat) (cursor : string) : list string :=
  match max_fields with
  | O => []
  | S n =>
      match (before_end ← before_quote cursor; rsplit_once QUOTE before_end) with
      | Some (before, field) => trailing_quoted n (trim_end before) ++ [trim field]
      | None => []
      end
  end.
Definition extract_trailing_quoted_fields (message : string) (max_fields : nat) : list string :=
  trailing_quoted max_fields (trim_end message).
(** [Forwarded] and [X-Forwarded-For]. *)
Definition extract_forwarding_headers_from_log_line (message : string) : option string * option string :=
  match extract_trailing_quoted_fields message 2 with
  | [xff] => (None, Some xff)
  | [forwarded; xff] => (Some forwarded, Some xff)
  | _ => (None, None)
  end.

Definition trim_matches (c : ascii) (s : string) : string := trim_end_matches c (trim_start_matches c s).
Definition parse_ip_token (raw : string) : option IpAddr :=
  let token := trim (trim_matches QUOTE (trim raw)) in
  let with_port :=
    '(host, port) ← rsplit_once ":" token;
    if str_forall is_ascii_digit port then parse_ip host else None in
  if is_empty token || eq_ignore_ascii_case token "unknown" || starts_with "_" token then None
  else match parse_ip token with
       | Some ip => Some ip
       | None =>
           match strip_prefix "[" token with
           | Some rest =>
               match before_char "]" rest with
               | None => None
               | Some ip_part => match parse_ip ip_part with Some ip => Some ip | None => with_port end
               end
           | None => with_port
           end
       end.

Definition first_some {A B} (f : A -> option B) (l : list A) : option B := head (omap f l).
Definition forwarded_pair (pair : string) : option IpAddr :=
  '(key, value) ← split_once "=" pair;
  if eq_ignore_ascii_case (trim key) "for" then parse_ip_token value else None.
Definition first_valid_forwarded_header_ip (forwarded : string) : option IpAddr :=
  first_some (fun element => first_some forwarded_pair (split_char ";" element)) (split_char "," forwarded).
Definition first_valid_x_forwarded_for_ip (xff : string) : option IpAddr := first_some parse_ip_token (split_char "," xff).

Definition infer_action_from_status (status_code : Z) : string :=
  if bool_decide (status_code ∈ [403; 407; 451]) then "block" else "allow".

(** What a log line says, as fields to fill in, in the order of the code. *)
Abbreviation Assignment := (list string * Json)%type.

(** The address of the client and where it comes from. *)
Definition client_address (trust_proxy_headers : bool) (trusted_proxy_cidrs : list TrustedCidr) (peer_ip : IpAddr)
    (forwarded_raw xff_raw : option string) : IpAddr * string :=
  if trust_proxy_headers && is_trusted_proxy peer_ip trusted_proxy_cidrs then
    match forwarded_raw ≫= first_valid_forwarded_header_ip with
    | Some original_ip => (original_ip, "forwarded")
    | None => match xff_raw ≫= first_valid_x_forwarded_for_ip with
              | Some original_ip => (original_ip, "x-forwarded-for")
              | None => (peer_ip, "peer")
              end
    end
  else (peer_ip, "peer").

Definition source_fields (trust_proxy_headers : bool) (trusted_proxy_cidrs : list TrustedCidr) (message ip : string) : list Assignment :=
  (["source"; "ip"], JStr ip) ::
  match parse_ip ip with
  | Some peer_ip =>
      let '(forwarded_raw, xff_raw) := extract_forwarding_headers_from_log_line message in
      let '(client_ip, client_ip_source) := client_address trust_proxy_headers trusted_proxy_cidrs peer_ip forwarded_raw xff_raw in
      match forwarded_raw with Some forwarded => [(["od"; "forwarded_raw"], JStr forwarded)] | None => [] end ++
      match xff_raw with Some xff => if is_empty xff then [] else [(["od"; "forwarded_for_raw"], JStr xff)] | None => [] end ++
      [(["client"; "ip"], JStr (ip_to_string client_ip)); (["od"; "client_ip_source"], JStr client_ip_source)]
  | None => [(["od"; "client_ip_source"], JStr "unknown")]
  end.

Definition status_fields (token : string) : list Assignment :=
  match split_once "/" token with
  | Some (result_code, status_code) =>
      (["proxy"; "result_code"], JStr result_code) ::
      match parse_i64 status_code with
      | Some code =>
          let inferred := infer_action_from_status code in
          [(["http"; "response"; "status_code"], JInt code); (["recommended_action_inferred"], JStr inferred);
           (["traffic_class"], JStr (if decide (inferred = "block") then "blocked" else "allowed"))]
      | None => []
      end
  | None => []
  end.

Definition opt_fields {A} (f : A -> list Assignment) (o : option A) : list Assignment := match o with Some a => f a | None => [] end.

Section Events.
  Context `{U : Unicode} `{E : Externals} `{X : Texts}.
  (** [format("%Y.%m.%d")]. *)
  Context (day_of : Z -> string).
  Context (trust_proxy_headers : bool) (trusted_proxy_cidrs : list TrustedCidr).

Definition parse_target_domain_url (target : string) (method : option string) : option (string * string) :=
  if starts_with "http://" target || starts_with "https://" target then
    parsed ← Url_parse target;
    host ← u_host_str parsed;
    Some (to_ascii_lowercase host, target)
  else if default false ((fun m => eq_ignore_ascii_case m "CONNECT") <$> method) then
    first ← head (split_char ":" target);
    let host := to_ascii_lowercase (trim first) in
    if is_empty host then None else Some (host, "https://" +:+ host +:+ "/")
  else None.

Definition target_fields (method : option string) (raw_target : string) : list Assignment :=
  match parse_target_domain_url raw_target method with
  | Some (domain, canonical_url) =>
      [(["destination"; "domain"], JStr domain); (["url"; "full"], JStr canonical_url)] ++
      match normalize_target domain "/" (Some "https") with
      | Ok normalized => [(["normalized_key"], JStr (nt_normalized_key normalized))]
      | Err _ => []
      end
  | None => []
  end.

Definition squid_fields (message : string) : list Assignment :=
  let parts := split_whitespace message in
  let method := parts !! 5%nat in
  opt_fields (source_fields trust_proxy_headers trusted_proxy_cidrs message) (parts !! 2%nat) ++
  opt_fields status_fields (parts !! 3%nat) ++
  opt_fields (fun bytes => if decide (0 <= bytes) then [(["network"; "bytes"], JInt bytes)] else []) (parts !! 4%nat ≫= parse_i64) ++
  opt_fields (fun m => [(["http"; "request"; "method"], JStr m)]) method ++
  opt_fields (target_fields method) (parts !! 6%nat).

Definition ensure_all (l : list Assignment) (map : Fields) : Fields := foldl (fun map a => ensure_path_value a.1 a.2 map) map l.

Definition enrich_squid_event (map : Fields) : Fields :=
  let message := trim (default "" (obj_get "message" map ≫= as_str)) in
  if is_empty message then map else ensure_all (squid_fields message) map.

Definition normalize_event (index_prefix : string) (now : Z) (event : Json) : string * Json :=
  let timestamp := default now ((value_get "@timestamp" event ≫= as_str) ≫= from_rfc3339) in
  let index := index_prefix +:+ "-" +:+ day_of timestamp in
  let trace_value := pointer ["od"; "trace_id"] event ≫= as_str in
  (index,
   match event with
   | JObj map =>
       let map := enrich_squid_event map in
       let map := obj_or_insert "ingested_at" (time_to_json now) map in
       JObj match trace_value with Some trace => obj_or_insert "trace_id" (JStr trace) map | None => map end
   | _ => event
   end).

End Events.

(** ** Writing to Elasticsearch *)

(** The answer to a request, or a failure to send it. *)
Inductive Reply := Answered (status : Z) (text : string) | SendFailed (err : string).
Definition is_success (status : Z) : bool := bool_decide (200 <= status < 300).
(** What the service sends; answers of Elasticsearch still to come are the state of its world. *)
Inductive IngestEffect := BulkRequest (url body : string) | QueueFetch (stream payload : string).
Abbreviation IM := (M (list Reply) IngestEffect).
Abbreviation IngestWorld := (Io (list Reply) IngestEffect).

Record ElasticWriter := {
  ew_base_url : string; ew_retry_attempts : nat; ew_trust_proxy_headers : bool; ew_trusted_proxy_cidrs : list TrustedCidr
}.
Definition new_writer (base_url : string) (retry_attempts : Z) (trust_proxy_headers : bool) (trusted_proxy_cidrs : list string)
    : result string ElasticWriter :=
  cidrs ← try_map parse_cidr trusted_proxy_cidrs;
  Ok {| ew_base_url := trim_end_matches "/" base_url; ew_retry_attempts := Z.to_nat (Z.max retry_attempts 1);
        ew_trust_proxy_headers := trust_proxy_headers; ew_trusted_proxy_cidrs := cidrs |}.

Definition NEWLINE : string := String LF "".
(** The errors of [bulk_index]; their texts are only logged. *)
Inductive BulkError := BulkFailed (attempts : nat) (status : Z) (text : string) | BulkReported (text : string) | BulkUnsent (err : string).
Definition post (url body : string) : IM BulkError Reply := fun w =>
  (Ok (default (SendFailed "connection refused") (head (io_tables w))), told (BulkRequest url body) (with_tables (tail (io_tables w)) w)).

Definition quoted (s : string) : string := String QUOTE (s +:+ String QUOTE "").
Definition reports_errors (text : string) : bool := contains (quoted "errors" +:+ ":true") text.

(** The loop: this is attempt [attempt], and [left] attempts may follow. *)
Fixpoint bulk_loop (left attempt : nat) (url body : string) : IM BulkError unit :=
  reply ← post url body;
  match reply with
  | Answered status text =>
      if is_success status then
        if reports_errors text then of_result (Err (BulkReported text)) else mret tt
      else match left with
           | O => of_result (Err (BulkFailed attempt status text))
           | S left' => bulk_loop left' (S attempt) url body
           end
  | SendFailed err =>
      match left with
      | O => of_result (Err (BulkUnsent err))
      | S left' => bulk_loop left' (S attempt) url body
      end
  end.

Section Writer.
  Context `{U : Unicode} `{E : Externals} `{X : Texts} `{T : JsonText}.
  Context (day_of : Z -> string) (writer : ElasticWriter).

Definition bulk_lines (index_prefix : string) (now : Z) (event : Json) : string :=
  let '(index, normalized) := normalize_event day_of (ew_trust_proxy_headers writer) (ew_trusted_proxy_cidrs writer) index_prefix now event in
  json_print (JObj [("index", JObj [("_index", JStr index)])]) +:+ NEWLINE +:+ json_print normalized +:+ NEWLINE.
Fixpoint bulk_body (index_prefix : string) (now : Z) (events : list Json) (body : string) : string :=
  match events with
  | [] => body
  | event :: events' => bulk_body index_prefix now events' (body +:+ bulk_lines index_prefix now event)
  end.
Definition bulk_index (index_prefix : string) (events : list Json) : IM BulkError unit :=
  match events with
  | [] => mret tt
  | _ =>
      now ← utc_now;
      bulk_loop (ew_retry_attempts writer - 1) 1 (ew_base_url writer +:+ "/_bulk") (bulk_body index_prefix now events "")
  end.

(** ** Jobs for the page fetcher *)

Context `{P : UrlPrinter} (Url_query : string -> option string).

Definition pointer_str (path : list string) (value : Json) : option string :=
  v ← pointer path value; s ← as_str v; let s := trim s in if is_empty s then None else Some s.
Definition URL_POINTERS : list (list string) :=
  [["url"; "full"]; ["url"; "original"]; ["url"; "next"]; ["http"; "request"; "url"]; ["http"; "request"; "target"];
   ["http"; "request"; "referrer"]; ["od"; "url"]; ["destination"; "url"]].
Definition ensure_leading_slash (path : string) : string := if starts_with "/" path then path else "/" +:+ path.
(** [trim_start_matches("//")]. *)
Fixpoint trim_slashes (fuel : nat) (s : string) : string :=
  match fuel with
  | O => s
  | S fuel' => match strip_prefix "//" s with Some rest => trim_slashes fuel' rest | None => s end
  end.
Definition ensure_scheme (url : string) : string :=
  if contains "://" url then url else "http://" +:+ trim_slashes (str_len url) url.
Definition or_else {A} (a b : option A) : option A := match a with Some _ => a | None => b end.

Definition extract_candidate_url (event : Json) : option string :=
  match first_some (fun path => pointer_str path event) URL_POINTERS with
  | Some value => Some value
  | None =>
      host ← or_else (pointer_str ["destination"; "domain"] event)
               (or_else (pointer_str ["server"; "domain"] event) (pointer_str ["od"; "hostname"] event));
      let scheme := default "http" (pointer_str ["url"; "scheme"] event) in
      let path := default "/" (pointer_str ["url"; "path"] event) in
      Some (scheme +:+ "://" +:+ host +:+ ensure_leading_slash path)
  end.

Definition build_page_fetch_job (event : Json) : option PageFetchJob :=
  raw_url ← extract_candidate_url event;
  let normalized_url := ensure_scheme raw_url in
  parsed ← Url_parse normalized_url;
  host ← u_host_str parsed;
  let path := if is_empty (u_path parsed) then "/" else u_path parsed in
  let path := match Url_query normalized_url with Some query => path +:+ "?" +:+ query | None => path end in
  normalized ← result_ok (normalize_target host path (Some (u_scheme parsed)));
  let trace_id := or_else (pointer_str ["od"; "trace_id"] event) (pointer_str ["trace_id"] event) in
  let ttl_override := as_i32 <$> (pointer ["od"; "page_fetch_ttl_seconds"] event ≫= json_i64) in
  Some {| pfj_normalized_key := nt_normalized_key normalized; pfj_url := Url_print normalized_url; pfj_hostname := nt_hostname normalized;
          pfj_candidate_urls := []; pfj_trace_id := trace_id;
          pfj_idempotency_key := (fun trace => "page:" +:+ nt_normalized_key normalized +:+ ":" +:+ trace) <$> trace_id;
          pfj_ttl_seconds := ttl_override |}.

Record PageFetchPublisher := { pp_stream : string; pp_default_ttl : Z }.
Definition new_publisher (stream : string) (default_ttl : Z) : PageFetchPublisher :=
  {| pp_stream := stream; pp_default_ttl := Z.max default_ttl 60 |}.

Definition with_ttl (publisher : PageFetchPublisher) (job : PageFetchJob) : PageFetchJob :=
  if decide (default 0 (pfj_ttl_seconds job) <= 0) then
    {| pfj_normalized_key := pfj_normalized_key job; pfj_url := pfj_url job; pfj_hostname := pfj_hostname job;
       pfj_candidate_urls := pfj_candidate_urls job; pfj_trace_id := pfj_trace_id job; pfj_idempotency_key := pfj_idempotency_key job;
       pfj_ttl_seconds := Some (pp_default_ttl publisher) |}
  else job.
Definition publish (publisher : PageFetchPublisher) (job : PageFetchJob) : IM string unit :=
  command (QueueFetch (pp_stream publisher) (json_print (page_fetch_to_json (with_ttl publisher job)))).

Definition maybe_publish_page_fetch {F} (publisher : PageFetchPublisher) (event : Json) : IM F unit :=
  match build_page_fetch_job event with
  | Some job => dropped (publish publisher job)
  | None => mret tt
  end.
Fixpoint publish_all {F} (publisher : PageFetchPublisher) (events : list Json) : IM F unit :=
  match events with
  | [] => mret tt
  | event :: events' => _ ← maybe_publish_page_fetch publisher event; publish_all publisher events'
  end.

(** ** The route *)

Definition filebeat_ingest (shared_secret : option string) (index_prefix : string) (page_fetch : option PageFetchPublisher)
    (x_filebeat_secret : option string) (envelope : FilebeatEnvelope) : IM (StatusCode * string) unit :=
  _ ← match shared_secret with
      | Some secret => if decide (x_filebeat_secret = Some secret) then mret tt else of_result (Err (UNAUTHORIZED, "invalid filebeat secret"))
      | None => mret tt
      end;
  let docs := into_events envelope in
  _ ← match page_fetch with Some publisher => publish_all publisher docs | None => mret tt end;
  match docs with
  | [] => mret tt
  | _ => map_error (fun _ => (INTERNAL_SERVER_ERROR, "failed to index events")) (bulk_index index_prefix docs)
  end.

End Writer.
