(* ===== verification/IngestProps.v ===== *)
(** * What the event ingester promises

    Completing an event keeps what it says and can be repeated; the address of the client can only be
    set by trusted peers; Elasticsearch reads the events from the bulk body, and the page fetcher the
    jobs from its stream. *)

From S2P Require Import Prelude RustStr RustNum IpAddr Types Http Json ConfigCore Normalizer LlmWorker PageFetch Db Io Wp Texts Ingest.

Local Open Scope Z_scope.

#[local] Arguments obj_get : simpl never.

(** ** Fields of an object *)

Lemma obj_get_nil k : obj_get k [] = None.
Proof. done. Qed.
Lemma obj_get_cons k k' v (m : Fields) : obj_get k ((k', v) :: m) = if decide (k' = k) then Some v else obj_get k m.
Proof. unfold obj_get. cbn [find_first fst]. by case_decide; case_bool_decide. Qed.
Lemma obj_get_replace k v k' (m : Fields) : obj_get k m <> None -> obj_get k' (obj_replace k v m) = if decide (k' = k) then Some v else obj_get k' m.
Proof.
  induction m as [|[k0 v0] m IH]; [done|]. rewrite obj_get_cons. cbn [obj_replace].
  destruct (decide (k0 = k)) as [->|Hk]; intros H; rewrite !obj_get_cons; [by repeat case_decide; subst|]. rewrite IH by done. by repeat case_decide; subst.
Qed.
Lemma obj_get_insert k v k' (m : Fields) : obj_get k m = None -> obj_get k' (obj_insert k v m) = if decide (k' = k) then Some v else obj_get k' m.
Proof.
  induction m as [|[k0 v0] m IH]; cbn [obj_insert].
  - intros _. rewrite obj_get_cons, obj_get_nil. by repeat case_decide; subst.
  - rewrite obj_get_cons. destruct (decide (k0 = k)) as [->|Hk]; [done|]. intros H.
    destruct (String.ltb k k0); rewrite !obj_get_cons; [|rewrite IH by done]; by repeat case_decide; subst.
Qed.
Lemma obj_get_put k v k' (m : Fields) : obj_get k' (obj_put k v m) = if decide (k' = k) then Some v else obj_get k' m.
Proof. unfold obj_put. destruct (obj_get k m) eqn:E; [apply obj_get_replace; by rewrite E|by apply obj_get_insert]. Qed.
Lemma obj_get_put_eq k v (m : Fields) : obj_get k (obj_put k v m) = Some v.
Proof. by rewrite obj_get_put, decide_True. Qed.
Lemma obj_get_put_ne k v k' (m : Fields) : k' <> k -> obj_get k' (obj_put k v m) = obj_get k' m.
Proof. intros H. by rewrite obj_get_put, decide_False. Qed.
Lemma obj_put_same k v (m : Fields) : obj_get k m = Some v -> obj_put k v m = m.
Proof.
  intros H. unfold obj_put. rewrite H. induction m as [|[k0 v0] m IH]; [done|]. rewrite obj_get_cons in H. cbn [obj_replace].
  destruct (decide (k0 = k)) as [->|Hk]; [by injection H as ->|by rewrite IH].
Qed.

Lemma ensure_path_cons h h' path v (m : Fields) :
  ensure_path_value (h :: h' :: path) v m =
  match default (JObj []) (obj_get h m) with JObj child => obj_put h (JObj (ensure_path_value (h' :: path) v child)) m | _ => m end.
Proof. done. Qed.
Lemma ensure_value_get k v k' (m : Fields) : k' <> k -> obj_get k' (ensure_value k v m) = obj_get k' m.
Proof. intros H. unfold ensure_value. destruct (obj_get k m) as [x|]; [destruct (is_null x)|]; by rewrite ?obj_get_put_ne. Qed.
Lemma ensure_path_get path v k (m : Fields) : head path <> Some k -> obj_get k (ensure_path_value path v m) = obj_get k m.
Proof.
  destruct path as [|h [|h' path]]; intros H; [done|apply ensure_value_get; intros ->; by apply H|]. cbn [ensure_path_value].
  destruct (default _ _); try done. rewrite obj_get_put_ne; [done|]. intros ->. by apply H.
Qed.

(** ** Completing an event adds to it *)

(** What is said in [v] is said in [v'] at the same place; objects may have grown. *)
Definition keeps_said (v v' : Json) : Prop :=
  forall path x, pointer path v = Some x -> is_null x = false ->
    exists x', pointer path v' = Some x' /\ match x with JObj _ => exists f, x' = JObj f | _ => x' = x end.

#[global] Instance keeps_said_preorder : PreOrder keeps_said.
Proof.
  split.
  - intros v path x Hx _. exists x. split; [done|]. destruct x; eauto.
  - intros u v w Huv Hvw path x Hx Hn. destruct (Huv path x Hx Hn) as (x' & Hx' & He).
    assert (is_null x' = false) as Hn' by (destruct x; subst; try done; by destruct He as [f ->]).
    destruct (Hvw path x' Hx' Hn') as (x'' & Hx'' & He'). exists x''. split; [done|]. destruct x; subst; try done. by destruct He as [f ->].
Qed.

Lemma keeps_put k v (m : Fields) :
  (forall old, obj_get k m = Some old -> is_null old = true \/ keeps_said old v) -> keeps_said (JObj m) (JObj (obj_put k v m)).
Proof.
  intros H path x. destruct path as [|t path]; cbn [pointer].
  - intros [= <-] _. eexists. split; [done|]. by eexists.
  - cbn [value_get]. rewrite obj_get_put. case_decide as Ht; [|intros Hx Hn; destruct (obj_get t m) as [c|]; [|done]; by apply (reflexivity (R := keeps_said) c path x)].
    subst t. destruct (obj_get k m) as [old|] eqn:E; [|done]. cbn [mbind option_bind]. intros Hx Hn. destruct (H old eq_refl) as [Hnull|Hk]; [|by apply Hk].
    destruct old; try done. destruct path; [by injection Hx as <-|done].
Qed.

Lemma keeps_ensure path v (m : Fields) : keeps_said (JObj m) (JObj (ensure_path_value path v m)).
Proof.
  revert m. induction path as [|h [|h' path] IH]; intros m; [done| |].
  - cbn [ensure_path_value]. unfold ensure_value. destruct (obj_get h m) as [x|] eqn:E; [destruct (is_null x) eqn:En|].
    + apply keeps_put. intros old Ho. rewrite E in Ho. injection Ho as <-. by left.
    + done.
    + apply keeps_put. intros old Ho. by rewrite E in Ho.
  - cbn [ensure_path_value]. destruct (default _ _) as [| | | | | |child] eqn:E; try done. apply keeps_put. intros old Ho. rewrite Ho in E. cbn in E. subst old.
    right. apply IH.
Qed.
Lemma keeps_ensure_all l (m : Fields) : keeps_said (JObj m) (JObj (ensure_all l m)).
Proof. revert m. induction l as [|[p v] l IH]; intros m; [done|]. cbn [ensure_all foldl]. etrans; [apply keeps_ensure|apply IH]. Qed.
Lemma keeps_or_insert k v (m : Fields) : keeps_said (JObj m) (JObj (obj_or_insert k v m)).
Proof. unfold obj_or_insert. destruct (obj_get k m) eqn:E; [done|]. apply keeps_put. intros old Ho. by rewrite E in Ho. Qed.

(** A value found at a path stays there. *)
Lemma keeps_str v v' path s : keeps_said v v' -> pointer path v = Some (JStr s) -> pointer path v' = Some (JStr s).
Proof. intros H Hs. by destruct (H path (JStr s) Hs eq_refl) as (x' & Hx' & ->). Qed.

(** ** Completing an event again changes nothing *)

(** Nothing more can be filled in at the path. *)
Fixpoint settled_path (path : list string) (m : Fields) : Prop :=
  match path with
  | [] => True
  | h :: path' =>
      match obj_get h m with
      | None => False
      | Some x => match path' with
                  | [] => is_null x = false
                  | _ => match x with JObj child => settled_path path' child | _ => True end
                  end
      end
  end.

Lemma settled_cons h h' path (m : Fields) :
  settled_path (h :: h' :: path) m =
  match obj_get h m with None => False | Some x => match x with JObj child => settled_path (h' :: path) child | _ => True end end.
Proof. done. Qed.

Lemma settled_id path v (m : Fields) : settled_path path m -> ensure_path_value path v m = m.
Proof.
  revert m. induction path as [|h [|h' path] IH]; intros m; [done| |].
  - cbn. unfold ensure_value. destruct (obj_get h m) as [x|]; [by intros ->|done].
  - rewrite settled_cons, ensure_path_cons. destruct (obj_get h m) as [x|] eqn:E; [|done]. cbn [default from_option id]. destruct x; try done.
    intros H. rewrite IH by done. by apply obj_put_same.
Qed.

Lemma ensure_settles path v (m : Fields) : path <> [] -> is_null v = false -> settled_path path (ensure_path_value path v m).
Proof.
  revert m. induction path as [|h [|h' path] IH]; intros m Hne Hv; [done| |].
  - cbn. unfold ensure_value. destruct (obj_get h m) as [x|] eqn:E; [destruct (is_null x) eqn:En|]; by rewrite ?obj_get_put_eq, ?E.
  - rewrite settled_cons, ensure_path_cons. destruct (obj_get h m) as [x|] eqn:E; cbn [default from_option id].
    + destruct x; rewrite ?E, ?obj_get_put_eq; try done. by apply (IH fields).
    + rewrite obj_get_put_eq. by apply (IH []).
Qed.

(** No path ends where another goes on. *)
Definition strict_prefix (q p : list string) : Prop := exists h r, p = q ++ h :: r.

Lemma settled_ensure p q v (m : Fields) : ~ strict_prefix q p -> settled_path p m -> settled_path p (ensure_path_value q v m).
Proof.
  revert q m. induction p as [|h p IH]; intros q m Hpre Hs; [done|]. destruct q as [|g q]; [done|]. cbn [settled_path] in Hs.
  destruct (decide (g = h)) as [->|Hne]; [|cbn [settled_path]; by rewrite ensure_path_get by (cbn; congruence)].
  destruct (obj_get h m) as [x|] eqn:E; [|done]. destruct q as [|g' q].
  - destruct p as [|h' p]; [|by destruct Hpre; exists h', p]. cbn [ensure_path_value]. unfold ensure_value. rewrite E, Hs. cbn. by rewrite E.
  - rewrite ensure_path_cons, E. cbn [default from_option id].
    destruct x; try (destruct p; [cbn|rewrite settled_cons]; by rewrite E).
    destruct p as [|h' p]; [cbn; by rewrite obj_get_put_eq|]. rewrite settled_cons, obj_get_put_eq. apply IH; [|done]. intros (t & r & Heq). apply Hpre. exists t, r. cbn. by rewrite Heq.
Qed.
Lemma settled_or_insert p k v (m : Fields) : settled_path p m -> settled_path p (obj_or_insert k v m).
Proof.
  destruct p as [|h p]; [done|]. cbn [settled_path]. unfold obj_or_insert. destruct (obj_get k m) eqn:E; [done|]. rewrite obj_get_put.
  case_decide; [subst; by rewrite E|done].
Qed.

(** Assignments that do not get into each other's way. *)
Definition apart (l : list Assignment) : Prop :=
  (forall a, a ∈ l -> a.1 <> [] /\ is_null a.2 = false) /\ (forall a b, a ∈ l -> b ∈ l -> ~ strict_prefix b.1 a.1).

Lemma settled_ensure_all p l (m : Fields) : (forall b, b ∈ l -> ~ strict_prefix b.1 p) -> settled_path p m -> settled_path p (ensure_all l m).
Proof.
  revert m. induction l as [|a l IH]; intros m Hl Hs; [done|]. cbn [ensure_all foldl]. apply IH; [set_solver|].
  apply settled_ensure; [apply Hl; set_solver|done].
Qed.
Lemma ensure_all_settles l (m : Fields) a : apart l -> a ∈ l -> settled_path a.1 (ensure_all l m).
Proof.
  intros [H1 H2]. revert m. induction l as [|b l IH]; intros m Ha; [by apply elem_of_nil in Ha|]. cbn [ensure_all foldl].
  apply elem_of_cons in Ha as [->|Ha].
  - apply settled_ensure_all; [intros c Hc; apply H2; set_solver|]. apply ensure_settles; apply H1; set_solver.
  - apply IH; [|..|done]; intros; [apply H1|apply H2]; set_solver.
Qed.
Lemma ensure_all_id l (m : Fields) : (forall a, a ∈ l -> settled_path a.1 m) -> ensure_all l m = m.
Proof.
  induction l as [|a l IH]; intros H; [done|]. cbn [ensure_all foldl]. rewrite settled_id by (apply H; set_solver). apply IH. intros b Hb. apply H. set_solver.
Qed.

(** A place beside the one that was filled in is untouched. *)
Lemma pointer_ensure q p v (m : Fields) :
  ~ q `prefix_of` p -> ~ p `prefix_of` q -> pointer q (JObj (ensure_path_value p v m)) = pointer q (JObj m).
Proof.
  revert p m. induction q as [|h q IH]; intros p m Hqp Hpq; [by destruct Hqp; apply prefix_nil|].
  destruct p as [|g p]; [by destruct Hpq; apply prefix_nil|]. cbn [pointer value_get].
  destruct (decide (g = h)) as [->|Hne]; [|by rewrite ensure_path_get by (cbn; congruence)].
  destruct p as [|g' p]; [destruct Hpq; apply prefix_cons, prefix_nil|]. rewrite ensure_path_cons.
  assert (~ q `prefix_of` g' :: p /\ ~ g' :: p `prefix_of` q) as [H1 H2] by (split; intros H; [apply Hqp|apply Hpq]; by apply prefix_cons).
  destruct (obj_get h m) as [x|] eqn:E; cbn [default from_option id].
  - destruct x; try (cbn; by rewrite E). rewrite obj_get_put_eq. cbn [mbind option_bind]. by apply IH.
  - rewrite obj_get_put_eq. cbn [mbind option_bind]. rewrite IH by done. destruct q as [|h' q]; [by destruct H1; apply prefix_nil|done].
Qed.

(** The places a log line can fill in. *)
Definition SQUID_PATHS : list (list string) :=
  [["source"; "ip"]; ["od"; "forwarded_raw"]; ["od"; "forwarded_for_raw"]; ["client"; "ip"]; ["od"; "client_ip_source"];
   ["proxy"; "result_code"]; ["http"; "response"; "status_code"]; ["recommended_action_inferred"]; ["traffic_class"];
   ["network"; "bytes"]; ["http"; "request"; "method"]; ["destination"; "domain"]; ["url"; "full"]; ["normalized_key"]].
#[global] Instance strict_prefix_dec q p : Decision (strict_prefix q p).
Proof.
  refine (cast_if (decide (q `prefix_of` p /\ q <> p))).
  - destruct a as [[r ->] Hne]. destruct r as [|h r]; [by rewrite app_nil_r in Hne|]. by exists h, r.
  - intros (h & r & ->). apply n. split; [by eexists|]. intros H. apply (f_equal length) in H. rewrite length_app in H. cbn in H. lia.
Defined.
Lemma squid_paths_apart : Forall (fun p => p <> [] /\ Forall (fun q => ~ strict_prefix q p) SQUID_PATHS) SQUID_PATHS.
Proof. apply (bool_decide_unpack _). vm_compute. exact I. Qed.

Section Normalised.
  Context `{U : Unicode} `{E : Externals} `{X : Texts}.
  Context (day_of : Z -> string) (trust : bool) (cidrs : list TrustedCidr) (prefix : string).
  Abbreviation normalize := (normalize_event day_of trust cidrs prefix).
  Abbreviation squid := (squid_fields trust cidrs).

(** A field for one of the places, with a value. *)
Definition squid_field (a : Assignment) : Prop := a.1 ∈ SQUID_PATHS /\ is_null a.2 = false /\ exact a.2 = true.
Ltac squid_field := split; [cbn [fst]; by repeat (left || right)|by split].

Lemma source_fields_ok message ip : Forall squid_field (source_fields trust cidrs message ip).
Proof.
  unfold source_fields. constructor; [squid_field|]. destruct (parse_ip ip) as [peer|]; [|constructor; [squid_field|constructor]].
  destruct (extract_forwarding_headers_from_log_line message) as [fwd xff]. destruct (client_address _ _ _ _ _) as [c src].
  repeat apply Forall_app_2.
  - destruct fwd; [|constructor]. constructor; [squid_field|constructor].
  - destruct xff as [x|]; [|constructor]. destruct (is_empty x); [constructor|]. constructor; [squid_field|constructor].
  - constructor; [squid_field|]. constructor; [squid_field|constructor].
Qed.
Lemma status_fields_ok token : Forall squid_field (status_fields token).
Proof.
  unfold status_fields. destruct (split_once "/" token) as [[rc sc]|]; [|constructor]. constructor; [squid_field|].
  destruct (parse_i64 sc); repeat constructor; squid_field.
Qed.
Lemma target_fields_ok method target : Forall squid_field (target_fields method target).
Proof.
  unfold target_fields. destruct (parse_target_domain_url target method) as [[d u]|]; [|constructor].
  apply Forall_app_2; [repeat constructor; squid_field|]. destruct (normalize_target _ _ _); repeat constructor; squid_field.
Qed.
Lemma squid_fields_ok message : Forall squid_field (squid message).
Proof.
  unfold squid_fields, opt_fields. repeat apply Forall_app_2.
  - destruct (_ !! 2%nat); [apply source_fields_ok|constructor].
  - destruct (_ !! 3%nat); [apply status_fields_ok|constructor].
  - destruct (_ ≫= parse_i64); [case_decide|]; repeat constructor; squid_field.
  - destruct (_ !! 5%nat); repeat constructor; squid_field.
  - destruct (_ !! 6%nat); [apply target_fields_ok|constructor].
Qed.
Lemma squid_fields_apart message : apart (squid message).
Proof.
  pose proof (proj1 (Forall_forall _ _) (squid_fields_ok message)) as H. pose proof (proj1 (Forall_forall _ _) squid_paths_apart) as Hp. split.
  - intros a Ha. destruct (H a Ha) as (H1 & H2 & _). split; [by apply Hp|done].
  - intros a b Ha Hb. destruct (H a Ha) as [H1 _], (H b Hb) as [H2 _]. destruct (Hp _ H1) as [_ Hq]. by apply (proj1 (Forall_forall _ _) Hq).
Qed.

Definition line_of (m : Fields) : string := trim (default "" (obj_get "message" m ≫= as_str)).
Lemma enrich_line (m : Fields) : enrich_squid_event trust cidrs m = if is_empty (line_of m) then m else ensure_all (squid (line_of m)) m.
Proof. done. Qed.
Lemma keeps_enrich (m : Fields) : keeps_said (JObj m) (JObj (enrich_squid_event trust cidrs m)).
Proof. rewrite enrich_line. destruct (is_empty _); [done|apply keeps_ensure_all]. Qed.

Lemma keeps_normalize now e : keeps_said e (normalize now e).2.
Proof.
  unfold normalize_event. cbn [snd]. destruct e as [| | | | | |m]; try done. etrans; [apply keeps_enrich|]. etrans; [apply keeps_or_insert|].
  destruct (pointer _ _ ≫= _); [apply keeps_or_insert|done].
Qed.

(** The places that are filled in have other names than the message, the time and the trace. *)
Lemma ensure_all_get k l (m : Fields) : (forall a, a ∈ l -> head a.1 <> Some k) -> obj_get k (ensure_all l m) = obj_get k m.
Proof.
  revert m. induction l as [|a l IH]; intros m H; [done|]. change (ensure_all (a :: l) m) with (ensure_all l (ensure_path_value a.1 a.2 m)).
  rewrite IH by set_solver. apply ensure_path_get, H. left.
Qed.
Lemma squid_other k message (m : Fields) : Forall (fun p => head p <> Some k) SQUID_PATHS -> obj_get k (ensure_all (squid message) m) = obj_get k m.
Proof.
  intros H. apply ensure_all_get. intros a Ha. apply (proj1 (Forall_forall _ _) H). by apply (proj1 (Forall_forall _ _) (squid_fields_ok message)).
Qed.
Lemma enrich_other k (m : Fields) : Forall (fun p => head p <> Some k) SQUID_PATHS -> obj_get k (enrich_squid_event trust cidrs m) = obj_get k m.
Proof. intros H. rewrite enrich_line. destruct (is_empty _); [done|by apply squid_other]. Qed.
Lemma pointer_ensure_all q l (m : Fields) :
  (forall a, a ∈ l -> ~ q `prefix_of` a.1 /\ ~ a.1 `prefix_of` q) -> pointer q (JObj (ensure_all l m)) = pointer q (JObj m).
Proof.
  revert m. induction l as [|a l IH]; intros m H; [done|]. change (ensure_all (a :: l) m) with (ensure_all l (ensure_path_value a.1 a.2 m)).
  rewrite IH by set_solver. apply pointer_ensure; apply H; left.
Qed.
Lemma trace_enriched (m : Fields) : pointer ["od"; "trace_id"] (JObj (enrich_squid_event trust cidrs m)) = pointer ["od"; "trace_id"] (JObj m).
Proof.
  rewrite enrich_line. destruct (is_empty _); [done|]. apply pointer_ensure_all. intros a Ha.
  destruct (proj1 (Forall_forall _ _) (squid_fields_ok (line_of m)) a Ha) as [Hp _].
  assert (Forall (fun p => ~ ["od"; "trace_id"] `prefix_of` p /\ ~ p `prefix_of` ["od"; "trace_id"]) SQUID_PATHS) as Hall
    by (apply (bool_decide_unpack _); vm_compute; exact I).
  by apply (proj1 (Forall_forall _ _) Hall).
Qed.

Lemma or_insert_get k v k' (m : Fields) : k' <> k -> obj_get k' (obj_or_insert k v m) = obj_get k' m.
Proof. intros H. unfold obj_or_insert. destruct (obj_get k m); [done|]. by apply obj_get_put_ne. Qed.
Lemma or_insert_has k v (m : Fields) : obj_get k (obj_or_insert k v m) <> None.
Proof. unfold obj_or_insert. destruct (obj_get k m) eqn:Eg; [by rewrite Eg|]. by rewrite obj_get_put_eq. Qed.
Lemma or_insert_id k v (m : Fields) : obj_get k m <> None -> obj_or_insert k v m = m.
Proof. unfold obj_or_insert. by destruct (obj_get k m). Qed.

(** The fields of a completed event. *)
Definition stamped (now : Z) (trace : option string) (m : Fields) : Fields :=
  let m := obj_or_insert "ingested_at" (time_to_json now) (enrich_squid_event trust cidrs m) in
  match trace with Some t => obj_or_insert "trace_id" (JStr t) m | None => m end.
Lemma normalize_fields now (m : Fields) :
  (normalize now (JObj m)).2 = JObj (stamped now (pointer ["od"; "trace_id"] (JObj m) ≫= as_str) m).
Proof. done. Qed.
Lemma stamped_get k now trace (m : Fields) :
  k <> "ingested_at" -> k <> "trace_id" -> obj_get k (stamped now trace m) = obj_get k (enrich_squid_event trust cidrs m).
Proof. intros H1 H2. unfold stamped. destruct trace; by rewrite !or_insert_get. Qed.
Lemma stamped_other k now trace (m : Fields) :
  k <> "ingested_at" -> k <> "trace_id" -> Forall (fun p => head p <> Some k) SQUID_PATHS -> obj_get k (stamped now trace m) = obj_get k m.
Proof. intros H1 H2 H3. rewrite stamped_get by done. by apply enrich_other. Qed.
Lemma stamped_trace now trace (m : Fields) : pointer ["od"; "trace_id"] (JObj (stamped now trace m)) = pointer ["od"; "trace_id"] (JObj m).
Proof. rewrite <- (trace_enriched m). cbn [pointer value_get]. by rewrite stamped_get. Qed.

Lemma stamped_again now later trace (m : Fields) : stamped later trace (stamped now trace m) = stamped now trace m.
Proof.
  unfold stamped at 1.
  assert (enrich_squid_event trust cidrs (stamped now trace m) = stamped now trace m) as ->.
  { rewrite enrich_line. assert (line_of (stamped now trace m) = line_of m) as Hl.
    { unfold line_of. rewrite stamped_other; [done..|]. apply (bool_decide_unpack _). vm_compute. exact I. }
    rewrite Hl. destruct (is_empty (line_of m)) eqn:Ee; [done|]. apply ensure_all_id. intros a Ha. unfold stamped. rewrite enrich_line, Ee.
    destruct trace; repeat apply settled_or_insert; by apply ensure_all_settles; [apply squid_fields_apart|]. }
  rewrite or_insert_id.
  2: { unfold stamped. destruct trace; rewrite ?(or_insert_get "trace_id") by done; apply or_insert_has. }
  destruct trace as [t|]; [|done]. apply or_insert_id. unfold stamped. apply or_insert_has.
Qed.

(** Completing an event keeps it and can be repeated.  Every value of an event, null values apart,
    stands unchanged at its place in the document that is indexed (objects may have more fields); and
    an event that is ingested again, whenever that is, gives the same document, in the same index if
    it carries its time. *)
Theorem normalization_stable now e :
  keeps_said e (normalize now e).2 /\
  forall later, (normalize later (normalize now e).2).2 = (normalize now e).2 /\
    ((value_get "@timestamp" e ≫= as_str) ≫= from_rfc3339 <> None -> (normalize later (normalize now e).2).1 = (normalize now e).1).
Proof.
  split; [apply keeps_normalize|]. intros later. destruct e as [| | | | | |m]; try done. rewrite normalize_fields. split.
  - rewrite normalize_fields, stamped_trace. f_equal. apply stamped_again.
  - intros Ht. unfold normalize_event. cbn [fst value_get] in *. rewrite stamped_other; [|done..|apply (bool_decide_unpack _); vm_compute; exact I].
    destruct ((_ ≫= as_str) ≫= from_rfc3339); [done|by destruct Ht].
Qed.

(** ** The address of the client *)

Lemma first_some_Some {A B} (f : A -> option B) l b : first_some f l = Some b -> exists a, a ∈ l /\ f a = Some b.
Proof.
  unfold first_some. induction l as [|a l IH]; [done|]. cbn. destruct (f a) as [b'|] eqn:Ef; [intros [= <-]; exists a; split; [left|done]|].
  intros (a' & Ha & Hf)%IH. exists a'. split; [by right|done].
Qed.
Lemma ip_token_range raw ip : parse_ip_token raw = Some ip -> in_range ip.
Proof.
  unfold parse_ip_token. set (token := trim _). set (with_port := _ ≫= _).
  assert (forall ip, with_port = Some ip -> in_range ip) as Hp.
  { intros ip'. unfold with_port. intros ([host port] & _ & H)%bind_Some. destruct (str_forall _ _); [|done]. by eapply parse_ip_range. }
  destruct (_ || _); [done|]. destruct (parse_ip token) as [ip0|] eqn:E0; [intros [= <-]; by eapply parse_ip_range|].
  destruct (strip_prefix "[" token) as [rest|]; [|apply Hp]. destruct (before_char "]" rest) as [part|]; [|done].
  destruct (parse_ip part) as [ip1|] eqn:E1; [intros [= <-]; by eapply parse_ip_range|apply Hp].
Qed.

Lemma client_address_cases peer fwd xff c src :
  client_address trust cidrs peer fwd xff = (c, src) -> in_range peer ->
  in_range c /\ (c = peer \/ (trust = true /\ is_trusted_proxy peer cidrs = true)).
Proof.
  unfold client_address. destruct trust, (is_trusted_proxy peer cidrs); cbn [andb]; intros H Hr; try (injection H as <- <-; tauto).
  destruct (fwd ≫= first_valid_forwarded_header_ip) as [ip|] eqn:Ef.
  { injection H as <- <-. apply bind_Some in Ef as (h & _ & (el & _ & (pair & _ & Hp)%first_some_Some)%first_some_Some). split; [|by right].
    unfold forwarded_pair in Hp. apply bind_Some in Hp as ([k v] & _ & Hp). destruct (eq_ignore_ascii_case _ _); [|done]. by eapply ip_token_range. }
  destruct (xff ≫= first_valid_x_forwarded_for_ip) as [ip|] eqn:Ex; [|injection H as <- <-; tauto].
  injection H as <- <-. apply bind_Some in Ex as (h & _ & (tok & _ & Ht)%first_some_Some). split; [by eapply ip_token_range|by right].
Qed.

Lemma ensure_all_app l1 l2 (m : Fields) : ensure_all (l1 ++ l2) m = ensure_all l2 (ensure_all l1 m).
Proof. apply foldl_app. Qed.
Lemma said_first k f s pre post (m : Fields) :
  (forall a, a ∈ pre -> head a.1 <> Some k) -> obj_get k m = None ->
  pointer [k; f] (JObj (ensure_all (pre ++ ([k; f], JStr s) :: post) m)) = Some (JStr s).
Proof.
  intros Hpre Hk. rewrite ensure_all_app. set (m1 := ensure_all pre m). assert (obj_get k m1 = None) as H1 by (unfold m1; by rewrite ensure_all_get).
  change (ensure_all (([k; f], JStr s) :: post) m1) with (ensure_all post (ensure_path_value [k; f] (JStr s) m1)).
  eapply keeps_str; [apply keeps_ensure_all|]. rewrite ensure_path_cons, H1. cbn [default from_option pointer value_get]. rewrite obj_get_put_eq.
  cbn [mbind option_bind pointer value_get ensure_path_value]. unfold ensure_value. rewrite obj_get_nil, obj_get_put_eq. done.
Qed.

Lemma squid_client line ip peer :
  split_whitespace line !! 2%nat = Some ip -> parse_ip ip = Some peer ->
  exists pre post fwd xff, squid line = pre ++ (["client"; "ip"], JStr (ip_to_string (client_address trust cidrs peer fwd xff).1)) :: post /\
    forall a, a ∈ pre -> head a.1 <> Some "client".
Proof.
  intros Hip Hp. unfold squid_fields. rewrite Hip. cbn [opt_fields]. unfold source_fields. rewrite Hp.
  destruct (extract_forwarding_headers_from_log_line line) as [fwd xff]. destruct (client_address trust cidrs peer fwd xff) as [c src] eqn:Ec.
  exists ((["source"; "ip"], JStr ip) ::
    match fwd with Some forwarded => [(["od"; "forwarded_raw"], JStr forwarded)] | None => [] end ++
    match xff with Some x => if is_empty x then [] else [(["od"; "forwarded_for_raw"], JStr x)] | None => [] end).
  eexists. exists fwd, xff. rewrite Ec. split.
  - cbn [app fst]. rewrite <- !app_assoc. cbn [app]. reflexivity.
  - intros a [->|Ha]%elem_of_cons; [done|]. apply elem_of_app in Ha as [Ha|Ha].
    + destruct fwd; [|by apply elem_of_nil in Ha]. by apply list_elem_of_singleton in Ha as ->.
    + destruct xff as [x|]; [|by apply elem_of_nil in Ha]. destruct (is_empty x); [by apply elem_of_nil in Ha|]. by apply list_elem_of_singleton in Ha as ->.
Qed.

(** C31: The address of the client is not taken from strangers.  An event with a log line whose peer is
    an address, and without a client of its own, is indexed with a client address that reads back; it
    is that of the peer, whatever headers the line quotes, unless proxies are trusted and the peer is
    in one of the configured networks: of the same kind, with the same first bits. *)
Theorem client_address_trusted raws now (m : Fields) line ip peer :
  try_map parse_cidr raws = Ok cidrs -> obj_get "message" m = Some (JStr line) -> split_whitespace (trim line) !! 2%nat = Some ip ->
  parse_ip ip = Some peer -> obj_get "client" m = None ->
  exists c, pointer ["client"; "ip"] (normalize now (JObj m)).2 = Some (JStr (ip_to_string c)) /\
    parse_ip (ip_to_string c) = Some c /\
    (c = peer \/ (trust = true /\ exists cidr, cidr ∈ cidrs /\ same_network peer (ci_network cidr) (ci_prefix_len cidr))).
Proof.
  intros Hcidrs Hm Hip Hpeer Hc. pose proof (parse_ip_range _ _ Hpeer) as Hr.
  destruct (squid_client _ _ _ Hip Hpeer) as (pre & post & fwd & xff & Hsq & Hpre).
  destruct (client_address trust cidrs peer fwd xff) as [c src] eqn:Ec. destruct (client_address_cases _ _ _ _ _ Ec Hr) as [Hcr Hcase]. cbn [fst] in Hsq.
  exists c. split_and!; [|by apply ip_text_round_trip|].
  - rewrite normalize_fields. unfold stamped. rewrite enrich_line. assert (line_of m = trim line) as -> by (unfold line_of; by rewrite Hm).
    assert (is_empty (trim line) = false) as -> by (destruct (trim line); [by vm_compute in Hip|done]).
    assert (pointer ["client"; "ip"] (JObj (ensure_all (squid (trim line)) m)) = Some (JStr (ip_to_string c))) as Hs by (rewrite Hsq; by apply said_first).
    destruct (_ ≫= as_str); repeat (eapply keeps_str; [apply keeps_or_insert|]); exact Hs.
  - destruct Hcase as [->|[Ht Hp]]; [by left|right]. split; [done|]. unfold is_trusted_proxy in Hp. apply any_true in Hp as (cidr & Hin & Hp). exists cidr. split; [done|].
    assert (exists raw, parse_cidr raw = Ok cidr) as [raw Hraw].
    { apply try_map_Ok in Hcidrs. destruct (proj1 (list_elem_of_lookup _ _) Hin) as [i Hi]. destruct (Forall2_lookup_r _ _ _ _ _ Hcidrs Hi) as (raw & _ & Hraw). by exists raw. }
    destruct (parse_cidr_range _ _ Hraw) as [Hn Hl]. by apply ip_in_cidr_spec.
Qed.

End Normalised.

(** ** The bulk body *)

(** [serde_json::to_string] writes one line. *)
Class JsonLines (T : JsonText) := { json_print_line v : clean LF (json_print v) }.

Lemma split_char_line c a rest : clean c a -> split_char c (a +:+ String c rest) = a :: split_char c rest.
Proof.
  induction a as [|x a IH]; cbn; [by unfold is_char; rewrite bool_decide_eq_true_2|]. intros [Hx Ha]%andb_true_iff.
  destruct (is_char c x); [done|]. unfold split_char in *. by rewrite IH.
Qed.

Lemma exact_get k (m : Fields) x : exact (JObj m) = true -> obj_get k m = Some x -> exact x = true.
Proof.
  cbn [exact]. induction m as [|[k0 v0] m IH]; [done|]. cbn [forallb snd]. rewrite andb_true_iff, obj_get_cons. intros [Hv Hm].
  case_decide; [by intros [= <-]|by apply IH].
Qed.
Lemma exact_put k v (m : Fields) : exact v = true -> exact (JObj m) = true -> exact (JObj (obj_put k v m)) = true.
Proof.
  intros Hv. unfold obj_put. cbn [exact]. destruct (obj_get k m) as [x|]; clear x || idtac;
    (induction m as [|[k0 v0] m IH]; cbn [obj_replace obj_insert forallb snd]; [by rewrite ?Hv|]; rewrite andb_true_iff; intros [H0 Hm]).
  - case_decide; cbn [forallb snd]; rewrite andb_true_iff; split; auto.
  - destruct (String.ltb k k0); cbn [forallb snd]; rewrite ?Hv, ?H0, ?Hm; [done|by rewrite IH].
Qed.
Lemma exact_ensure path v (m : Fields) : exact v = true -> exact (JObj m) = true -> exact (JObj (ensure_path_value path v m)) = true.
Proof.
  intros Hv. revert m. induction path as [|h [|h' path] IH]; intros m Hm; [done| |].
  - cbn [ensure_path_value]. unfold ensure_value. destruct (obj_get h m) as [x|]; [destruct (is_null x)|]; try done; by apply exact_put.
  - rewrite ensure_path_cons. destruct (obj_get h m) as [x|] eqn:Eg; cbn [default from_option id].
    + destruct x as [| | | | | |child]; try done. apply exact_put; [|done]. apply IH. by eapply exact_get.
    + apply exact_put; [|done]. by apply IH.
Qed.

(** How Elasticsearch reads the body: a line that names the index, then the line of the document. *)
Fixpoint read_pairs `{JsonText} (l : list string) : option (list (string * Json)) :=
  match l with
  | [""] => Some []
  | action :: source :: rest =>
      a ← result_ok (json_parse action);
      index ← (pointer ["index"; "_index"] a ≫= as_str);
      document ← result_ok (json_parse source);
      pairs ← read_pairs rest;
      Some ((index, document) :: pairs)
  | _ => None
  end.
Definition read_bulk `{JsonText} (body : string) : option (list (string * Json)) := read_pairs (split_char LF body).

Section Bulk.
  Context `{U : Unicode} `{E : Externals} `{X : Texts} {T : JsonText} `{L : !JsonLines T}.
  Context (day_of : Z -> string) (writer : ElasticWriter) (prefix : string) (now : Z).
  Abbreviation normalized := (normalize_event day_of (ew_trust_proxy_headers writer) (ew_trusted_proxy_cidrs writer) prefix now).

Lemma exact_normalized e : exact e = true -> exact (normalized e).2 = true.
Proof.
  intros He. destruct e as [| | | | | |m]; try done. rewrite normalize_fields. unfold stamped.
  assert (forall k v f, exact v = true -> exact (JObj f) = true -> exact (JObj (obj_or_insert k v f)) = true) as Ho.
  { intros k v f Hv Hf. unfold obj_or_insert. destruct (obj_get k f); [done|]. by apply exact_put. }
  assert (exact (JObj (enrich_squid_event (ew_trust_proxy_headers writer) (ew_trusted_proxy_cidrs writer) m)) = true) as Hs.
  { rewrite enrich_line. destruct (is_empty _); [done|].
    pose proof (squid_fields_ok (ew_trust_proxy_headers writer) (ew_trusted_proxy_cidrs writer) (line_of m)) as Hf.
    revert Hf. generalize (squid_fields (ew_trust_proxy_headers writer) (ew_trusted_proxy_cidrs writer) (line_of m)) as l. intros l Hf.
    clear Ho. revert m He. induction Hf as [|a l (_ & _ & Ha) _ IH]; intros m He; [done|].
    change (ensure_all (a :: l) m) with (ensure_all l (ensure_path_value a.1 a.2 m)). apply IH. by apply exact_ensure. }
  destruct (_ ≫= as_str); repeat apply Ho; done.
Qed.

Lemma bulk_body_app events body : bulk_body day_of writer prefix now events body = body +:+ bulk_body day_of writer prefix now events "".
Proof.
  revert body. induction events as [|e events IH]; intros body; cbn [bulk_body]; [by rewrite str_app_nil_r|].
  rewrite IH, (IH ("" +:+ _)). by rewrite str_app_assoc.
Qed.

(** Elasticsearch receives the events.  The body of the bulk request is read back as the indices
    and the completed documents of the events, all of them and in their order. *)
Theorem bulk_body_read_back events :
  Forall (fun e => exact e = true) events ->
  read_bulk (bulk_body day_of writer prefix now events "") = Some (normalized <$> events).
Proof.
  unfold read_bulk. induction 1 as [|e events He _ IH]; [done|]. cbn [bulk_body]. rewrite bulk_body_app. unfold bulk_lines.
  pose proof (exact_normalized e He) as Hx. rewrite fmap_cons. destruct (normalized e) as [index doc]. cbn [snd] in Hx.
  change ("" +:+ ?s) with s. rewrite !str_app_assoc. unfold NEWLINE. cbn [String.append].
  change (String LF "" +:+ ?s) with (String LF s). rewrite !split_char_line by apply json_print_line. cbn [read_pairs].
  rewrite !json_parse_print by done. cbn [result_ok mbind option_bind pointer value_get]. rewrite !obj_get_cons, !decide_True by done.
  cbn [mbind option_bind pointer value_get]. rewrite obj_get_cons, decide_True by done. cbn [mbind option_bind pointer as_str]. rewrite IH. by destruct (json_print _).
Qed.
End Bulk.

(** ** Retries *)

(** The answer to the [i]-th request from now on. *)
Definition reply_at (w : IngestWorld) (i : nat) : Reply := default (SendFailed "connection refused") (io_tables w !! i).
Definition retried (r : Reply) : Prop := match r with Answered status _ => is_success status = false | SendFailed _ => True end.
Definition accepted (r : Reply) : Prop :=
  match r with Answered status text => is_success status = true /\ reports_errors text = false | SendFailed _ => False end.

Lemma reply_next w url body i : reply_at (told (BulkRequest url body) (with_tables (tail (io_tables w)) w)) i = reply_at w (S i).
Proof. unfold reply_at. cbn. by destruct (io_tables w). Qed.
Lemma reply_head w : default (SendFailed "connection refused") (head (io_tables w)) = reply_at w 0.
Proof. unfold reply_at. by destruct (io_tables w). Qed.

Lemma bulk_loop_runs left attempt url body w :
  exists k, (k <= left)%nat /\ (forall i, (i < k)%nat -> retried (reply_at w i)) /\ (retried (reply_at w k) -> k = left) /\
    io_trace (bulk_loop left attempt url body w).2 = io_trace w ++ replicate (S k) (BulkRequest url body) /\
    ((bulk_loop left attempt url body w).1 = Ok tt <-> accepted (reply_at w k)).
Proof.
  revert attempt w. induction left as [|left IH]; intros attempt w; cbn [bulk_loop]; unfold mbind, io_bind, post; rewrite reply_head;
    set (w1 := told _ _).
  - exists 0%nat. destruct (reply_at w 0) as [status text|err]; cbn; [|by split_and!; [lia|lia|done|done|split; [|intros []]]].
    destruct (is_success status); [|by split_and!; [lia|lia|done|done|split; [|intros []]]].
    by destruct (reports_errors text); split_and!; [lia|lia|done|done|split; [|intros []]|lia|lia|done|done|split].
  - assert (forall e : BulkError, retried (reply_at w 0) -> exists k, (k <= S left)%nat /\ (forall i, (i < k)%nat -> retried (reply_at w i)) /\ (retried (reply_at w k) -> k = S left) /\
      io_trace (bulk_loop left (S attempt) url body w1).2 = io_trace w ++ replicate (S k) (BulkRequest url body) /\
      ((bulk_loop left (S attempt) url body w1).1 = Ok tt <-> accepted (reply_at w k))) as Hrec.
    { intros _ H0. destruct (IH (S attempt) w1) as (k & Hk & Hi & Hl & Ht & Ha). unfold w1 in Hi, Hl, Ha. setoid_rewrite reply_next in Hi. rewrite reply_next in Hl, Ha.
      exists (S k). split_and!; [lia| |intros H; by rewrite Hl|rewrite Ht; cbn; by rewrite <- app_assoc|done].
      intros [|i] Hlt; [done|]. apply Hi. lia. }
    destruct (reply_at w 0) as [status text|err] eqn:E0; [|by apply (Hrec (BulkUnsent err))].
    destruct (is_success status) eqn:Es; [|apply (Hrec (BulkReported text)); cbn; by rewrite Es].
    exists 0%nat. rewrite E0. cbn. rewrite Es. split_and!; [lia|lia|done|by destruct (reports_errors text)|].
    destruct (reports_errors text); cbn; [split; [done|by intros []]|by split].
Qed.

Section Requests.
  Context `{U : Unicode} `{E : Externals} `{X : Texts} {T : JsonText}.
  Context (day_of : Z -> string) (writer : ElasticWriter) (prefix : string).

(** Bulk requests are retried as configured.  Indexing events sends the same body at least once
    and at most as often as configured; it goes on exactly while a request cannot be sent or is
    answered with a failure, stops at the first other answer, and succeeds exactly when that one
    reports no errors. *)
Theorem bulk_index_retries base_url attempts trust raws events w :
  new_writer base_url attempts trust raws = Ok writer -> events <> [] ->
  let body := bulk_body day_of writer prefix (io_now w) events "" in
  exists k, (Z.of_nat k < Z.max attempts 1) /\ (forall i, (i < k)%nat -> retried (reply_at w i)) /\
    (retried (reply_at w k) -> Z.of_nat (S k) = Z.max attempts 1) /\
    io_trace (bulk_index day_of writer prefix events w).2 = io_trace w ++ replicate (S k) (BulkRequest (ew_base_url writer +:+ "/_bulk") body) /\
    ((bulk_index day_of writer prefix events w).1 = Ok tt <-> accepted (reply_at w k)).
Proof.
  intros Hw Hne body. assert (ew_retry_attempts writer = Z.to_nat (Z.max attempts 1)) as Ha.
  { revert Hw. unfold new_writer. by intros (c & _ & [= <-])%bind_Ok. }
  destruct events as [|e events]; [done|]. change (bulk_index day_of writer prefix (e :: events) w) with
    (bulk_loop (ew_retry_attempts writer - 1) 1 (ew_base_url writer +:+ "/_bulk") body w).
  destruct (bulk_loop_runs (ew_retry_attempts writer - 1) 1 (ew_base_url writer +:+ "/_bulk") body w) as (k & Hk & Hi & Hl & Ht & Hok).
  exists k. split_and!; [lia|done|intros H; specialize (Hl H); lia|done|done].
Qed.

(** ** Jobs for the page fetcher *)

Lemma fetch_job_round_trip j :
  pfj_candidate_urls j = [] -> (forall t, pfj_ttl_seconds j = Some t -> i32_min <= t <= i32_max) ->
  fetch_job_from_json (page_fetch_to_json j) = Ok j /\ exact (page_fetch_to_json j) = true.
Proof.
  intros Hc Ht. split.
  2: { unfold page_fetch_to_json. rewrite decide_True by done. by destruct j as [? ? ? ? [] [] []]. }
  unfold fetch_job_from_json, page_fetch_to_json. rewrite decide_True by done. cbn [app struct_fields mbind result_bind].
  assert (forall o : option string, forall s, o = Some s -> de_string (JStr s) = Ok s /\ JStr s <> JNull) as Hs by done.
  do 3 (erewrite required_Ok; [|find_field|reflexivity]; cbn [mbind result_bind]).
  unfold defaulted at 1. rewrite lookup_field_absent by solve_absent. cbn [mbind result_bind].
  do 2 (erewrite (optional_Ok _ JStr); [|find_field|apply Hs]; cbn [mbind result_bind]).
  erewrite (optional_Ok _ JInt); [|find_field|].
  2: { intros v Ev. unfold de_int. rewrite decide_True by by apply Ht. done. }
  cbn [mbind result_bind]. rewrite <- Hc. by destruct j.
Qed.
Context `{P : UrlPrinter} (Url_query : string -> option string).
Abbreviation build := (build_page_fetch_job Url_query).

Lemma built_job event j : build event = Some j ->
  pfj_candidate_urls j = [] /\ (forall t, pfj_ttl_seconds j = Some t -> is_i32 t) /\
  exists host path scheme t, normalize_target host path scheme = Ok t /\ pfj_normalized_key j = nt_normalized_key t /\ pfj_hostname j = nt_hostname t.
Proof.
  unfold build_page_fetch_job. intros (raw & _ & (parsed & _ & (host & _ & (normalized & Hn & [= <-])%bind_Some)%bind_Some)%bind_Some)%bind_Some.
  split_and!; [done| |].
  - cbn. intros t (z & _ & ->)%fmap_Some. apply as_i32_range.
  - destruct (normalize_target host _ (Some (u_scheme parsed))) as [t|] eqn:Et; [|done]. injection Hn as ->. by eexists _, _, _, _.
Qed.

(** The jobs that are queued for the events. *)
Definition queued_jobs (publisher : PageFetchPublisher) (docs : list Json) : list PageFetchJob := with_ttl publisher <$> omap build docs.
Definition fetch_text (j : PageFetchJob) : string := json_print (page_fetch_to_json j).

Lemma with_ttl_ok stream ttl j :
  ttl <= i32_max -> (forall t, pfj_ttl_seconds j = Some t -> is_i32 t) -> exists t, pfj_ttl_seconds (with_ttl (new_publisher stream ttl) j) = Some t /\ 0 < t <= i32_max.
Proof.
  intros Ht Hj. unfold with_ttl. case_decide as Hd; cbn.
  - eexists. split; [done|]. unfold i32_max in *. lia.
  - destruct (pfj_ttl_seconds j) as [t|] eqn:Et; cbn in Hd; [|lia]. exists t. split; [done|]. destruct (Hj t eq_refl). lia.
Qed.

Lemma publish_all_calm {F} publisher docs w : calm w ->
  exists w', publish_all Url_query publisher docs w = (Ok tt : result F unit, w') /\ calm w' /\
    io_trace w' = io_trace w ++ ((fun j => QueueFetch (pp_stream publisher) (fetch_text j)) <$> queued_jobs publisher docs).
Proof.
  unfold queued_jobs. revert w. induction docs as [|d docs IH]; intros w Hc; [exists w; cbn; by rewrite app_nil_r|].
  cbn [publish_all]. unfold mbind, io_bind, maybe_publish_page_fetch. cbn [omap list_omap]. destruct (build d) as [j|] eqn:Ej.
  - unfold dropped, publish. rewrite command_calm by done. cbn [snd]. set (w1 := told _ _).
    destruct (IH w1) as (w' & Hr & Hc' & Ht); [by apply calm_elapse|]. exists w'. split_and!; [done|done|]. rewrite Ht. unfold w1. cbn. by rewrite <- app_assoc.
  - by apply IH.
Qed.


End Requests.
