(* ===== verification/IngestDemo.v ===== *)
(** * Witnesses and examples of the event ingester

    The theorems of [IngestProps.v] at concrete events, the cases of the unit tests of
    [elastic.rs], and three runs that differ from what the service is meant to do. *)

From S2P Require Import Prelude RustStr RustNum IpAddr Types Http Json Normalizer LlmWorker PageFetch Db Io Wp Texts Ingest IngestProps.

Local Open Scope Z_scope.

Module IngestDemo.

#[local] Existing Instance Demo.libs.
#[local] Existing Instance Demo.unicode.
#[local] Existing Instance TextsDemo.texts.
#[local] Existing Instance JsonDemo.text.
#[local] Instance printer : UrlPrinter := {| Url_print s := s; Url_print_root s := s |}.

Lemma bits_clean p : clean LF (JsonDemo.bits p).
Proof. induction p as [p IH|p IH|]; [exact IH|exact IH|done]. Qed.
Instance json_lines : JsonLines JsonDemo.text := {| json_print_line v := bits_clean _ |}.

Definition day (_ : Z) : string := "2026.04.04".
Definition trusted_raws : list string := ["192.168.1.0/24"].
Definition trusted : list TrustedCidr := default [] (result_ok (try_map parse_cidr trusted_raws)).
Definition normalized (trust : bool) (e : Json) : Json := (normalize_event day trust trusted "traffic-events" 1000 e).2.

Definition connect_line : string :=
  "1775318877.918      7 172.66.0.227 NONE_NONE/403 1058 CONNECT dice.com:443 - HIER_NONE/- text/html".
Definition connect_event : Fields := [("@timestamp", JStr (to_rfc3339 77)); ("message", JStr connect_line)].
Definition forwarded_line (peer forwarded : string) : string :=
  "1775318877.918 7 " +:+ peer +:+ " TCP_TUNNEL/200 39 CONNECT www.bing.com:443 - HIER_DIRECT/150.171.28.16 - " +:+
  quoted forwarded +:+ " " +:+ quoted "198.51.100.4".
Definition forwarded_event (peer forwarded : string) : Fields := [("message", JStr (forwarded_line peer forwarded))].
Definition client_of (e : Json) : option Json * option Json := (pointer ["client"; "ip"] e, pointer ["od"; "client_ip_source"] e).

(** ** The unit tests *)

Example connect_enriched : let e := normalized false (JObj connect_event) in
  (pointer ["destination"; "domain"] e, pointer ["recommended_action_inferred"] e, pointer ["http"; "response"; "status_code"] e,
   pointer ["network"; "bytes"] e, pointer ["normalized_key"] e) =
  (Some (JStr "dice.com"), Some (JStr "block"), Some (JInt 403), Some (JInt 1058), Some (JStr "domain:dice.com")).
Proof. vm_compute. reflexivity. Qed.

Example structured_fields_kept : let e := normalized false (JObj
    (connect_event ++ [("recommended_action_inferred", JStr "allow"); ("destination", JObj [("domain", JStr "preset.example")])])) in
  (pointer ["destination"; "domain"] e, pointer ["recommended_action_inferred"] e) = (Some (JStr "preset.example"), Some (JStr "allow")).
Proof. vm_compute. reflexivity. Qed.

Example forwarded_from_trusted_peer :
  client_of (normalized true (JObj (forwarded_event "192.168.1.44" "for=203.0.113.9;proto=https;host=www.bing.com"))) =
  (Some (JStr "203.0.113.9"), Some (JStr "forwarded")).
Proof. vm_compute. reflexivity. Qed.
Example forwarded_from_untrusted_peer :
  client_of (normalized true (JObj (forwarded_event "10.10.10.10" "for=203.0.113.9"))) = (Some (JStr "10.10.10.10"), Some (JStr "peer")).
Proof. vm_compute. reflexivity. Qed.
Example forwarding_disabled :
  client_of (normalized false (JObj (forwarded_event "192.168.1.44" "for=203.0.113.9"))) = (Some (JStr "192.168.1.44"), Some (JStr "peer")).
Proof. vm_compute. reflexivity. Qed.

(** ** Witnesses *)

Lemma normalization_stable_witness : let e := JObj connect_event in
  keeps_said e (normalized true e) /\ normalize_event day true trusted "traffic-events" 5000 (normalized true e) =
    normalize_event day true trusted "traffic-events" 1000 e.
Proof.
  destruct (normalization_stable day true trusted "traffic-events" 1000 (JObj connect_event)) as [Hk Hr]. split; [exact Hk|].
  destruct (Hr 5000) as [Hd Hi]. apply injective_projections; [apply Hi; vm_compute; discriminate|exact Hd].
Defined.

Lemma client_address_trusted_witness :
  pointer ["client"; "ip"] (normalized true (JObj (forwarded_event "10.10.10.10" "for=203.0.113.9"))) = Some (JStr "10.10.10.10").
Proof.
  destruct (parse_ip "10.10.10.10") as [peer|] eqn:Ep; [|vm_compute in Ep; discriminate Ep].
  destruct (client_address_trusted day true trusted "traffic-events" trusted_raws 1000 (forwarded_event "10.10.10.10" "for=203.0.113.9")
    (forwarded_line "10.10.10.10" "for=203.0.113.9") "10.10.10.10" peer) as (c & Hc & _ & Hp);
    [vm_compute; reflexivity|reflexivity|vm_compute; reflexivity|exact Ep|reflexivity|].
  unfold normalized. rewrite Hc. vm_compute in Ep. injection Ep as <-. destruct Hp as [->|(_ & cidr & Hin & Hs)]; [vm_compute; reflexivity|exfalso].
  assert (Forall (fun cidr => Z.shiftr 168430090 (32 - ci_prefix_len cidr) <> Z.shiftr (number (ci_network cidr)) (32 - ci_prefix_len cidr)) trusted)
    as Hall by (apply (bool_decide_unpack _); vm_compute; exact I).
  rewrite Forall_forall in Hall. apply (Hall cidr Hin). apply Hs.
Defined.

Definition writer : ElasticWriter := default {| ew_base_url := ""; ew_retry_attempts := 1%nat; ew_trust_proxy_headers := false; ew_trusted_proxy_cidrs := [] |}
  (result_ok (new_writer "http://elasticsearch:9200/" 3 true trusted_raws)).
Definition page_event : Fields := [("od", JObj [("page_fetch_ttl_seconds", JInt 4294967297); ("trace_id", JStr "t1")]); ("url", JObj [("full", JStr "https://a.org/x")])].
Definition events : list Json := [JObj connect_event; JObj page_event].
Definition start (replies : list Reply) (faults : list bool) : IngestWorld := mkIo 1000 None faults 1%nat [] replies.

Lemma bulk_body_read_back_witness :
  read_bulk (bulk_body day writer "traffic-events" 1000 events "") =
  Some [("traffic-events-2026.04.04", normalized true (JObj connect_event)); ("traffic-events-2026.04.04", normalized true (JObj page_event))].
Proof.
  rewrite (bulk_body_read_back day writer "traffic-events" 1000 events); [reflexivity|]. apply (bool_decide_unpack _). vm_compute. exact I.
Defined.

(** The second of three attempts is answered. *)
Definition flaky : IngestWorld := start [SendFailed "timed out"; Answered 200 "{}"; Answered 500 ""] [].
Lemma bulk_index_retries_witness :
  let r := bulk_index day writer "traffic-events" events flaky in
  let body := bulk_body day writer "traffic-events" 1000 events "" in
  r.1 = Ok tt /\ io_trace r.2 = replicate 2 (BulkRequest "http://elasticsearch:9200/_bulk" body).
Proof.
  destruct (bulk_index_retries day writer "traffic-events" "http://elasticsearch:9200/" 3 true trusted_raws events flaky)
    as (k & Hk & Hi & Hl & Ht & Hok); [vm_compute; reflexivity|discriminate|].
  assert (k = 1%nat) as ->.
  { destruct k as [|[|k]]; [specialize (Hl I); lia|reflexivity|]. specialize (Hi 1%nat ltac:(lia)). vm_compute in Hi. discriminate Hi. }
  split; [apply Hok; vm_compute; split; reflexivity|exact Ht].
Defined.


(** ** Where the code falls short *)

(** Jobs for the page fetcher are built from the event as it arrived: the URL that a log line gives
    is only filled in for the document that is indexed. *)
Example log_line_not_fetched :
  build_page_fetch_job (fun _ => None) (JObj connect_event) = None /\
  pfj_hostname <$> build_page_fetch_job (fun _ => None) (normalized true (JObj connect_event)) = Some "dice.com".
Proof. vm_compute. split; reflexivity. Qed.

(** The lifetime that an event asks for is cut to 32 bits: 2^32 + 1 seconds become one second. *)
Example lifetime_cut : pfj_ttl_seconds <$> build_page_fetch_job (fun _ => None) (JObj page_event) = Some (Some 1).
Proof. vm_compute. reflexivity. Qed.

(** A batch that Elasticsearch refuses is answered with an error after its pages were queued, so that
    sending it again queues them again. *)
Definition ingest (w : IngestWorld) : result (StatusCode * string) unit * IngestWorld :=
  filebeat_ingest day writer (fun _ => None) (Some "s3cret") "traffic-events" (Some (new_publisher "page-fetch-jobs" 21600)) (Some "s3cret")
    (Events [JObj page_event]) w.
Example refused_batch_queued :
  let w := start [Answered 200 (quoted "errors" +:+ ":true"); Answered 200 "{}"] [] in
  (ingest w).1 = Err (INTERNAL_SERVER_ERROR, "failed to index events") /\ (ingest (ingest w).2).1 = Ok tt /\
  length (omap (fun e => match e with QueueFetch _ payload => Some payload | _ => None end) (io_trace (ingest (ingest w).2).2)) = 2%nat.
Proof. vm_compute. split_and!; reflexivity. Qed.

(** A wrong secret changes nothing. *)
Example wrong_secret : forall w,
  filebeat_ingest day writer (fun _ => None) (Some "s3cret") "traffic-events" None (Some "guess") (Events events) w =
  (Err (UNAUTHORIZED, "invalid filebeat secret"), w).
Proof. reflexivity. Qed.

End IngestDemo.
