(* ===== verification/PolicyStore.v ===== *)
(** * The policy store

    [services/policy-engine/src/store.rs] with the request of [models.rs]: the ordered rules, the
    match of a request against a rule's conditions, and the storage of policies in the database.
    The store reads the taxonomy through the interface [CategoryResolver]; the instance for a
    validated taxonomy discharges it. *)

From S2P Require Import Prelude RustStr Types Taxonomy CanonicalTaxonomy Db.

(** ** What the store needs of the taxonomy *)

Class CategoryResolver (T : Type) := {
  (** [validate_category(c)]: [.category.id] and [.fallback_reason] *)
  resolve_category_id : T -> string -> string * option FallbackReason;
  (** [validate_labels(c, s)]: [.category.id] and [.fallback_reason] *)
  resolve_labels_id : T -> string -> option string -> string * option FallbackReason
}.

Class CategoryResolverLaws (T : Type) `{CategoryResolver T} := {
  category_fallback t c reason :
    (resolve_category_id t c).2 = Some reason ->
    (resolve_category_id t c).1 = UNKNOWN_CATEGORY_ID /\
    (reason = MissingCategory \/ reason = UnknownCategory);
  category_id_stable t c :
    (resolve_category_id t c).2 = None ->
    resolve_category_id t (resolve_category_id t c).1 = ((resolve_category_id t c).1, None);
  labels_fallback t c s reason :
    (resolve_labels_id t c s).2 = Some reason -> (resolve_labels_id t c s).1 = UNKNOWN_CATEGORY_ID
}.

(** ** Data *)

Record DecisionRequest := {
  dr_normalized_key : string;
  dr_entity_level : string;
  dr_source_ip : string;
  dr_user_id : option string;
  dr_group_ids : option (list string);
  dr_category_hint : option string;
  dr_subcategory_hint : option string;
  dr_risk_hint : option string;
  dr_confidence_hint : option float
}.

Record PolicyStore (T : Type) := {
  ps_rules : list PolicyRule;
  ps_version : string;
  ps_policy_id : option Uuid;
  ps_taxonomy : T
}.
Arguments ps_rules {T}.
Arguments ps_version {T}.
Arguments ps_policy_id {T}.
Arguments ps_taxonomy {T}.

Record SimulationResult := {
  sr_decision : PolicyDecision;
  sr_matched_rule_id : option string
}.

Record PolicyUpdateRequest := {
  ur_version : option string;
  ur_status : option string;
  ur_notes : option string;
  ur_rules : option (list PolicyRule)
}.

(** ** Hosts and patterns *)

(** [.trim().trim_end_matches('.').to_ascii_lowercase()], [None] when nothing is left. *)
Definition cleaned (s : string) : option string :=
  let host := to_ascii_lowercase (trim_end_matches "." (trim s)) in
  if is_empty host then None else Some host.

Definition host_from_normalized_key (normalized_key : string) : option string :=
  match (match strip_prefix "domain:" normalized_key with
         | Some h => Some h
         | None => strip_prefix "subdomain:" normalized_key
         end) with
  | Some host => cleaned host
  | None =>
      raw_url ← strip_prefix "url:" normalized_key;
      let without_scheme :=
        match split_once "://" (trim raw_url) with Some (_, t) => t | None => raw_url end in
      let host_port := default "" (head (split_char "/" without_scheme)) in
      let host := default "" (last (split_char "@" host_port)) in
      cleaned (default "" (head (split_char ":" host)))
  end.

Definition domain_pattern_matches_host (pattern host : string) : bool :=
  let normalized := to_ascii_lowercase (trim pattern) in
  if is_empty normalized then false
  else
    let scope := default normalized (strip_prefix "*." normalized) in
    if decide (host = scope) then true else ends_with ("." +:+ scope) host.

Section PolicyStore.
  Context {T : Type} `{R : CategoryResolver T} `{J : SerdeJson}.

(** ** Matching *)

Definition matches_conditions (cond : Conditions) (canonical_category : option string)
    (request : DecisionRequest) : bool :=
  (match c_domains cond with
   | None => true
   | Some domains =>
       match host_from_normalized_key (dr_normalized_key request) with
       | None => false
       | Some host => any (fun pattern => domain_pattern_matches_host pattern host) domains
       end
   end) &&
  (match c_categories cond with
   | None => true
   | Some categories =>
       match canonical_category with
       | Some category => any (fun c => bool_decide (c = category)) categories
       | None => false
       end
   end) &&
  (match c_users cond with
   | None => true
   | Some users =>
       match dr_user_id request with
       | Some user => any (fun u => eq_ignore_ascii_case u user) users
       | None => false
       end
   end) &&
  (match c_groups cond with
   | None => true
   | Some groups =>
       match dr_group_ids request with
       | Some req_groups => any (fun g => bool_decide (g ∈ groups)) req_groups
       | None => false
       end
   end) &&
  (match c_source_ips cond with
   | None => true
   | Some ips => any (fun ip => bool_decide (ip = dr_source_ip request)) ips
   end) &&
  (match c_risk_levels cond with
   | None => true
   | Some risk_levels =>
       match dr_risk_hint request with
       | Some risk => any (fun rl => eq_ignore_ascii_case rl risk) risk_levels
       | None => false
       end
   end).

Definition to_verdict (request : DecisionRequest) (rule : PolicyRule)
    (canonical_category : option string) : option ClassificationVerdict :=
  Some {| cv_primary_category := default UNKNOWN_CATEGORY_ID canonical_category;
          cv_subcategory := default "Rule" (r_description rule);
          cv_risk_level := default "medium" (dr_risk_hint request);
          cv_confidence := default f32_half (dr_confidence_hint request);
          cv_recommended_action := r_action rule |}.

Definition to_verdict_default (request : DecisionRequest) (canonical_category : option string)
    : option ClassificationVerdict :=
  Some {| cv_primary_category := default UNKNOWN_CATEGORY_ID canonical_category;
          cv_subcategory := "Default";
          cv_risk_level := default "low" (dr_risk_hint request);
          cv_confidence := default f32_half (dr_confidence_hint request);
          cv_recommended_action := Allow |}.

Definition canonicalize_request_category (store : PolicyStore T) (hint : string)
    (subcategory_hint : option string) : option string :=
  match subcategory_hint with
  | Some _ => Some (resolve_labels_id (ps_taxonomy store) hint subcategory_hint).1
  | None => Some (resolve_category_id (ps_taxonomy store) hint).1
  end.

Definition simulate (store : PolicyStore T) (request : DecisionRequest) : SimulationResult :=
  let canonical_category :=
    hint ← dr_category_hint request;
    canonicalize_request_category store hint (dr_subcategory_hint request) in
  match find_first (fun rule => matches_conditions (r_conditions rule) canonical_category request)
          (ps_rules store) with
  | Some rule =>
      {| sr_decision :=
           {| pd_action := r_action rule; pd_cache_hit := false;
              pd_verdict := to_verdict request rule canonical_category;
              pd_decision_source := None |};
         sr_matched_rule_id := Some (r_id rule) |}
  | None =>
      {| sr_decision :=
           {| pd_action := Allow; pd_cache_hit := false;
              pd_verdict := to_verdict_default request canonical_category;
              pd_decision_source := None |};
         sr_matched_rule_id := None |}
  end.

(** ** Loading rules *)

Definition canonicalize_category (t : T) (rule_id category : string) : result string string :=
  let '(id, fallback_reason) := resolve_category_id t category in
  match fallback_reason with
  | Some ((MissingCategory | UnknownCategory) as reason) =>
      Err ("policy rule '" +:+ rule_id +:+ "' references invalid category '" +:+ category +:+ "': "
           +:+ fallback_as_str reason)
  | _ => Ok id
  end.

Definition canonicalize_rule (t : T) (rule : PolicyRule) : result string PolicyRule :=
  match c_categories (r_conditions rule) with
  | None => Ok rule
  | Some categories =>
      ids ← try_map (canonicalize_category t (r_id rule)) categories;
      Ok (set_conditions (set_categories (Some ids) (r_conditions rule)) rule)
  end.

Definition canonicalize_rules (t : T) (rules : list PolicyRule) : result string (list PolicyRule) :=
  try_map (canonicalize_rule t) rules.

Definition from_document (doc : PolicyDocument) (t : T) : result string (PolicyStore T) :=
  rules ← canonicalize_rules t (d_rules doc);
  Ok {| ps_rules := sort_by_key r_priority rules; ps_version := d_version doc;
        ps_policy_id := None; ps_taxonomy := t |}.

(** [update] and [update_from_rules]: the store afterwards; on an error it is unchanged. *)
Definition update (store : PolicyStore T) (doc : PolicyDocument) : result string (PolicyStore T) :=
  rules ← canonicalize_rules (ps_taxonomy store) (d_rules doc);
  Ok {| ps_rules := sort_by_key r_priority rules; ps_version := d_version doc;
        ps_policy_id := None; ps_taxonomy := ps_taxonomy store |}.

Definition update_from_rules (store : PolicyStore T) (rules : list PolicyRule) (version : string)
    (policy_id : option Uuid) : result string (PolicyStore T) :=
  rules' ← canonicalize_rules (ps_taxonomy store) rules;
  Ok {| ps_rules := rules'; ps_version := version; ps_policy_id := policy_id;
        ps_taxonomy := ps_taxonomy store |}.

(** ** Storage *)

Definition parse_action (action : string) : option PolicyAction :=
  if decide (action = "Allow") then Some Allow
  else if decide (action = "Block") then Some Block
  else if decide (action = "Warn") then Some Warn
  else if decide (action = "Monitor") then Some Monitor
  else if decide (action = "Review") then Some Review
  else if decide (action = "RequireApproval") then Some RequireApproval
  else if decide (action = "ContentPending") then Some ContentPending
  else None.

Definition db_row_to_rule (row : RuleRow) : result string PolicyRule :=
  action_enum ← ok_or (parse_action (rr_action row)) ("unknown action " +:+ rr_action row);
  cond ← ok_or (conditions_from_value (rr_conditions row)) "invalid conditions";
  Ok {| r_id := "db-rule-" +:+ pretty (rr_priority row) +:+ "-" +:+ to_ascii_lowercase (rr_action row);
        r_description := rr_description row;
        r_priority := as_u32 (rr_priority row);
        r_action := action_enum;
        r_conditions := cond |}.

Definition rule_row (policy_id : Uuid) (rule : PolicyRule) : RuleRow :=
  {| rr_policy_id := policy_id; rr_priority := as_i32 (r_priority rule);
     rr_action := action_to_string (r_action rule); rr_description := r_description rule;
     rr_conditions := conditions_to_value (r_conditions rule) |}.

Definition insert_rule (policy_id : Uuid) (rule : PolicyRule) : DbM unit :=
  execute (fun db => set_tables (db_policies db) (db_policy_rules db ++ [rule_row policy_id rule])
                       (db_policy_versions db) (db_audit db) db).

Definition record_policy_version (policy_id : Uuid) (version status : string)
    (rules : list PolicyRule) (created_by notes : option string) : DbM unit :=
  execute (fun db => set_tables (db_policies db) (db_policy_rules db)
    (db_policy_versions db ++
      [{| v_policy_id := policy_id; v_version := version; v_status := status;
          v_created_by := created_by; v_notes := notes; v_rules := rules_to_value rules;
          v_created_at := db_clock db |}]) (db_audit db) db).

Definition insert_policy_document (doc : PolicyDocument) (name : string)
    (created_by : option string) : DbM Uuid :=
  policy_id ← new_uuid;
  _ ← execute (fun db => set_tables
        (db_policies db ++
          [{| p_id := policy_id; p_name := name; p_version := d_version doc; p_status := "active";
              p_created_by := created_by; p_created_at := db_clock db |}])
        (db_policy_rules db) (db_policy_versions db) (db_audit db) db);
  _ ← for_each (insert_rule policy_id) (d_rules doc);
  _ ← record_policy_version policy_id (d_version doc) "active" (d_rules doc) created_by None;
  mret policy_id.

Definition load_latest_version_rules (policy_id : Uuid) : DbM (option (list PolicyRule)) :=
  row ← select (fun db =>
    head (order_desc v_created_at (filter (fun v => v_policy_id v = policy_id) (db_policy_versions db))));
  match row with
  | None => mret None
  | Some row => rules ← lift (ok_or (rules_from_value (v_rules row)) DB_ERROR); mret (Some rules)
  end.

Definition load_policy_rules_table (policy_id : Uuid) : DbM (list PolicyRule) :=
  rows ← select (fun db =>
    sort_by_key rr_priority (filter (fun r => rr_policy_id r = policy_id) (db_policy_rules db)));
  lift (try_map db_row_to_rule rows).

Definition fetch_policy_rules (policy_id : Uuid) : DbM (list PolicyRule) :=
  load_policy_rules_table policy_id.

Definition load_from_db (t : T) : DbM (option (PolicyStore T)) :=
  policy ← select (fun db =>
    head (order_desc p_created_at (filter (fun p => p_status p = "active") (db_policies db))));
  match policy with
  | None => mret None
  | Some policy =>
      latest ← load_latest_version_rules (p_id policy);
      parsed_rules ←
        match default [] latest with
        | [] => load_policy_rules_table (p_id policy)
        | rules => mret rules
        end;
      rules ← lift (canonicalize_rules t parsed_rules);
      mret (Some {| ps_rules := rules; ps_version := p_version policy;
                    ps_policy_id := Some (p_id policy); ps_taxonomy := t |})
  end.

Definition update_policy_document (policy_id : Uuid) (req : PolicyUpdateRequest)
    (actor : option string) : DbM unit :=
  record ← select (fun db => find_first (fun p => bool_decide (p_id p = policy_id)) (db_policies db));
  match record with
  | None => lift (Err "policy not found")
  | Some record =>
      let version := default (p_version record) (ur_version req) in
      let status := default (p_status record) (ur_status req) in
      _ ← (if decide (is_Some (ur_version req) \/ is_Some (ur_status req)) then
             execute (fun db => set_tables
               ((fun p => if decide (p_id p = policy_id)
                          then {| p_id := p_id p; p_name := p_name p; p_version := version;
                                  p_status := status; p_created_by := p_created_by p;
                                  p_created_at := p_created_at p |}
                          else p) <$> db_policies db)
               (db_policy_rules db) (db_policy_versions db) (db_audit db) db)
           else mret tt);
      rules ←
        match ur_rules req with
        | Some rules =>
            _ ← execute (fun db => set_tables (db_policies db)
                  (filter (fun r => rr_policy_id r <> policy_id) (db_policy_rules db))
                  (db_policy_versions db) (db_audit db) db);
            _ ← for_each (insert_rule policy_id) rules;
            mret rules
        | None => fetch_policy_rules policy_id
        end;
      record_policy_version policy_id version status rules actor (ur_notes req)
  end.

(** ** Patterns and conditions *)

(** The host name a pattern covers, with all its subdomains. *)
Definition pattern_scope (pattern : string) : string :=
  let normalized := to_ascii_lowercase (trim pattern) in
  default normalized (strip_prefix "*." normalized).

Lemma domain_pattern_matches_spec pattern host :
  domain_pattern_matches_host pattern host = true <->
  trim pattern <> "" /\
  (host = pattern_scope pattern \/ exists sub, host = sub +:+ "." +:+ pattern_scope pattern).
Proof.
  unfold domain_pattern_matches_host. fold (pattern_scope pattern). rewrite lower_empty.
  assert (is_empty (trim pattern) = true <-> trim pattern = "") as He by (by destruct (trim pattern)).
  destruct (is_empty (trim pattern)); [naive_solver|].
  case_decide; [naive_solver|]. rewrite ends_with_spec. naive_solver.
Qed.

(** Domain conditions respect label boundaries: a pattern matches a longer host only when what
    stands before the pattern's scope ends with a dot, so "mozilla.org" matches
    "www.mozilla.org" and never "evilmozilla.org". *)
Theorem domain_pattern_label_boundary pattern prefix :
  prefix <> "" -> domain_pattern_matches_host pattern (prefix +:+ pattern_scope pattern) = true ->
  exists sub, prefix = sub +:+ ".".
Proof.
  intros Hne [_ [H|(sub & H)]]%domain_pattern_matches_spec.
  - exfalso. apply Hne. apply (f_equal str_len) in H. rewrite str_app_length in H.
    destruct prefix; [done|cbn in H; lia].
  - exists sub. rewrite <- str_app_assoc in H. by apply app_eq_app in H as [? _].
Qed.

(** A request satisfies one optional condition: an absent condition asks nothing. *)
Definition satisfied {A} (cond : option (list A)) (p : A -> Prop) : Prop :=
  match cond with None => True | Some l => exists x, x ∈ l /\ p x end.

Lemma satisfied_ext {A} (cond : option (list A)) (p q : A -> Prop) :
  (forall x, p x <-> q x) -> satisfied cond p <-> satisfied cond q.
Proof. intros H. destruct cond; cbn; [|done]. by setoid_rewrite H. Qed.
Global Instance satisfied_proper {A} (cond : option (list A)) :
  Proper (pointwise_relation A iff ==> iff) (satisfied cond).
Proof. intros p q H. by apply satisfied_ext. Qed.

Lemma optional_condition {A} (cond : option (list string)) (o : option A) (f : A -> string -> bool) :
  match cond with
  | None => true
  | Some l => match o with Some v => any (f v) l | None => false end
  end = true <->
  satisfied cond (fun x => exists v, o = Some v /\ f v x = true).
Proof. destruct cond as [l|], o as [v|]; cbn; try rewrite any_true; naive_solver. Qed.

Lemma plain_condition (cond : option (list string)) (f : string -> bool) :
  match cond with None => true | Some l => any f l end = true <->
  satisfied cond (fun x => f x = true).
Proof. destruct cond; cbn; [apply any_true|done]. Qed.

Lemma group_condition (cond req : option (list string)) :
  match cond with
  | None => true
  | Some groups =>
      match req with Some gs => any (fun g => bool_decide (g ∈ groups)) gs | None => false end
  end = true <->
  satisfied cond (fun g => exists gs, req = Some gs /\ g ∈ gs).
Proof.
  destruct cond as [l|], req as [gs|]; cbn; try rewrite any_true;
    try setoid_rewrite bool_decide_eq_true; naive_solver.
Qed.

(** A rule matches exactly when every condition it states holds of the request: the host of
    the key is covered by one of the domains, the canonical category is listed, the user and the
    risk level are listed up to ASCII case, one of the groups is listed, and the source address
    is listed verbatim. *)
Theorem matches_conditions_spec cond category request :
  matches_conditions cond category request = true <->
  satisfied (c_domains cond) (fun pattern =>
    exists host, host_from_normalized_key (dr_normalized_key request) = Some host /\
      domain_pattern_matches_host pattern host = true) /\
  satisfied (c_categories cond) (fun c => category = Some c) /\
  satisfied (c_users cond) (fun u =>
    exists user, dr_user_id request = Some user /\ to_ascii_lowercase u = to_ascii_lowercase user) /\
  satisfied (c_groups cond) (fun g =>
    exists req_groups, dr_group_ids request = Some req_groups /\ g ∈ req_groups) /\
  satisfied (c_source_ips cond) (fun ip => ip = dr_source_ip request) /\
  satisfied (c_risk_levels cond) (fun rl =>
    exists risk, dr_risk_hint request = Some risk /\ to_ascii_lowercase rl = to_ascii_lowercase risk).
Proof.
  unfold matches_conditions. rewrite !andb_true_iff.
  rewrite (optional_condition (c_domains cond) (host_from_normalized_key (dr_normalized_key request))
             (fun host pattern => domain_pattern_matches_host pattern host)).
  rewrite (optional_condition (c_categories cond) category (fun k c => bool_decide (c = k))).
  rewrite (optional_condition (c_users cond) (dr_user_id request) (fun k u => eq_ignore_ascii_case u k)).
  rewrite (optional_condition (c_risk_levels cond) (dr_risk_hint request) (fun k u => eq_ignore_ascii_case u k)).
  rewrite (plain_condition (c_source_ips cond)).
  rewrite group_condition. setoid_rewrite eq_ignore_ascii_case_spec.
  setoid_rewrite bool_decide_eq_true.
  rewrite (satisfied_ext (c_categories cond) _ (fun c => category = Some c)) by naive_solver.
  tauto.
Qed.

(** ** First match *)

Definition request_category (store : PolicyStore T) (request : DecisionRequest) : option string :=
  hint ← dr_category_hint request;
  canonicalize_request_category store hint (dr_subcategory_hint request).

Definition rule_matches (store : PolicyStore T) (request : DecisionRequest) (rule : PolicyRule) : bool :=
  matches_conditions (r_conditions rule) (request_category store request) request.

(** The result of a simulation, given the rule that applies. *)
Definition decision_for (store : PolicyStore T) (request : DecisionRequest) (rule : option PolicyRule)
    : SimulationResult :=
  match rule with
  | Some rule =>
      {| sr_decision :=
           {| pd_action := r_action rule; pd_cache_hit := false;
              pd_verdict := to_verdict request rule (request_category store request);
              pd_decision_source := None |};
         sr_matched_rule_id := Some (r_id rule) |}
  | None =>
      {| sr_decision :=
           {| pd_action := Allow; pd_cache_hit := false;
              pd_verdict := to_verdict_default request (request_category store request);
              pd_decision_source := None |};
         sr_matched_rule_id := None |}
  end.

Lemma simulate_first store request :
  simulate store request =
  decision_for store request (find_first (rule_matches store request) (ps_rules store)).
Proof. unfold simulate, decision_for, rule_matches, request_category. by destruct (find_first _ _). Qed.

Lemma from_document_rules doc t store :
  from_document doc t = Ok store ->
  exists rules, canonicalize_rules t (d_rules doc) = Ok rules /\
    ps_rules store = sort_by_key r_priority rules /\ ps_taxonomy store = t.
Proof. intros (rules & Hr & [= <-])%bind_Ok. eauto. Qed.

(** C10: Refinement of the documented semantics.  A store loaded from a document decides by the
    matching rule of lowest priority number, the earliest in the document among equals, and
    allows by default when no rule matches. *)
Theorem from_document_lowest_priority doc t store request :
  from_document doc t = Ok store ->
  exists rules, canonicalize_rules t (d_rules doc) = Ok rules /\
    simulate store request =
    decision_for store request (first_min r_priority (List.filter (rule_matches store request) rules)).
Proof.
  intros (rules & Hr & Hs & _)%from_document_rules. exists rules. split; [done|].
  by rewrite simulate_first, Hs, find_first_sorted.
Qed.

(** ** Canonical rules *)

Lemma canonicalize_category_Ok t id c c' :
  canonicalize_category t id c = Ok c' <->
  exists reason, resolve_category_id t c = (c', reason) /\
    reason <> Some MissingCategory /\ reason <> Some UnknownCategory.
Proof.
  unfold canonicalize_category. destruct (resolve_category_id t c) as [x [[]|]]; naive_solver.
Qed.

Context `{!CategoryResolverLaws T}.

Lemma canonicalize_category_stable t id c c' :
  canonicalize_category t id c = Ok c' ->
  (resolve_category_id t c).2 = None /\ canonicalize_category t id c' = Ok c'.
Proof.
  intros (reason & Hr & Hm & Hu)%canonicalize_category_Ok.
  destruct reason as [reason|].
  { destruct (category_fallback t c reason) as [_ [->| ->]]; [by rewrite Hr|done|done]. }
  split; [by rewrite Hr|]. apply canonicalize_category_Ok. exists None.
  pose proof (category_id_stable t c) as Hs. rewrite Hr in Hs. cbn in Hs. by rewrite Hs.
Qed.

Lemma canonicalize_rule_stable t r r' :
  canonicalize_rule t r = Ok r' -> canonicalize_rule t r' = Ok r'.
Proof.
  unfold canonicalize_rule at 1. destruct (c_categories (r_conditions r)) as [cats|] eqn:Ec.
  2:{ intros [= <-]. unfold canonicalize_rule. by rewrite Ec. }
  intros (ids & Hids%try_map_Ok & [= <-])%bind_Ok.
  unfold canonicalize_rule. cbn.
  assert (try_map (canonicalize_category t (r_id r)) ids = Ok ids) as ->; [|done].
  apply try_map_Ok. clear Ec.
  induction Hids as [|c c' cats ids Hc _ IH]; [constructor|]. constructor; [|done].
  by apply canonicalize_category_stable in Hc as [_ ?].
Qed.

(** Rules are canonical once and for all: rules that passed [canonicalize_rules] pass it again
    unchanged, so the second pass of [reload] over rules already loaded from the database cannot
    fail or alter them. *)
Theorem canonicalize_rules_idempotent t rules rules' :
  canonicalize_rules t rules = Ok rules' -> canonicalize_rules t rules' = Ok rules'.
Proof.
  intros H%try_map_Ok. apply try_map_Ok.
  induction H as [|r r' rules rules' Hr _ IH]; [constructor|]. constructor; [|done].
  by eapply canonicalize_rule_stable.
Qed.

(** A policy that names an unknown or empty category is rejected as a whole: if any category
    of any rule does not resolve, the document is not loaded. *)
Theorem invalid_category_rejected t rules rule cats c reason :
  rule ∈ rules -> c_categories (r_conditions rule) = Some cats -> c ∈ cats ->
  (resolve_category_id t c).2 = Some reason ->
  exists e, canonicalize_rules t rules = Err e.
Proof.
  intros Hrule Hcats Hc Hr. unfold canonicalize_rules.
  destruct (try_map (canonicalize_rule t) rules) as [rules'|e] eqn:E; [exfalso|by eauto].
  apply try_map_Ok in E. apply list_elem_of_lookup in Hrule as [i Hi].
  eapply Forall2_lookup_l in E as (r' & _ & Hr'); [|done].
  unfold canonicalize_rule in Hr'. rewrite Hcats in Hr'. apply bind_Ok in Hr' as (ids & Hids & _).
  apply try_map_Ok in Hids. apply list_elem_of_lookup in Hc as [j Hj].
  eapply Forall2_lookup_l in Hids as (c' & _ & Hc'); [|done].
  apply canonicalize_category_stable in Hc' as [Hn _]. congruence.
Qed.

(** ** Storage *)

Lemma parse_action_round_trip a : parse_action (action_to_string a) = Some a.
Proof. by destruct a. Qed.

(** A rule written to the [policy_rules] table is read back with the same description,
    priority, action and conditions, over the whole range of [u32] priorities: the casts to and
    from [i32] undo each other. *)
Theorem rule_row_round_trip policy_id rule :
  is_u32 (r_priority rule) ->
  exists id, db_row_to_rule (rule_row policy_id rule) =
    Ok {| r_id := id; r_description := r_description rule; r_priority := r_priority rule;
          r_action := r_action rule; r_conditions := r_conditions rule |}.
Proof.
  intros Hp. unfold db_row_to_rule, rule_row; cbn.
  rewrite parse_action_round_trip; cbn. rewrite conditions_round_trip; cbn.
  rewrite as_u32_as_i32 by done. eauto.
Qed.

(** Time stamps are in the past and identifiers are used up. *)
Definition db_wf (db : Db) : Prop :=
  Forall (fun p => (p_created_at p <= db_clock db)%Z) (db_policies db) /\
  Forall (fun v => v_policy_id v < db_next_uuid db) (db_policy_versions db).

Lemma head_order_desc_snoc {A} (key : A -> Z) l x :
  Forall (fun y => (key y < key x)%Z) l -> head (order_desc key (l ++ [x])) = Some x.
Proof.
  unfold order_desc. induction 1 as [|y l Hy _ IH]; cbn; [done|].
  destruct (sort_by_key _ (l ++ [x])) as [|z k]; cbn in *; [done|]. injection IH as ->.
  by rewrite decide_False by lia.
Qed.

Lemma insert_rules_healthy policy_id rules db :
  healthy db -> exists db', for_each (insert_rule policy_id) rules db = (Ok tt, db') /\
    healthy db' /\ db_policies db' = db_policies db /\
    db_policy_versions db' = db_policy_versions db /\ (db_clock db <= db_clock db')%Z /\
    db_policy_rules db' = db_policy_rules db ++ (rule_row policy_id <$> rules).
Proof.
  revert db; induction rules as [|r rules IH]; intros db Hh; cbn [for_each].
  - exists db. rewrite app_nil_r. by split_and!.
  - rewrite (dbm_bind_ok (insert_rule policy_id r) _ _ _ _ (execute_healthy _ _ Hh)).
    match goal with |- context [for_each _ _ ?d] => destruct (IH d) as (db' & -> & H1 & H2 & H3 & H4 & H5) end.
    { by apply healthy_tick. }
    exists db'. cbn in *. rewrite H5, <- app_assoc. split_and!; [done..|lia|done].
Qed.

Lemma load_latest_healthy policy_id v rules db :
  healthy db -> filter (fun v => v_policy_id v = policy_id) (db_policy_versions db) = [v] ->
  rules_from_value (v_rules v) = Some rules ->
  load_latest_version_rules policy_id db = (Ok (Some rules), tick db).
Proof.
  intros Hh Hv Hr. unfold load_latest_version_rules.
  rewrite (dbm_bind_ok _ _ _ _ _ (select_healthy _ _ Hh)). cbn -[filter].
  rewrite Hv. cbn. unfold mbind, dbm_bind, lift. by rewrite Hr.
Qed.

(** Saving a document and loading it back: the new policy becomes the active one, and the
    rules served are the document's rules, canonicalised, in the order of the document. *)
Theorem insert_then_load doc name by_ t rules db :
  healthy db -> db_wf db -> d_rules doc <> [] -> canonicalize_rules t (d_rules doc) = Ok rules ->
  exists db', insert_policy_document doc name by_ db = (Ok (db_next_uuid db), db') /\
  exists db'', load_from_db t db' =
    (Ok (Some {| ps_rules := rules; ps_version := d_version doc;
                 ps_policy_id := Some (db_next_uuid db); ps_taxonomy := t |}), db'').
Proof.
  intros Hh [Hwp Hwv] Hne Hcan. unfold insert_policy_document.
  rewrite (dbm_bind_ok new_uuid _ db _ _ eq_refl).
  match goal with |- context [(_ ≫= _) ?d] => assert (healthy d) as Hh1 by exact Hh end.
  rewrite (dbm_bind_ok _ _ _ _ _ (execute_healthy _ _ Hh1)).
  match goal with |- context [(_ ≫= _) ?d] =>
    destruct (insert_rules_healthy (db_next_uuid db) (d_rules doc) d) as (db2 & E2 & Hh2 & P2 & V2 & C2 & _) end.
  { by apply healthy_tick. }
  rewrite (dbm_bind_ok _ _ _ _ _ E2). unfold record_policy_version.
  rewrite (dbm_bind_ok _ _ _ _ _ (execute_healthy _ _ Hh2)).
  eexists. split; [reflexivity|]. unfold load_from_db.
  match goal with |- context [(_ ≫= _) ?d] => assert (healthy d) as Hh3 by (apply healthy_tick, Hh2); set (db3 := d) in * end.
  rewrite (dbm_bind_ok _ _ _ _ _ (select_healthy _ _ Hh3)).
  pose (ver := {| v_policy_id := db_next_uuid db; v_version := d_version doc; v_status := "active";
    v_created_by := by_; v_notes := None; v_rules := rules_to_value (d_rules doc);
    v_created_at := db_clock (tick db2) |}).
  assert (filter (fun v => v_policy_id v = db_next_uuid db) (db_policy_versions (tick db3)) = [ver]) as Hv.
  { unfold db3, ver; cbn -[filter]. rewrite V2; cbn -[filter]. rewrite filter_app, filter_cons_True, filter_nil by done.
    rewrite filter_all_false; [done|]. eapply Forall_impl; [exact Hwv|]. cbn. lia. }
  cbn -[order_desc filter]. rewrite P2. cbn -[order_desc filter]. rewrite filter_app, filter_cons_True by done.
  rewrite filter_nil, head_order_desc_snoc.
  2:{ apply Forall_forall. intros p [_ Hp]%list_elem_of_filter. rewrite Forall_forall in Hwp.
      specialize (Hwp p Hp). cbn in *. lia. }
  assert (healthy (tick db3)) as Hh4 by (by apply healthy_tick).
  rewrite (dbm_bind_ok _ _ _ _ _ (load_latest_healthy _ ver _ _ Hh4 Hv (rules_round_trip _))).
  cbn [default]. destruct (d_rules doc) as [|r0 rs]; [done|]. cbn -[canonicalize_rules].
  unfold mbind, dbm_bind, lift, mret, dbm_ret. rewrite Hcan. eauto.
Qed.

End PolicyStore.

(** ** The taxonomy store discharges the interface *)

(** A store of a validated document whose ids carry no surrounding white space. *)
Record GoodStore := {
  gs_store : TaxonomyStore;
  gs_wf : store_wf gs_store;
  gs_trimmed : Forall (fun c => trim (cat_id c) = cat_id c) (tx_categories (ts_taxonomy gs_store))
}.

(** The [None] arms stand for the panic of an index out of range, which
    [good_category] and [good_labels] exclude. *)
Global Instance good_resolver : CategoryResolver GoodStore := {|
  resolve_category_id g c :=
    match validate_category (gs_store g) c with
    | Some v => (cat_id (vc_category v), vc_fallback_reason v)
    | None => ("", None)
    end;
  resolve_labels_id g c s :=
    match validate_labels (gs_store g) c s with
    | Some v => (cat_id (vl_category v), vl_fallback_reason v)
    | None => ("", None)
    end
|}.

Lemma good_category g c : exists v,
  validate_category (gs_store g) c = Some v /\
  vc_fallback_reason v = cr_fallback_reason (resolve_category (gs_store g) (trim c) (normalize_label (trim c))) /\
  category_by_index (gs_store g) (cr_index (resolve_category (gs_store g) (trim c) (normalize_label (trim c))))
    = Some (vc_category v).
Proof.
  unfold validate_category.
  destruct (resolve_category_some _ (gs_wf g) (trim c) (normalize_label (trim c))) as [v Hv].
  rewrite Hv. cbn. by eexists.
Qed.

Lemma good_labels g c s : exists v, validate_labels (gs_store g) c s = Some v.
Proof. destruct (validate_labels_cases _ (gs_wf g) c s) as (r & Hr & _). eauto. Qed.

Lemma good_unknown g c :
  category_by_index (gs_store g) (ts_unknown_category_index (gs_store g)) = Some c ->
  cat_id c = UNKNOWN_CATEGORY_ID.
Proof. destruct (sw_unknown _ (gs_wf g)) as (c' & Hc' & Hid & _). congruence. Qed.

Global Instance good_resolver_laws : CategoryResolverLaws GoodStore.
Proof.
  split.
  - intros g c reason. cbn. destruct (good_category g c) as (v & -> & Hf & Hi). cbn. rewrite Hf.
    intros [Hu ->]%resolve_category_fallback. rewrite Hu in Hi. split; [by eapply good_unknown|].
    destruct (is_empty _); auto.
  - intros g c. cbn. destruct (good_category g c) as (v & -> & Hf & Hi). cbn. intros Hn.
    set (i := cr_index _) in Hi.
    pose proof (gs_trimmed g) as Ht. rewrite Forall_lookup in Ht. specialize (Ht i _ Hi).
    assert (ts_category_by_id (gs_store g) !! cat_id (vc_category v) = Some i) as Hid
      by (apply (sw_by_id _ (gs_wf g)); eauto).
    unfold validate_category. rewrite Ht. unfold resolve_category. rewrite Hid. cbn.
    unfold category_by_index in *. by rewrite Hi.
  - intros g c s reason. cbn. destruct (validate_labels_cases _ (gs_wf g) c s) as (r & -> & _ & Hfb & _).
    apply Hfb.
Qed.

(** ** The order of rules loaded from the database *)

Definition no_taxonomy : CategoryResolver unit :=
  {| resolve_category_id _ c := (c, None); resolve_labels_id _ c _ := (c, None) |}.

Definition catch_all (id : string) (priority : Z) (action : PolicyAction) : PolicyRule :=
  {| r_id := id; r_description := None; r_priority := priority; r_action := action;
     r_conditions := Conditions_default |}.
Definition unsorted_document : PolicyDocument :=
  {| d_version := "v1"; d_rules := [catch_all "allow-all" 1000 Allow; catch_all "block-all" 10 Block] |}.
Definition plain_request : DecisionRequest :=
  {| dr_normalized_key := "domain:example.com"; dr_entity_level := "domain"; dr_source_ip := "192.0.2.10";
     dr_user_id := None; dr_group_ids := None; dr_category_hint := None; dr_subcategory_hint := None;
     dr_risk_hint := None; dr_confidence_hint := None |}.

(** One document, two decisions: loaded from a file its rules are sorted by priority, stored in
    the database and loaded back they are evaluated in the order they were written, so a document
    that is not already sorted blocks from the file and allows from the database. *)
Theorem db_rules_not_sorted :
  let R := no_taxonomy in
  let J := DbDemo.json in
  exists file_store db db_store db',
    from_document unsorted_document tt = Ok file_store /\
    insert_policy_document unsorted_document "default" (Some "system") DbDemo.empty = (Ok 1, db) /\
    load_from_db tt db = (Ok (Some db_store), db') /\
    pd_action (sr_decision (simulate file_store plain_request)) = Block /\
    pd_action (sr_decision (simulate db_store plain_request)) = Allow.
Proof.
  cbv zeta. do 4 eexists. split; [vm_compute; reflexivity|].
  split; [vm_compute; reflexivity|]. split; [vm_compute; reflexivity|]. split; reflexivity.
Qed.

(** Saving a policy is not atomic: when the statement that inserts the second rule fails, the
    caller gets an error, yet the half-written policy is active and the next load serves its first
    rule alone. *)
Theorem failed_insert_is_served :
  let R := no_taxonomy in
  let J := DbDemo.json in
  let db0 := {| db_policies := []; db_policy_rules := []; db_policy_versions := []; db_audit := [];
                db_profiles := []; db_entries := []; db_classifications := []; db_overrides := [];
                db_clock := 0; db_next_uuid := 1; db_faults := [false; false; true] |} in
  exists db db' store,
    insert_policy_document unsorted_document "default" (Some "system") db0 = (Err DB_ERROR, db) /\
    load_from_db tt db = (Ok (Some store), db') /\
    ps_policy_id store = Some 1 /\ r_action <$> ps_rules store = [Allow].
Proof.
  cbv zeta. do 3 eexists. split; [vm_compute; reflexivity|].
  split; [vm_compute; reflexivity|]. split; reflexivity.
Qed.

(** ** Witnesses *)

Lemma demo_store_trimmed :
  Forall (fun c => trim (cat_id c) = cat_id c) (tx_categories (ts_taxonomy demo_store)).
Proof.
  apply Forall_forall. intros c Hc%list_elem_of_In.
  assert (forallb (fun c => bool_decide (trim (cat_id c) = cat_id c))
            (tx_categories (ts_taxonomy demo_store)) = true) as H by (vm_compute; reflexivity).
  rewrite forallb_forall in H. by apply H, bool_decide_eq_true in Hc.
Qed.

Definition shipped : GoodStore :=
  {| gs_store := demo_store; gs_wf := demo_store_wf; gs_trimmed := demo_store_trimmed |}.

Lemma domain_pattern_label_boundary_witness : exists sub, "www." = sub +:+ ".".
Proof.
  apply (domain_pattern_label_boundary "*.Mozilla.org" "www."); [discriminate|vm_compute; reflexivity].
Defined.

Definition social_rule (category : string) : PolicyRule :=
  {| r_id := "social-block"; r_description := Some "Block social"; r_priority := 5; r_action := Block;
     r_conditions := set_categories (Some [category]) Conditions_default |}.
Definition social_document : PolicyDocument :=
  {| d_version := "v1"; d_rules := [catch_all "allow-all" 1000 Allow; social_rule "Social"] |}.

Lemma from_document_lowest_priority_witness :
  let R := no_taxonomy in
  exists store, from_document unsorted_document tt = Ok store /\
    exists rules, canonicalize_rules tt (d_rules unsorted_document) = Ok rules /\
      simulate store plain_request =
      decision_for store plain_request (first_min r_priority (List.filter (rule_matches store plain_request) rules)).
Proof.
  intros R. eexists. split; [vm_compute; reflexivity|].
  apply (from_document_lowest_priority (R := R) unsorted_document tt). vm_compute. reflexivity.
Defined.

Lemma canonicalize_rules_idempotent_witness :
  canonicalize_rules shipped [social_rule "social-media"] = Ok [social_rule "social-media"].
Proof.
  apply (canonicalize_rules_idempotent shipped [social_rule "Social"]). vm_compute. reflexivity.
Defined.

Lemma invalid_category_rejected_witness :
  exists e, canonicalize_rules shipped [social_rule "NotARealCategory"] = Err e.
Proof.
  apply (invalid_category_rejected shipped [social_rule "NotARealCategory"]
    (social_rule "NotARealCategory") ["NotARealCategory"] "NotARealCategory" UnknownCategory).
  - constructor.
  - reflexivity.
  - constructor.
  - vm_compute. reflexivity.
Defined.

Lemma rule_row_round_trip_witness :
  exists id, db_row_to_rule (J := DbDemo.json) (rule_row 1 (catch_all "big" 4000000000 Block)) =
    Ok {| r_id := id; r_description := None; r_priority := 4000000000; r_action := Block;
          r_conditions := Conditions_default |}.
Proof.
  apply (rule_row_round_trip (J := DbDemo.json) 1 (catch_all "big" 4000000000 Block)).
  unfold is_u32, u32_max. cbn. lia.
Defined.

Lemma insert_then_load_witness :
  exists db', insert_policy_document (J := DbDemo.json) social_document "default" None DbDemo.empty = (Ok 1, db') /\
  exists db'' rules, load_from_db shipped db' =
    (Ok (Some {| ps_rules := rules; ps_version := "v1"; ps_policy_id := Some 1; ps_taxonomy := shipped |}), db'').
Proof.
  destruct (canonicalize_rules shipped (d_rules social_document)) as [rules|e] eqn:E;
    [|vm_compute in E; discriminate].
  destruct (insert_then_load (J := DbDemo.json) social_document "default" None shipped rules DbDemo.empty)
    as (db' & H1 & db'' & H2).
  - constructor.
  - split; constructor.
  - discriminate.
  - exact E.
  - exists db'. split; [exact H1|]. exists db'', rules. exact H2.
Defined.
