(* ===== verification/Evaluator.v ===== *)
(** * The policy evaluator

    [services/policy-engine/src/evaluator.rs]: the rule store gated by the activation profile,
    and reloading, creating and updating policies.  An operation that awaits the database is a
    computation on the engine's state and the database; an early return with [?] leaves what was
    done before it.  Reading a policy file is the parameter [read_policy_file]. *)

From S2P Require Import Prelude RustStr Types Taxonomy Db Activation PolicyStore.

Inductive PolicySource :=
  | File (path : string)
  | Database (seed_path : option string).

Record PolicyEvaluator (T : Type) := {
  ev_store : PolicyStore T;
  ev_source : PolicySource;
  ev_activation : ActivationProfile
}.
Arguments ev_store {T}.
Arguments ev_source {T}.
Arguments ev_activation {T}.

Record PolicyCreateRequest := {
  cq_name : string;
  cq_version : string;
  cq_created_by : option string;
  cq_rules : list PolicyRule
}.

Section Evaluator.
  Context {T : Type} `{R : CategoryResolver T} `{J : SerdeJson}.
  (** [PolicyDocument::load_from_file]. *)
  Context (read_policy_file : string -> result string PolicyDocument).

(** ** Deciding *)

Definition set_action (a : PolicyAction) (d : PolicyDecision) : PolicyDecision :=
  {| pd_action := a; pd_cache_hit := pd_cache_hit d; pd_verdict := pd_verdict d;
     pd_decision_source := pd_decision_source d |}.

Definition apply_activation (activation : ActivationProfile) (decision : PolicyDecision) : PolicyDecision :=
  match pd_verdict decision with
  | Some verdict =>
      if is_enabled activation (cv_primary_category verdict) (Some (cv_subcategory verdict))
      then decision else set_action Block decision
  | None => decision
  end.

Definition ev_simulate (e : PolicyEvaluator T) (request : DecisionRequest) : SimulationResult :=
  let result := simulate (ev_store e) request in
  {| sr_decision := apply_activation (ev_activation e) (sr_decision result);
     sr_matched_rule_id := sr_matched_rule_id result |}.

Definition evaluate (e : PolicyEvaluator T) (request : DecisionRequest) : PolicyDecision :=
  apply_activation (ev_activation e) (sr_decision (simulate (ev_store e) request)).

Definition is_category_enabled (e : PolicyEvaluator T) (category_id : string) : bool :=
  is_enabled (ev_activation e) category_id None.
Definition is_verdict_enabled (e : PolicyEvaluator T) (category_id subcategory_id : string) : bool :=
  is_enabled (ev_activation e) category_id (Some subcategory_id).

(** ** Changing policies *)

Definition EvM (A : Type) : Type :=
  PolicyEvaluator T * Db -> result string A * (PolicyEvaluator T * Db).
Global Instance evm_ret : MRet EvM := fun A a s => (Ok a, s).
Global Instance evm_bind : MBind EvM := fun A B f m s =>
  match m s with
  | (Ok a, s') => f a s'
  | (Err e, s') => (Err e, s')
  end.
Definition db_op {A} (m : DbM A) : EvM A := fun s =>
  let '(r, db') := m s.2 in (r, (s.1, db')).
Definition ev_lift {A} (r : result string A) : EvM A := fun s => (r, s).

(** [self.store.update(..)?] and the like: replace the store, or fail and keep it. *)
Definition set_store (f : PolicyStore T -> result string (PolicyStore T)) : EvM unit := fun s =>
  match f (ev_store s.1) with
  | Ok store => (Ok tt, ({| ev_store := store; ev_source := ev_source s.1;
                            ev_activation := ev_activation s.1 |}, s.2))
  | Err e => (Err e, s)
  end.

Definition install (new_store : PolicyStore T) : EvM unit :=
  set_store (fun store =>
    update_from_rules store (ps_rules new_store) (ps_version new_store) (ps_policy_id new_store)).

(** [self.activation.refresh_from_db(activation_pool).await?]. *)
Definition refresh_activation : EvM unit := fun s =>
  let '(r, profile, db') := refresh_from_db (ev_activation s.1) s.2 in
  (map_err id (_ ← r; Ok tt),
   ({| ev_store := ev_store s.1; ev_source := ev_source s.1; ev_activation := profile |}, db')).

(** The [if let .. else if let ..] of [reload] on what was loaded. *)
Definition install_or_seed (taxonomy : T) (loaded : option (PolicyStore T))
    (seed_path : option string) : EvM unit :=
  match loaded with
  | Some new_store => install new_store
  | None =>
      match seed_path with
      | Some seed =>
          doc ← ev_lift (read_policy_file seed);
          _ ← db_op (insert_policy_document doc "default" (Some "system"));
          reloaded ← db_op (load_from_db taxonomy);
          match reloaded with
          | Some new_store => install new_store
          | None => mret tt
          end
      | None => mret tt
      end
  end.

Definition reload : EvM unit := fun s =>
  let taxonomy := ps_taxonomy (ev_store s.1) in
  (match ev_source s.1 with
   | File path =>
       doc ← ev_lift (read_policy_file path);
       set_store (fun store => update store doc)
   | Database seed_path =>
       loaded ← db_op (load_from_db taxonomy);
       _ ← install_or_seed taxonomy loaded seed_path;
       refresh_activation
   end) s.

Definition NO_DATABASE : string := "database backend not configured".

Definition create_policy (req : PolicyCreateRequest) : EvM Uuid := fun s =>
  match ev_source s.1 with
  | File _ => (Err NO_DATABASE, s)
  | Database _ =>
      (policy_id ← db_op (insert_policy_document
                            {| d_version := cq_version req; d_rules := cq_rules req |}
                            (cq_name req) (cq_created_by req));
       _ ← reload;
       mret policy_id) s
  end.

Definition update_policy (policy_id : Uuid) (req : PolicyUpdateRequest) (actor : string) : EvM unit :=
  fun s =>
  match ev_source s.1 with
  | File _ => (Err NO_DATABASE, s)
  | Database _ =>
      (_ ← db_op (update_policy_document policy_id req (Some actor)); reload) s
  end.

(** ** Properties *)

Lemma apply_activation_disabled a d v :
  pd_verdict d = Some v ->
  is_enabled a (cv_primary_category v) (Some (cv_subcategory v)) = false ->
  apply_activation a d = set_action Block d.
Proof. intros Hv He. unfold apply_activation. by rewrite Hv, He. Qed.

Lemma apply_activation_verdict a d : pd_verdict (apply_activation a d) = pd_verdict d.
Proof. unfold apply_activation. by repeat case_match. Qed.

(** Every simulation carries a verdict. *)
Lemma simulate_verdict store request :
  exists v, pd_verdict (sr_decision (simulate store request)) = Some v /\
    cv_primary_category v = default UNKNOWN_CATEGORY_ID (request_category store request).
Proof.
  rewrite simulate_first. unfold decision_for. by destruct (find_first _ _); eexists.
Qed.

(** What the gate looks up: the category of the request, and as a subcategory the description of the
    rule that applies (or a word for none), which need not name one. *)
Definition decided_category (store : PolicyStore T) (request : DecisionRequest) : string :=
  default UNKNOWN_CATEGORY_ID (request_category store request).
Definition rule_label (store : PolicyStore T) (request : DecisionRequest) : string :=
  match find_first (rule_matches store request) (ps_rules store) with
  | Some rule => default "Rule" (r_description rule)
  | None => "Default"
  end.

Lemma evaluate_gated e request :
  let rules_say := sr_decision (simulate (ev_store e) request) in
  evaluate e request =
    if is_enabled (ev_activation e) (decided_category (ev_store e) request) (Some (rule_label (ev_store e) request))
    then rules_say else set_action Block rules_say.
Proof.
  cbv zeta. unfold evaluate, apply_activation, rule_label, decided_category. rewrite simulate_first.
  unfold decision_for. by destruct (find_first _ _).
Qed.

(** Fail closed: whatever the rules say, a request whose category the activation profile does
    not enable is blocked; in particular everything is blocked under the deny-all profile used
    when no profile can be loaded. *)
Theorem disabled_category_blocks e request :
  (forall sub, is_enabled (ev_activation e)
     (default UNKNOWN_CATEGORY_ID (request_category (ev_store e) request)) (Some sub) = false) ->
  pd_action (evaluate e request) = Block /\ pd_action (sr_decision (ev_simulate e request)) = Block.
Proof.
  intros Hd. destruct (simulate_verdict (ev_store e) request) as (v & Hv & Hc).
  assert (apply_activation (ev_activation e) (sr_decision (simulate (ev_store e) request)) =
          set_action Block (sr_decision (simulate (ev_store e) request))) as H
    by (apply (apply_activation_disabled _ _ v Hv); rewrite Hc; apply Hd).
  unfold evaluate, ev_simulate; cbn. by rewrite H.
Qed.

(** The activation gate only ever turns a decision into a block: the decision of the rule that
    matched is answered unchanged when its category and subcategory are enabled, and only the
    action differs otherwise. *)
Theorem activation_only_blocks e request :
  let rules_say := sr_decision (simulate (ev_store e) request) in
  evaluate e request = rules_say \/
  evaluate e request = set_action Block rules_say /\
  exists v, pd_verdict rules_say = Some v /\
    is_verdict_enabled e (cv_primary_category v) (cv_subcategory v) = false.
Proof.
  cbv zeta. unfold evaluate, apply_activation, is_verdict_enabled.
  destruct (simulate_verdict (ev_store e) request) as (v & -> & _).
  destruct (is_enabled _ _ _) eqn:E; [by left|right; eauto].
Qed.

Lemma install_unchanged ns s e s' : install ns s = (Err e, s') -> s' = s.
Proof. unfold install, set_store. by case_match; intros [= -> ->]. Qed.

Lemma db_op_inv {A} (m : DbM A) s a s' : db_op m s = (Ok a, s') -> s'.1 = s.1 /\ m s.2 = (Ok a, s'.2).
Proof. unfold db_op. destruct (m s.2). by intros [= -> <-]. Qed.

Lemma db_op_engine {A} (m : DbM A) s r s' : db_op m s = (r, s') -> s'.1 = s.1.
Proof. unfold db_op. destruct (m s.2). by intros [= <- <-]. Qed.

(** The store is the one before, or exactly what one load from the database answered, its rules
    canonical. *)
Definition keeps_or_installs (s s' : PolicyEvaluator T * Db) : Prop :=
  let t := ps_taxonomy (ev_store s.1) in
  ev_store s'.1 = ev_store s.1 \/
  exists (ns : PolicyStore T) db db' rules,
    load_from_db t db = (Ok (Some ns), db') /\ canonicalize_rules t (ps_rules ns) = Ok rules /\
    ev_store s'.1 = {| ps_rules := rules; ps_version := ps_version ns;
                       ps_policy_id := ps_policy_id ns; ps_taxonomy := t |}.

Lemma install_keeps ns db db' s r s' :
  load_from_db (ps_taxonomy (ev_store s.1)) db = (Ok (Some ns), db') ->
  install ns s = (r, s') -> keeps_or_installs s s'.
Proof.
  unfold install, set_store, update_from_rules, keeps_or_installs. intros Hl.
  destruct (canonicalize_rules _ (ps_rules ns)) as [rules|] eqn:E; cbn; intros [= <- <-]; [right|by left].
  by exists ns, db, db', rules.
Qed.

Lemma refresh_activation_store s r s' : refresh_activation s = (r, s') -> ev_store s'.1 = ev_store s.1.
Proof.
  unfold refresh_activation. destruct (refresh_from_db _ _) as [[? ?] ?]. by intros [= <- <-].
Qed.

Lemma evm_bind_inv {A B} (m : EvM A) (f : A -> EvM B) s r s' :
  (m ≫= f) s = (r, s') ->
  (exists e, m s = (Err e, s') /\ r = Err e) \/ exists a s1, m s = (Ok a, s1) /\ f a s1 = (r, s').
Proof.
  unfold mbind, evm_bind. destruct (m s) as [[a|e] s1]; [by eauto|]. intros [= <- <-]. eauto.
Qed.

Lemma keeps_or_installs_same s s1 s' :
  s1.1 = s.1 -> keeps_or_installs s1 s' -> keeps_or_installs s s'.
Proof. unfold keeps_or_installs. by intros ->. Qed.

Lemma install_or_seed_keeps loaded db db' seed s r s' :
  load_from_db (ps_taxonomy (ev_store s.1)) db = (Ok loaded, db') ->
  install_or_seed (ps_taxonomy (ev_store s.1)) loaded seed s = (r, s') -> keeps_or_installs s s'.
Proof.
  intros Hl. unfold install_or_seed. destruct loaded as [ns|]; [by eapply install_keeps|].
  destruct seed as [path|]; [|by intros [= <- <-]; left].
  intros [(e & H & _)|(doc & s1 & H1 & H)]%evm_bind_inv; [injection H as _ <-; by left|].
  injection H1 as _ <-.
  apply evm_bind_inv in H as [(e & H%db_op_engine & _)|(id & s2 & H2%db_op_engine & H)].
  { left. by rewrite H. }
  apply evm_bind_inv in H as [(e & H%db_op_engine & _)|(ns & s3 & H3 & H)].
  { left. by rewrite H, H2. }
  apply db_op_inv in H3 as (Heng & Hl3).
  apply (keeps_or_installs_same s s3); [congruence|].
  destruct ns as [ns|]; [|by injection H as _ <-; left].
  eapply install_keeps; [|done]. rewrite Heng, H2. exact Hl3.
Qed.

(** Reloading is all or nothing for the rules in force: whatever statement fails on the way,
    the store afterwards is the one before or a complete new one (rules, version and policy id of
    one policy, all canonical), never a mixture. *)
Theorem reload_all_or_nothing seed s r s' :
  ev_source s.1 = Database seed -> reload s = (r, s') -> keeps_or_installs s s'.
Proof.
  intros Hsrc. unfold reload. rewrite Hsrc. intros H.
  apply evm_bind_inv in H as [(e & H%db_op_engine & _)|(loaded & s1 & [He Hl]%db_op_inv & H)].
  { left. by rewrite H. }
  apply (keeps_or_installs_same s s1); [done|]. rewrite <- He in Hl, H.
  apply evm_bind_inv in H as [(e & H & _)|([] & s2 & H2 & H)]; [by eapply install_or_seed_keeps|].
  eapply install_or_seed_keeps in H2; [|done]. apply refresh_activation_store in H.
  unfold keeps_or_installs in *. by rewrite H.
Qed.

(** *** What the policies leave alone *)

(** A computation that changes neither the profiles nor their entries, nor makes statements fail. *)
Definition leaves_activation {A} (m : DbM A) : Prop :=
  forall db, let db' := (m db).2 in
    db_profiles db' = db_profiles db /\ db_entries db' = db_entries db /\ (healthy db -> healthy db').

Lemma leaves_ret {A} (a : A) : leaves_activation (mret a).
Proof. by intros db. Qed.
Lemma leaves_lift {A} (r : result string A) : leaves_activation (lift r).
Proof. by intros db. Qed.
Lemma leaves_bind {A B} (m : DbM A) (f : A -> DbM B) :
  leaves_activation m -> (forall a, leaves_activation (f a)) -> leaves_activation (m ≫= f).
Proof.
  intros Hm Hf db. unfold mbind, dbm_bind. specialize (Hm db). destruct (m db) as [[a|err] db1]; [|done].
  destruct Hm as (H1 & H2 & H3), (Hf a db1) as (K1 & K2 & K3). cbn in *. split_and!; [congruence..|by auto].
Qed.
Lemma leaves_stmt {A} (f : Db -> A * Db) :
  (forall db, let db' := (f db).2 in db_profiles db' = db_profiles db /\ db_entries db' = db_entries db /\ db_faults db' = db_faults db) ->
  leaves_activation (stmt f).
Proof.
  intros Hf db. unfold stmt. destruct (Hf (tick db)) as (H1 & H2 & H3). destruct (f (tick db)) as [a db1]. cbn in *.
  unfold healthy. rewrite <- H1, <- H2.
  destruct (db_faults db) as [|[] l] eqn:E; cbn in *; rewrite ?E, ?H3; split_and!; try done; by inversion 1.
Qed.
Lemma leaves_select {A} (f : Db -> A) : leaves_activation (select f).
Proof. by apply leaves_stmt. Qed.
Lemma leaves_execute (f : Db -> Db) :
  (forall db, db_profiles (f db) = db_profiles db /\ db_entries (f db) = db_entries db /\ db_faults (f db) = db_faults db) ->
  leaves_activation (execute f).
Proof. intros H. apply leaves_stmt, H. Qed.
Lemma leaves_each {A} (f : A -> DbM unit) l : (forall a, leaves_activation (f a)) -> leaves_activation (for_each f l).
Proof. intros H. induction l as [|a l IH]; cbn; [apply leaves_ret|apply leaves_bind; auto]. Qed.

Lemma load_leaves t : leaves_activation (load_from_db t).
Proof.
  apply leaves_bind; [apply leaves_select|]. intros [policy|]; [|apply leaves_ret].
  apply leaves_bind; [|intros latest; apply leaves_bind; [|intros rules; apply leaves_bind; [apply leaves_lift|intros; apply leaves_ret]]].
  - apply leaves_bind; [apply leaves_select|]. intros [row|]; [|apply leaves_ret].
    apply leaves_bind; [apply leaves_lift|intros; apply leaves_ret].
  - destruct (default [] latest); [|apply leaves_ret]. apply leaves_bind; [apply leaves_select|intros; apply leaves_lift].
Qed.
Lemma insert_leaves doc name by_ : leaves_activation (insert_policy_document doc name by_).
Proof.
  unfold insert_policy_document. apply leaves_bind; [by intros db|]. intros id.
  apply leaves_bind; [by apply leaves_execute|intros _]. apply leaves_bind; [|intros _].
  - apply leaves_each. intros a. by apply leaves_execute.
  - apply leaves_bind; [by apply leaves_execute|intros; apply leaves_ret].
Qed.

(** The engine holds the same profile, and its database the same ones. *)
Definition same_activation (s s' : PolicyEvaluator T * Db) : Prop :=
  ev_activation s'.1 = ev_activation s.1 /\ db_profiles s'.2 = db_profiles s.2 /\ db_entries s'.2 = db_entries s.2 /\
  (healthy s.2 -> healthy s'.2).
Lemma same_activation_trans s s1 s' : same_activation s s1 -> same_activation s1 s' -> same_activation s s'.
Proof. intros (H1 & H2 & H3 & H4) (K1 & K2 & K3 & K4). split_and!; [congruence..|by auto]. Qed.

Lemma db_op_activation {A} (m : DbM A) s r s' : leaves_activation m -> db_op m s = (r, s') -> same_activation s s'.
Proof. intros Hm. unfold db_op. specialize (Hm s.2). destruct (m s.2) as [r1 db']. by intros [= <- <-]. Qed.
Lemma install_activation ns s r s' : install ns s = (r, s') -> same_activation s s'.
Proof. unfold install, set_store. by case_match; intros [= <- <-]. Qed.

Lemma install_or_seed_activation t loaded seed s s' :
  install_or_seed t loaded seed s = (Ok tt, s') -> same_activation s s'.
Proof.
  unfold install_or_seed. destruct loaded as [ns|]; [apply install_activation|].
  destruct seed as [path|]; [|by intros [= <-]].
  intros [(e & _ & H)|(doc & s1 & H1 & H)]%evm_bind_inv; [done|]. injection H1 as _ <-.
  apply evm_bind_inv in H as [(e & _ & H)|(id & s2 & H2 & H)]; [done|].
  apply evm_bind_inv in H as [(e & _ & H)|(ns & s3 & H3 & H)]; [done|].
  apply db_op_activation in H2, H3; [|apply load_leaves|apply insert_leaves].
  eapply same_activation_trans; [exact H2|]. eapply same_activation_trans; [exact H3|].
  destruct ns as [ns|]; [by apply install_activation in H|by injection H as <-].
Qed.

(** A reload ends with a refresh of the profile it found. *)
Lemma reload_refreshes seed s s' :
  ev_source s.1 = Database seed -> reload s = (Ok tt, s') ->
  exists db r, same_activation s (s.1, db) /\
    (refresh_from_db (ev_activation s.1) db).1 = (Ok r, ev_activation s'.1).
Proof.
  intros Hsrc. unfold reload. rewrite Hsrc. intros H.
  apply evm_bind_inv in H as [(e & _ & H)|(loaded & s1 & H1 & H)]; [done|].
  apply evm_bind_inv in H as [(e & _ & H)|([] & s2 & H2 & H)]; [done|].
  apply db_op_activation in H1; [|apply load_leaves]. apply install_or_seed_activation in H2.
  pose proof (same_activation_trans _ _ _ H1 H2) as Hs. destruct Hs as (Ha & Hrest).
  unfold refresh_activation in H. rewrite Ha in H. destruct (refresh_from_db _ _) as [[[r|e] p] db'] eqn:E; [|done].
  injection H as <-. exists s2.2, r. rewrite E. split; [by split|done].
Qed.

End Evaluator.

(** ** Witnesses *)

Definition demo_activation : ActivationProfile := deny_all 0.
Definition demo_evaluator : PolicyEvaluator unit :=
  {| ev_store := {| ps_rules := [catch_all "allow-all" 1000 Allow]; ps_version := "v0";
                    ps_policy_id := None; ps_taxonomy := tt |};
     ev_source := Database (Some "policy.json"); ev_activation := demo_activation |}.

Lemma disabled_category_blocks_witness :
  let R := no_taxonomy in
  pd_action (evaluate demo_evaluator plain_request) = Block /\
  pd_action (sr_decision (ev_simulate demo_evaluator plain_request)) = Block.
Proof.
  intros R. apply (disabled_category_blocks (R := R) demo_evaluator plain_request).
  intros sub. apply deny_all_denies.
Defined.

Lemma reload_all_or_nothing_witness :
  let R := no_taxonomy in
  let J := DbDemo.json in
  exists r s', reload (fun _ => Ok unsorted_document) (demo_evaluator, DbDemo.empty) = (r, s') /\
    keeps_or_installs (demo_evaluator, DbDemo.empty) s'.
Proof.
  intros R J. destruct (reload (fun _ => Ok unsorted_document) (demo_evaluator, DbDemo.empty)) as [r s'] eqn:E.
  exists r, s'. split; [reflexivity|].
  apply (reload_all_or_nothing (R := R) (J := J) (fun _ => Ok unsorted_document) (Some "policy.json")
    (demo_evaluator, DbDemo.empty) r s').
  - reflexivity.
  - exact E.
Defined.

(** A subcategory the operator has disabled is still allowed when its category is enabled: the
    gate looks up the description of the rule (or the word Default), which is no subcategory. *)
Example subcategory_toggle_ignored :
  let R := no_taxonomy in
  let a := {| act_id := 1; act_version := "v1"; act_updated_at := 0;
              act_category_states := {[ "gambling" := true ]};
              act_subcategory_states := {[ "gambling" := {[ "casino" := false ]} ]};
              act_default_enabled := false |} in
  let e := {| ev_store := ev_store demo_evaluator; ev_source := ev_source demo_evaluator;
              ev_activation := a |} in
  is_verdict_enabled e "gambling" "casino" = false /\
  pd_action (evaluate e
    {| dr_normalized_key := "domain:example.com"; dr_entity_level := "domain";
       dr_source_ip := "192.0.2.10"; dr_user_id := None; dr_group_ids := None;
       dr_category_hint := Some "gambling"; dr_subcategory_hint := Some "casino";
       dr_risk_hint := None; dr_confidence_hint := None |}) = Allow.
Proof. split; vm_compute; reflexivity. Qed.
