(* ===== verification/AdminPolicies.v ===== *)
(** * Policies in the admin API

    [services/admin-api/src/policies.rs]: the handlers that create, change, publish and delete
    policies, with the validation of their rules.  The tables [policies], [policy_rules] and
    [policy_versions] are the ones the policy engine loads from; each change runs in a transaction,
    and after it commits the cached decisions are invalidated and the engine is told to reload.

    The taxonomy is reached through [CategoryResolver], as in the engine.  The own identifier of a
    row of [policy_rules] is read by no statement and left out. *)

From S2P Require Import Prelude RustStr RustNum Types Http Json Taxonomy Db PolicyStore Io Wp Texts Pagination.

Local Open Scope Z_scope.

Definition ROLE_POLICY_VIEW : list string := ["policy-admin"; "policy-editor"; "policy-viewer"].
Definition ROLE_POLICY_EDIT : list string := ["policy-admin"; "policy-editor"].
Definition ROLE_POLICY_PUBLISH : list string := ["policy-admin"].

Definition POLICY_STATUS_ACTIVE : string := "active".
Definition POLICY_STATUS_DRAFT : string := "draft".
Definition POLICY_STATUS_ARCHIVED : string := "archived".

(** ** Data *)

Record PolicyListParams := {
  lp_limit : option Z; lp_cursor : option string; lp_page : option Z; lp_page_size : option Z;
  lp_status : option string; lp_search : option string; lp_include_drafts : bool
}.
Record PolicySummary := {
  sm_id : Uuid; sm_name : string; sm_version : string; sm_status : string;
  sm_created_by : option string; sm_created_at : Z; sm_rule_count : Z
}.
(** The rules of the answer have the fields of a [PolicyRule]. *)
Record PolicyDetail := {
  de_id : Uuid; de_name : string; de_version : string; de_status : string;
  de_created_by : option string; de_created_at : Z; de_rule_count : Z; de_rules : list PolicyRule
}.
Record PolicyVersionSummary := {
  vs_id : Uuid; vs_policy_id : Uuid; vs_version : string; vs_status : string; vs_created_by : option string;
  vs_created_at : Z; vs_deployed_at : option Z; vs_notes : option string; vs_rule_count : Z
}.
Record PolicyRuntimeSnapshot := { rs_policy_id : option string; rs_version : string }.
Record PolicyRuntimeSyncStatus := {
  ss_control_plane : option PolicyRuntimeSnapshot; ss_runtime : PolicyRuntimeSnapshot;
  ss_in_sync : bool; ss_drift_reason : option string
}.
Record PolicyRulePayload := {
  rp_id : option string; rp_description : option string; rp_priority : Z; rp_action : string; rp_conditions : Conditions
}.
Record PolicyDraftRequest := {
  dq_name : string; dq_version : option string; dq_created_by : option string; dq_notes : option string;
  dq_rules : list PolicyRulePayload
}.
Record PolicyUpdateRequest := {
  uq_name : option string; uq_version : option string; uq_status : option string; uq_notes : option string;
  uq_rules : option (list PolicyRulePayload)
}.
Record PolicyPublishRequest := { pq_version : option string; pq_notes : option string }.
Record PolicyValidationResponse := { va_valid : bool; va_errors : list string }.

(** A row of [policy_versions]: what the engine reads, and the rest. *)
Record VersionRecord `{SerdeJson} := { vr_id : Uuid; vr_row : VersionRow; vr_deployed_at : option Z }.
Record PolicyTables `{SerdeJson} := {
  pt_policies : list PolicyRow; pt_rules : list RuleRow; pt_versions : list VersionRecord
}.

(** What other parts of the system see. *)
Inductive EventPayload :=
  | DetailPayload (detail : PolicyDetail)
  | DeletedPayload (name version status : string)
  | PropagationPayload (operation result : string) (error : option string).
Inductive PolicyEffect :=
  | InvalidatePolicyCache
  | ReloadEngine
  | PolicyEvent (action : string) (actor target_id : option string) (payload : EventPayload).

(** [jsonb_array_length]; [None] is the error for a value that is no array. *)
Class JsonArrays `{SerdeJson} := {
  array_length : Value -> option Z;
  array_length_rules rs : array_length (rules_to_value rs) = Some (Z.of_nat (length rs))
}.

(** ** Validation *)

Definition validation_error (message : string) : HttpError :=
  {| he_status := BAD_REQUEST; he_code := "VALIDATION_ERROR"; he_message := message |}.

Definition parse_action (value : string) : result HttpError PolicyAction :=
  let v := trim value in
  if decide (v ∈ ["Allow"; "allow"]) then Ok Allow
  else if decide (v ∈ ["Block"; "block"]) then Ok Block
  else if decide (v ∈ ["Warn"; "warn"]) then Ok Warn
  else if decide (v ∈ ["Monitor"; "monitor"]) then Ok Monitor
  else if decide (v ∈ ["Review"; "review"]) then Ok Review
  else if decide (v ∈ ["RequireApproval"; "requireapproval"; "require-approval"]) then Ok RequireApproval
  else if decide (v ∈ ["ContentPending"; "contentpending"; "content-pending"]) then Ok ContentPending
  else Err (validation_error "unsupported action value").

Definition is_valid_domain_label (label : string) : bool :=
  if is_empty label || starts_with "-" label || ends_with "-" label then false
  else str_forall (fun ch => is_ascii_alphanumeric ch || bool_decide (ch = "-"%char)) label.

Definition check_domain_pattern (domain : string) : result HttpError unit :=
  let candidate := to_ascii_lowercase (trim domain) in
  if is_empty candidate then Err (validation_error "domain conditions must not contain empty values")
  else if contains "://" candidate || contains "/" candidate then
    Err (validation_error "domain conditions must use host patterns only (no scheme/path)")
  else
    let stripped := default candidate (strip_prefix "*." candidate) in
    let labels := split_char "." stripped in
    if decide (length labels < 2)%nat then
      Err (validation_error "domain conditions must contain a valid host with at least one dot")
    else if any (fun label => is_empty label || negb (is_valid_domain_label label)) labels then
      Err (validation_error "domain conditions contain an invalid hostname label")
    else Ok tt.

Definition validate_domain_patterns (conditions : Conditions) : result HttpError unit :=
  match c_domains conditions with
  | None => Ok tt
  | Some domains => _ ← try_map check_domain_pattern domains; Ok tt
  end.

Definition normalize_policy_status (value : string) : result HttpError string :=
  let lowered := to_ascii_lowercase (trim value) in
  if decide (lowered ∈ [POLICY_STATUS_ACTIVE; POLICY_STATUS_DRAFT; POLICY_STATUS_ARCHIVED]) then Ok lowered
  else Err (validation_error "status must be active|draft|archived").

Definition active_policy_guard (message : string) : HttpError :=
  {| he_status := CONFLICT; he_code := "ACTIVE_POLICY_GUARD"; he_message := message |}.

Definition ensure_can_disable_status (existing_status next_status : string) : result HttpError unit :=
  if decide (existing_status = POLICY_STATUS_ACTIVE /\ next_status = POLICY_STATUS_ARCHIVED) then
    Err (active_policy_guard "active policy cannot be disabled directly; activate another policy first")
  else Ok tt.

Definition ensure_can_delete_status (status : string) : result HttpError unit :=
  if decide (status = POLICY_STATUS_ACTIVE) then
    Err (active_policy_guard "active policy cannot be deleted; activate another policy first")
  else Ok tt.

Section AdminPolicies.
  Context {T : Type} `{R : CategoryResolver T} `{J : SerdeJson} `{JA : !JsonArrays} `{X : Texts} `{TT : JsonText} `{B : Base64}.
  (** [state.taxonomy_store()], whether a cache is configured, [format("%Y%m%d%H%M%S")], and [LOWER] of the database. *)
  Context (taxonomy : T) (has_cache : bool) (timestamp : Z -> string) (sql_lower : string -> string).

Abbreviation PM := (M PolicyTables PolicyEffect).

Definition validate_rules_against_taxonomy (rules : list PolicyRule) : result HttpError unit :=
  _ ← try_map (fun rule =>
        match c_categories (r_conditions rule) with
        | None => Ok []
        | Some categories =>
            try_map (fun category =>
              match (resolve_category_id taxonomy category).2 with
              | Some MissingCategory | Some UnknownCategory =>
                  Err (validation_error ("rule '" +:+ r_id rule +:+ "' references invalid category '" +:+ category +:+ "'"))
              | _ => Ok tt
              end) categories
        end) rules;
  Ok tt.

(** The loop of [normalize_rules]: the priorities and ids seen, and the rules so far. *)
Fixpoint normalize_loop (rules : list PolicyRulePayload) (seen_priorities : list Z) (seen_ids : list string)
    (normalized : list PolicyRule) : PM HttpError (list PolicyRule) :=
  match rules with
  | [] => mret normalized
  | rule :: rules' =>
      if decide (rp_priority rule ∈ seen_priorities) then of_result (Err (validation_error "duplicate priorities are not allowed"))
      else
        action ← of_result (parse_action (rp_action rule));
        _ ← of_result (validate_domain_patterns (rp_conditions rule));
        id ← match rp_id rule with
             | Some id => mret id
             | None => u ← new_v4; mret (pretty u)
             end;
        let id := trim id in
        if is_empty id then of_result (Err (validation_error "rule id cannot be empty"))
        else if decide (id ∈ seen_ids) then of_result (Err (validation_error "duplicate rule ids are not allowed"))
        else
          normalize_loop rules' (rp_priority rule :: seen_priorities) (id :: seen_ids)
            (normalized ++ [{| r_id := id; r_description := rp_description rule; r_priority := rp_priority rule;
                               r_action := action; r_conditions := rp_conditions rule |}])
  end.

Definition normalize_rules (rules : list PolicyRulePayload) : PM HttpError (list PolicyRule) :=
  match rules with
  | [] => of_result (Err (validation_error "at least one rule required"))
  | _ => normalize_loop rules [] [] []
  end.

(** ** Statements *)

Definition map_db_error (err : string) : StatusCode := INTERNAL_SERVER_ERROR.
Definition map_db_error_tx (err : string) : HttpError :=
  {| he_status := INTERNAL_SERVER_ERROR; he_code := "DB_ERROR"; he_message := err |}.
Definition db_tx {A} (m : PM string A) : PM HttpError A := map_error map_db_error_tx m.

Definition set_policies (l : list PolicyRow) (t : PolicyTables) : PolicyTables :=
  {| pt_policies := l; pt_rules := pt_rules t; pt_versions := pt_versions t |}.
Definition set_rules (l : list RuleRow) (t : PolicyTables) : PolicyTables :=
  {| pt_policies := pt_policies t; pt_rules := l; pt_versions := pt_versions t |}.
Definition set_versions (l : list VersionRecord) (t : PolicyTables) : PolicyTables :=
  {| pt_policies := pt_policies t; pt_rules := pt_rules t; pt_versions := l |}.

(** [SELECT .. FROM policies WHERE id = $1]. *)
Definition find_policy (policy_id : Uuid) (t : PolicyTables) : option PolicyRow :=
  find_first (fun p => bool_decide (p_id p = policy_id)) (pt_policies t).
(** [SELECT .. FROM policy_versions WHERE policy_id = $1 ORDER BY created_at DESC]. *)
Definition versions_of (policy_id : Uuid) (t : PolicyTables) : list VersionRecord :=
  order_desc (fun v => v_created_at (vr_row v)) (List.filter (fun v => bool_decide (v_policy_id (vr_row v) = policy_id)) (pt_versions t)).
Definition rule_count (policy_id : Uuid) (t : PolicyTables) : Z :=
  Z.of_nat (length (List.filter (fun r => bool_decide (rr_policy_id r = policy_id)) (pt_rules t))).

Definition latest_rules (policy_id : Uuid) : PM string (list PolicyRule) :=
  row ← fetch (fun _ t => head (versions_of policy_id t));
  match row with
  | None => mret []
  | Some v => of_result (ok_or (rules_from_value (v_rules (vr_row v))) DB_ERROR)
  end.
Definition load_rules_from_versions (policy_id : Uuid) : PM string (list PolicyRule) := latest_rules policy_id.
Definition load_rules_from_latest_version (policy_id : Uuid) : PM string (list PolicyRule) := latest_rules policy_id.

Definition replace_policy_rules (policy_id : Uuid) (rules : list PolicyRule) : PM string unit :=
  _ ← update (fun _ t => set_rules (List.filter (fun r => negb (bool_decide (rr_policy_id r = policy_id))) (pt_rules t)) t);
  each (fun rule => update (fun _ t => set_rules (pt_rules t ++ [rule_row policy_id rule]) t)) rules.

Definition insert_policy_version (policy_id : Uuid) (version status : string) (created_by notes : option string)
    (deployed_at : option Z) (rules : list PolicyRule) : PM string unit :=
  id ← new_v4;
  update (fun now t => set_versions (pt_versions t ++
    [{| vr_id := id; vr_deployed_at := deployed_at;
        vr_row := {| v_policy_id := policy_id; v_version := version; v_status := status; v_created_by := created_by;
                     v_notes := notes; v_rules := rules_to_value rules; v_created_at := now |} |}]) t).

Definition fetch_policy_detail (policy_id : Uuid) : PM string (option PolicyDetail) :=
  row ← fetch (fun _ t => (fun p => (p, rule_count policy_id t)) <$> find_policy policy_id t);
  match row with
  | None => mret None
  | Some (p, count) =>
      rules ← load_rules_from_versions policy_id;
      mret (Some {| de_id := p_id p; de_name := p_name p; de_version := p_version p; de_status := p_status p;
                    de_created_by := p_created_by p; de_created_at := p_created_at p; de_rule_count := count; de_rules := rules |})
  end.

(** [UPDATE policies SET .. WHERE ..]. *)
Definition update_where (which : PolicyRow -> bool) (f : PolicyRow -> PolicyRow) (t : PolicyTables) : PolicyTables :=
  set_policies ((fun p => if which p then f p else p) <$> pt_policies t) t.
Definition has_policy_id (policy_id : Uuid) (p : PolicyRow) : bool := bool_decide (p_id p = policy_id).
Definition set_details (name version status : string) (p : PolicyRow) : PolicyRow :=
  {| p_id := p_id p; p_name := name; p_version := version; p_status := status; p_created_by := p_created_by p;
     p_created_at := p_created_at p |}.

(** [DELETE FROM policies WHERE id = $1]; the rules and versions go with it. *)
Definition delete_rows (policy_id : Uuid) (t : PolicyTables) : PolicyTables :=
  {| pt_policies := List.filter (fun p => negb (has_policy_id policy_id p)) (pt_policies t);
     pt_rules := List.filter (fun r => negb (bool_decide (rr_policy_id r = policy_id))) (pt_rules t);
     pt_versions := List.filter (fun v => negb (bool_decide (v_policy_id (vr_row v) = policy_id))) (pt_versions t) |}.

(** ** After a change *)

Definition log_policy_event {E} (action : string) (actor target_id : option string) (payload : EventPayload) : PM E unit :=
  emit (PolicyEvent action actor target_id payload).
Definition invalidate_policy_cache {E} : PM E unit :=
  if has_cache then dropped (command InvalidatePolicyCache) else mret tt.
Definition trigger_policy_reload : PM string unit := command ReloadEngine.

Definition propagate_policy_runtime_change (actor : option string) (policy_id : Uuid) (operation : string) : PM HttpError unit :=
  _ ← invalidate_policy_cache;
  reloaded ← outcome trigger_policy_reload;
  match reloaded with
  | Err err =>
      _ ← log_policy_event "policy.propagate_runtime_change" actor (Some (pretty policy_id))
            (PropagationPayload operation "failed" (Some err));
      of_result (Err {| he_status := BAD_GATEWAY; he_code := "POLICY_RELOAD_FAILED";
        he_message := "policy persisted, cache invalidated, but policy-engine reload failed; run /api/v1/policies/reload" |})
  | Ok _ =>
      log_policy_event "policy.propagate_runtime_change" actor (Some (pretty policy_id)) (PropagationPayload operation "ok" None)
  end.

(** ** Handlers that read *)

Definition apply_filters (params : PolicyListParams) (p : PolicyRow) : bool :=
  match lp_status params with
  | Some status => bool_decide (p_status p = status)
  | None => lp_include_drafts params || negb (bool_decide (p_status p = "draft"))
  end &&
  match lp_search params with
  | None => true
  | Some search =>
      let pattern := "%" +:+ to_ascii_lowercase search +:+ "%" in
      like pattern (sql_lower (p_name p)) || like pattern (sql_lower (p_version p)) ||
      bool_decide (pretty (p_id p) = trim search)
  end.

Definition policy_key (s : PolicySummary) : Z * Uuid := (sm_created_at s, sm_id s).
Definition summary (t : PolicyTables) (p : PolicyRow) : PolicySummary :=
  {| sm_id := p_id p; sm_name := p_name p; sm_version := p_version p; sm_status := p_status p;
     sm_created_by := p_created_by p; sm_created_at := p_created_at p; sm_rule_count := rule_count (p_id p) t |}.
Definition summaries (params : PolicyListParams) (t : PolicyTables) : list PolicySummary :=
  summary t <$> List.filter (apply_filters params) (pt_policies t).

(** [(legacy_page - 1) * limit] is a product of [u32]. *)
Definition legacy_offset (params : PolicyListParams) (limit : Z) : Z :=
  let legacy_page := Z.max (default 1 (lp_page params)) 1 in
  match lp_cursor params with
  | None => if decide (1 < legacy_page) then as_u32 ((legacy_page - 1) * limit) else 0
  | Some _ => 0
  end.

Definition never_unbounded (_ : Z * Uuid) : bool := false.
Definition list_policies (user : UserContext) (params : PolicyListParams) : PM StatusCode (CursorPaged PolicySummary) :=
  if require_roles user ROLE_POLICY_VIEW then
    let limit := cursor_limit (match lp_limit params with Some l => Some l | None => lp_page_size params end) in
    position ← of_result (map_err (fun _ => BAD_REQUEST) (decode_position (lp_cursor params)));
    rows ← map_error map_db_error (fetch (fun _ t =>
      rows_from policy_key newest never_unbounded (Z.to_nat (legacy_offset params limit)) position limit (summaries params t)));
    mret (paged policy_key (lp_cursor params) position.1 limit rows)
  else of_result (Err FORBIDDEN).

Definition get_policy (user : UserContext) (policy_id : Uuid) : PM StatusCode PolicyDetail :=
  if require_roles user ROLE_POLICY_VIEW then
    detail ← map_error map_db_error (fetch_policy_detail policy_id);
    of_result (ok_or detail NOT_FOUND)
  else of_result (Err FORBIDDEN).

Definition version_summary (v : VersionRecord) : option PolicyVersionSummary :=
  let r := vr_row v in
  count ← array_length (v_rules r);
  Some {| vs_id := vr_id v; vs_policy_id := v_policy_id r; vs_version := v_version r; vs_status := v_status r;
          vs_created_by := v_created_by r; vs_created_at := v_created_at r; vs_deployed_at := vr_deployed_at v;
          vs_notes := v_notes r; vs_rule_count := count |}.
Definition list_policy_versions (user : UserContext) (policy_id : Uuid) : PM StatusCode (list PolicyVersionSummary) :=
  if require_roles user ROLE_POLICY_VIEW then
    found ← map_error map_db_error (fetch (fun _ t => mapM version_summary (versions_of policy_id t)));
    of_result (ok_or found INTERNAL_SERVER_ERROR)
  else of_result (Err FORBIDDEN).

Definition forbidden_error : HttpError :=
  {| he_status := FORBIDDEN; he_code := "FORBIDDEN"; he_message := "insufficient privileges" |}.

(** [{:?}] of a [str]; characters beyond ASCII are printable. *)
Definition hex_digit (n : N) : string := String (ascii_of_N (if (n <? 10)%N then 48 + n else 87 + n)) "".
Definition hex_byte (n : N) : string := if (n <? 16)%N then hex_digit n else hex_digit (n / 16) +:+ hex_digit (n mod 16).
Definition debug_char (c : ascii) : string :=
  let n := N_of_ascii c in
  let quoted (s : string) : string := String (byte 92) s in
  if (n =? 0)%N then quoted "0" else if (n =? 9)%N then quoted "t" else if (n =? 10)%N then quoted "n"
  else if (n =? 13)%N then quoted "r" else if (n =? 34)%N || (n =? 92)%N then quoted (String c "")
  else if (n <? 32)%N || (n =? 127)%N then quoted ("u{" +:+ hex_byte n +:+ "}")
  else String c "".
Fixpoint debug_chars (s : string) : string :=
  match s with "" => "" | String c s' => debug_char c +:+ debug_chars s' end.
Definition debug_str (s : string) : string := String (byte 34) (debug_chars s +:+ String (byte 34) "").
Definition debug_opt (o : option string) : string :=
  match o with Some s => "Some(" +:+ debug_str s +:+ ")" | None => "None" end.
Definition drift_reason (control runtime : PolicyRuntimeSnapshot) : string :=
  "control-plane id/version (" +:+ debug_opt (rs_policy_id control) +:+ "/" +:+ rs_version control +:+
  ") differs from runtime (" +:+ debug_opt (rs_policy_id runtime) +:+ "/" +:+ rs_version runtime +:+ ")".

(** [runtime]: what the engine answers when it is asked. *)
Definition policy_runtime_sync (runtime : result string PolicyRuntimeSnapshot) (user : UserContext)
    : PM HttpError PolicyRuntimeSyncStatus :=
  if require_roles user ROLE_POLICY_VIEW then
    active ← db_tx (fetch (fun _ t =>
      (fun p => {| rs_policy_id := Some (pretty (p_id p)); rs_version := p_version p |}) <$>
      head (order_desc p_created_at (List.filter (fun p => bool_decide (p_status p = POLICY_STATUS_ACTIVE)) (pt_policies t)))));
    runtime_snapshot ← of_result (map_err (fun err =>
      {| he_status := BAD_GATEWAY; he_code := "POLICY_RUNTIME_UNAVAILABLE";
         he_message := "failed to fetch policy-engine runtime: " +:+ err |}) runtime);
    let '(in_sync, reason) :=
      match active with
      | None => (false, Some "no active control-plane policy")
      | Some control =>
          if decide (rs_policy_id control = rs_policy_id runtime_snapshot /\ rs_version control = rs_version runtime_snapshot)
          then (true, None) else (false, Some (drift_reason control runtime_snapshot))
      end in
    mret {| ss_control_plane := active; ss_runtime := runtime_snapshot; ss_in_sync := in_sync; ss_drift_reason := reason |}
  else of_result (Err forbidden_error).

Definition validate_policy (user : UserContext) (payload : PolicyDraftRequest) : PM StatusCode PolicyValidationResponse :=
  if require_roles user ROLE_POLICY_EDIT then
    checked ← outcome (rules ← normalize_rules (dq_rules payload);
                       _ ← of_result (validate_rules_against_taxonomy rules); mret rules);
    match checked with
    | Ok _ => mret {| va_valid := true; va_errors := [] |}
    | Err e =>
        match he_status e with
        | BAD_REQUEST => mret {| va_valid := false; va_errors := [he_message e] |}
        | status => of_result (Err status)
        end
    end
  else of_result (Err FORBIDDEN).

(** ** Handlers that change policies *)

Definition policy_not_found : HttpError := {| he_status := NOT_FOUND; he_code := "NOT_FOUND"; he_message := "policy not found" |}.

Definition detail_or_not_found (policy_id : Uuid) : PM HttpError PolicyDetail :=
  detail ← db_tx (fetch_policy_detail policy_id);
  of_result (ok_or detail policy_not_found).

(** The rows of a new policy. *)
Definition create_rows (name version : string) (created_by notes : option string) (rules : list PolicyRule) : PM HttpError Uuid :=
  policy_id ← new_v4;
  _ ← db_tx (update (fun now t => set_policies (pt_policies t ++
        [{| p_id := policy_id; p_name := name; p_version := version; p_status := POLICY_STATUS_DRAFT;
            p_created_by := created_by; p_created_at := now |}]) t));
  _ ← db_tx (replace_policy_rules policy_id rules);
  _ ← db_tx (insert_policy_version policy_id version POLICY_STATUS_DRAFT created_by notes None rules);
  mret policy_id.

Definition create_policy (user : UserContext) (payload : PolicyDraftRequest) : PM HttpError PolicyDetail :=
  if require_roles user ROLE_POLICY_EDIT then
    let created_by := Some (default (uc_actor user) (dq_created_by payload)) in
    rules ← normalize_rules (dq_rules payload);
    _ ← of_result (validate_rules_against_taxonomy rules);
    now ← utc_now;
    let version := default ("draft-" +:+ timestamp now) (dq_version payload) in
    policy_id ← atomic map_db_error_tx (create_rows (dq_name payload) version created_by (dq_notes payload) rules);
    detail ← detail_or_not_found policy_id;
    _ ← log_policy_event "policy.create" created_by (Some (pretty policy_id)) (DetailPayload detail);
    _ ← propagate_policy_runtime_change (Some (uc_actor user)) policy_id "create";
    mret detail
  else of_result (Err forbidden_error).

(** The status an update asks for. *)
Definition next_status (existing_status : string) (requested : option string) : result HttpError string :=
  match requested with
  | None => Ok existing_status
  | Some value =>
      status ← normalize_policy_status value;
      if decide (status = POLICY_STATUS_ACTIVE) then
        Err (validation_error "setting status=active via update is not allowed; use publish endpoint")
      else
        _ ← ensure_can_disable_status existing_status status;
        Ok status
  end.

Definition update_rows (user : UserContext) (policy_id : Uuid) (payload : PolicyUpdateRequest) : PM HttpError unit :=
  found ← db_tx (fetch (fun _ t => find_policy policy_id t));
  existing ← of_result (ok_or found policy_not_found);
  let name := default (p_name existing) (trim <$> uq_name payload) in
  let version := default (p_version existing) (trim <$> uq_version payload) in
  status ← of_result (next_status (p_status existing) (uq_status payload));
  _ ← db_tx (update (fun _ => update_where (has_policy_id policy_id) (set_details name version status)));
  rules ← match uq_rules payload with
          | Some rules =>
              normalized ← normalize_rules rules;
              _ ← of_result (validate_rules_against_taxonomy normalized);
              _ ← db_tx (replace_policy_rules policy_id normalized);
              mret normalized
          | None => db_tx (load_rules_from_latest_version policy_id)
          end;
  db_tx (insert_policy_version policy_id version status (Some (uc_actor user)) (uq_notes payload) None rules).

Definition update_policy (user : UserContext) (policy_id : Uuid) (payload : PolicyUpdateRequest) : PM HttpError PolicyDetail :=
  if require_roles user ROLE_POLICY_EDIT then
    _ ← atomic map_db_error_tx (update_rows user policy_id payload);
    detail ← detail_or_not_found policy_id;
    _ ← log_policy_event "policy.update" (Some (uc_actor user)) (Some (pretty policy_id)) (DetailPayload detail);
    _ ← propagate_policy_runtime_change (Some (uc_actor user)) policy_id "update";
    mret detail
  else of_result (Err forbidden_error).

Definition publish_rows (user : UserContext) (policy_id : Uuid) (payload : PolicyPublishRequest) : PM HttpError unit :=
  found ← db_tx (fetch (fun _ t => find_policy policy_id t));
  _ ← of_result (ok_or found policy_not_found);
  _ ← db_tx (update (fun _ => update_where
        (fun p => bool_decide (p_status p = POLICY_STATUS_ACTIVE) && negb (has_policy_id policy_id p))
        (fun p => set_details (p_name p) (p_version p) POLICY_STATUS_ARCHIVED p)));
  now ← utc_now;
  let new_version := default ("release-" +:+ timestamp now) (pq_version payload) in
  _ ← db_tx (update (fun _ => update_where (has_policy_id policy_id)
        (fun p => set_details (p_name p) new_version POLICY_STATUS_ACTIVE p)));
  rules ← db_tx (load_rules_from_latest_version policy_id);
  deployed_at ← utc_now;
  db_tx (insert_policy_version policy_id new_version POLICY_STATUS_ACTIVE (Some (uc_actor user)) (pq_notes payload)
           (Some deployed_at) rules).

Definition publish_policy (user : UserContext) (policy_id : Uuid) (payload : PolicyPublishRequest) : PM HttpError PolicyDetail :=
  if require_roles user ROLE_POLICY_PUBLISH then
    _ ← atomic map_db_error_tx (publish_rows user policy_id payload);
    detail ← detail_or_not_found policy_id;
    _ ← log_policy_event "policy.publish" (Some (uc_actor user)) (Some (pretty policy_id)) (DetailPayload detail);
    _ ← propagate_policy_runtime_change (Some (uc_actor user)) policy_id "publish";
    mret detail
  else of_result (Err forbidden_error).

Definition delete_policy_rows (policy_id : Uuid) : PM HttpError PolicyRow :=
  found ← db_tx (fetch (fun _ t => find_policy policy_id t));
  row ← of_result (ok_or found policy_not_found);
  _ ← of_result (ensure_can_delete_status (p_status row));
  _ ← db_tx (update (fun _ => delete_rows policy_id));
  mret row.

Definition delete_policy (user : UserContext) (policy_id : Uuid) : PM HttpError unit :=
  if require_roles user ROLE_POLICY_PUBLISH then
    row ← atomic map_db_error_tx (delete_policy_rows policy_id);
    _ ← log_policy_event "policy.delete" (Some (uc_actor user)) (Some (pretty policy_id))
          (DeletedPayload (p_name row) (p_version row) (p_status row));
    propagate_policy_runtime_change (Some (uc_actor user)) policy_id "delete"
  else of_result (Err forbidden_error).

End AdminPolicies.
