(* ===== verification/PolicyLifecycle.v ===== *)
(** * The life of policies

    What the admin API promises of its policies, as a machine on a map of policies ([control_step]),
    and that the handlers of [AdminPolicies.v] implement it on the three tables: whatever is
    requested and whichever statement fails, the tables describe a map that moved along the machine,
    or did not move.  The invariants that follow: one active policy at most, and rules the engine
    can load.

    Then the engine: what it loads from the tables after a policy was published is that policy. *)

From S2P Require Import Prelude RustStr RustNum Types Http Json Taxonomy Db Activation PolicyStore Evaluator Io Wp Texts Pagination AdminPolicies.

Local Open Scope Z_scope.

(** ** The specification *)

Record APolicy := { a_name : string; a_version : string; a_status : string; a_rules : list PolicyRule }.
Abbreviation Control := (gmap Uuid APolicy).

Definition with_status (version status : string) (p : APolicy) : APolicy :=
  {| a_name := a_name p; a_version := version; a_status := status; a_rules := a_rules p |}.
Definition archived (p : APolicy) : APolicy :=
  if decide (a_status p = POLICY_STATUS_ACTIVE) then with_status (a_version p) POLICY_STATUS_ARCHIVED p else p.

Section Spec.
  Context {T : Type} `{R : CategoryResolver T} (taxonomy : T).

(** Rules that may be stored: the engine can load them, and they can be told apart. *)
Record acceptable (rules : list PolicyRule) : Prop := {
  acc_some : rules <> [];
  acc_priorities : NoDup (r_priority <$> rules);
  acc_ids : NoDup (r_id <$> rules);
  acc_named : Forall (fun r => r_id r <> "" /\ trim (r_id r) = r_id r) rules;
  acc_domains : Forall (fun r => validate_domain_patterns (r_conditions r) = Ok tt) rules;
  acc_categories : validate_rules_against_taxonomy taxonomy rules = Ok tt
}.

Inductive control_step (user : UserContext) (m : Control) : Control -> Prop :=
  | control_create id name version rules :
      require_roles user ROLE_POLICY_EDIT = true -> m !! id = None -> acceptable rules ->
      control_step user m (<[id := {| a_name := name; a_version := version; a_status := POLICY_STATUS_DRAFT; a_rules := rules |}]> m)
  | control_update id p name version status rules :
      require_roles user ROLE_POLICY_EDIT = true -> m !! id = Some p ->
      (status = a_status p \/ status = POLICY_STATUS_DRAFT \/
       status = POLICY_STATUS_ARCHIVED /\ a_status p <> POLICY_STATUS_ACTIVE) ->
      (rules = a_rules p \/ acceptable rules) ->
      control_step user m (<[id := {| a_name := name; a_version := version; a_status := status; a_rules := rules |}]> m)
  | control_publish id p version :
      require_roles user ROLE_POLICY_PUBLISH = true -> m !! id = Some p ->
      control_step user m (<[id := with_status version POLICY_STATUS_ACTIVE p]> (archived <$> m))
  | control_delete id p :
      require_roles user ROLE_POLICY_PUBLISH = true -> m !! id = Some p -> a_status p <> POLICY_STATUS_ACTIVE ->
      control_step user m (delete id m).

(** *** What the machine keeps *)

Definition is_active (m : Control) (id : Uuid) : Prop := exists p, m !! id = Some p /\ a_status p = POLICY_STATUS_ACTIVE.
Global Instance is_active_dec m id : Decision (is_active m id).
Proof.
  unfold is_active. destruct (m !! id) as [p|]; [|right; naive_solver].
  destruct (decide (a_status p = POLICY_STATUS_ACTIVE)); [left; eauto|right; naive_solver].
Defined.
Record control_ok (m : Control) : Prop := {
  co_one_active i j : is_active m i -> is_active m j -> i = j;
  co_rules i p : m !! i = Some p -> acceptable (a_rules p)
}.

Lemma archived_not_active p : a_status (archived p) <> POLICY_STATUS_ACTIVE.
Proof. unfold archived. by case_decide. Qed.
Lemma archived_rules p : a_rules (archived p) = a_rules p.
Proof. unfold archived. by case_decide. Qed.

Lemma control_step_ok user m m' : control_step user m m' -> control_ok m -> control_ok m'.
Proof.
  intros Hs [H1 H2]. split.
  - intros i j (p & Hi & Hp) (q & Hj & Hq).
    destruct Hs as [id name version rules _ Hn _|id p0 name version status rules _ Hl Hst _|id p0 version _ Hl|id p0 _ Hl Hn].
    + apply lookup_insert_Some in Hi as [[_ <-]|[_ Hi]]; [done|]. apply lookup_insert_Some in Hj as [[_ <-]|[_ Hj]]; [done|].
      apply H1; red; eauto.
    + assert (forall k r, <[id:={| a_name := name; a_version := version; a_status := status; a_rules := rules |}]> m !! k = Some r ->
        a_status r = POLICY_STATUS_ACTIVE -> is_active m k) as H; [|apply H1; eauto].
      intros k r [[-> <-]|[_ Hk]]%lookup_insert_Some Hr; [|red; eauto]. cbn in Hr. exists p0. split; [done|]. destruct Hst as [<-|[->|[-> _]]]; done.
    + assert (forall k r, <[id:=with_status version POLICY_STATUS_ACTIVE p0]> (archived <$> m) !! k = Some r ->
        a_status r = POLICY_STATUS_ACTIVE -> k = id) as H; [|by rewrite (H i p), (H j q)].
      intros k r [[-> _]|[_ Hk]]%lookup_insert_Some Hr; [done|]. rewrite lookup_fmap in Hk. destruct (m !! k) as [s|]; [|done].
      injection Hk as <-. by apply archived_not_active in Hr.
    + apply lookup_delete_Some in Hi as [_ Hi]. apply lookup_delete_Some in Hj as [_ Hj]. apply H1; red; eauto.
  - intros i p Hi.
    destruct Hs as [id name version rules _ _ Ha|id p0 name version status rules _ Hl _ Ha|id p0 version _ Hl|id p0 _ Hl Hn].
    + apply lookup_insert_Some in Hi as [[_ <-]|[_ Hi]]; [done|eauto].
    + apply lookup_insert_Some in Hi as [[_ <-]|[_ Hi]]; [|eauto]. destruct Ha as [->|Ha]; [exact (H2 _ _ Hl)|done].
    + apply lookup_insert_Some in Hi as [[_ <-]|[_ Hi]]; [exact (H2 _ _ Hl)|]. rewrite lookup_fmap in Hi.
      destruct (m !! i) as [s|] eqn:E; [|done]. injection Hi as <-. rewrite archived_rules. by eapply H2.
    + apply lookup_delete_Some in Hi as [_ Hi]. eauto.
Qed.

(** Only publishing makes a policy active. *)
Lemma control_step_activates user m m' id :
  control_step user m m' -> is_active m' id -> ~ is_active m id -> require_roles user ROLE_POLICY_PUBLISH = true.
Proof.
  intros Hs (p & Hi & Hp) Hn. destruct Hs as [i name version rules _ _ _|i p0 name version status rules _ Hl Hst _|i p0 v Hr _|i p0 Hr _ _];
    [| |exact Hr..]; apply lookup_insert_Some in Hi as [[-> <-]|[_ Hi]]; [done|by destruct Hn; red; eauto| |by destruct Hn; red; eauto].
  destruct Hn. exists p0. split; [done|]. cbn in Hp. destruct Hst as [<-|[->|[-> _]]]; done.
Qed.

End Spec.

(** ** What the tables describe *)

Ltac wps := repeat first [wp1|lazymatch goal with |- wp (db_tx _) _ _ _ => apply wp_map_error end].

Section Refinement.
  Context {T : Type} `{R : CategoryResolver T} `{J : SerdeJson} `{JA : !JsonArrays} `{X : Texts} `{TT : JsonText} `{B : Base64}.
  Context (taxonomy : T).
  Abbreviation PM := (M PolicyTables PolicyEffect).
  Abbreviation World := (Io PolicyTables PolicyEffect).
  Abbreviation acceptable := (acceptable taxonomy).

(** The rules of the latest version. *)
Definition current (t : PolicyTables) (id : Uuid) : list PolicyRule :=
  match head (versions_of id t) with
  | Some v => default [] (rules_from_value (v_rules (vr_row v)))
  | None => []
  end.
Definition abs (t : PolicyTables) (p : PolicyRow) : APolicy :=
  {| a_name := p_name p; a_version := p_version p; a_status := p_status p; a_rules := current t (p_id p) |}.
Definition control (t : PolicyTables) : Control := list_to_map ((fun p => (p_id p, abs t p)) <$> pt_policies t).

Definition rows_of (id : Uuid) (rows : list RuleRow) : list RuleRow := List.filter (fun r => bool_decide (rr_policy_id r = id)) rows.

Record tables_ok (now : Z) (next : Uuid) (t : PolicyTables) : Prop := {
  ok_ids : NoDup (p_id <$> pt_policies t);
  ok_fresh p : p ∈ pt_policies t -> (p_id p < next)%nat;
  ok_versions v : v ∈ pt_versions t -> (v_policy_id (vr_row v) < next)%nat /\ v_created_at (vr_row v) <= now;
  ok_rule_rows r : r ∈ pt_rules t -> (rr_policy_id r < next)%nat;
  (** The latest version has the policy's version, and the rules of the other table. *)
  ok_current p : p ∈ pt_policies t -> exists v rules, head (versions_of (p_id p) t) = Some v /\
    v_version (vr_row v) = p_version p /\ v_rules (vr_row v) = rules_to_value rules /\ acceptable rules /\
    rows_of (p_id p) (pt_rules t) = rule_row (p_id p) <$> rules
}.

Lemma tables_ok_mono now now' next next' t :
  now <= now' -> (next <= next')%nat -> tables_ok now next t -> tables_ok now' next' t.
Proof.
  intros Hn Hx [H1 H2 H3 H4 H5]. split; [done| | | |done].
  - intros p Hp. specialize (H2 p Hp). lia.
  - intros v Hv. destruct (H3 v Hv). split; lia.
  - intros r Hr. specialize (H4 r Hr). lia.
Qed.

Section Tables.
  Context (t : PolicyTables) (Hnd : NoDup (p_id <$> pt_policies t)).

Lemma control_lookup id a : control t !! id = Some a <-> exists p, p ∈ pt_policies t /\ p_id p = id /\ abs t p = a.
Proof.
  unfold control. rewrite <- elem_of_list_to_map.
  - rewrite list_elem_of_fmap. split; [intros (p & [= -> ->] & Hp); eauto|intros (p & Hp & <- & <-); eauto].
  - by rewrite <- list_fmap_compose.
Qed.
Lemma find_policy_Some id p : find_policy id t = Some p <-> p ∈ pt_policies t /\ p_id p = id.
Proof.
  unfold find_policy. split.
  - intros (l1 & l2 & E & Hp & _)%find_first_Some. apply bool_decide_eq_true in Hp. rewrite E. set_solver.
  - intros [Hp <-]. destruct (find_first _ _) as [q|] eqn:E.
    + apply find_first_Some in E as (l1 & l2 & E & Hq%bool_decide_eq_true & _).
      f_equal. apply (NoDup_fmap_unique p_id (pt_policies t)); [done|rewrite E; set_solver|done..].
    + apply find_first_None with (x := p) in E; [|done]. by apply bool_decide_eq_false in E.
Qed.
Lemma control_find id : control t !! id = abs t <$> find_policy id t.
Proof.
  apply option_eq. intros a. rewrite control_lookup. destruct (find_policy id t) as [q|] eqn:E.
  - apply find_policy_Some in E as [Hq <-]. cbn. split; [|intros [= <-]; eauto]. intros (p & Hp & Hid & <-).
    by rewrite (NoDup_fmap_unique p_id (pt_policies t) p q).
  - cbn. split; [|done]. intros (p & Hp & Hid & _). assert (find_policy id t = Some p) by by apply find_policy_Some. congruence.
Qed.

End Tables.

Lemma control_eq t (m : Control) :
  NoDup (p_id <$> pt_policies t) ->
  (forall id a, (exists p, p ∈ pt_policies t /\ p_id p = id /\ abs t p = a) <-> m !! id = Some a) -> control t = m.
Proof. intros Hnd H. apply map_eq. intros id. apply option_eq. intros a. rewrite <- H. by apply control_lookup. Qed.

(** *** A new version *)

Lemma versions_of_snoc id l v t :
  versions_of id (set_versions (pt_versions t ++ [v]) l) =
    if decide (v_policy_id (vr_row v) = id)
    then order_desc (fun v => v_created_at (vr_row v))
           (List.filter (fun v => bool_decide (v_policy_id (vr_row v) = id)) (pt_versions t) ++ [v])
    else versions_of id t.
Proof.
  unfold versions_of. cbn [pt_versions set_versions]. rewrite List.filter_app. cbn. case_decide as H.
  - by rewrite bool_decide_true.
  - rewrite bool_decide_false by done. by rewrite app_nil_r.
Qed.
Lemma versions_of_policies id l l' v t : versions_of id {| pt_policies := l; pt_rules := l'; pt_versions := v |} =
  versions_of id (set_versions v t).
Proof. done. Qed.

Section NewVersion.
  Context (now : Z) (next next' : Uuid) (t t' : PolicyTables) (id vid : Uuid) (row : VersionRow) (deployed_at : option Z)
    (rules : list PolicyRule) (Hok : tables_ok now next t) (Hnext : (next <= next')%nat).
  Context (Hv : pt_versions t' = pt_versions t ++ [{| vr_id := vid; vr_row := row; vr_deployed_at := deployed_at |}])
    (Hid : v_policy_id row = id) (Hnow : now < v_created_at row) (Hrules : v_rules row = rules_to_value rules).

Lemma newest_version : head (versions_of id t') = Some {| vr_id := vid; vr_row := row; vr_deployed_at := deployed_at |}.
Proof.
  destruct t'. cbn in Hv. subst. rewrite (versions_of_policies _ _ _ _ t), versions_of_snoc. rewrite decide_True by done.
  apply head_order_desc_snoc. apply Forall_forall. intros v Hin. apply list_elem_of_In, List.filter_In in Hin as [Hin _].
  apply list_elem_of_In in Hin. destruct (ok_versions _ _ _ Hok v Hin). cbn. lia.
Qed.
Lemma current_new : current t' id = rules.
Proof. unfold current. rewrite newest_version. cbn. by rewrite Hrules, rules_round_trip. Qed.
Lemma versions_of_other j : j <> id -> versions_of j t' = versions_of j t.
Proof.
  intros Hj. destruct t'. cbn in Hv. subst. rewrite (versions_of_policies _ _ _ _ t), versions_of_snoc.
  by rewrite decide_False by done.
Qed.
Lemma current_other j : j <> id -> current t' j = current t j.
Proof. intros Hj. unfold current. by rewrite versions_of_other. Qed.

Lemma new_version_ok stamp :
  v_created_at row = stamp -> (id < next')%nat -> NoDup (p_id <$> pt_policies t') -> acceptable rules ->
  (forall p, p ∈ pt_policies t' -> p_id p = id /\ p_version p = v_version row \/
     p_id p <> id /\ exists q, q ∈ pt_policies t /\ p_id q = p_id p /\ p_version q = p_version p) ->
  rows_of id (pt_rules t') = rule_row id <$> rules ->
  (forall j, j <> id -> rows_of j (pt_rules t') = rows_of j (pt_rules t)) ->
  tables_ok stamp next' t'.
Proof.
  intros <- Hi Hnd Hacc Hp Hr Hro. split; [done|..].
  - intros p [[-> _]|(_ & q & Hq & <- & _)]%Hp; [done|]. pose proof (ok_fresh _ _ _ Hok q Hq). lia.
  - intros v. rewrite Hv. intros [Hin| ->%list_elem_of_singleton]%elem_of_app; [|cbn; lia].
    destruct (ok_versions _ _ _ Hok v Hin). split; lia.
  - intros r Hin. destruct (decide (rr_policy_id r = id)) as [->|Hne]; [done|].
    assert (r ∈ rows_of (rr_policy_id r) (pt_rules t)) as Hin'.
    { rewrite <- Hro by done. apply list_elem_of_In, List.filter_In. rewrite bool_decide_eq_true. by rewrite <- list_elem_of_In. }
    apply list_elem_of_In, List.filter_In in Hin' as [Hin' _]. apply list_elem_of_In in Hin'. pose proof (ok_rule_rows _ _ _ Hok r Hin'). lia.
  - intros p [[-> Hver]|(Hne & q & Hq & Eq & Ev)]%Hp.
    + exists {| vr_id := vid; vr_row := row; vr_deployed_at := deployed_at |}, rules. by rewrite newest_version.
    + destruct (ok_current _ _ _ Hok q Hq) as (v & rs & H1 & H2 & H3 & H4 & H5). rewrite Eq in *. exists v, rs.
      rewrite versions_of_other, Hro by done. split_and!; [done|congruence|done..].
Qed.

End NewVersion.

(** ** Operations *)

Lemma replace_wp id rules (w : World) :
  wp (replace_policy_rules id rules)
    (fun _ w1 => later w w1 /\
       io_tables w1 = set_rules (List.filter (fun r => negb (bool_decide (rr_policy_id r = id))) (pt_rules (io_tables w)) ++
                                 (rule_row id <$> rules)) (io_tables w))
    (fun _ w1 => later w w1) w.
Proof.
  unfold replace_policy_rules. wp; [auto with later|].
  set (kept := List.filter _ _).
  eapply (wp_weaken _ (fun _ w1 => later w w1 /\ io_tables w1 = set_rules (kept ++ (rule_row id <$> rules)) (io_tables w))
    _ (fun _ w1 => later w w1)); [|done..].
  apply (wp_each _ (fun l w1 => later w w1 /\ io_tables w1 = set_rules (kept ++ (rule_row id <$> l)) (io_tables w))).
  - cbn. rewrite app_nil_r. split; [auto with later|done].
  - intros l1 x l2 w1 _ [Hl Ht]. wp.
    + trans w1; [done|auto with later].
    + split; [trans w1; [done|auto with later]|]. cbn. rewrite Ht. unfold set_rules. cbn. by rewrite fmap_app, <- app_assoc.
Qed.

Lemma latest_wp id (w : World) :
  wp (latest_rules id)
    (fun rules w1 => later w w1 /\ io_tables w1 = io_tables w /\ rules = current (io_tables w) id)
    (fun _ w1 => later w w1 /\ io_tables w1 = io_tables w) w.
Proof.
  unfold latest_rules, current. wp; [auto with later|]. destruct (head _) as [v|]; wp; [|auto with later..].
  intros rules ->%ok_or_Ok. auto with later.
Qed.

Lemma insert_version_wp id version status by_ notes deployed rules now (w : World) :
  io_tx w = Some now ->
  wp (insert_policy_version id version status by_ notes deployed rules)
    (fun _ w1 => later w w1 /\ exists vid, io_tables w1 = set_versions (pt_versions (io_tables w) ++
       [{| vr_id := vid; vr_deployed_at := deployed;
           vr_row := {| v_policy_id := id; v_version := version; v_status := status; v_created_by := by_; v_notes := notes;
                        v_rules := rules_to_value rules; v_created_at := now |} |}]) (io_tables w))
    (fun _ w1 => later w w1) w.
Proof.
  intros Htx. unfold insert_policy_version. wp; [trans (took_uuid w); auto with later|].
  split; [trans (took_uuid w); auto with later|]. cbn. unfold sql_now. cbn. rewrite Htx. cbn. eauto.
Qed.

(** *** Rules *)

(** What a run of the loop adds to the rules it began with. *)
Definition told_apart (rules : list PolicyRule) : Prop :=
  NoDup (r_priority <$> rules) /\ NoDup (r_id <$> rules) /\ Forall (fun r => r_id r <> "" /\ trim (r_id r) = r_id r) rules /\
  Forall (fun r => validate_domain_patterns (r_conditions r) = Ok tt) rules.

Lemma told_apart_snoc rules r :
  told_apart rules -> r_priority r ∉ (r_priority <$> rules) -> r_id r ∉ (r_id <$> rules) -> r_id r <> "" ->
  trim (r_id r) = r_id r -> validate_domain_patterns (r_conditions r) = Ok tt -> told_apart (rules ++ [r]).
Proof.
  intros (H1 & H2 & H3 & H4) Hp Hi He Ht Hd. unfold told_apart. rewrite !fmap_app. cbn. split_and!.
  - apply NoDup_app. split_and!; [done|set_solver|apply NoDup_singleton].
  - apply NoDup_app. split_and!; [done|set_solver|apply NoDup_singleton].
  - apply Forall_app. eauto.
  - apply Forall_app. eauto.
Qed.

Lemma parse_action_status v e : parse_action v = Err e -> he_status e = BAD_REQUEST.
Proof. unfold parse_action. repeat case_decide; try done. by intros [= <-]. Qed.
Lemma domain_pattern_status d e : check_domain_pattern d = Err e -> he_status e = BAD_REQUEST.
Proof. unfold check_domain_pattern. repeat case_match; try done; by intros [= <-]. Qed.
Lemma try_map_Err {F A C} (f : A -> result F C) l e : try_map f l = Err e -> exists x, x ∈ l /\ f x = Err e.
Proof.
  induction l as [|x l IH]; cbn; [done|]. destruct (f x) as [b|e'] eqn:E; cbn.
  - destruct (try_map f l); cbn; [done|]. intros [= ->]. destruct (IH eq_refl) as (y & Hy & ?). exists y. split; [by right|done].
  - intros [= ->]. exists x. split; [by left|done].
Qed.
Lemma domain_patterns_status c e : validate_domain_patterns c = Err e -> he_status e = BAD_REQUEST.
Proof.
  unfold validate_domain_patterns. destruct (c_domains c) as [l|]; [|done]. destruct (try_map _ l) eqn:E; cbn; [done|]. intros [= <-].
  apply try_map_Err in E as (d & _ & E). by eapply domain_pattern_status.
Qed.
Lemma taxonomy_status rules e : validate_rules_against_taxonomy taxonomy rules = Err e -> he_status e = BAD_REQUEST.
Proof.
  unfold validate_rules_against_taxonomy. destruct (try_map _ rules) eqn:E; cbn; [done|]. intros [= <-].
  apply try_map_Err in E as (r & _ & E). destruct (c_categories _) as [l|]; [|done]. apply try_map_Err in E as (c & _ & E).
  destruct (resolve_category_id taxonomy c).2 as [[]|]; try done; by injection E as <-.
Qed.

Lemma normalize_loop_wp rules ps ids acc (w : World) :
  told_apart acc -> (forall p, p ∈ ps <-> p ∈ (r_priority <$> acc)) -> (forall i, i ∈ ids <-> i ∈ (r_id <$> acc)) ->
  wp (normalize_loop rules ps ids acc)
    (fun rs w1 => later w w1 /\ io_tables w1 = io_tables w /\ told_apart rs /\ length rs = (length acc + length rules)%nat)
    (fun e w1 => later w w1 /\ io_tables w1 = io_tables w /\ he_status e = BAD_REQUEST) w.
Proof.
  revert ps ids acc w. induction rules as [|rule rules IH]; intros ps ids acc w Ha Hps Hids; cbn [normalize_loop].
  { wp. cbn. rewrite Nat.add_0_r. by split_and!. }
  case_decide as Hp; [wp; [done|]; by intros e [= <-]|].
  wp; [|intros e H; split_and!; [done..|by eapply parse_action_status]]. intros action _.
  wp; [|intros e H; split_and!; [done..|by eapply domain_patterns_status]]. intros [] Hd. wp.
  assert (forall id w1, later w w1 -> io_tables w1 = io_tables w ->
    wp (let id := trim id in
        if is_empty id then of_result (Err (validation_error "rule id cannot be empty"))
        else if decide (id ∈ ids) then of_result (Err (validation_error "duplicate rule ids are not allowed"))
        else normalize_loop rules (rp_priority rule :: ps) (id :: ids)
               (acc ++ [{| r_id := id; r_description := rp_description rule; r_priority := rp_priority rule;
                           r_action := action; r_conditions := rp_conditions rule |}]))
    (fun rs w1 => later w w1 /\ io_tables w1 = io_tables w /\ told_apart rs /\ length rs = (length acc + length (rule :: rules))%nat)
    (fun e w1 => later w w1 /\ io_tables w1 = io_tables w /\ he_status e = BAD_REQUEST) w1) as Hrest.
  { intros id w1 Hl Ht. cbv zeta. destruct (is_empty (trim id)) eqn:Ee; [wp; [done|]; by intros e [= <-]|].
    case_decide as Hi; [wp; [done|]; by intros e [= <-]|].
    eapply wp_weaken; [apply IH|..].
    - apply told_apart_snoc; cbn; [done|by rewrite <- Hps|by rewrite <- Hids|by intros E; rewrite E in Ee|apply trim_idem|done].
    - intros p. rewrite fmap_app, elem_of_cons, elem_of_app, Hps. set_solver.
    - intros i. rewrite fmap_app, elem_of_cons, elem_of_app, Hids. set_solver.
    - cbn. intros rs w2 (H1 & H2 & H3 & H4). split_and!; [by trans w1|congruence|done|]. rewrite H4, length_app. cbn. lia.
    - cbn. intros e w2 (H1 & H2 & H3). split_and!; [by trans w1|congruence|done]. }
  destruct (rp_id rule) as [id|]; [apply wp_ret|apply wp_bind, wp_v4, wp_ret].
  - exact (Hrest id w ltac:(reflexivity) eq_refl).
  - exact (Hrest _ _ (later_uuid w) eq_refl).
Qed.

Lemma normalize_wp rules (w : World) :
  wp (normalize_rules rules)
    (fun rs w1 => later w w1 /\ io_tables w1 = io_tables w /\
       (validate_rules_against_taxonomy taxonomy rs = Ok tt -> acceptable rs))
    (fun e w1 => later w w1 /\ io_tables w1 = io_tables w /\ he_status e = BAD_REQUEST) w.
Proof.
  unfold normalize_rules. destruct rules as [|rule rules]; [wp; [done|]; by intros e [= <-]|].
  eapply wp_weaken; [apply normalize_loop_wp; [repeat constructor|set_solver|set_solver]| |done].
  cbn. intros rs w1 (H1 & H2 & (H3 & H4 & H5 & H6) & H7). split_and!; [done..|]. intros Hc. split; try done. by destruct rs.
Qed.

(** *** The rows of each request *)

Lemma rows_of_app id l l' : rows_of id (l ++ l') = rows_of id l ++ rows_of id l'.
Proof. apply List.filter_app. Qed.
Lemma rows_of_new id rules : rows_of id (rule_row id <$> rules) = rule_row id <$> rules.
Proof. apply filter_all. intros r (x & -> & _)%list_elem_of_fmap. by apply bool_decide_eq_true. Qed.
Lemma rows_of_new_other id j rules : j <> id -> rows_of j (rule_row id <$> rules) = [].
Proof. intros Hj. apply filter_none. intros r (x & -> & _)%list_elem_of_fmap. apply bool_decide_eq_false. cbn. congruence. Qed.
Lemma filter_filter {A} (f g : A -> bool) l : List.filter f (List.filter g l) = List.filter (fun x => g x && f x) l.
Proof. induction l as [|x l IH]; [done|]. cbn. destruct (g x); cbn; [|done]. by destruct (f x); rewrite IH. Qed.
Lemma filter_same {A} (f g : A -> bool) l : (forall x, f x = g x) -> List.filter f l = List.filter g l.
Proof. intros H. induction l as [|x l IH]; [done|]. cbn. by rewrite H, IH. Qed.
Lemma rows_of_removed id l : rows_of id (List.filter (fun r => negb (bool_decide (rr_policy_id r = id))) l) = [].
Proof. unfold rows_of. rewrite filter_filter. apply filter_none. intros r _. by destruct (bool_decide _). Qed.
Lemma filter_kept {A} (f : A -> Uuid) id j l :
  j <> id -> List.filter (fun x => bool_decide (f x = j)) (List.filter (fun x => negb (bool_decide (f x = id))) l) =
    List.filter (fun x => bool_decide (f x = j)) l.
Proof. intros Hj. rewrite filter_filter. apply filter_same. intros x. repeat case_bool_decide; cbn; congruence. Qed.

Definition replaced (id : Uuid) (rules : list PolicyRule) (l : list RuleRow) : list RuleRow :=
  List.filter (fun r => negb (bool_decide (rr_policy_id r = id))) l ++ (rule_row id <$> rules).
Lemma rows_of_replaced id rules l : rows_of id (replaced id rules l) = rule_row id <$> rules.
Proof. unfold replaced. by rewrite rows_of_app, rows_of_removed, rows_of_new. Qed.
Lemma rows_of_replaced_other id j rules l : j <> id -> rows_of j (replaced id rules l) = rows_of j l.
Proof. intros Hj. unfold replaced. rewrite rows_of_app, rows_of_new_other, app_nil_r by done. by apply filter_kept. Qed.

Lemma find_policy_map (f : PolicyRow -> PolicyRow) l rules versions j t :
  (forall p, p_id (f p) = p_id p) -> l = f <$> pt_policies t ->
  find_policy j {| pt_policies := l; pt_rules := rules; pt_versions := versions |} = f <$> find_policy j t.
Proof.
  intros Hf ->. unfold find_policy. cbn. induction (pt_policies t) as [|p l IH]; [done|]. cbn. rewrite Hf. by case_bool_decide.
Qed.
Lemma ids_map (f : PolicyRow -> PolicyRow) (l : list PolicyRow) : (forall p, p_id (f p) = p_id p) -> p_id <$> (f <$> l) = p_id <$> l.
Proof. intros Hf. rewrite <- list_fmap_compose. apply list_fmap_ext. intros i p _. apply Hf. Qed.

Lemma current_ok now next t p :
  tables_ok now next t -> p ∈ pt_policies t ->
  acceptable (current t (p_id p)) /\ rows_of (p_id p) (pt_rules t) = rule_row (p_id p) <$> current t (p_id p).
Proof.
  intros Hok Hp. destruct (ok_current _ _ _ Hok p Hp) as (v & rs & H1 & _ & H2 & H3 & H4). unfold current. rewrite H1, H2, rules_round_trip. done.
Qed.

(** A version of a policy that is there, with the same rules or new ones. *)
Lemma revised_ok (f : PolicyRow -> PolicyRow) before now next next' t p vid version status by_ notes deployed rules rows :
  tables_ok before next t -> before < now -> (next <= next')%nat ->
  (forall q, p_id (f q) = p_id q) -> (forall q, p_id q <> p_id p -> p_version (f q) = p_version q) ->
  p_version (f p) = version -> p ∈ pt_policies t -> acceptable rules ->
  rows_of (p_id p) rows = rule_row (p_id p) <$> rules ->
  (forall j, j <> p_id p -> rows_of j rows = rows_of j (pt_rules t)) ->
  let t' := {| pt_policies := f <$> pt_policies t; pt_rules := rows;
    pt_versions := pt_versions t ++ [{| vr_id := vid; vr_deployed_at := deployed;
      vr_row := {| v_policy_id := p_id p; v_version := version; v_status := status; v_created_by := by_; v_notes := notes;
                   v_rules := rules_to_value rules; v_created_at := now |} |}] |} in
  tables_ok now next' t' /\
  forall j, control t' !! j = (fun q => {| a_name := p_name (f q); a_version := p_version (f q); a_status := p_status (f q);
    a_rules := if decide (j = p_id p) then rules else current t j |}) <$> find_policy j t.
Proof.
  intros Hok Hlt Hn Hid Hver Hpv Hp Hacc Hr Hro t'. pose proof (ok_ids _ _ _ Hok) as Hnd.
  assert (tables_ok now next' t') as Hok'.
  { eapply (new_version_ok before next next' t t' (p_id p)); [exact Hok|exact Hn|reflexivity|done|exact Hlt|reflexivity|done| | |done| |done|done].
    - pose proof (ok_fresh _ _ _ Hok p Hp). lia.
    - cbn. by rewrite ids_map.
    - intros q' (q & -> & Hq)%list_elem_of_fmap. rewrite Hid. destruct (decide (p_id q = p_id p)) as [E|E].
      + left. split; [done|]. by rewrite (NoDup_fmap_unique p_id (pt_policies t) q p).
      + right. split; [done|]. exists q. rewrite Hver by done. done. }
  split; [done|]. intros j. rewrite control_find by apply Hok'. unfold t' at 2.
  rewrite (find_policy_map f _ _ _ _ t) by done. rewrite <- option_fmap_compose. destruct (find_policy j t) as [q|] eqn:Ef; [|done].
  cbn. f_equal. unfold abs. rewrite Hid. apply find_policy_Some in Ef as [Hq <-]; [|done]. case_decide as E.
  - rewrite E. f_equal. eapply (current_new before next next' t t' (p_id p)); [done|lia|reflexivity|done..].
  - f_equal. by eapply (current_other t t' (p_id p)).
Qed.

Lemma find_policy_snoc l x rules versions j t :
  l = pt_policies t ++ [x] -> (forall p, p ∈ pt_policies t -> p_id p <> p_id x) ->
  find_policy j {| pt_policies := l; pt_rules := rules; pt_versions := versions |} =
    if decide (j = p_id x) then Some x else find_policy j t.
Proof.
  intros -> Hx. unfold find_policy. cbn. induction (pt_policies t) as [|y l IH]; cbn.
  - case_decide; case_bool_decide; congruence.
  - rewrite IH by (intros p Hp; apply Hx; by right). case_decide as E; [|done]. rewrite bool_decide_false; [done|]. rewrite E. apply Hx. by left.
Qed.

(** A new policy and its first version. *)
Lemma created_ok before now next next' t id name vid version by_ notes deployed rules :
  tables_ok before next t -> before < now -> (next <= id < next')%nat -> acceptable rules ->
  let t' := {| pt_policies := pt_policies t ++ [{| p_id := id; p_name := name; p_version := version; p_status := POLICY_STATUS_DRAFT;
                                                   p_created_by := by_; p_created_at := now |}];
    pt_rules := replaced id rules (pt_rules t);
    pt_versions := pt_versions t ++ [{| vr_id := vid; vr_deployed_at := deployed;
      vr_row := {| v_policy_id := id; v_version := version; v_status := POLICY_STATUS_DRAFT; v_created_by := by_; v_notes := notes;
                   v_rules := rules_to_value rules; v_created_at := now |} |}] |} in
  tables_ok now next' t' /\ control t !! id = None /\
  control t' = <[id := {| a_name := name; a_version := version; a_status := POLICY_STATUS_DRAFT; a_rules := rules |}]> (control t).
Proof.
  intros Hok Hlt Hid Hacc t'. pose proof (ok_ids _ _ _ Hok) as Hnd.
  assert (forall p, p ∈ pt_policies t -> p_id p <> id) as Hne by (intros p Hp; pose proof (ok_fresh _ _ _ Hok p Hp); lia).
  assert (tables_ok now next' t') as Hok'.
  { eapply (new_version_ok before next next' t t' id); [exact Hok|lia|reflexivity|done|exact Hlt|reflexivity|done|lia| |done|..].
    - cbn. rewrite fmap_app. apply NoDup_app. split_and!; [done| |apply NoDup_singleton].
      intros x (p & -> & Hp)%list_elem_of_fmap Hx%list_elem_of_singleton. by apply (Hne p).
    - intros p [Hp| ->%list_elem_of_singleton]%elem_of_app; [right|by left]. split; [by apply Hne|by exists p].
    - apply rows_of_replaced.
    - intros j Hj. by apply rows_of_replaced_other. }
  split_and!; [done| |].
  - rewrite control_find by done. destruct (find_policy id t) as [p|] eqn:E; [|done]. apply find_policy_Some in E as [Hp E]; [|done].
    by destruct (Hne p).
  - apply map_eq. intros j. rewrite control_find by apply Hok'. unfold t' at 2. rewrite (find_policy_snoc _ _ _ _ _ t) by done. cbn [p_id].
    case_decide as Hj; [subst j; rewrite lookup_insert_eq|rewrite lookup_insert_ne, control_find by done].
    + cbn. f_equal. unfold abs. cbn. f_equal. eapply (current_new before next next' t t' id); [done|lia|reflexivity|done..].
    + destruct (find_policy j t) as [q|] eqn:Ef; [|done]. cbn. f_equal. unfold abs. f_equal.
      apply find_policy_Some in Ef as [_ <-]; [|done]. by eapply (current_other t t' id).
Qed.

Lemma create_rows_wp name version by_ notes rules before now (w : World) :
  io_tx w = Some now -> before < now -> tables_ok before (io_next_uuid w) (io_tables w) -> acceptable rules ->
  wp (create_rows name version by_ notes rules)
    (fun id w1 => later w w1 /\ tables_ok now (io_next_uuid w1) (io_tables w1) /\ control (io_tables w) !! id = None /\
       control (io_tables w1) =
         <[id := {| a_name := name; a_version := version; a_status := POLICY_STATUS_DRAFT; a_rules := rules |}]> (control (io_tables w)))
    (fun e w1 => later w w1 /\ he_status e = INTERNAL_SERVER_ERROR) w.
Proof.
  intros Htx Hlt Hok Hacc. unfold create_rows. wps; [split; [trans (took_uuid w); auto with later|done]|].
  set (w0 := with_tables _ _). assert (later (took_uuid w) w0) as Hl0 by (unfold w0; auto with later).
  assert (forall w1, later w0 w1 -> later w w1) as Hl.
  { intros w1 H. trans (took_uuid w); [auto with later|]. by trans w0. }
  eapply wp_weaken; [apply replace_wp| |intros e w1 H; split; [by apply Hl|done]]. intros _ w1 [Hl1 Ht1]. wps.
  eapply wp_weaken; [apply (insert_version_wp _ _ _ _ _ _ _ now)| |intros e w2 H; split; [apply Hl; by trans w1|done]].
  { destruct Hl1 as (_ & _ & -> & _). exact Htx. }
  intros _ w2 [Hl2 (vid & Ht2)]. wps. rewrite Ht1 in Ht2.
  assert (io_next_uuid w < io_next_uuid w2)%nat as Hnext. { destruct Hl1 as (_ & H1 & _), Hl2 as (_ & H2 & _). cbn in H1. lia. }
  split; [apply Hl; by trans w1|]. unfold w0 in Ht2. cbn in Ht2. unfold sql_now in Ht2. cbn in Ht2. rewrite Htx in Ht2. cbn in Ht2.
  rewrite Ht2. eapply (created_ok before); [done|done|lia|done].
Qed.

Lemma next_status_ok existing requested status :
  next_status existing requested = Ok status ->
  status = existing \/ status = POLICY_STATUS_DRAFT \/ status = POLICY_STATUS_ARCHIVED /\ existing <> POLICY_STATUS_ACTIVE.
Proof.
  unfold next_status. destruct requested as [v|]; [|intros [= ->]; by left]. intros (st & Hst & H)%bind_Ok.
  unfold normalize_policy_status in Hst. destruct (decide (_ ∈ [_; _; _])) as [Hin|]; [|done]. injection Hst as <-.
  case_decide; [done|].
  apply bind_Ok in H as ([] & Hd & [= <-]). unfold ensure_can_disable_status in Hd. case_decide as Hg; [done|]. set_solver.
Qed.

(** The rules an update stores: new ones as the loop left them, or the ones there are. *)
Definition stored_for (payload : option (list PolicyRulePayload)) (old rules : list PolicyRule) : Prop :=
  match payload with
  | Some l => exists w w1 : World, normalize_rules l w = (Ok rules, w1)
  | None => rules = old
  end.
Lemma update_rules_wp id rules (w : World) :
  acceptable (current (io_tables w) id) -> rows_of id (pt_rules (io_tables w)) = rule_row id <$> current (io_tables w) id ->
  wp (match rules with
      | Some rules =>
          normalized ← normalize_rules rules;
          _ ← of_result (validate_rules_against_taxonomy taxonomy normalized);
          _ ← db_tx (replace_policy_rules id normalized);
          mret normalized
      | None => db_tx (load_rules_from_latest_version id)
      end)
    (fun rs w1 => later w w1 /\ exists rows, io_tables w1 = set_rules rows (io_tables w) /\
       stored_for rules (current (io_tables w) id) rs /\ acceptable rs /\ rows_of id rows = rule_row id <$> rs /\
       (forall j, j <> id -> rows_of j rows = rows_of j (pt_rules (io_tables w))))
    (fun _ w1 => later w w1) w.
Proof.
  intros Hacc Hrows. destruct rules as [rules|]; wps.
  - eapply wp_weaken; [apply wp_conj; [apply (wp_self (normalize_rules rules))|apply normalize_wp]| |by cbn; intros e w1 (_ & H & _)].
    cbn. intros rs w1 (Hself & Hl1 & Ht1 & Ha). wps; [|done].
    intros [] Ha'%Ha. wps. eapply wp_weaken; [apply replace_wp| |cbn; intros e w2 H; by trans w1].
    cbn. intros _ w2 [Hl2 Ht2]. wps. split; [by trans w1|]. rewrite Ht2, Ht1. eexists. split; [reflexivity|].
    split_and!; [by exists w, w1|done|apply rows_of_replaced|]. intros j Hj. by apply rows_of_replaced_other.
  - eapply wp_weaken; [apply latest_wp| |by cbn; intros e w1 (H & _)]. cbn. intros rs w1 (Hl1 & Ht1 & ->).
    split; [done|]. rewrite Ht1. exists (pt_rules (io_tables w)). split; [by destruct (io_tables w)|]. by split_and!.
Qed.

(** The map after an update. *)
Definition updated (id : Uuid) (payload : PolicyUpdateRequest) (p : APolicy) (rules : list PolicyRule) (m m' : Control) : Prop :=
  exists status, next_status (a_status p) (uq_status payload) = Ok status /\
    stored_for (uq_rules payload) (a_rules p) rules /\ acceptable rules /\
    m' = <[id := {| a_name := default (a_name p) (trim <$> uq_name payload); a_version := default (a_version p) (trim <$> uq_version payload);
                    a_status := status; a_rules := rules |}]> m.

Lemma update_rows_wp user id payload before now (w : World) :
  io_tx w = Some now -> before < now -> tables_ok before (io_next_uuid w) (io_tables w) ->
  wp (update_rows taxonomy user id payload)
    (fun _ w1 => later w w1 /\ tables_ok now (io_next_uuid w1) (io_tables w1) /\
       exists p rules, control (io_tables w) !! id = Some p /\ updated id payload p rules (control (io_tables w)) (control (io_tables w1)))
    (fun _ w1 => later w w1) w.
Proof.
  intros Htx Hlt Hok. pose proof (ok_ids _ _ _ Hok) as Hnd. unfold update_rows.
  wps; [auto with later| |intros e _; auto with later]. intros p Hfind%ok_or_Ok. pose proof Hfind as [Hp <-]%find_policy_Some; [|done].
  destruct (current_ok _ _ _ _ Hok Hp) as [Hacc Hrows].
  set (name := default (p_name p) _). set (version := default (p_version p) _).
  wps; [|intros e _; auto with later]. intros status Hst. wps; [trans (elapse w); auto with later|].
  set (f := fun q => if has_policy_id (p_id p) q then set_details name version status q else q).
  set (w0 := with_tables _ _). assert (later w w0) as Hl0 by (trans (elapse w); unfold w0; auto with later).
  eapply wp_weaken; [by apply update_rules_wp| |cbn; intros e w1 H; by trans w0].
  intros rules w1 (Hl1 & rows & Ht1 & Hr & Ha & Hrw & Hro). assert (later w w1) as Hl by by trans w0. wps.
  eapply wp_weaken; [apply (insert_version_wp _ _ _ _ _ _ _ now)| |cbn; intros e w2 H; by trans w1].
  { destruct Hl as (_ & _ & -> & _). exact Htx. }
  cbn. intros _ w2 [Hl2 (vid & Ht2)]. assert (later w w2) as (Ht & Hn & H) by by trans w1. split; [done|].
  rewrite Ht1 in Ht2. rewrite Ht2. cbn.
  destruct (revised_ok f before now (io_next_uuid w) (io_next_uuid w2) (io_tables w) p vid version status (Some (uc_actor user))
    (uq_notes payload) None rules rows) as [Hok' Hc]; try done.
  - intros q. unfold f. by destruct (has_policy_id _ q).
  - intros q Hq. unfold f, has_policy_id. by rewrite bool_decide_false.
  - unfold f, has_policy_id. by rewrite bool_decide_true.
  - split; [done|]. exists (abs (io_tables w) p), rules. split; [by rewrite control_find, Hfind|]. exists status. split_and!; [done..|].
    apply map_eq. intros j. etrans; [apply Hc|]. destruct (decide (j = p_id p)) as [->|Hj].
    + rewrite lookup_insert_eq, Hfind. cbn. unfold f, has_policy_id. by rewrite bool_decide_true by done.
    + rewrite lookup_insert_ne, control_find by done. destruct (find_policy j _) as [q|] eqn:E; [|done]. cbn. f_equal.
      apply find_policy_Some in E as [_ <-]; [|done]. unfold f, has_policy_id, abs. by rewrite bool_decide_false.
Qed.

Lemma versions_of_deleted id j t : j <> id -> versions_of j (delete_rows id t) = versions_of j t.
Proof. intros Hj. unfold versions_of. cbn. by rewrite (filter_kept (fun v => v_policy_id (vr_row v))). Qed.

Lemma deleted_ok before now next next' t id :
  tables_ok before next t -> before <= now -> (next <= next')%nat ->
  tables_ok now next' (delete_rows id t) /\ control (delete_rows id t) = delete id (control t).
Proof.
  intros Hok Hle Hn. pose proof (ok_ids _ _ _ Hok) as Hnd.
  assert (forall p, p ∈ pt_policies (delete_rows id t) <-> p ∈ pt_policies t /\ p_id p <> id) as Hin.
  { intros p. cbn. rewrite !list_elem_of_In, List.filter_In, negb_true_iff. unfold has_policy_id. by rewrite bool_decide_eq_false. }
  assert (NoDup (p_id <$> pt_policies (delete_rows id t))) as Hnd'.
  { eapply sublist_NoDup; [exact Hnd|]. apply fmap_sublist, filter_sublist. }
  split.
  - apply (tables_ok_mono before now next next'); [done..|]. split; [done|..].
    + intros p [Hp _]%Hin. by eapply ok_fresh.
    + intros v [Hv _]%list_elem_of_In%List.filter_In. apply list_elem_of_In in Hv. by eapply ok_versions.
    + intros r [Hr _]%list_elem_of_In%List.filter_In. apply list_elem_of_In in Hr. by eapply ok_rule_rows.
    + intros p [Hp Hne]%Hin. destruct (ok_current _ _ _ Hok p Hp) as (v & rs & H1 & H2 & H3 & H4 & H5). exists v, rs.
      rewrite versions_of_deleted by done. split_and!; [done..|]. rewrite <- H5. by apply filter_kept.
  - apply control_eq; [done|]. intros j a. rewrite lookup_delete_Some, control_lookup by done. setoid_rewrite Hin.
    assert (forall p, p_id p <> id -> abs (delete_rows id t) p = abs t p) as Habs.
    { intros p Hp. unfold abs, current. by rewrite versions_of_deleted. }
    split; [intros (p & (Hp & Hne) & <- & <-); rewrite Habs by done; naive_solver|]. intros (Hne & p & Hp & <- & <-). exists p. rewrite Habs; naive_solver.
Qed.

Lemma delete_rows_wp id before now (w : World) :
  before <= now -> tables_ok before (io_next_uuid w) (io_tables w) ->
  wp (delete_policy_rows id)
    (fun row w1 => later w w1 /\ tables_ok now (io_next_uuid w1) (io_tables w1) /\
       control (io_tables w) !! id = Some (abs (io_tables w) row) /\ p_status row <> POLICY_STATUS_ACTIVE /\
       control (io_tables w1) = delete id (control (io_tables w)))
    (fun _ w1 => later w w1) w.
Proof.
  intros Hle Hok. pose proof (ok_ids _ _ _ Hok) as Hnd. unfold delete_policy_rows. wps; [auto with later| |intros e _; auto with later].
  intros p Hfind%ok_or_Ok. wps; [|intros e _; auto with later]. intros [] Hg. unfold ensure_can_delete_status in Hg. case_decide as Hs; [done|].
  wps; [trans (elapse w); auto with later|]. split; [trans (elapse w); auto with later|]. cbn.
  destruct (deleted_ok before now (io_next_uuid w) (io_next_uuid w) (io_tables w) id) as [H1 H2]; [done..|].
  split_and!; [done|by rewrite control_find, Hfind|done|done].
Qed.

Context (timestamp : Z -> string).

Definition archive_row (p : PolicyRow) : PolicyRow := set_details (p_name p) (p_version p) POLICY_STATUS_ARCHIVED p.
Definition publish_row (id : Uuid) (version : string) (p : PolicyRow) : PolicyRow :=
  if has_policy_id id p then set_details (p_name p) version POLICY_STATUS_ACTIVE p
  else if decide (p_status p = POLICY_STATUS_ACTIVE) then archive_row p else p.

Lemma publish_row_twice id version (l : list PolicyRow) :
  ((fun p => if has_policy_id id p then set_details (p_name p) version POLICY_STATUS_ACTIVE p else p) <$>
   ((fun p => if bool_decide (p_status p = POLICY_STATUS_ACTIVE) && negb (has_policy_id id p) then archive_row p else p) <$> l)) =
  publish_row id version <$> l.
Proof.
  rewrite <- list_fmap_compose. apply list_fmap_ext. intros i p _. cbn. unfold publish_row. destruct (has_policy_id id p) eqn:E.
  - rewrite andb_false_r. by rewrite E.
  - rewrite andb_true_r. case_bool_decide as H; rewrite ?(decide_True _ _ H), ?(decide_False _ _ H).
    + unfold has_policy_id in *. cbn. by rewrite E.
    + by rewrite E.
Qed.

Lemma publish_rows_wp user id payload before now (w : World) :
  io_tx w = Some now -> before < now -> tables_ok before (io_next_uuid w) (io_tables w) ->
  wp (publish_rows timestamp user id payload)
    (fun _ w1 => later w w1 /\ tables_ok now (io_next_uuid w1) (io_tables w1) /\
       exists p version, control (io_tables w) !! id = Some p /\ from_option (eq version) True (pq_version payload) /\
         control (io_tables w1) = <[id := with_status version POLICY_STATUS_ACTIVE p]> (archived <$> control (io_tables w)))
    (fun _ w1 => later w w1) w.
Proof.
  intros Htx Hlt Hok. pose proof (ok_ids _ _ _ Hok) as Hnd. unfold publish_rows. wps; [auto with later| |intros e _; auto with later].
  intros p Hfind%ok_or_Ok. pose proof Hfind as [Hp <-]%find_policy_Some; [|done].
  destruct (current_ok _ _ _ _ Hok Hp) as [Hacc Hrows].
  assert (forall s : PolicyTables, later w (with_tables s (elapse (elapse w)))) as Hl0 by (intros s; trans (elapse w); auto with later).
  wps; [trans (elapse w); auto with later|etrans; [apply Hl0|auto with later]|]. cbn [io_now elapse with_tables].
  set (version := default _ (pq_version payload)).
  set (w1 := with_tables _ _). assert (later w w1) as Hl1 by (unfold w1; etrans; [apply Hl0|auto with later]).
  eapply wp_weaken; [apply latest_wp| |cbn; intros e w2 (H & _); by trans w1]. intros rules w2 (Hl2 & Ht2 & ->). wps.
  eapply wp_weaken; [apply (insert_version_wp _ _ _ _ _ _ _ now)| |cbn; intros e w3 H; trans w1; [done|by trans w2]].
  { destruct Hl2 as (_ & _ & -> & _), Hl1 as (_ & _ & -> & _). exact Htx. }
  cbn -[w1]. intros _ w3 [Hl3 (vid & Ht3)]. assert (later w w3) as Hl by (trans w1; [done|by trans w2]). split; [done|].
  rewrite Ht2 in Ht3. cbn in Ht3. unfold set_versions, update_where, set_policies in Ht3. cbn in Ht3. rewrite publish_row_twice in Ht3. rewrite Ht3.
  destruct Hl as (_ & Hn & _).
  destruct (revised_ok (publish_row (p_id p) version) before now (io_next_uuid w) (io_next_uuid w3) (io_tables w) p vid version
    POLICY_STATUS_ACTIVE (Some (uc_actor user)) (pq_notes payload) (Some (io_now w2)) (current (io_tables w) (p_id p)) (pt_rules (io_tables w)))
    as [Hok' Hc]; try done.
  - intros q. unfold publish_row. by destruct (has_policy_id _ q); [|case_decide].
  - intros q Hq. unfold publish_row, has_policy_id. rewrite bool_decide_false by done. by case_decide.
  - unfold publish_row, has_policy_id. by rewrite bool_decide_true.
  - split; [done|]. exists (abs (io_tables w) p), version. split_and!; [by rewrite control_find, Hfind|by destruct (pq_version payload)|].
    apply map_eq. intros j. etrans; [apply Hc|]. destruct (decide (j = p_id p)) as [->|Hj].
    + rewrite lookup_insert_eq, Hfind. cbn. unfold publish_row, has_policy_id. by rewrite bool_decide_true by done.
    + rewrite lookup_insert_ne, lookup_fmap, control_find by done. destruct (find_policy j _) as [q|] eqn:E; [|done]. cbn. f_equal.
      apply find_policy_Some in E as [_ <-]; [|done]. unfold publish_row, has_policy_id, abs, archived. rewrite bool_decide_false by done.
      cbn. by case_decide.
Qed.

(** *** Handlers *)

Definition world_ok : World -> Prop := sound tables_ok.

Lemma unmoved_ok w w' : unmoved w w' -> world_ok w -> world_ok w'.
Proof. apply sound_unmoved, tables_ok_mono. Qed.
Definition server_error (e : HttpError) : Prop := he_status e = INTERNAL_SERVER_ERROR \/ he_status e = BAD_GATEWAY.

(** What the answer shows of a policy. *)
Definition shown (t : PolicyTables) (p : PolicyRow) : PolicyDetail :=
  {| de_id := p_id p; de_name := p_name p; de_version := p_version p; de_status := p_status p; de_created_by := p_created_by p;
     de_created_at := p_created_at p; de_rule_count := rule_count (p_id p) t; de_rules := current t (p_id p) |}.

Lemma detail_wp id (w : World) :
  wp (fetch_policy_detail id)
    (fun d w' => later w w' /\ io_tables w' = io_tables w /\
       d = (fun p => shown (io_tables w) {| p_id := id; p_name := p_name p; p_version := p_version p; p_status := p_status p;
                                            p_created_by := p_created_by p; p_created_at := p_created_at p |}) <$> find_policy id (io_tables w))
    (fun _ w' => later w w' /\ io_tables w' = io_tables w) w.
Proof.
  unfold fetch_policy_detail, load_rules_from_versions. wp; [auto with later|]. destruct (find_policy id _) as [p|] eqn:E; cbn; wp; [|auto with later].
  eapply wp_weaken; [apply latest_wp| |cbn; intros e w1 [H1 H2]; split; [|done]; trans (elapse w); auto with later].
  cbn. intros rules w1 (H1 & H2 & ->). wp. split_and!; [trans (elapse w); auto with later|done|]. unfold shown. cbn.
  apply find_first_Some in E as (l1 & l2 & _ & E & _). apply bool_decide_eq_true in E. by rewrite E.
Qed.

Context (has_cache : bool).

Definition reloaded (actor : option string) (id : Uuid) (operation : string) : list PolicyEffect :=
  [ReloadEngine; PolicyEvent "policy.propagate_runtime_change" actor (Some (pretty id)) (PropagationPayload operation "ok" None)].

Lemma propagate_wp actor id operation (w : World) :
  wp (propagate_policy_runtime_change has_cache actor id operation)
    (fun _ w' => unmoved w w' /\ exists inv, (inv = [] \/ has_cache = true /\ inv = [InvalidatePolicyCache]) /\
       io_trace w' = io_trace w ++ inv ++ reloaded actor id operation)
    (fun e w' => unmoved w w' /\ he_status e = BAD_GATEWAY) w.
Proof.
  unfold propagate_policy_runtime_change, invalidate_policy_cache, trigger_policy_reload, log_policy_event.
  apply wp_bind. apply wp_if; intros Hc; wp; try done; try (intros e [= <-]; split; [|done]); unfold unmoved; cbn; try (split_and!; [lia|done..]).
  - split; [split_and!; [lia|done..]|]. exists []. split; [by left|]. by rewrite <- app_assoc.
  - split; [split_and!; [lia|done..]|]. exists [InvalidatePolicyCache]. split; [by right|]. by rewrite <- !app_assoc.
  - split; [split_and!; [lia|done..]|]. exists []. split; [by left|]. by rewrite <- app_assoc.
Qed.

Lemma announce_wp action by_ actor id operation p (w : World) :
  find_policy id (io_tables w) = Some p ->
  wp (detail ← detail_or_not_found id;
      _ ← log_policy_event action by_ (Some (pretty id)) (DetailPayload detail);
      _ ← propagate_policy_runtime_change has_cache actor id operation;
      mret detail)
    (fun d w' => unmoved w w' /\ d = shown (io_tables w) p /\
       exists inv, (inv = [] \/ has_cache = true /\ inv = [InvalidatePolicyCache]) /\
         io_trace w' = io_trace w ++ PolicyEvent action by_ (Some (pretty id)) (DetailPayload d) :: inv ++ reloaded actor id operation)
    (fun e w' => unmoved w w' /\ server_error e) w.
Proof.
  intros Hf. unfold detail_or_not_found, log_policy_event. wps.
  eapply wp_weaken; [apply detail_wp| |cbn; intros e w1 [(H1 & H2 & H3 & _) H4]; split; [done|by left]].
  cbn. rewrite Hf. intros d w1 ((H1 & H2 & H3 & H5) & H4 & ->). wps; [|done]. intros d [= <-]. wps.
  eapply wp_weaken; [apply propagate_wp| |cbn].
  - cbn. intros _ w2 ((U1 & U2 & U3 & U4) & inv & Hinv & Htr). wps. split; [unfold unmoved in *; cbn in *; split_and!; [lia|lia|congruence..]|].
    apply find_first_Some in Hf as (l1 & l2 & _ & E & _). apply bool_decide_eq_true in E. subst id.
    split; [by destruct p|]. exists inv. split; [done|]. rewrite Htr. cbn. rewrite H5, <- app_assoc. cbn. by destruct p.
  - intros e w2 [(U1 & U2 & U3 & U4) He]. split; [unfold unmoved in *; cbn in *; split_and!; [lia|lia|congruence..]|by right].
Qed.

(** A transaction that moves the tables, or fails and does not. *)
Lemma atomic_ok {A} (m : PM HttpError A) (Q : A -> PolicyTables -> Prop) (w : World) :
  world_ok w ->
  (forall w0, io_tx w0 = Some (io_now w + 1) -> tables_ok (io_now w) (io_next_uuid w0) (io_tables w) -> io_tables w0 = io_tables w ->
    wp m (fun a w1 => later w0 w1 /\ tables_ok (io_now w + 1) (io_next_uuid w1) (io_tables w1) /\ Q a (io_tables w1))
         (fun _ w1 => later w0 w1) w0) ->
  wp (atomic map_db_error_tx m)
    (fun a w1 => world_ok w1 /\ Q a (io_tables w1) /\ io_trace w1 = io_trace w)
    (fun _ w1 => world_ok w1 /\ io_tables w1 = io_tables w /\ io_trace w1 = io_trace w) w.
Proof.
  intros Hw Hm. eapply wp_weaken; [apply (atomic_sound tables_ok tables_ok_mono _ _ Q _ Hw)|..]; cbn beta.
  - intros w0 H1 H2 H3. apply Hm; [done| |done]. rewrite H2. apply Hw.
  - intros a w1 ((_ & _ & _ & H) & Hw1 & HQ). done.
  - intros e w1 ((_ & _ & _ & H) & Hw1 & Ht). done.
Qed.

(** A request moves the map along the machine or leaves it; an error that is the caller's changes
    nothing and tells nobody. *)
Definition answered {A} (user : UserContext) (w : World) (m : PM HttpError A) (Q : A -> World -> Prop) : Prop :=
  wp m (fun a w' => world_ok w' /\ Q a w' /\
          (control (io_tables w') = control (io_tables w) \/ control_step taxonomy user (control (io_tables w)) (control (io_tables w'))))
       (fun e w' => world_ok w' /\
          (control (io_tables w') = control (io_tables w) \/ control_step taxonomy user (control (io_tables w)) (control (io_tables w'))) /\
          (io_tables w' = io_tables w /\ io_trace w' = io_trace w \/ server_error e)) w.

Lemma refused {A} user w e (Q : A -> World -> Prop) : world_ok w -> answered user w (of_result (Err e)) Q.
Proof. intros Hw. unfold answered. wp; [done|]. intros e' [= <-]. split_and!; [done|by left|by left]. Qed.

(** The common end of the handlers that answer a detail. *)
Lemma announced {A} user (w : World) (m : PM HttpError A) (id : A -> Uuid) action by_ actor operation (Q : A -> PolicyTables -> Prop) :
  world_ok w ->
  (forall a t, Q a t -> NoDup (p_id <$> pt_policies t) -> is_Some (control t !! id a) /\ control_step taxonomy user (control (io_tables w)) (control t)) ->
  wp m (fun a w1 => world_ok w1 /\ Q a (io_tables w1) /\ io_trace w1 = io_trace w)
       (fun _ w1 => world_ok w1 /\ io_tables w1 = io_tables w /\ io_trace w1 = io_trace w) w ->
  answered user w (a ← m;
      detail ← detail_or_not_found (id a);
      _ ← log_policy_event action by_ (Some (pretty (id a))) (DetailPayload detail);
      _ ← propagate_policy_runtime_change has_cache actor (id a) operation;
      mret detail)
    (fun d w' => exists a p inv, Q a (io_tables w') /\ p ∈ pt_policies (io_tables w') /\ p_id p = id a /\ d = shown (io_tables w') p /\
       (inv = [] \/ has_cache = true /\ inv = [InvalidatePolicyCache]) /\
       io_trace w' = io_trace w ++ PolicyEvent action by_ (Some (pretty (id a))) (DetailPayload d) :: inv ++ reloaded actor (id a) operation).
Proof.
  intros Hw HQ Hm. unfold answered. apply wp_bind.
  eapply wp_weaken; [exact Hm|..]; cbn beta; [|intros e w1 (H1 & H2 & H3); rewrite H2; split_and!; [done|by left|by left]].
  intros a w1 (H1 & H2 & H3). destruct (HQ a _ H2 (ok_ids _ _ _ (proj2 H1))) as [[ap Hap] Hstep].
  rewrite control_find in Hap by apply (ok_ids _ _ _ (proj2 H1)). apply fmap_Some in Hap as (p & Hf & _).
  pose proof Hf as [Hp Hid]%find_policy_Some; [|apply (ok_ids _ _ _ (proj2 H1))].
  eapply wp_weaken; [by apply announce_wp|..]; cbn beta.
  - intros d w2 (U & -> & inv & Hinv & Htr). pose proof U as (_ & _ & _ & Ht). rewrite Ht. split_and!; [by eapply unmoved_ok| |by right].
    exists a, p, inv. split_and!; [done..|]. by rewrite Htr, H3.
  - intros e w2 (U & He). pose proof U as (_ & _ & _ & Ht). rewrite Ht. split_and!; [by eapply unmoved_ok|by right|by right].
Qed.

Lemma create_wp user payload w :
  world_ok w -> answered user w (create_policy taxonomy has_cache timestamp user payload) (fun _ _ => True).
Proof.
  intros Hw. unfold create_policy. destruct (require_roles user ROLE_POLICY_EDIT) eqn:Hr; [|by apply refused].
  unfold answered. wp. eapply wp_weaken; [apply normalize_wp|..]; cbn beta; cycle 1.
  { intros e w1 ((H1 & H2 & H3 & H4) & Ht & _). rewrite Ht. split_and!; [|by left|by left]. by eapply unmoved_ok. }
  intros rules w1 ((H1 & H2 & H3 & H4) & Ht & Ha). assert (world_ok w1) as Hw1 by by eapply unmoved_ok.
  apply wp_bind, wp_result; [|intros e He; rewrite Ht; split_and!; [done|by left|by left]]. intros [] Hv. apply wp_bind, wp_now.
  pose (Q := fun id t => control (io_tables w1) !! id = None /\ exists name version, control t =
    <[id := {| a_name := name; a_version := version; a_status := POLICY_STATUS_DRAFT; a_rules := rules |}]> (control (io_tables w1))).
  eapply wp_weaken; [eapply (announced user w1 _ (fun id => id) "policy.create" _ _ "create" Q); [done| |]|..]; cbn beta.
  - intros id t (Hn & name & version & Hc) _. rewrite Hc, lookup_insert_eq. split; [by eexists|]. constructor; auto.
  - apply (atomic_ok _ Q); [done|]. intros w0 Htx Hok Ht0. eapply wp_weaken; [eapply create_rows_wp; [exact Htx| |rewrite Ht0; exact Hok|auto]|..]; [lia| |].
    + cbn. intros id w2 (Hl & Hok2 & Hn & Hc). rewrite Ht0 in *. split_and!; [done..|]. split; [done|]. eauto.
    + by intros e w2 [? _].
  - intros d w2 (Hw2 & _ & Hst). rewrite Ht in Hst. done.
  - intros e w2 (Hw2 & Hst & Hsame). rewrite Ht, H4 in *. done.
Qed.

Lemma update_wp user id payload w :
  world_ok w -> answered user w (update_policy taxonomy has_cache user id payload)
    (fun d w' => exists p rules row, control (io_tables w) !! id = Some p /\
       updated id payload p rules (control (io_tables w)) (control (io_tables w')) /\
       row ∈ pt_policies (io_tables w') /\ p_id row = id /\ d = shown (io_tables w') row).
Proof.
  intros Hw. unfold update_policy. destruct (require_roles user ROLE_POLICY_EDIT) eqn:Hr; [|by apply refused].
  pose (Q := fun (_ : unit) t => exists p rules, control (io_tables w) !! id = Some p /\ updated id payload p rules (control (io_tables w)) (control t)).
  eapply wp_weaken; [eapply (announced user w _ (fun _ => id) "policy.update" _ _ "update" Q); [done|..]|..]; cbn beta.
  - intros u t (p & rules & Hp & status & Hst & Hs & Ha & Hc) _. rewrite Hc, lookup_insert_eq. split; [by eexists|].
    eapply control_update; [done|done|by eapply next_status_ok|by right].
  - apply (atomic_ok _ Q); [done|]. intros w0 Htx Hok Ht0. eapply wp_weaken; [eapply update_rows_wp; [exact Htx| |rewrite Ht0; exact Hok]|..]; [lia| |done].
    cbn. intros u w2 (Hl & Hok2 & Hq). rewrite Ht0 in *. by split_and!.
  - intros d w2 (Hw2 & (u & row & inv & (p & rules & Hp & Hu) & Hrow & Hid & Hd & _) & Hst). split_and!; [done| |done].
    exists p, rules, row. by split_and!.
  - done.
Qed.

Lemma publish_wp user id payload w :
  world_ok w -> answered user w (publish_policy has_cache timestamp user id payload)
    (fun d w' => exists p version row inv, control (io_tables w) !! id = Some p /\ from_option (eq version) True (pq_version payload) /\
       control (io_tables w') = <[id := with_status version POLICY_STATUS_ACTIVE p]> (archived <$> control (io_tables w)) /\
       row ∈ pt_policies (io_tables w') /\ p_id row = id /\ d = shown (io_tables w') row /\
       (inv = [] \/ has_cache = true /\ inv = [InvalidatePolicyCache]) /\
       io_trace w' = io_trace w ++ PolicyEvent "policy.publish" (Some (uc_actor user)) (Some (pretty id)) (DetailPayload d) :: inv ++
         reloaded (Some (uc_actor user)) id "publish").
Proof.
  intros Hw. unfold publish_policy. destruct (require_roles user ROLE_POLICY_PUBLISH) eqn:Hr; [|by apply refused].
  pose (Q := fun (_ : unit) t => exists p version, control (io_tables w) !! id = Some p /\ from_option (eq version) True (pq_version payload) /\
    control t = <[id := with_status version POLICY_STATUS_ACTIVE p]> (archived <$> control (io_tables w))).
  eapply wp_weaken; [eapply (announced user w _ (fun _ => id) "policy.publish" _ _ "publish" Q); [done|..]|..]; cbn beta.
  - intros u t (p & version & Hp & _ & Hc) _. rewrite Hc, lookup_insert_eq. split; [by eexists|]. by apply control_publish.
  - apply (atomic_ok _ Q); [done|]. intros w0 Htx Hok Ht0. eapply wp_weaken; [eapply publish_rows_wp; [exact Htx| |rewrite Ht0; exact Hok]|..]; [lia| |done].
    cbn. intros u w2 (Hl & Hok2 & p & version & Hp & Hv & Hc). rewrite Ht0 in *. split_and!; [done..|]. by exists p, version.
  - intros d w2 (Hw2 & (u & row & inv & (p & version & Hp & Hv & Hc) & H1 & H2 & H3 & H4 & H5) & Hst). split_and!; [done| |done].
    exists p, version, row, inv. done.
  - done.
Qed.

Lemma delete_wp user id w : world_ok w -> answered user w (delete_policy has_cache user id) (fun _ _ => True).
Proof.
  intros Hw. unfold delete_policy. destruct (require_roles user ROLE_POLICY_PUBLISH) eqn:Hr; [|by apply refused].
  unfold answered, log_policy_event. apply wp_bind.
  eapply wp_weaken; [apply (atomic_ok _ (fun row t => control (io_tables w) !! id = Some (abs (io_tables w) row) /\
    p_status row <> POLICY_STATUS_ACTIVE /\ control t = delete id (control (io_tables w)))); [done|]|..]; cbn beta.
  - intros w0 Htx Hok Ht0. eapply wp_weaken; [eapply delete_rows_wp; [|rewrite Ht0; exact Hok]|..]; [|cbn|done].
    + instantiate (1 := io_now w + 1). lia.
    + intros row w1 (Hl & Hok1 & H1 & H2 & H3). rewrite Ht0 in *. done.
  - intros row w1 (Hw1 & (H1 & H2 & H3) & Htr). apply wp_bind, wp_emit.
    assert (control_step taxonomy user (control (io_tables w)) (control (io_tables w1))) as Hs by (rewrite H3; by eapply control_delete).
    eapply wp_weaken; [apply propagate_wp|..]; cbn.
    + intros _ w2 [U _]. pose proof U as (_ & _ & _ & Ht). cbn in Ht. rewrite Ht. split_and!; [by eapply (unmoved_ok w1)|done|by right].
    + intros e w2 [U He]. pose proof U as (_ & _ & _ & Ht). cbn in Ht. rewrite Ht.
      split_and!; [by eapply (unmoved_ok w1)|by right|right; by right].
  - intros e w1 (H1 & H2 & H3). rewrite H2. split_and!; [done|by left|by left].
Qed.

End Refinement.
