(* ===== verification/PolicyPublish.v ===== *)
(** * The admin API's policies under any requests, and in the engine

    The handlers of [AdminPolicies.v] as one machine: any run of requests keeps the tables in order,
    with one active policy at most and rules the engine can load; an error of the caller changes
    nothing.  When a policy was published, a reload makes the engine ([Evaluator.v]) decide by
    exactly its rules. *)

From S2P Require Import Prelude RustStr RustNum Types Http Json Taxonomy Db Activation PolicyStore Evaluator Io Wp Texts Pagination AdminPolicies PolicyLifecycle.

Local Open Scope Z_scope.

Inductive PolicyRequest :=
  | ListPolicies (params : PolicyListParams)
  | GetPolicy (id : Uuid)
  | ListVersions (id : Uuid)
  | RuntimeSync (runtime : result string PolicyRuntimeSnapshot)
  | ValidatePolicy (p : PolicyDraftRequest)
  | CreatePolicy (p : PolicyDraftRequest)
  | UpdatePolicy (id : Uuid) (p : PolicyUpdateRequest)
  | PublishPolicy (id : Uuid) (p : PolicyPublishRequest)
  | DeletePolicy (id : Uuid).

Section Server.
  Context {T : Type} `{R : CategoryResolver T} `{J : SerdeJson} `{JA : !JsonArrays} `{X : Texts} `{TT : JsonText} `{B : Base64}.
  Context (taxonomy : T) (has_cache : bool) (timestamp : Z -> string) (sql_lower : string -> string).
  Abbreviation PM := (M PolicyTables PolicyEffect).
  Abbreviation World := (Io PolicyTables PolicyEffect).
  Abbreviation answered := (answered taxonomy).
  Abbreviation world_ok := (world_ok taxonomy).

Definition bare_status (s : StatusCode) : HttpError := {| he_status := s; he_code := ""; he_message := "" |}.
Definition finished {A} (m : PM HttpError A) : PM HttpError unit := _ ← m; mret tt.

Definition serve_policy (user : UserContext) (q : PolicyRequest) : PM HttpError unit :=
  match q with
  | ListPolicies params => finished (map_error bare_status (list_policies sql_lower user params))
  | GetPolicy id => finished (map_error bare_status (get_policy user id))
  | ListVersions id => finished (map_error bare_status (list_policy_versions user id))
  | RuntimeSync runtime => finished (policy_runtime_sync runtime user)
  | ValidatePolicy p => finished (map_error bare_status (validate_policy taxonomy user p))
  | CreatePolicy p => finished (create_policy taxonomy has_cache timestamp user p)
  | UpdatePolicy id p => finished (update_policy taxonomy has_cache user id p)
  | PublishPolicy id p => finished (publish_policy has_cache timestamp user id p)
  | DeletePolicy id => finished (delete_policy has_cache user id)
  end.

(** The requests one after the other, each with its own answer. *)
Definition serve_policies (rs : list (UserContext * PolicyRequest)) : PM HttpError unit :=
  each (fun r => dropped (serve_policy r.1 r.2)) rs.

(** ** Every request *)

Definition only_reads {E A} (m : PM E A) : Prop :=
  forall w, let w' := (m w).2 in later w w' /\ io_tables w' = io_tables w.
Lemma only_reads_wp {E A} (m : PM E A) :
  (forall w, wp m (fun _ w' => later w w' /\ io_tables w' = io_tables w) (fun _ w' => later w w' /\ io_tables w' = io_tables w) w) -> only_reads m.
Proof. intros H w. specialize (H w). unfold wp in H. by destruct (m w) as [[] ?]. Qed.
Lemma only_reads_answered {A} user w (m : PM HttpError A) : world_ok w -> only_reads m -> answered user w m (fun _ _ => True).
Proof.
  intros Hw Hm. pose proof (Hm w) as H. cbv zeta in H. destruct H as [(H1 & H2 & H3 & H4) Ht]. unfold PolicyLifecycle.answered, wp. destruct (m w) as [[a|e] w']; cbn in *; rewrite Ht;
    (split_and!; [by eapply unmoved_ok|by (left + done)..]).
Qed.

Lemma validate_reads user p : only_reads (validate_policy taxonomy user p).
Proof.
  apply only_reads_wp. intros w. unfold validate_policy. destruct (require_roles _ _); [|wp; done].
  apply wp_bind, wp_outcome, wp_bind. eapply wp_weaken; [apply (normalize_wp taxonomy)|..]; cbn.
  - intros rs w1 (H1 & H2 & _). wp; [intros [] _; by wp|]. intros e He. rewrite (taxonomy_status taxonomy _ _ He). by wp.
  - intros e w1 (H1 & H2 & ->). by wp.
Qed.
Lemma request_reads user q :
  match q with ListPolicies _ | GetPolicy _ | ListVersions _ | RuntimeSync _ => only_reads (serve_policy user q) | _ => True end.
Proof.
  destruct q as [params|id|id|runtime| | | | |]; [..|done|done|done|done|done]; apply only_reads_wp; intros w; cbn; unfold finished.
  - unfold list_policies. destruct (require_roles _ _); wp; try done; intros; wp; split; auto using later_elapse.
  - unfold get_policy. destruct (require_roles _ _); wp; try done.
    eapply wp_weaken; [apply detail_wp| |cbn; intros e w1 [? ?]; done]. cbn. intros d w1 (H1 & H2 & _). wp; done.
  - unfold list_policy_versions. destruct (require_roles _ _); wp; try done; intros; split; auto using later_elapse.
  - unfold policy_runtime_sync, db_tx. destruct (require_roles _ _); wp; try done; try (split; auto using later_elapse; done).
    intros s _. repeat case_match; wp; split; auto using later_elapse.
Qed.

Lemma answered_finished {A} user w (m : PM HttpError A) Q : answered user w m Q -> answered user w (finished m) (fun _ _ => True).
Proof.
  intros H. unfold PolicyLifecycle.answered, finished. apply wp_bind. eapply wp_weaken; [exact H| |done]. cbn. intros a w1 (H1 & _ & H2). by wp.
Qed.

Lemma serve_policy_wp user q w : world_ok w -> answered user w (serve_policy user q) (fun _ _ => True).
Proof.
  intros Hw. destruct q as [params|id|id|runtime|p|p|id p|id p|id].
  1-4: apply only_reads_answered; [done|]; by match goal with |- only_reads (serve_policy _ ?q) => exact (request_reads user q) end.
  - apply only_reads_answered; [done|]. pose proof (validate_reads user p) as H. intros w1. specialize (H w1). cbn. unfold finished, mbind, io_bind, map_error.
    by destruct (validate_policy _ _ _ w1) as [[] ?].
  - eapply answered_finished, create_wp, Hw.
  - eapply answered_finished, update_wp, Hw.
  - eapply answered_finished, publish_wp, Hw.
  - eapply answered_finished, delete_wp, Hw.
Qed.

Lemma served_one user q w :
  world_ok w ->
  world_ok (serve_policy user q w).2 /\
  (control (io_tables (serve_policy user q w).2) = control (io_tables w) \/
   control_step taxonomy user (control (io_tables w)) (control (io_tables (serve_policy user q w).2))).
Proof.
  intros Hw. pose proof (serve_policy_wp user q w Hw) as H. unfold PolicyLifecycle.answered, wp in H. destruct (serve_policy user q w) as [[] ?]; naive_solver.
Qed.
Lemma served_one_ok user q w :
  world_ok w -> control_ok taxonomy (control (io_tables w)) ->
  world_ok (serve_policy user q w).2 /\ control_ok taxonomy (control (io_tables (serve_policy user q w).2)).
Proof. intros Hw Hc. destruct (served_one user q w Hw) as [H1 [H2|H2]]; (split; [done|]); [by rewrite H2|by eapply control_step_ok]. Qed.

(** A run of requests. *)
Definition permitted (rs : list (UserContext * PolicyRequest)) (m m' : Control) : Prop :=
  exists user q, (user, q) ∈ rs /\ control_step taxonomy user m m'.
Lemma served rs w :
  world_ok w ->
  world_ok (serve_policies rs w).2 /\ rtc (permitted rs) (control (io_tables w)) (control (io_tables (serve_policies rs w).2)).
Proof.
  revert w. induction rs as [|[user q] rs IH]; intros w Hw; [by split|]. unfold serve_policies. cbn [each fst snd].
  unfold mbind, io_bind, dropped at 1 3. cbn beta iota. destruct (served_one user q w Hw) as [Hw1 Hs].
  destruct (serve_policy user q w) as [r w1]. cbn [snd] in *. fold (serve_policies rs).
  destruct (IH w1 Hw1) as [Hw2 Hr]. split; [done|].
  assert (rtc (permitted ((user, q) :: rs)) (control (io_tables w1)) (control (io_tables (serve_policies rs w1).2))) as Hr'.
  { eapply rtc_subrel; [|exact Hr]. intros m m' (u & q' & Hin & Hst). exists u, q'. split; [by right|done]. }
  destruct Hs as [Hs|Hs]; [by rewrite <- Hs|]. eapply rtc_l; [|exact Hr']. exists user, q. split; [by left|done].
Qed.
Lemma permitted_ok rs m m' : rtc (permitted rs) m m' -> control_ok taxonomy m -> control_ok taxonomy m'.
Proof. induction 1 as [|m1 m2 m3 (user & q & _ & Hs) _ IH]; [done|]. intros Hm. apply IH. by eapply control_step_ok. Qed.

(** C2: Requests refine the machine on the map of policies: whatever callers ask for and whichever
    statements or calls fail, the tables stay in order (the latest version of each policy has its
    version and its rules, and the other table the same rules), the map they describe has moved by
    permitted steps of these callers only, and one policy at most is active. *)
Theorem policy_requests_refine rs w :
  world_ok w -> control_ok taxonomy (control (io_tables w)) ->
  let w' := (serve_policies rs w).2 in
  world_ok w' /\ rtc (permitted rs) (control (io_tables w)) (control (io_tables w')) /\ control_ok taxonomy (control (io_tables w')).
Proof. intros Hw Hc w'. destruct (served rs w Hw) as [H1 H2]. split_and!; [done|done|by eapply permitted_ok]. Qed.

(** C4: Without the role to publish nobody makes another policy the active one: requests of callers
    that lack it only ever take an active policy away. *)
Theorem only_publishers_activate rs w id :
  world_ok w -> (forall user q, (user, q) ∈ rs -> require_roles user ROLE_POLICY_PUBLISH = false) ->
  is_active (control (io_tables (serve_policies rs w).2)) id -> is_active (control (io_tables w)) id.
Proof.
  intros Hw Hrs. destruct (served rs w Hw) as [_ H]. induction H as [|m1 m2 m3 (user & q & Hin & Hs) _ IH]; [done|].
  intros Ha%IH. destruct (decide (is_active m1 id)) as [Hd|Hd]; [done|].
  pose proof (control_step_activates taxonomy _ _ _ id Hs Ha Hd) as Hp. by rewrite (Hrs _ _ Hin) in Hp.
Qed.

(** C3: A request that is answered with an error of the caller (400, 403, 404 or 409) has changed
    nothing, and neither cache nor engine nor audit were told anything; only 500 and 502 may leave
    a change behind. *)
Theorem client_errors_change_nothing user q w e w' :
  world_ok w -> serve_policy user q w = (Err e, w') -> ~ server_error e ->
  io_tables w' = io_tables w /\ io_trace w' = io_trace w.
Proof.
  intros Hw Hrun He. pose proof (serve_policy_wp user q w Hw) as H. unfold PolicyLifecycle.answered, wp in H. rewrite Hrun in H. naive_solver.
Qed.

(** ** What the engine loads *)

Context `{L : !CategoryResolverLaws T}.

(** The tables as the engine finds them. *)
Definition engine_db (t : PolicyTables) (db : Db) : Db :=
  set_tables (pt_policies t) (pt_rules t) (vr_row <$> pt_versions t) (db_audit db) db.

Lemma engine_versions id t :
  order_desc v_created_at (filter (fun v => v_policy_id v = id) (vr_row <$> pt_versions t)) = vr_row <$> versions_of id t.
Proof.
  unfold versions_of, order_desc. rewrite <- (sort_by_key_fmap vr_row (fun v => - v_created_at v)). f_equal. rewrite filter_bool.
  induction (pt_versions t) as [|v l IH]; [done|]. cbn. by case_bool_decide; cbn; rewrite IH.
Qed.
Lemma filter_only {A} (P : A -> Prop) `{!forall x, Decision (P x)} l x :
  NoDup l -> x ∈ l -> P x -> (forall y, y ∈ l -> P y -> y = x) -> filter P l = [x].
Proof.
  intros Hnd Hx HP Hu. apply list_elem_of_split in Hx as (l1 & l2 & ->). apply NoDup_app in Hnd as (_ & Hd & [Hn2 _]%NoDup_cons).
  rewrite filter_app, filter_cons_True by done.
  rewrite (filter_all_false P l1), (filter_all_false P l2); [done|apply Forall_forall..].
  - intros y Hy HPy. rewrite (Hu y) in Hy; [done|set_solver|done].
  - intros y Hy HPy. rewrite (Hu y) in Hy; [|set_solver|done]. apply (Hd x); [done|by left].
Qed.

(** The admin API refuses what the engine could not load. *)
Lemma acceptable_loads rules : acceptable taxonomy rules -> exists rules', canonicalize_rules taxonomy rules = Ok rules'.
Proof.
  intros [_ _ _ _ _ H]. unfold validate_rules_against_taxonomy in H. apply bind_Ok in H as (us & Hm%try_map_Ok & _).
  unfold canonicalize_rules. induction Hm as [|r u rules us Hr _ [rules' IH]]; [by eexists|].
  assert (exists r', canonicalize_rule taxonomy r = Ok r') as [r' Hr'].
  { unfold canonicalize_rule. destruct (c_categories (r_conditions r)) as [cats|]; [|by eexists].
    apply try_map_Ok in Hr. assert (exists ids, try_map (canonicalize_category taxonomy (r_id r)) cats = Ok ids) as [ids ->]; [|by eexists].
    induction Hr as [|c ? cats ? Hc _ [ids IHc]]; [by eexists|]. cbn [try_map]. rewrite IHc. unfold canonicalize_category at 1.
    destruct (resolve_category_id taxonomy c) as [i [[]|]]; cbn in *; try done; by eexists. }
  cbn [try_map]. rewrite Hr', IH. by eexists.
Qed.

(** A healthy database, policies in order: the engine loads the active policy. *)
Lemma load_active now next t p db :
  tables_ok taxonomy now next t -> control_ok taxonomy (control t) -> healthy db ->
  p ∈ pt_policies t -> p_status p = POLICY_STATUS_ACTIVE ->
  exists rules db', canonicalize_rules taxonomy (current t (p_id p)) = Ok rules /\
    load_from_db taxonomy (engine_db t db) =
      (Ok (Some {| ps_rules := rules; ps_version := p_version p; ps_policy_id := Some (p_id p); ps_taxonomy := taxonomy |}), db').
Proof.
  intros Hok Hc Hh Hp Hs. pose proof (ok_ids _ _ _ _ Hok) as Hnd. destruct (current_ok _ _ _ _ _ Hok Hp) as [Hacc _].
  destruct (acceptable_loads _ Hacc) as [rules Hrules]. exists rules. unfold load_from_db.
  assert (healthy (engine_db t db)) as Hh1 by exact Hh. rewrite (dbm_bind_ok _ _ _ _ _ (select_healthy _ _ Hh1)). cbn [db_policies tick engine_db set_tables].
  assert (filter (fun q => p_status q = "active") (pt_policies t) = [p]) as ->.
  { apply filter_only; [by apply NoDup_fmap_1 in Hnd|done|done|]. intros q Hq Hqs.
    apply (NoDup_fmap_unique p_id (pt_policies t)); [done..|]. apply (co_one_active _ _ Hc); [exists (abs t q)|exists (abs t p)];
      (split; [apply control_lookup; eauto|done]). }
  cbn [order_desc sort_by_key foldr insert_by_key head]. apply healthy_tick in Hh1.
  destruct (ok_current _ _ _ _ Hok p Hp) as (v & rs & Hv & _ & Hvr & _ & _).
  assert (load_latest_version_rules (p_id p) (tick (engine_db t db)) = (Ok (Some (current t (p_id p))), tick (tick (engine_db t db)))) as E.
  { unfold load_latest_version_rules. rewrite (dbm_bind_ok _ _ _ _ _ (select_healthy _ _ Hh1)). cbn [db_policy_versions tick engine_db set_tables].
    rewrite engine_versions. unfold current. destruct (versions_of (p_id p) t) as [|v' l]; [done|]. cbn in Hv. injection Hv as ->. cbn.
    rewrite Hvr, rules_round_trip. done. }
  rewrite (dbm_bind_ok _ _ _ _ _ E). destruct (current t (p_id p)) as [|r0 rs'] eqn:Ecur; [by destruct (acc_some _ _ Hacc)|].
  cbn [default]. unfold mbind, dbm_bind, mret, dbm_ret, lift. cbv beta iota delta [id]. rewrite Hrules. eauto.
Qed.

(** C1: A policy whose publication was answered is in force after a reload: it is the only active
    one, its rules are the ones it had, and an engine that loads from the tables then decides by
    exactly these rules, in their order, under the published version.  The engine was told to
    reload after the change, and the publication recorded. *)
Theorem published_policy_is_served user id payload w d w' :
  world_ok w -> control_ok taxonomy (control (io_tables w)) ->
  publish_policy has_cache timestamp user id payload w = (Ok d, w') ->
  (forall j, is_active (control (io_tables w')) j <-> j = id) /\
  (exists p, control (io_tables w) !! id = Some p /\ de_rules d = a_rules p /\ from_option (eq (de_version d)) True (pq_version payload)) /\
  (exists before after, io_trace w' = io_trace w ++ before ++ ReloadEngine :: after /\
     PolicyEvent "policy.publish" (Some (uc_actor user)) (Some (pretty id)) (DetailPayload d) ∈ before) /\
  forall read_policy_file (ev : PolicyEvaluator T) seed db,
    ev_source ev = Database seed -> ps_taxonomy (ev_store ev) = taxonomy -> healthy db ->
    exists rules, canonicalize_rules taxonomy (de_rules d) = Ok rules /\
      ev_store (reload read_policy_file (ev, engine_db (io_tables w') db)).2.1 =
        {| ps_rules := rules; ps_version := de_version d; ps_policy_id := Some id; ps_taxonomy := taxonomy |}.
Proof.
  intros Hw Hc Hrun. pose proof (publish_wp taxonomy timestamp has_cache user id payload w Hw) as H. unfold PolicyLifecycle.answered, wp in H.
  rewrite Hrun in H. destruct H as (Hw' & (p & version & row & inv & Hp & Hver & Hctl & Hrow & <- & -> & _ & Htr) & Hst).
  assert (control_ok taxonomy (control (io_tables w'))) as Hc'. { destruct Hst as [->|Hst]; [done|by eapply control_step_ok]. }
  assert (abs (io_tables w') row = with_status version POLICY_STATUS_ACTIVE p) as Habs.
  { assert (control (io_tables w') !! p_id row = Some (abs (io_tables w') row)) as Hl
      by (apply control_lookup; [apply (ok_ids _ _ _ _ (proj2 Hw'))|eauto]).
    rewrite Hctl, lookup_insert_eq in Hl. congruence. }
  injection Habs as Hname Hversion Hstatus Hrules. split_and!.
  - intros j. split; [intros Hj; apply (co_one_active _ _ Hc' _ _ Hj)|intros ->]; exists (with_status version POLICY_STATUS_ACTIVE p);
      by rewrite Hctl, lookup_insert_eq.
  - exists p. cbn. by rewrite Hversion.
  - unfold reloaded in Htr. do 2 eexists. split; [rewrite Htr, (app_comm_cons inv); reflexivity|]. by left.
  - intros read ev seed db Hsrc Htax Hh. destruct (load_active _ _ _ row db (proj2 Hw') Hc' Hh Hrow Hstatus) as (rules & db' & Hcan & Hload).
    exists rules. split; [done|]. unfold reload. cbn [fst]. rewrite Hsrc, Htax. unfold db_op, mbind, evm_bind, install_or_seed, install, set_store, update_from_rules.
    cbn [fst snd]. rewrite Hload. cbn [fst snd ps_rules ps_version ps_policy_id]. rewrite Htax, (canonicalize_rules_idempotent _ _ _ Hcan).
    cbn. unfold refresh_activation. by destruct (refresh_from_db _ _) as [[r pr] db2].
Qed.

End Server.

(** ** Examples *)

Module PolicyDemo.

#[local] Existing Instance DbDemo.json.
#[local] Existing Instance TextsDemo.base64.
#[local] Existing Instance TextsDemo.texts.
#[local] Existing Instance JsonDemo.text.
#[local] Instance arrays : JsonArrays.
Proof.
  refine {| array_length v := match v with inl _ => None | inr rs => Some (Z.of_nat (length rs)) end |}. done.
Defined.

Definition editor : UserContext := {| uc_actor := "eve"; uc_roles := {[ "policy-editor" ]} |}.
Definition admin : UserContext := {| uc_actor := "ann"; uc_roles := {[ "policy-admin" ]} |}.
Definition rule (id : string) (priority : Z) (action : string) (categories : option (list string)) : PolicyRulePayload :=
  {| rp_id := Some id; rp_description := None; rp_priority := priority; rp_action := action;
     rp_conditions := set_categories categories Conditions_default |}.
Definition draft : PolicyDraftRequest :=
  {| dq_name := "Office"; dq_version := None; dq_created_by := None; dq_notes := None;
     dq_rules := [rule "social" 10 "block" (Some ["Social"]); rule "rest" 1000 "allow" None] |}.
Definition release : PolicyPublishRequest := {| pq_version := Some "r1"; pq_notes := None |}.
Definition change (status : option string) (rules : option (list PolicyRulePayload)) : PolicyUpdateRequest :=
  {| uq_name := None; uq_version := None; uq_status := status; uq_notes := None; uq_rules := rules |}.

Definition no_tables : PolicyTables := {| pt_policies := []; pt_rules := []; pt_versions := [] |}.
Definition start (faults : list bool) : Io PolicyTables PolicyEffect := mkIo 0 None faults 1%nat [] no_tables.
Abbreviation serve := (serve_policy shipped true (fun _ => "now") to_ascii_lowercase).
Abbreviation serve_all := (serve_policies shipped true (fun _ => "now") to_ascii_lowercase).
(** The draft is policy 1. *)
Definition drafted : Io PolicyTables PolicyEffect := (serve editor (CreatePolicy draft) (start [])).2.
Definition released : Io PolicyTables PolicyEffect := (serve admin (PublishPolicy 1%nat release) drafted).2.
Definition status_of (id : Uuid) (w : Io PolicyTables PolicyEffect) : option string := a_status <$> control (io_tables w) !! id.

Lemma start_ok faults : world_ok shipped (start faults).
Proof. split; [done|]. split; cbn; try (by intros ? []%elem_of_nil). constructor. Qed.
Lemma start_control faults : control_ok shipped (control (io_tables (start faults))).
Proof. change (control _) with (∅ : Control). split; [intros i j (p & H & _)|intros i p H]; by rewrite lookup_empty in H. Qed.
Lemma drafted_ok : world_ok shipped drafted /\ control_ok shipped (control (io_tables drafted)).
Proof. unfold drafted. apply served_one_ok; [apply start_ok|apply start_control]. Qed.
Lemma released_ok : world_ok shipped released.
Proof. unfold released. apply served_one_ok; apply drafted_ok. Qed.

(** An editor drafts a policy, fails to publish it, and the administrator does. *)
Definition session : list (UserContext * PolicyRequest) :=
  [(editor, CreatePolicy draft); (editor, PublishPolicy 1%nat release); (admin, PublishPolicy 1%nat release)].

Lemma policy_requests_refine_witness :
  let w' := (serve_all session (start [])).2 in
  world_ok shipped w' /\ rtc (permitted shipped session) (control (io_tables (start []))) (control (io_tables w')) /\
  control_ok shipped (control (io_tables w')).
Proof.
  apply (policy_requests_refine shipped true (fun _ => "now") to_ascii_lowercase session (start [])); [apply start_ok|apply start_control].
Defined.

(** An editor changes the live rules and tries to publish: the active policy was active before. *)
Definition edits : list (UserContext * PolicyRequest) :=
  [(editor, UpdatePolicy 1%nat (change None (Some [rule "all" 1 "allow" None]))); (editor, PublishPolicy 1%nat release)].
Lemma only_publishers_activate_witness :
  is_active (control (io_tables (serve_all edits released).2)) 1%nat /\ is_active (control (io_tables released)) 1%nat.
Proof.
  assert (is_active (control (io_tables (serve_all edits released).2)) 1%nat) as Ha by (eexists; split; vm_compute; reflexivity).
  split; [exact Ha|].
  apply (only_publishers_activate shipped true (fun _ => "now") to_ascii_lowercase edits released 1%nat).
  - unfold released. apply served_one_ok; apply drafted_ok.
  - intros user q [[= -> ->]|[= -> ->]%list_elem_of_singleton]%elem_of_cons; vm_compute; reflexivity.
  - exact Ha.
Defined.

Lemma client_errors_change_nothing_witness :
  exists e w', serve admin (DeletePolicy 1%nat) released = (Err e, w') /\ he_status e = CONFLICT /\
    io_tables w' = io_tables released /\ io_trace w' = io_trace released.
Proof.
  destruct (serve admin (DeletePolicy 1%nat) released) as [[u|e] w'] eqn:E; [vm_compute in E; discriminate E|].
  assert (he_status e = CONFLICT) as He by (vm_compute in E; injection E as <- _; reflexivity).
  exists e, w'. split; [reflexivity|]. split; [exact He|].
  apply (client_errors_change_nothing shipped true (fun _ => "now") to_ascii_lowercase admin (DeletePolicy 1%nat) released e w').
  - apply released_ok.
  - exact E.
  - intros [H|H]; rewrite He in H; discriminate H.
Defined.

Definition engine : PolicyEvaluator GoodStore :=
  {| ev_store := {| ps_rules := []; ps_version := "v0"; ps_policy_id := None; ps_taxonomy := shipped |};
     ev_source := Database None; ev_activation := demo_activation |}.

Lemma published_policy_is_served_witness :
  exists d w' rules, publish_policy true (fun _ => "now") admin 1%nat release drafted = (Ok d, w') /\
    canonicalize_rules shipped (de_rules d) = Ok rules /\
    ev_store (reload (fun _ => Err "no file") (engine, engine_db (io_tables w') DbDemo.empty)).2.1 =
      {| ps_rules := rules; ps_version := "r1"; ps_policy_id := Some 1%nat; ps_taxonomy := shipped |}.
Proof.
  destruct (publish_policy true (fun _ => "now") admin 1%nat release drafted) as [[d|e] w'] eqn:E; [|vm_compute in E; discriminate E].
  destruct (published_policy_is_served shipped true (fun _ => "now") admin 1%nat release drafted d w') as (_ & (p & _ & _ & Hv) & _ & H).
  - apply drafted_ok.
  - apply drafted_ok.
  - exact E.
  - destruct (H (fun _ => Err "no file") engine None DbDemo.empty eq_refl eq_refl) as (rules & H1 & H2); [constructor|].
    exists d, w', rules. split; [reflexivity|]. split; [exact H1|]. cbn in Hv. rewrite Hv in H2. exact H2.
Defined.

(** The guard against disabling the active policy looks at "archived" only: an editor turns it back
    into a draft, and no policy is active. *)
Example draft_passes_the_guard :
  let w := (serve editor (UpdatePolicy 1%nat (change (Some "draft") None)) released).2 in
  status_of 1%nat released = Some "active" /\ status_of 1%nat w = Some "draft" /\
  (serve editor (UpdatePolicy 1%nat (change (Some "archived") None)) released).1 =
    Err (active_policy_guard "active policy cannot be disabled directly; activate another policy first").
Proof. vm_compute. done. Qed.

(** The rules of the active policy are replaced by an editor, without publishing, and the engine is
    told to reload them. *)
Example editor_changes_live_rules :
  let w := (serve editor (UpdatePolicy 1%nat (change None (Some [rule "all" 1 "allow" None]))) released).2 in
  status_of 1%nat w = Some "active" /\ length <$> (a_rules <$> control (io_tables w) !! 1%nat) = Some 1%nat /\
  last (io_trace w) = Some (PolicyEvent "policy.propagate_runtime_change" (Some "eve") (Some "1") (PropagationPayload "update" "ok" None)).
Proof. vm_compute. done. Qed.

(** The comparison with the engine is by id and version: when the reload after an update of the
    rules fails, the engine still has the old rules and is said to be in sync. *)
Example stale_rules_in_sync :
  let engine_has := {| rs_policy_id := Some "1"; rs_version := "r1" |} in
  let w := mkIo (io_now released) None (replicate 10 false ++ [true]) (io_next_uuid released) [] (io_tables released) in
  let '(r, w1) := update_policy shipped true editor 1%nat (change None (Some [rule "all" 1 "block" None])) w in
  let '(sync, _) := policy_runtime_sync (Ok engine_has) admin w1 in
  (exists e, r = Err e /\ he_status e = BAD_GATEWAY) /\ current (io_tables w1) 1%nat <> current (io_tables w) 1%nat /\
  exists s, sync = Ok s /\ ss_in_sync s = true.
Proof. vm_compute. split_and!; [by eexists|discriminate|by eexists]. Qed.

(** The offset of a numbered page is computed in 32 bits: page 21474838 of 200 policies starts at
    the 105th row. *)
Example page_number_wraps :
  legacy_offset {| lp_limit := Some 200; lp_cursor := None; lp_page := Some 21474838; lp_page_size := None; lp_status := None;
                   lp_search := None; lp_include_drafts := true |} 200 = 104.
Proof. reflexivity. Qed.

End PolicyDemo.
