(* ===== verification/AdminTaxonomy.v ===== *)
(** * Taxonomy activation in the admin API

    [services/admin-api/src/taxonomy.rs]: which categories and subcategories are enabled, as the
    administrators see and change it.  The two tables are the ones the policy engine refreshes its
    activation profile from ([Activation.v]). *)

From S2P Require Import Prelude RustStr RustNum Types Http Json Taxonomy Db Activation Io Wp Texts.

Local Open Scope Z_scope.

Definition ROLE_POLICY_VIEW : list string := ["policy-admin"; "policy-editor"; "policy-viewer"].
Definition ROLE_TAXONOMY_EDIT : list string := ["policy-admin"; "policy-editor"].
Definition SYSTEM_ACTOR : string := "system".

(** ** Data *)

Record ActivationSubcategoryInput := { as_id : string; as_enabled : bool }.
Record ActivationCategoryInput := { ac_id : string; ac_enabled : bool; ac_subcategories : list ActivationSubcategoryInput }.
Record ActivationUpdateRequest := { aq_version : string; aq_categories : list ActivationCategoryInput }.

Record ValidatedActivationSubcategory := { xs_id : string; xs_enabled : bool }.
Record ValidatedActivationCategory := { xc_id : string; xc_enabled : bool; xc_subcategories : list ValidatedActivationSubcategory }.
Record ValidatedActivationPayload := { xp_version : string; xp_categories : list ValidatedActivationCategory }.

Record TaxonomySubcategoryResponse := {
  ts_id : string; ts_name : string; ts_enabled : bool; ts_effective_enabled : bool; ts_locked : bool
}.
Record TaxonomyCategoryResponse := {
  tc_id : string; tc_name : string; tc_enabled : bool; tc_effective_enabled : bool; tc_locked : bool;
  tc_subcategories : list TaxonomySubcategoryResponse
}.
Record TaxonomyResponse := {
  tr_version : string; tr_updated_at : Z; tr_updated_by : option string; tr_categories : list TaxonomyCategoryResponse
}.
Record ActivationSaveResponse := { av_version : string; av_updated_at : Z; av_updated_by : option string }.

(** The profile as the handlers read it. *)
Record AdminProfile := {
  pf_id : Uuid; pf_version : string; pf_updated_by : option string; pf_updated_at : Z;
  pf_category_states : gmap string bool; pf_subcategory_states : gmap string (gmap string bool)
}.

(** A row of [taxonomy_activation_profiles]: what the engine reads, and who changed it. *)
Record ProfileRecord := { pr_row : ProfileRow; pr_updated_by : option string }.
Record ActivationTables := { at_profiles : list ProfileRecord; at_entries : list EntryRow }.

Inductive TaxonomyPayload :=
  | SavedPayload (v : ValidatedActivationPayload)
  | MutationPayload (method path target : string) (mutation_enabled : bool).
Inductive TaxonomyEffect :=
  | ReloadEngine
  | InvalidatePolicyCache
  | TaxonomyEvent (action : string) (actor target_id : option string) (payload : TaxonomyPayload).

(** [sqlx::Error]. *)
Inductive ActivationError := Sql (e : SqlError) | RowNotFound.

(** ** Validation *)

Definition validation_error (message : string) : HttpError :=
  {| he_status := BAD_REQUEST; he_code := "VALIDATION_ERROR"; he_message := message |}.

Fixpoint join (sep : string) (l : list string) : string :=
  match l with [] => "" | [x] => x | x :: l' => x +:+ sep +:+ join sep l' end.
(** The keys of a [HashMap], in some order. *)
Definition keys {A} (m : gmap string A) : list string := (map_to_list m).*1.

(** [HashMap::insert] in a loop that refuses a second value. *)
Fixpoint index_by {A} (key : A -> string) (duplicate : A -> HttpError) (l : list A) (m : gmap string A) : result HttpError (gmap string A) :=
  match l with
  | [] => Ok m
  | x :: l' => if decide (is_Some (m !! key x)) then Err (duplicate x) else index_by key duplicate l' (<[key x := x]> m)
  end.

Fixpoint take_subcategories (category_id : string) (subs : list CanonicalSubcategory) (by_sub : gmap string ActivationSubcategoryInput)
    : result HttpError (list ValidatedActivationSubcategory * gmap string ActivationSubcategoryInput) :=
  match subs with
  | [] => Ok ([], by_sub)
  | canonical_sub :: subs' =>
      match by_sub !! sub_id canonical_sub with
      | None => Err (validation_error ("missing subcategory " +:+ sub_id canonical_sub +:+ " in category " +:+ category_id))
      | Some sub_input =>
          if default false (sub_always_enabled canonical_sub) && negb (as_enabled sub_input) then
            Err (validation_error ("subcategory " +:+ sub_id canonical_sub +:+ " cannot be disabled"))
          else
            '(validated, rest) ← take_subcategories category_id subs' (delete (sub_id canonical_sub) by_sub);
            Ok ({| xs_id := sub_id canonical_sub; xs_enabled := as_enabled sub_input |} :: validated, rest)
      end
  end.

Definition validate_subcategories (canonical : CanonicalCategory) (input : ActivationCategoryInput)
    : result HttpError (list ValidatedActivationSubcategory) :=
  by_sub ← index_by as_id
    (fun sub => validation_error ("duplicate subcategory " +:+ as_id sub +:+ " in category " +:+ cat_id canonical)) (ac_subcategories input) ∅;
  '(validated, rest) ← take_subcategories (cat_id canonical) (cat_subcategories canonical) by_sub;
  if decide (rest = ∅) then Ok validated
  else Err (validation_error ("unknown subcategories in category " +:+ cat_id canonical +:+ ": " +:+ join ", " (keys rest))).

Fixpoint take_categories (categories : list CanonicalCategory) (by_category : gmap string ActivationCategoryInput)
    : result HttpError (list ValidatedActivationCategory * gmap string ActivationCategoryInput) :=
  match categories with
  | [] => Ok ([], by_category)
  | canonical :: categories' =>
      match by_category !! cat_id canonical with
      | None => Err (validation_error ("missing category " +:+ cat_id canonical +:+ " in payload"))
      | Some input =>
          if default false (cat_always_enabled canonical) && negb (ac_enabled input) then
            Err (validation_error ("category " +:+ cat_id canonical +:+ " cannot be disabled"))
          else
            validated_subs ← validate_subcategories canonical input;
            '(validated, rest) ← take_categories categories' (delete (cat_id canonical) by_category);
            Ok ({| xc_id := cat_id canonical; xc_enabled := ac_enabled input; xc_subcategories := validated_subs |} :: validated, rest)
      end
  end.

Definition validate_activation_payload (payload : ActivationUpdateRequest) (taxonomy : CanonicalTaxonomy)
    : result HttpError ValidatedActivationPayload :=
  let requested_version := trim (aq_version payload) in
  if decide (requested_version <> tx_version taxonomy) then
    Err {| he_status := CONFLICT; he_code := "VERSION_CONFLICT";
           he_message := "taxonomy version mismatch: expected " +:+ tx_version taxonomy +:+ ", got " +:+ requested_version |}
  else
    by_category ← index_by ac_id (fun _ => validation_error "duplicate category id in payload") (aq_categories payload) ∅;
    '(validated, rest) ← take_categories (tx_categories taxonomy) by_category;
    if decide (rest = ∅) then Ok {| xp_version := tx_version taxonomy; xp_categories := validated |}
    else Err (validation_error ("unknown categories in payload: " +:+ join ", " (keys rest))).

Definition assert_no_reserved_ids (taxonomy : CanonicalTaxonomy) : result HttpError unit :=
  if any (fun cat => any (fun sub => bool_decide (sub_id sub = CATEGORY_SENTINEL_ID)) (cat_subcategories cat)) (tx_categories taxonomy) then
    Err {| he_status := INTERNAL_SERVER_ERROR; he_code := "SERVER_ERROR";
           he_message := "canonical taxonomy includes reserved id " +:+ CATEGORY_SENTINEL_ID |}
  else Ok tt.

(** ** What is shown *)

Definition category_enabled (p : AdminProfile) (category_id : string) : bool := default true (pf_category_states p !! category_id).
Definition subcategory_enabled (p : AdminProfile) (category_id subcategory_id : string) : option bool :=
  subs ← pf_subcategory_states p !! category_id; (subs : gmap string bool) !! subcategory_id.

Definition map_subcategory_response (sub : CanonicalSubcategory) (category_id : string) (parent_enabled parent_locked : bool) (profile : AdminProfile)
    : TaxonomySubcategoryResponse :=
  let locked := parent_locked || default false (sub_always_enabled sub) in
  let stored := default parent_enabled (subcategory_enabled profile category_id (sub_id sub)) in
  let enabled := if locked then true else stored in
  {| ts_id := sub_id sub; ts_name := sub_name sub; ts_enabled := enabled; ts_effective_enabled := enabled; ts_locked := locked |}.

Definition map_category_response (category : CanonicalCategory) (profile : AdminProfile) : TaxonomyCategoryResponse :=
  let locked := default false (cat_always_enabled category) in
  let stored_enabled := category_enabled profile (cat_id category) in
  let enabled := if locked then true else stored_enabled in
  {| tc_id := cat_id category; tc_name := cat_name category; tc_enabled := enabled; tc_effective_enabled := enabled; tc_locked := locked;
     tc_subcategories :=
       (fun sub => map_subcategory_response sub (cat_id category) enabled locked profile) <$> cat_subcategories category |}.

(** ** Statements *)

Abbreviation TM := (M ActivationTables TaxonomyEffect).

Definition of_sql {A} (m : TM string A) : TM ActivationError A := map_error (fun _ => Sql SqlFailure) m.
Definition db_error (err : ActivationError) : HttpError :=
  {| he_status := INTERNAL_SERVER_ERROR; he_code := "DB_ERROR";
     he_message := match err with
                   | Sql (Violation c) => "duplicate key value violates unique constraint " +:+ c
                   | Sql SqlFailure => DB_ERROR
                   | RowNotFound => "no rows returned by a query that expected to return at least one row"
                   end |}.

Definition set_profiles (l : list ProfileRecord) (t : ActivationTables) : ActivationTables := {| at_profiles := l; at_entries := at_entries t |}.
Definition set_entries (l : list EntryRow) (t : ActivationTables) : ActivationTables := {| at_profiles := at_profiles t; at_entries := l |}.

Definition entry_key (e : EntryRow) : Uuid * string * string := (ae_profile_id e, ae_category_id e, ae_subcategory_id e).
(** [INSERT INTO taxonomy_activation_entries ..], with the primary key. *)
Definition insert_entry (profile_id : Uuid) (category_id subcategory_id : string) (enabled : bool) : TM ActivationError unit :=
  map_error Sql (checked (fun _ t =>
    let e := {| ae_profile_id := profile_id; ae_category_id := category_id; ae_subcategory_id := subcategory_id; ae_enabled := enabled |} in
    if decide (entry_key e ∈ (entry_key <$> at_entries t)) then Err "taxonomy_activation_entries_pkey"
    else Ok (tt, set_entries (at_entries t ++ [e]) t))).

Definition load_activation_profile : TM ActivationError (option AdminProfile) :=
  maybe_row ← of_sql (fetch (fun _ t => head (order_desc (fun r => ap_updated_at (pr_row r)) (at_profiles t))));
  match maybe_row with
  | None => mret None
  | Some r =>
      let row := pr_row r in
      entries ← of_sql (fetch (fun _ t => List.filter (fun e => bool_decide (ae_profile_id e = ap_id row)) (at_entries t)));
      let states := foldl add_entry (∅, ∅) entries in
      mret (Some {| pf_id := ap_id row; pf_version := ap_version row; pf_updated_by := pr_updated_by r; pf_updated_at := ap_updated_at row;
                    pf_category_states := states.1; pf_subcategory_states := states.2 |})
  end.
Definition reload_profile : TM ActivationError AdminProfile :=
  found ← load_activation_profile;
  of_result (ok_or found RowNotFound).

(** *** Entries the taxonomy has and the profile lacks *)

Definition Missing : Type := gmap string bool * gmap string (gmap string bool) * list (string * string).

Definition missing_subcategory (category_id : string) (s : gmap string bool * list (string * string)) (sub : CanonicalSubcategory)
    : gmap string bool * list (string * string) :=
  if decide (is_Some (s.1 !! sub_id sub)) then s
  else (<[sub_id sub := true]> s.1, s.2 ++ [(category_id, sub_id sub)]).
Definition missing_category (s : Missing) (category : CanonicalCategory) : Missing :=
  let '(cats, subs, inserts) := s in
  let '(cats, inserts) :=
    if decide (is_Some (cats !! cat_id category)) then (cats, inserts)
    else (<[cat_id category := true]> cats, inserts ++ [(cat_id category, CATEGORY_SENTINEL_ID)]) in
  let '(states, inserts) := foldl (missing_subcategory (cat_id category)) (default ∅ (subs !! cat_id category), inserts) (cat_subcategories category) in
  (cats, <[cat_id category := states]> subs, inserts).

Definition update_profile (profile_id : Uuid) (f : ProfileRecord -> ProfileRecord) (t : ActivationTables) : ActivationTables :=
  set_profiles ((fun r => if decide (ap_id (pr_row r) = profile_id) then f r else r) <$> at_profiles t) t.
Definition with_version (version : string) (r : ProfileRecord) : ProfileRecord :=
  {| pr_row := {| ap_id := ap_id (pr_row r); ap_version := version; ap_updated_at := ap_updated_at (pr_row r) |}; pr_updated_by := pr_updated_by r |}.

Definition synchronize_profile (profile : AdminProfile) (taxonomy : CanonicalTaxonomy) : TM ActivationError AdminProfile :=
  let '(cats, subs, inserts) :=
    foldl missing_category (pf_category_states profile, pf_subcategory_states profile, []) (tx_categories taxonomy) in
  let version_outdated := bool_decide (pf_version profile <> tx_version taxonomy) in
  if bool_decide (inserts = []) && negb version_outdated then
    mret {| pf_id := pf_id profile; pf_version := pf_version profile; pf_updated_by := pf_updated_by profile;
            pf_updated_at := pf_updated_at profile; pf_category_states := cats; pf_subcategory_states := subs |}
  else
    _ ← atomic (fun _ => Sql SqlFailure) (
      _ ← each (fun e : string * string => insert_entry (pf_id profile) e.1 e.2 true) inserts;
      if version_outdated then of_sql (update (fun _ => update_profile (pf_id profile) (with_version (tx_version taxonomy)))) else mret tt);
    reload_profile.

Definition persist_activation_profile (profile_id : Uuid) (payload : ValidatedActivationPayload) (taxonomy : CanonicalTaxonomy) (actor : string)
    : TM ActivationError AdminProfile :=
  _ ← atomic (fun _ => Sql SqlFailure) (
    _ ← of_sql (update (fun now => update_profile profile_id (fun r =>
          {| pr_row := {| ap_id := ap_id (pr_row r); ap_version := tx_version taxonomy; ap_updated_at := now |}; pr_updated_by := Some actor |})));
    _ ← of_sql (update (fun _ t => set_entries (List.filter (fun e => negb (bool_decide (ae_profile_id e = profile_id))) (at_entries t)) t));
    each (fun category =>
      _ ← insert_entry profile_id (xc_id category) CATEGORY_SENTINEL_ID (xc_enabled category);
      each (fun sub => insert_entry profile_id (xc_id category) (xs_id sub) (xs_enabled sub)) (xc_subcategories category))
      (xp_categories payload));
  reload_profile.

Definition seed_default_profile (taxonomy : CanonicalTaxonomy) : TM ActivationError AdminProfile :=
  profile_id ← new_v4;
  _ ← atomic (fun _ => Sql SqlFailure) (
    _ ← of_sql (update (fun now t => set_profiles (at_profiles t ++
          [{| pr_row := {| ap_id := profile_id; ap_version := tx_version taxonomy; ap_updated_at := now |}; pr_updated_by := Some SYSTEM_ACTOR |}]) t));
    each (fun category =>
      _ ← insert_entry profile_id (cat_id category) CATEGORY_SENTINEL_ID true;
      each (fun sub => insert_entry profile_id (cat_id category) (sub_id sub) true) (cat_subcategories category))
      (tx_categories taxonomy));
  reload_profile.

Definition ensure_activation_profile (taxonomy : CanonicalTaxonomy) : TM ActivationError AdminProfile :=
  found ← load_activation_profile;
  match found with
  | Some profile => synchronize_profile profile taxonomy
  | None => seed_default_profile taxonomy
  end.

(** ** Handlers *)

Section Handlers.
  Context (taxonomy : CanonicalTaxonomy) (has_cache mutation_enabled : bool).

Definition forbidden_error : HttpError :=
  {| he_status := FORBIDDEN; he_code := "FORBIDDEN"; he_message := "insufficient privileges" |}.

Definition get_taxonomy (user : UserContext) : TM HttpError TaxonomyResponse :=
  if require_roles user ROLE_POLICY_VIEW then
    _ ← of_result (assert_no_reserved_ids taxonomy);
    profile ← map_error db_error (ensure_activation_profile taxonomy);
    mret {| tr_version := pf_version profile; tr_updated_at := pf_updated_at profile; tr_updated_by := pf_updated_by profile;
            tr_categories := (fun category => map_category_response category profile) <$> tx_categories taxonomy |}
  else of_result (Err forbidden_error).

Definition update_taxonomy_activation (user : UserContext) (payload : ActivationUpdateRequest) : TM HttpError ActivationSaveResponse :=
  if require_roles user ROLE_TAXONOMY_EDIT then
    _ ← of_result (assert_no_reserved_ids taxonomy);
    validated ← of_result (validate_activation_payload payload taxonomy);
    profile ← map_error db_error (ensure_activation_profile taxonomy);
    updated ← map_error db_error (persist_activation_profile (pf_id profile) validated taxonomy (uc_actor user));
    _ ← emit (TaxonomyEvent "taxonomy.activation.update" (Some (uc_actor user)) (Some (pretty (pf_id updated))) (SavedPayload validated));
    _ ← map_error (fun _ => {| he_status := BAD_GATEWAY; he_code := "POLICY_RELOAD_FAILED";
                               he_message := "taxonomy update persisted but policy-engine reload failed" |}) (command ReloadEngine);
    _ ← (if has_cache then dropped (command InvalidatePolicyCache) else mret tt);
    mret {| av_version := pf_version updated; av_updated_at := pf_updated_at updated; av_updated_by := pf_updated_by updated |}
  else of_result (Err forbidden_error).

Definition handle_mutation_request (method path : string) (user : UserContext) (target : string) : TM HttpError unit :=
  _ ← emit (TaxonomyEvent (if mutation_enabled then "taxonomy.mutation.maintenance" else "taxonomy.mutation.blocked")
             (Some (uc_actor user)) None (MutationPayload method path target mutation_enabled));
  of_result (Err (
    if mutation_enabled then
      {| he_status := NOT_IMPLEMENTED; he_code := "TAXONOMY_MUTATION_UNSUPPORTED";
         he_message := "Maintenance mode enabled, but taxonomy structure is governed by config/canonical-taxonomy.json. Update the file and redeploy instead of calling legacy mutation endpoints." |}
    else
      {| he_status := LOCKED; he_code := "TAXONOMY_LOCKED";
         he_message := "Taxonomy structure is locked. Set OD_TAXONOMY_MUTATION_ENABLED=true only if you must perform break-glass maintenance." |})).
Definition block_category_mutation (method path : string) (user : UserContext) : TM HttpError unit :=
  handle_mutation_request method path user "category".
Definition block_subcategory_mutation (method path : string) (user : UserContext) : TM HttpError unit :=
  handle_mutation_request method path user "subcategory".

End Handlers.
