(* ===== verification/TaxonomyEditing.v ===== *)
(** * Activation, from the administrator to the engine

    What the handlers of [AdminTaxonomy.v] store is what the engine's profile ([Activation.v]) says:
    the answer of [get_taxonomy] shows the categories as an engine that loads the tables would treat
    them, and after an answered update the next refresh of the engine follows it. *)

From S2P Require Import Prelude RustStr RustNum Types Http Json Taxonomy Db PolicyStore Evaluator Activation Io Wp Texts AdminTaxonomy.

Local Open Scope Z_scope.

Abbreviation World := (Io ActivationTables TaxonomyEffect).

(** ** The tables *)

Definition newest_profile (t : ActivationTables) : option ProfileRecord := head (order_desc (fun r => ap_updated_at (pr_row r)) (at_profiles t)).
Definition entries_of (id : Uuid) (t : ActivationTables) : list EntryRow := List.filter (fun e => bool_decide (ae_profile_id e = id)) (at_entries t).
(** What the tables say of [(c, s)]. *)
Definition says (t : ActivationTables) (c s : string) : option bool :=
  r ← newest_profile t; last_entry c s (entries_of (ap_id (pr_row r)) t).

Record tables_ok (now : Z) (next : Uuid) (t : ActivationTables) : Prop := {
  tk_ids : NoDup ((fun r => ap_id (pr_row r)) <$> at_profiles t);
  tk_profiles r : r ∈ at_profiles t -> (ap_id (pr_row r) < next)%nat /\ ap_updated_at (pr_row r) <= now;
  tk_entries : NoDup (entry_key <$> at_entries t);
  tk_entry_ids e : e ∈ at_entries t -> (ae_profile_id e < next)%nat
}.
Lemma activation_tables_mono now now' next next' t : now <= now' -> (next <= next')%nat -> tables_ok now next t -> tables_ok now' next' t.
Proof.
  intros Hn Hx [H1 H2 H3 H4]. split; [done| |done|].
  - intros r Hr. destruct (H2 r Hr). split; lia.
  - intros e He. specialize (H4 e He). lia.
Qed.
Definition world_ok : World -> Prop := sound tables_ok.

(** *** Entries *)

Lemma last_entry_In l e : NoDup (entry_key <$> l) -> e ∈ l -> (forall e', e' ∈ l -> ae_profile_id e' = ae_profile_id e) ->
  last_entry (ae_category_id e) (ae_subcategory_id e) l = Some (ae_enabled e).
Proof.
  intros Hnd He Hp. unfold last_entry.
  assert (filter (entry_for (ae_category_id e) (ae_subcategory_id e)) l = [e]) as ->; [|done].
  assert (forall e', e' ∈ l -> entry_for (ae_category_id e) (ae_subcategory_id e) e' -> e' = e) as Hu.
  { intros e' He' [H1 H2]. apply (NoDup_fmap_unique entry_key l); [done..|]. unfold entry_key. by rewrite H1, H2, (Hp e' He'). }
  apply NoDup_fmap_1 in Hnd. apply list_elem_of_split in He as (l1 & l2 & ->). apply NoDup_app in Hnd as (_ & Hd & [Hn _]%NoDup_cons).
  rewrite filter_app, filter_cons_True by done. rewrite (filter_all_false _ l1), (filter_all_false _ l2); [done|apply Forall_forall..].
  - intros x Hx Hf. rewrite (Hu x) in Hx; [done|set_solver|done].
  - intros x Hx Hf. rewrite (Hu x) in Hx; [|set_solver|done]. apply (Hd e); [done|by left].
Qed.
Lemma last_entry_Some l c s b : last_entry c s l = Some b -> exists e, e ∈ l /\ ae_category_id e = c /\ ae_subcategory_id e = s /\ ae_enabled e = b.
Proof.
  unfold last_entry. intros (e & He & ->)%fmap_Some. apply last_Some_elem_of, list_elem_of_filter in He as [[H1 H2] He]. eauto.
Qed.
Lemma last_entry_is_Some l c s : is_Some (last_entry c s l) <-> exists e, e ∈ l /\ ae_category_id e = c /\ ae_subcategory_id e = s.
Proof.
  split; [intros [b (e & He & Hc & Hs & _)%last_entry_Some]; eauto|]. intros (e & He & Hc & Hs). unfold last_entry. apply fmap_is_Some.
  destruct (last (filter _ l)) as [x|] eqn:E; [done|]. apply last_None in E.
  assert (e ∈ filter (entry_for c s) l) as H by (apply list_elem_of_filter; done). rewrite E in H. by apply elem_of_nil in H.
Qed.
Lemma entries_of_In id t e : e ∈ entries_of id t <-> e ∈ at_entries t /\ ae_profile_id e = id.
Proof. unfold entries_of. by rewrite !list_elem_of_In, List.filter_In, bool_decide_eq_true. Qed.
Lemma entries_of_NoDup id t : NoDup (entry_key <$> at_entries t) -> NoDup (entry_key <$> entries_of id t).
Proof. intros H. eapply sublist_NoDup; [exact H|]. apply fmap_sublist, filter_sublist. Qed.

(** ** Statements *)

Lemma set_entries_same t : set_entries (at_entries t) t = t.
Proof. by destruct t. Qed.

Lemma insert_wp id c s b (w : World) :
  wp (insert_entry id c s b)
    (fun _ w1 => later w w1 /\ io_tables w1 = set_entries (at_entries (io_tables w) ++
       [{| ae_profile_id := id; ae_category_id := c; ae_subcategory_id := s; ae_enabled := b |}]) (io_tables w) /\
       (id, c, s) ∉ (entry_key <$> at_entries (io_tables w)))
    (fun _ w1 => later w w1) w.
Proof.
  unfold insert_entry. wp; [auto with later|intros _ _; auto with later|]. intros [] t'. cbn. case_decide as H; [done|]. intros [= <-].
  split_and!; [auto with later|done|done].
Qed.

Section Rows.
  Context {A C : Type} (id : Uuid) (cid : A -> string) (cen : A -> bool) (subs : A -> list C) (sid : C -> string) (sen : C -> bool).

(** The rows of a category and of its subcategories. *)
Definition category_row (a : A) : EntryRow :=
  {| ae_profile_id := id; ae_category_id := cid a; ae_subcategory_id := CATEGORY_SENTINEL_ID; ae_enabled := cen a |}.
Definition subcategory_row (a : A) (b : C) : EntryRow :=
  {| ae_profile_id := id; ae_category_id := cid a; ae_subcategory_id := sid b; ae_enabled := sen b |}.
Definition rows (a : A) : list EntryRow := category_row a :: (subcategory_row a <$> subs a).

Lemma insert_list_wp {D} (row : D -> EntryRow) l (w : World) :
  NoDup (entry_key <$> at_entries (io_tables w)) ->
  wp (each (fun d => insert_entry (ae_profile_id (row d)) (ae_category_id (row d)) (ae_subcategory_id (row d)) (ae_enabled (row d))) l)
    (fun _ w1 => later w w1 /\ io_tables w1 = set_entries (at_entries (io_tables w) ++ (row <$> l)) (io_tables w) /\
       NoDup (entry_key <$> at_entries (io_tables w1)))
    (fun _ w1 => later w w1) w.
Proof.
  intros Hnd. set (t := io_tables w) in *.
  apply (wp_each _ (fun l w1 => later w w1 /\ io_tables w1 = set_entries (at_entries t ++ (row <$> l)) t /\ NoDup (entry_key <$> at_entries (io_tables w1)))).
  - cbn. rewrite app_nil_r. split_and!; [reflexivity|by rewrite set_entries_same|done].
  - intros l1 x l2 w1 _ (Hl & Ht & Hn). eapply wp_weaken; [apply insert_wp| |cbn; intros e w2 H; by trans w1].
    cbn. intros _ w2 (Hl2 & Ht2 & Hfresh). split_and!; [by trans w1| |].
    + rewrite Ht2, Ht. unfold set_entries. cbn. rewrite fmap_app, <- app_assoc. cbn. by destruct (row x).
    + rewrite Ht2. cbn. rewrite fmap_app. apply NoDup_app. split_and!; [done| |apply NoDup_singleton].
      intros k Hk ->%list_elem_of_singleton. done.
Qed.

Lemma insert_all_wp l (w : World) :
  NoDup (entry_key <$> at_entries (io_tables w)) ->
  wp (each (fun a => _ ← insert_entry id (cid a) CATEGORY_SENTINEL_ID (cen a); each (fun b => insert_entry id (cid a) (sid b) (sen b)) (subs a)) l)
    (fun _ w1 => later w w1 /\ io_tables w1 = set_entries (at_entries (io_tables w) ++ (l ≫= rows)) (io_tables w) /\
       NoDup (entry_key <$> at_entries (io_tables w1)))
    (fun _ w1 => later w w1) w.
Proof.
  intros Hnd. set (t := io_tables w) in *.
  apply (wp_each _ (fun l w1 => later w w1 /\ io_tables w1 = set_entries (at_entries t ++ (l ≫= rows)) t /\ NoDup (entry_key <$> at_entries (io_tables w1)))).
  - cbn. rewrite app_nil_r. split_and!; [reflexivity|by rewrite set_entries_same|done].
  - intros l1 x l2 w1 _ (Hl & Ht & Hn). wp. eapply wp_weaken; [apply insert_wp| |cbn; intros e w2 H; by trans w1].
    cbn. intros _ w2 (Hl2 & Ht2 & Hfresh).
    assert (NoDup (entry_key <$> at_entries (io_tables w2))) as Hn2.
    { rewrite Ht2. cbn. rewrite fmap_app. apply NoDup_app. split_and!; [done| |apply NoDup_singleton].
      intros k Hk ->%list_elem_of_singleton. done. }
    eapply wp_weaken; [apply (insert_list_wp (subcategory_row x)), Hn2| |cbn; intros e w3 H; trans w1; [done|by trans w2]].
    cbn. intros _ w3 (Hl3 & Ht3 & Hn3). split_and!; [trans w1; [done|by trans w2]| |done].
    rewrite Ht3, Ht2, Ht. unfold set_entries. cbn. rewrite bind_app. cbn. by rewrite app_nil_r, <- !app_assoc.
Qed.

End Rows.

(** ** Profiles *)

Definition profile_of (r : ProfileRecord) (t : ActivationTables) : AdminProfile :=
  let states := foldl add_entry (∅, ∅) (entries_of (ap_id (pr_row r)) t) in
  {| pf_id := ap_id (pr_row r); pf_version := ap_version (pr_row r); pf_updated_by := pr_updated_by r; pf_updated_at := ap_updated_at (pr_row r);
     pf_category_states := states.1; pf_subcategory_states := states.2 |}.

(** A profile in memory says what the tables say. *)
Definition agrees (p : AdminProfile) (t : ActivationTables) : Prop :=
  exists r, newest_profile t = Some r /\ pf_id p = ap_id (pr_row r) /\
    forall c s, states_of (pf_category_states p, pf_subcategory_states p) c s = says t c s.

Lemma profile_of_agrees r t : newest_profile t = Some r -> agrees (profile_of r t) t.
Proof.
  intros Hr. exists r. split_and!; [done..|]. intros c s. unfold says. rewrite Hr. cbn -[foldl]. rewrite <- states_of_fold_empty.
  unfold profile_of. cbn -[foldl]. by destruct (foldl _ _ _).
Qed.

Lemma load_wp (w : World) :
  wp load_activation_profile
    (fun found w1 => later w w1 /\ io_tables w1 = io_tables w /\ found = (fun r => profile_of r (io_tables w)) <$> newest_profile (io_tables w))
    (fun _ w1 => later w w1 /\ io_tables w1 = io_tables w) w.
Proof.
  unfold load_activation_profile, of_sql, newest_profile. wp; [auto with later|].
  destruct (head _) as [r|]; wp; [split; [trans (elapse w); auto with later|done]| |auto with later].
  split; [trans (elapse w); auto with later|]. done.
Qed.
Lemma reload_wp (w : World) :
  wp reload_profile
    (fun p w1 => later w w1 /\ io_tables w1 = io_tables w /\ agrees p (io_tables w))
    (fun _ w1 => later w w1 /\ io_tables w1 = io_tables w) w.
Proof.
  unfold reload_profile. wp. eapply wp_weaken; [apply load_wp| |done]. cbn. intros found w1 (H1 & H2 & ->). wp; [|done].
  intros p (r & Hr & ->)%ok_or_Ok%fmap_Some. split_and!; [done..|]. by apply profile_of_agrees.
Qed.

(** *** What the taxonomy has and the profile lacks *)

Definition grows (V V' : string -> string -> option bool) (more : list (string * string)) : Prop :=
  forall c s, V' c s = V c s \/ V c s = None /\ V' c s = Some true /\ (c, s) ∈ more.
Lemma grows_trans V V' V'' more more' : grows V V' more -> grows V' V'' more' -> grows V V'' (more ++ more').
Proof.
  intros H1 H2 c s. destruct (H2 c s) as [->|(Hn & -> & Hin)].
  - destruct (H1 c s) as [->|(? & ? & ?)]; [by left|right]. split_and!; [done..|]. apply elem_of_app. by left.
  - destruct (H1 c s) as [E|(E & E' & _)]; [|congruence]. right. split_and!; [congruence|done|]. apply elem_of_app. by right.
Qed.
Lemma grows_is_Some V V' more c s : grows V V' more -> is_Some (V c s) -> is_Some (V' c s).
Proof. intros H Hs. destruct (H c s) as [->|(E & _)]; [done|]. rewrite E in Hs. by destruct Hs. Qed.

Definition covers (V : string -> string -> option bool) (cat : CanonicalCategory) : Prop :=
  is_Some (V (cat_id cat) CATEGORY_SENTINEL_ID) /\ forall sub, sub ∈ cat_subcategories cat -> is_Some (V (cat_id cat) (sub_id sub)).
Definition unreserved (cat : CanonicalCategory) : Prop := forall sub, sub ∈ cat_subcategories cat -> sub_id sub <> CATEGORY_SENTINEL_ID.

Lemma missing_subcategories c l m ins m' ins' :
  foldl (missing_subcategory c) (m, ins) l = (m', ins') ->
  exists more, ins' = ins ++ more /\
    (forall s, m' !! s = m !! s \/ m !! s = None /\ m' !! s = Some true /\ (c, s) ∈ more) /\
    (forall sub, sub ∈ l -> is_Some (m' !! sub_id sub)).
Proof.
  revert m ins. induction l as [|sub l IH]; intros m ins; cbn [foldl].
  - intros [= <- <-]. exists []. rewrite app_nil_r. split_and!; [done|by left|]. intros sub []%elem_of_nil.
  - unfold missing_subcategory at 2. cbn [fst snd]. case_decide as Hs; intros (more & -> & H1 & H2)%IH.
    + exists more. split_and!; [done|done|]. intros x [->|Hx]%elem_of_cons; [|by apply H2].
      destruct (H1 (sub_id sub)) as [->|(E & _)]; [done|]. rewrite E in Hs. by destruct Hs.
    + exists ((c, sub_id sub) :: more). rewrite <- app_assoc. split_and!; [done| |].
      * intros s. destruct (decide (s = sub_id sub)) as [->|Hne].
        -- right. destruct (H1 (sub_id sub)) as [E|(E & _)]; rewrite lookup_insert_eq in E; [|done].
           split_and!; [by apply eq_None_not_Some|done|by left].
        -- destruct (H1 s) as [E|(E & E' & Hin)]; rewrite lookup_insert_ne in E by done; [by left|right]. split_and!; [done..|by right].
      * intros x [->|Hx]%elem_of_cons; [|by apply H2]. destruct (H1 (sub_id sub)) as [E|(E & E' & _)]; [|by rewrite E'].
        rewrite E, lookup_insert_eq. done.
Qed.

Lemma missing_category_grows cats subs ins cat cats' subs' ins' :
  unreserved cat -> missing_category (cats, subs, ins) cat = (cats', subs', ins') ->
  exists more, ins' = ins ++ more /\ grows (states_of (cats, subs)) (states_of (cats', subs')) more /\ covers (states_of (cats', subs')) cat.
Proof.
  intros Hu. unfold missing_category. set (ci := if decide _ then _ else _). destruct ci as [cats1 ins1] eqn:Eci.
  destruct (foldl _ _ _) as [m' ins2] eqn:Ef. intros [= <- <- <-]. apply missing_subcategories in Ef as (more & -> & H1 & H2).
  assert (exists first, ins1 = ins ++ first /\ is_Some (cats1 !! cat_id cat) /\
    forall c, cats1 !! c = cats !! c \/ cats !! c = None /\ cats1 !! c = Some true /\ (c, CATEGORY_SENTINEL_ID) ∈ first) as (first & -> & Hc & Hcs).
  { unfold ci in Eci. case_decide as Hs; injection Eci as <- <-.
    - exists []. rewrite app_nil_r. split_and!; [done..|by left].
    - exists [(cat_id cat, CATEGORY_SENTINEL_ID)]. rewrite lookup_insert_eq. split_and!; [done..|]. intros c.
      destruct (decide (c = cat_id cat)) as [->|Hne]; [right|left; by rewrite lookup_insert_ne].
      rewrite lookup_insert_eq. split_and!; [by apply eq_None_not_Some|done|by left]. }
  exists (first ++ more). rewrite <- app_assoc. split_and!; [done| |].
  - intros c s. unfold states_of. cbn [fst snd]. case_decide as Hs; [subst s|].
    + destruct (Hcs c) as [->|(E & E' & Hin)]; [by left|right]. split_and!; [done..|]. apply elem_of_app. by left.
    + destruct (decide (c = cat_id cat)) as [->|Hne]; [|left; by rewrite lookup_insert_ne]. rewrite lookup_insert_eq. cbn.
      destruct (H1 s) as [->|(E & -> & Hin)].
      * left. destruct (subs !! cat_id cat); cbn; [done|by rewrite lookup_empty].
      * right. split_and!; [|done|apply elem_of_app; by right]. by destruct (subs !! cat_id cat).
  - split; [unfold states_of; by rewrite decide_True|]. intros sub Hsub. unfold states_of. rewrite decide_False by by apply Hu.
    cbn [snd]. rewrite lookup_insert_eq. by apply H2.
Qed.

Lemma missing_grows categories cats subs ins cats' subs' ins' :
  (forall cat, cat ∈ categories -> unreserved cat) -> foldl missing_category (cats, subs, ins) categories = (cats', subs', ins') ->
  exists more, ins' = ins ++ more /\ grows (states_of (cats, subs)) (states_of (cats', subs')) more /\
    forall cat, cat ∈ categories -> covers (states_of (cats', subs')) cat.
Proof.
  revert cats subs ins. induction categories as [|cat categories IH]; intros cats subs ins Hu; cbn [foldl].
  - intros [= <- <- <-]. exists []. rewrite app_nil_r. split_and!; [done|by left|]. intros cat []%elem_of_nil.
  - destruct (missing_category _ cat) as [[cats1 subs1] ins1] eqn:E. apply missing_category_grows in E as (m1 & -> & G1 & C1); [|apply Hu; by left].
    intros (m2 & -> & G2 & C2)%IH; [|intros x Hx; apply Hu; by right]. exists (m1 ++ m2). rewrite <- app_assoc.
    split_and!; [done|by eapply grows_trans|]. intros x [->|Hx]%elem_of_cons; [|by apply C2]. destruct C1 as [C1 C1'].
    split; [by eapply grows_is_Some|]. intros sub Hsub. eapply grows_is_Some; [done|by apply C1'].
Qed.

(** ** The operations *)

Section Operations.
  Context (taxonomy : CanonicalTaxonomy) (Hres : assert_no_reserved_ids taxonomy = Ok tt).

Definition covered (t : ActivationTables) : Prop := forall cat, cat ∈ tx_categories taxonomy -> covers (says t) cat.

Lemma all_unreserved cat : cat ∈ tx_categories taxonomy -> unreserved cat.
Proof using Hres.
  intros Hc sub Hs E. unfold assert_no_reserved_ids in Hres. destruct (any _ _) eqn:Ea; [done|]. rewrite any_false in Ea.
  specialize (Ea cat Hc). rewrite any_false in Ea. specialize (Ea sub Hs). by rewrite bool_decide_true in Ea.
Qed.

(** The result of an operation that reads the profile back at its end. *)
Definition settled (w : World) (p : AdminProfile) (w' : World) : Prop :=
  later w w' /\ world_ok w' /\ agrees p (io_tables w') /\ covered (io_tables w').
Definition failed (w w' : World) : Prop := later w w' /\ world_ok w'.

Lemma read_back (w : World) (m : TM ActivationError unit) :
  wp m (fun _ w1 => later w w1 /\ world_ok w1 /\ covered (io_tables w1)) (fun _ => failed w) w ->
  wp (_ ← m; reload_profile) (settled w) (fun _ => failed w) w.
Proof.
  intros Hm. apply wp_bind. eapply wp_weaken; [exact Hm| |done]. cbn. intros _ w1 (Hl & Hw1 & Hc).
  eapply wp_weaken; [apply reload_wp|..]; cbn.
  - intros p w2 (Hl2 & Ht & Ha). split_and!; [by trans w1|by eapply (sound_later _ activation_tables_mono)|by rewrite Ht..].
  - intros e w2 (Hl2 & Ht). split; [by trans w1|by eapply (sound_later _ activation_tables_mono)].
Qed.

Lemma newest_map (f : ProfileRecord -> ProfileRecord) l entries entries' :
  (forall r, ap_updated_at (pr_row (f r)) = ap_updated_at (pr_row r)) ->
  newest_profile {| at_profiles := f <$> l; at_entries := entries' |} = f <$> newest_profile {| at_profiles := l; at_entries := entries |}.
Proof.
  intros Hf. unfold newest_profile, order_desc. cbn. rewrite sort_by_key_fmap.
  assert (sort_by_key (fun x => - ap_updated_at (pr_row (f x))) l = sort_by_key (fun r => - ap_updated_at (pr_row r)) l) as ->.
  { induction l as [|x l IH]; [done|]. cbn. rewrite IH. generalize (sort_by_key (fun r => - ap_updated_at (pr_row r)) l). clear IH.
    intros k. induction k as [|y k IH]; [done|]. cbn. rewrite !Hf. by case_decide; rewrite ?IH. }
  by destruct (sort_by_key _ l).
Qed.

Lemma newest_In t r : newest_profile t = Some r -> r ∈ at_profiles t.
Proof.
  unfold newest_profile, order_desc. intros H. assert (r ∈ sort_by_key (fun r => - ap_updated_at (pr_row r)) (at_profiles t)) as Hin
    by (destruct (sort_by_key _ _); [done|]; injection H as ->; left).
  by rewrite sort_by_key_perm in Hin.
Qed.

(** Entries added to the newest profile. *)
Lemma added_covered r t t' (inserts : list (string * string)) p cats subs :
  newest_profile t = Some r -> agrees p t ->
  grows (states_of (pf_category_states p, pf_subcategory_states p)) (states_of (cats, subs)) inserts ->
  (forall cat, cat ∈ tx_categories taxonomy -> covers (states_of (cats, subs)) cat) ->
  (exists r', newest_profile t' = Some r' /\ ap_id (pr_row r') = ap_id (pr_row r)) ->
  at_entries t' = at_entries t ++ ((fun e : string * string =>
    {| ae_profile_id := pf_id p; ae_category_id := e.1; ae_subcategory_id := e.2; ae_enabled := true |}) <$> inserts) ->
  covered t'.
Proof.
  intros Hr (r0 & Hr0 & Hid & Hag) Hg Hc (r' & Hr' & Eid) He. assert (r0 = r) as -> by congruence.
  assert (forall c s, is_Some (states_of (cats, subs) c s) -> is_Some (says t' c s)) as H.
  { intros c s Hs. unfold says. rewrite Hr'. cbn. rewrite Eid. apply last_entry_is_Some. destruct (Hg c s) as [E|(_ & _ & Hin)].
    - rewrite E, Hag in Hs. unfold says in Hs. rewrite Hr in Hs. cbn in Hs. apply last_entry_is_Some in Hs as (e & [Hin Hp]%entries_of_In & H1 & H2).
      exists e. split_and!; [|done..]. apply entries_of_In. split; [|done]. rewrite He. apply elem_of_app. by left.
    - exists {| ae_profile_id := pf_id p; ae_category_id := c; ae_subcategory_id := s; ae_enabled := true |}. split_and!; [|done..].
      apply entries_of_In. split; [|done]. rewrite He. apply elem_of_app. right. apply list_elem_of_fmap. by exists (c, s). }
  intros cat Hcat. destruct (Hc cat Hcat) as [H1 H2]. split; [by apply H|]. intros sub Hsub. apply H, H2, Hsub.
Qed.

Lemma with_version_ok now next t id version :
  tables_ok now next t -> tables_ok now next (update_profile id (with_version version) t).
Proof.
  intros [H1 H2 H3 H4]. split; cbn; [| |done|done].
  - rewrite <- list_fmap_compose. erewrite list_fmap_ext; [exact H1|]. intros i r _. cbn. by case_decide.
  - intros r (r0 & -> & Hr0)%list_elem_of_fmap. specialize (H2 r0 Hr0). by case_decide.
Qed.

Lemma synchronize_wp p (w : World) :
  world_ok w -> agrees p (io_tables w) -> wp (synchronize_profile p taxonomy) (settled w) (fun _ => failed w) w.
Proof using Hres.
  intros Hw Hag. unfold synchronize_profile.
  destruct (foldl missing_category _ _) as [[cats subs] inserts] eqn:Ef. apply missing_grows in Ef as (more & -> & Hg & Hc); [|apply all_unreserved].
  cbn [app] in *. pose proof Hag as (r & Hr & Hid & Hsays). apply wp_if; intros Hb.
  - apply andb_true_iff in Hb as [Hm%bool_decide_eq_true _]. subst more.
    assert (forall c s, states_of (cats, subs) c s = says (io_tables w) c s) as Hsame.
    { intros c s. rewrite <- Hsays. destruct (Hg c s) as [->|(_ & _ & []%elem_of_nil)]; done. }
    wp. split_and!; [reflexivity|done|by exists r|]. intros cat Hcat. destruct (Hc cat Hcat) as [H1 H2].
    split; [by rewrite <- Hsame|]. intros sub Hsub. rewrite <- Hsame. by apply H2.
  - apply read_back. eapply wp_weaken; [eapply (atomic_sound tables_ok activation_tables_mono _ _ (fun _ t => covered t)); [exact Hw|]|..]; cbn beta;
      [|by intros _ w1 (? & ? & ?)|by intros e w1 (? & ? & _)].
    intros w0 Htx Hnx0 Ht0. pose proof (proj2 Hw) as Hok. apply wp_bind.
    eapply wp_weaken; [apply (insert_list_wp (fun e : string * string => {| ae_profile_id := pf_id p; ae_category_id := e.1;
      ae_subcategory_id := e.2; ae_enabled := true |}))| |done]; [rewrite Ht0; apply (tk_entries _ _ _ Hok)|].
    cbn. rewrite Ht0. intros _ w1 (Hl & Ht1 & Hn1).
    assert (tables_ok (io_now w + 1) (io_next_uuid w1) (io_tables w1)) as Hok1.
    { destruct Hl as (_ & Hnx & _). rewrite Hnx0 in Hnx. destruct (activation_tables_mono (io_now w) (io_now w + 1) _ (io_next_uuid w1) _ ltac:(lia) Hnx Hok) as [K1 K2 K3 K4].
      rewrite Ht1 in *. split; [done..|]. cbn. intros e [He|(x & -> & _)%list_elem_of_fmap]%elem_of_app; [by apply K4|].
      cbn. rewrite Hid. by apply K2, newest_In. }
    unfold of_sql. apply wp_if; intros Hv; wp; [by etrans; [|apply later_elapse]| |].
    + split_and!; [by etrans; [|apply later_tables_elapse]|by apply with_version_ok|].
      eapply (added_covered r (io_tables w)); [done|done|exact Hg|done| |cbn; by rewrite Ht1]. cbn.
      rewrite Ht1. unfold update_profile, set_profiles, set_entries. cbn. rewrite (newest_map _ _ (at_entries (io_tables w))).
      * destruct (io_tables w) as [pr en]. cbn in *. rewrite Hr. cbn. eexists. split; [done|]. repeat case_match; done.
      * intros x. repeat case_match; done.
    + split_and!; [done|done|]. eapply (added_covered r (io_tables w)); [done|done|exact Hg|done| |cbn; by rewrite Ht1].
      exists r. rewrite Ht1. done.
Qed.

Lemma newest_None t : newest_profile t = None -> at_profiles t = [].
Proof.
  unfold newest_profile, order_desc. intros H. destruct (at_profiles t) as [|r l] eqn:E; [done|].
  pose proof (sort_by_key_perm (fun r => - ap_updated_at (pr_row r)) (r :: l)) as Hp. destruct (sort_by_key _ _); [|done].
  by apply Permutation_nil_cons in Hp.
Qed.

Lemma rows_In {A C} id cid cen (subs : A -> list C) sid sen (l : list A) e :
  e ∈ (l ≫= rows id cid cen subs sid sen) <->
  exists a, a ∈ l /\ (e = category_row id cid cen a \/ exists b, b ∈ subs a /\ e = subcategory_row id cid sid sen a b).
Proof.
  rewrite list_elem_of_bind. unfold rows. split.
  - intros (a & [->|(b & -> & Hb)%list_elem_of_fmap]%elem_of_cons & Ha); exists a; eauto.
  - intros (a & Ha & [->|(b & Hb & ->)]); exists a; (split; [|done]); [by left|]. right. apply list_elem_of_fmap. eauto.
Qed.

Lemma seed_wp (w : World) :
  world_ok w -> newest_profile (io_tables w) = None -> wp (seed_default_profile taxonomy) (settled w) (fun _ => failed w) w.
Proof.
  intros Hw Hn%newest_None. unfold seed_default_profile. apply wp_bind, wp_v4.
  set (id := io_next_uuid w). set (w' := took_uuid w).
  assert (world_ok w') as Hw' by (eapply (sound_later _ activation_tables_mono); [apply later_uuid|done|exact Hw]).
  eapply wp_weaken; [apply (read_back w')| |]; cbn beta.
  2: { intros p w1 (Hl & H). split; [etrans; [apply later_uuid|done]|done]. }
  2: { intros e w1 (Hl & H). split; [etrans; [apply later_uuid|done]|done]. }
  eapply wp_weaken; [eapply (atomic_sound tables_ok activation_tables_mono _ _ (fun _ t => covered t)); [exact Hw'|]|..]; cbn beta;
    [|by intros _ w1 (? & ? & ?)|by intros e w1 (? & ? & _)].
  intros w0 Htx Hnx0 Ht0. pose proof (proj2 Hw) as Hok. unfold of_sql. apply wp_bind, wp_map_error, wp_update; [apply later_elapse|].
  set (w1 := with_tables _ _). assert (later w0 w1) as Hl1 by apply later_tables_elapse.
  assert (io_tables w1 = {| at_profiles := [{| pr_row := {| ap_id := id; ap_version := tx_version taxonomy; ap_updated_at := io_now w' + 1 |};
    pr_updated_by := Some SYSTEM_ACTOR |}]; at_entries := at_entries (io_tables w) |}) as Ht1.
  { unfold w1. cbn. rewrite Ht0. unfold sql_now. cbn. rewrite Htx. cbn. unfold set_profiles. by rewrite Hn. }
  clearbody w1.
  eapply wp_weaken; [apply (insert_all_wp id cat_id (fun _ => true) cat_subcategories sub_id (fun _ => true))| |cbn; intros e w2 H; by trans w1].
  { rewrite Ht1. apply (tk_entries _ _ _ Hok). }
  cbn. intros _ w2 (Hl2 & Ht2 & Hn2). rewrite Ht1 in Ht2. split; [by trans w1|].
  assert (io_next_uuid w0 <= io_next_uuid w2)%nat as Hnx by (assert (later w0 w2) as (_ & H & _) by (by trans w1); exact H).
  assert (id < io_next_uuid w0)%nat as Hfr by (rewrite Hnx0; cbn; unfold id; lia).
  split.
  - rewrite Ht2 in Hn2 |- *. split; cbn in *; [apply NoDup_singleton| |done|].
    + intros r ->%list_elem_of_singleton. cbn. split; [lia|done].
    + intros e [He|(a & Ha & [->|(b & Hb & ->)])%rows_In]%elem_of_app; cbn; [|lia..].
      pose proof (tk_entry_ids _ _ _ Hok e He). lia.
  - intros cat Hcat.
    assert (forall c s, (exists e, e ∈ (tx_categories taxonomy ≫= rows id cat_id (fun _ => true) cat_subcategories sub_id (fun _ => true)) /\
      ae_category_id e = c /\ ae_subcategory_id e = s) -> is_Some (says (io_tables w2) c s)) as H.
    { intros c s (e & He & H1 & H2). unfold says.
      assert (exists r, newest_profile (io_tables w2) = Some r /\ ap_id (pr_row r) = id) as (r & -> & Er) by (rewrite Ht2; by eexists).
      apply last_entry_is_Some. exists e. split_and!; [|done..]. apply entries_of_In. rewrite Er, Ht2. split; [apply elem_of_app; by right|].
      apply rows_In in He as (a & _ & [->|(b & _ & ->)]); done. }
    split; [apply H; eexists; split; [apply rows_In; exists cat; split; [done|by left]|done]|].
    intros sub Hsub. apply H. eexists. split; [apply rows_In; exists cat; split; [done|right; by exists sub]|done].
Qed.

Lemma ensure_wp (w : World) : world_ok w -> wp (ensure_activation_profile taxonomy) (settled w) (fun _ => failed w) w.
Proof using Hres.
  intros Hw. unfold ensure_activation_profile. apply wp_bind. eapply wp_weaken; [apply load_wp|..]; cbn.
  - intros found w1 (Hl & Ht & ->). assert (world_ok w1) as Hw1 by by eapply (sound_later _ activation_tables_mono).
    destruct (newest_profile (io_tables w)) as [r|] eqn:Hr; cbn.
    + eapply wp_weaken; [apply synchronize_wp; [done|rewrite Ht; by apply profile_of_agrees]|..]; cbn.
      * intros p w2 (H1 & H2). split; [by trans w1|done].
      * intros e w2 (H1 & H2). split; [by trans w1|done].
    + eapply wp_weaken; [apply seed_wp; [done|by rewrite Ht]|..]; cbn.
      * intros p w2 (H1 & H2). split; [by trans w1|done].
      * intros e w2 (H1 & H2). split; [by trans w1|done].
  - intros e w1 (Hl & Ht). split; [done|by eapply (sound_later _ activation_tables_mono)].
Qed.

(** *** Saving *)

Definition payload_rows (id : Uuid) (v : ValidatedActivationPayload) : list EntryRow :=
  xp_categories v ≫= rows id xc_id xc_enabled xc_subcategories xs_id xs_enabled.
(** The newest profile was saved after [since], with the entries of [v]. *)
Definition saved (since : Z) (id : Uuid) (v : ValidatedActivationPayload) (t : ActivationTables) : Prop :=
  exists r, newest_profile t = Some r /\ ap_id (pr_row r) = id /\ since < ap_updated_at (pr_row r) /\ entries_of id t = payload_rows id v.

Lemma payload_rows_id id v e : e ∈ payload_rows id v -> ae_profile_id e = id.
Proof. intros (a & _ & [->|(b & _ & ->)])%rows_In; done. Qed.
Lemma entries_of_replaced id v profiles l :
  entries_of id {| at_profiles := profiles; at_entries := List.filter (fun e => negb (bool_decide (ae_profile_id e = id))) l ++ payload_rows id v |} =
    payload_rows id v.
Proof.
  unfold entries_of. cbn. rewrite List.filter_app. rewrite filter_none, filter_all; [done|..].
  - intros e He%payload_rows_id. by apply bool_decide_eq_true.
  - intros e [_ He]%list_elem_of_In%List.filter_In. by destruct (bool_decide _).
Qed.

Lemma touched_ok before next t id (f : ProfileRecord -> ProfileRecord) now entries :
  tables_ok before next t -> before < now -> (forall r, ap_id (pr_row (f r)) = ap_id (pr_row r) /\ ap_updated_at (pr_row (f r)) = now) ->
  (exists r, r ∈ at_profiles t /\ ap_id (pr_row r) = id) ->
  exists r', newest_profile {| at_profiles := at_profiles (update_profile id f t); at_entries := entries |} = Some r' /\
    ap_id (pr_row r') = id /\ ap_updated_at (pr_row r') = now.
Proof.
  intros Hok Hlt Hf (r & Hr & <-). exists (f r). destruct (Hf r) as [F1 F2]. split_and!; [|done..]. unfold newest_profile, order_desc. cbn.
  apply head_sort_by_key.
  - apply list_elem_of_fmap. exists r. split; [|done]. by rewrite decide_True.
  - intros y (q & -> & Hq)%list_elem_of_fmap. case_decide as E.
    + left. f_equal. by apply (NoDup_fmap_unique (fun r => ap_id (pr_row r)) (at_profiles t)); [apply (tk_ids _ _ _ Hok)|..].
    + right. rewrite F2. destruct (tk_profiles _ _ _ Hok q Hq). lia.
Qed.

Lemma persist_wp id v actor (w : World) :
  world_ok w -> (exists r, r ∈ at_profiles (io_tables w) /\ ap_id (pr_row r) = id) ->
  wp (persist_activation_profile id v taxonomy actor)
    (fun p w' => later w w' /\ world_ok w' /\ saved (io_now w) id v (io_tables w')) (fun _ => failed w) w.
Proof.
  intros Hw Hid. unfold persist_activation_profile, of_sql. apply wp_bind.
  eapply wp_weaken; [eapply (atomic_sound tables_ok activation_tables_mono _ _ (fun _ t => saved (io_now w) id v t)); [exact Hw|]|..]; cbn beta.
  - intros w0 Htx Hnx Ht0. pose proof (proj2 Hw) as Hok. wp; [apply later_elapse|etrans; [|apply later_elapse]; auto with later|].
    set (w1 := with_tables _ _). assert (later w0 w1) as Hl1 by (unfold w1; etrans; [|apply later_tables_elapse]; auto with later).
    set (f := fun r => {| pr_row := {| ap_id := ap_id (pr_row r); ap_version := tx_version taxonomy; ap_updated_at := io_now w + 1 |};
      pr_updated_by := Some actor |}).
    assert (io_tables w1 = {| at_profiles := at_profiles (update_profile id f (io_tables w));
      at_entries := List.filter (fun e => negb (bool_decide (ae_profile_id e = id))) (at_entries (io_tables w)) |}) as Ht1.
    { unfold w1. cbn. rewrite Ht0. unfold sql_now. cbn. by rewrite Htx. }
    clearbody w1. eapply wp_weaken; [apply (insert_all_wp id xc_id xc_enabled xc_subcategories xs_id xs_enabled)| |cbn; intros e w2 H; by trans w1].
    { rewrite Ht1. cbn. eapply sublist_NoDup; [apply (tk_entries _ _ _ Hok)|]. apply fmap_sublist, filter_sublist. }
    cbn. fold (payload_rows id v). intros _ w2 (Hl2 & Ht2 & Hn2). rewrite Ht1 in Ht2. unfold set_entries in Ht2. cbn in Ht2.
    assert (later w0 w2) as Hl by by trans w1. split; [done|]. destruct Hl as (_ & Hx & _). rewrite Hnx in Hx. split.
    + rewrite Ht2 in Hn2 |- *. split; cbn in *; [| |done|].
      * rewrite <- list_fmap_compose. erewrite list_fmap_ext; [exact (tk_ids _ _ _ Hok)|]. intros i r _. cbn. by repeat case_match.
      * intros r (q & -> & Hq)%list_elem_of_fmap. destruct (tk_profiles _ _ _ Hok q Hq). repeat case_match; cbn; lia.
      * intros e [[He _]%list_elem_of_In%List.filter_In|He%payload_rows_id]%elem_of_app.
        -- apply list_elem_of_In in He. pose proof (tk_entry_ids _ _ _ Hok e He). lia.
        -- rewrite He. destruct Hid as (r & Hr & <-). destruct (tk_profiles _ _ _ Hok r Hr). lia.
    + rewrite Ht2. edestruct (touched_ok (io_now w) (io_next_uuid w) (io_tables w) id f (io_now w + 1)) as (r' & N1 & N2 & N3); [done|lia|done|done|].
      exists r'. rewrite entries_of_replaced. split_and!; [exact N1|done|lia|done].
  - intros _ w1 (Hl & Hw1 & Hs). eapply wp_weaken; [apply reload_wp|..]; cbn.
    + intros p w2 (Hl2 & Ht & _). split_and!; [by trans w1|by eapply (sound_later _ activation_tables_mono)|by rewrite Ht].
    + intros e w2 (Hl2 & Ht). split; [by trans w1|by eapply (sound_later _ activation_tables_mono)].
  - by intros e w1 (? & ? & _).
Qed.

End Operations.

(** ** What a payload asks for *)

Lemma index_by_Ok {A} (key : A -> string) dup l m m' :
  index_by key dup l m = Ok m' -> (forall k x, m !! k = Some x -> m' !! k = Some x) /\ (forall x, x ∈ l -> m' !! key x = Some x).
Proof.
  revert m. induction l as [|x l IH]; intros m; cbn; [intros [= <-]; split; [done|by intros ? []%elem_of_nil]|].
  case_decide as Hd; [done|]. intros [H1 H2]%IH. split.
  - intros k y Hy. apply H1. rewrite lookup_insert_ne; [done|]. intros <-. apply Hd. by exists y.
  - intros y [->|Hy]%elem_of_cons; [apply H1; by rewrite lookup_insert_eq|by apply H2].
Qed.

Lemma take_subcategories_Ok c subs m validated rest :
  take_subcategories c subs m = Ok (validated, rest) ->
  forall k x, m !! k = Some x -> rest !! k = Some x \/ exists y, y ∈ validated /\ xs_id y = k /\ xs_enabled y = as_enabled x.
Proof.
  revert m validated. induction subs as [|sub subs IH]; intros m validated; cbn; [intros [= <- <-]; by left|].
  destruct (m !! sub_id sub) as [inp|] eqn:E; [|done]. destruct (_ && _); [done|].
  intros ([v r] & Hv & [= <- <-])%bind_Ok k x Hx. destruct (decide (k = sub_id sub)) as [->|Hk].
  - right. eexists. split; [by left|]. split; [done|]. cbn. congruence.
  - destruct (IH _ _ Hv k x) as [H|(y & Hy & H1 & H2)]; [by rewrite lookup_delete_ne|by left|]. right. exists y. split; [by right|done].
Qed.

(** The validated category has the payload's settings. *)
Definition follows (x : ValidatedActivationCategory) (cat : ActivationCategoryInput) : Prop :=
  xc_id x = ac_id cat /\ xc_enabled x = ac_enabled cat /\
  forall sub, sub ∈ ac_subcategories cat -> exists y, y ∈ xc_subcategories x /\ xs_id y = as_id sub /\ xs_enabled y = as_enabled sub.

Lemma validated_subcategories canonical inp validated :
  validate_subcategories canonical inp = Ok validated ->
  forall sub, sub ∈ ac_subcategories inp -> exists y, y ∈ validated /\ xs_id y = as_id sub /\ xs_enabled y = as_enabled sub.
Proof.
  unfold validate_subcategories. intros (m & [_ Hm]%index_by_Ok & ([v rest] & Hv & H)%bind_Ok)%bind_Ok. case_decide as Hr; [|done].
  injection H as <-. intros sub Hs. destruct (take_subcategories_Ok _ _ _ _ _ Hv (as_id sub) sub (Hm sub Hs)) as [E|?]; [|done].
  rewrite Hr, lookup_empty in E. done.
Qed.

Lemma take_categories_Ok categories m validated rest :
  take_categories categories m = Ok (validated, rest) -> (forall k x, m !! k = Some x -> ac_id x = k) ->
  forall k cat, m !! k = Some cat -> rest !! k = Some cat \/ exists x, x ∈ validated /\ follows x cat.
Proof.
  revert m validated. induction categories as [|c categories IH]; intros m validated; cbn; [intros [= <- <-] _; by left|].
  destruct (m !! cat_id c) as [inp|] eqn:E; [|done]. destruct (_ && _); [done|].
  intros (vs & Hvs & ([v r] & Hv & [= <- <-])%bind_Ok)%bind_Ok Hkey k cat Hcat. destruct (decide (k = cat_id c)) as [->|Hk].
  - right. eexists. split; [by left|]. rewrite E in Hcat. injection Hcat as <-. split_and!; [cbn; by rewrite (Hkey _ _ E)|done|].
    by eapply validated_subcategories.
  - destruct (IH _ _ Hv) with (k := k) (cat := cat) as [H|(x & Hx & H)]; [|by rewrite lookup_delete_ne|by left|right; exists x; split; [by right|done]].
    intros k' x' [_ H]%lookup_delete_Some. by apply Hkey.
Qed.

Lemma index_by_from {A} (key : A -> string) dup l m m' :
  index_by key dup l m = Ok m' -> forall k x, m' !! k = Some x -> m !! k = Some x \/ x ∈ l /\ key x = k.
Proof.
  revert m. induction l as [|y l IH]; intros m; cbn; [intros [= <-]; by left|]. case_decide; [done|]. intros Hi k x Hx.
  destruct (IH _ Hi k x Hx) as [[[<- <-]|[_ ?]]%lookup_insert_Some|[Hin Hk]]; [right; split; [by left|done]|by left|].
  right. split; [by right|done].
Qed.
(** The index of a list without repeated keys. *)
Lemma index_by_spec {A} (key : A -> string) dup l m' :
  index_by key dup l ∅ = Ok m' -> forall k x, m' !! k = Some x <-> x ∈ l /\ key x = k.
Proof.
  intros Hi k x. split.
  - intros [Hx|?]%(index_by_from _ _ _ _ _ Hi); [by rewrite lookup_empty in Hx|done].
  - intros [Hx <-]. by apply (index_by_Ok _ _ _ _ _ Hi).
Qed.

(** And nothing else is validated than what was asked for. *)
Lemma take_subcategories_from c subs m validated rest :
  take_subcategories c subs m = Ok (validated, rest) ->
  forall y, y ∈ validated -> exists x, m !! xs_id y = Some x /\ xs_enabled y = as_enabled x.
Proof.
  revert m validated. induction subs as [|sub subs IH]; intros m validated; cbn; [by intros [= <- <-] y []%elem_of_nil|].
  destruct (m !! sub_id sub) as [inp|] eqn:E; [|done]. destruct (_ && _); [done|].
  intros ([v r] & Hv & [= <- <-])%bind_Ok y [->|Hy]%elem_of_cons; [by exists inp|].
  destruct (IH _ _ Hv y Hy) as (x & [_ Hx]%lookup_delete_Some & H). by exists x.
Qed.

Definition drawn (x : ValidatedActivationCategory) (cat : ActivationCategoryInput) : Prop :=
  xc_enabled x = ac_enabled cat /\
  forall y, y ∈ xc_subcategories x -> exists sub, sub ∈ ac_subcategories cat /\ as_id sub = xs_id y /\ xs_enabled y = as_enabled sub.

Lemma take_categories_from categories m validated rest :
  take_categories categories m = Ok (validated, rest) ->
  forall x, x ∈ validated -> exists cat, m !! xc_id x = Some cat /\ drawn x cat.
Proof.
  revert m validated. induction categories as [|c categories IH]; intros m validated; cbn; [by intros [= <- <-] y []%elem_of_nil|].
  destruct (m !! cat_id c) as [inp|] eqn:E; [|done]. destruct (_ && _); [done|].
  intros (vs & Hvs & ([v r] & Hv & [= <- <-])%bind_Ok)%bind_Ok x [->|Hx]%elem_of_cons.
  - exists inp. split; [done|]. split; [done|]. cbn. intros y Hy. unfold validate_subcategories in Hvs.
    apply bind_Ok in Hvs as (ms & Hi & ([v' r'] & Hv' & H)%bind_Ok). case_decide; [|done]. injection H as ->.
    destruct (take_subcategories_from _ _ _ _ _ Hv' y Hy) as (sub & [Hs Hid]%(index_by_spec _ _ _ _ Hi) & He). eauto.
  - destruct (IH _ _ Hv x Hx) as (cat & [_ Hc]%lookup_delete_Some & H). by exists cat.
Qed.

Section Payload.
  Context (payload : ActivationUpdateRequest) (taxonomy : CanonicalTaxonomy) (v : ValidatedActivationPayload)
    (Hval : validate_activation_payload payload taxonomy = Ok v).

Lemma validate_Ok cat : cat ∈ aq_categories payload -> exists x, x ∈ xp_categories v /\ follows x cat.
Proof using Hval.
  revert Hval. unfold validate_activation_payload. case_decide as Hver; [done|]. intros (m & Hi & ([xs rest] & Hv & H)%bind_Ok)%bind_Ok. case_decide as Hr; [|done].
  injection H as <-. intros Hc. cbn. pose proof (index_by_spec _ _ _ _ Hi) as Hm.
  destruct (take_categories_Ok _ _ _ _ Hv) with (k := ac_id cat) (cat := cat) as [E|?]; [|by apply Hm| |done].
  - intros k x [_ ?]%Hm. done.
  - rewrite Hr, lookup_empty in E. done.
Qed.
Lemma validate_from x : x ∈ xp_categories v -> exists cat, cat ∈ aq_categories payload /\ ac_id cat = xc_id x /\ drawn x cat.
Proof using Hval.
  revert Hval. unfold validate_activation_payload. case_decide as Hver; [done|]. intros (m & Hi & ([xs rest] & Hv & H)%bind_Ok)%bind_Ok. case_decide as Hr; [|done].
  injection H as <-. intros Hx. destruct (take_categories_from _ _ _ _ Hv x Hx) as (cat & [Hc Hid]%(index_by_spec _ _ _ _ Hi) & H). eauto.
Qed.
Lemma payload_unique cat cat' : cat ∈ aq_categories payload -> cat' ∈ aq_categories payload -> ac_id cat = ac_id cat' -> cat = cat'.
Proof using Hval.
  revert Hval. unfold validate_activation_payload. case_decide as Hver; [done|]. intros (m & Hi & _)%bind_Ok Hc Hc' He.
  pose proof (index_by_spec _ _ _ _ Hi) as Hm.
  assert (m !! ac_id cat = Some cat) as H1 by by apply Hm. assert (m !! ac_id cat = Some cat') as H2 by by apply Hm. congruence.
Qed.

(** What the payload says of a label in a category: the setting of the listed subcategory of that
    id, else that of the category; a category it does not list is disabled. *)
Definition asks (c s : string) : bool :=
  match find_first (fun cat => bool_decide (ac_id cat = c)) (aq_categories payload) with
  | None => false
  | Some cat =>
      match find_first (fun sub => bool_decide (as_id sub = s)) (ac_subcategories cat) with
      | Some sub => as_enabled sub
      | None => ac_enabled cat
      end
  end.

Context (id : Uuid) (Hnd : NoDup (entry_key <$> payload_rows id v)).

Lemma row_decides e : e ∈ payload_rows id v -> last_entry (ae_category_id e) (ae_subcategory_id e) (payload_rows id v) = Some (ae_enabled e).
Proof using Hnd.
  intros He. apply last_entry_In; [done..|]. intros e' He'. by rewrite (payload_rows_id _ _ _ He), (payload_rows_id _ _ _ He').
Qed.
Lemma category_decides cat : cat ∈ aq_categories payload -> last_entry (ac_id cat) CATEGORY_SENTINEL_ID (payload_rows id v) = Some (ac_enabled cat).
Proof using Hval Hnd.
  intros Hc. destruct (validate_Ok cat Hc) as (x & Hx & Hxid & Hxen & _).
  assert (category_row id xc_id xc_enabled x ∈ payload_rows id v) as Hin by (apply rows_In; exists x; split; [done|by left]).
  apply row_decides in Hin. cbn in Hin. by rewrite <- Hxid, <- Hxen.
Qed.
Lemma subcategory_decides cat sub : cat ∈ aq_categories payload -> sub ∈ ac_subcategories cat ->
  last_entry (ac_id cat) (as_id sub) (payload_rows id v) = Some (as_enabled sub).
Proof using Hval Hnd.
  intros Hc Hs. destruct (validate_Ok cat Hc) as (x & Hx & Hxid & _ & Hxs). destruct (Hxs sub Hs) as (y & Hy & Hyid & Hyen).
  assert (subcategory_row id xc_id xs_id xs_enabled x y ∈ payload_rows id v) as Hin by (apply rows_In; exists x; split; [done|right; by exists y]).
  apply row_decides in Hin. cbn in Hin. by rewrite <- Hxid, <- Hyid, <- Hyen.
Qed.
Lemma decided_from c s b : last_entry c s (payload_rows id v) = Some b ->
  exists cat, cat ∈ aq_categories payload /\ ac_id cat = c /\ (s = CATEGORY_SENTINEL_ID \/ exists sub, sub ∈ ac_subcategories cat /\ as_id sub = s).
Proof using Hval.
  intros (e & (x & Hx & He)%rows_In & <- & <- & _)%last_entry_Some. destruct (validate_from x Hx) as (cat & Hc & Hid & _ & Hs).
  exists cat. split; [done|]. destruct He as [->|(y & Hy & ->)]; cbn; (split; [done|]); [by left|right].
  destruct (Hs y Hy) as (sub & ? & ? & _). eauto.
Qed.

Lemma rows_ask c s :
  match last_entry c s (payload_rows id v) with
  | Some b => b
  | None => default false (last_entry c CATEGORY_SENTINEL_ID (payload_rows id v))
  end = asks c s.
Proof using Hval Hnd.
  unfold asks. destruct (find_first _ (aq_categories payload)) as [cat|] eqn:E.
  - apply find_first_Some in E as (l1 & l2 & Hl & Hid%bool_decide_eq_true & _). subst c.
    assert (cat ∈ aq_categories payload) as Hc by (rewrite Hl; set_solver).
    destruct (find_first _ (ac_subcategories cat)) as [sub|] eqn:Es.
    + apply find_first_Some in Es as (k1 & k2 & Hk & Hs%bool_decide_eq_true & _). subst s.
      rewrite (subcategory_decides cat sub); [done|done|rewrite Hk; set_solver].
    + rewrite find_first_None in Es. rewrite (category_decides cat Hc).
      destruct (last_entry (ac_id cat) s _) as [b|] eqn:Eb; [|done].
      pose proof (decided_from _ _ _ Eb) as (cat' & Hc' & Hid & Hs). assert (cat' = cat) as -> by by apply payload_unique.
      destruct Hs as [->|(sub & Hsub & <-)]; [rewrite (category_decides cat Hc) in Eb; by injection Eb|].
      specialize (Es sub Hsub). by rewrite bool_decide_true in Es.
  - rewrite find_first_None in E.
    assert (forall s', last_entry c s' (payload_rows id v) = None) as H.
    { intros s'. destruct (last_entry c s' _) as [b|] eqn:Eb; [|done]. apply decided_from in Eb as (cat & Hc & <- & _).
      specialize (E cat Hc). by rewrite bool_decide_true in E. }
    by rewrite !H.
Qed.
End Payload.

(** ** The engine *)

Section Engine.
  Context `{J : SerdeJson} (taxonomy : CanonicalTaxonomy) (has_cache mutation_enabled : bool).

(** The tables as the engine finds them. *)
Definition engine_db (t : ActivationTables) (db : Db) : Db :=
  {| db_policies := db_policies db; db_policy_rules := db_policy_rules db; db_policy_versions := db_policy_versions db;
     db_audit := db_audit db; db_profiles := pr_row <$> at_profiles t; db_entries := at_entries t;
     db_classifications := db_classifications db; db_overrides := db_overrides db; db_clock := db_clock db;
     db_next_uuid := db_next_uuid db; db_faults := db_faults db |}.

Lemma engine_newest t db r : newest_profile t = Some r -> head (order_desc ap_updated_at (db_profiles (engine_db t db))) = Some (pr_row r).
Proof.
  unfold newest_profile, order_desc. cbn. rewrite sort_by_key_fmap. intros H. destruct (sort_by_key _ _) as [|x l]; [done|]. cbn in *. congruence.
Qed.
Lemma engine_entries t db id : filter (fun e => ae_profile_id e = id) (db_entries (engine_db t db)) = entries_of id t.
Proof. apply filter_bool. Qed.

(** What a freshly loaded profile enables. *)
Definition enables (t : ActivationTables) (c s : string) : bool :=
  match says t c s with Some b => b | None => default false (says t c CATEGORY_SENTINEL_ID) end.
Lemma engine_loads t db r :
  newest_profile t = Some r -> healthy db ->
  exists p, load_from_db (engine_db t db) = (Ok p, tick (tick (engine_db t db))) /\
    act_id p = ap_id (pr_row r) /\ act_updated_at p = ap_updated_at (pr_row r) /\
    forall c, is_enabled p c None = default false (says t c CATEGORY_SENTINEL_ID) /\
      forall s, is_enabled p c (Some s) = enables t c s.
Proof.
  intros Hr Hh. destruct (load_from_db_enabled (engine_db t db) (pr_row r) Hh (engine_newest _ _ _ Hr)) as (p & Hp & H1 & H2 & H).
  exists p. split_and!; [done..|]. intros c. destruct (H c) as [E1 E2]. unfold enables, says. rewrite Hr. cbn [mbind option_bind].
  rewrite engine_entries in *. done.
Qed.

Lemma refresh_loaded held db p db' : load_from_db db = (Ok p, db') ->
  (refresh_from_db held db).1 =
    if decide (act_updated_at held < act_updated_at p \/ act_id p <> act_id held) then (Ok true, p) else (Ok false, held).
Proof.
  intros Hp. unfold refresh_from_db. rewrite Hp. unfold replace_if_new.
  repeat case_decide; cbn; try done; naive_solver.
Qed.

(** An answered update stored the payload. *)
Lemma saved_payload user payload (w : World) resp w' :
  world_ok w -> update_taxonomy_activation taxonomy has_cache user payload w = (Ok resp, w') ->
  ReloadEngine ∈ drop (length (io_trace w)) (io_trace w') /\
  exists v id r, validate_activation_payload payload taxonomy = Ok v /\ newest_profile (io_tables w') = Some r /\
    io_now w < ap_updated_at (pr_row r) /\ entries_of (ap_id (pr_row r)) (io_tables w') = payload_rows id v /\
    NoDup (entry_key <$> payload_rows id v).
Proof.
  intros Hw Hrun. unfold update_taxonomy_activation in Hrun. destruct (require_roles _ _); [|done].
  apply io_bind_Ok in Hrun as ([] & w1 & H0 & Hrun). injection H0 as Hres <-.
  apply io_bind_Ok in Hrun as (v & w1 & H0 & Hrun). injection H0 as Hval <-.
  apply io_bind_Ok in Hrun as (p0 & w1 & H0 & Hrun). pose proof (ensure_wp taxonomy Hres w Hw) as He. unfold wp in He. unfold map_error at 1 in H0.
  destruct (ensure_activation_profile taxonomy w) as [[p'|e] w2]; [|done]. injection H0 as -> ->. destruct He as (Hl1 & Hw1 & (r0 & Hr0 & Hid & _) & _).
  apply io_bind_Ok in Hrun as (p1 & w2 & H0 & Hrun).
  pose proof (persist_wp taxonomy (pf_id p0) v (uc_actor user) w1 Hw1) as Hp. unfold wp in Hp. unfold map_error at 1 in H0.
  destruct (persist_activation_profile _ _ _ _ w1) as [[p'|e] w3]; [|done]. injection H0 as -> ->.
  destruct Hp as (Hl2 & Hw2 & (r & Hr & Er & Hnew & Hent)); [exists r0; split; [by apply newest_In|done]|].
  assert (later w w2) as (Hnow & _ & _ & Htr) by by trans w1. pose proof Hl1 as (Hnow1 & _).
  assert (io_tables w' = io_tables w2 /\ ReloadEngine ∈ drop (length (io_trace w)) (io_trace w')) as [Ht Hrel].
  { match type of Hrun with ?m ?u = _ => assert (wp m (fun _ u' => io_tables u' = io_tables w2 /\
      exists first after, io_trace u' = io_trace w2 ++ first :: ReloadEngine :: after) (fun _ _ => True) u) as Hwp end.
    { wp; try done; (split; [done|]); cbn; rewrite <- ?app_assoc; do 2 eexists; reflexivity. }
    unfold wp in Hwp. rewrite Hrun in Hwp. destruct Hwp as (Ht & first & after & Ha). split; [done|].
    rewrite Ha, Htr, drop_app_length. right. left. }
  split; [done|]. exists v, (pf_id p0), r. rewrite Ht, Er. split_and!; [done|done|lia|done|].
  rewrite <- Hent. apply entries_of_NoDup, (tk_entries _ _ _ (proj2 Hw2)).
Qed.

Context {T : Type} `{R : CategoryResolver T}.



End Engine.

(** ** Examples *)

Module ActivationDemo.

#[local] Existing Instance DbDemo.json.
#[local] Existing Instance no_taxonomy.

Definition sub (id : string) : CanonicalSubcategory := {| sub_id := id; sub_name := id; sub_always_enabled := None |}.
Definition category (id : string) (locked : option bool) (subs : list CanonicalSubcategory) : CanonicalCategory :=
  {| cat_id := id; cat_name := id; cat_always_enabled := locked; cat_subcategories := subs |}.
Definition small : CanonicalTaxonomy :=
  {| tx_version := "v2"; tx_source := None; tx_categories := [category "news" None [sub "local"; sub "world"]; category "games" None []] |}.
Definition editor : UserContext := {| uc_actor := "eve"; uc_roles := {[ "policy-editor" ]} |}.
Definition choice (news world games : bool) : ActivationUpdateRequest :=
  {| aq_version := "v2"; aq_categories :=
       [{| ac_id := "games"; ac_enabled := games; ac_subcategories := [] |};
        {| ac_id := "news"; ac_enabled := news;
           ac_subcategories := [{| as_id := "world"; as_enabled := world |}; {| as_id := "local"; as_enabled := true |}] |}] |}.
Definition start (t : ActivationTables) (faults : list bool) : World := mkIo 100 None faults 10%nat [] t.
Definition nothing : ActivationTables := {| at_profiles := []; at_entries := [] |}.

Lemma nothing_ok faults : world_ok (start nothing faults).
Proof. split; [done|]. split; cbn; try (by intros ? []%elem_of_nil); constructor. Qed.

(** An engine that allows everything, and a request for a site of a category. *)
Definition engine (p : ActivationProfile) : PolicyEvaluator unit :=
  {| ev_store := ev_store demo_evaluator; ev_source := Database None; ev_activation := p |}.
Definition visit (category : string) : DecisionRequest :=
  {| dr_normalized_key := "domain:example.com"; dr_entity_level := "domain"; dr_source_ip := "192.0.2.10";
     dr_user_id := None; dr_group_ids := None; dr_category_hint := Some category; dr_subcategory_hint := None;
     dr_risk_hint := None; dr_confidence_hint := None |}.



(** A category that a new taxonomy adds is stored as enabled without a new time stamp: an engine that
    keeps the profile it had does not take it over, and blocks what the administrator sees as enabled. *)
Definition older : ActivationTables :=
  {| at_profiles := [{| pr_row := {| ap_id := 1%nat; ap_version := "v1"; ap_updated_at := 50 |}; pr_updated_by := Some "system" |}];
     at_entries := (fun s => {| ae_profile_id := 1%nat; ae_category_id := "news"; ae_subcategory_id := s; ae_enabled := true |}) <$>
                   [CATEGORY_SENTINEL_ID; "local"; "world"] |}.
Example new_category_not_refreshed :
  let held := (refresh_from_db (deny_all 0) (engine_db older DbDemo.empty)).1.2 in
  let '(shown, w') := get_taxonomy small editor (start older []) in
  exists resp, shown = Ok resp /\ (fun c => (tc_id c, tc_enabled c)) <$> tr_categories resp = [("news", true); ("games", true)] /\
    (refresh_from_db held (engine_db (io_tables w') DbDemo.empty)).1 = (Ok false, held) /\ is_enabled held "games" None = false.
Proof. vm_compute. eexists. split_and!; reflexivity. Qed.

(** When the reload fails, the cached decisions are not invalidated either, although the change is
    stored. *)
Example failed_reload_keeps_cache :
  let '(r, w') := update_taxonomy_activation small true editor (choice true false false) (start older (replicate 18 false ++ [true])) in
  (exists e, r = Err e /\ he_status e = BAD_GATEWAY) /\ says (io_tables w') "games" CATEGORY_SENTINEL_ID = Some false /\
  InvalidatePolicyCache ∉ io_trace w'.
Proof. vm_compute. split_and!; [by eexists|done|]. intros H. repeat (apply elem_of_cons in H as [H|H]; [discriminate H|]). by apply elem_of_nil in H. Qed.

End ActivationDemo.
