(* ===== verification/PolicyEngine.v ===== *)
(** * The policy engine service

    [services/policy-engine/src/main.rs] and [auth.rs]: manual overrides, hydration of the request
    from persisted classifications, the decision and simulation handlers, and the administrative
    handlers behind role checks.  A handler answers a result (the body or an HTTP status and error
    code) and the state afterwards.  Logging and audit rows that only record what was done are
    kept where they change a table. *)

From S2P Require Import Prelude RustStr Types Http Taxonomy Db Activation PolicyStore Evaluator.

(** ** Override scopes *)

Definition key_host (normalized_key : string) : option string :=
  raw ← match strip_prefix "domain:" normalized_key with
        | Some h => Some h
        | None => strip_prefix "subdomain:" normalized_key
        end;
  let host := to_ascii_lowercase (trim_end_matches "." (trim raw)) in
  if is_empty host then None else Some host.

Definition normalize_scope_host (scope_value : string) : option string :=
  let lowered := to_ascii_lowercase (trim scope_value) in
  let core := default lowered (strip_prefix "*." lowered) in
  let host := trim_end_matches "." core in
  if is_empty host then None else Some host.

Definition domain_scope_matches_host (scope_value host : string) : bool :=
  match normalize_scope_host scope_value with
  | None => false
  | Some scope_host =>
      if decide (host = scope_host) then true else ends_with ("." +:+ scope_host) host
  end.

Definition domain_scope_specificity (scope_value : string) : nat :=
  match normalize_scope_host scope_value with Some host => str_len host | None => 0 end.

Definition normalize_override_action (action : string) : string := to_ascii_lowercase (trim action).

Definition override_action_rank (action : string) : nat :=
  let a := normalize_override_action action in
  if decide (a = "block") then 2 else if decide (a = "allow") then 1 else 0.

Definition non_empty_string (value : string) : option string :=
  let trimmed := trim value in if is_empty trimmed then None else Some trimmed.

Record OverrideRecord := { or_scope_value : string; or_action : string }.

(** One candidate against the best so far. *)
Definition better (best : option (nat * OverrideRecord)) (specificity : nat) (record : OverrideRecord)
    : option (nat * OverrideRecord) :=
  match best with
  | Some (best_specificity, best_record) =>
      if decide (specificity < best_specificity) then best
      else if decide (best_specificity = specificity) then
        if decide (override_action_rank (or_action best_record) < override_action_rank (or_action record))
        then Some (specificity, record) else best
      else Some (specificity, record)
  | None => Some (specificity, record)
  end.

(** The loop over the rows; the outer [None] is the early return of [?] on a blank scope. *)
Fixpoint override_loop (host : string) (best : option (nat * OverrideRecord)) (rows : list OverrideRow)
    : option (option (nat * OverrideRecord)) :=
  match rows with
  | [] => Some best
  | row :: rows' =>
      scope_value ← non_empty_string (o_scope_value row);
      if domain_scope_matches_host scope_value host then
        override_loop host
          (better best (domain_scope_specificity scope_value)
             {| or_scope_value := scope_value; or_action := o_action row |}) rows'
      else override_loop host best rows'
  end.

Definition active_override (now : Z) (o : OverrideRow) : Prop :=
  o_scope_type o = "domain" /\ o_status o = "active" /\
  match o_expires_at o with None => True | Some t => (now < t)%Z end.
Global Instance active_override_dec now o : Decision (active_override now o).
Proof. unfold active_override. destruct (o_expires_at o); apply _. Defined.

Definition override_decision (matched : OverrideRecord) : option PolicyDecision :=
  let a := normalize_override_action (or_action matched) in
  action ← (if decide (a = "allow") then Some Allow else if decide (a = "block") then Some Block else None);
  Some {| pd_action := action; pd_cache_hit := false;
          pd_verdict := Some {| cv_primary_category := "override-manual";
                                cv_subcategory := "domain:" +:+ or_scope_value matched;
                                cv_risk_level := "low"; cv_confidence := f32_one;
                                cv_recommended_action := action |};
          pd_decision_source := Some "override" |}.

(** What the rows of the override query decide for a host. *)
Definition decide_overrides (host : string) (rows : list OverrideRow) : option PolicyDecision :=
  best ← override_loop host None rows;
  matched ← best;
  override_decision matched.2.

(** ** Persisted classifications *)

Record RelatedClassificationLookup := {
  rl_ancestor_domain_key : option string;
  rl_descendant_like_pattern : option string
}.

(** The policy engine's own [derive_registered_domain]. *)
Definition last_two_labels (hostname : string) : option string :=
  let trimmed := to_ascii_lowercase (trim_end_matches "." (trim hostname)) in
  if is_empty trimmed then None
  else
    let labels := List.filter (fun l => negb (is_empty l)) (split_char "." trimmed) in
    if decide (length labels <= 2) then Some trimmed
    else Some (join "." (drop (length labels - 2) labels)).

Definition related_classification_lookup (normalized_key : string) : RelatedClassificationLookup :=
  let none := {| rl_ancestor_domain_key := None; rl_descendant_like_pattern := None |} in
  match strip_prefix "subdomain:" normalized_key with
  | Some host =>
      match last_two_labels host with
      | Some registered =>
          let ancestor := "domain:" +:+ registered in
          if decide (ancestor = normalized_key) then none
          else {| rl_ancestor_domain_key := Some ancestor; rl_descendant_like_pattern := None |}
      | None => none
      end
  | None =>
      match strip_prefix "domain:" normalized_key with
      | Some host =>
          let host := to_ascii_lowercase (trim_end_matches "." (trim host)) in
          if is_empty host then none
          else {| rl_ancestor_domain_key := None;
                  rl_descendant_like_pattern := Some ("subdomain:%." +:+ host) |}
      | None => none
      end
  end.

(** The [CASE] of the [ORDER BY] clause; [None] when the [WHERE] clause rejects the row. *)
Definition classification_rank (key : string) (related : RelatedClassificationLookup)
    (row : ClassificationRow) : option Z :=
  if decide (cl_status row = "active") then
    if decide (cl_normalized_key row = key) then Some 0%Z
    else if decide (Some (cl_normalized_key row) = rl_ancestor_domain_key related) then Some 1%Z
    else match rl_descendant_like_pattern related with
         | Some pattern => if like pattern (cl_normalized_key row) then Some 2%Z else None
         | None => None
         end
  else None.

Definition best_classification (key : string) (rows : list ClassificationRow) : option ClassificationRow :=
  let related := related_classification_lookup key in
  let rank row := classification_rank key related row in
  head (sort_by_key (fun row => default 3%Z (rank row))
          (order_desc cl_updated_at (filter (fun row => is_Some (rank row)) rows))).

Definition or_hint {A} (own persisted : option A) : option A :=
  match own with Some a => Some a | None => persisted end.

Definition apply_persisted_hints (request : DecisionRequest) (row : ClassificationRow) : DecisionRequest :=
  {| dr_normalized_key := dr_normalized_key request; dr_entity_level := dr_entity_level request;
     dr_source_ip := dr_source_ip request; dr_user_id := dr_user_id request;
     dr_group_ids := dr_group_ids request;
     dr_category_hint := or_hint (dr_category_hint request) (cl_primary_category row ≫= non_empty_string);
     dr_subcategory_hint := or_hint (dr_subcategory_hint request) (cl_subcategory row ≫= non_empty_string);
     dr_risk_hint := or_hint (dr_risk_hint request) (cl_risk_level row ≫= non_empty_string);
     dr_confidence_hint := or_hint (dr_confidence_hint request) (f64_as_f32 <$> cl_confidence row) |}.

(** ** Roles *)

Definition ROLE_POLICY_VIEWER_ROLES : list string := ["policy-admin"; "policy-editor"; "policy-viewer"].
Definition ROLE_POLICY_EDITOR_ROLES : list string := ["policy-admin"; "policy-editor"].

Definition forbidden : HttpError :=
  {| he_status := FORBIDDEN; he_code := "FORBIDDEN"; he_message := "insufficient privileges" |}.
Definition key_required : HttpError :=
  {| he_status := BAD_REQUEST; he_code := "VALIDATION_ERROR"; he_message := "normalized_key required" |}.

(** What the IAM resolver answers to a forwarded credential. *)
Inductive ResolverReply :=
  | Unreachable
  | Reply (status : Z) (identity : option (string * list string)).

(** [AdminAuth::authenticate]. *)
Definition authenticate (resolver : option string -> option string -> ResolverReply)
    (bearer admin : option string) : StatusCode + UserContext :=
  if decide (bearer = None /\ admin = None) then inl UNAUTHORIZED
  else
    match resolver bearer admin with
    | Unreachable => inl BAD_GATEWAY
    | Reply status identity =>
        if decide (status = 200%Z) then
          match identity with
          | Some (actor, roles) => inr {| uc_actor := actor; uc_roles := list_to_set roles |}
          | None => inl BAD_GATEWAY
          end
        else if decide (status = 401%Z) then inl UNAUTHORIZED
        else if decide (status = 403%Z) then inl FORBIDDEN
        else inl BAD_GATEWAY
    end.

(** [enforce_admin]: the credentials of the request's headers. *)
Definition enforce_admin (resolver : option string -> option string -> ResolverReply)
    (authorization x_admin_token : option string) : StatusCode + UserContext :=
  authenticate resolver (authorization ≫= strip_prefix "Bearer ") x_admin_token.

(** ** The service's state and its handlers *)

Record AppState (T : Type) := {
  st_evaluator : PolicyEvaluator T;
  st_audit_logger : bool;
  st_classification_pool : bool
}.
Arguments st_evaluator {T}.
Arguments st_audit_logger {T}.
Arguments st_classification_pool {T}.

Inductive SimulationMode := Runtime | PolicyOnly.
Definition mode_as_str (m : SimulationMode) : string :=
  match m with Runtime => "runtime" | PolicyOnly => "policy_only" end.

Record SimulationResponse := {
  sp_decision : PolicyDecision; sp_matched_rule_id : option string;
  sp_policy_version : string; sp_mode : string
}.
Record PolicySummary := {
  su_id : string; su_description : option string; su_priority : Z; su_action : PolicyAction
}.
Record PolicyListResponse := {
  pl_policy_id : option Uuid; pl_version : string; pl_rules : list PolicySummary
}.
Definition from_store (version : string) (policy_id : option Uuid) (rules : list PolicyRule)
    : PolicyListResponse :=
  {| pl_policy_id := policy_id; pl_version := version;
     pl_rules := (fun r => {| su_id := r_id r; su_description := r_description r;
                              su_priority := r_priority r; su_action := r_action r |}) <$> rules |}.

Section Handlers.
  Context {T : Type} `{R : CategoryResolver T} `{J : SerdeJson}.
  Context (read_policy_file : string -> result string PolicyDocument).
  (** [Uuid::parse_str]. *)
  Context (Uuid_parse_str : string -> option Uuid).

(** The service's state and the database. *)
Definition World : Type := AppState T * Db.

(** A read of the database whose failure is only logged. *)
Definition query {A} (f : Db -> A) (w : World) : option A * World :=
  let '(r, db') := select f w.2 in (result_ok r, (w.1, db')).

Definition override_rows (db : Db) : list OverrideRow :=
  order_desc o_updated_at (order_desc o_created_at
    (filter (active_override (db_clock db)) (db_overrides db))).

Definition resolve_override_decision (request : DecisionRequest) (w : World)
    : option PolicyDecision * World :=
  if st_classification_pool w.1 then
    match key_host (dr_normalized_key request) with
    | None => (None, w)
    | Some host =>
        let '(rows, w') := query override_rows w in
        (rows ≫= decide_overrides host, w')
    end
  else (None, w).

Definition has_all_hints (request : DecisionRequest) : bool :=
  bool_decide (is_Some (dr_category_hint request)) && bool_decide (is_Some (dr_subcategory_hint request)) &&
  bool_decide (is_Some (dr_risk_hint request)) && bool_decide (is_Some (dr_confidence_hint request)).

Definition hydrate_request_hints (request : DecisionRequest) (w : World) : DecisionRequest * World :=
  if has_all_hints request then (request, w)
  else if st_classification_pool w.1 then
    match query (fun db => best_classification (dr_normalized_key request) (db_classifications db)) w with
    | (Some (Some row), w') => (apply_persisted_hints request row, w')
    | (_, w') => (request, w')
    end
  else (request, w).

Definition decision_source_for_simulation (st : AppState T) (simulation : SimulationResult) : string :=
  let taxonomy_disabled :=
    match pd_verdict (sr_decision simulation) with
    | Some v => negb (is_verdict_enabled (st_evaluator st) (cv_primary_category v) (cv_subcategory v))
    | None => false
    end in
  if taxonomy_disabled then "taxonomy_disabled"
  else match sr_matched_rule_id simulation with Some _ => "policy_rule" | None => "default" end.

Definition set_decision_source (source : string) (d : PolicyDecision) : PolicyDecision :=
  {| pd_action := pd_action d; pd_cache_hit := pd_cache_hit d; pd_verdict := pd_verdict d;
     pd_decision_source := Some source |}.

(** [simulate], then the decision source. *)
Definition simulate_with_source (st : AppState T) (request : DecisionRequest) : SimulationResult :=
  let simulation := ev_simulate (st_evaluator st) request in
  {| sr_decision := set_decision_source (decision_source_for_simulation st simulation)
                      (sr_decision simulation);
     sr_matched_rule_id := sr_matched_rule_id simulation |}.

Definition handle_decision (payload : DecisionRequest) (w : World)
    : result HttpError PolicyDecision * World :=
  if is_empty (dr_normalized_key payload) then (Err key_required, w)
  else
    match resolve_override_decision payload w with
    | (Some decision, w') => (Ok decision, w')
    | (None, w') =>
        let '(payload, w'') := hydrate_request_hints payload w' in
        (Ok (sr_decision (simulate_with_source w''.1 payload)), w'')
    end.

Definition simulate_policy (user : UserContext) (mode : SimulationMode) (payload : DecisionRequest)
    (w : World) : result HttpError SimulationResponse * World :=
  if negb (require_roles user ROLE_POLICY_VIEWER_ROLES) then (Err forbidden, w)
  else if is_empty (dr_normalized_key payload) then (Err key_required, w)
  else
    let respond d id (w : World) :=
      (Ok {| sp_decision := d; sp_matched_rule_id := id;
             sp_policy_version := ps_version (ev_store (st_evaluator w.1));
             sp_mode := mode_as_str mode |}, w) in
    let run payload (w : World) :=
      let result := simulate_with_source w.1 payload in
      respond (sr_decision result) (sr_matched_rule_id result) w in
    match mode with
    | Runtime =>
        match resolve_override_decision payload w with
        | (Some decision, w') => respond decision None w'
        | (None, w') => let '(payload, w'') := hydrate_request_hints payload w' in run payload w''
        end
    | PolicyOnly => run payload w
    end.

(** The administrative handlers. *)

(** [AppState::log_event]: one row of [policy_audit_events] (its id and its JSON diff are not
    kept); a failure is only logged. *)
Definition log_event (event : AuditRow) (w : World) : World :=
  if st_audit_logger w.1 then
    (w.1, (execute (fun db => set_tables (db_policies db) (db_policy_rules db) (db_policy_versions db)
                                (event :: db_audit db) db) w.2).2)
  else w.

(** Run an operation of the evaluator. *)
Definition with_evaluator {A} (m : EvM A) (w : World) : result string A * World :=
  let '(r, (e, db)) := m (st_evaluator w.1, w.2) in
  (r, ({| st_evaluator := e; st_audit_logger := st_audit_logger w.1;
          st_classification_pool := st_classification_pool w.1 |}, db)).

Definition current_list (w : World) : PolicyListResponse :=
  let store := ev_store (st_evaluator w.1) in
  from_store (ps_version store) (ps_policy_id store) (ps_rules store).

Definition list_policies (user : UserContext) (w : World) : result StatusCode PolicyListResponse * World :=
  if require_roles user ROLE_POLICY_VIEWER_ROLES then (Ok (current_list w), w) else (Err FORBIDDEN, w).

Definition reload_policies (user : UserContext) (w : World) : result HttpError PolicyListResponse * World :=
  if require_roles user ROLE_POLICY_EDITOR_ROLES then
    match with_evaluator (reload read_policy_file) w with
    | (Err e, w') =>
        (Err {| he_status := INTERNAL_SERVER_ERROR; he_code := "RELOAD_FAILED"; he_message := e |}, w')
    | (Ok _, w') =>
        let store := ev_store (st_evaluator w'.1) in
        (Ok (current_list w'),
         log_event {| au_policy_id := ps_policy_id store; au_action := "policy.reload";
                      au_actor := Some (uc_actor user); au_version := Some (ps_version store);
                      au_status := None; au_notes := Some "manual reload" |} w')
    end
  else (Err forbidden, w).

Definition create_policy_handler (user : UserContext) (payload : PolicyCreateRequest) (w : World)
    : result HttpError PolicyListResponse * World :=
  if require_roles user ROLE_POLICY_EDITOR_ROLES then
    let created_by := or_hint (cq_created_by payload) (Some (uc_actor user)) in
    let payload := {| cq_name := cq_name payload; cq_version := cq_version payload;
                      cq_created_by := created_by; cq_rules := cq_rules payload |} in
    match with_evaluator (create_policy read_policy_file payload) w with
    | (Err e, w') =>
        (Err {| he_status := if contains NO_DATABASE e then NOT_IMPLEMENTED else INTERNAL_SERVER_ERROR;
                he_code := "POLICY_CREATE_FAILED"; he_message := e |}, w')
    | (Ok policy_id, w') =>
        let w'' := log_event {| au_policy_id := Some policy_id; au_action := "policy.create";
                                au_actor := created_by; au_version := Some (cq_version payload);
                                au_status := Some "active"; au_notes := None |} w' in
        (Ok (current_list w''), w'')
    end
  else (Err forbidden, w).

Definition update_target (policy_id : string) (w : World) : result HttpError Uuid :=
  if decide (policy_id = "current") then
    ok_or (ps_policy_id (ev_store (st_evaluator w.1)))
      {| he_status := NOT_IMPLEMENTED; he_code := "POLICY_DB_DISABLED";
         he_message := "policy database backend required for updates" |}
  else
    ok_or (Uuid_parse_str policy_id)
      {| he_status := BAD_REQUEST; he_code := "VALIDATION_ERROR";
         he_message := "policy_id must be a UUID or 'current'" |}.

Definition update_policy_handler (user : UserContext) (policy_id : string) (payload : PolicyUpdateRequest)
    (w : World) : result HttpError PolicyListResponse * World :=
  if require_roles user ROLE_POLICY_EDITOR_ROLES then
    match update_target policy_id w with
    | Err e => (Err e, w)
    | Ok target_id =>
        match with_evaluator (update_policy read_policy_file target_id payload (uc_actor user)) w with
        | (Err e, w') =>
            (Err {| he_status := INTERNAL_SERVER_ERROR; he_code := "POLICY_UPDATE_FAILED";
                    he_message := e |}, w')
        | (Ok _, w') =>
            let version := ps_version (ev_store (st_evaluator w'.1)) in
            (Ok (current_list w'),
             log_event {| au_policy_id := Some target_id; au_action := "policy.update";
                          au_actor := Some (uc_actor user);
                          au_version := Some (default version (ur_version payload));
                          au_status := ur_status payload; au_notes := ur_notes payload |} w')
        end
    end
  else (Err forbidden, w).

End Handlers.

(** ** Overrides: the most specific scope wins, and a block beats an allow *)

(** The candidate a row contributes for a host. *)
Definition candidate (host : string) (row : OverrideRow) : option (nat * OverrideRecord) :=
  scope_value ← non_empty_string (o_scope_value row);
  if domain_scope_matches_host scope_value host
  then Some (domain_scope_specificity scope_value,
             {| or_scope_value := scope_value; or_action := o_action row |})
  else None.

Definition blank_scope (row : OverrideRow) : Prop := non_empty_string (o_scope_value row) = None.

Definition rank_of (c : nat * OverrideRecord) : nat := override_action_rank (or_action c.2).

Lemma override_action_rank_le a : override_action_rank a <= 2.
Proof. unfold override_action_rank. repeat case_decide; lia. Qed.

(** [c] is at most as specific as [d] and, where they are as specific, ranks at most as high. *)
Definition dominated (c d : nat * OverrideRecord) : Prop :=
  c.1 < d.1 \/ c.1 = d.1 /\ rank_of c <= rank_of d.

Lemma dominated_trans c d e : dominated c d -> dominated d e -> dominated c e.
Proof. unfold dominated. lia. Qed.

Lemma better_spec best c :
  exists d, better best c.1 c.2 = Some d /\ (d = c \/ best = Some d) /\
    dominated c d /\ forall b, best = Some b -> dominated b d.
Proof.
  destruct best as [[s r]|], c as [s' r']; cbn.
  2: { exists (s', r'). unfold dominated. naive_solver lia. }
  unfold dominated, rank_of. repeat case_decide; cbn.
  - exists (s, r). naive_solver lia.
  - exists (s', r'). naive_solver lia.
  - exists (s, r). naive_solver lia.
  - exists (s', r'). naive_solver lia.
Qed.

(** With no blank scope among the rows, the loop ends with an undominated candidate. *)
Lemma override_loop_spec host rows : forall best,
  Forall (fun row => ~ blank_scope row) rows ->
  exists res, override_loop host best rows = Some res /\
    match res with
    | None => best = None /\ omap (candidate host) rows = []
    | Some c => (best = Some c \/ c ∈ omap (candidate host) rows) /\
        (forall b, best = Some b -> dominated b c) /\
        forall d, d ∈ omap (candidate host) rows -> dominated d c
    end.
Proof.
  induction rows as [|row rows IH]; intros best Hb; cbn.
  { exists best. split; [done|]. destruct best as [b|]; [|done]. split_and!; [by left| |set_solver].
    intros ? [= <-]. right. split; lia. }
  apply Forall_cons in Hb as [Hrow Hrows]. unfold blank_scope in Hrow.
  destruct (non_empty_string (o_scope_value row)) as [scope|] eqn:Hs; [|done]. cbn.
  set (c := (domain_scope_specificity scope, {| or_scope_value := scope; or_action := o_action row |})).
  assert (candidate host row = if domain_scope_matches_host scope host then Some c else None) as ->
    by (unfold candidate; by rewrite Hs).
  destruct (domain_scope_matches_host scope host); cbn; [|by apply IH].
  destruct (better_spec best c) as (d & Hd & Horigin & Hcd & Hbd). cbn in Hd. rewrite Hd.
  destruct (IH (Some d) Hrows) as (res & -> & Hres). exists res. split; [done|].
  destruct res as [e|]; [|by destruct Hres].
  destruct Hres as (He & Hde & Hall). specialize (Hde d eq_refl). split_and!.
  - set_solver.
  - intros b ?. eapply dominated_trans; eauto.
  - intros x [->|Hx]%elem_of_cons; [by eapply dominated_trans|by apply Hall].
Qed.

(** A scope that covers the host and that no other covering scope is more specific than. *)
Definition most_specific (host : string) (rows : list OverrideRow) (row : OverrideRow) : Prop :=
  row ∈ rows /\ exists c, candidate host row = Some c /\
  forall row' c', row' ∈ rows -> candidate host row' = Some c' -> c'.1 <= c.1.

Definition says (row : OverrideRow) (action : string) : Prop :=
  normalize_override_action (o_action row) = action.

Lemma candidate_action host row c : candidate host row = Some c -> or_action c.2 = o_action row.
Proof.
  unfold candidate. destruct (non_empty_string _); cbn; [|done]. by case_match; intros [= <-].
Qed.

Lemma override_decision_action r :
  pd_action <$> override_decision r =
  match override_action_rank (or_action r) with 2 => Some Block | 1 => Some Allow | _ => None end.
Proof.
  unfold override_decision, override_action_rank. repeat case_decide; try done. congruence.
Qed.

Lemma rank_says row c host n :
  candidate host row = Some c -> rank_of c = n ->
  (n = 2 <-> says row "block") /\ (n = 1 <-> says row "allow").
Proof.
  intros Hc <-. unfold rank_of, override_action_rank, says. rewrite (candidate_action host row c Hc).
  repeat case_decide; split; split; intros; try done; congruence.
Qed.

(** The action decided by the undominated candidate is the one of the most specific scopes. *)
Lemma undominated_action host rows row c :
  row ∈ rows -> candidate host row = Some c ->
  (forall d, d ∈ omap (candidate host) rows -> dominated d c) ->
  (rank_of c = 2 <-> exists r, most_specific host rows r /\ says r "block") /\
  (rank_of c = 1 <-> (exists r, most_specific host rows r /\ says r "allow") /\
  ~ exists r, most_specific host rows r /\ says r "block").
Proof.
  intros Hrow Hc Hdom.
  assert (forall r d, r ∈ rows -> candidate host r = Some d -> dominated d c) as Hdom'.
  { intros r d Hr Hd. apply Hdom, list_elem_of_omap. eauto. }
  assert (most_specific host rows row) as Htop.
  { split; [done|]. exists c. split; [done|]. intros r d Hr Hd.
    destruct (Hdom' r d Hr Hd); lia. }
  assert (forall r, most_specific host rows r ->
            exists d, candidate host r = Some d /\ rank_of d <= rank_of c) as Hrank.
  { intros r (Hr & d & Hd & Hmax). exists d. split; [done|].
    specialize (Hmax row c Hrow Hc). destruct (Hdom' r d Hr Hd); lia. }
  destruct (rank_says row c host _ Hc eq_refl) as [H2 H1].
  assert (rank_of c <= 2) by apply override_action_rank_le.
  assert ((exists r, most_specific host rows r /\ says r "block") -> rank_of c = 2) as Hblock.
  { intros (r & Hr & Hs). destruct (Hrank r Hr) as (d & Hd & Hle).
    destruct (rank_says r d host _ Hd eq_refl) as [Hd2 _]. apply Hd2 in Hs. lia. }
  split; [split; [|done]; intros Hc2%H2; by eauto|].
  split.
  - intros H'. split; [apply H1 in H'; by eauto|]. intros ?%Hblock. lia.
  - intros ((r & Hr & Hs) & Hno). destruct (Hrank r Hr) as (d & Hd & Hle).
    destruct (rank_says r d host _ Hd eq_refl) as [_ Hd1]. apply Hd1 in Hs.
    assert (rank_of c <> 2) by (intros ?%H2; apply Hno; eauto). lia.
Qed.

Lemma decide_overrides_spec host rows :
  Forall (fun row => ~ blank_scope row) rows ->
  let outcome := pd_action <$> decide_overrides host rows in
  (outcome = Some Block <-> exists r, most_specific host rows r /\ says r "block") /\
  (outcome = Some Allow <-> (exists r, most_specific host rows r /\ says r "allow") /\
  ~ exists r, most_specific host rows r /\ says r "block") /\
  (forall a, outcome = Some a -> a = Block \/ a = Allow).
Proof.
  intros Hb. cbv zeta. unfold decide_overrides.
  destruct (override_loop_spec host rows None Hb) as (res & -> & Hres). cbn.
  destruct res as [c|]; cbn.
  - destruct Hres as ([?|(row & Hrow & Hc)%list_elem_of_omap] & _ & Hdom); [done|].
    rewrite override_decision_action. fold (rank_of c).
    destruct (undominated_action host rows row c Hrow Hc Hdom) as [<- <-].
    assert (rank_of c <= 2) by apply override_action_rank_le.
    destruct (rank_of c) as [|[|[|]]]; [naive_solver..|lia].
  - destruct Hres as [_ Hnil].
    assert (forall r, ~ most_specific host rows r) as Hno; [|naive_solver].
    intros r (Hr & c & Hc & _).
    assert (c ∈ omap (candidate host) rows) by (apply list_elem_of_omap; eauto).
    rewrite Hnil in *. set_solver.
Qed.


(** The early return on a blank scope: one such row, and no override applies to any host. *)
Lemma override_loop_no_blank host rows : forall best res,
  override_loop host best rows = Some res -> Forall (fun row => ~ blank_scope row) rows.
Proof.
  induction rows as [|row rows IH]; intros best res; cbn; [by constructor|].
  unfold blank_scope at 1. destruct (non_empty_string (o_scope_value row)) eqn:E; cbn; [|done].
  intros H. constructor; [congruence|]. case_match; by eapply IH.
Qed.

Lemma decide_overrides_source host rows d :
  decide_overrides host rows = Some d ->
  pd_decision_source d = Some "override" /\ Forall (fun row => ~ blank_scope row) rows.
Proof.
  unfold decide_overrides. destruct (override_loop host None rows) as [[c|]|] eqn:E; cbn; try done.
  intros H. apply override_loop_no_blank in E. split; [|done].
  unfold override_decision in H. repeat (case_decide; cbn in H; try done); by injection H as <-.
Qed.

(** ** Persisted classifications *)

Lemma best_classification_rank key rows row :
  best_classification key rows = Some row ->
  row ∈ rows /\ is_Some (classification_rank key (related_classification_lookup key) row) /\
  forall row', row' ∈ rows -> cl_status row' = "active" -> cl_normalized_key row' = key ->
    cl_normalized_key row = key.
Proof.
  unfold best_classification. set (rank := classification_rank key _).
  set (l := order_desc _ _). intros Hhd.
  assert (Hl : forall x, x ∈ l <-> is_Some (rank x) /\ x ∈ rows).
  { intros x. unfold l, order_desc. rewrite sort_by_key_perm. by rewrite list_elem_of_filter. }
  pose proof (sort_by_key_sorted (fun row => default 3%Z (rank row)) l) as Hsorted.
  destruct (sort_by_key _ l) as [|x l'] eqn:E; [done|]. injection Hhd as ->.
  assert (row ∈ l) as Hrow by (rewrite <- (sort_by_key_perm (fun row => default 3%Z (rank row))), E; left).
  destruct (proj1 (Hl row) Hrow) as [Hrank Hin]. split_and!; [done..|].
  intros row' Hin' Hact Hkey.
  assert (rank row' = Some 0%Z) as H0 by (unfold rank, classification_rank; by rewrite !decide_True).
  assert (row' ∈ row :: l') as Hmem.
  { rewrite <- E, sort_by_key_perm. apply Hl. rewrite H0. eauto. }
  assert (default 3%Z (rank row) <= 0)%Z as Hle.
  { apply elem_of_cons in Hmem as [<-|Hmem]; [by rewrite H0|].
    inversion Hsorted as [|? ? _ Hall]; subst. rewrite Forall_forall in Hall.
    specialize (Hall row' Hmem). unfold key_le in Hall. by rewrite H0 in Hall. }
  revert Hle. unfold rank, classification_rank. repeat case_decide; cbn; try lia; try done.
  repeat case_match; cbn; lia.
Qed.

(** Hydration only fills in what the caller did not say. *)
Definition fills_gaps (a b : DecisionRequest) : Prop :=
  dr_normalized_key b = dr_normalized_key a /\ dr_entity_level b = dr_entity_level a /\
  dr_source_ip b = dr_source_ip a /\ dr_user_id b = dr_user_id a /\ dr_group_ids b = dr_group_ids a /\
  (forall h, dr_category_hint a = Some h -> dr_category_hint b = Some h) /\
  (forall h, dr_subcategory_hint a = Some h -> dr_subcategory_hint b = Some h) /\
  (forall h, dr_risk_hint a = Some h -> dr_risk_hint b = Some h) /\
  (forall h, dr_confidence_hint a = Some h -> dr_confidence_hint b = Some h).

Lemma fills_gaps_refl a : fills_gaps a a.
Proof. done. Qed.

Lemma apply_persisted_hints_fills request row : fills_gaps request (apply_persisted_hints request row).
Proof. unfold fills_gaps, apply_persisted_hints; cbn. split_and!; try done; by intros h ->. Qed.

#[export] Hint Resolve fills_gaps_refl apply_persisted_hints_fills : od.

(** ** The decision handler *)

Section HandlerProps.
  Context {T : Type} `{R : CategoryResolver T} `{J : SerdeJson}.
  Context (read_policy_file : string -> result string PolicyDocument).
  Context (Uuid_parse_str : string -> option Uuid).
  Implicit Types w : @World T J.

Lemma query_state {A} (f : Db -> A) w : (query f w).2 = (w.1, tick w.2).
Proof. unfold query, select, stmt. by destruct (db_faults w.2) as [|[] ?]. Qed.

Lemma query_result {A} (f : Db -> A) w a w' : query f w = (Some a, w') -> a = f (tick w.2).
Proof. unfold query, select, stmt. destruct (db_faults w.2) as [|[] ?]; cbn; naive_solver. Qed.

Lemma resolve_override_inv payload w d w' :
  resolve_override_decision payload w = (Some d, w') ->
  exists host, key_host (dr_normalized_key payload) = Some host /\ st_classification_pool w.1 = true /\
    decide_overrides host (override_rows (tick w.2)) = Some d.
Proof.
  unfold resolve_override_decision. destruct (st_classification_pool w.1); [|done].
  destruct (key_host _) as [host|]; [|done]. destruct (query override_rows w) as [[rows|] w''] eqn:E; [|done].
  apply query_result in E as ->. intros [= H _]. eauto.
Qed.

Lemma resolve_override_state payload w : (resolve_override_decision payload w).2.1 = w.1.
Proof.
  unfold resolve_override_decision. destruct (st_classification_pool w.1); [|done].
  destruct (key_host _); [|done]. pose proof (query_state override_rows w) as H.
  destruct (query override_rows w). cbn in *. by rewrite H.
Qed.

Lemma hydrate_fills payload w :
  fills_gaps payload (hydrate_request_hints payload w).1 /\ (hydrate_request_hints payload w).2.1 = w.1.
Proof.
  unfold hydrate_request_hints. destruct (has_all_hints payload); [by auto with od|].
  destruct (st_classification_pool w.1); [|by auto with od].
  set (f := fun db => _). pose proof (query_state f w) as H.
  destruct (query f w) as [[[row|]|] w']; cbn in *; rewrite H; auto with od.
Qed.

(** What a decision source says about how the decision came about. *)
Definition explained_by_rules (e : PolicyEvaluator T) (request : DecisionRequest) (d : PolicyDecision) : Prop :=
  let rule := find_first (rule_matches (ev_store e) request) (ps_rules (ev_store e)) in
  (pd_decision_source d = Some "taxonomy_disabled" /\ pd_action d = Block /\
   exists v, pd_verdict d = Some v /\
     is_verdict_enabled e (cv_primary_category v) (cv_subcategory v) = false) \/
  (pd_decision_source d = Some "policy_rule" /\ exists r, rule = Some r /\ pd_action d = r_action r) \/
  (pd_decision_source d = Some "default" /\ rule = None /\ pd_action d = Allow).

Lemma simulate_with_source_explained (st : AppState T) request :
  explained_by_rules (st_evaluator st) request (sr_decision (simulate_with_source st request)).
Proof.
  unfold explained_by_rules, simulate_with_source, decision_source_for_simulation, ev_simulate,
    apply_activation, is_verdict_enabled.
  rewrite simulate_first. destruct (find_first _ _) as [r|] eqn:E; cbn;
    destruct (is_enabled _ _ _) eqn:Ee; cbn; rewrite ?Ee; cbn.
  - right; left. eauto.
  - left. eauto.
  - right; right. eauto.
  - left. eauto.
Qed.

(** C18: Every decision is total and explained.  The decision endpoint refuses an empty key and
    otherwise always answers, also when the database is down.  The answer is the decision of the
    override rows that are active at that moment, marked [override]; or it comes from the rules,
    applied to a request that differs from the caller's only in hints the caller left out, marked
    [taxonomy_disabled] only when it blocks a category or subcategory that is not enabled,
    [policy_rule] only when it is the action of the first matching rule, and [default] only when
    no rule matches and it allows.  The service's state does not change. *)
Theorem handle_decision_explained payload w :
  let '(r, w') := handle_decision payload w in
  w'.1 = w.1 /\
  match r with
  | Err e => e = key_required /\ dr_normalized_key payload = ""
  | Ok d =>
      dr_normalized_key payload <> "" /\
      ((pd_decision_source d = Some "override" /\ exists host,
          key_host (dr_normalized_key payload) = Some host /\
          decide_overrides host (override_rows (tick w.2)) = Some d) \/
       exists request, fills_gaps payload request /\ explained_by_rules (st_evaluator w.1) request d)
  end.
Proof.
  unfold handle_decision. destruct (dr_normalized_key payload) eqn:Ek; cbn [is_empty]; [done|].
  rewrite <- Ek. pose proof (resolve_override_state payload w) as Hs.
  destruct (resolve_override_decision payload w) as [[d|] w'] eqn:Eo; cbn in Hs.
  - split; [done|]. split; [congruence|]. left.
    apply resolve_override_inv in Eo as (host & Hh & _ & Hd).
    split; [by eapply decide_overrides_source|eauto].
  - destruct (hydrate_fills payload w') as [Hf Hw].
    destruct (hydrate_request_hints payload w') as [request w'']; cbn in *.
    split; [congruence|]. split; [congruence|]. right. exists request. split; [done|].
    rewrite <- Hs, <- Hw. apply simulate_with_source_explained.
Qed.

(** Simulation in runtime mode agrees with enforcement: a viewer who simulates a request is
    shown exactly the decision the decision endpoint would give at that moment, and leaves the
    same state behind. *)
Theorem simulate_runtime_agrees user payload w :
  require_roles user ROLE_POLICY_VIEWER_ROLES = true ->
  let '(r, w') := handle_decision payload w in
  let '(r', w'') := simulate_policy user Runtime payload w in
  w' = w'' /\ r = (sp_decision <$> r').
Proof.
  intros Hu. unfold simulate_policy, handle_decision. rewrite Hu. cbn [negb].
  destruct (is_empty _); [done|].
  destruct (resolve_override_decision payload w) as [[d|] w']; [done|].
  by destruct (hydrate_request_hints payload w').
Qed.

(** ** Roles *)

(** One request to the service, by a caller with the given context. *)
Inductive step (user : UserContext) (w : World) : World -> Prop :=
  | step_decision payload : step user w (handle_decision payload w).2
  | step_simulate mode payload : step user w (simulate_policy user mode payload w).2
  | step_list : step user w (list_policies user w).2
  | step_reload : step user w (reload_policies read_policy_file user w).2
  | step_create payload : step user w (create_policy_handler read_policy_file user payload w).2
  | step_update id payload :
      step user w (update_policy_handler read_policy_file Uuid_parse_str user id payload w).2.

Definition is_editor (user : UserContext) : bool := require_roles user ROLE_POLICY_EDITOR_ROLES.

(** What the policies in force are made of. *)
Definition policy_state (w : @World T J) :=
  (st_evaluator w.1, db_policies w.2, db_policy_rules w.2, db_policy_versions w.2, db_audit w.2).

Lemma query_policy_state {A} (f : Db -> A) w : policy_state (query f w).2 = policy_state w.
Proof. by rewrite query_state. Qed.

Lemma resolve_override_policy_state payload w :
  policy_state (resolve_override_decision payload w).2 = policy_state w.
Proof.
  unfold resolve_override_decision. destruct (st_classification_pool w.1); [|done].
  destruct (key_host _); [|done]. pose proof (query_policy_state override_rows w).
  by destruct (query override_rows w).
Qed.

Lemma hydrate_policy_state payload w : policy_state (hydrate_request_hints payload w).2 = policy_state w.
Proof.
  unfold hydrate_request_hints. destruct (has_all_hints payload); [done|].
  destruct (st_classification_pool w.1); [|done].
  set (f := fun db => _). pose proof (query_policy_state f w).
  by destruct (query f w) as [[[row|]|] w'].
Qed.

Lemma handle_decision_policy_state payload w : policy_state (handle_decision payload w).2 = policy_state w.
Proof.
  unfold handle_decision. destruct (is_empty _); [done|].
  pose proof (resolve_override_policy_state payload w) as H.
  destruct (resolve_override_decision payload w) as [[d|] w']; [done|].
  pose proof (hydrate_policy_state payload w').
  destruct (hydrate_request_hints payload w'). cbn in *. congruence.
Qed.

Lemma simulate_policy_state user mode payload w :
  policy_state (simulate_policy user mode payload w).2 = policy_state w.
Proof.
  unfold simulate_policy. destruct (negb _); [done|]. destruct (is_empty _) eqn:Ee; [done|].
  destruct mode; [|done]. pose proof (handle_decision_policy_state payload w) as H.
  unfold handle_decision in H. rewrite Ee in H.
  destruct (resolve_override_decision payload w) as [[d|] w']; [done|].
  by destruct (hydrate_request_hints payload w').
Qed.

Lemma step_non_editor user w w' :
  is_editor user = false -> step user w w' -> policy_state w' = policy_state w.
Proof.
  unfold is_editor. intros Hu. destruct 1.
  - apply handle_decision_policy_state.
  - apply simulate_policy_state.
  - unfold list_policies. by destruct (require_roles user ROLE_POLICY_VIEWER_ROLES).
  - unfold reload_policies. by rewrite Hu.
  - unfold create_policy_handler. by rewrite Hu.
  - unfold update_policy_handler. by rewrite Hu.
Qed.

(** Integrity of the policies: however many requests callers without an editor role send, in
    whatever order and with whatever database failures, the rules in force, the activation
    profile, the stored policies and versions and the audit log stay as they were. *)
Theorem policies_change_only_by_editors w w' :
  rtc (fun w w' => exists user, is_editor user = false /\ step user w w') w w' ->
  policy_state w' = policy_state w.
Proof.
  induction 1 as [|w1 w2 w3 (user & Hu & Hs) _ IH]; [done|].
  rewrite IH. by eapply step_non_editor.
Qed.

End HandlerProps.

(** ** Witnesses and examples *)

Definition override_row (scope action : string) : OverrideRow :=
  {| o_scope_type := "domain"; o_scope_value := scope; o_action := action; o_status := "active";
     o_expires_at := None; o_updated_at := 0; o_created_at := 0 |}.
Definition demo_overrides : list OverrideRow :=
  [override_row "*.example.com" "block"; override_row "docs.example.com" "ALLOW";
   override_row "example.com" "allow"].

Example docs_is_allowed : pd_action <$> decide_overrides "docs.example.com" demo_overrides = Some Allow.
Proof. vm_compute. reflexivity. Qed.
Example rest_is_blocked : pd_action <$> decide_overrides "www.example.com" demo_overrides = Some Block.
Proof. vm_compute. reflexivity. Qed.
Example other_is_left_alone : decide_overrides "notexample.com" demo_overrides = None.
Proof. vm_compute. reflexivity. Qed.


Definition demo_viewer : UserContext := {| uc_actor := "viewer"; uc_roles := {["policy-viewer"]} |}.
Definition demo_world : @World unit DbDemo.json :=
  ({| st_evaluator := demo_evaluator; st_audit_logger := true; st_classification_pool := true |},
   DbDemo.empty).

Lemma simulate_runtime_agrees_witness :
  let R := no_taxonomy in
  exists d, handle_decision (R := R) plain_request demo_world =
    (Ok d, (simulate_policy (R := R) demo_viewer Runtime plain_request demo_world).2) /\
    pd_action d = Block /\ pd_decision_source d = Some "taxonomy_disabled".
Proof.
  intros R. pose proof (simulate_runtime_agrees (R := R) demo_viewer plain_request demo_world) as H.
  specialize (H ltac:(vm_compute; reflexivity)).
  destruct (simulate_policy demo_viewer Runtime plain_request demo_world) as [r' w''].
  destruct (handle_decision plain_request demo_world) as [r w'] eqn:E. destruct H as [-> _].
  vm_compute in E. injection E as <- <-. eexists. split; [reflexivity|]. split; reflexivity.
Defined.

Lemma policies_change_only_by_editors_witness :
  let R := no_taxonomy in
  policy_state (reload_policies (R := R) (fun _ => Ok unsorted_document) demo_viewer demo_world).2 =
  policy_state demo_world.
Proof.
  intros R.
  apply (policies_change_only_by_editors (R := R) (fun _ => Ok unsorted_document) (fun _ => None)).
  apply rtc_once. exists demo_viewer. split; [vm_compute; reflexivity|]. apply step_reload.
Defined.

(** The ancestor the policy engine looks up for a subdomain is made of the last two labels, so
    under a two-label public suffix it is the suffix itself. *)
Example ancestor_of_co_uk :
  rl_ancestor_domain_key (related_classification_lookup "subdomain:www.example.co.uk") =
  Some "domain:co.uk".
Proof. vm_compute. reflexivity. Qed.

(** The IAM resolver accepts the [Authorization] header in the form [Bearer token]
    ([enforce_admin] of the admin API); the policy engine forwards the bare token. *)
Example bearer_token_never_accepted :
  let resolver authorization (_ : option string) :=
    match authorization ≫= strip_prefix "Bearer " with
    | Some _ => Reply 200 (Some ("alice", ["policy-admin"]))
    | None => Reply 401 None
    end in
  resolver (Some "Bearer abc") None = Reply 200 (Some ("alice", ["policy-admin"])) /\
  enforce_admin resolver (Some "Bearer abc") None = inl UNAUTHORIZED.
Proof. split; vm_compute; reflexivity. Qed.
