(* ===== verification/AdminClassifications.v ===== *)
(** * Classifications and pending requests in the admin API

    [services/admin-api/src/classifications.rs] and [services/admin-api/src/classification_requests.rs]:
    the listing of classified and pending keys, export and import of bundles, flushing, manual
    classification and the queue of pending requests.

    The policy engine is asked over HTTP for the decision that a new label leads to; what it answers
    may depend on the tables it shares with the admin API. *)

From S2P Require Import Prelude RustStr RustNum Numeric Types Http Json Normalizer Taxonomy PolicyStore LlmAnswer LlmProvider LlmWorker Db Io Wp Texts Pagination.

Local Open Scope Z_scope.

Definition ROLE_POLICY_VIEW : list string := ["policy-admin"; "policy-editor"; "policy-viewer"].
Definition ROLE_POLICY_EDIT : list string := ["policy-admin"; "policy-editor"].

(** ** Tables *)

(** A row of [classifications], found by its unique normalized key. *)
Record ClassificationRecord := {
  kr_id : Uuid; kr_taxonomy_version : string; kr_model_version : string; kr_primary_category : string;
  kr_subcategory : string; kr_risk_level : string; kr_recommended_action : string; kr_confidence : Z; kr_sfw : bool;
  kr_flags : Json; kr_ttl_seconds : Z; kr_status : string; kr_next_refresh_at : Z; kr_updated_at : Z
}.
Record ClassificationTables := {
  kt_rows : gmap string ClassificationRecord;
  kt_versions : list ClassificationVersion;
  kt_requests : gmap string PendingRequest;
  kt_pages : list PageContentRow
}.
Definition set_rows (m : gmap string ClassificationRecord) (t : ClassificationTables) : ClassificationTables :=
  {| kt_rows := m; kt_versions := kt_versions t; kt_requests := kt_requests t; kt_pages := kt_pages t |}.
Definition set_versions (l : list ClassificationVersion) (t : ClassificationTables) : ClassificationTables :=
  {| kt_rows := kt_rows t; kt_versions := l; kt_requests := kt_requests t; kt_pages := kt_pages t |}.
Definition set_pending (m : gmap string PendingRequest) (t : ClassificationTables) : ClassificationTables :=
  {| kt_rows := kt_rows t; kt_versions := kt_versions t; kt_requests := m; kt_pages := kt_pages t |}.
Definition set_pages (l : list PageContentRow) (t : ClassificationTables) : ClassificationTables :=
  {| kt_rows := kt_rows t; kt_versions := kt_versions t; kt_requests := kt_requests t; kt_pages := l |}.

(** What other parts of the system see. *)
Inductive ClassificationEffect :=
  | InvalidateKey (cache_key : string)
  | InvalidatePolicyCache
  | QueueJob (payload : string)
  | PolicyEvent (action : string) (actor target_id : option string) (payload : Json).

Abbreviation KM := (M ClassificationTables ClassificationEffect).

(** ** Requests and answers *)

Record ClassificationListQuery := { lq_state : option string; lq_q : option string; lq_limit : option Z; lq_cursor : option string }.
Record ClassificationListRecord := {
  li_normalized_key : string; li_state : string; li_primary_category : option string; li_subcategory : option string;
  li_risk_level : option string; li_recommended_action : option PolicyAction; li_effective_action : option PolicyAction;
  li_effective_decision_source : option string; li_confidence : option float; li_fallback_provenance : list string;
  li_status : string; li_updated_at : Z
}.
Record UpdateClassificationRequest := { uc_primary_category : string; uc_subcategory : string; uc_reason : option string }.
Record ClassificationMutationRecord := {
  mr_normalized_key : string; mr_primary_category : string; mr_subcategory : string; mr_risk_level : string;
  mr_recommended_action : PolicyAction; mr_confidence : float; mr_updated_at : Z
}.
Record ClassificationExchangeEntry := {
  ce_normalized_key : string; ce_primary_category : string; ce_subcategory : string; ce_risk_level : option string;
  ce_recommended_action : option string; ce_confidence : option float; ce_status : option string; ce_flags : option Json
}.
Record ClassificationExchangeBundle := {
  cb_schema_version : string; cb_exported_at : Z; cb_taxonomy_version : string; cb_entries : list ClassificationExchangeEntry
}.
Inductive ClassificationImportMode := Merge | Replace.
Record ClassificationImportRequest := {
  im_bundle : ClassificationExchangeBundle; im_mode : ClassificationImportMode; im_recompute_policy_fields : bool; im_dry_run : bool
}.
Record ClassificationImportResponse := {
  ir_mode : string; ir_recompute_policy_fields : bool; ir_dry_run : bool; ir_total_entries : nat; ir_imported : nat;
  ir_updated : nat; ir_skipped : nat; ir_replaced_deleted : nat; ir_invalid : nat; ir_invalid_rows_filename : option string;
  ir_invalid_rows_jsonl : option string; ir_invalid_rows_truncated : bool
}.
Inductive ClassificationFlushScope := FlushAll | FlushKeys | FlushPrefix.
Record ClassificationFlushRequest := {
  fq_scope : ClassificationFlushScope; fq_keys : option (list string); fq_prefix : option string; fq_dry_run : bool
}.
Record ClassificationFlushResponse := {
  fl_scope : string; fl_dry_run : bool; fl_matched : nat; fl_deleted : nat; fl_invalid_keys : list string
}.
Record InvalidImportRow := {
  iv_index : nat; iv_normalized_key : option string; iv_error_code : string; iv_error_message : string; iv_raw_entry : Json
}.
Record PreparedImportEntry := {
  pe_normalized_key : string; pe_primary_category : string; pe_subcategory : string; pe_risk_level : string;
  pe_recommended_action : PolicyAction; pe_confidence : float; pe_flags : Json
}.

Record PendingQuery := { pn_status : option string; pn_limit : option Z; pn_cursor : option string }.
Record PendingClassificationRecord := {
  pc_normalized_key : string; pc_status : string; pc_base_url : option string; pc_last_error : option string;
  pc_requested_at : Z; pc_updated_at : Z
}.
Record ManualUnblockRequest := {
  mu_action : PolicyAction; mu_primary_category : string; mu_subcategory : string; mu_risk_level : string;
  mu_confidence : float; mu_reason : option string
}.
Record ManualClassifyRequest := { mc_primary_category : string; mc_subcategory : string; mc_reason : option string }.
Record UpsertPendingRequest := { up_status : option string; up_base_url : option string }.
Record MetadataClassifyRequest := { mm_provider_name : option string; mm_reason : option string }.
Record MetadataClassifyResponse := { ma_normalized_key : string; ma_status : string; ma_provider_name : option string }.

(** ** Pure helpers *)

Definition parse_policy_action (value : string) : option PolicyAction :=
  if decide (value = "Allow") then Some Allow
  else if decide (value = "Block") then Some Block
  else if decide (value = "Warn") then Some Warn
  else if decide (value = "Monitor") then Some Monitor
  else if decide (value = "Review") then Some Review
  else if decide (value = "RequireApproval") then Some RequireApproval
  else if decide (value = "ContentPending") then Some ContentPending
  else None.

Definition is_valid_risk_level (value : string) : bool := bool_decide (value ∈ RISK_LEVELS).

Definition parse_normalized_key (normalized_key : string) : option (string * string) :=
  match strip_prefix "domain:" normalized_key with
  | Some host => let host := trim host in if is_empty host then None else Some ("domain", host)
  | None =>
      match strip_prefix "subdomain:" normalized_key with
      | Some host => let host := trim host in if is_empty host then None else Some ("subdomain", host)
      | None => None
      end
  end.

Definition mode_label (mode : ClassificationImportMode) : string := match mode with Merge => "merge" | Replace => "replace" end.
Definition flush_scope_label (scope : ClassificationFlushScope) : string :=
  match scope with FlushAll => "all" | FlushKeys => "keys" | FlushPrefix => "prefix" end.

(** [Map::insert] of a JSON object. *)
Definition obj_insert (key : string) (v : Json) (fields : list (string * Json)) : list (string * Json) :=
  List.filter (fun f => negb (bool_decide (f.1 = key))) fields ++ [(key, v)].

Definition provenance_from_flags (flags : Json) : list string :=
  match flags with
  | JObj obj =>
      (if default false (v ← obj_get "metadata_only" obj; as_bool v) then ["metadata-only"] else []) ++
      match (v ← obj_get "metadata_only_reason" obj; as_str v) with
      | Some reason =>
          (if starts_with "local_output_invalid_online_" reason then ["output-invalid-fallback"] else []) ++ ["metadata:" +:+ reason]
      | None => []
      end ++
      match (v ← obj_get "taxonomy_fallback_reason" obj; as_str v) with Some reason => ["taxonomy:" +:+ reason] | None => [] end
  | _ => []
  end.

Definition is_same_classification (existing : ClassificationRecord) (incoming : PreparedImportEntry) : bool :=
  bool_decide (kr_primary_category existing = pe_primary_category incoming) &&
  bool_decide (kr_subcategory existing = pe_subcategory incoming) &&
  bool_decide (kr_risk_level existing = pe_risk_level incoming) &&
  bool_decide (kr_recommended_action existing = action_to_string (pe_recommended_action incoming)) &&
  f64_close (numeric_to_f64 (kr_confidence existing)) (f32_as_f64 (pe_confidence incoming)).

(** [canonical.sort(); canonical.dedup()]. *)
Definition bytes_le (a b : string) : Prop := Is_true (String.leb a b).
Fixpoint dedup (l : list string) : list string :=
  match l with
  | [] => []
  | x :: l' => match l' with
               | y :: _ => if decide (x = y) then dedup l' else x :: dedup l'
               | [] => [x]
               end
  end.

Definition default_confidence : float := decimal_f32 false 9 (-1).
Definition normalize_provider_name (value : option string) : option string :=
  v ← value; let candidate := trim v in if is_empty candidate then None else Some candidate.
Definition metadata_job_idempotency_key (normalized_key : string) (provider_name : option string) : string :=
  "manual-meta:" +:+ normalized_key +:+ ":" +:+ default "default" provider_name.

(** ** JSON *)

Definition entry_to_json (e : ClassificationExchangeEntry) : Json :=
  JObj [("normalized_key", JStr (ce_normalized_key e)); ("primary_category", JStr (ce_primary_category e));
        ("subcategory", JStr (ce_subcategory e)); ("risk_level", json_opt JStr (ce_risk_level e));
        ("recommended_action", json_opt JStr (ce_recommended_action e));
        ("confidence", json_opt (fun c => JFloat (f32_as_f64 c)) (ce_confidence e));
        ("status", json_opt JStr (ce_status e)); ("flags", json_opt id (ce_flags e))].
Definition invalid_to_json (r : InvalidImportRow) : Json :=
  JObj [("index", JInt (Z.of_nat (iv_index r))); ("normalized_key", json_opt JStr (iv_normalized_key r));
        ("error_code", JStr (iv_error_code r)); ("error_message", JStr (iv_error_message r)); ("raw_entry", iv_raw_entry r)].

Fixpoint render_loop `{JsonText} (rows : list InvalidImportRow) (max_bytes : nat) (out : string) : string * bool :=
  match rows with
  | [] => (out, false)
  | row :: rows' =>
      let serialized := json_print (invalid_to_json row) in
      if decide (max_bytes < str_len out + (str_len serialized + 1))%nat then (out, true)
      else render_loop rows' max_bytes (out +:+ serialized +:+ String (byte 10) "")
  end.
Definition render_invalid_rows_jsonl_limited `{JsonText} (rows : list InvalidImportRow) (max_bytes : nat) : string * bool :=
  render_loop rows max_bytes "".

(** ** Errors *)

Definition http (status : StatusCode) (code message : string) : HttpError := {| he_status := status; he_code := code; he_message := message |}.
Definition forbidden : HttpError := http FORBIDDEN "FORBIDDEN" "insufficient privileges".
Definition db_error (err : string) : HttpError := http INTERNAL_SERVER_ERROR "DB_ERROR" err.
Definition sql_message (e : SqlError) : string := match e with Violation c => c | SqlFailure => DB_ERROR end.
Definition invalid_normalized_key : HttpError :=
  http BAD_REQUEST "INVALID_NORMALIZED_KEY" "normalized_key must start with domain: or subdomain:".
Definition policy_error (message : string) : HttpError := http BAD_GATEWAY "POLICY_DECISION_FAILED" message.
(** A panic of [validate_labels]: the connection is closed.  A validated taxonomy has none. *)
Definition panicked : HttpError := http INTERNAL_SERVER_ERROR "" "panic".

(** ** Statements *)

Definition db {A} (m : KM string A) : KM HttpError A := map_error db_error m.
Definition checked_db {A} (f : Z -> ClassificationTables -> result string (A * ClassificationTables)) : KM string A :=
  map_error sql_message (checked f).

Definition is_domain_key (k : string) : bool := like "domain:%" k.
Definition domain_rows (t : ClassificationTables) : gmap string ClassificationRecord := filter (fun kv => is_domain_key kv.1 = true) (kt_rows t).

Definition FOUR_HOURS : Z := 4 * 3600 * 1000.
Definition new_row (id : Uuid) (taxonomy_version model_version primary_category subcategory risk_level action : string) (confidence : Z)
    (flags : Json) (now : Z) : ClassificationRecord :=
  {| kr_id := id; kr_taxonomy_version := taxonomy_version; kr_model_version := model_version; kr_primary_category := primary_category;
     kr_subcategory := subcategory; kr_risk_level := risk_level; kr_recommended_action := action; kr_confidence := confidence;
     kr_sfw := false; kr_flags := flags; kr_ttl_seconds := 3600; kr_status := "active"; kr_next_refresh_at := now + FOUR_HOURS;
     kr_updated_at := now |}.

(** [ON CONFLICT (normalized_key) DO UPDATE SET ..] of a manual classification and of an import. *)
Definition merge_manual (old new : ClassificationRecord) : ClassificationRecord :=
  {| kr_id := kr_id old; kr_taxonomy_version := kr_taxonomy_version old; kr_model_version := kr_model_version old;
     kr_primary_category := kr_primary_category new; kr_subcategory := kr_subcategory new; kr_risk_level := kr_risk_level new;
     kr_recommended_action := kr_recommended_action new; kr_confidence := kr_confidence new; kr_sfw := kr_sfw old; kr_flags := kr_flags new;
     kr_ttl_seconds := kr_ttl_seconds new; kr_status := kr_status old; kr_next_refresh_at := kr_next_refresh_at new;
     kr_updated_at := kr_updated_at new |}.
Definition merge_import (old new : ClassificationRecord) : ClassificationRecord :=
  {| kr_id := kr_id old; kr_taxonomy_version := kr_taxonomy_version new; kr_model_version := kr_model_version new;
     kr_primary_category := kr_primary_category new; kr_subcategory := kr_subcategory new; kr_risk_level := kr_risk_level new;
     kr_recommended_action := kr_recommended_action new; kr_confidence := kr_confidence new; kr_sfw := kr_sfw old; kr_flags := kr_flags new;
     kr_ttl_seconds := kr_ttl_seconds new; kr_status := kr_status new; kr_next_refresh_at := kr_next_refresh_at new;
     kr_updated_at := kr_updated_at new |}.

(** [INSERT .. ON CONFLICT .. RETURNING ..], with the confidence as a double. *)
Definition upsert (merge : ClassificationRecord -> ClassificationRecord -> ClassificationRecord) (key : string) (confidence : float)
    (row : Z -> Z -> ClassificationRecord) : KM string ClassificationRecord :=
  checked_db (fun now t =>
    n ← ok_or (f64_to_numeric confidence) "numeric field overflow";
    let new := row n now in
    let stored := match kt_rows t !! key with Some old => merge old new | None => new end in
    Ok (stored, set_rows (<[key := stored]> (kt_rows t)) t)).

(** [SELECT MAX(version)]; no version counts as 0. *)
Definition max_version (id : Uuid) (t : ClassificationTables) : Z :=
  foldl Z.max 0 (cve_version <$> List.filter (fun v => bool_decide (cve_classification_id v = id)) (kt_versions t)).
(** The next version, with its payload; the column is an [INTEGER]. *)
Definition insert_version (id : Uuid) (changed_by reason : option string) (payload : Json) : KM string unit :=
  current ← fetch (fun _ t => max_version id t);
  _ ← new_v4;
  checked_db (fun _ t =>
    if decide (current + 1 <= i32_max) then
      Ok (tt, set_versions (kt_versions t ++ [{| cve_classification_id := id; cve_version := current + 1; cve_changed_by := changed_by;
                                                 cve_reason := reason; cve_payload := payload |}]) t)
    else Err "integer out of range").

(** [DELETE FROM classifications WHERE ..]; the versions of a row go with it. *)
Definition delete_rows (doomed : string -> bool) (t : ClassificationTables) : ClassificationTables :=
  let gone := filter (fun kv => doomed kv.1 = true) (kt_rows t) in
  let ids := kr_id <$> (map_to_list gone).*2 in
  {| kt_rows := filter (fun kv => doomed kv.1 = false) (kt_rows t);
     kt_versions := List.filter (fun v => negb (bool_decide (cve_classification_id v ∈ ids))) (kt_versions t);
     kt_requests := kt_requests t; kt_pages := kt_pages t |}.
Definition delete_requests (doomed : string -> bool) (t : ClassificationTables) : ClassificationTables :=
  set_pending (filter (fun kv => doomed kv.1 = false) (kt_requests t)) t.
Definition delete_pages (doomed : string -> bool) (t : ClassificationTables) : ClassificationTables :=
  set_pages (List.filter (fun p => negb (doomed (pg_normalized_key p))) (kt_pages t)) t.
Definition is_key (key : string) (k : string) : bool := bool_decide (k = key).
Definition one_of (keys : list string) (k : string) : bool := bool_decide (k ∈ keys).

Definition delete_keys_and_related (keys : list string) : KM string nat :=
  match keys with
  | [] => mret 0%nat
  | _ =>
      deleted ← sql (fun _ t => (size (filter (fun kv : string * ClassificationRecord => one_of keys kv.1 = true) (kt_rows t)),
                                 delete_rows (one_of keys) t));
      _ ← update (fun _ => delete_requests (one_of keys));
      _ ← update (fun _ => delete_pages (one_of keys));
      mret deleted
  end.

Definition list_existing_domain_keys : KM string (list string) := fetch (fun _ t => (map_to_list (domain_rows t)).*1).
Definition list_existing_domain_rows : KM string (gmap string ClassificationRecord) := fetch (fun _ t => domain_rows t).
Definition list_existing_domain_keys_union : KM string (list string) :=
  fetch (fun _ t => List.filter is_domain_key
    (elements (dom (kt_rows t) ∪ dom (kt_requests t) ∪ list_to_set (pg_normalized_key <$> kt_pages t) : gset string))).

Section Handlers.
  Context `{E : Externals} `{X : Texts} `{T : JsonText} `{B : Base64} `{C : Collation}.
  (** [state.taxonomy_store()] and the policy for canonical keys; whether a cache and a queue are configured;
      [format("%Y%m%d%H%M%S")] and [LOWER] of the database; the answers of the policy engine and of the LLM worker. *)
  Context (store : TaxonomyStore) (policy : CanonicalizationPolicy) (has_cache has_publisher : bool)
    (timestamp : Z -> string) (sql_lower : string -> string)
    (engine : ClassificationTables -> DecisionRequest -> result string PolicyDecision) (llm_providers : list string).

Definition canonicalize_key (normalized_key : string) : string :=
  default normalized_key (canonical_classification_key_with_policy normalized_key policy None).

Definition guard (user : UserContext) (roles : list string) : KM HttpError unit :=
  if require_roles user roles then mret tt else of_result (Err forbidden).

Definition invalidate_policy_cache {F} : KM F unit := if has_cache then dropped (command InvalidatePolicyCache) else mret tt.
Definition invalidate_cache_key {F} (cache_key : string) : KM F unit :=
  if has_cache then dropped (command (InvalidateKey cache_key)) else mret tt.

Definition evaluate_policy_decision (payload : DecisionRequest) : KM string PolicyDecision :=
  answer ← fetch (fun _ t => engine t payload); of_result answer.

Definition decision_payload (key entity_level : string) (category subcategory risk : option string) (confidence : option float) : DecisionRequest :=
  {| dr_normalized_key := key; dr_entity_level := entity_level; dr_source_ip := "127.0.0.1"; dr_user_id := None; dr_group_ids := None;
     dr_category_hint := category; dr_subcategory_hint := subcategory; dr_risk_hint := risk; dr_confidence_hint := confidence |}.

Definition risk_of (d : PolicyDecision) : string := default "medium" (cv_risk_level <$> pd_verdict d).
Definition confidence_of (d : PolicyDecision) : float := default default_confidence (cv_confidence <$> pd_verdict d).

Definition validated_labels (category subcategory : string) : KM HttpError ValidatedTaxonomyLabels :=
  of_result (ok_or (validate_labels store category (if is_empty (trim subcategory) then None else Some subcategory)) panicked).

(** ** Listing *)

#[export, refine] Instance key_anchor : Anchor (Z * string) := {|
  anchor_to_json k := JObj [("updated_at", time_to_json k.1); ("normalized_key", JStr k.2)];
  anchor_from_json := pair_from_json "updated_at" "normalized_key" de_time de_string
|}.
Proof. { done. } intros [t k]. apply pair_round_trip; [done|apply de_time_to_json|done]. Defined.

(** [ORDER BY updated_at DESC, normalized_key DESC]. *)
Definition latest_key (a b : Z * string) : Prop := b.1 < a.1 \/ (a.1 = b.1 /\ text_lt b.2 a.2).
#[global] Instance latest_key_dec : RelDecision latest_key.
Proof. intros a b. unfold latest_key. apply _. Defined.

Definition invalid_cursor (message : string) : HttpError := http BAD_REQUEST "INVALID_CURSOR" message.

Definition classified_record (kv : string * ClassificationRecord) : ClassificationListRecord :=
  let '(k, r) := kv in
  {| li_normalized_key := k; li_state := "classified"; li_primary_category := Some (kr_primary_category r);
     li_subcategory := Some (kr_subcategory r); li_risk_level := Some (kr_risk_level r);
     li_recommended_action := parse_policy_action (kr_recommended_action r); li_effective_action := None;
     li_effective_decision_source := None; li_confidence := Some (as_read (kr_confidence r));
     li_fallback_provenance := provenance_from_flags (kr_flags r); li_status := kr_status r; li_updated_at := kr_updated_at r |}.
Definition unclassified_record (kv : string * PendingRequest) : ClassificationListRecord :=
  let '(k, r) := kv in
  {| li_normalized_key := k; li_state := "unclassified"; li_primary_category := None; li_subcategory := None; li_risk_level := None;
     li_recommended_action := None; li_effective_action := None; li_effective_decision_source := None; li_confidence := None;
     li_fallback_provenance := []; li_status := pq_status r; li_updated_at := pq_updated_at r |}.

Definition active_row (t : ClassificationTables) (k : string) : bool :=
  match kt_rows t !! k with Some r => bool_decide (kr_status r = "active") | None => false end.
Definition combined (q_like state_filter : string) (t : ClassificationTables) : list ClassificationListRecord :=
  (if bool_decide (state_filter ∈ ["all"; "classified"]) then
     classified_record <$> List.filter (fun kv => active_row t kv.1 && like q_like (sql_lower kv.1)) (map_to_list (kt_rows t))
   else []) ++
  (if bool_decide (state_filter ∈ ["all"; "unclassified"]) then
     unclassified_record <$> List.filter (fun kv => negb (active_row t kv.1) && like q_like (sql_lower kv.1)) (map_to_list (kt_requests t))
   else []).

Definition enrich_one (record : ClassificationListRecord) : KM HttpError ClassificationListRecord :=
  if bool_decide (li_state record <> "classified") then mret record
  else match parse_normalized_key (li_normalized_key record) with
       | None => mret record
       | Some (entity_level, _) =>
           answer ← outcome (evaluate_policy_decision (decision_payload (li_normalized_key record) entity_level
             (li_primary_category record) (li_subcategory record) (li_risk_level record) (li_confidence record)));
           mret match answer with
                | Ok decision =>
                    {| li_normalized_key := li_normalized_key record; li_state := li_state record;
                       li_primary_category := li_primary_category record; li_subcategory := li_subcategory record;
                       li_risk_level := li_risk_level record; li_recommended_action := li_recommended_action record;
                       li_effective_action := Some (pd_action decision); li_effective_decision_source := pd_decision_source decision;
                       li_confidence := li_confidence record; li_fallback_provenance := li_fallback_provenance record;
                       li_status := li_status record; li_updated_at := li_updated_at record |}
                | Err _ => record
                end
       end.
Fixpoint enrich_effective_decisions (out : list ClassificationListRecord) : KM HttpError (list ClassificationListRecord) :=
  match out with
  | [] => mret []
  | record :: out' => record' ← enrich_one record; rest ← enrich_effective_decisions out'; mret (record' :: rest)
  end.

Definition listed_key (r : ClassificationListRecord) : Z * string := (li_updated_at r, li_normalized_key r).
Definition list_classifications (user : UserContext) (query : ClassificationListQuery) : KM HttpError (CursorPaged ClassificationListRecord) :=
  _ ← guard user ROLE_POLICY_VIEW;
  let limit := cursor_limit (lq_limit query) in
  let state_filter := default "all" (to_ascii_lowercase <$> lq_state query) in
  let q_like := "%" +:+ to_ascii_lowercase (trim (default "" (lq_q query))) +:+ "%" in
  position ← of_result (map_err invalid_cursor (decode_position (lq_cursor query)));
  rows ← db (fetch (fun _ t => page_rows listed_key latest_key (fun _ => false) position limit (combined q_like state_filter t)));
  let page := paged listed_key (lq_cursor query) position.1 limit rows in
  data ← enrich_effective_decisions (cp_data page);
  mret {| cp_data := data; cp_limit := cp_limit page; cp_has_more := cp_has_more page; cp_next_cursor := cp_next_cursor page;
          cp_prev_cursor := cp_prev_cursor page |}.

Definition pending_record (kv : string * PendingRequest) : PendingClassificationRecord :=
  let '(k, r) := kv in
  {| pc_normalized_key := k; pc_status := pq_status r; pc_base_url := pq_base_url r; pc_last_error := pq_last_error r;
     pc_requested_at := pq_requested_at r; pc_updated_at := pq_updated_at r |}.
Definition pending_key (r : PendingClassificationRecord) : Z * string := (pc_updated_at r, pc_normalized_key r).
Definition pending_rows (status : option string) (t : ClassificationTables) : list PendingClassificationRecord :=
  pending_record <$> List.filter (fun kv => match status with None => true | Some s => bool_decide (pq_status kv.2 = s) end)
                       (map_to_list (kt_requests t)).
Definition list_pending (user : UserContext) (query : PendingQuery) : KM HttpError (CursorPaged PendingClassificationRecord) :=
  _ ← guard user ROLE_POLICY_VIEW;
  let limit := cursor_limit (pn_limit query) in
  position ← of_result (map_err invalid_cursor (decode_position (pn_cursor query)));
  rows ← db (fetch (fun _ t => page_rows pending_key latest_key (fun _ => false) position limit (pending_rows (pn_status query) t)));
  mret (paged pending_key (pn_cursor query) position.1 limit rows).

(** ** Export and import *)

Definition key_le (a b : string) : Prop := ~ text_lt b a.
#[global] Instance key_le_dec : RelDecision key_le.
Proof. intros a b. unfold key_le. apply _. Defined.
Definition row_le (a b : string * ClassificationRecord) : Prop := key_le a.1 b.1.
#[global] Instance row_le_dec : RelDecision row_le.
Proof. intros a b. unfold row_le. apply _. Defined.

Definition exchange_entry (kv : string * ClassificationRecord) : ClassificationExchangeEntry :=
  let '(k, r) := kv in
  {| ce_normalized_key := k; ce_primary_category := kr_primary_category r; ce_subcategory := kr_subcategory r;
     ce_risk_level := Some (kr_risk_level r); ce_recommended_action := Some (kr_recommended_action r);
     ce_confidence := Some (as_read (kr_confidence r)); ce_status := Some (kr_status r); ce_flags := Some (kr_flags r) |}.
Definition export_rows (q_like : string) (t : ClassificationTables) : list (string * ClassificationRecord) :=
  merge_sort row_le (List.filter (fun kv => like q_like (sql_lower kv.1)) (map_to_list (domain_rows t))).
Definition export_bundle (user : UserContext) (q : option string) : KM HttpError ClassificationExchangeBundle :=
  _ ← guard user ROLE_POLICY_VIEW;
  let q_like := "%" +:+ to_ascii_lowercase (trim (default "" q)) +:+ "%" in
  rows ← db (fetch (fun _ t => export_rows q_like t));
  now ← utc_now;
  mret {| cb_schema_version := "od-classification-bundle.v1"; cb_exported_at := now; cb_taxonomy_version := tx_version (ts_taxonomy store);
          cb_entries := exchange_entry <$> rows |}.

Definition evaluate_decision_for_import (normalized_key primary_category subcategory : string) : KM string (string * PolicyAction * float) :=
  '(entity_level, _) ← of_result (ok_or (parse_normalized_key normalized_key) "normalized_key must start with domain: or subdomain:");
  decision ← map_error (fun err => "failed to evaluate policy decision: " +:+ err)
    (evaluate_policy_decision (decision_payload normalized_key entity_level (Some primary_category) (Some subcategory) None None));
  mret (risk_of decision, pd_action decision, confidence_of decision).

(** The fields as the entry has them; an error is its code and message. *)
Definition fields_as_is (entry : ClassificationExchangeEntry) : result (string * string) (string * PolicyAction * float) :=
  action_raw ← ok_or (ce_recommended_action entry)
    ("missing_recommended_action", "recommended_action is required when recompute is disabled");
  action ← ok_or (parse_policy_action action_raw) ("invalid_recommended_action", "unsupported recommended_action: " +:+ action_raw);
  let missing_risk := ("missing_risk_level", "risk_level is required when recompute is disabled") in
  value ← ok_or (ce_risk_level entry) missing_risk;
  risk_level ← (if is_empty (trim value) then Err missing_risk
                else let normalized := to_ascii_lowercase (trim value) in
                     if is_valid_risk_level normalized then Ok normalized
                     else Err ("invalid_risk_level", "risk_level must be one of low|medium|high|critical, got " +:+ value));
  let bad_confidence := ("invalid_confidence", "confidence must be set between 0.0 and 1.0 when recompute is disabled") in
  confidence ← ok_or (ce_confidence entry) bad_confidence;
  if in_unit confidence then Ok (risk_level, action, confidence) else Err bad_confidence.

Definition import_flags (recompute : bool) (actor : string) (flags : option Json) : Json :=
  let obj := match flags with Some (JObj fields) => fields | _ => [] end in
  JObj (obj_insert "actor" (JStr actor) (obj_insert "source" (JStr (if recompute then "import-recompute" else "import-as-is")) obj)).

Inductive Examined := Rejected (row : InvalidImportRow) | Accepted (entry : PreparedImportEntry).

(** One round of the loop over the entries. *)
Definition examine (recompute : bool) (actor : string) (index : nat) (entry : ClassificationExchangeEntry) : KM HttpError Examined :=
  let reject key code message :=
    Rejected {| iv_index := index; iv_normalized_key := Some key; iv_error_code := code; iv_error_message := message;
                iv_raw_entry := entry_to_json entry |} in
  match parse_normalized_key (ce_normalized_key entry) with
  | None => mret (reject (ce_normalized_key entry) "invalid_normalized_key" "normalized_key must be canonicalizable to domain:*")
  | Some _ =>
      let canonical := canonicalize_key (ce_normalized_key entry) in
      validated ← validated_labels (ce_primary_category entry) (ce_subcategory entry);
      match vl_fallback_reason validated with
      | Some reason =>
          mret (reject canonical "invalid_taxonomy" ("category/subcategory rejected by canonical taxonomy: " +:+ fallback_as_str reason))
      | None =>
          let primary_category := cat_id (vl_category validated) in
          let subcategory := sub_id (vl_subcategory validated) in
          fields ← (if recompute then
                      answer ← outcome (evaluate_decision_for_import canonical primary_category subcategory);
                      mret (map_err (fun err => ("policy_decision_failed", err)) answer)
                    else mret (fields_as_is entry));
          mret match fields with
               | Err (code, message) => reject canonical code message
               | Ok (risk_level, recommended_action, confidence) =>
                   Accepted {| pe_normalized_key := canonical; pe_primary_category := primary_category; pe_subcategory := subcategory;
                               pe_risk_level := risk_level; pe_recommended_action := recommended_action; pe_confidence := confidence;
                               pe_flags := import_flags recompute actor (ce_flags entry) |}
               end
      end
  end.

(** The rows that were refused, and the entries by key. *)
Fixpoint prepare (recompute : bool) (actor : string) (index : nat) (entries : list ClassificationExchangeEntry)
    (invalid : list InvalidImportRow) (prepared_by_key : gmap string PreparedImportEntry)
    : KM HttpError (list InvalidImportRow * gmap string PreparedImportEntry) :=
  match entries with
  | [] => mret (invalid, prepared_by_key)
  | entry :: entries' =>
      examined ← examine recompute actor index entry;
      match examined with
      | Rejected row => prepare recompute actor (S index) entries' (invalid ++ [row]) prepared_by_key
      | Accepted e => prepare recompute actor (S index) entries' invalid (<[pe_normalized_key e := e]> prepared_by_key)
      end
  end.

Definition upsert_import_entry (entry : PreparedImportEntry) (taxonomy_version actor : string) : KM string unit :=
  id ← new_v4;
  row ← upsert merge_import (pe_normalized_key entry) (f32_as_f64 (pe_confidence entry))
    (fun confidence => new_row id taxonomy_version "import" (pe_primary_category entry) (pe_subcategory entry) (pe_risk_level entry)
             (action_to_string (pe_recommended_action entry)) confidence (pe_flags entry));
  insert_version (kr_id row) (Some actor) (Some "classification import")
    (JObj [("normalized_key", JStr (pe_normalized_key entry)); ("category", JStr (pe_primary_category entry));
           ("subcategory", JStr (pe_subcategory entry)); ("source", JStr "classification-import")]).

Inductive ImportOutcome := Imported | Updated | Skipped.
Definition import_outcome (existing_map : gmap string ClassificationRecord) (entry : PreparedImportEntry) : ImportOutcome :=
  match existing_map !! pe_normalized_key entry with
  | Some existing => if is_same_classification existing entry then Skipped else Updated
  | None => Imported
  end.
(** [imported], [updated] and [skipped]. *)
Definition Counts : Type := nat * nat * nat.
Definition counted (o : ImportOutcome) (c : Counts) : Counts :=
  let '(imported, updated, skipped) := c in
  match o with
  | Imported => (S imported, updated, skipped)
  | Updated => (imported, S updated, skipped)
  | Skipped => (imported, updated, S skipped)
  end.

Definition clear_request {F} (key : string) : KM F unit := dropped (update (fun _ => delete_requests (is_key key))).

(** The loop over the prepared entries, and the same without writing. *)
Fixpoint apply_prepared (existing_map : gmap string ClassificationRecord) (taxonomy_version actor : string) (prepared : list PreparedImportEntry)
    (c : Counts) : KM HttpError Counts :=
  match prepared with
  | [] => mret c
  | entry :: prepared' =>
      let o := import_outcome existing_map entry in
      match o with
      | Skipped => apply_prepared existing_map taxonomy_version actor prepared' (counted o c)
      | _ =>
          _ ← db (upsert_import_entry entry taxonomy_version actor);
          _ ← clear_request (pe_normalized_key entry);
          apply_prepared existing_map taxonomy_version actor prepared' (counted o c)
      end
  end.
Definition count_prepared (existing_map : gmap string ClassificationRecord) (prepared : list PreparedImportEntry) : Counts :=
  foldl (fun c entry => counted (import_outcome existing_map entry) c) (0, 0, 0)%nat prepared.

Definition log_policy_event {F} (action : string) (actor target_id : option string) (payload : Json) : KM F unit :=
  emit (PolicyEvent action actor target_id payload).

Definition json_nat (n : nat) : Json := JInt (Z.of_nat n).

Definition import_bundle (user : UserContext) (payload : ClassificationImportRequest) : KM HttpError ClassificationImportResponse :=
  _ ← guard user ROLE_POLICY_EDIT;
  let bundle := im_bundle payload in
  let recompute := im_recompute_policy_fields payload in
  '(invalid_rows, prepared_by_key) ← prepare recompute (uc_actor user) 0 (cb_entries bundle) [] ∅;
  let prepared := (map_to_list prepared_by_key).*2 in
  existing_map ← db list_existing_domain_rows;
  to_delete_replace ←
    match im_mode payload with
    | Replace =>
        keys ← db list_existing_domain_keys_union;
        mret (List.filter (fun key => negb (bool_decide (key ∈ (pe_normalized_key <$> prepared)))) keys)
    | Merge => mret []
    end;
  counts ←
    (if im_dry_run payload then mret (count_prepared existing_map prepared)
     else
       c ← apply_prepared existing_map (cb_taxonomy_version bundle) (uc_actor user) prepared (0, 0, 0)%nat;
       _ ← match to_delete_replace with
           | [] => mret tt
           | _ => _ ← db (delete_keys_and_related to_delete_replace); mret tt
           end;
       _ ← (if bool_decide (prepared <> []) || bool_decide (to_delete_replace <> []) then invalidate_policy_cache else mret tt);
       mret c);
  let '(imported, updated, skipped) := counts in
  now ← utc_now;
  let no_invalid := bool_decide (invalid_rows = []) in
  let '(jsonl, truncated) := render_invalid_rows_jsonl_limited invalid_rows (Z.to_nat 1000000) in
  _ ← log_policy_event "classifications.import" (Some (uc_actor user)) None
        (JObj [("mode", JStr (mode_label (im_mode payload))); ("recompute_policy_fields", JBool recompute);
               ("dry_run", JBool (im_dry_run payload)); ("imported", json_nat imported); ("updated", json_nat updated);
               ("replaced_deleted", json_nat (length to_delete_replace)); ("invalid", json_nat (length invalid_rows))]);
  mret {| ir_mode := mode_label (im_mode payload); ir_recompute_policy_fields := recompute; ir_dry_run := im_dry_run payload;
          ir_total_entries := length (cb_entries bundle); ir_imported := imported; ir_updated := updated; ir_skipped := skipped;
          ir_replaced_deleted := length to_delete_replace; ir_invalid := length invalid_rows;
          ir_invalid_rows_filename :=
            if no_invalid then None else Some ("classification-import-invalid-" +:+ timestamp now +:+ ".jsonl");
          ir_invalid_rows_jsonl := if no_invalid then None else Some jsonl;
          ir_invalid_rows_truncated := if no_invalid then false else truncated |}.

(** ** Flushing *)

Definition list_existing_domain_keys_with_prefix (prefix : string) : KM string (list string) :=
  fetch (fun _ t => merge_sort key_le (List.filter (like (prefix +:+ "%")) (map_to_list (kt_rows t)).*1)).

(** The keys that canonicalise, and the others. *)
Definition canonical_keys (provided : list string) : list string * list string :=
  (canonicalize_key <$> List.filter (fun v => bool_decide (is_Some (parse_normalized_key v))) provided,
   List.filter (fun v => negb (bool_decide (is_Some (parse_normalized_key v)))) provided).

Definition flush_keys (payload : ClassificationFlushRequest) : KM HttpError (list string * list string) :=
  match fq_scope payload with
  | FlushAll => keys ← db list_existing_domain_keys; mret (keys, [])
  | FlushPrefix =>
      let trimmed := to_ascii_lowercase (trim (default "" (fq_prefix payload))) in
      let prefix := if starts_with "domain:" trimmed then trimmed else "domain:" +:+ trimmed in
      if decide (prefix = "domain:") then of_result (Err (http BAD_REQUEST "INVALID_PREFIX" "prefix cannot be empty"))
      else keys ← db (list_existing_domain_keys_with_prefix prefix); mret (keys, [])
  | FlushKeys =>
      match default [] (fq_keys payload) with
      | [] => of_result (Err (http BAD_REQUEST "INVALID_KEYS" "keys must not be empty"))
      | provided =>
          let '(canonical, invalid_keys) := canonical_keys provided in
          match canonical with
          | [] => of_result (Err (http BAD_REQUEST "INVALID_KEYS" "no valid domain/subdomain keys provided"))
          | _ => mret (dedup (merge_sort bytes_le canonical), invalid_keys)
          end
      end
  end.

Definition flush (user : UserContext) (payload : ClassificationFlushRequest) : KM HttpError ClassificationFlushResponse :=
  _ ← guard user ROLE_POLICY_EDIT;
  '(keys, invalid_keys) ← flush_keys payload;
  let matched := length keys in
  deleted ←
    (if negb (fq_dry_run payload) && bool_decide (keys <> []) then
       n ← db (delete_keys_and_related keys);
       _ ← invalidate_policy_cache;
       mret n
     else mret 0%nat);
  _ ← log_policy_event "classifications.flush" (Some (uc_actor user)) None
        (JObj [("scope", JStr (flush_scope_label (fq_scope payload))); ("dry_run", JBool (fq_dry_run payload));
               ("matched", json_nat matched); ("deleted", json_nat deleted)]);
  mret {| fl_scope := flush_scope_label (fq_scope payload); fl_dry_run := fq_dry_run payload; fl_matched := matched;
          fl_deleted := deleted; fl_invalid_keys := invalid_keys |}.

(** ** Manual classification *)

Definition update_classification (user : UserContext) (normalized_key : string) (payload : UpdateClassificationRequest)
    : KM HttpError ClassificationMutationRecord :=
  _ ← guard user ROLE_POLICY_EDIT;
  validated ← validated_labels (uc_primary_category payload) (uc_subcategory payload);
  let category := cat_id (vl_category validated) in
  let subcategory := sub_id (vl_subcategory validated) in
  '(entity_level, hostname) ← of_result (ok_or (parse_normalized_key normalized_key) invalid_normalized_key);
  decision ← map_error (fun _ => policy_error "failed to compute policy decision for classification update")
    (evaluate_policy_decision (decision_payload normalized_key entity_level (Some category) (Some subcategory) None None));
  let flags := JObj [("source", JStr "classification-edit"); ("actor", JStr (uc_actor user));
                     ("reason", json_opt JStr (uc_reason payload)); ("hostname", JStr hostname)] in
  id ← new_v4;
  row ← db (upsert merge_manual normalized_key (f32_as_f64 (confidence_of decision))
    (fun confidence => new_row id (tx_version (ts_taxonomy store)) "manual" category subcategory (risk_of decision)
                         (action_to_string (pd_action decision)) confidence flags));
  _ ← db (insert_version (kr_id row) (Some (uc_actor user)) (uc_reason payload)
    (JObj [("normalized_key", JStr normalized_key); ("category", JStr category); ("subcategory", JStr subcategory);
           ("source", JStr "classification-edit")]));
  _ ← clear_request normalized_key;
  _ ← invalidate_cache_key normalized_key;
  mret {| mr_normalized_key := normalized_key; mr_primary_category := kr_primary_category row; mr_subcategory := kr_subcategory row;
          mr_risk_level := kr_risk_level row; mr_recommended_action := default Monitor (parse_policy_action (kr_recommended_action row));
          mr_confidence := as_read (kr_confidence row); mr_updated_at := kr_updated_at row |}.

Definition delete_classification (user : UserContext) (normalized_key : string) : KM HttpError unit :=
  _ ← guard user ROLE_POLICY_EDIT;
  _ ← db (update (fun _ => delete_rows (is_key normalized_key)));
  _ ← clear_request normalized_key;
  _ ← dropped (update (fun _ => delete_pages (is_key normalized_key)));
  invalidate_cache_key normalized_key.

Definition persist_manual_classification (normalized_key : string) (payload : ManualUnblockRequest)
    (actor canonical_category canonical_subcategory taxonomy_version : string) (fallback_reason : option FallbackReason) (source : string)
    (hostname_hint : option string) : KM string ClassificationMutationRecord :=
  let flags := [("source", JStr source); ("actor", JStr actor); ("reason", json_opt JStr (mu_reason payload))] in
  let flags := match hostname_hint with Some hostname => obj_insert "hostname" (JStr hostname) flags | None => flags end in
  let flags := match fallback_reason with
               | Some reason => obj_insert "taxonomy_fallback_reason" (JStr (fallback_as_str reason)) flags
               | None => flags
               end in
  id ← new_v4;
  row ← upsert merge_manual normalized_key (f32_as_f64 (mu_confidence payload))
    (fun confidence => new_row id taxonomy_version "manual" canonical_category canonical_subcategory (mu_risk_level payload)
                         (action_to_string (mu_action payload)) confidence (JObj flags));
  _ ← insert_version (kr_id row) (Some actor) (mu_reason payload)
    (JObj [("normalized_key", JStr normalized_key); ("category", JStr canonical_category);
           ("action", JStr (action_to_string (mu_action payload))); ("source", JStr source)]);
  mret {| mr_normalized_key := normalized_key; mr_primary_category := kr_primary_category row; mr_subcategory := kr_subcategory row;
          mr_risk_level := kr_risk_level row; mr_recommended_action := mu_action payload; mr_confidence := as_read (kr_confidence row);
          mr_updated_at := kr_updated_at row |}.

(** The request is cleared and the cached decisions of both keys are dropped. *)
Definition settle (applied_key normalized_key : string) : KM HttpError unit :=
  _ ← clear_request applied_key;
  _ ← invalidate_cache_key applied_key;
  if decide (applied_key <> normalized_key) then invalidate_cache_key normalized_key else mret tt.

Definition manual_unblock (user : UserContext) (normalized_key : string) (payload : ManualUnblockRequest)
    : KM HttpError ClassificationMutationRecord :=
  _ ← guard user ROLE_POLICY_EDIT;
  if decide (mu_action payload = ContentPending) then
    of_result (Err (http BAD_REQUEST "INVALID_ACTION" "ContentPending is not a valid manual action"))
  else
    let applied_key := canonicalize_key normalized_key in
    validated ← validated_labels (mu_primary_category payload) (mu_subcategory payload);
    record ← db (persist_manual_classification applied_key payload (uc_actor user) (cat_id (vl_category validated))
      (sub_id (vl_subcategory validated)) (tx_version (ts_taxonomy store)) (vl_fallback_reason validated) "manual-unblock" None);
    _ ← settle applied_key normalized_key;
    mret record.

Definition manual_classify (user : UserContext) (normalized_key : string) (payload : ManualClassifyRequest)
    : KM HttpError ClassificationMutationRecord :=
  _ ← guard user ROLE_POLICY_EDIT;
  validated ← validated_labels (mc_primary_category payload) (mc_subcategory payload);
  let category := cat_id (vl_category validated) in
  let subcategory := sub_id (vl_subcategory validated) in
  _ ← of_result (ok_or (parse_normalized_key normalized_key) invalid_normalized_key);
  let applied_key := canonicalize_key normalized_key in
  '(entity_level, hostname) ← of_result (ok_or (parse_normalized_key applied_key) invalid_normalized_key);
  decision ← map_error (fun _ => policy_error "failed to compute policy decision for manual classification")
    (evaluate_policy_decision (decision_payload applied_key entity_level (Some category) (Some subcategory) None None));
  let manual_payload := {| mu_action := pd_action decision; mu_primary_category := category; mu_subcategory := subcategory;
                           mu_risk_level := risk_of decision; mu_confidence := confidence_of decision; mu_reason := mc_reason payload |} in
  record ← db (persist_manual_classification applied_key manual_payload (uc_actor user) category subcategory
    (tx_version (ts_taxonomy store)) (vl_fallback_reason validated) "manual-classify" (Some hostname));
  _ ← settle applied_key normalized_key;
  mret record.

(** ** Pending requests *)

Definition upsert_pending (user : UserContext) (normalized_key : string) (payload : UpsertPendingRequest) : KM HttpError unit :=
  _ ← guard user ROLE_POLICY_EDIT;
  match parse_normalized_key normalized_key with
  | None => of_result (Err invalid_normalized_key)
  | Some _ =>
      let status := default "waiting_content" (value ← up_status payload; let v := trim value in if is_empty v then None else Some v) in
      let applied_key := canonicalize_key normalized_key in
      db (update (fun now t =>
        let row := match kt_requests t !! applied_key with
                   | None => {| pq_status := status; pq_base_url := up_base_url payload; pq_last_error := None; pq_requested_at := now;
                                pq_updated_at := now |}
                   | Some old => {| pq_status := status; pq_base_url := match up_base_url payload with Some u => Some u | None => pq_base_url old end;
                                    pq_last_error := None; pq_requested_at := pq_requested_at old; pq_updated_at := now |}
                   end in
        set_pending (<[applied_key := row]> (kt_requests t)) t))
  end.

Definition build_metadata_classification_job (normalized_key entity_level hostname : string) (base_url provider_name : option string)
    : KM HttpError ClassificationJobPayload :=
  trace ← new_v4;
  mret {| cj_normalized_key := normalized_key; cj_entity_level := entity_level; cj_hostname := hostname;
          cj_full_url := default ("https://" +:+ hostname) base_url; cj_trace_id := "manual-meta-" +:+ pretty trace;
          cj_idempotency_key := Some (metadata_job_idempotency_key normalized_key provider_name); cj_requires_content := false;
          cj_base_url := base_url; cj_content_excerpt := None; cj_content_hash := None; cj_content_version := None;
          cj_content_language := None; cj_requeue_attempt := 0; cj_provider_override := provider_name |}.

Definition validate_llm_provider_name (provider : string) : KM string bool := fetch (fun _ _ => bool_decide (provider ∈ llm_providers)).

Definition queue_classification_job (job : ClassificationJobPayload) : KM string unit :=
  if has_publisher then command (QueueJob (json_print (job_to_json job))) else of_result (Err "classification job publisher is not configured").

Definition QUEUED_MANUAL_METADATA : string := "queued_manual_metadata".
Definition mark_queued (key : string) (now : Z) (t : ClassificationTables) : ClassificationTables :=
  set_pending (alter (fun r => {| pq_status := QUEUED_MANUAL_METADATA; pq_base_url := pq_base_url r; pq_last_error := None;
                                  pq_requested_at := pq_requested_at r; pq_updated_at := now |}) key (kt_requests t)) t.

Definition metadata_classify (user : UserContext) (normalized_key : string) (payload : MetadataClassifyRequest)
    : KM HttpError MetadataClassifyResponse :=
  _ ← guard user ROLE_POLICY_EDIT;
  _ ← of_result (ok_or (parse_normalized_key normalized_key) invalid_normalized_key);
  let applied_key := canonicalize_key normalized_key in
  '(entity_level, hostname) ← of_result (ok_or (parse_normalized_key applied_key) invalid_normalized_key);
  let provider_name := normalize_provider_name (mm_provider_name payload) in
  _ ← match provider_name with
      | None => mret tt
      | Some provider =>
          valid ← map_error (fun _ => http BAD_GATEWAY "LLM_PROVIDER_LOOKUP_FAILED" "failed to validate selected llm provider")
                    (validate_llm_provider_name provider);
          if valid : bool then mret tt
          else of_result (Err (http BAD_REQUEST "INVALID_LLM_PROVIDER" "selected llm provider is not available"))
      end;
  pending ← db (fetch (fun _ t => kt_requests t !! applied_key));
  pending_row ← of_result (ok_or pending (http NOT_FOUND "PENDING_NOT_FOUND" "pending classification record was not found"));
  job ← build_metadata_classification_job applied_key entity_level hostname (pq_base_url pending_row) provider_name;
  _ ← map_error (fun _ => http SERVICE_UNAVAILABLE "CLASSIFICATION_QUEUE_UNAVAILABLE" "failed to enqueue metadata-only classification job")
        (queue_classification_job job);
  _ ← db (update (mark_queued applied_key));
  _ ← log_policy_event "pending.metadata_classify" (Some (uc_actor user)) (Some applied_key)
        (JObj [("provider_name", json_opt JStr provider_name); ("reason", json_opt JStr (mm_reason payload))]);
  mret {| ma_normalized_key := applied_key; ma_status := QUEUED_MANUAL_METADATA; ma_provider_name := cj_provider_override job |}.

Definition clear_pending (user : UserContext) (normalized_key : string) : KM HttpError unit :=
  _ ← guard user ROLE_POLICY_EDIT;
  match parse_normalized_key normalized_key with
  | None => of_result (Err invalid_normalized_key)
  | Some _ => db (update (fun _ => delete_requests (is_key (canonicalize_key normalized_key))))
  end.

Definition clear_all_pending (user : UserContext) : KM HttpError nat :=
  _ ← guard user ROLE_POLICY_EDIT;
  deleted ← db (sql (fun _ t => (size (kt_requests t), set_pending ∅ t)));
  _ ← log_policy_event "pending.clear_all" (Some (uc_actor user)) None (JObj [("deleted", json_nat deleted)]);
  mret deleted.

End Handlers.
