(* ===== verification/ClassificationTables.v ===== *)
(** * What the classification routes keep true

    The requests of [classifications.rs] and [classification_requests.rs] as one machine, and the
    invariant of their tables: rows have identifiers of their own, the versions of a row are numbered
    without gaps in their uniqueness, every stored label is one the taxonomy resolves to itself, and
    every stored action is the name of an action. *)

From S2P Require Import Prelude RustStr RustNum Numeric Types Http Json Normalizer Taxonomy PolicyStore LlmAnswer LlmProvider LlmWorker Db Io Wp Texts Pagination AdminClassifications.

Local Open Scope Z_scope.

Inductive ClassificationRequest :=
  | ListClassifications (query : ClassificationListQuery)
  | ExportBundle (q : option string)
  | ImportBundle (payload : ClassificationImportRequest)
  | Flush (payload : ClassificationFlushRequest)
  | UpdateClassification (key : string) (payload : UpdateClassificationRequest)
  | DeleteClassification (key : string)
  | ManualUnblock (key : string) (payload : ManualUnblockRequest)
  | ManualClassify (key : string) (payload : ManualClassifyRequest)
  | MetadataClassify (key : string) (payload : MetadataClassifyRequest)
  | ListPending (query : PendingQuery)
  | UpsertPending (key : string) (payload : UpsertPendingRequest)
  | ClearPending (key : string)
  | ClearAllPending.

Abbreviation World := (Io ClassificationTables ClassificationEffect).

(** Ids without white space around them, and not empty. *)
Definition clean_ids (store : TaxonomyStore) : Prop :=
  forall c s, c ∈ tx_categories (ts_taxonomy store) -> s ∈ cat_subcategories c ->
    trim (cat_id c) = cat_id c /\ cat_id c <> "" /\ trim (sub_id s) = sub_id s /\ sub_id s <> "".

Section Server.
  Context `{E : Externals} `{X : Texts} `{T : JsonText} `{B : Base64} `{C : Collation}.
  Context (store : TaxonomyStore) (policy : CanonicalizationPolicy) (has_cache has_publisher : bool)
    (timestamp : Z -> string) (sql_lower : string -> string)
    (engine : ClassificationTables -> DecisionRequest -> result string PolicyDecision) (llm_providers : list string).

Definition serve_classification (user : UserContext) (request : ClassificationRequest) : KM HttpError unit :=
  match request with
  | ListClassifications query => _ ← list_classifications sql_lower engine user query; mret tt
  | ExportBundle q => _ ← export_bundle store sql_lower user q; mret tt
  | ImportBundle payload => _ ← import_bundle store policy has_cache timestamp engine user payload; mret tt
  | Flush payload => _ ← flush policy has_cache user payload; mret tt
  | UpdateClassification key payload => _ ← update_classification store has_cache engine user key payload; mret tt
  | DeleteClassification key => delete_classification has_cache user key
  | ManualUnblock key payload => _ ← manual_unblock store policy has_cache user key payload; mret tt
  | ManualClassify key payload => _ ← manual_classify store policy has_cache engine user key payload; mret tt
  | MetadataClassify key payload => _ ← metadata_classify policy has_publisher llm_providers user key payload; mret tt
  | ListPending query => _ ← list_pending user query; mret tt
  | UpsertPending key payload => upsert_pending policy user key payload
  | ClearPending key => clear_pending policy user key
  | ClearAllPending => _ ← clear_all_pending user; mret tt
  end.

(** Requests one after the other; an error answers one of them. *)
Fixpoint serve_classifications (requests : list (UserContext * ClassificationRequest)) (w : World) : World :=
  match requests with
  | [] => w
  | (user, request) :: requests' => serve_classifications requests' (serve_classification user request w).2
  end.

(** ** The invariant *)

(** Labels that the taxonomy resolves to themselves. *)
Definition stable_labels (category subcategory : string) : Prop :=
  exists v, validate_labels store category (if is_empty (trim subcategory) then None else Some subcategory) = Some v /\
    vl_fallback_reason v = None /\ cat_id (vl_category v) = category /\ sub_id (vl_subcategory v) = subcategory.

Definition row_ok (r : ClassificationRecord) : Prop :=
  stable_labels (kr_primary_category r) (kr_subcategory r) /\ (exists a, kr_recommended_action r = action_to_string a) /\
  kr_status r = "active" /\ Z.abs (kr_confidence r) < 100000.

Definition version_key (v : ClassificationVersion) : Uuid * Z := (cve_classification_id v, cve_version v).

Record tables_good (next : Uuid) (t : ClassificationTables) : Prop := {
  tg_id_lt k r : kt_rows t !! k = Some r -> (kr_id r < next)%nat;
  tg_id_inj k1 k2 r1 r2 : kt_rows t !! k1 = Some r1 -> kt_rows t !! k2 = Some r2 -> kr_id r1 = kr_id r2 -> k1 = k2;
  tg_version_row v : v ∈ kt_versions t -> exists k r, kt_rows t !! k = Some r /\ kr_id r = cve_classification_id v;
  tg_version_nodup : NoDup (version_key <$> kt_versions t);
  tg_version_range v : v ∈ kt_versions t -> 1 <= cve_version v <= i32_max;
  tg_row k r : kt_rows t !! k = Some r -> row_ok r
}.
Definition good (w : World) : Prop := tables_good (io_next_uuid w) (io_tables w).

(** ** Statements *)

Lemma good_next next next' t : (next <= next')%nat -> tables_good next t -> tables_good next' t.
Proof. intros Hn [H1 H2 H3 H4 H5 H6]. split; eauto. intros k r Hr. specialize (H1 k r Hr). lia. Qed.

(** The pending requests and the page contents are not part of it. *)
Lemma good_pending m next t : tables_good next t -> tables_good next (set_pending m t).
Proof. by intros [H1 H2 H3 H4 H5 H6]. Qed.
Lemma good_pages l next t : tables_good next t -> tables_good next (set_pages l t).
Proof. by intros [H1 H2 H3 H4 H5 H6]. Qed.

Lemma good_delete doomed next t : tables_good next t -> tables_good next (delete_rows doomed t).
Proof.
  intros [H1 H2 H3 H4 H5 H6]. unfold delete_rows.
  assert (forall k r, filter (fun kv : string * ClassificationRecord => doomed kv.1 = false) (kt_rows t) !! k = Some r -> kt_rows t !! k = Some r) as Hsub.
  { intros k r Hr. by apply map_lookup_filter_Some in Hr as [? _]. }
  split; cbn; eauto.
  - intros v [Hv Hk]%list_elem_of_In%filter_In. apply list_elem_of_In in Hv. destruct (H3 v Hv) as (k & r & Hr & Hid). exists k, r.
    split; [|done]. apply map_lookup_filter_Some. split; [done|]. cbn. destruct (doomed k) eqn:Ed; [|done]. exfalso.
    rewrite negb_true_iff, bool_decide_eq_false in Hk. apply Hk. rewrite <- Hid. apply list_elem_of_fmap. exists r. split; [done|].
    apply list_elem_of_fmap. exists (k, r). split; [done|]. by apply elem_of_map_to_list, map_lookup_filter_Some.
  - eapply sublist_NoDup; [exact H4|]. apply fmap_sublist, filter_sublist.
  - intros v [Hv _]%list_elem_of_In%filter_In. apply H5. by apply list_elem_of_In.
Qed.

(** A new row, and the old one with new contents. *)
Lemma good_insert next t key r :
  tables_good next t -> (kr_id r < next)%nat -> row_ok r ->
  (forall k r', kt_rows t !! k = Some r' -> kr_id r' = kr_id r -> k = key) ->
  (forall r', kt_rows t !! key = Some r' -> kr_id r' = kr_id r) ->
  tables_good next (set_rows (<[key := r]> (kt_rows t)) t).
Proof.
  intros [H1 H2 H3 H4 H5 H6] Hlt Hok Hinj Hsame. split; cbn; eauto.
  - intros k r' [[<- <-]|[_ Hr]]%lookup_insert_Some; eauto.
  - intros k1 k2 r1 r2 [[<- <-]|[Hn1 Hr1]]%lookup_insert_Some [[<- <-]|[Hn2 Hr2]]%lookup_insert_Some Hid; eauto.
    symmetry. eauto.
  - intros v Hv. destruct (H3 v Hv) as (k & r' & Hr & Hid). destruct (decide (k = key)) as [->|Hne].
    + exists key, r. rewrite lookup_insert_eq. split; [done|]. rewrite <- Hid. symmetry. eauto.
    + exists k, r'. by rewrite lookup_insert_ne.
  - intros k r' [[<- <-]|[_ Hr]]%lookup_insert_Some; eauto.
Qed.

(** The maximum of the versions of a row. *)
Lemma foldl_max l : forall m, m <= foldl Z.max m l /\ (forall x, x ∈ l -> x <= foldl Z.max m l).
Proof.
  induction l as [|y l IH]; intros m; cbn; [by split; [|intros ? []%elem_of_nil]|].
  destruct (IH (Z.max m y)) as [Ha Hb]. split; [lia|]. intros x [->|Hx]%elem_of_cons; [lia|by apply Hb].
Qed.
Lemma max_version_above id t v : v ∈ kt_versions t -> cve_classification_id v = id -> cve_version v <= max_version id t.
Proof.
  intros Hv Hid. apply foldl_max, list_elem_of_fmap. exists v. split; [done|].
  apply list_elem_of_In, filter_In. split; [by apply list_elem_of_In|by apply bool_decide_eq_true].
Qed.
Lemma max_version_nonneg id t : 0 <= max_version id t.
Proof. exact (proj1 (foldl_max _ 0)). Qed.

Lemma good_version next t k r v :
  tables_good next t -> kt_rows t !! k = Some r -> cve_classification_id v = kr_id r ->
  cve_version v = max_version (kr_id r) t + 1 -> cve_version v <= i32_max ->
  tables_good next (set_versions (kt_versions t ++ [v]) t).
Proof.
  intros [H1 H2 H3 H4 H5 H6] Hr Hid Hv Hmax. split; cbn; eauto.
  - intros v' [Hin| ->%list_elem_of_singleton]%elem_of_app; eauto.
  - rewrite fmap_app. apply NoDup_app. split_and!; [done| |apply NoDup_singleton].
    intros x (v' & -> & Hin)%list_elem_of_fmap Hx. apply list_elem_of_singleton in Hx.
    unfold version_key in Hx. injection Hx as E1 E2. pose proof (max_version_above (kr_id r) t v' Hin ltac:(congruence)). lia.
  - intros v' [Hin| ->%list_elem_of_singleton]%elem_of_app; [by apply H5|]. pose proof (max_version_nonneg (kr_id r) t). lia.
Qed.

(** ** The numbers that fit the column *)

Lemma numeric_range x n : f64_to_numeric x = Some n -> Z.abs n < 100000.
Proof.
  assert (forall num den, 0 <= num -> 0 < den -> 0 <= ten_thousandths num den) as Hpos.
  { intros num den Hn Hd. unfold ten_thousandths, fifteen_digits.
    assert (forall a b, 0 <= a -> 0 < b -> 0 <= div_half_even a b) as He.
    { intros a b Ha Hb. unfold div_half_even. pose proof (Z.div_pos a b Ha Hb). repeat case_match; lia. }
    set (e := leading_exponent num den - 14).
    assert (0 <= (if 0 <=? e then div_half_even num (den * 10 ^ e) else div_half_even (num * 10 ^ (- e)) den)) as Hdig.
    { destruct (Z.leb_spec 0 e); apply He; try lia; try apply Z.mul_pos_pos; try apply Z.mul_nonneg_nonneg; try lia;
        try apply Z.pow_pos_nonneg; try apply Z.pow_nonneg; lia. }
    destruct (Z.leb_spec 0 (e + 4)); [apply Z.mul_nonneg_nonneg; [done|apply Z.pow_nonneg; lia]|].
    unfold div_half_up. pose proof (Z.pow_pos_nonneg 10 (- (e + 4)) ltac:(lia) ltac:(lia)). apply Z.div_pos; lia. }
  destruct x as [s|s| |s m e]; cbn; try done; [by intros [= <-]|].
  set (v := if 0 <=? e then _ else _). assert (0 <= v) as Hv.
  { unfold v. destruct (Z.leb_spec 0 e).
    - apply Hpos; [|lia]. apply Z.mul_nonneg_nonneg; [lia|apply Z.pow_nonneg; lia].
    - apply Hpos; [lia|]. apply Z.pow_pos_nonneg; lia. }
  destruct (Z.ltb_spec v 100000); [|done]. intros [= <-]. destruct s; lia.
Qed.

(** ** Computations *)

Definition pres {F A} (m : KM F A) : Prop := forall w, good w -> wp m (fun _ => good) (fun _ => good) w.

Lemma pres_ret {F A} (a : A) : pres (mret a : KM F A).
Proof. intros w Hw. by apply wp_ret. Qed.
Lemma pres_bind {F A D} (m : KM F A) (f : A -> KM F D) : pres m -> (forall a, pres (f a)) -> pres (m ≫= f).
Proof. intros Hm Hf w Hw. apply wp_bind. eapply wp_weaken; [by apply Hm|intros a w'; apply Hf|done]. Qed.
Lemma pres_result {F A} (r : result F A) : pres (of_result r).
Proof. intros w Hw. by apply wp_result. Qed.
Lemma pres_map_error {F G A} (g : F -> G) (m : KM F A) : pres m -> pres (map_error g m).
Proof. intros Hm w Hw. by apply wp_map_error, Hm. Qed.
Lemma pres_outcome {F G A} (m : KM F A) : pres m -> pres (outcome m : KM G _).
Proof. intros Hm w Hw. by apply wp_outcome, Hm. Qed.
Lemma pres_dropped {F G A} (m : KM F A) : pres m -> pres (dropped m : KM G unit).
Proof. intros Hm w Hw. by apply wp_dropped, Hm. Qed.
Lemma pres_now {F} : pres (utc_now : KM F Z).
Proof. intros w Hw. by apply wp_now. Qed.
Lemma pres_v4 {F} : pres (new_v4 : KM F Uuid).
Proof. intros w Hw. apply wp_v4. eapply good_next; [|exact Hw]. cbn. lia. Qed.
Lemma pres_emit {F} e : pres (emit e : KM F unit).
Proof. intros w Hw. by apply wp_emit. Qed.
Lemma pres_fetch {A} (f : Z -> ClassificationTables -> A) : pres (fetch f).
Proof. intros w Hw. by apply wp_fetch. Qed.
Lemma pres_command e : pres (command e).
Proof. intros w Hw. by apply wp_command. Qed.
Lemma pres_sql {A} (f : Z -> ClassificationTables -> A * ClassificationTables) :
  (forall now next t, tables_good next t -> tables_good next (f now t).2) -> pres (sql f).
Proof. intros Hf w Hw. apply wp_sql; [done|]. by apply Hf. Qed.
Lemma pres_update f : (forall now next t, tables_good next t -> tables_good next (f now t)) -> pres (update f).
Proof. intros Hf w Hw. apply wp_update; [done|]. by apply Hf. Qed.

(** An identifier that no row has. *)
Definition fresh (id : Uuid) (w : World) : Prop :=
  (id < io_next_uuid w)%nat /\ forall k r, kt_rows (io_tables w) !! k = Some r -> kr_id r <> id.
Lemma fresh_v4 w : good w -> good (took_uuid w) /\ fresh (io_next_uuid w) (took_uuid w).
Proof.
  intros Hw. split; [eapply good_next; [|exact Hw]; cbn; lia|]. split; [cbn; lia|]. intros k r Hr Hid.
  pose proof (tg_id_lt _ _ Hw k r Hr). lia.
Qed.

Definition merging (merge : ClassificationRecord -> ClassificationRecord -> ClassificationRecord) : Prop :=
  forall old new, row_ok old -> row_ok new -> row_ok (merge old new) /\ kr_id (merge old new) = kr_id old.
Lemma merging_manual : merging merge_manual.
Proof. by intros old new (? & ? & ? & ?) (? & ? & ? & ?). Qed.
Lemma merging_import : merging merge_import.
Proof. by intros old new (? & ? & ? & ?) (? & ? & ? & ?). Qed.

Lemma upsert_wp merge key confidence id row w :
  merging merge -> (forall n now, Z.abs n < 100000 -> row_ok (row n now) /\ kr_id (row n now) = id) -> good w -> fresh id w ->
  wp (upsert merge key confidence row) (fun r w' => good w' /\ kt_rows (io_tables w') !! key = Some r) (fun _ => good) w.
Proof.
  intros Hm Hrow Hw [Hlt Hid]. unfold upsert, checked_db. apply wp_map_error, wp_checked; [done|done|].
  intros r t Hf. apply bind_Ok in Hf as (n & Hn & Hf).
  assert (Z.abs n < 100000) as Hrange by (unfold ok_or in Hn; destruct (f64_to_numeric confidence) eqn:Ef; [|done]; injection Hn as <-; by eapply numeric_range).
  destruct (Hrow n (sql_now (elapse w)) Hrange) as [Hr0 Hid0]. injection Hf as <- <-. cbn [io_tables with_tables kt_rows set_rows].
  destruct (kt_rows (io_tables w) !! key) as [old|] eqn:Hold; (split; [|by rewrite lookup_insert_eq]); unfold good; cbn [io_next_uuid io_tables with_tables elapse].
  - destruct (Hm old _ (tg_row _ _ Hw key old Hold) Hr0) as [Hok Heq].
    apply good_insert; [exact Hw|rewrite Heq; by apply (tg_id_lt _ _ Hw key)|done|..].
    + intros k r' Hr' E'. rewrite Heq in E'. by eapply (tg_id_inj _ _ Hw).
    + intros r' Hr'. rewrite Heq. congruence.
  - apply good_insert; [exact Hw|by rewrite Hid0|done|..].
    + intros k r' Hr' E'. rewrite Hid0 in E'. by destruct (Hid k r' Hr').
    + intros r' Hr'. congruence.
Qed.

Lemma version_wp key r changed_by reason payload w :
  good w -> kt_rows (io_tables w) !! key = Some r ->
  wp (insert_version (kr_id r) changed_by reason payload) (fun _ => good) (fun _ => good) w.
Proof.
  intros Hw Hr. unfold insert_version. wp; try done. assert (good (took_uuid (elapse w))) as Hw' by (by apply fresh_v4).
  unfold checked_db. apply wp_map_error, wp_checked; [done|done|]. intros [] t. case_decide as Hmax; [|done]. intros [= <-].
  unfold good. cbn [io_next_uuid io_tables with_tables elapse took_uuid] in *. by apply (good_version _ _ key r).
Qed.

(** ** Labels *)

Context (Hstore : store_wf store) (Hclean : clean_ids store).

Lemma validated_stable category sub v :
  validate_labels store category sub = Some v -> stable_labels (cat_id (vl_category v)) (sub_id (vl_subcategory v)).
Proof.
  intros Hv. destruct (validate_labels_cases store Hstore category sub) as (r & Hr & (i & j & Hi & Hj) & _).
  rewrite Hv in Hr. injection Hr as <-.
  destruct (Hclean (vl_category v) (vl_subcategory v)) as (Hc & _ & Hs & Hne); [by eapply list_elem_of_lookup_2..|].
  destruct (labels_of_ids store Hstore i _ j _ Hi Hj Hc Hs Hne) as (r & Hr & Hcat & Hno & Hsub).
  unfold stable_labels. rewrite Hs. assert (is_empty (sub_id (vl_subcategory v)) = false) as -> by by destruct (sub_id _).
  exists r. split_and!; [done|done|by rewrite Hcat|].
  destruct (decide (cat_id (vl_category v) = UNKNOWN_CATEGORY_ID)) as [Hu|Hu]; [|by rewrite (Hsub Hu)].
  pose proof (validate_labels_unknown store Hstore _ _ _ Hv Hu) as H1.
  pose proof (validate_labels_unknown store Hstore _ _ _ Hr ltac:(by rewrite Hcat)) as H2. rewrite Hcat in H2. congruence.
Qed.

Lemma validated_labels_wp category sub (Q : ValidatedTaxonomyLabels -> World -> Prop) (I : HttpError -> World -> Prop) w :
  (forall v, stable_labels (cat_id (vl_category v)) (sub_id (vl_subcategory v)) -> Q v w) -> I panicked w ->
  wp (validated_labels store category sub) Q I w.
Proof.
  intros HQ HI. unfold validated_labels. apply wp_result; unfold ok_or; destruct (validate_labels _ _ _) eqn:Ev; intros a [= <-]; [|done].
  apply HQ. by eapply validated_stable.
Qed.

Lemma new_row_ok id tv mv c s risk a n flags now :
  stable_labels c s -> Z.abs n < 100000 -> row_ok (new_row id tv mv c s risk (action_to_string a) n flags now) /\
  kr_id (new_row id tv mv c s risk (action_to_string a) n flags now) = id.
Proof. intros Hs Hn. split; [|done]. split_and!; [done|by exists a|done|done]. Qed.

(** A row is stored with its version. *)
Lemma store_wp {A} merge key confidence tv mv c s risk a flags changed_by reason payload (k : ClassificationRecord -> A) w :
  merging merge -> stable_labels c s -> good w ->
  wp (id ← new_v4;
      row ← upsert merge key confidence (fun n => new_row id tv mv c s risk (action_to_string a) n flags);
      _ ← insert_version (kr_id row) changed_by reason payload;
      mret (k row)) (fun _ => good) (fun _ => good) w.
Proof.
  intros Hm Hs Hw. apply wp_bind, wp_v4. destruct (fresh_v4 w Hw) as [Hw1 Hf].
  apply wp_bind. eapply wp_weaken; [eapply (upsert_wp merge key confidence _ _ _ Hm)|..]; [|exact Hw1|exact Hf|..|done].
  - intros n now Hn. by apply new_row_ok.
  - cbn. intros r w1 [Hg Hr]. apply wp_bind. eapply wp_weaken; [by eapply version_wp| |done]. intros [] w2 Hw2. by apply wp_ret.
Qed.

(** ** Handlers *)

Ltac pres :=
  repeat lazymatch goal with
  | |- pres (mret _) => apply pres_ret
  | |- pres (_ ≫= _) => apply pres_bind; [|intros ?]
  | |- pres (of_result _) => apply pres_result
  | |- pres (map_error _ _) => apply pres_map_error
  | |- pres (db _) => apply pres_map_error
  | |- pres (outcome _) => apply pres_outcome
  | |- pres (dropped _) => apply pres_dropped
  | |- pres utc_now => apply pres_now
  | |- pres new_v4 => apply pres_v4
  | |- pres (emit _) => apply pres_emit
  | |- pres (fetch _) => apply pres_fetch
  | |- pres (command _) => apply pres_command
  | |- pres (match ?x with _ => _ end) => destruct x
  end.

Lemma pres_guard user roles : pres (guard user roles).
Proof. unfold guard. pres. Qed.
Lemma pres_key_cache {F} key : pres (invalidate_cache_key has_cache key : KM F unit).
Proof. unfold invalidate_cache_key. pres. Qed.
Lemma pres_policy_cache {F} : pres (invalidate_policy_cache has_cache : KM F unit).
Proof. unfold invalidate_policy_cache. pres. Qed.
Lemma pres_evaluate d : pres (evaluate_policy_decision engine d).
Proof. unfold evaluate_policy_decision. pres. Qed.
Lemma pres_clear_request {F} key : pres (clear_request key : KM F unit).
Proof. unfold clear_request. pres. apply pres_update. intros. by apply good_pending. Qed.
Lemma pres_settle key key' : pres (settle has_cache key key').
Proof. unfold settle. pres; first [apply pres_clear_request|apply pres_key_cache]. Qed.
Lemma pres_enrich out : pres (enrich_effective_decisions engine out).
Proof.
  induction out as [|r out IH]; cbn [enrich_effective_decisions]; pres; [|done]. unfold enrich_one. pres. apply pres_evaluate.
Qed.
Lemma pres_delete_keys keys : pres (delete_keys_and_related keys).
Proof.
  unfold delete_keys_and_related. pres.
  - apply pres_sql. intros. by apply good_delete.
  - apply pres_update. intros. by apply good_pending.
  - apply pres_update. intros. by apply good_pages.
Qed.

Lemma pres_list user query : pres (list_classifications sql_lower engine user query).
Proof. unfold list_classifications. pres; [apply pres_guard|apply pres_enrich]. Qed.
Lemma pres_list_pending user query : pres (list_pending user query).
Proof. unfold list_pending. pres. apply pres_guard. Qed.
Lemma pres_export user q : pres (export_bundle store sql_lower user q).
Proof. unfold export_bundle. pres. apply pres_guard. Qed.
Lemma pres_flush user payload : pres (flush policy has_cache user payload).
Proof.
  unfold flush, flush_keys, list_existing_domain_keys, list_existing_domain_keys_with_prefix, log_policy_event.
  pres; first [apply pres_guard|apply pres_delete_keys|apply pres_policy_cache].
Qed.
Lemma pres_delete user key : pres (delete_classification has_cache user key).
Proof.
  unfold delete_classification. pres; [apply pres_guard| |apply pres_clear_request| |apply pres_key_cache]; apply pres_update; intros;
    [by apply good_delete|by apply good_pages].
Qed.
Lemma pres_upsert_pending user key payload : pres (upsert_pending policy user key payload).
Proof. unfold upsert_pending. pres; [apply pres_guard|]. apply pres_update. intros. by apply good_pending. Qed.
Lemma pres_clear_pending user key : pres (clear_pending policy user key).
Proof. unfold clear_pending. pres; [apply pres_guard|]. apply pres_update. intros. by apply good_pending. Qed.
Lemma pres_clear_all user : pres (clear_all_pending user).
Proof. unfold clear_all_pending, log_policy_event. pres; [apply pres_guard|]. apply pres_sql. intros. by apply good_pending. Qed.
Lemma pres_metadata user key payload : pres (metadata_classify policy has_publisher llm_providers user key payload).
Proof.
  unfold metadata_classify, build_metadata_classification_job, validate_llm_provider_name, queue_classification_job, log_policy_event.
  pres; [apply pres_guard|]. apply pres_update. intros. by apply good_pending.
Qed.

Lemma pres_validated {A} category sub (k : ValidatedTaxonomyLabels -> KM HttpError A) :
  (forall v, stable_labels (cat_id (vl_category v)) (sub_id (vl_subcategory v)) -> pres (k v)) ->
  pres (v ← validated_labels store category sub; k v).
Proof. intros Hk w Hw. apply wp_bind, validated_labels_wp; [|done]. intros v Hv. by apply Hk. Qed.

Lemma pres_persist key payload actor c s tv fr source host :
  stable_labels c s -> pres (persist_manual_classification key payload actor c s tv fr source host).
Proof. intros Hs w Hw. unfold persist_manual_classification. apply store_wp; [apply merging_manual|done|done]. Qed.

Lemma pres_unblock user key payload : pres (manual_unblock store policy has_cache user key payload).
Proof.
  unfold manual_unblock. apply pres_bind; [apply pres_guard|]. intros _. case_decide; [pres|]. apply pres_validated. intros v Hv.
  pres; [by apply pres_persist|apply pres_settle].
Qed.
Lemma pres_classify user key payload : pres (manual_classify store policy has_cache engine user key payload).
Proof.
  unfold manual_classify. apply pres_bind; [apply pres_guard|]. intros _. apply pres_validated. intros v Hv.
  pres; [apply pres_evaluate|by apply pres_persist|apply pres_settle].
Qed.
Lemma pres_update_classification user key payload : pres (update_classification store has_cache engine user key payload).
Proof.
  unfold update_classification. apply pres_bind; [apply pres_guard|]. intros _. apply pres_validated. intros v Hv.
  apply pres_bind; [pres|]. intros [level host]. apply pres_bind; [pres; apply pres_evaluate|]. intros d w Hw. apply wp_bind, wp_v4. destruct (fresh_v4 w Hw) as [Hw1 Hf].
  apply wp_bind, wp_map_error. eapply wp_weaken; [eapply (upsert_wp merge_manual _ _ _ _ _ merging_manual)|..]; [|exact Hw1|exact Hf|..|done].
  { intros n now Hn. by apply new_row_ok. }
  cbn. intros r w1 [Hg Hr]. apply wp_bind, wp_map_error. eapply wp_weaken; [by eapply version_wp| |done]. intros [] w2 Hw2.
  match goal with |- wp ?m _ _ _ => cut (pres m); [intros H; by apply H|] end.
  pres; [apply pres_clear_request|apply pres_key_cache].
Qed.

(** *** Import *)

Lemma prepare_wp recompute actor entries : forall index invalid prepared w,
  good w -> (forall k e, prepared !! k = Some e -> stable_labels (pe_primary_category e) (pe_subcategory e)) ->
  wp (prepare store policy engine recompute actor index entries invalid prepared)
    (fun p w' => good w' /\ forall k e, p.2 !! k = Some e -> stable_labels (pe_primary_category e) (pe_subcategory e)) (fun _ => good) w.
Proof.
  induction entries as [|entry entries IH]; intros index invalid prepared w Hw Hp; cbn [prepare]; [by apply wp_ret|].
  apply wp_bind. eapply (wp_weaken _ (fun x w' => good w' /\
    forall e, x = Accepted e -> stable_labels (pe_primary_category e) (pe_subcategory e)) _ (fun _ => good)); [| |done].
  - unfold examine. destruct (parse_normalized_key _) as [_|]; [|apply wp_ret; by split].
    apply wp_bind, validated_labels_wp; [|done]. intros v Hv. destruct (vl_fallback_reason v); [apply wp_ret; by split|].
    apply wp_bind. eapply (wp_weaken _ (fun _ => good) _ (fun _ => good)); [| |done].
    + match goal with |- wp ?m _ _ _ => cut (pres m); [intros H; by apply H|] end.
      unfold evaluate_decision_for_import. pres. apply pres_evaluate.
    + cbn. intros fields w1 Hw1. apply wp_ret. split; [done|]. by destruct fields as [[[risk action] conf]|[code msg]]; intros e [= <-].
  - cbn. intros [row|e] w1 [Hw1 He]; [by apply IH|]. apply IH; [done|].
    intros k e' [[<- <-]|[_ Hk]]%lookup_insert_Some; [by apply He|by eapply Hp].
Qed.

Lemma pres_upsert_import entry tv actor :
  stable_labels (pe_primary_category entry) (pe_subcategory entry) -> pres (upsert_import_entry entry tv actor).
Proof.
  intros Hs w Hw. unfold upsert_import_entry. apply wp_bind, wp_v4. destruct (fresh_v4 w Hw) as [Hw1 Hf].
  apply wp_bind. eapply wp_weaken; [eapply (upsert_wp merge_import _ _ _ _ _ merging_import)|..]; [|exact Hw1|exact Hf|..|done].
  - intros n now Hn. by apply new_row_ok.
  - cbn. intros r w1 [Hg Hr]. by eapply version_wp.
Qed.

Lemma pres_apply existing tv actor prepared : forall c,
  (forall e, e ∈ prepared -> stable_labels (pe_primary_category e) (pe_subcategory e)) ->
  pres (apply_prepared existing tv actor prepared c).
Proof.
  induction prepared as [|e prepared IH]; intros c Hp; cbn [apply_prepared]; [apply pres_ret|].
  assert (forall c', pres (apply_prepared existing tv actor prepared c')) as Hrest by (intros c'; apply IH; intros e' He'; apply Hp; by right).
  destruct (import_outcome existing e); try apply Hrest; pres;
    first [apply pres_upsert_import, Hp; by left|apply pres_clear_request|apply Hrest].
Qed.

Lemma pres_import user payload : pres (import_bundle store policy has_cache timestamp engine user payload).
Proof.
  unfold import_bundle. apply pres_bind; [apply pres_guard|]. intros _ w Hw. apply wp_bind.
  eapply wp_weaken; [apply prepare_wp; [done|]| |done]; [by intros ? ? ?%lookup_empty_Some|].
  cbn. intros [invalid prepared] w1 [Hw1 Hp]. cbn in Hp.
  match goal with |- wp ?m _ _ _ => cut (pres m); [intros H; by apply H|] end.
  unfold list_existing_domain_rows, list_existing_domain_keys_union, log_policy_event.
  pres; try apply pres_delete_keys; try apply pres_policy_cache; apply pres_apply;
    intros e ([k e'] & -> & Hk%elem_of_map_to_list)%list_elem_of_fmap; by eapply Hp.
Qed.

(** *** All requests *)

Lemma pres_serve user request : pres (serve_classification user request).
Proof.
  destruct request; cbn [serve_classification]; pres;
    first [apply pres_list|apply pres_export|apply pres_import|apply pres_flush|apply pres_update_classification|apply pres_delete
          |apply pres_unblock|apply pres_classify|apply pres_metadata|apply pres_list_pending|apply pres_upsert_pending
          |apply pres_clear_pending|apply pres_clear_all].
Qed.

(** C9: Whatever classification requests are served, whoever sends them and whichever statements and
    calls fail, the tables stay sound: no two rows share an identifier, every version belongs to a row
    and the versions of a row are numbered 1 to 2^31-1 without repetition, every row is active, has a
    category and subcategory that the taxonomy resolves to themselves, the name of an action and a
    confidence that fits its column. *)
Theorem classification_tables_invariant requests w : good w -> good (serve_classifications requests w).
Proof.
  revert w. induction requests as [|[user request] requests IH]; intros w Hw; cbn [serve_classifications]; [done|].
  apply IH. pose proof (pres_serve user request w Hw) as H. unfold wp in H. by destruct (serve_classification user request w) as [[] w'].
Qed.

End Server.
