(* ===== verification/ClassificationExchange.v ===== *)
(** * Bundles of classifications

    What is exported can be imported: elsewhere it gives the same classifications, here it changes
    nothing.  A dry run says what the import will do. *)

From S2P Require Import Prelude RustStr RustNum Numeric Types Http Json Normalizer Taxonomy PolicyStore LlmAnswer LlmProvider LlmWorker Db Io Wp Texts Pagination AdminClassifications ClassificationTables.

Local Open Scope Z_scope.

(** [LIKE '%%'] is any text. *)
Lemma like_percent s : like "%" s = true.
Proof. induction s as [|a s IH]; [done|]. exact IH. Qed.
Lemma like_all s : like "%%" s = true.
Proof. pose proof (like_percent s) as H. destruct s; [done|]. change (like "%" (String a s) || like "%%" s = true). by rewrite H. Qed.

Section Exchange.
  Context `{E : Externals} `{X : Texts} `{T : JsonText} `{B : Base64} `{C : Collation}.
  Context (store : TaxonomyStore) (policy : CanonicalizationPolicy) (has_cache : bool)
    (timestamp : Z -> string) (sql_lower : string -> string)
    (engine : ClassificationTables -> DecisionRequest -> result string PolicyDecision).

Lemma domain_rows_lookup t k : is_domain_key k = true -> domain_rows t !! k = kt_rows t !! k.
Proof.
  intros Hk. unfold domain_rows. destruct (kt_rows t !! k) as [r|] eqn:Hr; [by apply map_lookup_filter_Some|apply map_lookup_filter_None; by left].
Qed.

(** ** Dry runs *)

(** The two runs are the same until the entries are written. *)
Definition dry (payload : ClassificationImportRequest) : ClassificationImportRequest :=
  {| im_bundle := im_bundle payload; im_mode := im_mode payload; im_recompute_policy_fields := im_recompute_policy_fields payload; im_dry_run := true |}.

Definition import_counts (r : ClassificationImportResponse) : nat * nat * nat * nat * nat * nat :=
  (ir_total_entries r, ir_imported r, ir_updated r, ir_skipped r, ir_replaced_deleted r, ir_invalid r).

Lemma apply_prepared_counts existing tv actor prepared : forall c w c' w',
  apply_prepared existing tv actor prepared c w = (Ok c', w') ->
  c' = foldl (fun c entry => counted (import_outcome existing entry) c) c prepared.
Proof.
  induction prepared as [|e prepared IH]; intros c w c' w'; cbn [apply_prepared foldl]; [by intros [= <- _]|].
  destruct (import_outcome existing e); [| |by apply IH];
    intros (? & w1 & _ & (? & w2 & _ & H)%io_bind_Ok)%io_bind_Ok; by eapply IH.
Qed.

(** Computations that only read. *)
Definition reads {F A} (m : KM F A) : Prop := forall w, io_tables (m w).2 = io_tables w /\ io_trace (m w).2 = io_trace w.
Lemma reads_ret {F A} (a : A) : reads (mret a : KM F A).
Proof. by intros w. Qed.
Lemma reads_result {F A} (r : result F A) : reads (of_result r).
Proof. by intros w. Qed.
Lemma reads_bind {F A D} (m : KM F A) (f : A -> KM F D) : reads m -> (forall a, reads (f a)) -> reads (m ≫= f).
Proof.
  intros Hm Hf w. unfold mbind, io_bind. destruct (Hm w) as [H1 H2]. destruct (m w) as [[a|e] w1]; [|done]. cbn in *.
  destruct (Hf a w1) as [H3 H4]. split; congruence.
Qed.
Lemma reads_fetch {A} (f : Z -> ClassificationTables -> A) : reads (fetch f).
Proof. intros w. unfold fetch, sql, step. by destruct (io_faults w) as [|[] ?]. Qed.
Lemma reads_map_error {F G A} (g : F -> G) (m : KM F A) : reads m -> reads (map_error g m).
Proof. intros Hm w. unfold map_error. specialize (Hm w). by destruct (m w). Qed.
Lemma reads_outcome {F G A} (m : KM F A) : reads m -> reads (outcome m : KM G _).
Proof. intros Hm w. unfold outcome. specialize (Hm w). by destruct (m w). Qed.
Ltac reads :=
  repeat lazymatch goal with
  | |- reads (mret _) => apply reads_ret
  | |- reads (of_result _) => apply reads_result
  | |- reads (_ ≫= _) => apply reads_bind; [|intros ?]
  | |- reads (fetch _) => apply reads_fetch
  | |- reads (map_error _ _) => apply reads_map_error
  | |- reads (db _) => apply reads_map_error
  | |- reads (outcome _) => apply reads_outcome
  | |- reads (match ?x with _ => _ end) => destruct x
  end.

Lemma reads_prepare recompute actor entries : forall index invalid prepared,
  reads (prepare store policy engine recompute actor index entries invalid prepared).
Proof.
  induction entries as [|e entries IH]; intros index invalid prepared; cbn [prepare]; reads; try apply IH.
  unfold examine, validated_labels, evaluate_decision_for_import, evaluate_policy_decision. reads.
Qed.

(** C35: A dry run of an import predicts it: whenever the import is answered, the dry run of the same
    bundle in the same state is answered with the same numbers of imported, updated, skipped, deleted
    and invalid entries, and has changed no table and told nobody but the audit log. *)
Theorem dry_run_predicts user payload w r w1 :
  im_dry_run payload = false -> import_bundle store policy has_cache timestamp engine user payload w = (Ok r, w1) ->
  exists r' w', import_bundle store policy has_cache timestamp engine user (dry payload) w = (Ok r', w') /\
    import_counts r' = import_counts r /\ io_tables w' = io_tables w /\
    exists event, io_trace w' = io_trace w ++ [PolicyEvent "classifications.import" (Some (uc_actor user)) None event].
Proof.
  intros Hdry. unfold import_bundle. rewrite Hdry. cbn [im_dry_run im_mode im_bundle im_recompute_policy_fields dry].
  intros ([] & w2 & Hg & H)%io_bind_Ok. rewrite (io_bind_run _ _ _ _ _ Hg); cbn beta iota.
  assert (w2 = w) as -> by (revert Hg; unfold guard; destruct (require_roles _ _); by intros [= <-]).
  apply io_bind_Ok in H as ([invalid prepared] & w3 & Hp & H). rewrite (io_bind_run _ _ _ _ _ Hp); cbn beta iota.
  destruct (reads_prepare (im_recompute_policy_fields payload) (uc_actor user) (cb_entries (im_bundle payload)) 0 [] ∅ w) as [Ht3 Htr3].
  rewrite Hp in Ht3, Htr3. cbn [snd] in Ht3, Htr3.
  apply io_bind_Ok in H as (existing & w4 & He & H). rewrite (io_bind_run _ _ _ _ _ He); cbn beta iota.
  destruct (reads_map_error db_error _ (reads_fetch (fun _ t => domain_rows t)) w3) as [Ht4 Htr4].
  change (map_error db_error _) with (db list_existing_domain_rows) in Ht4, Htr4. rewrite He in Ht4, Htr4. cbn [snd] in Ht4, Htr4.
  apply io_bind_Ok in H as (doomed & w5 & Hd & H). rewrite (io_bind_run _ _ _ _ _ Hd); cbn beta iota.
  match type of Hd with ?m _ = _ => assert (reads m) as Hr by (unfold list_existing_domain_keys_union; reads) end.
  destruct (Hr w4) as [Ht5 Htr5]. rewrite Hd in Ht5, Htr5. cbn [snd] in Ht5, Htr5. clear Hr.
  apply io_bind_Ok in H as ([[imported updated] skipped] & w6 & Hc & H).
  apply io_bind_Ok in Hc as (c & w7 & Ha & Hc). apply apply_prepared_counts in Ha.
  apply io_bind_Ok in Hc as (? & w8 & _ & (? & w9 & _ & [= Ec _])%io_bind_Ok). rewrite Ec in Ha.
  rewrite (io_bind_run (mret _) _ _ _ _ eq_refl). unfold count_prepared. rewrite <- Ha. cbn beta iota.
  unfold log_policy_event in *. destruct (render_invalid_rows_jsonl_limited _ _) as [jsonl truncated] eqn:Er.
  unfold mbind, io_bind, utc_now, emit, mret, io_ret in H. injection H as <- _.
  eexists _, _. split; [reflexivity|]. split; [done|]. cbn. split; [congruence|]. eexists. by rewrite Htr5, Htr4, Htr3.
Qed.

(** ** Exported entries *)

(** A row that can be exported and imported as it is. *)
Definition importable (kv : string * ClassificationRecord) : Prop :=
  is_Some (parse_normalized_key kv.1) /\ canonicalize_key policy kv.1 = kv.1 /\
  stable_labels store (kr_primary_category kv.2) (kr_subcategory kv.2) /\
  (exists a, kr_recommended_action kv.2 = action_to_string a) /\ kr_risk_level kv.2 ∈ RISK_LEVELS /\ survives (kr_confidence kv.2) = true.

(** Risk level, action and confidence, and the entry that has them. *)
Definition Fields : Type := string * PolicyAction * float.
Definition entry_of (recompute : bool) (actor : string) (kv : string * ClassificationRecord) (f : Fields) : PreparedImportEntry :=
  {| pe_normalized_key := kv.1; pe_primary_category := kr_primary_category kv.2; pe_subcategory := kr_subcategory kv.2;
     pe_risk_level := f.1.1; pe_recommended_action := f.1.2; pe_confidence := f.2;
     pe_flags := import_flags recompute actor (Some (kr_flags kv.2)) |}.
(** The fields of the row, or those that the policy engine answers with. *)
Definition own_fields (kv : string * ClassificationRecord) : Fields :=
  (kr_risk_level kv.2, default Monitor (parse_policy_action (kr_recommended_action kv.2)), as_read (kr_confidence kv.2)).
Definition asked_again (kv : string * ClassificationRecord) : DecisionRequest :=
  decision_payload kv.1 (default "" (fst <$> parse_normalized_key kv.1)) (Some (kr_primary_category kv.2)) (Some (kr_subcategory kv.2)) None None.
Definition decided_fields (d : PolicyDecision) : Fields := (risk_of d, pd_action d, confidence_of d).

Lemma parse_action_string a : parse_policy_action (action_to_string a) = Some a.
Proof. by destruct a. Qed.

Lemma risk_level_read r : r ∈ RISK_LEVELS -> is_empty (trim r) = false /\ to_ascii_lowercase (trim r) = r /\ is_valid_risk_level r = true.
Proof. intros Hr. unfold is_valid_risk_level. rewrite bool_decide_eq_true_2 by done. revert r Hr. by apply Forall_forall; repeat constructor. Qed.

Lemma survives_spec n :
  survives n = true -> f64_to_numeric (f32_as_f64 (as_read n)) = Some n /\ in_unit (as_read n) = true /\
    f64_close (numeric_to_f64 n) (f32_as_f64 (as_read n)) = true.
Proof. unfold survives. rewrite !andb_true_iff, bool_decide_eq_true. tauto. Qed.

Lemma fields_exported kv : importable kv -> fields_as_is (exchange_entry kv) = Ok (own_fields kv).
Proof.
  destruct kv as [k r]. intros (_ & _ & _ & [a Ha] & Hr & Hs). cbn [fst snd] in *. unfold fields_as_is, own_fields. cbn -[trim is_valid_risk_level RISK_LEVELS as_read in_unit].
  rewrite Ha, parse_action_string. cbn -[trim is_valid_risk_level RISK_LEVELS as_read in_unit].
  destruct (risk_level_read _ Hr) as (-> & -> & ->). cbn -[as_read in_unit]. by destruct (survives_spec _ Hs) as (_ & -> & _).
Qed.

Section Prepared.
  Context (recompute : bool) (actor : string).

Lemma examine_wp index kv w (Q : Examined -> World -> Prop) :
  importable kv ->
  wp (if recompute then
        answer ← outcome (evaluate_decision_for_import engine kv.1 (kr_primary_category kv.2) (kr_subcategory kv.2));
        mret (map_err (fun err => ("policy_decision_failed", err)) answer)
      else mret (fields_as_is (exchange_entry kv)) : KM HttpError _)
    (fun fields w' => match fields with Ok f => Q (Accepted (entry_of recompute actor kv f)) w' | Err _ => forall row, Q (Rejected row) w' end)
    (fun _ _ => False) w ->
  wp (examine store policy engine recompute actor index (exchange_entry kv)) Q (fun _ _ => False) w.
Proof.
  intros ([p Hp] & Hk & (v & Hv & Hno & Hc & Hs) & _) Hf.
  destruct kv as [k r]. cbn [fst snd exchange_entry ce_normalized_key] in *. unfold examine. cbn [ce_normalized_key exchange_entry]. rewrite Hp.
  unfold validated_labels. cbn [ce_primary_category ce_subcategory exchange_entry]. rewrite Hv. cbn [ok_or].
  apply wp_bind, wp_ret. rewrite Hno. apply wp_bind. rewrite Hk, Hc, Hs. eapply wp_weaken; [exact Hf| |done].
  cbn beta. intros [[[risk action] confidence]|[code message]] w' H; apply wp_ret; [exact H|apply H].
Qed.

(** What the examination of an exported row comes to. *)
Context (t : ClassificationTables) (fields : string * ClassificationRecord -> option Fields).
Definition prepared_of (kv : string * ClassificationRecord) : option PreparedImportEntry := entry_of recompute actor kv <$> fields kv.
Definition in_order (w : World) : Prop := calm w /\ good store w /\ io_tables w = t.
Definition examined (kv : string * ClassificationRecord) : Prop :=
  forall index w, in_order w ->
    wp (examine store policy engine recompute actor index (exchange_entry kv))
      (fun x w' => in_order w' /\ match prepared_of kv with Some e => x = Accepted e | None => exists row, x = Rejected row end) (fun _ _ => False) w.

(** The map of the entries of a list of rows. *)
Definition prepared_rows (m : gmap string PreparedImportEntry) (l : list (string * ClassificationRecord)) : gmap string PreparedImportEntry :=
  foldl (fun m kv => match prepared_of kv with Some e => <[kv.1 := e]> m | None => m end) m l.
Definition refused (kv : string * ClassificationRecord) : bool := match fields kv with Some _ => false | None => true end.

Lemma prepare_exported l : forall index invalid m w,
  (forall kv, kv ∈ l -> examined kv) -> in_order w ->
  wp (prepare store policy engine recompute actor index (exchange_entry <$> l) invalid m)
    (fun x w' => in_order w' /\ x.2 = prepared_rows m l /\ length x.1 = (length invalid + length (List.filter refused l))%nat)
    (fun _ _ => False) w.
Proof.
  induction l as [|kv l IH]; intros index invalid m w Hl Hw; cbn [fmap list_fmap prepare].
  { apply wp_ret. split_and!; [done|done|cbn; lia]. }
  apply wp_bind. eapply wp_weaken; [by apply Hl; [left|]| |done]. cbn beta. intros x w1 (Hw1 & Hx).
  assert (forall kv', kv' ∈ l -> examined kv') as Hl' by (intros kv' Hkv'; apply Hl; by right).
  cbn [prepared_rows foldl List.filter]. unfold refused at 1. unfold prepared_of in *. destruct (fields kv) as [f|]; cbn [fmap option_fmap option_map] in *.
  - subst x. by apply IH.
  - destruct Hx as [row ->]. eapply wp_weaken; [by apply IH| |done]. cbn beta. intros x w2 (H1 & H2 & H3). split_and!; [done|done|].
    rewrite H3, length_app. cbn. lia.
Qed.

Lemma prepared_rows_lookup l : forall m k,
  NoDup l.*1 -> prepared_rows m l !! k =
    match (list_to_map l : gmap string ClassificationRecord) !! k with
    | Some r => match prepared_of (k, r) with Some e => Some e | None => m !! k end
    | None => m !! k
    end.
Proof.
  induction l as [|[k' r'] l IH]; intros m k Hnd; [done|]. cbn in Hnd. apply NoDup_cons in Hnd as [Hn Hnd].
  cbn [prepared_rows foldl]. change (foldl _ ?a l) with (prepared_rows a l). rewrite IH by done. cbn [list_to_map foldr].
  cbn [fst snd]. destruct (decide (k = k')) as [->|Hne].
  - rewrite lookup_insert_eq. rewrite not_elem_of_list_to_map_1 by done. destruct (prepared_of (k', r')); [by rewrite lookup_insert_eq|done].
  - rewrite lookup_insert_ne by done. by destruct (prepared_of (k', r')); rewrite ?lookup_insert_ne.
Qed.

Lemma export_rows_all t1 : export_rows sql_lower "%%" t1 ≡ₚ map_to_list (domain_rows t1).
Proof. unfold export_rows. rewrite merge_sort_Permutation. rewrite filter_all; [done|]. intros r _. apply like_all. Qed.

Lemma prepared_of_export t1 k :
  prepared_rows ∅ (export_rows sql_lower "%%" t1) !! k = domain_rows t1 !! k ≫= fun r => prepared_of (k, r).
Proof.
  assert (NoDup (export_rows sql_lower "%%" t1).*1) as Hnd by (rewrite export_rows_all; apply NoDup_fst_map_to_list).
  rewrite prepared_rows_lookup by done.
  rewrite (list_to_map_proper _ _ Hnd (export_rows_all t1)), list_to_map_to_list, lookup_empty.
  destruct (domain_rows t1 !! k) as [r|]; [cbn|done]. by destruct (prepared_of (k, r)).
Qed.

Lemma entry_key k r e : prepared_of (k, r) = Some e -> pe_normalized_key e = k.
Proof. unfold prepared_of. destruct (fields (k, r)); [|done]. by intros [= <-]. Qed.

End Prepared.

(** As it is, a row gives its own fields; otherwise those of the engine's answer, if it answers. *)
Lemma examined_as_is actor t kv : importable kv -> examined false actor t (fun kv => Some (own_fields kv)) kv.
Proof.
  intros Hi index w Hw. apply examine_wp; [done|]. apply wp_ret. by rewrite fields_exported.
Qed.
Definition recomputed_fields (t : ClassificationTables) (kv : string * ClassificationRecord) : option Fields :=
  match engine t (asked_again kv) with Ok d => Some (decided_fields d) | Err _ => None end.
Lemma examined_again actor t kv : importable kv -> examined true actor t (recomputed_fields t) kv.
Proof.
  intros Hi index w (Hc & Hg & Ht). apply examine_wp; [done|]. destruct Hi as ([p Hp] & _).
  assert (in_order t (elapse w)) as Hw by (split_and!; [by apply calm_elapse|done|done]).
  unfold prepared_of, recomputed_fields, asked_again. rewrite Hp. cbn [fmap option_fmap option_map default].
  apply wp_bind, wp_outcome. unfold evaluate_decision_for_import, evaluate_policy_decision. rewrite Hp. destruct p as [level host].
  cbn [ok_or]. apply wp_bind, wp_ret, wp_bind, wp_map_error, wp_bind, wp_calm_fetch; [done|]. rewrite Ht. cbn [fst].
  change (id level) with level.
  apply wp_result; [intros d ->; by apply wp_ret, wp_ret|intros err ->]. apply wp_ret. intros row. split; [done|]. by exists row.
Qed.

(** ** Writing the entries *)

(** A row says what an entry says. *)
Definition labelled (e : PreparedImportEntry) (row : ClassificationRecord) : Prop :=
  kr_primary_category row = pe_primary_category e /\ kr_subcategory row = pe_subcategory e /\ kr_risk_level row = pe_risk_level e /\
  kr_recommended_action row = action_to_string (pe_recommended_action e) /\
  f64_close (numeric_to_f64 (kr_confidence row)) (f32_as_f64 (pe_confidence e)) = true.

Lemma same_labelled existing e : is_same_classification existing e = true -> labelled e existing.
Proof. unfold is_same_classification, labelled. rewrite !andb_true_iff, !bool_decide_eq_true. tauto. Qed.

(** What is stored of a confidence is close to it. *)
Definition storable (e : PreparedImportEntry) (n : Z) : Prop :=
  f64_to_numeric (f32_as_f64 (pe_confidence e)) = Some n /\ f64_close (numeric_to_f64 n) (f32_as_f64 (pe_confidence e)) = true.

(** The version counter of the row of a key has room for one more. *)
Definition room (key : string) (w : World) : Prop :=
  match kt_rows (io_tables w) !! key with
  | Some old => max_version (kr_id old) (io_tables w) < i32_max
  | None => max_version (io_next_uuid w) (io_tables w) < i32_max
  end.

Lemma upsert_import_calm e tv actor n w :
  calm w -> storable e n -> room (pe_normalized_key e) w ->
  wp (upsert_import_entry e tv actor)
    (fun _ w' => calm w' /\ exists row v, labelled e row /\ kr_confidence row = n /\
       kt_rows (io_tables w') = <[pe_normalized_key e := row]> (kt_rows (io_tables w)) /\
       kt_versions (io_tables w') = kt_versions (io_tables w) ++ [v] /\ cve_classification_id v = kr_id row)
    (fun _ _ => False) w.
Proof.
  intros Hc [Hn Hclose] Hroom. unfold upsert_import_entry, upsert, insert_version, checked_db. apply wp_bind, wp_v4. apply wp_bind, wp_map_error.
  set (key := pe_normalized_key e) in *. set (w1 := took_uuid w).
  eapply wp_calm_checked; [exact Hc|rewrite Hn; reflexivity|]. cbn [io_tables w1 took_uuid elapse with_tables kt_rows set_rows].
  set (row := match kt_rows (io_tables w) !! key with Some _ => _ | None => _ end).
  assert (labelled e row /\ kr_confidence row = n) as [Hl Hconf] by (unfold row; by destruct (kt_rows (io_tables w) !! key)).
  assert (max_version (kr_id row) (io_tables w) < i32_max) as Hmax.
  { revert Hroom. unfold room, row. by destruct (kt_rows (io_tables w) !! key). }
  apply wp_bind, wp_calm_fetch; [by apply calm_elapse|]. apply wp_bind, wp_v4, wp_map_error.
  eapply wp_calm_checked; [by do 2 apply calm_elapse|rewrite decide_True; [reflexivity|]|].
  { change (max_version (kr_id row) (io_tables w) + 1 <= i32_max). lia. }
  split; [by do 3 apply calm_elapse|]. exists row. eexists. split_and!; [done|done|reflexivity|reflexivity|reflexivity].
Qed.

Context (Hstore : store_wf store) (Hclean : clean_ids store).

(** From the tables [t0] on, only rows of [keys] have been written, and only their versions may be full. *)
Definition written (t0 : ClassificationTables) (keys : list string) (w : World) : Prop :=
  calm w /\ good store w /\ (forall k, k ∉ keys -> kt_rows (io_tables w) !! k = kt_rows t0 !! k) /\
  forall v, v ∈ kt_versions (io_tables w) -> cve_version v < i32_max \/
    exists k r, k ∈ keys /\ kt_rows (io_tables w) !! k = Some r /\ cve_classification_id v = kr_id r.

Lemma max_version_lt id t : (forall v, v ∈ kt_versions t -> cve_classification_id v = id -> cve_version v < i32_max) -> max_version id t < i32_max.
Proof.
  intros H. unfold max_version.
  assert (forall l m, m < i32_max -> (forall x, x ∈ l -> x < i32_max) -> foldl Z.max m l < i32_max) as Hf.
  { induction l as [|y l IH]; intros m Hm Hl; cbn; [done|]. apply IH; [|intros x Hx; apply Hl; by right].
    specialize (Hl y ltac:(left)). lia. }
  apply Hf; [unfold i32_max; lia|]. intros x (v & -> & [Hv Hid]%list_elem_of_In%filter_In)%list_elem_of_fmap.
  apply bool_decide_eq_true in Hid. apply H; [by apply list_elem_of_In|done].
Qed.

Lemma written_room t0 keys key w : written t0 keys w -> key ∉ keys -> room key w.
Proof.
  intros (_ & Hg & _ & Hv) Hk. unfold room. destruct (kt_rows (io_tables w) !! key) as [old|] eqn:Hold; apply max_version_lt; intros v Hin Hid;
    (destruct (Hv v Hin) as [?|(k & r & Hk' & Hr & Hid')]; [done|exfalso]).
  - apply Hk. by rewrite (tg_id_inj _ _ _ Hg key k old r Hold Hr ltac:(congruence)).
  - pose proof (tg_id_lt _ _ _ Hg k r Hr). rewrite <- Hid', Hid in *. lia.
Qed.

Lemma import_one t0 keys e tv actor n w :
  written t0 keys w -> pe_normalized_key e ∉ keys -> storable e n -> stable_labels store (pe_primary_category e) (pe_subcategory e) ->
  wp (_ ← db (upsert_import_entry e tv actor); clear_request (pe_normalized_key e))
    (fun _ w' => written t0 (pe_normalized_key e :: keys) w' /\
       (forall k, k <> pe_normalized_key e -> kt_rows (io_tables w') !! k = kt_rows (io_tables w) !! k) /\
       exists row, kt_rows (io_tables w') !! pe_normalized_key e = Some row /\ labelled e row /\ kr_confidence row = n)
    (fun _ _ => False) w.
Proof.
  intros Hw Hk Hs Hl. pose proof (written_room _ _ _ _ Hw Hk) as Hroom. destruct Hw as (Hc & Hg & Hsame & Hv).
  apply wp_bind, wp_map_error. eapply wp_weaken;
    [apply wp_conj; [by apply (upsert_import_calm e tv actor n)|by apply (pres_upsert_import store e tv actor Hl)]| |by intros ? ? [[] _]].
  cbn beta. intros [] w1 [(Hc1 & row & v & Hlab & Hconf & Hrows & Hvers & Hid) Hg1].
  unfold clear_request. apply wp_dropped, wp_calm_update; [done|]. split; [split_and!|split].
  - by apply calm_elapse.
  - by apply good_pending.
  - cbn. intros k [Hne Hk']%not_elem_of_cons. rewrite Hrows, lookup_insert_ne by done. by apply Hsame.
  - cbn. rewrite Hrows, Hvers. intros v' [Hin| ->%list_elem_of_singleton]%elem_of_app.
    + destruct (Hv v' Hin) as [?|(k & r & Hk' & Hr & Hid')]; [by left|]. right. exists k, r. split_and!; [by right| |done].
      rewrite lookup_insert_ne; [done|]. intros <-. done.
    + right. exists (pe_normalized_key e), row. split_and!; [by left|by rewrite lookup_insert_eq|done].
  - cbn. intros k Hne. by rewrite Hrows, lookup_insert_ne.
  - cbn. exists row. split_and!; [by rewrite Hrows, lookup_insert_eq|done..].
Qed.

(** The row of an entry after the import. *)
Definition settled (t0 : ClassificationTables) (w : World) (e : PreparedImportEntry) : Prop :=
  exists row, kt_rows (io_tables w) !! pe_normalized_key e = Some row /\ labelled e row /\
    (kt_rows t0 !! pe_normalized_key e = None -> f64_to_numeric (f32_as_f64 (pe_confidence e)) = Some (kr_confidence row)).

Lemma settled_keep t0 w w' e :
  settled t0 w e -> kt_rows (io_tables w') !! pe_normalized_key e = kt_rows (io_tables w) !! pe_normalized_key e -> settled t0 w' e.
Proof. intros (row & Hr & H) E'. exists row. by rewrite E'. Qed.

Lemma apply_prepared_calm t0 tv actor prepared : forall keys c w,
  written t0 keys w -> NoDup (pe_normalized_key <$> prepared) ->
  (forall e, e ∈ prepared -> (pe_normalized_key e ∉ keys) /\ is_domain_key (pe_normalized_key e) = true /\ (exists n, storable e n) /\
     stable_labels store (pe_primary_category e) (pe_subcategory e)) ->
  wp (apply_prepared (domain_rows t0) tv actor prepared c)
    (fun _ w' => written t0 (keys ++ (pe_normalized_key <$> prepared)) w' /\ (forall e, e ∈ prepared -> settled t0 w' e) /\
       forall k, k ∈ keys -> kt_rows (io_tables w') !! k = kt_rows (io_tables w) !! k) (fun _ _ => False) w.
Proof.
  induction prepared as [|e prepared IH]; intros keys c w Hw Hnd He; cbn [apply_prepared].
  { apply wp_ret. cbn [fmap list_fmap]. rewrite app_nil_r. split_and!; [done|by intros e []%elem_of_nil|done]. }
  cbn [fmap list_fmap] in Hnd. apply NoDup_cons in Hnd as [Hne Hnd].
  destruct (He e ltac:(left)) as (Hk & Hdom & [n Hn] & Hl).
  assert (domain_rows t0 !! pe_normalized_key e = kt_rows (io_tables w) !! pe_normalized_key e) as Hex.
  { destruct Hw as (_ & _ & Hsame & _). rewrite Hsame by done. by apply domain_rows_lookup. }
  assert (forall w1 c1, written t0 (pe_normalized_key e :: keys) w1 -> settled t0 w1 e ->
    (forall k, k ∈ keys -> kt_rows (io_tables w1) !! k = kt_rows (io_tables w) !! k) ->
    wp (apply_prepared (domain_rows t0) tv actor prepared c1)
    (fun _ w' => written t0 (keys ++ (pe_normalized_key <$> (e :: prepared))) w' /\ (forall e', e' ∈ e :: prepared -> settled t0 w' e') /\
       forall k, k ∈ keys -> kt_rows (io_tables w') !! k = kt_rows (io_tables w) !! k) (fun _ _ => False) w1) as Hrest.
  { intros w1 c1 Hw1 Hs1 Hkeep. eapply wp_weaken; [eapply (IH (pe_normalized_key e :: keys)); [done|done|]| |done].
    - intros e' He'. destruct (He e' ltac:(by right)) as (Hk' & ?). split; [|done]. apply not_elem_of_cons. split; [|done].
      intros Eq. apply Hne. rewrite <- Eq. apply list_elem_of_fmap. by exists e'.
    - cbn beta. intros [[a b] d] w2 (Hw2 & Hset & Hkeep2). split_and!.
      + destruct Hw2 as (H1 & H2 & H3 & H4). split_and!; [done|done| |].
        * intros k Hk'. apply H3. cbn [fmap list_fmap] in Hk'. set_solver.
        * intros v Hv. destruct (H4 v Hv) as [?|(k & r & Hk' & ?)]; [by left|]. right. exists k, r. split; [|done].
          cbn [fmap list_fmap]. set_solver.
      + intros e' [->|He']%elem_of_cons; [|by apply Hset]. eapply settled_keep; [done|]. apply Hkeep2. by left.
      + intros k Hk'. rewrite Hkeep2 by (by right). by apply Hkeep. }
  unfold import_outcome. rewrite Hex. destruct (kt_rows (io_tables w) !! pe_normalized_key e) as [old|] eqn:Hold;
    [destruct (is_same_classification old e) eqn:Hsame|].
  { apply Hrest; [|exists old; split_and!; [done|by apply same_labelled|]|done].
    - destruct Hw as (H1 & H2 & H3 & H4). split_and!; [done|done| |].
      + intros k Hk'. apply H3. set_solver.
      + intros v Hv. destruct (H4 v Hv) as [?|(k & r & Hk' & ?)]; [by left|]. right. exists k, r. split; [by right|done].
    - destruct Hw as (_ & _ & Hs & _). rewrite <- Hs by done. congruence. }
  all: eapply wp_both; [by apply (import_one t0 keys e tv actor n)|]; cbn beta;
    intros [] w1 (Hw1 & Hkeep & row & Hr & Hlab & Hconf); apply Hrest; [done|exists row; split_and!; [done|done|]|].
  1,3: intros _; destruct Hn as [-> _]; by rewrite Hconf.
  all: intros k Hk'; apply Hkeep; by intros ->.
Qed.

(** ** Replacing *)

Lemma delete_keys_calm keys w :
  calm w -> good store w ->
  wp (delete_keys_and_related keys) (fun _ w' => calm w' /\ good store w' /\
    forall k, kt_rows (io_tables w') !! k = if decide (k ∈ keys) then None else kt_rows (io_tables w) !! k) (fun _ _ => False) w.
Proof.
  intros Hc Hg. unfold delete_keys_and_related. destruct keys as [|key keys].
  { apply wp_ret. split_and!; [done|done|]. intros k. rewrite decide_False; [done|]. by intros []%elem_of_nil. }
  set (l := key :: keys). wp_calm. split_and!; [by repeat apply calm_elapse| |].
  - by apply good_pages, good_pending, good_delete.
  - intros k. cbn. case_decide as Hk; [apply map_lookup_filter_None; right; intros r _; cbn; unfold one_of; by rewrite bool_decide_eq_true_2|].
    destruct (kt_rows (io_tables w) !! k) as [r|] eqn:Hr.
    + apply map_lookup_filter_Some. split; [done|]. cbn. unfold one_of. by rewrite bool_decide_eq_false_2.
    + apply map_lookup_filter_None. by left.
Qed.

(** The keys that a replacing import deletes. *)
Definition known (t : ClassificationTables) (k : string) : Prop :=
  is_Some (kt_rows t !! k) \/ is_Some (kt_requests t !! k) \/ k ∈ (pg_normalized_key <$> kt_pages t).
Lemma elem_of_doomed t (kept : list string) k :
  is_domain_key k = true ->
  k ∈ List.filter (fun key => negb (bool_decide (key ∈ kept))) (List.filter is_domain_key
        (elements (dom (kt_rows t) ∪ dom (kt_requests t) ∪ list_to_set (pg_normalized_key <$> kt_pages t) : gset string))) <->
  known t k /\ k ∉ kept.
Proof.
  intros Hk. unfold known. rewrite list_elem_of_In, !filter_In, <- list_elem_of_In, elem_of_elements, negb_true_iff, bool_decide_eq_false.
  rewrite !elem_of_union, !elem_of_dom, elem_of_list_to_set. tauto.
Qed.

Lemma delete_doomed_calm (doomed : list string) w :
  calm w -> good store w ->
  wp (match doomed with [] => mret tt | _ => _ ← db (delete_keys_and_related doomed); mret tt end : KM HttpError unit)
    (fun _ w' => calm w' /\ good store w' /\
      forall k, kt_rows (io_tables w') !! k = if decide (k ∈ doomed) then None else kt_rows (io_tables w) !! k) (fun _ _ => False) w.
Proof.
  intros Hc Hg. destruct doomed as [|d l]; [by apply (delete_keys_calm [] w)|].
  apply wp_bind, wp_map_error. eapply wp_weaken; [by apply (delete_keys_calm (d :: l))| |done]. intros n w' H. by apply wp_ret.
Qed.
Lemma invalidate_calm (told_ : bool) w : calm w ->
  wp (if told_ then invalidate_policy_cache has_cache else mret tt : KM HttpError unit) (fun _ w' => calm w' /\ io_tables w' = io_tables w) (fun _ _ => False) w.
Proof.
  intros Hc. destruct told_; [|by apply wp_ret]. unfold invalidate_policy_cache. destruct has_cache; [|by apply wp_ret].
  wp_calm. split; [by apply calm_elapse|done].
Qed.

Definition import_request (b : ClassificationExchangeBundle) (mode : ClassificationImportMode) (recompute : bool) : ClassificationImportRequest :=
  {| im_bundle := b; im_mode := mode; im_recompute_policy_fields := recompute; im_dry_run := false |}.

Section Replace.
  Context (entries : gmap string PreparedImportEntry)
    (Hkeys : forall k e, entries !! k = Some e -> pe_normalized_key e = k /\ is_domain_key k = true)
    (Hready : forall k e, entries !! k = Some e -> (exists n, storable e n) /\ stable_labels store (pe_primary_category e) (pe_subcategory e)).

Lemma entry_of_row e : e ∈ (map_to_list entries).*2 <-> entries !! pe_normalized_key e = Some e.
Proof.
  split.
  - intros ([k e'] & -> & H%elem_of_map_to_list)%list_elem_of_fmap. cbn. by destruct (Hkeys _ _ H) as [-> _].
  - intros H. apply list_elem_of_fmap. exists (pe_normalized_key e, e). split; [done|]. by apply elem_of_map_to_list.
Qed.
Lemma entry_keys : pe_normalized_key <$> (map_to_list entries).*2 = (map_to_list entries).*1.
Proof.
  rewrite <- list_fmap_compose. apply list_fmap_ext. intros i [k e] Hi%list_elem_of_lookup_2%elem_of_map_to_list.
  by destruct (Hkeys _ _ Hi) as [H _].
Qed.
Lemma elem_of_keys k : k ∈ pe_normalized_key <$> (map_to_list entries).*2 <-> is_Some (entries !! k).
Proof.
  rewrite entry_keys, list_elem_of_fmap. split.
  - intros ([k' e] & -> & H%elem_of_map_to_list). by exists e.
  - intros [e H]. exists (k, e). split; [done|]. by apply elem_of_map_to_list.
Qed.

(** Every entry is there, and no other row was touched. *)
Lemma replaced_rows t2 w tv actor c :
  written t2 [] w ->
  wp (apply_prepared (domain_rows t2) tv actor (map_to_list entries).*2 c)
    (fun _ w' => calm w' /\ good store w' /\ forall k,
       match entries !! k with
       | Some e => settled t2 w' e
       | None => kt_rows (io_tables w') !! k = kt_rows t2 !! k
       end) (fun _ _ => False) w.
Proof.
  intros Hw. eapply wp_weaken; [apply (apply_prepared_calm t2 tv actor _ [] c w Hw)| |done].
  - rewrite entry_keys. apply NoDup_fst_map_to_list.
  - intros e He%entry_of_row. destruct (Hkeys _ _ He) as [_ Hd], (Hready _ _ He) as [Hn Hl]. split_and!; [by intros []%elem_of_nil|done..].
  - cbn beta. intros [[a b] d] w' (Hw' & Hset & _). destruct Hw' as (Hc & Hg & Hsame & _). split_and!; [done|done|]. intros k.
    destruct (entries !! k) as [e|] eqn:He.
    + apply Hset, entry_of_row. by destruct (Hkeys _ _ He) as [-> _].
    + apply Hsame. cbn [app]. rewrite elem_of_keys, He. by intros [].
Qed.

(** A replacing import leaves the rows of its entries and no other row of a domain. *)
Lemma replace_calm importer b recompute n w2 :
  require_roles importer ROLE_POLICY_EDIT = true -> (forall v, v ∈ kt_versions (io_tables w2) -> cve_version v < i32_max) ->
  wp (prepare store policy engine recompute (uc_actor importer) 0 (cb_entries b) [] ∅)
    (fun x w' => in_order (io_tables w2) w' /\ x.2 = entries /\ length x.1 = n) (fun _ _ => False) w2 ->
  exists r w', import_bundle store policy has_cache timestamp engine importer (import_request b Replace recompute) w2 = (Ok r, w') /\
    ir_invalid r = n /\ forall k, is_domain_key k = true ->
      match entries !! k with
      | Some e => settled (io_tables w2) w' e
      | None => kt_rows (io_tables w') !! k = None
      end.
Proof.
  intros Hrole Hv Hprep. apply wp_answers. unfold import_bundle, guard. rewrite Hrole.
  cbn [import_request im_bundle im_mode im_recompute_policy_fields im_dry_run].
  apply wp_bind, wp_ret, wp_bind. eapply wp_weaken; [exact Hprep| |done]. cbn beta. intros [invalid prepared] w3 ((Hc & Hg & Ht) & Hent & Hlen).
  cbn [fst snd] in Hent, Hlen. subst prepared n.
  apply wp_bind, wp_map_error, wp_calm_fetch; [done|]. apply wp_bind, wp_bind, wp_map_error, wp_calm_fetch; [by apply calm_elapse|]. apply wp_ret.
  cbn [io_tables elapse]. rewrite Ht. set (doomed := List.filter _ _). apply wp_bind, wp_bind.
  eapply wp_weaken; [apply (replaced_rows (io_tables w2))| |done].
  { split_and!; [by do 2 apply calm_elapse|done|cbn; by rewrite Ht|]. cbn. rewrite Ht. intros v Hin. left. by apply Hv. }
  cbn beta. intros [[imported updated] skipped] w4 (Hc4 & Hg4 & Hrows).
  apply wp_bind. eapply wp_weaken; [by apply (delete_doomed_calm doomed)| |done]. intros [] w5 (Hc5 & Hg5 & Hdel).
  apply wp_bind. eapply wp_weaken; [by apply invalidate_calm| |done]. cbn beta. intros [] w6 (Hc6 & Ht6). apply wp_ret. cbn beta iota.
  apply wp_bind, wp_now. destruct (render_invalid_rows_jsonl_limited _ _) as [jsonl truncated]. unfold log_policy_event.
  apply wp_bind, wp_emit, wp_ret. split; [done|]. intros k Hk. specialize (Hrows k).
  assert (k ∈ doomed <-> known (io_tables w2) k /\ entries !! k = None) as Hdoom.
  { unfold doomed. etransitivity; [by apply elem_of_doomed|]. by rewrite eq_None_not_Some, <- elem_of_keys. }
  change (match entries !! k with Some e => settled (io_tables w2) w6 e | None => kt_rows (io_tables w6) !! k = None end).
  assert (kt_rows (io_tables w6) !! k = if decide (k ∈ doomed) then None else kt_rows (io_tables w4) !! k) as Hfin by by rewrite Ht6, Hdel.
  destruct (entries !! k) as [e|] eqn:He.
  - eapply settled_keep; [exact Hrows|]. destruct (Hkeys _ _ He) as [-> _]. etransitivity; [exact Hfin|]. rewrite decide_False; [done|]. by intros [_ ?]%Hdoom.
  - etransitivity; [exact Hfin|]. case_decide as Hin; [done|]. rewrite Hrows.
    destruct (kt_rows (io_tables w2) !! k) as [row|] eqn:Hrow; [|done]. destruct Hin. apply Hdoom. split; [left; by rewrite Hrow|done].
Qed.
End Replace.

(** ** Round trips *)

(** The classification of a key, in two tables. *)
Definition same_labels (a b : option ClassificationRecord) : Prop :=
  match a, b with
  | Some r1, Some r2 =>
      kr_primary_category r1 = kr_primary_category r2 /\ kr_subcategory r1 = kr_subcategory r2 /\ kr_risk_level r1 = kr_risk_level r2 /\
      kr_recommended_action r1 = kr_recommended_action r2
  | None, None => True
  | _, _ => False
  end.
(** A row with the category of another, and what the engine decided for it. *)
Definition decided_again (r1 : ClassificationRecord) (d : PolicyDecision) (row : ClassificationRecord) : Prop :=
  kr_primary_category row = kr_primary_category r1 /\ kr_subcategory row = kr_subcategory r1 /\ kr_risk_level row = risk_of d /\
  kr_recommended_action row = action_to_string (pd_action d) /\
  f64_close (numeric_to_f64 (kr_confidence row)) (f32_as_f64 (confidence_of d)) = true.

Section RoundTrip.
  Context (t1 : ClassificationTables) (recompute : bool) (actor : string) (fields : string * ClassificationRecord -> option Fields).
  Context (Himp : forall kv, kv ∈ map_to_list (domain_rows t1) -> importable kv).
  Abbreviation entries := (prepared_rows recompute actor fields ∅ (export_rows sql_lower "%%" t1)).

Lemma exported_run user w1 b w1' :
  io_tables w1 = t1 -> export_bundle store sql_lower user None w1 = (Ok b, w1') -> cb_entries b = exchange_entry <$> export_rows sql_lower "%%" t1.
Proof.
  intros Ht. unfold export_bundle. intros ([] & w2 & Hg & H)%io_bind_Ok.
  assert (w2 = w1) as -> by (revert Hg; unfold guard; destruct (require_roles _ _); by intros [= <-]).
  apply io_bind_Ok in H as (rows & w3 & Hf & H). unfold mbind, io_bind, utc_now, mret, io_ret in H. injection H as <- _. cbn [cb_entries]. f_equal.
  revert Hf. unfold db, map_error, fetch, sql, step. rewrite <- Ht. by destruct (io_faults w1) as [|[] ?]; intros [= <- _].
Qed.

Lemma row_importable k r : domain_rows t1 !! k = Some r -> importable (k, r).
Proof. intros H. apply Himp. by apply elem_of_map_to_list. Qed.
Lemma exported_importable kv : kv ∈ export_rows sql_lower "%%" t1 -> importable kv.
Proof. intros H. apply Himp. by rewrite <- export_rows_all. Qed.

Lemma exported_keys k e : entries !! k = Some e -> pe_normalized_key e = k /\ is_domain_key k = true.
Proof.
  rewrite prepared_of_export. destruct (domain_rows t1 !! k) as [r|] eqn:Hr; [|done]. cbn. intros He. split; [by eapply entry_key|].
  by apply map_lookup_filter_Some in Hr as [_ ?].
Qed.
Lemma exported_ready :
  (forall k r e, domain_rows t1 !! k = Some r -> prepared_of recompute actor fields (k, r) = Some e -> exists n, storable e n) ->
  forall k e, entries !! k = Some e -> (exists n, storable e n) /\ stable_labels store (pe_primary_category e) (pe_subcategory e).
Proof.
  intros Hs k e. rewrite prepared_of_export. destruct (domain_rows t1 !! k) as [r|] eqn:Hr; [|done]. cbn. intros He.
  split; [by eapply Hs|]. destruct (row_importable k r Hr) as (_ & _ & Hl & _). unfold prepared_of in He.
  destruct (fields (k, r)); [|done]. by injection He as <-.
Qed.
Lemma refused_count : length (List.filter (refused fields) (export_rows sql_lower "%%" t1)) = length (List.filter (refused fields) (map_to_list (domain_rows t1))).
Proof.
  assert (forall l l', l ≡ₚ l' -> length (List.filter (refused fields) l) = length (List.filter (refused fields) l')) as H; [|apply H, export_rows_all].
  induction 1; cbn; [done|..]; repeat case_match; cbn; congruence.
Qed.
End RoundTrip.

(** What an import as it is writes. *)
Section AsIs.
  Context (t1 : ClassificationTables) (actor : string) (Himp : forall kv, kv ∈ map_to_list (domain_rows t1) -> importable kv).
  Abbreviation as_is := (fun kv : string * ClassificationRecord => Some (own_fields kv)).
  Abbreviation entries := (prepared_rows false actor as_is ∅ (export_rows sql_lower "%%" t1)).

Lemma own_entries k : entries !! k = (fun r => entry_of false actor (k, r) (own_fields (k, r))) <$> domain_rows t1 !! k.
Proof. rewrite prepared_of_export. by destruct (domain_rows t1 !! k). Qed.

Lemma entry_storable k r : domain_rows t1 !! k = Some r ->
  let e := entry_of false actor (k, r) (own_fields (k, r)) in
  storable e (kr_confidence r) /\ action_to_string (pe_recommended_action e) = kr_recommended_action r.
Proof.
  intros (_ & _ & _ & [a Ha] & _ & Hs)%(row_importable _ Himp). cbn [snd] in *. destruct (survives_spec _ Hs) as (H1 & H2 & H3). split; [by split|].
  cbn. by rewrite Ha, parse_action_string.
Qed.

(** Importing where it came from: everything is as it was. *)
Lemma same_as_exported k r : domain_rows t1 !! k = Some r -> is_same_classification r (entry_of false actor (k, r) (own_fields (k, r))) = true.
Proof.
  intros Hr. destruct (entry_storable k r Hr) as [[_ Hc] Ha]. unfold is_same_classification. rewrite Ha. cbn -[f64_close numeric_to_f64 as_read].
  rewrite !bool_decide_eq_true_2 by done. cbn -[f64_close numeric_to_f64 as_read]. exact Hc.
Qed.
Lemma reimport_skips tv l : forall c w,
  (forall e, e ∈ l -> entries !! pe_normalized_key e = Some e) ->
  apply_prepared (domain_rows t1) tv actor l c w = (Ok (c.1.1, c.1.2, c.2 + length l)%nat, w).
Proof.
  induction l as [|e l IH]; intros [[a b] d] w Hl; [cbn; by rewrite Nat.add_0_r|].
  pose proof (Hl e ltac:(left)) as He. rewrite own_entries in He. destruct (domain_rows t1 !! pe_normalized_key e) as [r|] eqn:Hr; [|done].
  assert (import_outcome (domain_rows t1) e = Skipped) as Ho.
  { unfold import_outcome. rewrite Hr. injection He as He. pose proof (same_as_exported _ _ Hr) as Hsame. cbn [fst snd] in *. by rewrite He in Hsame; rewrite Hsame. }
  cbn [apply_prepared]. rewrite Ho, IH by (intros e' He'; apply Hl; by right). cbn. do 3 f_equal. lia.
Qed.
Lemma entries_size : length (map_to_list entries) = size (domain_rows t1).
Proof.
  assert (dom entries = dom (domain_rows t1)) as Hd.
  { apply set_eq. intros k. rewrite !elem_of_dom, own_entries. by rewrite fmap_is_Some. }
  rewrite <- (size_dom (domain_rows t1)), <- Hd, size_dom. apply length_map_to_list.
Qed.
Lemma none_refused l : List.filter (refused as_is) l = [].
Proof. by induction l. Qed.
End AsIs.

(** C8: An exported bundle can be imported.  Replacing the classifications of another system by it (no
    statement failing, tables in order, no version counter exhausted) as it is, that is with the recomputation of the policy fields switched off, is
    answered without an invalid entry and leaves there, for every domain key, exactly the category,
    subcategory, risk level and action of the exporting system, and its confidence where the key is
    new.  With the recomputation, which is the default, it leaves exactly the categories and
    subcategories of those domain keys for which the importing system's policy engine answers, with
    the risk level, action and confidence it answers for them; the other entries are counted as
    invalid and their keys, as all that the bundle does not have, are deleted.  Importing the bundle
    as it is where it came from skips every entry and changes nothing.  Rows must have canonical
    keys, risk levels the import accepts and a confidence that survives being read as a
    single-precision number, as every whole percentage does; the same goes for the confidence of
    the engine's answers. *)
Theorem bundle_round_trip exporter importer w1 b w1' w2 :
  (forall kv, kv ∈ map_to_list (domain_rows (io_tables w1)) -> importable kv) ->
  export_bundle store sql_lower exporter None w1 = (Ok b, w1') -> require_roles importer ROLE_POLICY_EDIT = true ->
  good store w2 -> calm w2 -> (forall v, v ∈ kt_versions (io_tables w2) -> cve_version v < i32_max) ->
  (exists r w', import_bundle store policy has_cache timestamp engine importer (import_request b Replace false) w2 = (Ok r, w') /\
     ir_invalid r = 0%nat /\ forall k, is_domain_key k = true ->
       same_labels (kt_rows (io_tables w1) !! k) (kt_rows (io_tables w') !! k) /\
       (kt_rows (io_tables w2) !! k = None -> kr_confidence <$> kt_rows (io_tables w') !! k = kr_confidence <$> kt_rows (io_tables w1) !! k)) /\
  ((forall kv d, kv ∈ map_to_list (domain_rows (io_tables w1)) -> engine (io_tables w2) (asked_again kv) = Ok d ->
      exists n, storable (entry_of true (uc_actor importer) kv (decided_fields d)) n) ->
   exists r w', import_bundle store policy has_cache timestamp engine importer (import_request b Replace true) w2 = (Ok r, w') /\
     ir_invalid r = length (List.filter (refused (recomputed_fields (io_tables w2))) (map_to_list (domain_rows (io_tables w1)))) /\
     forall k, is_domain_key k = true ->
       match kt_rows (io_tables w1) !! k with
       | Some r1 =>
           match engine (io_tables w2) (asked_again (k, r1)) with
           | Ok d => exists row, kt_rows (io_tables w') !! k = Some row /\ decided_again r1 d row
           | Err _ => kt_rows (io_tables w') !! k = None
           end
       | None => kt_rows (io_tables w') !! k = None
       end) /\
  (io_tables w2 = io_tables w1 ->
   exists r w', import_bundle store policy has_cache timestamp engine importer (import_request b Merge false) w2 = (Ok r, w') /\
     io_tables w' = io_tables w2 /\ ir_imported r = 0%nat /\ ir_updated r = 0%nat /\ ir_skipped r = size (domain_rows (io_tables w1))).
Proof.
  intros Himp Hb Hrole Hg Hc Hv. pose proof (exported_run _ exporter w1 b w1' eq_refl Hb) as Hent.
  set (t1 := io_tables w1) in *. set (actor := uc_actor importer).
  assert (in_order (io_tables w2) w2) as Hw by by split_and!.
  assert (forall recompute fields, (forall kv, importable kv -> examined recompute actor (io_tables w2) fields kv) ->
    wp (prepare store policy engine recompute actor 0 (cb_entries b) [] ∅)
      (fun x w' => in_order (io_tables w2) w' /\ x.2 = prepared_rows recompute actor fields ∅ (export_rows sql_lower "%%" t1) /\
        length x.1 = length (List.filter (refused fields) (map_to_list (domain_rows t1)))) (fun _ _ => False) w2) as Hprep.
  { intros recompute fields Hex. rewrite Hent, <- refused_count. apply prepare_exported; [|done].
    intros kv Hkv. apply Hex. by apply (exported_importable t1 Himp). }
  split_and!.
  - edestruct (replace_calm _ (exported_keys t1 false actor (fun kv => Some (own_fields kv)))) as (r & w' & Hrun & Hinv & Hrows);
      [|exact Hrole|exact Hv|apply Hprep; intros kv Hkv; by apply examined_as_is|].
    { apply exported_ready; [done|]. intros k r e Hr [= <-]. exists (kr_confidence r). by apply (entry_storable t1 actor Himp). }
    exists r, w'. split_and!; [exact Hrun|by rewrite Hinv, none_refused|]. intros k Hk. specialize (Hrows k Hk).
    rewrite own_entries in Hrows. rewrite <- (domain_rows_lookup t1 k Hk). destruct (domain_rows t1 !! k) as [r1|] eqn:Hr; cbn [fmap option_fmap option_map] in Hrows.
    + destruct Hrows as (row & Hrow & (H1 & H2 & H3 & H4 & _) & Hconf). cbn [entry_of pe_normalized_key fst] in Hrow, Hconf. rewrite Hrow.
      destruct (entry_storable t1 actor Himp k r1 Hr) as [[Hn _] Ha]. rewrite Ha in H4. split; [done|].
      intros H2'. specialize (Hconf H2'). cbn. congruence.
    + by rewrite Hrows.
  - intros Hd. edestruct (replace_calm _ (exported_keys t1 true actor (recomputed_fields (io_tables w2)))) as (r & w' & Hrun & Hinv & Hrows);
      [|exact Hrole|exact Hv|apply Hprep; intros kv Hkv; by apply examined_again|].
    { apply exported_ready; [done|]. intros k r e Hr. unfold prepared_of, recomputed_fields.
      destruct (engine _ _) as [d|] eqn:Ed; [|done]. intros [= <-]. apply (Hd (k, r)); [by apply elem_of_map_to_list|done]. }
    exists r, w'. split_and!; [exact Hrun|exact Hinv|]. intros k Hk. specialize (Hrows k Hk).
    rewrite prepared_of_export in Hrows. rewrite <- (domain_rows_lookup t1 k Hk). destruct (domain_rows t1 !! k) as [r1|] eqn:Hr; [|done].
    cbn [mbind option_bind] in Hrows. unfold prepared_of, recomputed_fields in Hrows. destruct (engine _ _) as [d|]; [|done].
    destruct Hrows as (row & Hrow & Hlab & _). by exists row.
  - intros Ht. apply wp_answers. unfold import_bundle, guard. rewrite Hrole. cbn [import_request im_bundle im_mode im_recompute_policy_fields im_dry_run].
    apply wp_bind, wp_ret, wp_bind. eapply wp_weaken; [apply (Hprep false); intros kv Hkv; by apply examined_as_is| |done].
    cbn beta. intros [invalid prepared] w3 ((Hc3 & _ & Ht3) & Hprepared & Hlen). cbn [fst snd] in Hprepared, Hlen. rewrite none_refused in Hlen.
    destruct invalid; [|done]. subst prepared.
    apply wp_bind, wp_map_error, wp_calm_fetch; [done|]. apply wp_bind, wp_ret, wp_bind, wp_bind. rewrite Ht3, Ht.
    eapply wp_runs; [apply (reimport_skips t1 actor Himp); intros e He; by apply (entry_of_row _ (exported_keys t1 false actor (fun kv => Some (own_fields kv))))|]. cbn [fst snd].
    apply wp_bind, wp_ret, wp_bind. eapply wp_weaken; [by apply invalidate_calm, calm_elapse| |done]. cbn beta. intros [] w5 (_ & Ht5). apply wp_ret. cbn beta iota.
    apply wp_bind, wp_now. unfold render_invalid_rows_jsonl_limited. cbn [render_loop]. unfold log_policy_event.
    apply wp_bind, wp_emit, wp_ret. cbn [told io_tables ir_imported ir_updated ir_skipped Nat.add].
    split_and!; [rewrite Ht5; cbn; congruence|done|done|]. rewrite length_fmap. apply entries_size.
Qed.

End Exchange.
