(* ===== verification/ClassificationFlow.v ===== *)
(** * Classifications between the services

    A classification that an administrator makes is the one the policy engine finds for the key, and
    a request for a classification from metadata is the job that the LLM worker reads. *)

From S2P Require Import Prelude RustStr RustNum Numeric Types Http Json Normalizer Taxonomy CanonicalTaxonomy PolicyStore Evaluator PolicyEngine LlmAnswer LlmProvider LlmWorker LlmJobs LlmLifecycle Db Io Wp Texts Pagination AdminClassifications ClassificationTables ClassificationExchange.

Local Open Scope Z_scope.

(** A row as the query of the policy engine sees it. *)
Definition engine_view (kv : string * ClassificationRecord) : ClassificationRow :=
  {| cl_normalized_key := kv.1; cl_status := kr_status kv.2; cl_primary_category := Some (kr_primary_category kv.2);
     cl_subcategory := Some (kr_subcategory kv.2); cl_risk_level := Some (kr_risk_level kv.2);
     cl_confidence := Some (numeric_to_f64 (kr_confidence kv.2)); cl_updated_at := kr_updated_at kv.2 |}.

(** The row of a key is preferred to those of related keys. *)
Lemma best_of_key (rows : gmap string ClassificationRecord) k r :
  rows !! k = Some r -> kr_status r = "active" -> best_classification k (engine_view <$> map_to_list rows) = Some (engine_view (k, r)).
Proof.
  intros Hr Ha. assert (engine_view (k, r) ∈ (engine_view <$> map_to_list rows)) as Hin.
  { apply list_elem_of_fmap. exists (k, r). split; [done|]. by apply elem_of_map_to_list. }
  assert (is_Some (best_classification k (engine_view <$> map_to_list rows))) as [row Hrow].
  { unfold best_classification. set (rank := classification_rank k _). set (l := order_desc _ _).
    assert (engine_view (k, r) ∈ sort_by_key (fun row => default 3 (rank row)) l) as H.
    { unfold l, order_desc. rewrite !sort_by_key_perm. apply list_elem_of_filter. split; [|done].
      unfold rank, classification_rank. cbn. rewrite Ha. by rewrite !decide_True. }
    destruct (sort_by_key _ l); [by apply elem_of_nil in H|done]. }
  rewrite Hrow. destruct (best_classification_rank k _ row Hrow) as (Hin' & _ & Hkey).
  specialize (Hkey _ Hin Ha eq_refl). apply list_elem_of_fmap in Hin' as ([k' r'] & -> & Hk'%elem_of_map_to_list). cbn in Hkey. subst k'.
  by rewrite Hr in Hk'; injection Hk' as <-.
Qed.

Section Manual.
  Context `{E : Externals} `{X : Texts} `{T : JsonText} `{B : Base64} `{C : Collation}.
  Context (store : TaxonomyStore) (policy : CanonicalizationPolicy) (has_cache : bool)
    (engine : ClassificationTables -> DecisionRequest -> result string PolicyDecision).
  Context (Hstore : store_wf store) (Hclean : clean_ids store).

(** The row that a manual classification writes, and its version. *)
Definition says (c s risk : string) (r : ClassificationRecord) : Prop :=
  kr_primary_category r = c /\ kr_subcategory r = s /\ kr_risk_level r = risk.

Lemma upsert_fresh id key confidence tv c s risk a flags w :
  stable_labels store c s -> calm w -> good store w -> fresh id w ->
  wp (upsert merge_manual key confidence (fun n => new_row id tv "manual" c s risk (action_to_string a) n flags))
    (fun r w' => calm w' /\ good store w' /\ kt_rows (io_tables w') !! key = Some r /\ says c s risk r) (fun _ _ => True) w.
Proof.
  intros Hs Hc Hg Hf.
  eapply wp_weaken; [eapply (wp_conj _ _ (fun r w' => calm w' /\ says c s risk r) _ (fun _ _ => True));
    [eapply (upsert_wp store merge_manual _ _ _ _ _ (merging_manual store)); [|exact Hg|exact Hf]|]|..|done].
  - intros n now Hn. by apply new_row_ok.
  - unfold upsert, checked_db. apply wp_map_error, wp_checked; [done|done|].
    intros r t (n & _ & [= <- _])%bind_Ok. split; [by apply calm_elapse|]. by destruct (kt_rows _ !! key).
  - cbn. tauto.
Qed.

Lemma version_done key r changed_by reason payload w :
  calm w -> good store w -> kt_rows (io_tables w) !! key = Some r ->
  wp (insert_version (kr_id r) changed_by reason payload)
    (fun _ w' => calm w' /\ good store w' /\ kt_rows (io_tables w') = kt_rows (io_tables w)) (fun _ _ => True) w.
Proof.
  intros Hc Hg Hr. eapply wp_weaken; [eapply (wp_conj _ _ (fun _ w' => calm w' /\ kt_rows (io_tables w') = kt_rows (io_tables w)) _ (fun _ _ => True)); [by eapply version_wp|]|..|done].
  - unfold insert_version, checked_db. apply wp_bind, wp_fetch; [done|]. apply wp_bind, wp_v4, wp_map_error, wp_checked; [done|done|].
    intros [] t. case_decide; [|done]. intros [= <-]. split; [by do 2 apply calm_elapse|done].
  - cbn. tauto.
Qed.

(** What a manual classification leaves behind. *)
Definition manual_done (c s : string) (record : ClassificationMutationRecord) (w : World) : Prop :=
  good store w /\ kt_requests (io_tables w) !! mr_normalized_key record = None /\
  (has_cache = true -> InvalidateKey (mr_normalized_key record) ∈ io_trace w) /\
  mr_primary_category record = c /\ mr_subcategory record = s /\
  exists row, kt_rows (io_tables w) !! mr_normalized_key record = Some row /\ says c s (mr_risk_level record) row /\
    as_read (kr_confidence row) = mr_confidence record.

Lemma cleared key (m : gmap string PendingRequest) : (filter (fun kv : string * PendingRequest => is_key key kv.1 = false) m) !! key = None.
Proof. apply map_lookup_filter_None. right. intros r _. cbn. unfold is_key. by rewrite bool_decide_eq_true_2. Qed.

Lemma settle_done key key' w :
  calm w -> good store w ->
  wp (settle has_cache key key') (fun _ w' => good store w' /\ kt_rows (io_tables w') = kt_rows (io_tables w) /\
    kt_requests (io_tables w') !! key = None /\ (has_cache = true -> InvalidateKey key ∈ io_trace w')) (fun _ _ => False) w.
Proof.
  intros Hc Hg. unfold settle, clear_request. apply wp_bind, wp_dropped, wp_calm_update; [done|]. set (w1 := with_tables _ _).
  assert (calm w1) as Hc1 by by apply calm_elapse. assert (good store w1) as Hg1 by by apply good_pending.
  assert (kt_requests (io_tables w1) !! key = None) as Hk by apply cleared.
  assert (forall w2, calm w2 -> good store w2 -> io_tables w2 = io_tables w1 -> (has_cache = true -> InvalidateKey key ∈ io_trace w2) ->
    wp (if decide (key <> key') then invalidate_cache_key has_cache key' else mret tt : KM HttpError unit)
      (fun _ w' => good store w' /\ kt_rows (io_tables w') = kt_rows (io_tables w) /\
        kt_requests (io_tables w') !! key = None /\ (has_cache = true -> InvalidateKey key ∈ io_trace w')) (fun _ _ => False) w2) as Hlast.
  { intros w2 Hc2 Hg2 Ht2 Hin. unfold invalidate_cache_key. case_decide; [destruct has_cache|]; wp_calm; rewrite ?Ht2; cbn; rewrite ?Ht2; split_and!; try done.
    intros _. apply elem_of_app. left. by apply Hin. }
  apply wp_bind. unfold invalidate_cache_key at 1. destruct has_cache; wp_calm; apply Hlast; try done; [by apply calm_elapse|].
  intros _. cbn. apply elem_of_app. right. left.
Qed.

Lemma persist_done key payload actor c s tv fr source host w :
  stable_labels store c s -> calm w -> good store w ->
  wp (persist_manual_classification key payload actor c s tv fr source host)
    (fun record w' => calm w' /\ good store w' /\ mr_normalized_key record = key /\ mr_primary_category record = c /\ mr_subcategory record = s /\
       exists row, kt_rows (io_tables w') !! key = Some row /\ says c s (mr_risk_level record) row /\
         as_read (kr_confidence row) = mr_confidence record) (fun _ _ => True) w.
Proof.
  intros Hs Hc Hg. unfold persist_manual_classification. apply wp_bind, wp_v4. destruct (fresh_v4 store w Hg) as [Hg0 Hf].
  apply wp_bind. eapply wp_weaken; [by apply upsert_fresh| |done]. cbn beta. intros r w1 (Hc1 & Hg1 & Hr & Hsay). apply wp_bind. eapply wp_weaken; [by eapply version_done| |done]. cbn beta.
  intros [] w2 (Hc2 & Hg2 & Hrows). apply wp_ret. destruct Hsay as (H1 & H2 & H3). cbn -[as_read].
  split_and!; [done..|]. exists r. rewrite Hrows. by split_and!.
Qed.

Lemma settled_record key key' c s record w :
  calm w -> good store w -> mr_normalized_key record = key -> mr_primary_category record = c -> mr_subcategory record = s ->
  (exists row, kt_rows (io_tables w) !! key = Some row /\ says c s (mr_risk_level record) row /\ as_read (kr_confidence row) = mr_confidence record) ->
  wp (_ ← settle has_cache key key'; mret record) (manual_done c s) (fun _ _ => True) w.
Proof.
  intros Hc Hg Hk H1 H2 (row & Hrow & Hsay & Hconf). apply wp_bind. eapply wp_weaken; [by apply (settle_done key key')| |done].
  cbn beta. intros [] w' (Hg' & Hrows & Hreq & Hin). apply wp_ret. unfold manual_done. rewrite Hk. split_and!; [done..|].
  exists row. by rewrite Hrows.
Qed.

Lemma unblock_done user key payload w :
  calm w -> good store w ->
  wp (manual_unblock store policy has_cache user key payload) (fun record w' => exists v,
    validate_labels store (mu_primary_category payload) (if is_empty (trim (mu_subcategory payload)) then None else Some (mu_subcategory payload)) = Some v /\
    manual_done (cat_id (vl_category v)) (sub_id (vl_subcategory v)) record w') (fun _ _ => True) w.
Proof.
  intros Hc Hg. unfold manual_unblock, guard. apply wp_bind. destruct (require_roles user _); [apply wp_ret|by apply wp_result].
  case_decide; [by apply wp_result|]. apply wp_bind. unfold validated_labels. apply wp_result; [|done]. intros v Hv.
  unfold ok_or in Hv. destruct (validate_labels _ _ _) as [v'|] eqn:Ev; [|done]. injection Hv as ->.
  apply wp_bind, wp_map_error. eapply wp_weaken; [by apply persist_done; [eapply validated_stable| |]| |done]. cbn beta.
  intros record w1 (Hc1 & Hg1 & Hk & H1 & H2 & Hrow). eapply wp_weaken; [by apply (settled_record (canonicalize_key policy key) key _ _ record w1 Hc1 Hg1 Hk H1 H2)| |done].
  cbn beta. intros record' w2 Hd. exists v. split; [done|exact Hd].
Qed.

Lemma classify_done user key payload w :
  calm w -> good store w ->
  wp (manual_classify store policy has_cache engine user key payload) (fun record w' => exists v,
    validate_labels store (mc_primary_category payload) (if is_empty (trim (mc_subcategory payload)) then None else Some (mc_subcategory payload)) = Some v /\
    manual_done (cat_id (vl_category v)) (sub_id (vl_subcategory v)) record w') (fun _ _ => True) w.
Proof.
  intros Hc Hg. unfold manual_classify, guard. apply wp_bind. destruct (require_roles user _); [apply wp_ret|by apply wp_result].
  apply wp_bind. unfold validated_labels. apply wp_result; [|done]. intros v Hv.
  unfold ok_or at 1 in Hv. destruct (validate_labels _ _ _) as [v'|] eqn:Ev; [|done]. injection Hv as ->.
  apply wp_bind, wp_result; [|done]. intros _ _. apply wp_bind, wp_result; [|done]. intros [level host] _.
  apply wp_bind, wp_map_error. unfold evaluate_policy_decision. apply wp_bind, wp_fetch; [done|]. apply wp_result; [|done]. intros d _.
  apply wp_bind, wp_map_error. eapply wp_weaken; [by apply persist_done; [eapply validated_stable|apply calm_elapse|]| |done]. cbn beta.
  intros record w1 (Hc1 & Hg1 & Hk & H1 & H2 & Hrow). eapply wp_weaken; [by apply (settled_record (canonicalize_key policy key) key _ _ record w1 Hc1 Hg1 Hk H1 H2)| |done].
  cbn beta. intros record' w2 Hd. exists v. split; [done|exact Hd].
Qed.

Lemma update_done user key payload w :
  calm w -> good store w ->
  wp (update_classification store has_cache engine user key payload) (fun record w' => exists v,
    validate_labels store (uc_primary_category payload) (if is_empty (trim (uc_subcategory payload)) then None else Some (uc_subcategory payload)) = Some v /\
    manual_done (cat_id (vl_category v)) (sub_id (vl_subcategory v)) record w') (fun _ _ => True) w.
Proof.
  intros Hc Hg. unfold update_classification, guard. apply wp_bind. destruct (require_roles user _); [apply wp_ret|by apply wp_result].
  apply wp_bind. unfold validated_labels. apply wp_result; [|done]. intros v Hv.
  unfold ok_or at 1 in Hv. destruct (validate_labels _ _ _) as [v'|] eqn:Ev; [|done]. injection Hv as ->.
  apply wp_bind, wp_result; [|done]. intros [level host] _.
  apply wp_bind, wp_map_error. unfold evaluate_policy_decision. apply wp_bind, wp_fetch; [done|]. apply wp_result; [|done]. intros d _.
  apply wp_bind, wp_v4. destruct (fresh_v4 store (elapse w) Hg) as [Hg0 Hf].
  apply wp_bind, wp_map_error. eapply wp_weaken; [by apply upsert_fresh; [eapply validated_stable|apply calm_elapse| |]| |done].
  cbn beta. intros r w1 (Hc1 & Hg1 & Hr & Hsay). apply wp_bind, wp_map_error. eapply wp_weaken; [by eapply version_done| |done].
  cbn beta. intros [] w2 (Hc2 & Hg2 & Hrows). destruct Hsay as (H1 & H2 & H3).
  apply wp_bind. unfold clear_request. apply wp_dropped, wp_calm_update; [done|]. apply wp_bind. unfold invalidate_cache_key.
  eapply (wp_weaken _ (fun _ w' => good store w' /\ kt_rows (io_tables w') = kt_rows (io_tables w2) /\
    kt_requests (io_tables w') !! key = None /\ (has_cache = true -> InvalidateKey key ∈ io_trace w')) _ (fun _ _ => False)); [| |done].
  { destruct has_cache; wp_calm; (split_and!; [by apply good_pending|done|apply cleared|]); [|done]. intros _. cbn. apply elem_of_app. right. left. }
  cbn beta. intros [] w3 (Hg3 & Hrows3 & Hreq & Hin). apply wp_ret. exists v. split; [done|]. unfold manual_done. cbn -[as_read].
  split_and!; [done..|]. exists r. rewrite Hrows3, Hrows. split_and!; [done|by split_and!|done].
Qed.

(** ** What the engine makes of it *)

(** One of the three ways to classify by hand was answered. *)
Definition classified_by_hand (user : UserContext) (key : string) (w : World) (record : ClassificationMutationRecord) (w' : World) : Prop :=
  (exists payload, manual_unblock store policy has_cache user key payload w = (Ok record, w')) \/
  (exists payload, manual_classify store policy has_cache engine user key payload w = (Ok record, w')) \/
  (exists payload, update_classification store has_cache engine user key payload w = (Ok record, w')).

Lemma by_hand_done user key w record w' :
  calm w -> good store w -> classified_by_hand user key w record w' ->
  exists v cat sub, validate_labels store cat sub = Some v /\ manual_done (cat_id (vl_category v)) (sub_id (vl_subcategory v)) record w'.
Proof.
  intros Hc Hg [[payload H]|[[payload H]|[payload H]]];
    [pose proof (unblock_done user key payload w Hc Hg) as Hd|pose proof (classify_done user key payload w Hc Hg) as Hd
    |pose proof (update_done user key payload w Hc Hg) as Hd]; unfold wp in Hd; rewrite H in Hd; destruct Hd as (v & Hv & Hd); eauto.
Qed.

Context {TX : Type} `{R : CategoryResolver TX} `{J : SerdeJson}.

(** The request with the labels that were stored. *)
Definition with_labels (r : DecisionRequest) (record : ClassificationMutationRecord) : DecisionRequest :=
  {| dr_normalized_key := dr_normalized_key r; dr_entity_level := dr_entity_level r; dr_source_ip := dr_source_ip r; dr_user_id := dr_user_id r;
     dr_group_ids := dr_group_ids r; dr_category_hint := Some (mr_primary_category record); dr_subcategory_hint := Some (mr_subcategory record);
     dr_risk_hint := non_empty_string (mr_risk_level record); dr_confidence_hint := Some (mr_confidence record) |}.

Lemma non_empty_clean s : trim s = s -> s <> "" -> non_empty_string s = Some s.
Proof. intros Ht Hne. unfold non_empty_string. rewrite Ht. by destruct s. Qed.

(** C7: A classification made by hand decides.  When an administrator's classification of a key was
    answered (no statement failing), its pending request is gone, the cached decision of the key was
    invalidated, and the policy engine, asked about the key without hints and without an override for
    it, decides by the category, subcategory, risk level and confidence that were answered, whatever
    related keys are classified as. *)
Theorem manual_classification_decides user key w record w' (ew : @PolicyEngine.World TX J) r :
  good store w -> calm w -> classified_by_hand user key w record w' ->
  st_classification_pool ew.1 = true -> db_faults ew.2 = [] -> db_classifications ew.2 = engine_view <$> map_to_list (kt_rows (io_tables w')) ->
  dr_normalized_key r = mr_normalized_key record -> mr_normalized_key record <> "" ->
  dr_category_hint r = None -> dr_subcategory_hint r = None -> dr_risk_hint r = None -> dr_confidence_hint r = None ->
  (resolve_override_decision r ew).1 = None ->
  kt_requests (io_tables w') !! mr_normalized_key record = None /\
  (has_cache = true -> InvalidateKey (mr_normalized_key record) ∈ io_trace w') /\
  (handle_decision r ew).1 = Ok (sr_decision (simulate_with_source ew.1 (with_labels r record))).
Proof.
  intros Hg Hc Hhand Hpool Hf Hdb Hk Hne H1 H2 H3 H4 Ho.
  destruct (by_hand_done _ _ _ _ _ Hc Hg Hhand) as (v & cat & sub & Hv & Hg' & Hreq & Hin & Hcat & Hsub & row & Hrow & (Hs1 & Hs2 & Hs3) & Hconf).
  split_and!; [done|done|].
  assert (non_empty_string (mr_primary_category record) = Some (mr_primary_category record) /\
          non_empty_string (mr_subcategory record) = Some (mr_subcategory record)) as [Hn1 Hn2].
  { destruct (validate_labels_cases store Hstore cat sub) as (v' & Hv' & (i & j & Hi & Hj) & _). rewrite Hv in Hv'. injection Hv' as <-.
    destruct (Hclean (vl_category v) (vl_subcategory v)) as (Ha & Hb & Hd & He); [by eapply list_elem_of_lookup_2..|].
    rewrite Hcat, Hsub. split; by apply non_empty_clean. }
  pose proof (tg_row _ _ _ Hg' _ _ Hrow) as (_ & _ & Hact & _).
  unfold handle_decision. rewrite Hk. assert (is_empty (mr_normalized_key record) = false) as -> by by destruct (mr_normalized_key record).
  destruct (resolve_override_decision r ew) as [o ew1] eqn:Er. cbn in Ho. subst o.
  assert (ew1 = ew \/ ew1 = (ew.1, tick ew.2)) as Hew.
  { revert Er. unfold resolve_override_decision. rewrite Hpool. destruct (key_host _); [|by intros [= <-]; left]. pose proof (PolicyEngine.query_state override_rows ew) as Hq.
    destruct (PolicyEngine.query override_rows ew) as [o' w0]. cbn in Hq. intros [= _ <-]. right. done. }
  assert (st_classification_pool ew1.1 = true /\ db_faults ew1.2 = [] /\ db_classifications ew1.2 = db_classifications ew.2 /\ ew1.1 = ew.1) as (Hp1 & Hf1 & Hd1 & He1).
  { destruct Hew as [->| ->]; cbn; by rewrite ?Hf. }
  unfold hydrate_request_hints, has_all_hints. rewrite H1, Hp1. cbn [andb bool_decide].
  unfold PolicyEngine.query, select, stmt. rewrite Hf1. cbn [result_ok]. rewrite Hk.
  change (db_classifications (tick ew1.2)) with (db_classifications ew1.2). rewrite Hd1, Hdb, (best_of_key _ _ _ Hrow Hact).
  cbn [fst snd]. rewrite He1. do 4 f_equal. unfold apply_persisted_hints, with_labels. rewrite H1, H2, H3, H4. cbn [or_hint engine_view cl_primary_category
    cl_subcategory cl_risk_level cl_confidence fst snd mbind option_bind]. rewrite Hs1, Hs2, Hs3, <- Hcat, <- Hsub, Hn1, Hn2, <- Hconf. done.
Qed.

End Manual.

(** ** Classification from metadata *)

Section Metadata.
  Context `{E : Externals} `{X : Texts} `{T : JsonText} `{B : Base64} `{C : Collation}.
  Context (policy : CanonicalizationPolicy) (llm_providers : list string).

(** The job asks for the key to be classified from its name alone, by the chosen provider. *)
Definition asks_metadata (key host : string) (base_url provider : option string) (j : ClassificationJobPayload) : Prop :=
  cj_normalized_key j = key /\ cj_hostname j = host /\ cj_full_url j = default ("https://" +:+ host) base_url /\ cj_base_url j = base_url /\
  cj_requires_content j = false /\ cj_provider_override j = provider /\ cj_requeue_attempt j = 0 /\
  cj_content_excerpt j = None /\ cj_content_hash j = None /\ cj_content_version j = None /\
  classification_idempotency_key j = metadata_job_idempotency_key key provider.

Lemma built_asks level host key base_url provider w :
  exists j, build_metadata_classification_job key level host base_url provider w = (Ok j, took_uuid w) /\
    job_ok j /\ asks_metadata key host base_url provider j.
Proof. eexists. split; [done|]. split; [split; [by vm_compute|done]|]. by split_and!. Qed.

(** A request for classification from metadata reaches the worker.  For a key with a pending
    request and a provider the worker knows, when no statement fails, the request is answered; it
    queues one job, which the worker reads back as it was built, for the canonical key, without
    content and with the chosen provider and the idempotency key of the two; the pending request is
    marked as queued and nothing else of the tables changes. *)
Theorem metadata_job_delivered user key payload w pending level host :
  calm w -> require_roles user ROLE_POLICY_EDIT = true -> parse_normalized_key key <> None ->
  let applied := canonicalize_key policy key in
  let provider := normalize_provider_name (mm_provider_name payload) in
  parse_normalized_key applied = Some (level, host) -> kt_requests (io_tables w) !! applied = Some pending ->
  (forall p, provider = Some p -> p ∈ llm_providers) ->
  exists w' j event,
    metadata_classify policy true llm_providers user key payload w =
      (Ok {| ma_normalized_key := applied; ma_status := QUEUED_MANUAL_METADATA; ma_provider_name := provider |}, w') /\
    io_trace w' = io_trace w ++ [QueueJob (job_text j); PolicyEvent "pending.metadata_classify" (Some (uc_actor user)) (Some applied) event] /\
    job_from_str (job_text j) = Ok j /\ asks_metadata applied host (pq_base_url pending) provider j /\
    exists now, io_tables w' = mark_queued applied now (io_tables w).
Proof.
  intros Hc Hrole Hkey applied provider Happlied Hp Hprov.
  cut (exists a w', metadata_classify policy true llm_providers user key payload w = (Ok a, w') /\
    a = {| ma_normalized_key := applied; ma_status := QUEUED_MANUAL_METADATA; ma_provider_name := provider |} /\ exists j event,
    io_trace w' = io_trace w ++ [QueueJob (job_text j); PolicyEvent "pending.metadata_classify" (Some (uc_actor user)) (Some applied) event] /\
    job_from_str (job_text j) = Ok j /\ asks_metadata applied host (pq_base_url pending) provider j /\
    exists now, io_tables w' = mark_queued applied now (io_tables w)).
  { intros (a & w' & Hrun & -> & j & event & H). by exists w', j, event. }
  apply wp_answers. unfold metadata_classify, guard. rewrite Hrole. fold applied provider. rewrite Happlied.
  destruct (parse_normalized_key key); [|done]. cbn [ok_or].
  apply wp_bind, wp_ret, wp_bind, wp_result; [intros _ _|done]. apply wp_bind, wp_result; [|done]. intros _ [= <-].
  apply wp_bind.
  eapply (wp_weaken _ (fun _ w1 => calm w1 /\ io_trace w1 = io_trace w /\ io_tables w1 = io_tables w) _ (fun _ _ => False)); [| |done].
  { destruct provider as [name|]; [|by apply wp_ret]. unfold validate_llm_provider_name. wp_calm.
    { by split_and!; [apply calm_elapse|..]. } by apply bool_decide_eq_false in H; destruct H; apply Hprov. }
  cbn beta. intros [] w1 (Hc1 & Htr & Htab). unfold db. wp_calm. rewrite Htab, Hp. apply wp_result; [|done]. intros _ [= <-].
  destruct (built_asks level host applied (pq_base_url pending) provider (elapse w1)) as (j & Hj & Hok & Hasks).
  wp_calm. eapply wp_runs; [exact Hj|]. unfold queue_classification_job, db, log_policy_event. wp_calm.
  split. { by destruct Hasks as (_ & _ & _ & _ & _ & -> & _). }
  exists j. eexists. cbn [io_trace told with_tables elapse took_uuid]. rewrite Htr, <- app_assoc.
  split_and!; [done|by apply job_text_round_trip|done|]. eexists. cbn [io_tables told with_tables elapse took_uuid]. by rewrite Htab.
Qed.

(** After the worker has done such a job, another one for the key and the provider is dropped until
    the marker of the first expires. *)
Lemma metadata_repeat_ignored `{U : Unicode} `{N : HttpNet} page_contents c key host1 host2 base1 base2 provider j1 j2 w w1 :
  asks_metadata key host1 base1 provider j1 -> asks_metadata key host2 base2 provider j2 ->
  job_from_str (job_text j1) = Ok j1 -> job_from_str (job_text j2) = Ok j2 ->
  lw_faults w = [] -> process_job page_contents c (job_text j1) w = (Ok tt, w1) ->
  exists expires, forall w2, lw_faults w2 = [] -> lw_markers w2 = lw_markers w1 -> lw_now w2 + 1 < expires ->
    process_job page_contents c (job_text j2) w2 = (Ok tt, set_clock (lw_now w2 + 1) [] (lw_sent w2) (lw_trace w2) w2).
Proof.
  intros H1 H2 Hj1 Hj2 Hf Hrun. destruct (redelivery_ignored _ _ _ _ _ _ Hj1 Hf Hrun) as (expires & _ & _ & H). exists expires.
  intros w2. apply (H _ j2 w2 Hj2). destruct H1 as (_&_&_&_&_&_&_&_&_&_& ->), H2 as (_&_&_&_&_&_&_&_&_&_& ->). done.
Qed.

End Metadata.
