(* ===== verification/ClassificationDemo.v ===== *)
(** * Classifications: witnesses and examples

    The classification routes over the canonical taxonomy, with the policy engine of
    [PolicyEngine.v] answering them from the tables that both services share. *)

From S2P Require Import Prelude RustStr RustNum Numeric Types Http Json Normalizer Taxonomy CanonicalTaxonomy PolicyStore Evaluator PolicyEngine LlmAnswer LlmProvider LlmWorker LlmJobs LlmLifecycle Db Io Wp Texts Pagination AdminClassifications ClassificationTables ClassificationExchange ClassificationFlow Activation.

Local Open Scope Z_scope.

Module ClassificationDemo.

#[local] Existing Instance DbDemo.json.
#[local] Existing Instance TextsDemo.base64.
#[local] Existing Instance TextsDemo.texts.
#[local] Existing Instance JsonDemo.text.
#[local] Existing Instance PagesDemo.collation.
#[local] Existing Instance Demo.libs.
#[local] Existing Instance no_taxonomy.

Definition policy : CanonicalizationPolicy := from_tenant_exceptions [].
Definition editor : UserContext := {| uc_actor := "eve"; uc_roles := {[ "policy-editor" ]} |}.
Definition no_tables : ClassificationTables := {| kt_rows := ∅; kt_versions := []; kt_requests := ∅; kt_pages := [] |}.
Definition start (t : ClassificationTables) (faults : list bool) : World := mkIo 1000 None faults 1%nat [] t.

(** The policy engine over the rows of the classification tables; every category is enabled. *)
Definition open_evaluator : PolicyEvaluator unit :=
  {| ev_store := ev_store demo_evaluator; ev_source := ev_source demo_evaluator;
     ev_activation := {| act_id := 1%nat; act_version := "v1"; act_updated_at := 0; act_category_states := ∅; act_subcategory_states := ∅;
                         act_default_enabled := true |} |}.
Definition engine_world (overrides : list OverrideRow) (t : ClassificationTables) : @PolicyEngine.World unit DbDemo.json :=
  ({| st_evaluator := open_evaluator; st_audit_logger := true; st_classification_pool := true |},
   {| db_policies := []; db_policy_rules := []; db_policy_versions := []; db_audit := []; db_profiles := []; db_entries := [];
      db_classifications := engine_view <$> map_to_list (kt_rows t); db_overrides := overrides; db_clock := 0; db_next_uuid := 1%nat;
      db_faults := [] |}).
Definition engine (overrides : list OverrideRow) (t : ClassificationTables) (r : DecisionRequest) : result string PolicyDecision :=
  map_err he_message (handle_decision r (engine_world overrides t)).1.
Definition down (_ : ClassificationTables) (_ : DecisionRequest) : result string PolicyDecision := Err "connection refused".

Lemma demo_clean_ids : clean_ids demo_store.
Proof.
  intros c s Hc Hs.
  assert (Forall (fun c => Forall (fun s => trim (cat_id c) = cat_id c /\ cat_id c <> "" /\ trim (sub_id s) = sub_id s /\ sub_id s <> "")
    (cat_subcategories c)) (tx_categories (ts_taxonomy demo_store))) as H.
  { apply (bool_decide_unpack _). vm_compute. exact I. }
  rewrite Forall_forall in H. specialize (H c Hc). rewrite Forall_forall in H. by apply H.
Qed.

Lemma no_tables_good store next : tables_good store next no_tables.
Proof. split; unfold no_tables; cbn [kt_rows kt_versions]; try (by intros ? []%elem_of_nil); [by intros ??|by intros ????|constructor|by intros ??]. Qed.
Lemma start_good faults : good demo_store (start no_tables faults).
Proof. apply no_tables_good. Qed.

Definition social (reason : option string) : ManualClassifyRequest :=
  {| mc_primary_category := "social-media"; mc_subcategory := "social-networks"; mc_reason := reason |}.
Definition classified (overrides : list OverrideRow) (w : World) : result HttpError ClassificationMutationRecord * World :=
  manual_classify demo_store policy true (engine overrides) editor "domain:example.com" (social None) w.
Definition sample : World := (classified [] (start no_tables [])).2.

Lemma sample_good : good demo_store sample.
Proof.
  pose proof (classify_done demo_store policy true (engine []) demo_store_wf demo_clean_ids editor "domain:example.com" (social None)
    (start no_tables []) eq_refl (start_good [])) as H.
  unfold sample, classified. unfold wp in H. destruct (manual_classify _ _ _ _ _ _ _ _) as [[r|e] w] eqn:E.
  - destruct H as (v & _ & Hg & _). exact Hg.
  - vm_compute in E. discriminate E.
Qed.

(** ** Witnesses *)

Definition stamp (_ : Z) : string := "now".
Abbreviation serve := (serve_classifications demo_store policy true true stamp to_ascii_lowercase (engine []) ["local"]).
Definition session : list (UserContext * ClassificationRequest) :=
  [(editor, ManualClassify "domain:example.com" (social None)); (editor, UpsertPending "domain:a.org" {| up_status := None; up_base_url := None |});
   (editor, MetadataClassify "domain:a.org" {| mm_provider_name := None; mm_reason := None |}); (editor, DeleteClassification "domain:example.com")].

Lemma classification_tables_invariant_witness : good demo_store (serve session (start no_tables [false; true])).
Proof.
  apply (classification_tables_invariant demo_store policy true true stamp to_ascii_lowercase (engine []) ["local"]
    demo_store_wf demo_clean_ids session (start no_tables [false; true])). apply start_good.
Defined.

Definition entry (key category subcategory : string) (risk : option string) : ClassificationExchangeEntry :=
  {| ce_normalized_key := key; ce_primary_category := category; ce_subcategory := subcategory; ce_risk_level := risk;
     ce_recommended_action := Some "Block"; ce_confidence := Some default_confidence; ce_status := None; ce_flags := None |}.
Definition bundle (entries : list ClassificationExchangeEntry) : ClassificationExchangeBundle :=
  {| cb_schema_version := "od-classification-bundle.v1"; cb_exported_at := 0; cb_taxonomy_version := "v"; cb_entries := entries |}.
Definition import (entries : list ClassificationExchangeEntry) (mode : ClassificationImportMode) (recompute dry_run : bool)
    : ClassificationImportRequest :=
  {| im_bundle := bundle entries; im_mode := mode; im_recompute_policy_fields := recompute; im_dry_run := dry_run |}.
Definition two_entries : list ClassificationExchangeEntry :=
  [entry "subdomain:www.a.org" "social-media" "social-networks" (Some "HIGH"); entry "domain:b.org" "social-media" "social-networks" None].
Abbreviation import_into := (import_bundle demo_store policy true stamp (engine []) editor).

(** One key is new, one entry has no risk level and the old row goes. *)
Lemma dry_run_predicts_witness :
  exists r' w', import_into (import two_entries Replace false true) sample = (Ok r', w') /\
    import_counts r' = (2, 1, 0, 0, 1, 1)%nat /\ io_tables w' = io_tables sample.
Proof.
  destruct (import_into (import two_entries Replace false false) sample) as [[r|e] w1] eqn:E; [|vm_compute in E; discriminate E].
  destruct (dry_run_predicts demo_store policy true stamp (engine []) editor (import two_entries Replace false false) sample r w1)
    as (r' & w' & H & Hcounts & Ht & _); [reflexivity|exact E|].
  exists r', w'. split; [exact H|]. split; [|exact Ht]. rewrite Hcounts. vm_compute in E. injection E as <- _. reflexivity.
Defined.

Lemma sample_importable kv : kv ∈ map_to_list (domain_rows (io_tables sample)) -> importable demo_store policy kv.
Proof.
  intros Hkv. assert (kt_rows (io_tables sample) !! kv.1 = Some kv.2) as Hrow.
  { destruct kv as [k r]. apply elem_of_map_to_list, map_lookup_filter_Some in Hkv. apply Hkv. }
  destruct (tg_row _ _ _ sample_good _ _ Hrow) as (Hs & Ha & _ & _). 
  assert (is_Some (parse_normalized_key kv.1) /\ canonicalize_key policy kv.1 = kv.1 /\ kr_risk_level kv.2 ∈ RISK_LEVELS /\
    survives (kr_confidence kv.2) = true) as (H1 & H2 & H3 & H4); [|by split_and!].
  assert (Forall (fun kv => is_Some (parse_normalized_key kv.1) /\ canonicalize_key policy kv.1 = kv.1 /\ kr_risk_level kv.2 ∈ RISK_LEVELS /\
    survives (kr_confidence kv.2) = true) (map_to_list (domain_rows (io_tables sample)))) as Hall
    by (apply (bool_decide_unpack _); vm_compute; exact I).
  rewrite Forall_forall in Hall. by apply Hall.
Qed.

(** The engine answers with a confidence of a half. *)
Definition halves (kv : string * ClassificationRecord) : bool :=
  match engine [] (io_tables (start no_tables [])) (asked_again kv) with
  | Ok d => bool_decide (f64_to_numeric (f32_as_f64 (confidence_of d)) = Some 5000) && f64_close (numeric_to_f64 5000) (f32_as_f64 (confidence_of d))
  | Err _ => false
  end.
Lemma bundle_round_trip_witness :
  exists b w1' r w' rd wd row, export_bundle demo_store to_ascii_lowercase editor None sample = (Ok b, w1') /\
    import_into (import_request b Replace false) (start no_tables []) = (Ok r, w') /\ ir_invalid r = 0%nat /\
    same_labels (kt_rows (io_tables sample) !! "domain:example.com") (kt_rows (io_tables w') !! "domain:example.com") /\
    import_into (import_request b Replace true) (start no_tables []) = (Ok rd, wd) /\ ir_invalid rd = 0%nat /\
    kt_rows (io_tables wd) !! "domain:example.com" = Some row /\ kr_primary_category row = "social-media" /\ kr_recommended_action row = "Allow".
Proof.
  destruct (export_bundle demo_store to_ascii_lowercase editor None sample) as [[b|e] w1'] eqn:E; [|vm_compute in E; discriminate E].
  destruct (bundle_round_trip demo_store policy true stamp to_ascii_lowercase (engine []) demo_store_wf demo_clean_ids editor editor sample b w1'
    (start no_tables [])) as [(r & w' & H & Hinv & Hrows) [Hagain _]].
  - apply sample_importable.
  - exact E.
  - vm_compute. reflexivity.
  - apply start_good.
  - reflexivity.
  - intros v []%elem_of_nil.
  - destruct Hagain as (rd & wd & Hd & Hinvd & Hrowsd).
    { intros kv d Hkv Hd. exists 5000.
      assert (forallb halves (map_to_list (domain_rows (io_tables sample))) = true) as Hall by (vm_compute; reflexivity).
      rewrite forallb_forall in Hall. apply list_elem_of_In in Hkv. specialize (Hall kv Hkv). unfold halves in Hall. rewrite Hd in Hall.
      apply andb_true_iff in Hall as [H1%bool_decide_eq_true H2]. by split. }
    specialize (Hrowsd "domain:example.com" eq_refl).
    assert (exists r1 d, kt_rows (io_tables sample) !! "domain:example.com" = Some r1 /\
      engine [] (io_tables (start no_tables [])) (asked_again ("domain:example.com", r1)) = Ok d /\
      kr_primary_category r1 = "social-media" /\ pd_action d = Allow) as (r1 & d & Hr1 & Hed & Hcat & Hact).
    { eexists _, _. split; [vm_compute; reflexivity|]. split; [vm_compute; reflexivity|]. split; reflexivity. }
    rewrite Hr1, Hed in Hrowsd. destruct Hrowsd as (row & Hrow & Hrc & _ & _ & Hra & _).
    exists b, w1', r, w', rd, wd, row. split; [reflexivity|]. split; [exact H|]. split; [exact Hinv|].
    split; [apply (Hrows "domain:example.com"); vm_compute; reflexivity|].
    split; [exact Hd|]. split; [rewrite Hinvd; vm_compute; reflexivity|]. split; [exact Hrow|].
    split; [rewrite Hrc; exact Hcat|rewrite Hra, Hact; reflexivity].
Defined.

Definition ask (key : string) : DecisionRequest := decision_payload key "domain" None None None None.
Lemma manual_classification_decides_witness :
  exists record, (classified [] (start no_tables [])).1 = Ok record /\
    (handle_decision (ask "domain:example.com") (engine_world [] (io_tables sample))).1 =
      Ok (sr_decision (simulate_with_source (engine_world [] (io_tables sample)).1 (with_labels (ask "domain:example.com") record))).
Proof.
  destruct (classified [] (start no_tables [])) as [[record|e] w'] eqn:E; [|vm_compute in E; discriminate E].
  exists record. split; [reflexivity|].
  assert (io_tables sample = io_tables w') as Ht by (unfold sample; rewrite E; reflexivity).
  apply (manual_classification_decides demo_store policy true (engine []) demo_store_wf demo_clean_ids editor "domain:example.com"
    (start no_tables []) record w' (engine_world [] (io_tables sample)) (ask "domain:example.com")).
  - apply start_good.
  - reflexivity.
  - right. left. exists (social None). exact E.
  - reflexivity.
  - reflexivity.
  - rewrite <- Ht. reflexivity.
  - vm_compute in E. injection E as <- _. reflexivity.
  - vm_compute in E. injection E as <- _. discriminate.
  - reflexivity.
  - reflexivity.
  - reflexivity.
  - reflexivity.
  - vm_compute. reflexivity.
Defined.

Definition waiting : PendingRequest :=
  {| pq_status := "waiting_content"; pq_base_url := None; pq_last_error := None; pq_requested_at := 0; pq_updated_at := 0 |}.
Definition with_waiting : ClassificationTables :=
  {| kt_rows := ∅; kt_versions := []; kt_requests := {[ "domain:a.org" := waiting ]}; kt_pages := [] |}.
Definition by_local : MetadataClassifyRequest := {| mm_provider_name := Some " local "; mm_reason := None |}.
Lemma metadata_job_delivered_witness :
  exists j, QueueJob (job_text j) ∈ io_trace (metadata_classify policy true ["local"] editor "subdomain:www.a.org" by_local (start with_waiting [])).2 /\
    job_from_str (job_text j) = Ok j /\
    asks_metadata "domain:a.org" "a.org" None (Some "local") j.
Proof.
  destruct (metadata_job_delivered policy ["local"] editor "subdomain:www.a.org" by_local (start with_waiting []) waiting "domain" "a.org")
    as (w' & j & event & Hrun & Htr & H1 & H2 & _).
  - reflexivity.
  - vm_compute. reflexivity.
  - vm_compute. discriminate.
  - vm_compute. reflexivity.
  - vm_compute. reflexivity.
  - intros p H. vm_compute in H. injection H as <-. left.
  - exists j. rewrite Hrun. cbn [snd]. rewrite Htr. split; [left|]. split; [exact H1|exact H2].
Defined.


(** ** Behaviour that may surprise *)

(** Replacing with a bundle none of whose entries is accepted deletes every domain classification; here
    the entries were refused because the policy engine could not be reached. *)
Example refused_replace_empties :
  let '(r, w') := import_bundle demo_store policy true stamp down editor
    (import [entry "domain:example.com" "social-media" "social-networks" None] Replace true false) sample in
  (exists a, r = Ok a /\ (ir_imported a, ir_invalid a, ir_replaced_deleted a) = (0, 1, 1)%nat) /\
  size (kt_rows (io_tables sample)) = 1%nat /\ size (kt_rows (io_tables w')) = 0%nat.
Proof. vm_compute. split_and!; [by eexists|done|done]. Qed.

(** Under an override, the policy engine answers with the override: its action and its verdict are
    stored as those of the classification, and stay when the override is gone. *)
Example override_stored_as_classification :
  let fields (r : ClassificationRecord) := (kr_primary_category r, kr_risk_level r, kr_recommended_action r, kr_confidence r) in
  let stored overrides := fields <$> kt_rows (io_tables (classified overrides (start no_tables [])).2) !! "domain:example.com" in
  stored [] = Some ("social-media", "medium", "Allow", 5000) /\
  stored [override_row "example.com" "block"] = Some ("social-media", "low", "Block", 10000).
Proof. vm_compute. split; reflexivity. Qed.

(** A classification by hand keeps the risk level and the confidence of the row it replaces: the
    policy engine fills in the hints the admin API leaves out from that row. *)
Definition risky : ClassificationTables :=
  set_rows {[ "domain:example.com" := new_row 0%nat "v" "llm" "malware" "phishing" "critical" "Block" 9900 JNull 0 ]} no_tables.
Example old_risk_kept :
  let '(r, w') := classified [] (start risky []) in
  (exists record, r = Ok record /\ mr_primary_category record = "social-media" /\ mr_risk_level record = "critical") /\
  (fun r => (kr_risk_level r, kr_confidence r)) <$> kt_rows (io_tables w') !! "domain:example.com" = Some ("critical", 9900).
Proof. vm_compute. split; [by eexists|reflexivity]. Qed.

(** The same key, given to two routes: the edit is stored under the key as it was given, the
    other routes store it under the canonical key. *)
Example edit_keeps_key :
  let edit := update_classification demo_store true (engine []) editor "subdomain:www.example.com"
    {| uc_primary_category := "social-media"; uc_subcategory := "social-networks"; uc_reason := None |} (start no_tables []) in
  let manual := manual_classify demo_store policy true (engine []) editor "subdomain:www.example.com" (social None) (start no_tables []) in
  (map_to_list (kt_rows (io_tables edit.2))).*1 = ["subdomain:www.example.com"] /\ (map_to_list (kt_rows (io_tables manual.2))).*1 = ["domain:example.com"].
Proof. vm_compute. split; reflexivity. Qed.

(** Unblocking checks neither the key nor the risk level; the row is exported, and the import of the
    exported bundle refuses it. *)
Definition unblock : ManualUnblockRequest :=
  {| mu_action := Allow; mu_primary_category := "social-media"; mu_subcategory := "social-networks"; mu_risk_level := "none";
     mu_confidence := default_confidence; mu_reason := None |}.
Example unblocked_row_not_importable :
  let '(_, w1) := manual_unblock demo_store policy true editor "domain:example.com" unblock (start no_tables []) in
  match (export_bundle demo_store to_ascii_lowercase editor None w1).1 with
  | Ok b => match import_into (import_request b Merge false) (start no_tables []) with
            | (Ok r, _) => length (cb_entries b) = 1%nat /\ (ir_imported r, ir_invalid r) = (0, 1)%nat
            | _ => False
            end
  | Err _ => False
  end.
Proof. vm_compute. split; reflexivity. Qed.
Example unblock_any_key :
  let '(r, w1) := manual_unblock demo_store policy true editor "nonsense" unblock (start no_tables []) in
  (exists record, r = Ok record) /\ (map_to_list (kt_rows (io_tables w1))).*1 = ["nonsense"].
Proof. vm_compute. split; [by eexists|reflexivity]. Qed.

End ClassificationDemo.
