(* ===== verification/IcapParse.v ===== *)
(** * Reading ICAP requests

    [services/icap-adaptor/src/icap.rs]: [IcapRequest::parse], the encapsulated HTTP request and
    the host it names.  The message is the text of one read; [Url::parse] is the parameter
    [Url_parse] of [Externals], and [str::to_lowercase] the one of [Unicode].  An error is the
    text of the [anyhow] error. *)

From S2P Require Import Prelude RustStr Types.

Record IcapRequest := {
  iq_method : string;
  iq_service : string;
  iq_headers : gmap string string;
  iq_http_method : option string;
  iq_http_path : option string;
  iq_http_scheme : option string;
  iq_http_host : option string;
  iq_trace_id : option string
}.

Section Icap.
  Context `{U : Unicode} `{X : Externals}.

Definition clean_host_value (value : string) : string :=
  let trimmed := trim value in
  let unbracketed :=
    match trimmed with
    | String "[" rest => before_char "]" rest
    | _ => None
    end in
  match unbracketed with
  | Some inner => to_lowercase inner
  | None =>
      match rsplit_once ":" trimmed with
      | Some (host_part, port_part) =>
          if str_forall is_ascii_digit port_part then to_lowercase host_part else to_lowercase trimmed
      | None => to_lowercase trimmed
      end
  end.

(** [for line in icap_lines { .. headers.insert(..) }]. *)
Definition add_header (headers : gmap string string) (line : string) : gmap string string :=
  if is_empty (trim line) then headers
  else
    match split_once ":" line with
    | Some (name, value) => <[to_ascii_lowercase (trim name) := trim value]> headers
    | None => headers
    end.

(** The loop that looks for the [Host] header. *)
Fixpoint find_host_header (ls : list string) : option string :=
  match ls with
  | [] => None
  | line :: ls' =>
      if is_empty (trim line) then None
      else
        match split_once ":" line with
        | Some (name, value) =>
            if eq_ignore_ascii_case name "host" then Some (trim value) else find_host_header ls'
        | None => find_host_header ls'
        end
  end.

(** Scheme, host and path the request line gives. *)
Definition request_target (method target : string) : result string (option string * string * string) :=
  if eq_ignore_ascii_case method "CONNECT" then
    Ok (Some "https", clean_host_value target, "/")
  else if starts_with "http://" target || starts_with "https://" target then
    url ← ok_or (Url_parse target) "failed to parse absolute URL in HTTP request";
    host ← ok_or (u_host_str url) "absolute request missing host";
    Ok (Some (u_scheme url), to_lowercase host, u_path url)
  else Ok (None, "", target).

Definition parse_http_block (block : string)
    : result string (string * string * option string * string) :=
  request_line ← ok_or (head (lines block)) "encapsulated HTTP request missing start line";
  let parts := split_whitespace request_line in
  method ← ok_or (parts !! 0) "http request missing method";
  target ← ok_or (parts !! 1) "http request missing target";
  '(http_scheme, http_host, http_path) ← request_target method target;
  let http_host :=
    match find_host_header (tail (lines block)) with
    | Some host_value =>
        if is_empty http_host || eq_ignore_ascii_case method "CONNECT"
        then clean_host_value host_value else http_host
    | None => http_host
    end in
  if is_empty http_host then Err "HTTP host header missing"
  else Ok (method, http_path, http_scheme, http_host).

Definition parse (raw : string) : result string IcapRequest :=
  let sections := split_str (CRLF +:+ CRLF) raw in
  icap_head ← ok_or (sections !! 0) "icap message missing header";
  let http_block := default "" (sections !! 1) in
  start_line ← ok_or (head (lines icap_head)) "icap request missing start line";
  let start_parts := split_whitespace start_line in
  method ← ok_or (start_parts !! 0) "icap request missing method";
  service ← ok_or (start_parts !! 1) "icap request missing service";
  let headers := foldl add_header ∅ (tail (lines icap_head)) in
  let trace_id := headers !! "x-trace-id" in
  if eq_ignore_ascii_case method "OPTIONS" then
    Ok {| iq_method := method; iq_service := service; iq_headers := headers; iq_http_method := None;
          iq_http_path := None; iq_http_scheme := None; iq_http_host := None; iq_trace_id := trace_id |}
  else
    '(http_method, http_path, http_scheme, http_host) ← parse_http_block http_block;
    Ok {| iq_method := method; iq_service := service; iq_headers := headers;
          iq_http_method := Some http_method; iq_http_path := Some http_path;
          iq_http_scheme := http_scheme; iq_http_host := Some http_host; iq_trace_id := trace_id |}.

End Icap.

(** ** The message a proxy sends, and reading it back *)

(** A non-empty line without line breaks. *)
Definition wire_char (c : ascii) : bool := negb (is_char CR c) && negb (is_char LF c).
Definition wire_line (l : string) : Prop := l <> "" /\ str_forall wire_char l = true.
Definition CC : string := CRLF +:+ CRLF.

Lemma wire_char_spec c : wire_char c = true <-> c <> CR /\ c <> LF.
Proof. unfold wire_char, is_char. rewrite andb_true_iff, !negb_true_iff, !bool_decide_eq_false. done. Qed.

Lemma split_once_miss pat c s :
  strip_prefix pat (String c s) = None ->
  split_once pat (String c s) = (fun lr => (String c lr.1, lr.2)) <$> split_once pat s.
Proof. intros H. cbn [split_once]. by rewrite H. Qed.

Lemma split_once_skip l t :
  str_forall wire_char l = true ->
  split_once CC (l +:+ t) = (fun lr => (l +:+ lr.1, lr.2)) <$> split_once CC t.
Proof.
  induction l as [|c l IH]; cbn [str_forall].
  { intros _. change ("" +:+ t) with t. by destruct (split_once CC t) as [[]|]. }
  intros [[Hc _]%wire_char_spec Hl]%andb_true_iff.
  change (String c l +:+ t) with (String c (l +:+ t)). rewrite split_once_miss.
  - rewrite (IH Hl). by destruct (split_once CC t) as [[]|].
  - change CC with (String CR (String LF CRLF)). cbn [strip_prefix]. by rewrite decide_False.
Qed.

Lemma split_once_crlf l t :
  wire_line l ->
  split_once CC (CRLF +:+ l +:+ t) = (fun lr => (CRLF +:+ lr.1, lr.2)) <$> split_once CC (l +:+ t).
Proof.
  intros [Hne Hl]. destruct l as [|c l]; [done|]. cbn [str_forall] in Hl.
  apply andb_true_iff in Hl as [[Hc _]%wire_char_spec _].
  change (CRLF +:+ String c l +:+ t) with (String CR (String LF (String c (l +:+ t)))).
  change (String c l +:+ t) with (String c (l +:+ t)).
  rewrite split_once_miss.
  - rewrite split_once_miss by done. by destruct (split_once CC (String c (l +:+ t))) as [[]|].
  - change CC with (String CR (String LF (String CR (String LF "")))). cbn [strip_prefix].
    rewrite !(decide_True (P := _ = _)) by done. by rewrite decide_False.
Qed.

Lemma split_once_section ls r :
  ls <> [] -> Forall wire_line ls ->
  split_once CC (join CRLF ls +:+ CC +:+ r) = Some (join CRLF ls, r).
Proof.
  intros Hne Hls. induction Hls as [|l ls Hl Hls IH]; [done|]. destruct ls as [|l' ls].
  - cbn [join]. rewrite split_once_skip by apply Hl.
    assert (split_once CC (CC +:+ r) = Some ("", r)) as -> by (by destruct r).
    cbn [fmap option_fmap option_map fst snd]. by rewrite str_app_nil_r.
  - rewrite join_cons, !str_app_assoc, split_once_skip by apply Hl.
    specialize (IH ltac:(done)). apply Forall_cons in Hls as [Hl' _].
    assert (exists t, join CRLF (l' :: ls) +:+ CC +:+ r = l' +:+ t) as [t Ht].
    { destruct ls as [|l'' ls]; [by eauto|]. rewrite join_cons, !str_app_assoc. eauto. }
    rewrite Ht in *. rewrite split_once_crlf, IH by done. done.
Qed.

(** The two header sections of a message, whatever follows them. *)
Lemma split_sections hs bs body :
  hs <> [] -> Forall wire_line hs -> bs <> [] -> Forall wire_line bs ->
  exists rest, split_str CC (join CRLF hs +:+ CC +:+ join CRLF bs +:+ CC +:+ body) =
               join CRLF hs :: join CRLF bs :: rest.
Proof.
  intros Hh Hhs Hb Hbs. unfold split_str.
  set (n := str_len _). assert (exists m, n = S (S m)) as [m ->].
  { subst n. rewrite !str_app_length. cbn [str_len CC CRLF String.append]. eexists. rewrite Nat.add_comm. cbn. reflexivity. }
  cbn [split_str_fuel]. rewrite split_once_section by done.
  rewrite split_once_section by done. eauto.
Qed.

Lemma strip_cr_snoc l : strip_cr (l +:+ String CR "") = l.
Proof.
  induction l as [|c l IH]; [done|]. cbn. cbn in IH. rewrite IH.
  destruct l; done.
Qed.

Lemma wire_line_clean l : wire_line l -> clean LF l.
Proof.
  intros [_ H]. induction l as [|c l IH]; [done|]. cbn [str_forall] in *.
  apply andb_true_iff in H as [[_ Hc]%wire_char_spec H]. apply andb_true_iff. split; [|by apply IH].
  unfold is_char. by rewrite bool_decide_eq_false_2.
Qed.

Lemma lines_join ls : ls <> [] -> Forall wire_line ls -> lines (join CRLF ls) = ls.
Proof.
  intros Hne Hls. unfold lines. induction Hls as [|l ls Hl Hls IH]; [done|].
  destruct ls as [|l' ls].
  - cbn [join]. rewrite split_char_id by by apply wire_line_clean.
    cbn. destruct l; [by destruct Hl|done].
  - rewrite join_cons. specialize (IH ltac:(done)).
    change (CRLF +:+ ?t) with (String CR "" +:+ String LF t). rewrite <- str_app_assoc.
    rewrite length_split_char_app.
    2: { rewrite str_forall_app. by rewrite wire_line_clean. }
    destruct (split_char LF (join CRLF (l' :: ls))) as [|p ps] eqn:E; [by apply split_on_ne in E|].
    transitivity (strip_cr (l +:+ String CR "") :: lines_of (p :: ps)); [done|].
    by rewrite strip_cr_snoc, IH.
Qed.

(** ** Words and header fields *)

Lemma take_word_graphic w t :
  graphic w = true -> take_word (w +:+ " " +:+ t) = (w, " " +:+ t).
Proof.
  intros Hw. induction w as [|c w IH]; [done|].
  cbn [str_forall] in Hw. apply andb_true_iff in Hw as [Hc Hw].
  change (String c w +:+ " " +:+ t) with (String c (w +:+ " " +:+ t)).
  cbn [take_word]. by rewrite strip_ws_graphic, IH.
Qed.

Lemma take_word_last w : graphic w = true -> take_word w = (w, "").
Proof.
  intros Hw. induction w as [|c w IH]; [done|].
  cbn [str_forall] in Hw. apply andb_true_iff in Hw as [Hc Hw].
  cbn [take_word]. by rewrite strip_ws_graphic, IH.
Qed.

Lemma trim_start_space s : trim_start (" " +:+ s) = trim_start s.
Proof. unfold trim_start. done. Qed.

Lemma trim_space s : trim (" " +:+ s) = trim s.
Proof. unfold trim. by rewrite trim_start_space. Qed.

Lemma words_cons n w t :
  graphic w = true -> w <> "" -> words_fuel (S n) (w +:+ " " +:+ t) = w :: words_fuel n t.
Proof.
  intros Hw Hne. cbn [words_fuel].
  destruct w as [|c w]; [done|]. pose proof Hw as [Hc _]%andb_true_iff.
  change (String c w +:+ " " +:+ t) with (String c (w +:+ " " +:+ t)).
  rewrite trim_start_graphic by done.
  change (String c (w +:+ " " +:+ t)) with (String c w +:+ " " +:+ t).
  rewrite take_word_graphic by done. cbn [fst snd]. f_equal.
  destruct n; [done|]. cbn [words_fuel]. by rewrite trim_start_space.
Qed.

(** A start line: three words. *)
Lemma start_line_words a b c :
  graphic a = true -> a <> "" -> graphic b = true -> b <> "" ->
  exists rest, split_whitespace (a +:+ " " +:+ b +:+ " " +:+ c) = a :: b :: rest.
Proof.
  intros Ha Hane Hb Hbne. unfold split_whitespace.
  assert (exists n, str_len (a +:+ " " +:+ b +:+ " " +:+ c) = S n) as [n ->].
  { destruct a; [done|]. cbn. eauto. }
  rewrite words_cons by done. rewrite words_cons by done. eauto.
Qed.

Lemma graphic_wire s : graphic s = true -> str_forall wire_char s = true.
Proof.
  induction s as [|c s IH]; [done|]. cbn [str_forall]. intros [Hc Hs]%andb_true_iff.
  rewrite (IH Hs), andb_true_r. apply wire_char_spec. split; intros ->; by vm_compute in Hc.
Qed.

Lemma start_line_wire a b c :
  graphic a = true -> a <> "" -> graphic b = true -> graphic c = true ->
  wire_line (a +:+ " " +:+ b +:+ " " +:+ c).
Proof.
  intros Ha Hane Hb Hc. split; [by destruct a|].
  by rewrite !str_forall_app, (graphic_wire a), (graphic_wire b), (graphic_wire c).
Qed.

(** A field [name: value]; the value is trimmed text without line breaks. *)
Definition header_line (nv : string * string) : string := nv.1 +:+ ": " +:+ nv.2.
Definition wire_field (nv : string * string) : Prop :=
  nv.1 <> "" /\ graphic nv.1 = true /\ clean ":" nv.1 /\
  trim nv.2 = nv.2 /\ str_forall wire_char nv.2 = true.

Lemma header_line_wire nv : wire_field nv -> wire_line (header_line nv).
Proof.
  intros (Hne & Hg & _ & _ & Hv). unfold header_line. split; [by destruct nv.1|].
  by rewrite !str_forall_app, (graphic_wire nv.1), Hv.
Qed.

Lemma split_once_colon name value :
  clean ":" name -> split_once ":" (name +:+ ": " +:+ value) = Some (name, " " +:+ value).
Proof.
  induction name as [|c name IH]; intros Hn; [done|].
  cbn [str_forall] in Hn. apply andb_true_iff in Hn as [Hc Hn].
  change (String c name +:+ ": " +:+ value) with (String c (name +:+ ": " +:+ value)).
  rewrite split_once_miss; [by rewrite IH|]. cbn [strip_prefix].
  apply negb_true_iff, bool_decide_eq_false in Hc. by rewrite decide_False.
Qed.

Lemma header_line_nonempty nv : wire_field nv -> is_empty (trim (header_line nv)) = false.
Proof.
  intros (Hne & Hg & _). unfold header_line. destruct nv as [[|c n] v]; [done|]. cbn [fst snd] in *.
  apply andb_true_iff in Hg as [Hc _]. by apply trim_nonempty.
Qed.

Lemma add_header_line m nv :
  wire_field nv -> add_header m (header_line nv) = <[to_ascii_lowercase nv.1 := nv.2]> m.
Proof.
  intros Hw. pose proof Hw as (Hne & Hg & Hc & Hv & _). unfold add_header.
  rewrite header_line_nonempty by done. unfold header_line.
  by rewrite split_once_colon, trim_space, Hv, trim_graphic.
Qed.

(** The map the headers of a message make, later fields overriding earlier ones. *)
Definition header_map (fields : list (string * string)) : gmap string string :=
  foldl (fun m nv => <[to_ascii_lowercase nv.1 := nv.2]> m) ∅ fields.

Lemma headers_parse fields : Forall wire_field fields ->
  foldl add_header ∅ (header_line <$> fields) = header_map fields.
Proof.
  unfold header_map. generalize (∅ : gmap string string) as m. induction fields as [|nv l IH]; [done|].
  intros m [Hnv Hl]%Forall_cons. cbn. by rewrite add_header_line, IH.
Qed.

(** ** Authorities *)

(** [host[:port]] or [[ip][:port]], as a URL or a [Host] field writes it. *)
Inductive HostForm := HostName (name : string) | HostIp6 (ip : string).
Record Authority := { au_host : HostForm; au_port : option string }.

Definition authority_text (a : Authority) : string :=
  match au_host a with HostName n => n | HostIp6 ip => "[" +:+ ip +:+ "]" end +:+
  match au_port a with Some p => ":" +:+ p | None => "" end.
Definition authority_host (a : Authority) : string :=
  match au_host a with HostName n | HostIp6 n => to_ascii_lowercase n end.
Definition wire_authority (a : Authority) : Prop :=
  match au_host a with
  | HostName n => n <> "" /\ graphic n = true /\ clean ":" n /\ starts_with "[" n = false
  | HostIp6 ip => ip <> "" /\ graphic ip = true /\ clean "]" ip
  end /\
  match au_port a with Some p => str_forall is_ascii_digit p = true | None => True end.

Lemma rsplit_once_clean c s : clean c s -> rsplit_once c s = None.
Proof.
  induction s as [|a s IH]; [done|]. cbn [str_forall]. intros [Ha Hs]%andb_true_iff.
  cbn [rsplit_once]. rewrite (IH Hs). apply negb_true_iff, bool_decide_eq_false in Ha.
  by rewrite decide_False.
Qed.

Lemma rsplit_once_at c l r : clean c r -> rsplit_once c (l +:+ String c r) = Some (l, r).
Proof.
  intros Hr. induction l as [|a l IH].
  - change ("" +:+ String c r) with (String c r). cbn [rsplit_once].
    by rewrite (rsplit_once_clean _ _ Hr), decide_True.
  - change (String a l +:+ String c r) with (String a (l +:+ String c r)). cbn [rsplit_once]. by rewrite IH.
Qed.

Lemma before_char_at c l r : clean c l -> before_char c (l +:+ String c r) = Some l.
Proof.
  induction l as [|a l IH]; intros Hl.
  - change ("" +:+ String c r) with (String c r). cbn. by rewrite decide_True.
  - cbn [str_forall] in Hl. apply andb_true_iff in Hl as [Ha Hl].
    change (String a l +:+ String c r) with (String a (l +:+ String c r)). cbn [before_char].
    rewrite IH by done. apply negb_true_iff, bool_decide_eq_false in Ha. by rewrite decide_False.
Qed.

Lemma str_forall_impl (P Q : ascii -> bool) s :
  (forall c, P c = true -> Q c = true) -> str_forall P s = true -> str_forall Q s = true.
Proof.
  intros H. induction s as [|c s IH]; [done|]. cbn [str_forall].
  intros [Hc Hs]%andb_true_iff. by rewrite H, IH.
Qed.

Lemma digits_graphic p : str_forall is_ascii_digit p = true -> graphic p = true.
Proof. apply str_forall_impl. intros c. destruct c as [[] [] [] [] [] [] [] []]; done. Qed.
Lemma digits_clean p : str_forall is_ascii_digit p = true -> clean ":" p.
Proof. apply str_forall_impl. intros c. destruct c as [[] [] [] [] [] [] [] []]; done. Qed.

Lemma authority_graphic a : wire_authority a -> graphic (authority_text a) = true /\ authority_text a <> "".
Proof.
  destruct a as [[n|ip] po]; intros [Ha Hp]; cbn [au_host au_port] in *; unfold authority_text; cbn [au_host au_port];
    destruct Ha as (Hne & Hg & _).
  - split; [|by destruct n]. rewrite str_forall_app, Hg. destruct po; [|done].
    rewrite str_forall_app. by rewrite (digits_graphic _ Hp).
  - split; [|done]. rewrite !str_forall_app, Hg. destruct po; [|done].
    rewrite str_forall_app. by rewrite (digits_graphic _ Hp).
Qed.

Lemma authority_host_ne a : wire_authority a -> is_empty (authority_host a) = false.
Proof. destruct a as [[n|n] po]; intros [(Hne & _) _]; by destruct n. Qed.

Section Messages.
  Context `{U : Unicode} `{X : Externals}.

Lemma graphic_lower n : graphic n = true -> to_lowercase n = to_ascii_lowercase n.
Proof.
  intros H. apply to_lowercase_ascii. revert H. apply str_forall_impl.
  intros c. destruct c as [[] [] [] [] [] [] [] []]; done.
Qed.

(** The port and the brackets go, and the host is in lower case. *)
Lemma clean_host_value_authority a : wire_authority a -> clean_host_value (authority_text a) = authority_host a.
Proof.
  intros Ha. destruct (authority_graphic a Ha) as [Hg Hne]. unfold clean_host_value.
  rewrite (trim_graphic _ Hg). destruct a as [[n|ip] po], Ha as [Hh Hp]; cbn [au_host au_port] in *;
    unfold authority_text, authority_host; cbn [au_host au_port].
  - destruct Hh as (Hnn & Hgn & Hc & Hb).
    transitivity (match rsplit_once ":" (n +:+ match po with Some p => ":" +:+ p | None => "" end) with
      | Some (host_part, port_part) =>
          if str_forall is_ascii_digit port_part then to_lowercase host_part
          else to_lowercase (n +:+ match po with Some p => ":" +:+ p | None => "" end)
      | None => to_lowercase (n +:+ match po with Some p => ":" +:+ p | None => "" end)
      end).
    { destruct n as [|c n]; [done|].
      change (String c n +:+ ?t) with (String c (n +:+ t)).
      destruct c as [[] [] [] [] [] [] [] []]; try done. }
    destruct po as [p|].
    + change (":" +:+ p) with (String ":" p). rewrite rsplit_once_at by by apply digits_clean.
      by rewrite Hp, graphic_lower.
    + rewrite str_app_nil_r, rsplit_once_clean by done. by apply graphic_lower.
  - destruct Hh as (Hnn & Hgn & Hc).
    change (("[" +:+ ip +:+ "]") +:+ ?t) with (String "[" ((ip +:+ "]") +:+ t)).
    rewrite str_app_assoc. change ("]" +:+ ?t) with (String "]" t).
    rewrite before_char_at by done. by apply graphic_lower.
Qed.

(** ** The theorem *)

(** The three forms a proxy's request line takes, and a header section in which [Host] fields may
    stand anywhere, more than once and in any spelling. *)
Inductive Target := OriginForm (path : string) | AbsoluteForm (url : string) | AuthorityForm (a : Authority).
Inductive Field := HostField (name : string) (a : Authority) | OtherField (nv : string * string).
Record HttpMessage := { hm_method : string; hm_target : Target; hm_fields : list Field }.

Definition target_text (t : Target) : string :=
  match t with OriginForm s | AbsoluteForm s => s | AuthorityForm a => authority_text a end.
Definition field_pair (f : Field) : string * string :=
  match f with HostField name a => (name, authority_text a) | OtherField nv => nv end.
Definition http_lines (m : HttpMessage) : list string :=
  (hm_method m +:+ " " +:+ target_text (hm_target m) +:+ " " +:+ "HTTP/1.1") ::
  (header_line ∘ field_pair <$> hm_fields m).

(** A [REQMOD] message around an HTTP request and its body. *)
Definition reqmod_message (service : string) (fields : list (string * string)) (m : HttpMessage)
    (body : string) : string :=
  join CRLF (("REQMOD" +:+ " " +:+ service +:+ " " +:+ "ICAP/1.0") :: (header_line <$> fields)) +:+ CC +:+
  join CRLF (http_lines m) +:+ CC +:+ body.

(** The grammar: an absolute target is an [http] or [https] URL, whose host, when it has one, is
    not empty; [CONNECT] goes with an authority and no other method does. *)
Definition absolute (s : string) : bool := starts_with "http://" s || starts_with "https://" s.
Definition wire_target (method : string) (t : Target) : Prop :=
  graphic method = true /\ method <> "" /\
  match t with
  | OriginForm s => eq_ignore_ascii_case method "CONNECT" = false /\ graphic s = true /\ s <> "" /\ absolute s = false
  | AbsoluteForm s =>
      eq_ignore_ascii_case method "CONNECT" = false /\ graphic s = true /\ absolute s = true /\
      forall u h, Url_parse s = Some u -> u_host_str u = Some h -> to_lowercase h <> ""
  | AuthorityForm a => eq_ignore_ascii_case method "CONNECT" = true /\ wire_authority a
  end.
Definition wire_http_field (f : Field) : Prop :=
  wire_field (field_pair f) /\
  match f with
  | HostField name a => eq_ignore_ascii_case name "host" = true /\ wire_authority a
  | OtherField nv => eq_ignore_ascii_case nv.1 "host" = false
  end.

(** What the message asks for: scheme, host and path. *)
Fixpoint first_host (fields : list Field) : option Authority :=
  match fields with
  | [] => None
  | HostField _ a :: _ => Some a
  | OtherField _ :: fields' => first_host fields'
  end.
Definition asked (m : HttpMessage) : result string (option string * string * string) :=
  match hm_target m with
  | OriginForm path =>
      match first_host (hm_fields m) with
      | Some a => Ok (None, authority_host a, path)
      | None => Err "HTTP host header missing"
      end
  | AbsoluteForm url =>
      match Url_parse url with
      | None => Err "failed to parse absolute URL in HTTP request"
      | Some u =>
          match u_host_str u with
          | None => Err "absolute request missing host"
          | Some h => Ok (Some (u_scheme u), to_lowercase h, u_path u)
          end
      end
  | AuthorityForm a => Ok (Some "https", authority_host (default a (first_host (hm_fields m))), "/")
  end.

(** The [Host] field is found wherever it stands. *)
Lemma find_host_header_fields fields :
  Forall wire_http_field fields ->
  find_host_header (header_line ∘ field_pair <$> fields) = authority_text <$> first_host fields.
Proof.
  induction 1 as [|f fields [Hw Hf] _ IH]; [done|]. rewrite fmap_cons. cbn [find_host_header compose].
  rewrite header_line_nonempty by done. unfold header_line at 1.
  rewrite split_once_colon by apply Hw. destruct f as [name a|nv]; cbn [field_pair fst snd first_host].
  - destruct Hf as [-> Ha]. rewrite trim_space, trim_graphic; [done|by apply authority_graphic..].
  - rewrite Hf. exact IH.
Qed.

Lemma target_graphic method t :
  wire_target method t -> graphic (target_text t) = true /\ target_text t <> "".
Proof.
  intros (_ & _ & Ht). destruct t as [s|s|a]; cbn [target_text].
  - destruct Ht as (_ & ? & ? & _). auto.
  - destruct Ht as (_ & Hg & Ha & _). split; [exact Hg|]. intros ->. discriminate Ha.
  - destruct Ht as [_ Ha]. by apply authority_graphic.
Qed.

Lemma http_lines_wire m :
  wire_target (hm_method m) (hm_target m) -> Forall wire_http_field (hm_fields m) ->
  Forall wire_line (http_lines m).
Proof.
  intros Ht Hf. pose proof (target_graphic _ _ Ht) as [Hg _]. destruct Ht as (Hm & Hmne & _).
  constructor; [by apply start_line_wire|]. apply Forall_fmap. eapply Forall_impl; [done|].
  intros f [Hw _]. by apply header_line_wire.
Qed.

Lemma parse_http_block_message m :
  wire_target (hm_method m) (hm_target m) -> Forall wire_http_field (hm_fields m) ->
  parse_http_block (join CRLF (http_lines m)) =
  '(scheme, host, path) ← asked m; Ok (hm_method m, path, scheme, host).
Proof.
  intros Ht Hf. pose proof (target_graphic _ _ Ht) as [Hg Hgne]. unfold parse_http_block.
  rewrite lines_join; [|done|by apply http_lines_wire]. unfold http_lines.
  cbn [head ok_or tail mbind result_bind]. rewrite find_host_header_fields by done.
  destruct Ht as (Hm & Hmne & Ht).
  destruct (start_line_words (hm_method m) (target_text (hm_target m)) "HTTP/1.1") as [rest Hw]; [done..|].
  rewrite Hw. cbn [lookup list_lookup ok_or mbind result_bind].
  assert (forall a, first_host (hm_fields m) = Some a -> wire_authority a) as Hfirst.
  { intros a. clear -Hf. induction Hf as [|[]? [_ Hf]]; [done|..|done]. intros [= <-]. apply Hf. }
  unfold request_target, asked. destruct (hm_target m) as [s|s|a]; cbn [target_text] in *.
  - destruct Ht as (-> & _ & _ & Ha). unfold absolute in Ha. rewrite Ha. cbn [mbind result_bind is_empty orb].
    destruct (first_host (hm_fields m)) as [a|]; cbn [fmap option_fmap option_map]; [|done].
    rewrite clean_host_value_authority, authority_host_ne by auto. done.
  - destruct Ht as (-> & _ & Ha & Hu). unfold absolute in Ha. rewrite Ha.
    destruct (Url_parse s) as [u|]; [|done]. cbn [ok_or mbind result_bind].
    destruct (u_host_str u) as [h|] eqn:Eh; [|done]. cbn [ok_or mbind result_bind].
    specialize (Hu u h eq_refl Eh).
    assert (is_empty (to_lowercase h) = false) as He by (by destruct (to_lowercase h)).
    rewrite He. cbn [orb]. destruct (first_host (hm_fields m)); cbn [fmap option_fmap option_map]; by rewrite He.
  - destruct Ht as (-> & Ha). cbn [mbind result_bind]. rewrite orb_true_r.
    destruct (first_host (hm_fields m)) as [a'|]; cbn [fmap option_fmap option_map default];
      rewrite clean_host_value_authority, authority_host_ne by auto; done.
Qed.

(** C20: Round trip of the wire format.  A [REQMOD] message as a proxy writes it (start line, any
    header fields, an encapsulated HTTP request, any body) is read back: the service, the header
    map (names in lower case, the last field of a name winning), the trace id, and of the HTTP
    request the method, path, scheme and host.  The host is in lower case and without port or
    brackets; for an absolute target it is the URL's, for a path the one of the first [Host] field,
    which may stand anywhere among the fields in any spelling.  For a [CONNECT] the first [Host]
    field goes before the authority the tunnel is opened to, which counts only without one.  The
    only errors are a path without a [Host] field and a URL that does not parse or has no host. *)
Theorem parse_reqmod_message service fields m body :
  graphic service = true -> service <> "" -> Forall wire_field fields ->
  wire_target (hm_method m) (hm_target m) -> Forall wire_http_field (hm_fields m) ->
  parse (reqmod_message service fields m body) =
  ('(scheme, host, path) ← asked m;
   Ok {| iq_method := "REQMOD"; iq_service := service; iq_headers := header_map fields;
         iq_http_method := Some (hm_method m); iq_http_path := Some path; iq_http_scheme := scheme;
         iq_http_host := Some host; iq_trace_id := header_map fields !! "x-trace-id" |}).
Proof.
  intros Hs Hsne Hf Ht Hh. unfold parse, reqmod_message.
  set (start := "REQMOD" +:+ " " +:+ service +:+ " " +:+ "ICAP/1.0").
  assert (Forall wire_line (start :: (header_line <$> fields))) as Hlines.
  { constructor; [by apply start_line_wire|]. apply Forall_fmap. eapply Forall_impl; [done|].
    intros nv. apply header_line_wire. }
  fold CC. destruct (split_sections (start :: (header_line <$> fields)) (http_lines m) body) as [rest Hsec];
    [done|done|done|by apply http_lines_wire|].
  rewrite Hsec. cbn [lookup list_lookup ok_or mbind result_bind default].
  rewrite lines_join by done. cbn [head tail ok_or mbind result_bind]. unfold start.
  destruct (start_line_words "REQMOD" service "ICAP/1.0") as [words ->]; [done..|].
  cbn [lookup list_lookup ok_or mbind result_bind].
  replace (eq_ignore_ascii_case "REQMOD" "OPTIONS") with false by done.
  rewrite headers_parse by done. unfold default, from_option, id.
  rewrite parse_http_block_message by done.
  by destruct (asked m) as [[[scheme host] path]|].
Qed.

End Messages.
(** The examples of the source's test module. *)
Module IcapExamples.
Import Demo.

Definition sample : string :=
  join CRLF ["REQMOD icap://icap.service/req ICAP/1.0"; "Host: icap.service"; "X-Trace-Id: abc123"; "";
             "GET http://Example.com/path HTTP/1.1"; "Host: Example.com"; ""; ""].

Example parses_basic_icap_request :
  exists r, parse sample = Ok r /\ iq_method r = "REQMOD" /\ iq_http_method r = Some "GET" /\
    iq_http_host r = Some "example.com" /\ iq_http_path r = Some "/path" /\
    iq_http_scheme r = Some "http" /\ iq_trace_id r = Some "abc123".
Proof. eexists. split; [vm_compute; reflexivity|]. repeat split. Qed.

Example parses_connect_with_ipv6_host :
  clean_host_value "[2001:DB8::1]:443" = "2001:db8::1".
Proof. vm_compute. reflexivity. Qed.

Example missing_host_errors :
  parse (join CRLF ["REQMOD icap://icap/req ICAP/1.0"; "Host: icap"; ""; "GET /foo HTTP/1.1"; ""; ""]) =
  Err "HTTP host header missing".
Proof. vm_compute. reflexivity. Qed.

(** The [Host] field is the second one, and a second [Host] field and a body follow. *)
Definition origin_message : HttpMessage :=
  {| hm_method := "POST"; hm_target := OriginForm "/foo/bar";
     hm_fields := [OtherField ("Accept", "*/*");
                   HostField "hoSt" {| au_host := HostName "Sub.Example.com"; au_port := Some "8080" |};
                   HostField "Host" {| au_host := HostName "other.example"; au_port := None |}] |}.

Lemma parse_reqmod_message_witness :
  exists r, parse (reqmod_message "icap://icap/req" [("X-User", "alice@example.com"); ("X-Trace-Id", "t 1")]
                     origin_message ("a=1" +:+ CC +:+ "Host: evil")) = Ok r /\
    iq_http_host r = Some "sub.example.com" /\ iq_http_path r = Some "/foo/bar" /\
    iq_headers r !! "x-user" = Some "alice@example.com" /\ iq_trace_id r = Some "t 1".
Proof.
  rewrite (parse_reqmod_message "icap://icap/req" [("X-User", "alice@example.com"); ("X-Trace-Id", "t 1")]
             origin_message);
    try (repeat constructor; vm_compute; try done; fail); try done.
  eexists. split; [vm_compute; reflexivity|]. repeat split.
Defined.

(** For a [CONNECT] the tunnel's authority plays no part once there is a [Host] header. *)
Example connect_host_header_wins :
  iq_http_host <$> parse (reqmod_message "icap://icap/req" []
    {| hm_method := "CONNECT";
       hm_target := AuthorityForm {| au_host := HostName "blocked.example"; au_port := Some "443" |};
       hm_fields := [HostField "Host" {| au_host := HostName "allowed.example"; au_port := None |}] |} "") =
  Ok (Some "allowed.example").
Proof. vm_compute. reflexivity. Qed.

End IcapExamples.
