(* ===== verification/Cache.v ===== *)
(** * The decision cache and its invalidation

    [services/icap-adaptor/src/cache.rs], the adaptor's cache of decisions (a map in memory in
    front of an optional Redis), and [services/admin-api/src/cache.rs], which deletes entries in
    Redis and publishes the events the adaptor applies to its memory.

    Redis is a keyspace with expiry times.  How it walks the keyspace ([SCAN]) and matches glob
    patterns is the parameter [RedisServer], with the documented guarantees in [RedisLaws]; JSON
    is the parameter [CacheJson].  Times are milliseconds.  Any command may fail: [cw_faults] is
    the script of which do. *)

From S2P Require Import Prelude RustStr Types.
From Stdlib Require Import SpecFloat.

(** ** Events and their JSON *)

(** What the admin API serialises ([CacheEvent]). *)
Inductive CacheEvent :=
  | EvOverride (scope_type scope_value : string)
  | EvPolicy.

(** What the adaptor deserialises ([CacheInvalidationEvent]). *)
Inductive CacheInvalidationEvent :=
  | Override (scope_type scope_value : string)
  | Review_ (normalized_key : string)
  | Policy.

Definition as_received (e : CacheEvent) : CacheInvalidationEvent :=
  match e with
  | EvOverride t v => Override t v
  | EvPolicy => Policy
  end.

(** JSON has no text for an infinite or undefined number. *)
Definition finite_decision (d : PolicyDecision) : Prop :=
  match pd_verdict d with
  | Some v => match cv_confidence v with S754_infinity _ | S754_nan => False | _ => True end
  | None => True
  end.

Class CacheJson := {
  decision_to_string : PolicyDecision -> string;
  decision_from_str : string -> option PolicyDecision;
  event_to_string : CacheEvent -> string;
  event_from_str : string -> option CacheInvalidationEvent;
  decision_round_trip d : finite_decision d -> decision_from_str (decision_to_string d) = Some d;
  event_round_trip e : event_from_str (event_to_string e) = Some (as_received e)
}.

(** ** Redis *)

Record RedisEntry := { re_payload : string; re_expires_at : Z }.
Abbreviation Keyspace := (gmap string RedisEntry).

Class RedisServer := {
  (** one [SCAN cursor MATCH pattern COUNT 100]: the next cursor and some keys *)
  scan : N -> string -> Keyspace -> N * list string;
  glob_match : string -> string -> bool
}.

(** Text without the special characters of a glob. *)
Definition plain_char (c : ascii) : bool := negb (bool_decide (c ∈ ["*"; "?"; "["; "]"; byte 92]%char)).
Abbreviation glob_plain := (str_forall plain_char).

(** The pages of an iteration over the keyspaces [sts], one per page, from a cursor. *)
Fixpoint pages `{RedisServer} (pattern : string) (cursor : N) (sts : list Keyspace) : list (N * list string) :=
  match sts with
  | [] => []
  | st :: sts' => let page := scan cursor pattern st in page :: pages pattern page.1 sts'
  end.

(** A full iteration: it starts at cursor 0 and only the last page answers cursor 0. *)
Definition full_iteration (ps : list (N * list string)) : Prop :=
  exists init last, ps = init ++ [last] /\ last.1 = 0%N /\ Forall (fun p => p.1 <> 0%N) init.

Class RedisLaws (V : RedisServer) := {
  (** [*] matches any text and a plain character itself *)
  glob_star a b k : glob_plain a = true -> glob_plain b = true ->
    glob_match (a +:+ "*" +:+ b) k = true <-> exists m, k = a +:+ m +:+ b;
  (** a page only has keys that match *)
  scan_match c p st k : k ∈ (scan c p st).2 -> glob_match p k = true;
  (** a full iteration returns every matching key that was there from its start to its end *)
  scan_complete p sts k :
    full_iteration (pages p 0 sts) -> glob_match p k = true -> Forall (fun st => is_Some (st !! k)) sts ->
    exists page, page ∈ pages p 0 sts /\ k ∈ page.2;
  (** an iteration over a keyspace that does not grow ends *)
  scan_ends p (f : nat -> Keyspace) :
    (forall n, dom (f (S n)) ⊆ dom (f n)) -> exists n, full_iteration (pages p 0 (f <$> seq 0 n))
}.

Record CacheEntry := { ce_decision : PolicyDecision; ce_expires_at : Z }.

Record CacheWorld := {
  cw_memory : gmap string CacheEntry;
  cw_redis : Keyspace;
  cw_faults : list bool;
  cw_now : Z
}.

Definition set_memory (m : gmap string CacheEntry) (w : CacheWorld) : CacheWorld :=
  {| cw_memory := m; cw_redis := cw_redis w; cw_faults := cw_faults w; cw_now := cw_now w |}.
Definition set_redis (r : Keyspace) (w : CacheWorld) : CacheWorld :=
  {| cw_memory := cw_memory w; cw_redis := r; cw_faults := cw_faults w; cw_now := cw_now w |}.
(** [sleep(Duration::from_millis(ms))]. *)
Definition sleep (ms : Z) (w : CacheWorld) : CacheWorld :=
  {| cw_memory := cw_memory w; cw_redis := cw_redis w; cw_faults := cw_faults w; cw_now := cw_now w + ms |}.
(** The connection and the command, which may fail. *)
Definition command (w : CacheWorld) : bool * CacheWorld :=
  (match cw_faults w with true :: _ => false | _ => true end,
   {| cw_memory := cw_memory w; cw_redis := cw_redis w; cw_faults := tail (cw_faults w);
      cw_now := cw_now w |}).

(** [GET]: an entry is there before its time to live is over. *)
Definition redis_value (w : CacheWorld) (key : string) : option string :=
  entry ← cw_redis w !! key;
  if decide (cw_now w < re_expires_at entry)%Z then Some (re_payload entry) else None.

(** ** The adaptor's client *)

Section Client.
  Context `{Jc : CacheJson}.
  (** [self.redis.is_some()]. *)
  Context (has_redis : bool).

Definition memory_get (key : string) (w : CacheWorld) : option PolicyDecision :=
  entry ← cw_memory w !! key;
  if decide (cw_now w <= ce_expires_at entry)%Z then Some (ce_decision entry) else None.

Definition memory_set (key : string) (decision : PolicyDecision) (ttl : Z) (w : CacheWorld) : CacheWorld :=
  set_memory (<[key := {| ce_decision := decision; ce_expires_at := cw_now w + ttl |}]> (cw_memory w)) w.

(** [for attempt in 0..3 { .. sleep(50 * (attempt + 1)) }]: up to three tries of a command. *)
Fixpoint attempts {A} (left : nat) (attempt : Z) (run : CacheWorld -> A * CacheWorld) (w : CacheWorld)
    : option A * CacheWorld :=
  match left with
  | O => (None, w)
  | S left' =>
      match command w with
      | (true, w') => let '(a, w'') := run w' in (Some a, w'')
      | (false, w') => attempts left' (attempt + 1) run (sleep (50 * (attempt + 1)) w')
      end
  end.

Definition redis_get (key : string) (w : CacheWorld) : option string * CacheWorld :=
  if has_redis then
    let '(r, w') := attempts 3 0 (fun w => (redis_value w key, w)) w in (mjoin r, w')
  else (None, w).

Definition redis_set (key payload : string) (ttl_secs : Z) (w : CacheWorld) : CacheWorld :=
  if has_redis then
    (attempts 3 0 (fun w =>
       (tt, set_redis (<[key := {| re_payload := payload;
                                   re_expires_at := cw_now w + 1000 * ttl_secs |}]> (cw_redis w)) w)) w).2
  else w.

Definition get (key : string) (w : CacheWorld) : option PolicyDecision * CacheWorld :=
  match memory_get key w with
  | Some decision => (Some decision, w)
  | None => let '(payload, w') := redis_get key w in (payload ≫= decision_from_str, w')
  end.

Definition set (key : string) (decision : PolicyDecision) (ttl : Z) (w : CacheWorld) : CacheWorld :=
  let w' := memory_set key decision ttl w in
  if has_redis then redis_set key (decision_to_string decision) (Z.max 1 (ttl / 1000)) w' else w'.

(** ** Invalidation in memory *)

Definition key_matches_domain_scope (key scope_value : string) (wildcard : bool) : bool :=
  match strip_prefix "domain:" key with
  | Some host => bool_decide (host = scope_value)
  | None =>
      match strip_prefix "subdomain:" key with
      | Some host =>
          let suffix := "." +:+ scope_value in
          if wildcard then bool_decide (host = scope_value) || ends_with suffix host
          else if decide (host = scope_value) then true else ends_with suffix host
      | None => false
      end
  end.

Definition invalidate_scope (scope_type scope_value : string) (memory : gmap string CacheEntry)
    : gmap string CacheEntry :=
  if decide (scope_type <> "domain") then ∅
  else
    let '(wildcard, value) :=
      match strip_prefix "*." scope_value with
      | Some rest => (true, rest)
      | None => (false, scope_value)
      end in
    filter (fun kv => key_matches_domain_scope kv.1 value wildcard = false) memory.

(** [apply_invalidation]: a payload that does not parse is an error and changes nothing. *)
Definition apply_invalidation (payload : string) (memory : gmap string CacheEntry)
    : result string unit * gmap string CacheEntry :=
  match event_from_str payload with
  | None => (Err "invalid cache invalidation payload", memory)
  | Some (Override scope_type scope_value) => (Ok tt, invalidate_scope scope_type scope_value memory)
  | Some (Review_ normalized_key) => (Ok tt, delete normalized_key memory)
  | Some Policy => (Ok tt, ∅)
  end.

(** The listener applies the payloads in order. *)
Definition consume_messages (payloads : list string) (memory : gmap string CacheEntry)
    : gmap string CacheEntry :=
  foldl (fun m payload => (apply_invalidation payload m).2) memory payloads.

End Client.

(** ** The admin API's invalidator *)

Section Invalidator.
  Context `{Jc : CacheJson} `{V : RedisServer}.

(** A computation on the world that may fail with [?], publishing events. *)
Definition InvM (A : Type) : Type := CacheWorld -> result string A * CacheWorld.
Global Instance invm_ret : MRet InvM := fun A a w => (Ok a, w).
Global Instance invm_bind : MBind InvM := fun A B f m w =>
  match m w with
  | (Ok a, w') => f a w'
  | (Err e, w') => (Err e, w')
  end.

Definition redis_command {A} (run : Keyspace -> A * Keyspace) : InvM A := fun w =>
  match command w with
  | (true, w') => let '(a, r) := run (cw_redis w') in (Ok a, set_redis r w')
  | (false, w') => (Err "redis error", w')
  end.

(** [DEL keys]. *)
Definition del (keys : list string) (r : Keyspace) : Keyspace := foldr delete r keys.

Definition delete_key (key : string) : InvM unit :=
  if is_empty (trim key) then mret tt else redis_command (fun r => (tt, del [key] r)).

(** The [SCAN]/[DEL] loop; [None] when it needs more than [fuel] pages. *)
Fixpoint scan_loop (fuel : nat) (pattern : string) (cursor : N) (w : CacheWorld)
    : option (result string unit * CacheWorld) :=
  match fuel with
  | O => None
  | S fuel' =>
      match redis_command (fun r => (scan cursor pattern r, r)) w with
      | (Err e, w') => Some (Err e, w')
      | (Ok (next_cursor, keys), w') =>
          match (if decide (keys = []) then (Ok tt, w')
                 else redis_command (fun r => (tt, del keys r)) w') with
          | (Err e, w'') => Some (Err ("failed to delete cache keys: " +:+ e), w'')
          | (Ok _, w'') =>
              if decide (next_cursor = 0%N) then Some (Ok tt, w'')
              else scan_loop fuel' pattern next_cursor w''
          end
      end
  end.
Definition delete_pattern (fuel : nat) (pattern : string) : InvM unit := fun w =>
  if is_empty (trim pattern) then (Ok tt, w)
  else default (Err "out of fuel", w) (scan_loop fuel pattern 0 w).

Definition delete_domain_scope (fuel : nat) (scope_value : string) : InvM unit :=
  let domain_value := default scope_value (strip_prefix "*." scope_value) in
  _ ← delete_key ("domain:" +:+ domain_value);
  _ ← delete_key ("subdomain:" +:+ domain_value);
  delete_pattern fuel ("subdomain:*." +:+ domain_value).

Definition flush_domain_entries (fuel : nat) : InvM unit :=
  _ ← delete_pattern fuel "domain:*";
  delete_pattern fuel "subdomain:*".

Definition delete_scope (fuel : nat) (scope_type scope_value : string) : InvM unit :=
  if decide (scope_type = "domain") then delete_domain_scope fuel scope_value
  else flush_domain_entries fuel.

(** [PUBLISH]: the payload that goes out on the channel. *)
Definition publish (event : CacheEvent) : InvM string := fun w =>
  match redis_command (fun r => (tt, r)) w with
  | (Ok _, w') => (Ok (event_to_string event), w')
  | (Err e, w') => (Err ("failed to publish cache invalidation event: " +:+ e), w')
  end.

Definition invalidate_override (fuel : nat) (scope_type scope_value : string) : InvM string :=
  _ ← delete_scope fuel scope_type scope_value;
  publish (EvOverride scope_type scope_value).

Definition invalidate_policy (fuel : nat) : InvM string :=
  _ ← flush_domain_entries fuel;
  publish EvPolicy.

Definition invalidate_key (key : string) : InvM unit := delete_key key.

End Invalidator.

(** ** The life of an entry *)

Section ClientProps.
  Context `{Jc : CacheJson} (has_redis : bool).

(** The retries of a command take at most 50 + 100 ms before it runs. *)
Lemma attempts_spec {A} (run : CacheWorld -> A * CacheWorld) w :
  let '(r, w') := attempts 3 0 run w in
  exists w1, cw_memory w1 = cw_memory w /\ cw_redis w1 = cw_redis w /\ (cw_now w <= cw_now w1 <= cw_now w + 300)%Z /\
    match r with
    | Some a => (a, w') = run w1 /\ (cw_now w1 <= cw_now w + 150)%Z
    | None => w' = w1
    end.
Proof.
  cbn [attempts]. unfold command, sleep.
  destruct (cw_faults w) as [|[] [|[] [|[] fs]]]; cbn;
    try match goal with |- context [run ?x] => destruct (run x) as [a w'] eqn:E end;
    eexists; (split; [|split; [|split; [|first [split; [symmetry; exact E|]|reflexivity]]]]); cbn;
    done || lia.
Qed.

Lemma redis_set_spec key payload ttl w :
  let w' := redis_set has_redis key payload ttl w in
  cw_memory w' = cw_memory w /\
  (cw_redis w' = cw_redis w \/
   exists t, (cw_now w <= t <= cw_now w + 150)%Z /\
     cw_redis w' = <[key := {| re_payload := payload; re_expires_at := t + 1000 * ttl |}]> (cw_redis w)).
Proof.
  unfold redis_set. destruct has_redis; [|by auto]. cbv zeta.
  set (run := fun w => _). pose proof (attempts_spec run w) as H.
  destruct (attempts 3 0 run w) as [[[]|] w'];
    destruct H as (w1 & Hm & Hr & Ht & H); [destruct H as [[= ->] H]|subst w1]; cbn; rewrite Hm; [|by auto].
  split; [done|]. right. exists (cw_now w1). rewrite Hr. split; [lia|done].
Qed.

(** Nothing is served for a key that memory has only expired and Redis only expired. *)
Lemma get_expired key w :
  memory_get key w = None ->
  (forall e, cw_redis w !! key = Some e -> (re_expires_at e <= cw_now w)%Z) ->
  (get has_redis key w).1 = None.
Proof.
  intros Hm Hr. unfold get. rewrite Hm. unfold redis_get. destruct has_redis; [|done].
  set (run := fun w => _). pose proof (attempts_spec run w) as H.
  destruct (attempts 3 0 run w) as [[r|] w'];
    destruct H as (w1 & _ & Hr1 & Ht & H); [destruct H as [[= -> ->] H]|subst w1]; [|done].
  cbn. unfold redis_value. rewrite Hr1. destruct (cw_redis w !! key) as [e|]; [|done].
  specialize (Hr e eq_refl). cbn. rewrite decide_False by lia. done.
Qed.

(** The life of a cached decision.  Whatever Redis commands fail, a decision that was stored
    is served until its time to live is over, and, when Redis held nothing older for the key, it
    is not served any more once the time to live (at least a second, the shortest Redis can keep)
    and the 150 ms its writes may be delayed have passed. *)
Theorem cache_entry_lifetime key d ttl w w2 :
  (0 <= ttl)%Z ->
  cw_memory w2 = cw_memory (set has_redis key d ttl w) ->
  cw_redis w2 = cw_redis (set has_redis key d ttl w) ->
  ((cw_now w2 <= cw_now w + ttl)%Z -> get has_redis key w2 = (Some d, w2)) /\
  (cw_redis w !! key = None -> (cw_now w + Z.max ttl 1000 + 150 < cw_now w2)%Z ->
   (get has_redis key w2).1 = None).
Proof.
  intros Httl Hm Hr. set (entry := {| ce_decision := d; ce_expires_at := cw_now w + ttl |}).
  set (w1 := memory_set key d ttl w).
  pose proof (redis_set_spec key (decision_to_string d) (Z.max 1 (ttl / 1000)) w1) as (Hm1 & Hr1).
  assert (set has_redis key d ttl w = redis_set has_redis key (decision_to_string d) (Z.max 1 (ttl / 1000)) w1) as Hset.
  { unfold set, redis_set. by destruct has_redis. }
  assert (cw_memory w2 !! key = Some entry) as Hkey.
  { rewrite Hm, Hset, Hm1. apply lookup_insert_eq. }
  split.
  - intros Hnow. unfold get, memory_get. rewrite Hkey. cbn. by rewrite decide_True.
  - intros Hnone Hnow. apply get_expired.
    + unfold memory_get. rewrite Hkey. cbn. rewrite decide_False by lia. done.
    + intros e. rewrite Hr, Hset. destruct Hr1 as [->|(t & Ht & ->)]; [by change (cw_redis w1) with (cw_redis w); rewrite Hnone|].
      rewrite lookup_insert_eq. intros [= <-]. cbn in *.
      assert (1000 * (ttl / 1000) <= ttl)%Z by (apply Z.mul_div_le; lia). lia.
Qed.

End ClientProps.

(** ** Both caches forget the same keys *)

(** The keys an override of the domain [value] reaches: the domain itself and every subdomain. *)
Definition in_scope (value key : string) : Prop :=
  key = "domain:" +:+ value \/ key = "subdomain:" +:+ value \/
  exists m, key = "subdomain:" +:+ m +:+ "." +:+ value.

Lemma key_matches_spec key value wildcard :
  key_matches_domain_scope key value wildcard = true <-> in_scope value key.
Proof.
  unfold key_matches_domain_scope, in_scope.
  destruct (strip_prefix "domain:" key) as [host|] eqn:Ed.
  { apply strip_prefix_Some in Ed as ->. rewrite bool_decide_eq_true. split; [intros ->; by left|].
    intros [H|[H|[m H]]]; [by apply str_app_inj_l in H|done..]. }
  assert (forall h, key <> "domain:" +:+ h) as Hnd.
  { intros h ->. by rewrite strip_prefix_app in Ed. }
  destruct (strip_prefix "subdomain:" key) as [host|] eqn:Es.
  - apply strip_prefix_Some in Es as ->.
    assert ((if wildcard then bool_decide (host = value) || ends_with ("." +:+ value) host
             else if decide (host = value) then true else ends_with ("." +:+ value) host) = true <->
            host = value \/ ends_with ("." +:+ value) host = true) as ->.
    { destruct wildcard; [by rewrite orb_true_iff, bool_decide_eq_true|]. case_decide; naive_solver. }
    rewrite ends_with_spec. split.
    + intros [->|[m ->]]; eauto.
    + intros [H|[H|[m H]]]; [done|apply str_app_inj_l in H; by left|].
      apply str_app_inj_l in H as ->. eauto.
  - split; [done|]. intros [H|[H|[m H]]]; [by apply Hnd in H|..];
      by rewrite H, strip_prefix_app in Es.
Qed.

Section Coherence.
  Context `{Jc : CacheJson} `{V : RedisServer} {L : RedisLaws V}.

Definition no_faults (w : CacheWorld) : Prop := Forall (fun b => b = false) (cw_faults w).

(** [w'] is [w] with another keyspace, still without faults. *)
Definition with_redis (w w' : CacheWorld) (r : Keyspace) : Prop :=
  cw_redis w' = r /\ cw_memory w' = cw_memory w /\ cw_now w' = cw_now w /\ no_faults w'.

Lemma redis_command_ok {A} (run : Keyspace -> A * Keyspace) w :
  no_faults w -> exists w', redis_command run w = (Ok (run (cw_redis w)).1, w') /\
    with_redis w w' (run (cw_redis w)).2.
Proof.
  unfold no_faults, redis_command, command, with_redis. intros H.
  assert (match cw_faults w with true :: _ => false | _ => true end = true) as ->
    by (destruct H as [|? ? -> ?]; done).
  cbn. destruct (run (cw_redis w)) as [a r]. eexists. split_and!; try reflexivity.
  unfold no_faults; cbn. destruct H; [constructor|done].
Qed.

Lemma del_lookup keys (r : Keyspace) k : del keys r !! k = if decide (k ∈ keys) then None else r !! k.
Proof.
  induction keys as [|x keys IH]; [done|]. change (del (x :: keys) r) with (delete x (del keys r)).
  destruct (decide (k = x)) as [->|Hne].
  - rewrite lookup_delete_eq. by rewrite decide_True by set_solver.
  - rewrite lookup_delete_ne by done. rewrite IH. repeat case_decide; set_solver.
Qed.

(** The cursor and the keyspace after [n] pages of the loop. *)
Definition page_step (pattern : string) (cr : N * Keyspace) : N * Keyspace :=
  let page := scan cr.1 pattern cr.2 in (page.1, del page.2 cr.2).
Definition after_pages (pattern : string) (r : Keyspace) (n : nat) : N * Keyspace :=
  Nat.iter n (page_step pattern) (0%N, r).
Definition page_at (pattern : string) (r : Keyspace) (n : nat) : N * list string :=
  scan (after_pages pattern r n).1 pattern (after_pages pattern r n).2.

Lemma after_pages_S pattern r n :
  after_pages pattern r (S n) =
  ((page_at pattern r n).1, del (page_at pattern r n).2 (after_pages pattern r n).2).
Proof. done. Qed.

Lemma after_pages_lookup pattern r n k :
  (after_pages pattern r (S n)).2 !! k =
  if decide (k ∈ (page_at pattern r n).2) then None else (after_pages pattern r n).2 !! k.
Proof. rewrite after_pages_S. apply del_lookup. Qed.

Lemma pages_eq pattern r n : forall i,
  pages pattern (after_pages pattern r i).1 ((fun j => (after_pages pattern r j).2) <$> seq i n) =
  page_at pattern r <$> seq i n.
Proof.
  induction n as [|n IH]; intros i; [done|]. cbn [seq fmap list_fmap pages]. f_equal.
  apply (IH (S i)).
Qed.

Lemma after_pages_stays pattern r k n m :
  n <= m -> (after_pages pattern r n).2 !! k = None -> (after_pages pattern r m).2 !! k = None.
Proof.
  induction 1 as [|m _ IH]; [done|]. intros H. rewrite after_pages_lookup. case_decide; auto.
Qed.

(** Where the loop stops, exactly the matching keys are gone. *)
Lemma loop_end pattern r :
  exists n, (forall i, i < n -> (page_at pattern r i).1 <> 0%N) /\ (page_at pattern r n).1 = 0%N /\
    forall k, (after_pages pattern r (S n)).2 !! k = if glob_match pattern k then None else r !! k.
Proof.
  destruct (scan_ends pattern (fun j => (after_pages pattern r j).2)) as (n & Hfull).
  { intros n k. rewrite !elem_of_dom, after_pages_lookup. case_decide; [by intros []|done]. }
  pose proof (pages_eq pattern r n 0) as Hp. change (after_pages pattern r 0).1 with 0%N in Hp.
  pose proof (scan_complete pattern ((fun j => (after_pages pattern r j).2) <$> seq 0 n)) as Hall.
  specialize (fun k => Hall k Hfull). rewrite Hp in Hall, Hfull.
  destruct Hfull as (init & last & Heq & Hlast & Hinit).
  destruct n as [|n]; [by destruct init|]. exists n.
  rewrite seq_S, fmap_app in Heq. apply app_inj_tail in Heq as [<- <-].
  rewrite Forall_fmap, Forall_seq in Hinit. split_and!; [intros i Hi; apply Hinit; lia|done|].
  intros k. destruct (glob_match pattern k) eqn:Eg.
  - destruct ((after_pages pattern r (S n)).2 !! k) as [e|] eqn:E; [|done]. exfalso.
    assert (forall i, i <= S n -> is_Some ((after_pages pattern r i).2 !! k)) as Hsome.
    { intros i Hi. apply not_eq_None_Some. intros Hnone.
      by rewrite (after_pages_stays pattern r k i (S n)) in E. }
    destruct (Hall k Eg) as (page & Hpage & Hk).
    { apply Forall_fmap, Forall_seq. intros i Hi. apply Hsome. lia. }
    apply list_elem_of_fmap in Hpage as (i & -> & Hi%elem_of_seq).
    destruct (Hsome (S i)) as [e' He']; [lia|]. rewrite after_pages_lookup in He'.
    by rewrite decide_True in He'.
  - clear -Eg L. generalize (S n) as m. clear n. induction m as [|m IH]; [done|].
    rewrite after_pages_lookup, decide_False; [done|].
    intros Hk%scan_match. congruence.
Qed.

Lemma scan_loop_run pattern r n : forall i w fuel,
  (forall j, j < n -> (page_at pattern r j).1 <> 0%N) -> (page_at pattern r n).1 = 0%N ->
  i <= n -> n < i + fuel -> no_faults w -> cw_redis w = (after_pages pattern r i).2 ->
  exists w', scan_loop fuel pattern (after_pages pattern r i).1 w = Some (Ok tt, w') /\
    with_redis w w' (after_pages pattern r (S n)).2.
Proof.
  intros i w fuel Hne Hz. revert i w. induction fuel as [|fuel IH]; intros i w Hi Hfuel Hw Hr; [lia|].
  cbn [scan_loop].
  destruct (redis_command_ok (fun r' => (scan (after_pages pattern r i).1 pattern r', r')) w Hw)
    as (w1 & -> & Hr1 & Hm1 & Ht1 & Hf1). cbn [fst snd] in Hr1.
  rewrite Hr. fold (page_at pattern r i). cbn [fst].
  destruct (page_at pattern r i) as [next keys] eqn:Ep.
  assert (exists w2, (if decide (keys = []) then (Ok tt, w1)
            else redis_command (fun r' => (tt, del keys r')) w1) = (Ok tt, w2) /\
            with_redis w w2 (after_pages pattern r (S i)).2) as (w2 & -> & Hr2 & Hm2 & Ht2 & Hf2).
  { rewrite after_pages_S, Ep. case_decide as Hk.
    - subst keys. exists w1. cbn. unfold with_redis. rewrite Hr1, Hr. done.
    - destruct (redis_command_ok (fun r' => (tt, del keys r')) w1 Hf1) as (w2 & -> & Hr2 & Hm2 & Ht2 & Hf2).
      exists w2. cbn in *. unfold with_redis. rewrite Hr2, Hr1, Hr. split_and!; congruence || done. }
  case_decide as Hnext.
  - subst next. destruct (decide (i = n)) as [->|Hin]; [|exfalso; apply (Hne i); [lia|by rewrite Ep]].
    exists w2. done.
  - destruct (decide (i = n)) as [->|Hin]; [by rewrite Ep in Hz|].
    replace next with (after_pages pattern r (S i)).1 by (by rewrite after_pages_S, Ep).
    destruct (IH (S i) w2) as (w3 & -> & Hr3 & Hm3 & Ht3 & Hf3); [lia|lia|done|done|].
    exists w3. split; [done|]. split_and!; congruence || done.
Qed.

Lemma delete_pattern_ok pattern w :
  no_faults w -> is_empty (trim pattern) = false ->
  exists n, forall fuel, n < fuel -> exists w' r,
    delete_pattern fuel pattern w = (Ok tt, w') /\ with_redis w w' r /\
    forall k, r !! k = if glob_match pattern k then None else cw_redis w !! k.
Proof.
  intros Hw Hne. destruct (loop_end pattern (cw_redis w)) as (n & Hnz & Hz & Hk). exists n.
  intros fuel Hfuel. unfold delete_pattern. rewrite Hne.
  destruct (scan_loop_run pattern (cw_redis w) n 0 w fuel Hnz Hz) as (w' & Hrun & Hw'); [lia..|done|done|].
  change (after_pages pattern (cw_redis w) 0).1 with 0%N in Hrun. rewrite Hrun. eauto.
Qed.

Lemma delete_key_ok key w :
  no_faults w -> is_empty (trim key) = false ->
  exists w', delete_key key w = (Ok tt, w') /\ with_redis w w' (delete key (cw_redis w)).
Proof.
  intros Hw Hne. unfold delete_key. rewrite Hne.
  by destruct (redis_command_ok (fun r => (tt, del [key] r)) w Hw) as (w' & -> & ?); eauto.
Qed.

Lemma invm_bind_ok {A B} (m : InvM A) (f : A -> InvM B) w a w' :
  m w = (Ok a, w') -> (m ≫= f) w = f a w'.
Proof. unfold mbind, invm_bind. by intros ->. Qed.

Lemma publish_ok event w : no_faults w ->
  exists w', publish event w = (Ok (event_to_string event), w') /\ with_redis w w' (cw_redis w).
Proof.
  intros Hw. unfold publish.
  by destruct (redis_command_ok (fun r => (tt, r)) w Hw) as (w' & -> & ?); eauto.
Qed.

Lemma with_redis_trans w w1 w2 r1 r2 :
  with_redis w w1 r1 -> with_redis w1 w2 r2 -> with_redis w w2 r2.
Proof. unfold with_redis. intros (_ & ? & ? & _) (? & ? & ? & ?). split_and!; congruence || done. Qed.

(** What is left in Redis after the deletions of a domain scope. *)
Lemma delete_domain_scope_ok value scope w :
  no_faults w -> glob_plain value = true -> default scope (strip_prefix "*." scope) = value ->
  exists n, forall fuel, n < fuel -> exists w' r,
    delete_domain_scope fuel scope w = (Ok tt, w') /\ with_redis w w' r /\
    forall k, (in_scope value k -> r !! k = None) /\ (~ in_scope value k -> r !! k = cw_redis w !! k).
Proof.
  intros Hw Hplain Hscope. unfold delete_domain_scope. rewrite Hscope.
  destruct (delete_key_ok ("domain:" +:+ value) w Hw) as (w1 & H1 & Hw1); [by apply trim_nonempty|].
  destruct (delete_key_ok ("subdomain:" +:+ value) w1) as (w2 & H2 & Hw2); [by apply Hw1|by apply trim_nonempty|].
  destruct (delete_pattern_ok ("subdomain:*." +:+ value) w2) as (n & Hn); [by apply Hw2|by apply trim_nonempty|].
  exists n. intros fuel Hfuel. destruct (Hn fuel Hfuel) as (w3 & r & H3 & Hw3 & Hk). exists w3, r.
  rewrite (invm_bind_ok _ _ _ _ _ H1), (invm_bind_ok _ _ _ _ _ H2). split; [done|].
  split; [by eapply with_redis_trans; [|done]; eapply with_redis_trans|]. intros k. rewrite (Hk k).
  destruct Hw2 as (-> & _), Hw1 as (-> & _).
  assert (glob_match ("subdomain:*." +:+ value) k = true <-> exists m, k = "subdomain:" +:+ m +:+ "." +:+ value) as Hg.
  { apply (glob_star "subdomain:" ("." +:+ value)); [done|exact Hplain]. }
  unfold in_scope. destruct (glob_match _ k) eqn:Eg.
  - split; [done|]. intros Hno. exfalso. apply Hno. right; right. by apply Hg.
  - split.
    + intros [->|[->|Hm]]; [|apply lookup_delete_eq|by apply Hg in Hm].
      destruct (decide ("subdomain:" +:+ value = "domain:" +:+ value)) as [->|?]; [apply lookup_delete_eq|].
      rewrite lookup_delete_ne by done. apply lookup_delete_eq.
    + intros Hno. rewrite !lookup_delete_ne; naive_solver.
Qed.

(** C19: The two caches forget the same keys.  When the admin API announces an override of a
    domain (or its wildcard form), then afterwards neither Redis nor the memory of an adaptor that
    receives the event holds a decision for the domain or any of its subdomains, and every other
    entry is still there; the loop over [SCAN] pages ends. *)
Theorem override_invalidation_coherent value scope w :
  no_faults w -> glob_plain value = true -> default scope (strip_prefix "*." scope) = value ->
  exists n, forall fuel, n < fuel -> exists payload w',
    invalidate_override fuel "domain" scope w = (Ok payload, w') /\
    let memory := consume_messages [payload] (cw_memory w') in
    forall k,
      (in_scope value k -> cw_redis w' !! k = None /\ memory !! k = None) /\
      (~ in_scope value k -> cw_redis w' !! k = cw_redis w !! k /\ memory !! k = cw_memory w !! k).
Proof.
  intros Hw Hplain Hscope.
  destruct (delete_domain_scope_ok value scope w Hw Hplain Hscope) as (n & Hn).
  exists n. intros fuel Hfuel. destruct (Hn fuel Hfuel) as (w1 & r & H1 & Hw1 & Hk).
  destruct (publish_ok (EvOverride "domain" scope) w1) as (w2 & H2 & Hw2); [by apply Hw1|].
  exists (event_to_string (EvOverride "domain" scope)), w2.
  unfold invalidate_override, delete_scope. rewrite decide_True by done.
  rewrite (invm_bind_ok _ _ _ _ _ H1). split; [done|]. cbv zeta.
  cbn [consume_messages foldl]. unfold apply_invalidation. rewrite event_round_trip. cbn [as_received snd].
  destruct Hw1 as (Hr1 & Hm1 & _), Hw2 as (Hr2 & Hm2 & _). rewrite Hr2, Hr1, Hm2, Hm1.
  unfold invalidate_scope. rewrite decide_False by (intros H; by apply H).
  assert (exists b, (match strip_prefix "*." scope with
                     | Some rest => (true, rest) | None => (false, scope) end) = (b, value)) as [b ->].
  { destruct (strip_prefix "*." scope); cbn in Hscope; subst; eauto. }
  intros k. destruct (Hk k) as [Hin Hout]. split.
  - intros Hs. split; [by apply Hin|]. apply map_lookup_filter_None. right. intros x _; cbn.
    apply (key_matches_spec _ _ b) in Hs. congruence.
  - intros Hs. split; [by apply Hout|]. apply option_eq. intros x.
    rewrite map_lookup_filter_Some. cbn. split; [by intros []|]. intros Hx. split; [done|].
    apply not_true_iff_false. by rewrite key_matches_spec.
Qed.

End Coherence.

(** ** A concrete server and JSON, for the witnesses *)
Module CacheDemo.

Fixpoint pos_to_string (p : positive) : string :=
  match p with
  | xH => ""
  | xO p' => String "0" (pos_to_string p')
  | xI p' => String "1" (pos_to_string p')
  end.
Fixpoint pos_of_string (s : string) : positive :=
  match s with
  | "" => xH
  | String c s' => if decide (c = "0"%char) then xO (pos_of_string s') else xI (pos_of_string s')
  end.
Lemma pos_of_to p : pos_of_string (pos_to_string p) = p.
Proof. induction p; cbn; [f_equal; done..|done]. Qed.

Definition to_text {A} `{Countable A} (a : A) : string := pos_to_string (encode a).
Definition of_text {A} `{Countable A} (s : string) : option A := decode (pos_of_string s).
Lemma of_to_text {A} `{Countable A} (a : A) : of_text (to_text a) = Some a.
Proof. unfold of_text, to_text. by rewrite pos_of_to, decode_encode. Qed.

Instance float_countable : Countable float.
Proof.
  refine (inj_countable' (fun x : float => match x with
      | S754_zero s => inl (inl s) | S754_infinity s => inl (inr s)
      | S754_nan => inr (inl tt) | S754_finite s m e => inr (inr (s, m, e)) end)
    (fun x : (bool + bool) + (unit + bool * positive * Z) => match x with
      | inl (inl s) => S754_zero s | inl (inr s) => S754_infinity s
      | inr (inl _) => S754_nan | inr (inr (s, m, e)) => S754_finite s m e end) _).
  by intros [].
Defined.
Definition action_code (a : PolicyAction) : nat :=
  match a with Allow => 0 | Block => 1 | Warn => 2 | Monitor => 3 | Review => 4 | RequireApproval => 5 | ContentPending => 6 end.
Definition action_decode (n : nat) : PolicyAction :=
  match n with 0 => Allow | 1 => Block | 2 => Warn | 3 => Monitor | 4 => Review | 5 => RequireApproval | _ => ContentPending end.
Instance action_countable : Countable PolicyAction.
Proof. refine (inj_countable' action_code action_decode _). by intros []. Defined.
Instance verdict_countable : Countable ClassificationVerdict.
Proof.
  refine (inj_countable' (fun v => (cv_primary_category v, cv_subcategory v, cv_risk_level v,
                                    cv_confidence v, cv_recommended_action v))
    (fun '(a, b, c, d, e) => {| cv_primary_category := a; cv_subcategory := b; cv_risk_level := c;
                                cv_confidence := d; cv_recommended_action := e |}) _).
  by intros [].
Defined.
Instance decision_countable : Countable PolicyDecision.
Proof.
  refine (inj_countable' (fun d => (pd_action d, pd_cache_hit d, pd_verdict d, pd_decision_source d))
    (fun '(a, b, c, d) => {| pd_action := a; pd_cache_hit := b; pd_verdict := c; pd_decision_source := d |}) _).
  by intros [].
Defined.

#[refine] Instance json : CacheJson := {|
  decision_to_string := to_text;
  decision_from_str := of_text;
  event_to_string e := to_text (match e with EvOverride t v => Some (t, v) | EvPolicy => None end);
  event_from_str s := (fun o => match o with Some (t, v) => Override t v | None => Policy end) <$>
                      (of_text s : option (option (string * string)))
|}.
Proof.
  - intros d _. apply of_to_text.
  - intros []; by rewrite of_to_text.
Defined.

(** A pattern with at most one star; a scan that returns everything in one page. *)
Definition one_star (p k : string) : bool :=
  match split_once "*" p with
  | Some (a, b) => match strip_prefix a k with Some r => ends_with b r | None => false end
  | None => bool_decide (p = k)
  end.

Instance server : RedisServer := {
  scan _ p st := (0%N, List.filter (one_star p) (elements (dom st)));
  glob_match := one_star
}.

Lemma split_once_star a b : glob_plain a = true -> split_once "*" (a +:+ "*" +:+ b) = Some (a, b).
Proof.
  induction a as [|c a IH]; intros Ha; [by destruct b|].
  cbn [str_forall] in Ha. apply andb_true_iff in Ha as [Hc Ha].
  change (String c a +:+ "*" +:+ b) with (String c (a +:+ "*" +:+ b)).
  cbn [split_once strip_prefix]. rewrite decide_False; [by rewrite IH|].
  intros <-. by vm_compute in Hc.
Qed.

#[refine] Instance server_laws : RedisLaws server := {}.
Proof.
  - intros a b k Ha Hb. change glob_match with one_star. unfold one_star. rewrite split_once_star by done.
    destruct (strip_prefix a k) as [r|] eqn:E.
    + apply strip_prefix_Some in E as ->. rewrite ends_with_spec. split.
      * intros [l ->]. eauto.
      * intros [m H]. apply str_app_inj_l in H. eauto.
    + split; [done|]. intros [m ->]. by rewrite strip_prefix_app in E.
  - intros c p st k. cbn. rewrite list_elem_of_In, filter_In. by intros [].
  - intros p sts k Hfull Hk Hall. destruct sts as [|st sts]; [by destruct Hfull as ([] & ? & ? & _)|].
    exists (0%N, List.filter (one_star p) (elements (dom st))). split; [left|]. cbn.
    rewrite list_elem_of_In, filter_In, <- list_elem_of_In, elem_of_elements, elem_of_dom.
    split; [|done]. by apply Forall_cons in Hall as [].
  - intros p f _. exists 1. exists [], (0%N, List.filter (one_star p) (elements (dom (f 0)))).
    split_and!; [done|done|constructor].
Qed.

Definition decision (a : PolicyAction) : PolicyDecision :=
  {| pd_action := a; pd_cache_hit := false; pd_verdict := None; pd_decision_source := None |}.
Definition world : CacheWorld :=
  {| cw_memory := ∅; cw_redis := ∅; cw_faults := []; cw_now := 0 |}.
Definition filled : CacheWorld :=
  set true "domain:example.org" (decision Block) 300000
    (set true "subdomain:a.example.com" (decision Allow) 300000 world).

Lemma cache_entry_lifetime_witness :
  let w2 := sleep 1000 (set true "domain:example.com" (decision Block) 300000 world) in
  get true "domain:example.com" w2 = (Some (decision Block), w2) /\
  (get true "domain:example.com" (sleep 300000 w2)).1 = None.
Proof.
  intros w2. split.
  - apply (cache_entry_lifetime true "domain:example.com" (decision Block) 300000 world w2); cbn; done || lia.
  - apply (cache_entry_lifetime true "domain:example.com" (decision Block) 300000 world (sleep 300000 w2));
      cbn; done || lia.
Defined.

Lemma override_invalidation_coherent_witness :
  exists n, forall fuel, n < fuel -> exists payload w',
    invalidate_override fuel "domain" "*.example.com" filled = (Ok payload, w') /\
    let memory := consume_messages [payload] (cw_memory w') in
    cw_redis w' !! "subdomain:a.example.com" = None /\ memory !! "subdomain:a.example.com" = None /\
    is_Some (cw_redis w' !! "domain:example.org") /\ is_Some (memory !! "domain:example.org").
Proof.
  destruct (override_invalidation_coherent "example.com" "*.example.com" filled) as (n & Hn).
  - by repeat constructor.
  - by vm_compute.
  - by vm_compute.
  - exists n. intros fuel Hf. destruct (Hn fuel Hf) as (payload & w' & Hrun & Hk).
    exists payload, w'. split; [exact Hrun|]. cbv zeta in *.
    destruct (Hk "subdomain:a.example.com") as [[-> ->] _]; [right; right; by exists "a"|].
    destruct (Hk "domain:example.org") as [_ [-> ->]].
    + intros H%(key_matches_spec _ _ false). by vm_compute in H.
    + repeat split; by vm_compute; eauto.
Defined.

End CacheDemo.
