(* ===== verification/AdminRecords.v ===== *)
(** * Stored records of the admin API

    The routes of [services/admin-api/src] that show what other parts have stored: fetched pages
    ([page_contents.rs]), the log of commands ([cli_logs.rs]) and cached decisions
    ([cache_entries_api.rs] with [CacheInvalidator::inspect_key] of [cache.rs]), and the writer of
    audit events ([audit.rs]).

    A page is shown as the page fetcher left it, the newest version first; a cached decision is found
    under the variants of its key, and deleting an entry removes exactly it. *)

From S2P Require Import Prelude RustStr RustNum Http Json Cache LlmProvider LlmWorker Db Io Wp Texts Pagination PageFetch.

Local Open Scope Z_scope.

Definition ROLE_POLICY_VIEW : list string := ["policy-admin"; "policy-editor"; "policy-viewer"].
Definition ROLE_CACHE_ADMIN : list string := ["policy-admin"].
Definition ROLE_AUDIT_VIEW : list string := ["policy-admin"; "auditor"].

(** ** Tables *)

Record CliLogRecord := {
  cl_id : Uuid; cl_operator_id : option string; cl_command : string; cl_args_hash : option string; cl_result : option string;
  cl_created_at : Z
}.
Record AuditEvent := {
  av_actor : option string; av_action : string; av_target_type : option string; av_target_id : option string; av_payload : option Json
}.
Record AuditRecord := { ar_id : Uuid; ar_event : AuditEvent; ar_created_at : Z }.
Record CacheEntryRecord := {
  cn_cache_key : string; cn_value : Json; cn_expires_at : Z; cn_source : option string; cn_created_at : Z
}.

(** The rows of [cache_entries] are kept by their primary key. *)
Record RecordTables := {
  rt_pages : list FetchedPage; rt_cli_logs : list CliLogRecord; rt_audit : list AuditRecord;
  rt_entries : gmap string CacheEntryRecord; rt_cache : CacheWorld
}.
Definition set_entries (m : gmap string CacheEntryRecord) (t : RecordTables) : RecordTables :=
  {| rt_pages := rt_pages t; rt_cli_logs := rt_cli_logs t; rt_audit := rt_audit t; rt_entries := m; rt_cache := rt_cache t |}.
Definition set_cache (c : CacheWorld) (t : RecordTables) : RecordTables :=
  {| rt_pages := rt_pages t; rt_cli_logs := rt_cli_logs t; rt_audit := rt_audit t; rt_entries := rt_entries t; rt_cache := c |}.
Definition set_audit (l : list AuditRecord) (t : RecordTables) : RecordTables :=
  {| rt_pages := rt_pages t; rt_cli_logs := rt_cli_logs t; rt_audit := l; rt_entries := rt_entries t; rt_cache := rt_cache t |}.

(** Documents sent to Elasticsearch. *)
Inductive RecordEffect := AuditExport (url : string) (record : AuditRecord).
Abbreviation RM := (M RecordTables RecordEffect).
Abbreviation RecordWorld := (Io RecordTables RecordEffect).

Definition page_error (status : StatusCode) (code message : string) : HttpError :=
  {| he_status := status; he_code := code; he_message := message |}.
Definition record_guard (user : UserContext) (roles : list string) : RM HttpError unit :=
  if require_roles user roles then mret tt else of_result (Err (page_error FORBIDDEN "FORBIDDEN" "insufficient privileges")).
Definition record_db {A} (m : RM string A) : RM HttpError A := map_error (page_error INTERNAL_SERVER_ERROR "DB_ERROR") m.

(** ** Fetched pages *)

Definition DEFAULT_MAX_EXCERPT : Z := 1200.
Definition MAX_ALLOWED_EXCERPT : Z := 8000.
Definition MIN_EXCERPT : Z := 64.
Definition DEFAULT_HISTORY_LIMIT : Z := 5.
Definition MAX_HISTORY_LIMIT : Z := 50.

Record PageContentRecord := {
  pr_normalized_key : string; pr_fetch_version : Z; pr_content_type : option string; pr_content_hash : option string;
  pr_char_count : option Z; pr_byte_count : option Z; pr_fetch_status : string; pr_fetch_reason : option string;
  pr_ttl_seconds : Z; pr_fetched_at : Z; pr_expires_at : Z; pr_excerpt : option string; pr_excerpt_truncated : bool;
  pr_excerpt_format : option string; pr_source_url : option string; pr_resolved_url : option string; pr_attempt_summary : option string
}.
Record PageContentSummary := {
  ps_fetch_version : Z; ps_fetch_status : string; ps_fetch_reason : option string; ps_ttl_seconds : Z; ps_fetched_at : Z;
  ps_expires_at : Z; ps_char_count : option Z; ps_byte_count : option Z; ps_content_hash : option string; ps_resolved_url : option string
}.

Definition clamp_excerpt (limit : option Z) : Z :=
  match limit with Some value => clamp MIN_EXCERPT MAX_ALLOWED_EXCERPT value | None => DEFAULT_MAX_EXCERPT end.
Definition clamp_history_limit (limit : option Z) : Z :=
  match limit with Some value => clamp 1 MAX_HISTORY_LIMIT value | None => DEFAULT_HISTORY_LIMIT end.

(** The character U+2026. *)
Definition ELLIPSIS : string := String (byte 226) (String (byte 128) (String (byte 166) "")).
Definition trim_excerpt (text : string) (limit : Z) : string * bool :=
  let buffer := take_chars (Z.to_N limit) text in
  let truncated := bool_decide (chars_count buffer < chars_count text)%N in
  (if truncated then buffer +:+ ELLIPSIS else buffer, truncated).

Definition map_content_row (row : FetchedPage) (excerpt_limit : Z) : PageContentRecord :=
  let '(excerpt, excerpt_truncated) :=
    match (text ← fp_text_excerpt row; let trimmed := trim text in
           if is_empty trimmed then None else Some (trim_excerpt trimmed excerpt_limit)) with
    | Some (value, truncated) => (Some value, truncated)
    | None => (None, false)
    end in
  {| pr_normalized_key := fp_normalized_key row; pr_fetch_version := fp_fetch_version row; pr_content_type := fp_content_type row;
     pr_content_hash := fp_content_hash row; pr_char_count := fp_char_count row; pr_byte_count := fp_byte_count row;
     pr_fetch_status := fp_fetch_status row; pr_fetch_reason := fp_fetch_reason row; pr_ttl_seconds := fp_ttl_seconds row;
     pr_fetched_at := fp_fetched_at row; pr_expires_at := fp_expires_at row; pr_excerpt := excerpt;
     pr_excerpt_truncated := excerpt_truncated; pr_excerpt_format := (fun _ => "markdown") <$> excerpt;
     pr_source_url := fp_source_url row; pr_resolved_url := fp_resolved_url row; pr_attempt_summary := fp_attempt_summary row |}.
Definition map_summary_row (row : FetchedPage) : PageContentSummary :=
  {| ps_fetch_version := fp_fetch_version row; ps_fetch_status := fp_fetch_status row; ps_fetch_reason := fp_fetch_reason row;
     ps_ttl_seconds := fp_ttl_seconds row; ps_fetched_at := fp_fetched_at row; ps_expires_at := fp_expires_at row;
     ps_char_count := fp_char_count row; ps_byte_count := fp_byte_count row; ps_content_hash := fp_content_hash row;
     ps_resolved_url := fp_resolved_url row |}.

(** [WHERE normalized_key = $1 ORDER BY fetch_version DESC]. *)
Definition versions_of (key : string) (rows : list FetchedPage) : list FetchedPage :=
  order_desc fp_fetch_version (List.filter (of_key key) rows).

Definition get_page_content (user : UserContext) (normalized_key : string) (version max_excerpt : option Z)
    : RM HttpError PageContentRecord :=
  _ ← record_guard user ROLE_POLICY_VIEW;
  let excerpt_limit := clamp_excerpt max_excerpt in
  found ← match version with
          | Some v => record_db (fetch (fun _ t =>
              find_first (fun r => of_key normalized_key r && bool_decide (fp_fetch_version r = v)) (rt_pages t)))
          | None => record_db (fetch (fun _ t => head (versions_of normalized_key (rt_pages t))))
          end;
  row ← of_result (ok_or found (page_error NOT_FOUND "NOT_FOUND" "no page content available for key"));
  mret (map_content_row row excerpt_limit).

Definition list_page_content_history (user : UserContext) (normalized_key : string) (limit : option Z)
    : RM HttpError (list PageContentSummary) :=
  _ ← record_guard user ROLE_POLICY_VIEW;
  rows ← record_db (fetch (fun _ t => take (Z.to_nat (clamp_history_limit limit)) (versions_of normalized_key (rt_pages t))));
  mret (map_summary_row <$> rows).

(** ** The log of commands *)

Section CliLogs.
  Context `{T : JsonText} `{B : Base64} `{X : Texts}.

Record CliLogQuery := { cq_operator_id : option string; cq_limit : option Z; cq_cursor : option string }.
Definition cli_log_key (r : CliLogRecord) : Z * Uuid := (cl_created_at r, cl_id r).
Definition cli_log_rows (operator_id : option string) (rows : list CliLogRecord) : list CliLogRecord :=
  match operator_id with
  | None => rows
  | Some id => List.filter (fun r => bool_decide (cl_operator_id r = Some id)) rows
  end.
Definition list_cli_logs (user : UserContext) (query : CliLogQuery) : RM StatusCode (CursorPaged CliLogRecord) :=
  _ ← (if require_roles user ROLE_AUDIT_VIEW then mret tt else of_result (Err FORBIDDEN));
  let limit := cursor_limit (cq_limit query) in
  position ← of_result (map_err (fun _ => BAD_REQUEST) (decode_position (cq_cursor query)));
  rows ← map_error (fun _ => INTERNAL_SERVER_ERROR)
           (fetch (fun _ t => page_rows cli_log_key newest (fun _ => false) position limit (cli_log_rows (cq_operator_id query) (rt_cli_logs t))));
  mret (paged cli_log_key (cq_cursor query) position.1 limit rows).

End CliLogs.

(** ** Audit events *)

Record ElasticExporter := { ee_endpoint : string; ee_index : string }.
Definition new_exporter (base_url index : string) : ElasticExporter := {| ee_endpoint := trim_end_matches "/" base_url; ee_index := index |}.

Definition insert_event (event : AuditEvent) : RM string AuditRecord :=
  id ← new_v4;
  _ ← update (fun now t => set_audit (rt_audit t ++ [{| ar_id := id; ar_event := event; ar_created_at := now |}]) t);
  now ← utc_now;
  mret {| ar_id := id; ar_event := event; ar_created_at := now |}.
Definition send (exporter : ElasticExporter) (record : AuditRecord) : RM string unit :=
  command (AuditExport (ee_endpoint exporter +:+ "/" +:+ ee_index exporter +:+ "/_doc") record).
(** The task that [AuditLogger::log] starts. *)
Definition audit_log (elastic : option ElasticExporter) (event : AuditEvent) : RM string unit :=
  inserted ← outcome (insert_event event);
  match inserted with
  | Ok record => match elastic with Some exporter => dropped (send exporter record) | None => mret tt end
  | Err _ => mret tt
  end.

(** ** Cached decisions *)

Section CacheEntries.
  Context `{T : JsonText} `{V : RedisServer}.
  (** [state.cache_invalidator().is_some()]. *)
  Context (has_cache : bool).

(** A command that reads. *)
Definition redis_read {A} (run : CacheWorld -> A) : InvM A := fun c =>
  match Cache.command c with
  | (true, c') => (Ok (run c'), c')
  | (false, c') => (Err "redis error", c')
  end.
(** [TTL]: the seconds left, rounded; -2 without the key. *)
Definition redis_ttl (key : string) (c : CacheWorld) : Z :=
  match cw_redis c !! key with
  | Some entry => if decide (cw_now c < re_expires_at entry) then (re_expires_at entry - cw_now c + 500) / 1000 else -2
  | None => -2
  end.
Definition inv_now : InvM Z := fun c => (Ok (cw_now c), c).
Definition inspect_key (key : string) : InvM (option (Json * option Z)) :=
  if is_empty (trim key) then mret None
  else
    raw ← redis_read (fun c => redis_value c key);
    match raw with
    | None => mret None
    | Some raw =>
        ttl_seconds ← redis_read (redis_ttl key);
        now ← inv_now;
        let expires_at := if decide (0 < ttl_seconds) then Some (now + 1000 * ttl_seconds) else None in
        mret (Some (match json_parse raw with Ok v => v | Err _ => JStr raw end, expires_at))
    end.

(** The candidates, each once and in order; the closure [push]. *)
Definition push (candidate : string) (ordered : list string) : list string :=
  if is_empty candidate || bool_decide (candidate ∈ ordered) then ordered else ordered ++ [candidate].
Definition cache_key_candidates (raw : string) : list string :=
  let key := to_ascii_lowercase (trim raw) in
  if is_empty key then []
  else
    let ordered := push key [] in
    match strip_prefix "domain:" key with
    | Some host => push ("subdomain:" +:+ host) (push ("subdomain:www." +:+ host) ordered)
    | None =>
        match strip_prefix "subdomain:" key with
        | Some host =>
            match strip_prefix "www." host with
            | Some rest => push ("domain:" +:+ rest) ordered
            | None => push ("subdomain:www." +:+ host) (push ("domain:" +:+ host) ordered)
            end
        | None =>
            if contains "." key then push ("domain:" +:+ key) (push ("subdomain:www." +:+ key) (push ("subdomain:" +:+ key) ordered))
            else ordered
        end
    end.

(** A failed lookup is logged, and the next candidate is tried. *)
Fixpoint find_in_redis (candidates : list string) (c : CacheWorld) : option (string * Json * option Z) * CacheWorld :=
  match candidates with
  | [] => (None, c)
  | candidate :: candidates' =>
      match inspect_key candidate c with
      | (Ok (Some (value, expires_at)), c') => (Some (candidate, value, expires_at), c')
      | (_, c') => find_in_redis candidates' c'
      end
  end.
Definition on_cache {E A} (f : CacheWorld -> A * CacheWorld) : RM E A := fun w =>
  let '(a, c) := f (rt_cache (io_tables w)) in (Ok a, with_tables (set_cache c (io_tables w)) w).

Fixpoint find_in_table (candidates : list string) : RM StatusCode CacheEntryRecord :=
  match candidates with
  | [] => of_result (Err NOT_FOUND)
  | candidate :: candidates' =>
      row ← map_error (fun _ => INTERNAL_SERVER_ERROR) (fetch (fun _ t => rt_entries t !! candidate));
      match row with Some row => mret row | None => find_in_table candidates' end
  end.
Definition get_entry (user : UserContext) (cache_key : string) : RM StatusCode CacheEntryRecord :=
  _ ← (if require_roles user ROLE_POLICY_VIEW then mret tt else of_result (Err FORBIDDEN));
  let candidates := cache_key_candidates cache_key in
  found ← (if has_cache then on_cache (find_in_redis candidates) else mret None);
  match found with
  | Some (candidate, value, expires_at) =>
      now ← utc_now;
      mret {| cn_cache_key := candidate; cn_value := value; cn_expires_at := default now expires_at; cn_source := Some "redis";
              cn_created_at := now |}
  | None => find_in_table candidates
  end.

Definition invalidate_cache_key {E} (cache_key : string) : RM E unit :=
  if has_cache then on_cache (fun c => (tt, (invalidate_key cache_key c).2)) else mret tt.
Definition delete_entry (user : UserContext) (cache_key : string) : RM HttpError unit :=
  _ ← record_guard user ROLE_CACHE_ADMIN;
  rows_affected ← record_db (sql (fun _ t =>
    (bool_decide (is_Some (rt_entries t !! cache_key)), set_entries (delete cache_key (rt_entries t)) t)));
  if rows_affected : bool then invalidate_cache_key cache_key
  else of_result (Err (page_error NOT_FOUND "NOT_FOUND" "cache entry not found")).

End CacheEntries.

(** ** What is shown of a page *)

Lemma chars_count_app s t : chars_count (s +:+ t) = (chars_count s + chars_count t)%N.
Proof. induction s as [|c s IH]; [done|]. cbn [String.append chars_count]. rewrite IH. destruct (continues c); lia. Qed.
Lemma take_chars_prefix n s :
  exists rest, s = take_chars n s +:+ rest /\ (rest = "" \/ 0 < chars_count rest)%N.
Proof.
  revert n. induction s as [|c s IH]; intros n; [by exists ""; split; [|left]|]. cbn [take_chars]. destruct (continues c) eqn:E.
  - destruct (IH n) as (rest & Hs & Hr). exists rest. split; [cbn; by rewrite <- Hs|done].
  - case_decide as Hn; [exists (String c s); split; [done|right; cbn; rewrite E; lia]|].
    destruct (IH (N.pred n)) as (rest & Hs & Hr). exists rest. split; [cbn; by rewrite <- Hs|done].
Qed.

(** The excerpt is the beginning of the text, and marked when something is missing. *)
Definition excerpt_of_text (text : string) (limit : Z) (excerpt : string) (truncated : bool) : Prop :=
  exists shown rest, text = shown +:+ rest /\ (Z.of_N (chars_count shown) <= limit) /\
    excerpt = shown +:+ (if truncated then ELLIPSIS else "") /\ (truncated = false <-> rest = "").

Lemma trim_excerpt_spec text limit : 0 <= limit -> excerpt_of_text text limit (trim_excerpt text limit).1 (trim_excerpt text limit).2.
Proof.
  intros Hl. destruct (take_chars_prefix (Z.to_N limit) text) as (rest & Hs & Hr). exists (take_chars (Z.to_N limit) text), rest.
  pose proof (chars_count_take (Z.to_N limit) text). split_and!; [done|lia|unfold trim_excerpt; cbn [fst snd]; by case_bool_decide; rewrite ?str_app_nil_r|].
  unfold trim_excerpt. cbn [snd]. rewrite bool_decide_eq_false. rewrite Hs at 2. rewrite chars_count_app. destruct Hr as [->|Hr]; [cbn; split; [done|lia]|].
  split; [lia|]. intros ->. cbn in Hr. lia.
Qed.

Section Pages.
  Context (keep : nat) (w : RecordWorld) (user : UserContext) (key : string).
  Abbreviation rows := (rt_pages (io_tables w)).
  Hypothesis (Hrows : pages_ok keep (io_next_uuid w, {| ft_pages := rows; ft_markers := ∅ |})).

Lemma versions_of_perm : versions_of key rows ≡ₚ List.filter (of_key key) rows.
Proof. unfold versions_of, order_desc. apply sort_by_key_perm. Qed.
Lemma elem_of_versions r : r ∈ versions_of key rows <-> r ∈ rows /\ fp_normalized_key r = key.
Proof. rewrite versions_of_perm. apply elem_of_filter_of_key. Qed.

Lemma version_unique r r' : r ∈ rows -> r' ∈ rows -> fp_normalized_key r = fp_normalized_key r' -> fp_fetch_version r = fp_fetch_version r' -> r = r'.
Proof. intros Hr Hr' Hk Hv. apply (NoDup_fmap_unique (fun r => (fp_normalized_key r, fp_fetch_version r)) rows); [apply Hrows|done|done|by f_equal]. Qed.

Definition newer (a b : FetchedPage) : Prop := fp_fetch_version b < fp_fetch_version a.
Lemma versions_sorted : StronglySorted newer (versions_of key rows).
Proof.
  assert (NoDup (versions_of key rows)) as Hnd.
  { rewrite versions_of_perm. eapply sublist_NoDup; [apply (NoDup_fmap_1 fp_id), (pages_ids _ _ Hrows)|apply filter_sublist]. }
  assert (forall r, r ∈ versions_of key rows -> r ∈ rows /\ fp_normalized_key r = key) as Hin by (intros r; apply elem_of_versions).
  pose proof (sort_by_key_sorted (fun r => - fp_fetch_version r) (List.filter (of_key key) rows)) as Hs.
  fold (order_desc fp_fetch_version (List.filter (of_key key) rows)) in Hs. fold (versions_of key rows) in Hs.
  revert Hnd Hin. induction Hs as [|r l Hs IH Hall]; intros Hnd Hin; [constructor|]. apply NoDup_cons in Hnd as [Hn Hnd].
  constructor; [apply IH; [done|]; intros; apply Hin; by right|]. rewrite Forall_forall in Hall |- *. intros r' Hr'. specialize (Hall r' Hr').
  unfold newer. cbn in Hall. destruct (decide (fp_fetch_version r = fp_fetch_version r')) as [E|]; [|unfold key_le in Hall; lia].
  exfalso. apply Hn. destruct (Hin r ltac:(left)) as [H1 H2], (Hin r' ltac:(by right)) as [H3 H4]. by rewrite (version_unique r r') by congruence.
Qed.

Lemma version_found r : r ∈ versions_of key rows ->
  find_first (fun r' => of_key key r' && bool_decide (fp_fetch_version r' = fp_fetch_version r)) rows = Some r.
Proof.
  intros [Hr Hk]%elem_of_versions. destruct (find_first _ rows) as [r'|] eqn:E.
  - apply find_first_Some in E as (? & ? & E & Hp & _). apply andb_true_iff in Hp as [Hk' Hv%bool_decide_eq_true]. unfold of_key in Hk'. apply bool_decide_eq_true in Hk'.
    f_equal. apply version_unique; [rewrite E; set_solver|done|congruence|done].
  - exfalso. rewrite find_first_None in E. specialize (E r Hr). cbn in E. unfold of_key in E. rewrite !bool_decide_eq_true_2 in E by done. done.
Qed.

Lemma history_run limit : require_roles user ROLE_POLICY_VIEW = true -> calm w ->
  list_page_content_history user key limit w =
    (Ok (map_summary_row <$> take (Z.to_nat (clamp_history_limit limit)) (versions_of key rows)), elapse w).
Proof.
  intros Hu Hc. unfold list_page_content_history, record_guard, record_db, mbind, io_bind, map_error. rewrite Hu. cbn [mret io_ret].
  by rewrite fetch_calm.
Qed.
Lemma content_run version max_excerpt : require_roles user ROLE_POLICY_VIEW = true -> calm w ->
  get_page_content user key version max_excerpt w =
    (match (match version with
            | Some v => find_first (fun r => of_key key r && bool_decide (fp_fetch_version r = v)) rows
            | None => head (versions_of key rows)
            end) with
     | Some row => Ok (map_content_row row (clamp_excerpt max_excerpt))
     | None => Err (page_error NOT_FOUND "NOT_FOUND" "no page content available for key")
     end, elapse w).
Proof.
  intros Hu Hc. unfold get_page_content, record_guard, record_db, mbind, io_bind, map_error. rewrite Hu. cbn [mret io_ret].
  destruct version; rewrite fetch_calm by done; cbn [map_err]; [by destruct (find_first _ _)|by destruct (head _)].
Qed.

(** The excerpt of a record is the beginning of the stored text. *)
Definition excerpt_shown (row : FetchedPage) (limit : Z) (record : PageContentRecord) : Prop :=
  match fp_text_excerpt row with
  | Some text => if is_empty (trim text) then pr_excerpt record = None
                 else exists e, pr_excerpt record = Some e /\ excerpt_of_text (trim text) limit e (pr_excerpt_truncated record)
  | None => pr_excerpt record = None
  end.
Lemma content_row_shown row max_excerpt : excerpt_shown row (clamp_excerpt max_excerpt) (map_content_row row (clamp_excerpt max_excerpt)).
Proof.
  assert (0 <= clamp_excerpt max_excerpt) as Hl by (unfold clamp_excerpt, clamp, MIN_EXCERPT, DEFAULT_MAX_EXCERPT; destruct max_excerpt; lia).
  unfold excerpt_shown, map_content_row. destruct (fp_text_excerpt row) as [text|]; [|done]. cbn [mbind option_bind].
  destruct (is_empty (trim text)); [done|]. pose proof (trim_excerpt_spec (trim text) _ Hl) as H. destruct (trim_excerpt _ _) as [e b].
  cbn [pr_excerpt pr_excerpt_truncated]. by exists e.
Qed.

(** Pages are shown as they were fetched.  Over the versions that the page fetcher leaves, the
    history of a key is its newest versions, newest first, as many as asked for and there are; without a
    version the page shown is the latest one, there is none exactly when the key has no version, and
    each version of the history is shown when it is asked for.  The excerpt is the beginning of the
    stored text, of at most the characters asked for, marked exactly when something is left out. *)
Theorem page_content_shown limit max_excerpt :
  require_roles user ROLE_POLICY_VIEW = true -> calm w ->
  exists shown, list_page_content_history user key limit w = (Ok (map_summary_row <$> shown), elapse w) /\
    StronglySorted newer shown /\ (Z.of_nat (length shown) <= clamp_history_limit limit) /\
    (forall r, r ∈ rows -> fp_normalized_key r = key ->
      r ∈ shown \/ (Z.of_nat (length shown) = clamp_history_limit limit /\ forall s, s ∈ shown -> newer s r)) /\
    match shown with
    | [] => (get_page_content user key None max_excerpt w).1 = Err (page_error NOT_FOUND "NOT_FOUND" "no page content available for key")
    | row :: _ => latest row rows /\ (get_page_content user key None max_excerpt w).1 = Ok (map_content_row row (clamp_excerpt max_excerpt))
    end /\
    (forall row, row ∈ shown -> row ∈ rows /\ fp_normalized_key row = key /\
      exists record, (get_page_content user key (Some (fp_fetch_version row)) max_excerpt w).1 = Ok record /\
        pr_fetch_version record = fp_fetch_version row /\ excerpt_shown row (clamp_excerpt max_excerpt) record).
Proof.
  intros Hu Hc. assert (1 <= clamp_history_limit limit) as Hl by (unfold clamp_history_limit, clamp, DEFAULT_HISTORY_LIMIT; destruct limit; lia).
  exists (take (Z.to_nat (clamp_history_limit limit)) (versions_of key rows)). set (n := Z.to_nat _).
  pose proof versions_sorted as Hs. pose proof (take_drop n (versions_of key rows)) as Htd.
  assert (forall r, r ∈ take n (versions_of key rows) -> r ∈ versions_of key rows) as Hin.
  { intros r Hr. rewrite <- Htd. apply elem_of_app. by left. }
  pose proof Hs as Hs'. rewrite <- Htd in Hs'. apply StronglySorted_app in Hs' as (Hcross & Hst & _).
  split_and!; [by apply history_run|done|rewrite length_take; lia| | |].
  - intros r Hr Hk. assert (r ∈ versions_of key rows) as Hv by by apply elem_of_versions.
    rewrite <- Htd in Hv. apply elem_of_app in Hv as [Hv|Hv]; [by left|right]. split; [|intros s Hs0; by apply Hcross].
    rewrite length_take. assert (0 < length (drop n (versions_of key rows)))%nat as Hd by (destruct (drop n _); [by apply elem_of_nil in Hv|cbn; lia]).
    rewrite length_drop in Hd. lia.
  - rewrite content_run by done. destruct (versions_of key rows) as [|row l] eqn:E; [by rewrite take_nil|].
    destruct n as [|n'] eqn:En; [lia|]. cbn [take head fst]. split; [|done].
    assert (row ∈ versions_of key rows) as [Hr Hk]%elem_of_versions by (rewrite E; left). split; [done|]. intros r Hr' Hk'. rewrite Hk in Hk'.
    assert (r ∈ row :: l) as [->|Hl']%elem_of_cons by (rewrite <- E; by apply elem_of_versions); [by left|right].
    apply StronglySorted_inv in Hs as [_ Hs]. rewrite Forall_forall in Hs. by apply (Hs r).
  - intros row Hrow%Hin. pose proof Hrow as [H1 H2]%elem_of_versions. split_and!; [done|done|]. rewrite content_run by done.
    rewrite version_found by done. eexists. split_and!; [done| |apply content_row_shown]. unfold map_content_row. by destruct (match _ with Some _ => _ | None => _ end).
Qed.
End Pages.

(** ** Cached decisions that are deleted *)

Section Deleted.
  Context `{T : JsonText} `{V : RedisServer}.

Lemma redis_read_keeps {A} (run : CacheWorld -> A) c : cw_redis (redis_read run c).2 = cw_redis c.
Proof. unfold redis_read, Cache.command. by destruct (cw_faults c) as [|[] l]. Qed.
Lemma inspect_key_keeps key c : cw_redis (inspect_key key c).2 = cw_redis c.
Proof.
  unfold inspect_key, mbind, invm_bind. destruct (is_empty (trim key)); [done|]. pose proof (redis_read_keeps (fun c => redis_value c key) c) as H1.
  destruct (redis_read _ c) as [[[raw|]|e] c1]; [|done|done]. pose proof (redis_read_keeps (redis_ttl key) c1) as H2.
  destruct (redis_read (redis_ttl key) c1) as [[ttl|e] c2]; cbn in *; congruence.
Qed.
Lemma inspect_key_there key c v c' : inspect_key key c = (Ok (Some v), c') -> is_empty (trim key) = false /\ is_Some (cw_redis c !! key).
Proof.
  unfold inspect_key, mbind, invm_bind. destruct (is_empty (trim key)); [done|].
  assert (forall raw c1, redis_read (fun c => redis_value c key) c = (Ok (Some raw), c1) -> is_Some (cw_redis c !! key)) as H.
  { unfold redis_read, Cache.command, redis_value. intros raw c1. destruct (cw_faults c) as [|[] l]; cbn; [|done|]; by destruct (cw_redis c !! key). }
  destruct (redis_read _ c) as [[[raw|]|e] c1] eqn:E; [|done|done]. intros _. split; [done|by apply (H raw c1)].
Qed.
Lemma find_in_redis_there candidates c k v e c' :
  find_in_redis candidates c = (Some (k, v, e), c') -> is_empty (trim k) = false /\ is_Some (cw_redis c !! k).
Proof.
  revert c. induction candidates as [|x l IH]; intros c; [done|]. cbn [find_in_redis]. pose proof (inspect_key_keeps x c) as Hk.
  destruct (inspect_key x c) as [[[[v0 e0]|]|err] c1] eqn:E; cbn in Hk; [|intros H; rewrite <- Hk; by apply (IH c1)..].
  intros [= <- <- <- <-]. by eapply inspect_key_there.
Qed.
Lemma find_in_redis_entries candidates c : cw_redis (find_in_redis candidates c).2 = cw_redis c.
Proof.
  revert c. induction candidates as [|x l IH]; intros c; [done|]. cbn [find_in_redis]. pose proof (inspect_key_keeps x c) as Hk.
  destruct (inspect_key x c) as [[[[v0 e0]|]|err] c1]; cbn in *; [done|by rewrite IH..].
Qed.
Lemma find_in_table_there candidates (w w' : RecordWorld) row :
  find_in_table candidates w = (Ok row, w') -> exists k, rt_entries (io_tables w) !! k = Some row.
Proof.
  revert w. induction candidates as [|x l IH]; intros w; [done|]. cbn [find_in_table]. unfold mbind, io_bind, map_error.
  destruct (fetch (fun _ t => rt_entries t !! x) w) as [[o|e] w1] eqn:E; [|done]. cbn [map_err].
  assert (io_tables w1 = io_tables w /\ o = rt_entries (io_tables w) !! x) as [H1 ->].
  { revert E. unfold fetch, sql, step. destruct (io_faults w) as [|[] ?]; [|done|]; by intros [= <- <-]. }
  destruct (rt_entries (io_tables w) !! x) as [row'|] eqn:Ex; [intros [= <- _]; by exists x|]. rewrite <- H1. apply IH.
Qed.

(** Whoever looks, an entry that is shown is in Redis or in the table. *)
Lemma entry_shown user q (w w2 : RecordWorld) row :
  (forall k r, rt_entries (io_tables w) !! k = Some r -> cn_cache_key r = k) ->
  get_entry true user q w = (Ok row, w2) ->
  (is_empty (trim (cn_cache_key row)) = false /\ is_Some (cw_redis (rt_cache (io_tables w)) !! cn_cache_key row)) \/ is_Some (rt_entries (io_tables w) !! cn_cache_key row).
Proof.
  intros Hkeys. unfold get_entry, mbind, io_bind. destruct (require_roles _ _); [|done]. cbn [mret io_ret].
  unfold on_cache. destruct (find_in_redis _ _) as [[[[k v] e]|] c] eqn:E; cbn [mret].
  - intros [= <- _]. cbn. left. by eapply find_in_redis_there.
  - intros (k & Hk)%find_in_table_there. cbn in Hk. right. exists row. by rewrite (Hkeys k row Hk).
Qed.

(** Deleting a row of [cache_entries], which no service of the repository writes: a decision that is only
    in Redis is refused with 404 and stays ([redis_entry_not_deleted]).  Deleting an entry changes no
    other entry, neither in the table nor in Redis.  When it is answered, the caller may administer the cache and, Redis not failing, no
    lookup shows the entry any more, whatever variant of the key it is asked for; a refusal changes
    nothing. *)
Theorem cache_entry_deleted user key (w w1 : RecordWorld) r :
  (forall k row, rt_entries (io_tables w) !! k = Some row -> cn_cache_key row = k) -> no_faults (rt_cache (io_tables w)) ->
  delete_entry true user key w = (r, w1) ->
  (forall k, k <> key -> rt_entries (io_tables w1) !! k = rt_entries (io_tables w) !! k /\
    cw_redis (rt_cache (io_tables w1)) !! k = cw_redis (rt_cache (io_tables w)) !! k) /\
  match r with
  | Ok _ => require_roles user ROLE_CACHE_ADMIN = true /\ is_Some (rt_entries (io_tables w) !! key) /\
      forall viewer q row w2, get_entry true viewer q w1 = (Ok row, w2) -> cn_cache_key row <> key
  | Err _ => io_tables w1 = io_tables w
  end.
Proof.
  intros Hkeys Hf. unfold delete_entry, record_guard, record_db, mbind, io_bind, map_error. destruct (require_roles user _) eqn:Hu; [|by intros [= <- <-]].
  cbn [mret io_ret]. destruct (sql _ w) as [[there|e] wa] eqn:E.
  2: { assert (io_tables wa = io_tables w) as Ha by (revert E; unfold sql, step; destruct (io_faults w) as [|[] ?]; by intros [= _ <-]).
       cbn [map_err]. intros [= <- <-]. by rewrite Ha. }
  assert (there = bool_decide (is_Some (rt_entries (io_tables w) !! key)) /\ io_tables wa = set_entries (delete key (rt_entries (io_tables w))) (io_tables w))
    as [Ht Ha] by (revert E; unfold sql, step; destruct (io_faults w) as [|[] ?]; [|done|]; by intros [= <- <-]).
  cbn [map_err]. destruct there.
  - symmetry in Ht. apply bool_decide_eq_true in Ht. unfold invalidate_cache_key, on_cache. rewrite Ha. cbn [rt_cache set_entries]. intros [= <- <-]. cbn.
    set (c1 := (invalidate_key key (rt_cache (io_tables w))).2).
    assert (cw_redis c1 = if is_empty (trim key) then cw_redis (rt_cache (io_tables w)) else delete key (cw_redis (rt_cache (io_tables w)))) as Hc1.
    { unfold c1, invalidate_key. destruct (is_empty (trim key)) eqn:Hk; [unfold delete_key; by rewrite Hk|].
      destruct (delete_key_ok key (rt_cache (io_tables w)) Hf Hk) as (c' & -> & [Hc' _]). exact Hc'. }
    split; [intros k Hk; rewrite lookup_delete_ne by done; rewrite Hc1; by destruct (is_empty (trim key)); rewrite ?lookup_delete_ne|].
    split_and!; [done|done|]. intros viewer q row w2 Hg E'. apply entry_shown in Hg.
    + rewrite E' in Hg. cbn in Hg. rewrite Hc1, lookup_delete_eq in Hg. destruct Hg as [[Hk Hg]|[? Hg]]; [|done].
      rewrite Hk, lookup_delete_eq in Hg. by destruct Hg.
    + cbn. intros k row' [_ Hrow]%lookup_delete_Some. by apply Hkeys.
  - symmetry in Ht. apply bool_decide_eq_false in Ht. intros [= <- <-]. rewrite Ha. cbn. rewrite delete_id; [by destruct (io_tables w)|].
    by apply eq_None_not_Some.
Qed.
End Deleted.

(** ** Logs *)

Section Logs.
  Context `{T : JsonText} `{B : Base64} `{X : Texts}.

(** A page of the log is the page of its operator's rows, so that following the cursors shows them all
    (the walk of [Pagination.v]; every key is an anchor). *)
Lemma cli_logs_page user query (w : RecordWorld) :
  require_roles user ROLE_AUDIT_VIEW = true -> calm w ->
  (list_cli_logs user query w).1 =
    map_err (fun _ => BAD_REQUEST)
      (cursor_page cli_log_key newest (fun _ => false) (cq_cursor query) (cq_limit query) (cli_log_rows (cq_operator_id query) (rt_cli_logs (io_tables w)))).
Proof.
  intros Hu Hc. unfold list_cli_logs, cursor_page, mbind, io_bind, map_error. rewrite Hu. cbn [mret io_ret]. unfold of_result.
  destruct (decode_position (cq_cursor query)) as [position|e]; cbn [map_err result_bind]; [|done]. by rewrite fetch_calm.
Qed.

(** An audit event is stored once or not at all, and only a stored one is exported. *)
Lemma audit_log_stored elastic event (w : RecordWorld) :
  let w' := (audit_log elastic event w).2 in
  (rt_audit (io_tables w') = rt_audit (io_tables w) /\ io_trace w' = io_trace w) \/
  exists row, rt_audit (io_tables w') = rt_audit (io_tables w) ++ [row] /\ ar_event row = event /\ ar_id row = io_next_uuid w /\
    (io_trace w' = io_trace w \/ exists url record, io_trace w' = io_trace w ++ [AuditExport url record] /\ ar_event record = event /\ ar_id record = ar_id row).
Proof.
  unfold audit_log, outcome, insert_event, mbind, io_bind, new_v4. unfold update at 1, sql at 1, step at 1. cbn [io_faults].
  assert (forall exporter record (w1 : RecordWorld), let w2 := (send exporter record w1).2 in io_tables w2 = io_tables w1 /\
    (io_trace w2 = io_trace w1 \/ exists url, io_trace w2 = io_trace w1 ++ [AuditExport url record])) as Hsend.
  { intros exporter record w1. unfold send, command, step. destruct (io_faults w1) as [|[] ?]; cbn; (split; [done|]); [right; by eexists|by left|right; by eexists]. }
  destruct (io_faults w) as [|[] fs] eqn:E; cbn; [|by left|]; right; (destruct elastic as [exporter|]; [|eexists; split_and!; [done|done|done|by left]]);
    unfold dropped; cbn [snd]; match goal with |- context [send exporter ?r ?w1] => destruct (Hsend exporter r w1) as [-> Ht] end; eexists; (split_and!; [done|done|done|]);
    (destruct Ht as [->|[url ->]]; [by left|right; by eexists _, _]).
Qed.
End Logs.

(** ** Examples *)

Module RecordsDemo.

#[local] Existing Instance JsonDemo.text.
#[local] Existing Instance CacheDemo.server.

Definition viewer : UserContext := {| uc_actor := "vera"; uc_roles := {[ "policy-viewer" ]} |}.
Definition admin : UserContext := {| uc_actor := "ada"; uc_roles := {[ "policy-admin" ]} |}.

Definition page (id : Uuid) (version : Z) (text : option string) : FetchedPage :=
  {| fp_id := id; fp_normalized_key := "domain:a.org"; fp_fetch_version := version; fp_content_type := None; fp_content_hash := None;
     fp_text_excerpt := text; fp_char_count := None; fp_byte_count := None; fp_fetch_status := "ok"; fp_fetch_reason := None;
     fp_ttl_seconds := 3600; fp_fetched_at := version * 10; fp_source_url := None; fp_resolved_url := None; fp_attempt_summary := None |}.
Definition long_text : string := String.concat " " (replicate 40 "word").
Definition entry (key : string) : CacheEntryRecord :=
  {| cn_cache_key := key; cn_value := JStr "Block"; cn_expires_at := 9000; cn_source := None; cn_created_at := 0 |}.
(** One decision in Redis only, one in both. *)
Definition redis : Keyspace :=
  {[ "domain:a.org" := {| re_payload := "Allow"; re_expires_at := 60000 |}; "subdomain:www.b.org" := {| re_payload := "Block"; re_expires_at := 60000 |} ]}.
Definition world : RecordWorld := mkIo 1000 None [] 5%nat []
  {| rt_pages := [page 1%nat 1 (Some "old"); page 2%nat 2 (Some long_text); page 3%nat 3 None]; rt_cli_logs := []; rt_audit := [];
     rt_entries := {[ "domain:a.org" := entry "domain:a.org" ]};
     rt_cache := {| cw_memory := ∅; cw_redis := redis; cw_faults := []; cw_now := 1000 |} |}.

Lemma world_pages : pages_ok 3 (io_next_uuid world, {| ft_pages := rt_pages (io_tables world); ft_markers := ∅ |}).
Proof.
  split; cbn [fst snd ft_pages].
  - apply (bool_decide_unpack _). vm_compute. exact I.
  - apply Forall_forall. apply (bool_decide_unpack _). vm_compute. exact I.
  - apply (bool_decide_unpack _). vm_compute. exact I.
  - apply Forall_forall. apply (bool_decide_unpack _). vm_compute. exact I.
  - intros key. cbn. unfold of_key. cbn. case_bool_decide; cbn; lia.
Qed.

Lemma page_content_shown_witness :
  (exists shown, list_page_content_history viewer "domain:a.org" (Some 2) world = (Ok (map_summary_row <$> shown), elapse world) /\
    StronglySorted newer shown /\ fp_fetch_version <$> shown = [3; 2]) /\
  exists record, (get_page_content viewer "domain:a.org" (Some 2) (Some 10) world).1 = Ok record /\ pr_excerpt_truncated record = true.
Proof.
  destruct (page_content_shown 3 world viewer "domain:a.org" world_pages (Some 2) (Some 10)) as (shown & Hh & Hs & _ & _ & _ & Hrow);
    [vm_compute; reflexivity|reflexivity|].
  assert (fp_fetch_version <$> shown = [3; 2]) as Hv.
  { assert ((fun l : list PageContentSummary => ps_fetch_version <$> l) <$> result_ok (list_page_content_history viewer "domain:a.org" (Some 2) world).1 = Some [3; 2]) as H
      by (vm_compute; reflexivity).
    rewrite Hh in H. injection H as H. by rewrite <- list_fmap_compose in H. }
  split; [by exists shown|]. destruct shown as [|r1 [|r2 []]]; try discriminate Hv. destruct (Hrow r2) as (_ & _ & record & Hr & _); [by right; left|].
  exists record. injection Hv as _ Hv. rewrite Hv in Hr. split; [exact Hr|]. vm_compute in Hr. injection Hr as <-. reflexivity.
Defined.

Lemma cache_entry_deleted_witness :
  (delete_entry true admin "domain:a.org" world).1 = Ok tt /\
  forall q, ~ (exists row, (get_entry true viewer q (delete_entry true admin "domain:a.org" world).2).1 = Ok row /\ cn_cache_key row = "domain:a.org").
Proof.
  destruct (delete_entry true admin "domain:a.org" world) as [r w1] eqn:E.
  assert (r = Ok tt) as -> by (apply (f_equal fst) in E; vm_compute in E; by rewrite <- E). split; [reflexivity|]. cbn [snd].
  destruct (cache_entry_deleted admin "domain:a.org" world w1 (Ok tt)) as (_ & _ & _ & H).
  - intros k row. change (rt_entries (io_tables world)) with ({[ "domain:a.org" := entry "domain:a.org" ]} : gmap string CacheEntryRecord).
    intros [<- <-]%lookup_singleton_Some. reflexivity.
  - constructor.
  - exact E.
  - intros q (row & Hr & Hk). destruct (get_entry true viewer q w1) as [r2 w2] eqn:E2. cbn in Hr. subst r2. by apply (H viewer q row w2).
Defined.

(** A decision that is only in Redis is shown, and cannot be deleted: no code writes [cache_entries],
    and the route answers 404 before it asks for the invalidation. *)
Example redis_entry_not_deleted :
  cn_cache_key <$> result_ok (get_entry true viewer "domain:b.org" world).1 = Some "subdomain:www.b.org" /\
  (delete_entry true admin "subdomain:www.b.org" world).1 = Err (page_error NOT_FOUND "NOT_FOUND" "cache entry not found") /\
  cn_cache_key <$> result_ok (get_entry true viewer "domain:b.org" (delete_entry true admin "subdomain:www.b.org" world).2).1 = Some "subdomain:www.b.org".
Proof. vm_compute. done. Qed.

Example candidates_of_a_host :
  cache_key_candidates " WWW.Example.com " = ["www.example.com"; "subdomain:www.example.com"; "subdomain:www.www.example.com"; "domain:www.example.com"] /\
  cache_key_candidates "subdomain:www.example.com" = ["subdomain:www.example.com"; "domain:example.com"].
Proof. vm_compute. done. Qed.

End RecordsDemo.
