(* ===== verification/AdminOverrides.v ===== *)
(** * Overrides in the admin API

    [services/admin-api/src/main.rs]: validation of override requests, the handlers that create,
    update, delete and import overrides, the exchange format, and the cache invalidations they
    send.  The table [overrides] is a list of rows; a statement may fail ([os_faults]), and then
    the transaction it is part of is rolled back.  In Postgres [NOW()] is the start of the
    transaction.  The trace records the invalidations and the commits in the order they happen.
    The audit row of a handler ([log_override_event]) goes to another table and is left out. *)

From S2P Require Import Prelude RustStr Types Http Db.

Definition ROLE_OVERRIDES_WRITE : list string := ["policy-admin"; "policy-editor"].
Definition ROLE_OVERRIDES_DELETE : list string := ["policy-admin"].

Record OverrideRecord := {
  ov_id : Uuid; ov_scope_type : string; ov_scope_value : string; ov_action : string;
  ov_reason : option string; ov_created_by : option string; ov_expires_at : option Z;
  ov_status : string; ov_created_at : Z; ov_updated_at : Z
}.

Record OverrideUpsertRequest := {
  ou_scope_type : string; ou_scope_value : string; ou_action : string; ou_reason : option string;
  ou_created_by : option string; ou_expires_at : option Z; ou_status : option string
}.

Record ValidatedOverridePayload := {
  vo_scope_type : string; vo_scope_value : string; vo_action : string; vo_reason : option string;
  vo_created_by : option string; vo_expires_at : option Z; vo_status : option string
}.

(** ** Validation *)

Definition validation_error (message : string) : HttpError :=
  {| he_status := BAD_REQUEST; he_code := "VALIDATION_ERROR"; he_message := message |}.

Definition ALLOWED_SCOPE_TYPES : list string := ["domain"].
Definition ALLOWED_ACTIONS : list string := ["allow"; "block"].
Definition ALLOWED_STATUSES : list string := ["active"; "inactive"; "expired"; "revoked"].

Definition normalize_scope_type (value : string) : result HttpError string :=
  let normalized := to_ascii_lowercase (trim value) in
  if is_empty normalized then Err (validation_error "scope_type required")
  else if decide (normalized ∈ ALLOWED_SCOPE_TYPES) then Ok normalized
  else Err (validation_error "scope_type must be domain").

Definition scope_char (c : ascii) : bool :=
  is_ascii_alphanumeric c || bool_decide (c = "-"%char) || bool_decide (c = "."%char).

Definition normalize_domain_scope (value : string) : result HttpError string :=
  let lowered := to_ascii_lowercase (trim value) in
  if is_empty lowered then Err (validation_error "scope_value required for domain overrides")
  else
    let '(wildcard_prefix, domain_part) :=
      match strip_prefix "*." lowered with
      | Some rest => ("*.", rest)
      | None => ("", lowered)
      end in
    if is_empty domain_part || negb (contains "." domain_part) then
      Err (validation_error "domain scope must include a valid hostname")
    else if decide (253 < str_len domain_part) then
      Err (validation_error "domain scope exceeds maximum length")
    else if negb (str_forall scope_char domain_part) then
      Err (validation_error "domain scope may only include alphanumeric, '-', '.' characters")
    else Ok (wildcard_prefix +:+ domain_part).

Definition normalize_scope_value (scope_type value : string) : result HttpError string :=
  if decide (scope_type = "domain") then normalize_domain_scope value
  else Err (validation_error "unsupported scope_type").

Definition normalize_action (value : string) : result HttpError string :=
  let normalized := to_ascii_lowercase (trim value) in
  if is_empty normalized then Err (validation_error "action required")
  else if decide (normalized ∈ ALLOWED_ACTIONS) then Ok normalized
  else Err (validation_error "action must be one of allow|block").

Definition normalize_status (value : string) : result HttpError string :=
  let normalized := to_ascii_lowercase (trim value) in
  if is_empty normalized then Err (validation_error "status cannot be empty")
  else if decide (normalized ∈ ALLOWED_STATUSES) then Ok normalized
  else Err (validation_error "status must be one of active|inactive|expired|revoked").

Definition normalize_optional_field (value : option string) : option string :=
  v ← value; let trimmed := trim v in if is_empty trimmed then None else Some trimmed.

Definition validate_override_payload (payload : OverrideUpsertRequest)
    : result HttpError ValidatedOverridePayload :=
  scope_type ← normalize_scope_type (ou_scope_type payload);
  scope_value ← normalize_scope_value scope_type (ou_scope_value payload);
  action ← normalize_action (ou_action payload);
  status ← match ou_status payload with
           | Some value => s ← normalize_status value; Ok (Some s)
           | None => Ok None
           end;
  Ok {| vo_scope_type := scope_type; vo_scope_value := scope_value; vo_action := action;
        vo_reason := normalize_optional_field (ou_reason payload);
        vo_created_by := normalize_optional_field (ou_created_by payload);
        vo_expires_at := ou_expires_at payload; vo_status := status |}.

(** ** The exchange format *)

Record OverrideImportInvalidLine := { il_line_number : nat; il_value : string; il_error : string }.
Record ParsedOverrideImport := {
  pi_total_lines : nat; pi_scopes : list string; pi_duplicates : nat;
  pi_invalid_lines : list OverrideImportInvalidLine
}.

(** One line; [scopes] also is the set of scopes seen so far. *)
Definition exchange_line (p : ParsedOverrideImport) (raw_line : string) : ParsedOverrideImport :=
  let total := S (pi_total_lines p) in
  let trimmed := trim raw_line in
  if is_empty trimmed || starts_with "#" trimmed then
    {| pi_total_lines := total; pi_scopes := pi_scopes p; pi_duplicates := pi_duplicates p;
       pi_invalid_lines := pi_invalid_lines p |}
  else
    match normalize_domain_scope trimmed with
    | Ok scope_value =>
        if decide (scope_value ∈ pi_scopes p) then
          {| pi_total_lines := total; pi_scopes := pi_scopes p; pi_duplicates := S (pi_duplicates p);
             pi_invalid_lines := pi_invalid_lines p |}
        else
          {| pi_total_lines := total; pi_scopes := pi_scopes p ++ [scope_value];
             pi_duplicates := pi_duplicates p; pi_invalid_lines := pi_invalid_lines p |}
    | Err e =>
        {| pi_total_lines := total; pi_scopes := pi_scopes p; pi_duplicates := pi_duplicates p;
           pi_invalid_lines := pi_invalid_lines p ++
             [{| il_line_number := total; il_value := trimmed; il_error := he_message e |}] |}
    end.

Definition parse_override_exchange_lines (content : string) : ParsedOverrideImport :=
  foldl exchange_line
    {| pi_total_lines := 0; pi_scopes := []; pi_duplicates := 0; pi_invalid_lines := [] |} (lines content).

Inductive OverrideImportMode := Merge | Replace.
Definition normalize_override_import_mode (value : option string) : result HttpError OverrideImportMode :=
  let normalized := to_ascii_lowercase (trim (default "merge" value)) in
  if decide (normalized = "merge") then Ok Merge
  else if decide (normalized = "replace") then Ok Replace
  else Err (validation_error "mode must be merge|replace").

(** ** The table *)

Inductive OvEvent := Invalidate (scope_type scope_value : string) | Committed.

Record OvState := {
  os_rows : list OverrideRecord;
  os_now : Z;
  os_next_uuid : Uuid;
  os_faults : list bool;
  os_trace : list OvEvent
}.

Definition OvM (A : Type) : Type := OvState -> result HttpError A * OvState.
Global Instance ovm_ret : MRet OvM := fun A a s => (Ok a, s).
Global Instance ovm_bind : MBind OvM := fun A B f m s =>
  match m s with
  | (Ok a, s') => f a s'
  | (Err e, s') => (Err e, s')
  end.
Definition ov_lift {A} (r : result HttpError A) : OvM A := fun s => (r, s).

Definition db_error : HttpError :=
  {| he_status := INTERNAL_SERVER_ERROR; he_code := "DB_ERROR"; he_message := "database error" |}.
Definition not_found : HttpError :=
  {| he_status := NOT_FOUND; he_code := "NOT_FOUND"; he_message := "override not found" |}.
Definition ov_forbidden : HttpError :=
  {| he_status := FORBIDDEN; he_code := "FORBIDDEN"; he_message := "insufficient privileges" |}.

Definition set_rows (rows : list OverrideRecord) (s : OvState) : OvState :=
  {| os_rows := rows; os_now := os_now s; os_next_uuid := os_next_uuid s; os_faults := os_faults s;
     os_trace := os_trace s |}.
Definition emit (e : OvEvent) : OvM unit := fun s =>
  (Ok tt, {| os_rows := os_rows s; os_now := os_now s; os_next_uuid := os_next_uuid s;
             os_faults := os_faults s; os_trace := os_trace s ++ [e] |}).

(** One statement (or [BEGIN], [COMMIT]): the next entry of the fault script decides. *)
Definition ov_stmt {A} (f : OvState -> A * OvState) : OvM A := fun s =>
  let s' := {| os_rows := os_rows s; os_now := os_now s; os_next_uuid := os_next_uuid s;
               os_faults := tail (os_faults s); os_trace := os_trace s |} in
  match os_faults s with
  | true :: _ => (Err db_error, s')
  | _ => let '(a, s'') := f s' in (Ok a, s'')
  end.
Definition ov_select {A} (f : list OverrideRecord -> A) : OvM A := ov_stmt (fun s => (f (os_rows s), s)).
(** [UPDATE overrides SET .. WHERE p RETURNING *]. *)
Definition ov_update (p : OverrideRecord -> bool) (f : Z -> OverrideRecord -> OverrideRecord)
    : OvM (list OverrideRecord) :=
  ov_stmt (fun s =>
    (f (os_now s) <$> List.filter p (os_rows s),
     set_rows ((fun r => if p r then f (os_now s) r else r) <$> os_rows s) s)).
Definition ov_insert (r : Z -> Uuid -> OverrideRecord) : OvM OverrideRecord :=
  ov_stmt (fun s =>
    let row := r (os_now s) (os_next_uuid s) in
    (row, {| os_rows := os_rows s ++ [row]; os_now := os_now s; os_next_uuid := S (os_next_uuid s);
             os_faults := os_faults s; os_trace := os_trace s |})).

(** [pool.begin() .. tx.commit()]: an error on the way, or of the commit, rolls back. *)
Definition transaction {A} (m : OvM A) : OvM A := fun s =>
  match ov_stmt (fun s => (tt, {| os_rows := os_rows s; os_now := os_now s + 1; os_next_uuid := os_next_uuid s;
                                  os_faults := os_faults s; os_trace := os_trace s |})) s with
  | (Err e, s1) => (Err e, s1)
  | (Ok _, s1) =>
      match (a ← m; _ ← ov_stmt (fun s => (tt, s)); _ ← emit Committed; mret a) s1 with
      | (Ok a, s2) => (Ok a, s2)
      | (Err e, s2) => (Err e, set_rows (os_rows s1) s2)
      end
  end.

(** ** The handlers *)

Definition is_active (r : OverrideRecord) : bool := bool_decide (ov_status r = "active").
Definition in_override_scope (scope_type scope_value : string) (r : OverrideRecord) : bool :=
  bool_decide (ov_scope_type r = scope_type) && bool_decide (ov_scope_value r = scope_value).
Definition has_id (ids : list Uuid) (r : OverrideRecord) : bool := bool_decide (ov_id r ∈ ids).

(** [ORDER BY updated_at DESC, created_at DESC, id DESC]. *)
Definition newest_first (rows : list OverrideRecord) : list OverrideRecord :=
  order_desc ov_updated_at (order_desc ov_created_at (order_desc (fun r => Z.of_nat (ov_id r)) rows)).

(** [SET status = 'revoked', updated_at = NOW()]. *)
Definition revoke (now : Z) (r : OverrideRecord) : OverrideRecord :=
  {| ov_id := ov_id r; ov_scope_type := ov_scope_type r; ov_scope_value := ov_scope_value r;
     ov_action := ov_action r; ov_reason := ov_reason r; ov_created_by := ov_created_by r;
     ov_expires_at := ov_expires_at r; ov_status := "revoked"; ov_created_at := ov_created_at r;
     ov_updated_at := now |}.

(** [SET action = .., reason = .., created_by = .., expires_at = .., status = .., updated_at = NOW()]. *)
Definition set_override (action : string) (reason created_by : option string) (expires_at : option Z)
    (status : string) (now : Z) (r : OverrideRecord) : OverrideRecord :=
  {| ov_id := ov_id r; ov_scope_type := ov_scope_type r; ov_scope_value := ov_scope_value r;
     ov_action := action; ov_reason := reason; ov_created_by := created_by;
     ov_expires_at := expires_at; ov_status := status; ov_created_at := ov_created_at r;
     ov_updated_at := now |}.

Definition move_scope (scope_type scope_value : string) (r : OverrideRecord) : OverrideRecord :=
  {| ov_id := ov_id r; ov_scope_type := scope_type; ov_scope_value := scope_value;
     ov_action := ov_action r; ov_reason := ov_reason r; ov_created_by := ov_created_by r;
     ov_expires_at := ov_expires_at r; ov_status := ov_status r; ov_created_at := ov_created_at r;
     ov_updated_at := ov_updated_at r |}.

Definition new_row (v : ValidatedOverridePayload) (status : string) (now : Z) (id : Uuid) : OverrideRecord :=
  {| ov_id := id; ov_scope_type := vo_scope_type v; ov_scope_value := vo_scope_value v;
     ov_action := vo_action v; ov_reason := vo_reason v; ov_created_by := vo_created_by v;
     ov_expires_at := vo_expires_at v; ov_status := status; ov_created_at := now; ov_updated_at := now |}.

Definition with_creator (user : UserContext) (p : OverrideUpsertRequest) : OverrideUpsertRequest :=
  {| ou_scope_type := ou_scope_type p; ou_scope_value := ou_scope_value p; ou_action := ou_action p;
     ou_reason := ou_reason p;
     ou_created_by := match ou_created_by p with Some c => Some c | None => Some (uc_actor user) end;
     ou_expires_at := ou_expires_at p; ou_status := ou_status p |}.

(** [fetch_one]: an error when there is no row. *)
Definition fetch_one {A} (rows : list A) : OvM A := ov_lift (ok_or (head rows) db_error).

Definition create_rows (v : ValidatedOverridePayload) (status_value : string) : OvM OverrideRecord :=
  if eq_ignore_ascii_case status_value "active" then
    active_rows ← ov_select (fun rows =>
      ov_id <$> newest_first (List.filter (fun r =>
        in_override_scope (vo_scope_type v) (vo_scope_value v) r && is_active r) rows));
    _ ← (if decide (tail active_rows = []) then mret []
         else ov_update (has_id (tail active_rows)) revoke);
    match head active_rows with
    | Some active_id =>
        rows ← ov_update (has_id [active_id])
          (set_override (vo_action v) (vo_reason v) (vo_created_by v) (vo_expires_at v) status_value);
        fetch_one rows
    | None => ov_insert (new_row v status_value)
    end
  else ov_insert (new_row v status_value).

Definition create_override (user : UserContext) (payload : OverrideUpsertRequest) : OvM OverrideRecord :=
  if require_roles user ROLE_OVERRIDES_WRITE then
    v ← ov_lift (validate_override_payload (with_creator user payload));
    row ← transaction (create_rows v (default "active" (vo_status v)));
    _ ← emit (Invalidate (ov_scope_type row) (ov_scope_value row));
    mret row
  else ov_lift (Err ov_forbidden).

Definition delete_override (user : UserContext) (id : Uuid) : OvM unit :=
  if require_roles user ROLE_OVERRIDES_DELETE then
    deleted ← ov_stmt (fun s =>
      (head (List.filter (has_id [id]) (os_rows s)),
       set_rows (List.filter (fun r => negb (has_id [id] r)) (os_rows s)) s));
    match deleted with
    | None => ov_lift (Err not_found)
    | Some row => emit (Invalidate (ov_scope_type row) (ov_scope_value row))
    end
  else ov_lift (Err ov_forbidden).

Definition override_invalidation_scopes (previous_scope_type previous_scope_value
    updated_scope_type updated_scope_value : string) : list (string * string) :=
  (previous_scope_type, previous_scope_value) ::
  if decide (previous_scope_type <> updated_scope_type \/ previous_scope_value <> updated_scope_value)
  then [(updated_scope_type, updated_scope_value)] else [].

(** The rows of an update: the scope before, and the row after. *)
Definition update_rows (id : Uuid) (v : ValidatedOverridePayload) : OvM (string * string * OverrideRecord) :=
  existing ← ov_select (fun rows => head (List.filter (has_id [id]) rows));
  existing_row ← ov_lift (ok_or existing not_found);
  let next_status := default (ov_status existing_row) (vo_status v) in
  _ ← (if eq_ignore_ascii_case next_status "active" then
         ov_update (fun r => in_override_scope (vo_scope_type v) (vo_scope_value v) r && is_active r &&
                             negb (has_id [id] r)) revoke
       else mret []);
  rows ← ov_update (has_id [id]) (fun now r =>
    move_scope (vo_scope_type v) (vo_scope_value v)
      (set_override (vo_action v) (vo_reason v) (vo_created_by v) (vo_expires_at v) next_status now r));
  row ← ov_lift (ok_or (head rows) not_found);
  mret (ov_scope_type existing_row, ov_scope_value existing_row, row).

Fixpoint invalidate_all (scopes : list (string * string)) : OvM unit :=
  match scopes with
  | [] => mret tt
  | (t, v) :: scopes' => _ ← emit (Invalidate t v); invalidate_all scopes'
  end.

Definition update_override (user : UserContext) (id : Uuid) (payload : OverrideUpsertRequest)
    : OvM OverrideRecord :=
  if require_roles user ROLE_OVERRIDES_WRITE then
    v ← ov_lift (validate_override_payload (with_creator user payload));
    res ← transaction (update_rows id v);
    let '(previous_type, previous_value, row) := res in
    _ ← invalidate_all (override_invalidation_scopes previous_type previous_value
                          (ov_scope_type row) (ov_scope_value row));
    mret row
  else ov_lift (Err ov_forbidden).

(** ** Import *)

Record OverrideImportResponse := {
  ir_action : string; ir_mode : OverrideImportMode; ir_dry_run : bool; ir_total_lines : nat;
  ir_parsed : nat; ir_duplicates : nat; ir_imported : nat; ir_updated : nat; ir_deleted : nat;
  ir_skipped : nat; ir_invalid_lines : list OverrideImportInvalidLine
}.

(** What the first query finds: the active row of a scope, the newest row of a scope and action,
    and the active rows that duplicate one. *)
Record Existing := {
  ex_active : gmap string Uuid;
  ex_latest : gmap (string * string) Uuid;
  ex_active_scopes : gset (string * string);
  ex_duplicates : list Uuid
}.

Definition existing_row (e : Existing) (r : OverrideRecord) : Existing :=
  let key := (ov_scope_value r, ov_action r) in
  let latest := match ex_latest e !! key with Some _ => ex_latest e | None => <[key := ov_id r]> (ex_latest e) end in
  if eq_ignore_ascii_case (ov_status r) "active" then
    match ex_active e !! ov_scope_value r with
    | Some _ =>
        {| ex_active := ex_active e; ex_latest := latest; ex_active_scopes := ex_active_scopes e;
           ex_duplicates := ex_duplicates e ++ [ov_id r] |}
    | None =>
        {| ex_active := <[ov_scope_value r := ov_id r]> (ex_active e); ex_latest := latest;
           ex_active_scopes := {[key]} ∪ ex_active_scopes e; ex_duplicates := ex_duplicates e |}
    end
  else {| ex_active := ex_active e; ex_latest := latest; ex_active_scopes := ex_active_scopes e;
          ex_duplicates := ex_duplicates e |}.

(** The order between different scopes has no effect on the maps, and none on what is done with
    the duplicates. *)
Definition existing_rows (rows : list OverrideRecord) : Existing :=
  foldl existing_row {| ex_active := ∅; ex_latest := ∅; ex_active_scopes := ∅; ex_duplicates := [] |}
    (newest_first (List.filter (fun r => bool_decide (ov_scope_type r = "domain")) rows)).

Definition IMPORT_REASON : string := "Imported via Allow / Deny Exchange".

(** The row a scope is written to; the counters of imported and updated rows. *)
Definition import_scope (user : UserContext) (action : string) (acc : Existing * nat * nat)
    (scope_value : string) : OvM (Existing * nat * nat) :=
  let '(e, imported, updated) := acc in
  let key := (scope_value, action) in
  let set_active id :=
    {| ex_active := <[scope_value := id]> (ex_active e); ex_latest := <[key := id]> (ex_latest e);
       ex_active_scopes := ex_active_scopes e; ex_duplicates := ex_duplicates e |} in
  let write id :=
    ov_update (has_id [id]) (set_override action (Some IMPORT_REASON) (Some (uc_actor user)) None "active") in
  res ← match ex_active e !! scope_value with
        | Some active_id => _ ← write active_id; mret (set_active active_id, imported, S updated)
        | None =>
            match ex_latest e !! key with
            | Some existing_id => _ ← write existing_id; mret (set_active existing_id, imported, S updated)
            | None =>
                row ← ov_insert (fun now id =>
                  {| ov_id := id; ov_scope_type := "domain"; ov_scope_value := scope_value; ov_action := action;
                     ov_reason := Some IMPORT_REASON; ov_created_by := Some (uc_actor user);
                     ov_expires_at := None; ov_status := "active"; ov_created_at := now; ov_updated_at := now |});
                mret (set_active (ov_id row), S imported, updated)
            end
        end;
  _ ← emit (Invalidate "domain" scope_value);
  mret res.

Fixpoint import_scopes (user : UserContext) (action : string) (acc : Existing * nat * nat)
    (scopes : list string) : OvM (Existing * nat * nat) :=
  match scopes with
  | [] => mret acc
  | scope :: scopes' => acc' ← import_scope user action acc scope; import_scopes user action acc' scopes'
  end.

(** The rows [Replace] removes. *)
Definition replaced (action : string) (scopes : list string) (r : OverrideRecord) : bool :=
  bool_decide (ov_scope_type r = "domain") && bool_decide (ov_action r = action) && is_active r &&
  bool_decide (ov_scope_value r ∉ scopes).

Definition import_rows (user : UserContext) (action : string) (mode : OverrideImportMode) (e : Existing)
    (scopes : list string) : OvM (nat * nat * nat) :=
  _ ← (if decide (ex_duplicates e = []) then mret [] else ov_update (has_id (ex_duplicates e)) revoke);
  res ← import_scopes user action (e, 0, 0) scopes;
  let '(_, imported, updated) := res in
  match mode with
  | Merge => mret (imported, updated, 0)
  | Replace =>
      removed ← ov_stmt (fun s =>
        (List.filter (replaced action scopes) (os_rows s),
         set_rows (List.filter (fun r => negb (replaced action scopes r)) (os_rows s)) s));
      _ ← invalidate_all ((fun r => (ov_scope_type r, ov_scope_value r)) <$> removed);
      mret (imported, updated, length removed)
  end.

Definition import_overrides (user : UserContext) (action_text : string) (mode_text : option string)
    (dry_run : option bool) (content : string) : OvM OverrideImportResponse :=
  if require_roles user ROLE_OVERRIDES_WRITE then
    action ← ov_lift (normalize_action action_text);
    mode ← ov_lift (normalize_override_import_mode mode_text);
    let dry_run := default true dry_run in
    let parsed := parse_override_exchange_lines content in
    let scopes := pi_scopes parsed in
    e ← ov_select existing_rows;
    let known scope :=
      bool_decide (is_Some (ex_active e !! scope)) || bool_decide (is_Some (ex_latest e !! (scope, action))) in
    let deleted_would :=
      match mode with
      | Replace => size (filter (fun sa => sa.2 = action /\ sa.1 ∉ scopes) (ex_active_scopes e))
      | Merge => 0
      end in
    counts ← (if dry_run then
                mret (length (List.filter (fun s => negb (known s)) scopes),
                      length (List.filter known scopes), deleted_would)
              else transaction (import_rows user action mode e scopes));
    let '(imported, updated, deleted) := counts in
    mret {| ir_action := action; ir_mode := mode; ir_dry_run := dry_run;
            ir_total_lines := pi_total_lines parsed; ir_parsed := length scopes;
            ir_duplicates := pi_duplicates parsed; ir_imported := imported; ir_updated := updated;
            ir_deleted := deleted; ir_skipped := 0; ir_invalid_lines := pi_invalid_lines parsed |}
  else ov_lift (Err ov_forbidden).

(** ** Validated scopes *)

Lemma scope_char_graphic c : scope_char c = true -> is_graphic c = true.
Proof.
  unfold scope_char, is_ascii_alphanumeric, is_ascii_upper, is_ascii_lower, is_ascii_digit, is_graphic, between.
  rewrite !orb_true_iff, !andb_true_iff, !N.leb_le, !bool_decide_eq_true.
  intros [[[[?|?]|?]| ->]| ->]; try (vm_compute; split; congruence); lia.
Qed.

Lemma scope_graphic s : str_forall scope_char s = true -> graphic s = true.
Proof.
  induction s as [|c s IH]; [done|]. cbn [str_forall]. rewrite !andb_true_iff.
  intros [Hc Hs]. split; [by apply scope_char_graphic|by apply IH].
Qed.

(** An accepted scope is its own normal form: lower case, visible characters, at least one dot. *)
Definition canonical_scope (s : string) : Prop :=
  exists v, (s = v \/ s = "*." +:+ v) /\ str_forall scope_char v = true /\ contains "." v = true /\
    str_len v <= 253 /\ to_ascii_lowercase s = s.

Lemma normalize_domain_scope_canonical value s :
  normalize_domain_scope value = Ok s -> canonical_scope s.
Proof.
  unfold normalize_domain_scope. set (lowered := to_ascii_lowercase (trim value)).
  destruct (is_empty lowered); [done|].
  destruct (strip_prefix "*." lowered) as [rest|] eqn:E.
  - apply strip_prefix_Some in E. destruct (is_empty rest); [done|]. cbn [orb].
    destruct (contains "." rest) eqn:Ec; [|done]. cbn [negb]. case_decide; [done|].
    destruct (str_forall scope_char rest) eqn:Ef; [|done]. intros [= Hs].
    assert (s = lowered) as -> by (rewrite E, <- Hs; done).
    exists rest. split_and!; [by right|done|done|lia|apply lower_idem].
  - destruct (contains "." lowered) eqn:Ec; [|by rewrite orb_true_r]. rewrite orb_false_r.
    destruct (is_empty lowered); [done|]. case_decide; [done|].
    destruct (str_forall scope_char lowered) eqn:Ef; [|done]. intros [= <-]. exists lowered.
    split_and!; [by left|done|done|lia|]. apply lower_idem.
Qed.

(** ** Rules for the handlers

    Assertions speak of the rows and of the next identifier; identifiers only grow, also when an
    error cuts a computation short. *)

Definition assertion := list OverrideRecord -> Uuid -> Prop.

Definition hoare {A} (n0 : Uuid) (P : assertion) (m : OvM A) (Q : A -> assertion) : Prop :=
  forall s, n0 <= os_next_uuid s -> P (os_rows s) (os_next_uuid s) ->
  n0 <= os_next_uuid (m s).2 /\
  match (m s).1 with Ok a => Q a (os_rows (m s).2) (os_next_uuid (m s).2) | Err _ => True end.

Lemma hoare_bind {A B} n0 P (m : OvM A) Q (f : A -> OvM B) R :
  hoare n0 P m Q -> (forall a, hoare n0 (Q a) (f a) R) -> hoare n0 P (m ≫= f) R.
Proof.
  intros Hm Hf s Hn HP. specialize (Hm s Hn HP). unfold mbind, ovm_bind.
  destruct (m s) as [[a|e] s']; cbn in *; [|by destruct Hm]. destruct Hm as [Hn' HQ].
  by apply Hf.
Qed.

Lemma hoare_conseq {A} n0 (P P' : assertion) (m : OvM A) (Q Q' : A -> assertion) :
  hoare n0 P' m Q' -> (forall rows n, P rows n -> P' rows n) ->
  (forall a rows n, Q' a rows n -> Q a rows n) -> hoare n0 P m Q.
Proof.
  intros H HP HQ s Hn Hs. destruct (H s Hn (HP _ _ Hs)) as [Hn' Hr]. split; [done|].
  destruct ((m s).1); [by apply HQ|done].
Qed.

Lemma hoare_ret {A} n0 (P : assertion) (a : A) : hoare n0 P (mret a) (fun b rows n => b = a /\ P rows n).
Proof. intros s Hn HP. done. Qed.

Lemma hoare_return {A} n0 (P : assertion) (a : A) (Q : A -> assertion) :
  (forall rows n, P rows n -> Q a rows n) -> hoare n0 P (mret a) Q.
Proof. intros H s Hn HP. split; [done|]. by apply H. Qed.

Lemma hoare_lift {A} n0 (P : assertion) (r : result HttpError A) :
  hoare n0 P (ov_lift r) (fun a rows n => r = Ok a /\ P rows n).
Proof. intros s Hn HP. cbn. by destruct r. Qed.

Lemma hoare_emit n0 (P : assertion) e : hoare n0 P (emit e) (fun _ => P).
Proof. intros s Hn HP. done. Qed.

Lemma hoare_stmt {A} n0 (P : assertion) (f : OvState -> A * OvState) Q :
  (forall s, n0 <= os_next_uuid s -> P (os_rows s) (os_next_uuid s) ->
     n0 <= os_next_uuid (f s).2 /\ Q (f s).1 (os_rows (f s).2) (os_next_uuid (f s).2)) ->
  hoare n0 P (ov_stmt f) Q.
Proof.
  intros Hf s Hn HP. unfold ov_stmt. set (s' := {| os_rows := _ |}).
  destruct (Hf s' Hn HP) as [Hn' HQ].
  destruct (os_faults s) as [|[] ?]; [|done|]; by destruct (f s').
Qed.

Lemma hoare_select {A} n0 (P : assertion) (f : list OverrideRecord -> A) :
  hoare n0 P (ov_select f) (fun a rows n => a = f rows /\ P rows n).
Proof. apply hoare_stmt. by intros s Hn HP. Qed.

Definition updated (p : OverrideRecord -> bool) (f : OverrideRecord -> OverrideRecord)
    (rows : list OverrideRecord) : list OverrideRecord :=
  (fun r => if p r then f r else r) <$> rows.

Lemma hoare_update n0 (P : assertion) p f (Q : list OverrideRecord -> assertion) :
  (forall rows n now, n0 <= n -> P rows n ->
     Q (f now <$> List.filter p rows) (updated p (f now) rows) n) ->
  hoare n0 P (ov_update p f) Q.
Proof. intros H. apply hoare_stmt. intros s Hn HP. split; [done|]. by apply H. Qed.

Lemma hoare_insert n0 (P : assertion) mk (Q : OverrideRecord -> assertion) :
  (forall rows n now, n0 <= n -> P rows n -> Q (mk now n) (rows ++ [mk now n]) (S n)) ->
  hoare n0 P (ov_insert mk) Q.
Proof. intros H. apply hoare_stmt. intros s Hn HP. cbn. split; [lia|]. by apply H. Qed.

(** ** The invariant of the table *)

Definition valid_row (r : OverrideRecord) : Prop :=
  ov_scope_type r = "domain" /\ canonical_scope (ov_scope_value r) /\
  ov_action r ∈ ALLOWED_ACTIONS /\ ov_status r ∈ ALLOWED_STATUSES.

Record table_ok (rows : list OverrideRecord) (next : Uuid) : Prop := {
  ok_ids : NoDup (ov_id <$> rows);
  ok_fresh r : r ∈ rows -> ov_id r < next;
  ok_valid r : r ∈ rows -> valid_row r;
  (** at most one active override per scope *)
  ok_unique r1 r2 : r1 ∈ rows -> r2 ∈ rows -> is_active r1 = true -> is_active r2 = true ->
    ov_scope_value r1 = ov_scope_value r2 -> ov_id r1 = ov_id r2
}.

Lemma table_ok_same_id rows n r1 r2 :
  table_ok rows n -> r1 ∈ rows -> r2 ∈ rows -> ov_id r1 = ov_id r2 -> r1 = r2.
Proof.
  intros [Hnd _ _ _] H1 H2 Hid.
  apply list_elem_of_lookup in H1 as [i Hi], H2 as [j Hj].
  assert (i = j) as ->; [|congruence].
  eapply NoDup_lookup; [exact Hnd|by rewrite list_lookup_fmap, Hi|by rewrite list_lookup_fmap, Hj, Hid].
Qed.

Lemma table_ok_mono rows n n' : table_ok rows n -> n <= n' -> table_ok rows n'.
Proof. intros [? Hf ? ?] Hn. split; try done. intros r Hr%Hf. lia. Qed.

Lemma table_ok_filter rows n p : table_ok rows n -> table_ok (List.filter p rows) n.
Proof.
  intros [Hnd Hf Hv Hu].
  assert (forall r, r ∈ List.filter p rows -> r ∈ rows) as Hsub.
  { intros r. rewrite !list_elem_of_In, filter_In. by intros []. }
  split; [|by auto..].
  clear -Hnd. induction rows as [|r rows IH]; [done|]. cbn in *. apply NoDup_cons in Hnd as [Hr Hnd].
  destruct (p r); [|by apply IH]. cbn. apply NoDup_cons. split; [|by apply IH].
  intros (r' & Heq & Hr')%list_elem_of_fmap. apply Hr, list_elem_of_fmap. exists r'. split; [done|].
  revert Hr'. rewrite !list_elem_of_In, filter_In. by intros [].
Qed.

Lemma table_ok_updated rows n p f :
  table_ok rows n ->
  (forall r, r ∈ rows -> p r = true -> ov_id (f r) = ov_id r /\ valid_row (f r)) ->
  (forall r1 r2, r1 ∈ rows -> r2 ∈ rows -> ov_id r1 <> ov_id r2 ->
     let g r := if p r then f r else r in
     is_active (g r1) = true -> is_active (g r2) = true -> ov_scope_value (g r1) <> ov_scope_value (g r2)) ->
  table_ok (updated p f rows) n.
Proof.
  intros [Hnd Hf Hv Hu] Hg Hsep. unfold updated. set (g r := if p r then f r else r) in *.
  assert (forall r, r ∈ rows -> ov_id (g r) = ov_id r /\ valid_row (g r)) as Hgr.
  { intros r Hr. unfold g. destruct (p r) eqn:E; [by apply Hg|]. split; [done|by apply Hv]. }
  split.
  - assert (ov_id <$> (g <$> rows) = ov_id <$> rows) as ->; [|done].
    rewrite <- list_fmap_compose. apply list_fmap_ext. intros i r Hi.
    apply Hgr. by eapply list_elem_of_lookup_2.
  - intros r' (r & -> & Hr)%list_elem_of_fmap. rewrite (proj1 (Hgr r Hr)). by apply Hf.
  - intros r' (r & -> & Hr)%list_elem_of_fmap. by apply Hgr.
  - intros r1' r2' (r1 & -> & Hr1)%list_elem_of_fmap (r2 & -> & Hr2)%list_elem_of_fmap Ha1 Ha2 Hs.
    rewrite (proj1 (Hgr r1 Hr1)), (proj1 (Hgr r2 Hr2)).
    destruct (decide (ov_id r1 = ov_id r2)); [done|]. exfalso. by apply (Hsep r1 r2).
Qed.

Lemma table_ok_insert rows n r :
  table_ok rows n -> ov_id r = n -> valid_row r ->
  (is_active r = true -> forall r', r' ∈ rows -> is_active r' = true -> ov_scope_value r' <> ov_scope_value r) ->
  table_ok (rows ++ [r]) (S n).
Proof.
  intros [Hnd Hf Hv Hu] Hid Hvr Hsep. split.
  - rewrite fmap_app. apply NoDup_app. split_and!; [done| |apply NoDup_singleton].
    intros x (r' & -> & Hr')%list_elem_of_fmap Hx%list_elem_of_singleton. apply Hf in Hr'. cbn in Hx. lia.
  - intros r' [Hr'%Hf|Hr'%list_elem_of_singleton]%elem_of_app; [lia|subst; lia].
  - intros r' [Hr'|Hr'%list_elem_of_singleton]%elem_of_app; [by apply Hv|by subst].
  - intros r1 r2 [H1|H1%list_elem_of_singleton]%elem_of_app [H2|H2%list_elem_of_singleton]%elem_of_app Ha1 Ha2 Hs;
      [by apply Hu|subst r2|subst r1|by subst].
    + exfalso. by apply (Hsep Ha2 r1).
    + exfalso. by apply (Hsep Ha1 r2).
Qed.

Lemma revoke_ok rows n p now : table_ok rows n -> table_ok (updated p (revoke now) rows) n.
Proof.
  intros Hok. apply table_ok_updated; [done|..].
  - intros r Hr _. split; [done|]. destruct (ok_valid _ _ Hok r Hr) as (? & ? & ? & _).
    split_and!; try done. cbn. set_solver.
  - intros r1 r2 H1 H2 Hne g. unfold g. destruct (p r1); [done|]. destruct (p r2); [done|].
    intros Ha1 Ha2 Hs. apply Hne. by apply (ok_unique _ _ Hok).
Qed.

Lemma normalize_action_allowed t a : normalize_action t = Ok a -> a ∈ ALLOWED_ACTIONS.
Proof. unfold normalize_action. destruct (is_empty _); [done|]. case_decide; [|done]. by intros [= <-]. Qed.

Definition valid_payload (v : ValidatedOverridePayload) : Prop :=
  vo_scope_type v = "domain" /\ canonical_scope (vo_scope_value v) /\ vo_action v ∈ ALLOWED_ACTIONS /\
  forall st, vo_status v = Some st -> st ∈ ALLOWED_STATUSES.

Lemma validate_valid p v : validate_override_payload p = Ok v -> valid_payload v.
Proof.
  unfold validate_override_payload. intros H.
  apply bind_Ok in H as (ty & Ht & H). apply bind_Ok in H as (value & Hv & H).
  apply bind_Ok in H as (action & Ha & H). apply bind_Ok in H as (status & Hs & [= <-]).
  assert (ty = "domain") as ->.
  { revert Ht. unfold normalize_scope_type. destruct (is_empty _); [done|].
    case_decide as Hin; [|done]. intros [= <-]. by apply list_elem_of_singleton in Hin. }
  split_and!; cbn; [done| |by eapply normalize_action_allowed|].
  - revert Hv. unfold normalize_scope_value. rewrite decide_True by done. apply normalize_domain_scope_canonical.
  - intros st ->. destruct (ou_status p) as [t|]; [|done]. apply bind_Ok in Hs as (st' & Hst & [= ->]).
    revert Hst. unfold normalize_status. destruct (is_empty _); [done|]. case_decide; [|done]. by intros [= <-].
Qed.

Lemma status_active st : st ∈ ALLOWED_STATUSES -> eq_ignore_ascii_case st "active" = bool_decide (st = "active").
Proof.
  intros H. unfold ALLOWED_STATUSES in H. rewrite !elem_of_cons in H.
  destruct H as [->|[->|[->|[->|H%elem_of_nil]]]]; done.
Qed.

Lemma newest_first_perm rows : newest_first rows ≡ₚ rows.
Proof. unfold newest_first, order_desc. by rewrite !sort_by_key_perm. Qed.

Lemma hoare_false {A} n0 (P : assertion) (m : OvM A) Q :
  (forall rows n, P rows n -> False) -> hoare n0 P m Q.
Proof. intros H s _ HP. by apply H in HP. Qed.

Definition scope_ids (v : ValidatedOverridePayload) (rows : list OverrideRecord) : list Uuid :=
  ov_id <$> newest_first (List.filter (fun r =>
    in_override_scope (vo_scope_type v) (vo_scope_value v) r && is_active r) rows).

Lemma in_scope_ids v rows x :
  x ∈ scope_ids v rows <-> exists r, r ∈ rows /\ ov_id r = x /\ is_active r = true /\
    ov_scope_type r = vo_scope_type v /\ ov_scope_value r = vo_scope_value v.
Proof.
  unfold scope_ids. rewrite list_elem_of_fmap. setoid_rewrite newest_first_perm.
  setoid_rewrite list_elem_of_In at 1. setoid_rewrite filter_In. setoid_rewrite <- list_elem_of_In.
  unfold in_override_scope. setoid_rewrite andb_true_iff. setoid_rewrite andb_true_iff.
  setoid_rewrite bool_decide_eq_true. naive_solver.
Qed.

Lemma scope_ids_short v rows n x y l : table_ok rows n -> scope_ids v rows = x :: y :: l -> False.
Proof.
  intros Hok E.
  assert (NoDup (scope_ids v rows)) as Hnd.
  { unfold scope_ids. eapply NoDup_Permutation_proper; [by rewrite newest_first_perm|].
    apply (ok_ids _ _ (table_ok_filter rows n _ Hok)). }
  assert (x ∈ scope_ids v rows) as (r1 & H1 & X1 & A1 & _ & S1)%in_scope_ids by (rewrite E; left).
  assert (y ∈ scope_ids v rows) as (r2 & H2 & X2 & A2 & _ & S2)%in_scope_ids by (rewrite E; right; left).
  rewrite E in Hnd. apply NoDup_cons in Hnd as [Hnotin _]. apply Hnotin.
  rewrite <- X1, <- X2, (ok_unique _ _ Hok r1 r2) by congruence. left.
Qed.

Lemma new_row_valid v st now n : valid_payload v -> st ∈ ALLOWED_STATUSES -> valid_row (new_row v st now n).
Proof. by intros (? & ? & ? & _) ?. Qed.

Lemma set_override_valid v st now r :
  valid_row r -> vo_action v ∈ ALLOWED_ACTIONS -> st ∈ ALLOWED_STATUSES ->
  valid_row (set_override (vo_action v) (vo_reason v) (vo_created_by v) (vo_expires_at v) st now r).
Proof. by intros (? & ? & _ & _) ? ?. Qed.

Lemma create_rows_ok n0 v st :
  valid_payload v -> st ∈ ALLOWED_STATUSES ->
  hoare n0 table_ok (create_rows v st) (fun _ => table_ok).
Proof.
  intros Hv Hst. unfold create_rows. rewrite status_active by done. case_bool_decide as Hact.
  2: { apply hoare_insert. intros rows n now _ Hok. apply table_ok_insert; [done|done|by apply new_row_valid|].
       unfold is_active; cbn. by rewrite bool_decide_eq_false_2. }
  subst st. eapply hoare_bind; [apply hoare_select|]. fold (scope_ids v). intros [|x [|y l]].
  - (* no active row: insert *)
    rewrite decide_True by done. eapply hoare_bind; [apply hoare_ret|]. intros ?. cbn [head].
    apply hoare_insert. intros rows n now _ (_ & Hids & Hok).
    apply table_ok_insert; [done|done|by apply new_row_valid|].
    intros _ r Hr Ha Hs. cbn in Hs.
    assert (ov_id r ∈ scope_ids v rows) as Hin.
    { apply in_scope_ids. exists r. split_and!; try done.
      destruct (ok_valid _ _ Hok r Hr) as [-> _]. by destruct Hv as [-> _]. }
    rewrite <- Hids in Hin. by apply elem_of_nil in Hin.
  - (* one active row: rewrite it *)
    rewrite decide_True by done. eapply hoare_bind; [apply hoare_ret|]. intros ?. cbn [head].
    eapply hoare_bind; [apply (hoare_update _ _ _ _ (fun _ => table_ok))|].
    2: { intros rows. eapply hoare_conseq; [apply hoare_lift|done|]. by intros ? ? ? []. }
    intros rows n now _ (_ & Hids & Hok).
    assert (x ∈ scope_ids v rows) as (r0 & Hr0 & Hx & Ha0 & _ & Hs0)%in_scope_ids by (rewrite <- Hids; left).
    apply table_ok_updated; [done|..].
    + intros r Hr _. split; [done|]. apply set_override_valid; [by apply (ok_valid _ _ Hok)|by destruct Hv as (?&?&?&?)|set_solver].
    + intros r1 r2 H1 H2 Hne g Hg1 Hg2 Hs. apply Hne.
      assert (forall r, r ∈ rows -> is_active (g r) = true -> is_active r = true /\ ov_scope_value (g r) = ov_scope_value r) as Hg.
      { intros r Hr. unfold g, has_id. case_bool_decide as Hid; [|done]. cbn. split; [|done].
        apply list_elem_of_singleton in Hid. rewrite (table_ok_same_id rows n r r0); [done..|congruence]. }
      destruct (Hg r1 H1 Hg1) as [? E1], (Hg r2 H2 Hg2) as [? E2].
      apply (ok_unique _ _ Hok); congruence.
  - apply hoare_false. intros rows n [E Hok]. by eapply scope_ids_short.
Qed.

(** The status an update writes is one of the allowed ones. *)
Lemma next_status_allowed rows n v id old :
  valid_payload v -> table_ok rows n -> head (List.filter (has_id [id]) rows) = Some old ->
  default (ov_status old) (vo_status v) ∈ ALLOWED_STATUSES.
Proof.
  intros (_ & _ & _ & Hst) Hok He. destruct (vo_status v) as [st|] eqn:Est; [by apply Hst|]. cbn.
  apply (ok_valid _ _ Hok), list_elem_of_In.
  destruct (List.filter _ rows) as [|r l] eqn:E; [done|]. injection He as ->.
  assert (In old (List.filter (has_id [id]) rows)) as H by (rewrite E; by left).
  by apply filter_In in H as [H _].
Qed.

(** When the row [id] is to be active, it is the only active one of the new scope. *)
Definition only_active (v : ValidatedOverridePayload) (id : Uuid) (rows : list OverrideRecord) : Prop :=
  forall r, r ∈ rows -> is_active r = true -> ov_scope_value r = vo_scope_value v -> ov_id r = id.

Lemma revoke_others_only_active v id rows n now :
  valid_payload v -> table_ok rows n ->
  only_active v id ((fun r =>
    if in_override_scope (vo_scope_type v) (vo_scope_value v) r && is_active r && negb (has_id [id] r)
    then revoke now r else r) <$> rows).
Proof.
  intros [Hvt _] Hok r (r' & -> & Hr')%list_elem_of_fmap. unfold has_id. case_match eqn:E; [done|].
  intros Ha Hs. rewrite Ha, andb_true_r in E. apply andb_false_iff in E as [E|E].
  - unfold in_override_scope in E. destruct (ok_valid _ _ Hok r' Hr') as [Ht _].
    by rewrite Ht, Hvt, Hs, !bool_decide_eq_true_2 in E by done.
  - apply negb_false_iff, bool_decide_eq_true in E. by apply list_elem_of_singleton in E.
Qed.

(** Moving the row [id] to a scope where no other row is active keeps the scopes apart. *)
Lemma moved_row_alone v id next rows n now :
  table_ok rows n -> (next = "active" -> only_active v id rows) ->
  let g r := if has_id [id] r then
      move_scope (vo_scope_type v) (vo_scope_value v)
        (set_override (vo_action v) (vo_reason v) (vo_created_by v) (vo_expires_at v) next now r)
    else r in
  forall r1 r2, r1 ∈ rows -> r2 ∈ rows -> ov_id r1 <> ov_id r2 ->
    is_active (g r1) = true -> is_active (g r2) = true -> ov_scope_value (g r1) <> ov_scope_value (g r2).
Proof.
  intros Hok Hsep g r1 r2 H1 H2 Hne Hg1 Hg2 Hs.
  assert (forall a b, a ∈ rows -> b ∈ rows -> ov_id a <> ov_id b -> ov_id a = id ->
            is_active (g a) = true -> is_active (g b) = true -> ov_scope_value (g a) <> ov_scope_value (g b)) as Hmoved.
  { intros a b Ha Hb Hab Hid Hga Hgb Hsab. unfold g, has_id in *.
    rewrite (bool_decide_eq_true_2 (ov_id a ∈ [id])) in * by set_solver.
    rewrite (bool_decide_eq_false_2 (ov_id b ∈ [id])) in * by set_solver.
    cbn in Hga, Hsab. unfold is_active in Hga. cbn in Hga. apply bool_decide_eq_true in Hga.
    apply Hab. rewrite Hid. symmetry. by apply Hsep. }
  destruct (decide (ov_id r1 = id)); [by eapply (Hmoved r1 r2)|].
  destruct (decide (ov_id r2 = id)); [by eapply (Hmoved r2 r1)|].
  unfold g, has_id in *. rewrite !bool_decide_eq_false_2 in * by set_solver.
  apply Hne. by apply (ok_unique _ _ Hok).
Qed.

Lemma update_rows_ok n0 id v :
  valid_payload v -> hoare n0 table_ok (update_rows id v) (fun _ => table_ok).
Proof.
  intros Hv. unfold update_rows. eapply hoare_bind; [apply hoare_select|]. intros existing.
  eapply hoare_bind; [apply hoare_lift|]. intros old. cbn beta.
  set (next := default (ov_status old) (vo_status v)).
  apply (hoare_conseq _ _ (fun rows n => table_ok rows n /\ next ∈ ALLOWED_STATUSES) _ _ (fun _ => table_ok));
    [|intros rows n (He & -> & Hok); split; [done|]|done].
  2: { apply ok_or_Ok in He. by eapply next_status_allowed. }
  eapply (hoare_bind _ _ _ (fun _ rows n =>
    table_ok rows n /\ next ∈ ALLOWED_STATUSES /\ (next = "active" -> only_active v id rows))).
  { destruct (decide (next ∈ ALLOWED_STATUSES)) as [Hin|Hin]; [|apply hoare_false; by intros ? ? []].
    rewrite status_active by done. case_bool_decide as Hnext.
    - apply hoare_update. intros rows n now _ [Hok _]. split_and!; [by apply revoke_ok|done|].
      intros _. by apply (revoke_others_only_active v id rows n now).
    - apply hoare_return. intros rows n [Hok _]. by split_and!. }
  intros _. eapply (hoare_bind _ _ _ (fun _ => table_ok)).
  { apply hoare_update. intros rows n now _ (Hok & Hst & Hsep). apply table_ok_updated; [done|..].
    - intros r Hr _. split; [done|]. destruct Hv as (Ht & Hc & Ha & _). by split_and!.
    - by apply (moved_row_alone v id next rows n now). }
  intros rows. eapply hoare_bind; [apply hoare_lift|]. intros row.
  apply hoare_return. by intros ? ? [_ ?].
Qed.

(** ** Import keeps the invariant *)

(** What the maps of an import know about the table. *)
Record tracks (e : Existing) (rows : list OverrideRecord) : Prop := {
  tr_active scope id : ex_active e !! scope = Some id ->
    exists r, r ∈ rows /\ ov_id r = id /\ ov_scope_value r = scope /\ is_active r = true;
  tr_complete r : r ∈ rows -> is_active r = true -> is_Some (ex_active e !! ov_scope_value r);
  tr_latest scope action id : ex_latest e !! (scope, action) = Some id ->
    exists r, r ∈ rows /\ ov_id r = id /\ ov_scope_value r = scope;
  tr_duplicates : ex_duplicates e = []
}.

Lemma tracks_perm e rows rows' : rows ≡ₚ rows' -> tracks e rows -> tracks e rows'.
Proof.
  intros Hp [H1 H2 H3 H4]. split; [| |intros scope action id H|done].
  - intros scope id (r & Hr & ?)%H1. exists r. by rewrite <- Hp.
  - intros r. rewrite <- Hp. apply H2.
  - apply H3 in H as (r & Hr & ?). exists r. by rewrite <- Hp.
Qed.

Lemma existing_row_tracks e pre r n :
  table_ok (pre ++ [r]) n -> tracks e pre -> tracks (existing_row e r) (pre ++ [r]).
Proof.
  intros Hok [H1 H2 H3 H4].
  assert (r ∈ pre ++ [r]) as Hr by set_solver.
  destruct (ok_valid _ _ Hok r Hr) as (_ & _ & _ & Hst).
  set (latest := match ex_latest e !! (ov_scope_value r, ov_action r) with
                 | Some _ => ex_latest e | None => <[(ov_scope_value r, ov_action r) := ov_id r]> (ex_latest e) end).
  assert (forall scope action id, latest !! (scope, action) = Some id ->
            exists r', r' ∈ pre ++ [r] /\ ov_id r' = id /\ ov_scope_value r' = scope) as Hl.
  { intros scope action id H.
    assert (ex_latest e !! (scope, action) = Some id \/ (scope = ov_scope_value r /\ id = ov_id r)) as [Hold|[-> ->]].
    { unfold latest in H. destruct (ex_latest e !! (ov_scope_value r, _)); [by left|].
      apply lookup_insert_Some in H as [[[= <- <-] <-]|[_ H]]; [by right|by left]. }
    - apply H3 in Hold as (r' & ? & ? & ?). exists r'. set_solver.
    - by exists r. }
  unfold existing_row. fold latest. rewrite status_active by done.
  case_bool_decide as Ha.
  - destruct (ex_active e !! ov_scope_value r) as [id|] eqn:Eact.
    + exfalso. apply H1 in Eact as (r' & Hr' & <- & Hs & Ha').
      assert (ov_id r' = ov_id r) as Hid.
      { apply (ok_unique _ _ Hok); [set_solver|done|done| |done]. unfold is_active. by rewrite bool_decide_eq_true_2. }
      pose proof (ok_ids _ _ Hok) as Hnd. rewrite fmap_app in Hnd. apply NoDup_app in Hnd as (_ & Hdis & _).
      apply (Hdis (ov_id r')); [by apply list_elem_of_fmap_2|]. rewrite Hid. cbn. left.
    + split; [intros scope id H|intros r'|exact Hl|done]; cbn [ex_active] in *.
      * apply lookup_insert_Some in H as [[<- <-]|[_ H]].
        { exists r. split_and!; try done. unfold is_active. by rewrite bool_decide_eq_true_2. }
        apply H1 in H as (r' & ? & ? & ?). exists r'. set_solver.
      * intros [Hr'| ->%list_elem_of_singleton]%elem_of_app Ha'; [|rewrite lookup_insert_eq; by eauto].
        destruct (decide (ov_scope_value r' = ov_scope_value r)) as [->|Hne]; [rewrite lookup_insert_eq; by eauto|].
        rewrite lookup_insert_ne by done. by apply H2.
  - split; [intros scope id H|intros r'|exact Hl|done]; cbn [ex_active] in *.
    + apply H1 in H as (r' & ? & ? & ?). exists r'. set_solver.
    + intros [Hr'| ->%list_elem_of_singleton]%elem_of_app Ha'; [by apply H2|].
      exfalso. apply Ha. unfold is_active in Ha'. by apply bool_decide_eq_true in Ha'.
Qed.

Lemma fold_existing_tracks l e pre n :
  table_ok (pre ++ l) n -> tracks e pre -> tracks (foldl existing_row e l) (pre ++ l).
Proof.
  revert e pre. induction l as [|r l IH]; intros e pre Hok He; [by rewrite app_nil_r|].
  replace (pre ++ r :: l) with ((pre ++ [r]) ++ l) in * by (by rewrite <- app_assoc).
  cbn [foldl]. apply IH; [done|]. eapply existing_row_tracks; [|done].
  clear -Hok. destruct Hok as [Hnd Hf Hv Hu]. split.
  - rewrite fmap_app in Hnd. by apply NoDup_app in Hnd as [? _].
  - intros r' Hr'. apply Hf. set_solver.
  - intros r' Hr'. apply Hv. set_solver.
  - intros r1 r2 ? ?. apply Hu; set_solver.
Qed.

Lemma table_ok_perm rows rows' n : rows ≡ₚ rows' -> table_ok rows n -> table_ok rows' n.
Proof.
  intros Hp [Hnd Hf Hv Hu].
  assert (forall r, r ∈ rows' -> r ∈ rows) as Hsub by (intros r; by rewrite Hp).
  split; [by rewrite <- Hp|by auto..].
Qed.

Lemma existing_rows_tracks rows n : table_ok rows n -> tracks (existing_rows rows) rows.
Proof.
  intros Hok. unfold existing_rows. set (l := List.filter _ rows).
  assert (l = rows) as ->.
  { unfold l. clear l. pose proof (ok_valid _ _ Hok) as Hv. clear Hok.
    induction rows as [|r rows IH]; [done|]. cbn. destruct (Hv r) as [-> _]; [left|].
    rewrite bool_decide_eq_true_2 by done. rewrite IH; [done|]. intros r' Hr'. apply Hv. by right. }
  apply (tracks_perm _ (newest_first rows)); [apply newest_first_perm|].
  apply (fold_existing_tracks _ _ [] n); [by eapply table_ok_perm; [symmetry; apply newest_first_perm|]|].
  split; [intros ? ? H|intros ? H|intros ? ? ? H|done]; [|by apply elem_of_nil in H|]; cbn [ex_active ex_latest] in H; by rewrite lookup_empty in H.
Qed.

(** The maps after a scope was written to row [id]. *)
Definition set_active (e : Existing) (scope action : string) (id : Uuid) : Existing :=
  {| ex_active := <[scope := id]> (ex_active e); ex_latest := <[(scope, action) := id]> (ex_latest e);
     ex_active_scopes := ex_active_scopes e; ex_duplicates := ex_duplicates e |}.

Lemma activate_ok e rows n scope action user id now :
  table_ok rows n -> tracks e rows -> action ∈ ALLOWED_ACTIONS ->
  (exists r, r ∈ rows /\ ov_id r = id /\ ov_scope_value r = scope) ->
  (forall r, r ∈ rows -> is_active r = true -> ov_scope_value r = scope -> ov_id r = id) ->
  let rows' := updated (has_id [id]) (set_override action (Some IMPORT_REASON) (Some (uc_actor user)) None "active" now) rows in
  table_ok rows' n /\ tracks (set_active e scope action id) rows'.
Proof.
  intros Hok [T1 T2 T3 T4] Hact (r0 & Hr0 & Hid0 & Hs0) Huniq. cbv zeta. unfold updated.
  set (f := set_override _ _ _ _ _ now). set (g r := if has_id [id] r then f r else r).
  assert (forall r, ov_id (g r) = ov_id r /\ ov_scope_value (g r) = ov_scope_value r) as Hg.
  { intros r. unfold g. by destruct (has_id [id] r). }
  assert (forall r, r ∈ rows -> is_active (g r) = true -> is_active r = true \/ (ov_id r = id /\ ov_scope_value r = scope)) as Hga.
  { intros r Hr. unfold g, has_id. case_bool_decide as Hin; [|by left]. apply list_elem_of_singleton in Hin.
    intros _. right. split; [done|]. by rewrite (table_ok_same_id rows n r r0) by congruence. }
  split.
  - apply table_ok_updated; [done|intros r Hr _; split; [done|]|].
    + destruct (ok_valid _ _ Hok r Hr) as (? & ? & _ & _). split_and!; try done. cbn. set_solver.
    + intros r1 r2 H1 H2 Hne g' Ha1 Ha2 Hs. change (is_active (g r1) = true) in Ha1.
      change (is_active (g r2) = true) in Ha2. change (ov_scope_value (g r1) = ov_scope_value (g r2)) in Hs.
      rewrite (proj2 (Hg r1)), (proj2 (Hg r2)) in Hs. apply Hne.
      destruct (Hga r1 H1 Ha1) as [A1|[<- S1]], (Hga r2 H2 Ha2) as [A2|[I2 S2]].
      * by apply (ok_unique _ _ Hok).
      * rewrite I2. apply Huniq; congruence || done.
      * symmetry. apply Huniq; congruence || done.
      * done.
  - split; [intros s i H|intros r' (r & -> & Hr)%list_elem_of_fmap Ha|intros s a i H|done]; cbn [ex_active ex_latest set_active] in *.
    + apply lookup_insert_Some in H as [[<- <-]|[_ H]].
      * exists (g r0). split_and!; [by apply list_elem_of_fmap_2|by rewrite (proj1 (Hg r0))|by rewrite (proj2 (Hg r0))|].
        unfold g, has_id. by rewrite bool_decide_eq_true_2 by set_solver.
      * apply T1 in H as (r & Hr & <- & <- & Ha). exists (g r).
        split_and!; [by apply list_elem_of_fmap_2|by apply Hg|by apply Hg|]. unfold g. by destruct (has_id _ r).
    + fold (g r) in *. rewrite (proj2 (Hg r)). destruct (decide (ov_scope_value r = scope)) as [->|Hne]; [rewrite lookup_insert_eq; by eauto|].
      rewrite lookup_insert_ne by done. destruct (Hga r Hr Ha) as [|[_ ?]]; [by apply T2|done].
    + apply lookup_insert_Some in H as [[[= <- <-] <-]|[_ H]].
      * exists (g r0). split_and!; [by apply list_elem_of_fmap_2|by rewrite (proj1 (Hg r0))|by rewrite (proj2 (Hg r0))].
      * apply T3 in H as (r & Hr & <- & <-). exists (g r). split_and!; [by apply list_elem_of_fmap_2|by apply Hg..].
Qed.

Definition import_inv (e : Existing) : assertion := fun rows n => table_ok rows n /\ tracks e rows.

Lemma import_scope_ok n0 user action e i u scope :
  action ∈ ALLOWED_ACTIONS -> canonical_scope scope ->
  hoare n0 (import_inv e) (import_scope user action (e, i, u) scope) (fun acc => import_inv acc.1.1).
Proof.
  intros Ha Hc. unfold import_scope. fold (set_active e scope action).
  assert (forall id, (forall rows n, import_inv e rows n ->
            (exists r, r ∈ rows /\ ov_id r = id /\ ov_scope_value r = scope) /\
            forall r, r ∈ rows -> is_active r = true -> ov_scope_value r = scope -> ov_id r = id) ->
          hoare n0 (import_inv e)
            (_ ← ov_update (has_id [id]) (set_override action (Some IMPORT_REASON) (Some (uc_actor user)) None "active");
             mret (set_active e scope action id, i, S u)) (fun acc => import_inv acc.1.1)) as Hwrite.
  { intros id Hid. eapply (hoare_bind _ _ _ (fun _ => import_inv (set_active e scope action id))).
    - apply hoare_update. intros rows n now _ Hinv. destruct (Hid rows n Hinv) as [Hex Hun].
      by apply activate_ok; destruct Hinv.
    - intros _. by apply hoare_return. }
  eapply (hoare_bind _ _ _ (fun acc => import_inv acc.1.1)).
  2: { intros acc. eapply (hoare_bind _ _ _ (fun _ => import_inv acc.1.1)); [apply hoare_emit|]. intros _.
       by apply hoare_return. }
  destruct (ex_active e !! scope) as [id|] eqn:Eact.
  { apply Hwrite. intros rows n [Hok Htr].
    destruct (tr_active _ _ Htr _ _ Eact) as (r & Hr & Hid & Hs & Hact). split; [by exists r|].
    intros r' Hr' Ha' Hs'. rewrite <- Hid. apply (ok_unique _ _ Hok); congruence || done. }
  assert (forall rows n r, import_inv e rows n -> r ∈ rows -> is_active r = true -> ov_scope_value r <> scope) as Hnone.
  { intros rows n r [_ Htr] Hr Har <-. destruct (tr_complete _ _ Htr r Hr Har) as [? E]. congruence. }
  destruct (ex_latest e !! (scope, action)) as [id|] eqn:El.
  { apply Hwrite. intros rows n Hinv. pose proof Hinv as [_ Htr].
    destruct (tr_latest _ _ Htr _ _ _ El) as (r & Hr & Hid & Hs). split; [by exists r|].
    intros r' Hr' Ha' Hs'. exfalso. by eapply Hnone. }
  eapply (hoare_bind _ _ _ (fun row => import_inv (set_active e scope action (ov_id row)))).
  2: { intros row. by apply hoare_return. }
  apply hoare_insert. intros rows n now _ Hinv. set (row := {| ov_id := n |}).
  assert (table_ok (rows ++ [row]) (S n)) as Hok'.
  { apply table_ok_insert; [by destruct Hinv|done|split_and!; [done|done|done|cbn; set_solver]|].
    intros _ r Hr Har. by eapply Hnone. }
  split; [done|]. destruct Hinv as [_ [T1 T2 T3 T4]].
  split; [intros s j H|intros r [Hr| ->%list_elem_of_singleton]%elem_of_app Har|intros s a j H|done]; cbn [ex_active ex_latest set_active] in *.
  - apply lookup_insert_Some in H as [[<- <-]|[_ H]]; [exists row; set_solver|].
    apply T1 in H as (r & ? & ? & ? & ?). exists r. set_solver.
  - destruct (decide (ov_scope_value r = scope)) as [->|Hne]; [rewrite lookup_insert_eq; by eauto|].
    rewrite lookup_insert_ne by done. by apply T2.
  - cbn. rewrite lookup_insert_eq. by eauto.
  - apply lookup_insert_Some in H as [[[= <- <-] <-]|[_ H]]; [exists row; set_solver|].
    apply T3 in H as (r & ? & ? & ?). exists r. set_solver.
Qed.

Lemma import_scopes_ok n0 user action scopes : forall acc,
  action ∈ ALLOWED_ACTIONS -> Forall canonical_scope scopes ->
  hoare n0 (import_inv acc.1.1) (import_scopes user action acc scopes) (fun acc => import_inv acc.1.1).
Proof.
  induction scopes as [|scope scopes IH]; intros [[e i] u] Ha Hs; cbn [import_scopes].
  - by apply hoare_return.
  - apply Forall_cons in Hs as [Hc Hs]. eapply hoare_bind; [by apply import_scope_ok|].
    intros acc. by apply IH.
Qed.

Lemma invalidate_all_ok n0 P scopes : hoare n0 P (invalidate_all scopes) (fun _ => P).
Proof.
  induction scopes as [|[t v] scopes IH]; cbn [invalidate_all].
  - by apply hoare_return.
  - eapply (hoare_bind _ _ _ (fun _ => P)); [apply hoare_emit|]. by intros _.
Qed.

Lemma import_rows_ok n0 user action mode e scopes :
  action ∈ ALLOWED_ACTIONS -> Forall canonical_scope scopes -> ex_duplicates e = [] ->
  hoare n0 (import_inv e) (import_rows user action mode e scopes) (fun _ => table_ok).
Proof.
  intros Ha Hs Hd. unfold import_rows. rewrite decide_True by done.
  eapply hoare_bind; [apply hoare_ret|]. intros b. cbn beta.
  eapply (hoare_bind _ _ _ (fun acc => import_inv acc.1.1)).
  { eapply hoare_conseq; [by apply (import_scopes_ok n0 user action scopes (e, 0, 0))| |done].
    by intros ? ? [_ ?]. }
  intros [[e' i] u]. cbn [fst]. destruct mode.
  - apply hoare_return. by intros ? ? (? & _).
  - eapply (hoare_bind _ _ _ (fun _ => table_ok)).
    { apply hoare_stmt. intros s Hn [Hok _]. cbn. split; [done|]. by apply table_ok_filter. }
    intros removed. eapply (hoare_bind _ _ _ (fun _ => table_ok)); [apply invalidate_all_ok|]. intros _.
    by apply hoare_return.
Qed.

Lemma exchange_line_scopes p line :
  Forall canonical_scope (pi_scopes p) -> Forall canonical_scope (pi_scopes (exchange_line p line)).
Proof.
  intros Hp. unfold exchange_line. destruct (_ || _); [done|].
  destruct (normalize_domain_scope _) as [s|] eqn:E; [|done]. case_decide; [done|].
  apply Forall_app. split; [done|]. apply Forall_singleton. by eapply normalize_domain_scope_canonical.
Qed.

Lemma parse_exchange_scopes content :
  Forall canonical_scope (pi_scopes (parse_override_exchange_lines content)).
Proof.
  unfold parse_override_exchange_lines. set (p := {| pi_total_lines := 0 |}).
  assert (Forall canonical_scope (pi_scopes p)) as Hp by constructor. revert Hp. generalize p.
  induction (lines content) as [|l ls IH]; intros q Hq; [done|]. apply IH. by apply exchange_line_scopes.
Qed.

(** ** Every reachable table is well-formed *)

Definition ov_ok (s : OvState) : Prop := table_ok (os_rows s) (os_next_uuid s).

(** A transaction that keeps the invariant when it succeeds keeps it when it is rolled back. *)
Lemma transaction_ok {A} n0 (m : OvM A) (P : assertion) s :
  (forall rows n, P rows n -> table_ok rows n) ->
  (forall n0, hoare n0 P m (fun _ => table_ok)) ->
  n0 <= os_next_uuid s -> P (os_rows s) (os_next_uuid s) ->
  ov_ok (transaction m s).2 /\ n0 <= os_next_uuid (transaction m s).2.
Proof.
  intros HP Ht Hn Hs.
  assert (forall s1, os_rows s1 = os_rows s -> os_next_uuid s1 = os_next_uuid s ->
    let r := match (a ← m; _ ← ov_stmt (fun s => (tt, s)); _ ← emit Committed; mret a) s1 with
             | (Ok a, s2) => (Ok a, s2) | (Err e, s2) => (Err e, set_rows (os_rows s1) s2) end in
    ov_ok r.2 /\ n0 <= os_next_uuid r.2) as Hrun.
  { intros s1 Hrows Hnext. cbv zeta.
    assert (hoare (os_next_uuid s) P (a ← m; _ ← ov_stmt (fun s => (tt, s)); _ ← emit Committed; mret a) (fun _ => table_ok)) as Hall.
    { eapply hoare_bind; [apply Ht|]. intros a. eapply (hoare_bind _ _ _ (fun _ => table_ok)).
      { apply hoare_stmt. by intros s2 ? ?. }
      intros _. eapply (hoare_bind _ _ _ (fun _ => table_ok)); [apply hoare_emit|]. intros _.
      by apply hoare_return. }
    destruct (Hall s1) as [Hn2 Hr]; [lia|by rewrite Hrows, Hnext|].
    destruct ((a ← m; _ ← _; _ ← _; mret a) s1) as [[a|e] s2]; cbn in *; [split; [done|lia]|].
    split; [|lia]. unfold ov_ok. cbn. rewrite Hrows. apply (table_ok_mono _ (os_next_uuid s)); [by apply HP|lia]. }
  unfold transaction. destruct (ov_stmt _ s) as [[[]|e] s1] eqn:E.
  - apply Hrun; unfold ov_stmt in E; destruct (os_faults s) as [|[] fs]; cbn in E; by inversion E.
  - unfold ov_stmt in E. destruct (os_faults s) as [|[] fs]; try done. injection E as _ <-.
    split; [by apply HP|done].
Qed.

Lemma invalidate_all_rows scopes s :
  os_rows (invalidate_all scopes s).2 = os_rows s /\ os_next_uuid (invalidate_all scopes s).2 = os_next_uuid s /\
  (invalidate_all scopes s).1 = Ok tt.
Proof.
  revert s. induction scopes as [|[t v] scopes IH]; intros s; [done|]. cbn [invalidate_all].
  unfold mbind, ovm_bind. destruct (emit (Invalidate t v) s) as [r s'] eqn:E. injection E as <- <-.
  match goal with |- context [invalidate_all scopes ?x] => exact (IH x) end.
Qed.

Lemma create_override_ok user payload s : ov_ok s -> ov_ok (create_override user payload s).2.
Proof.
  intros Hok. unfold create_override. destruct (require_roles _ _); [|done].
  unfold mbind, ovm_bind, ov_lift. destruct (validate_override_payload _) as [v|] eqn:Ev; [|done].
  apply validate_valid in Ev. set (m := create_rows v _).
  assert (ov_ok (transaction m s).2) as H.
  { apply (transaction_ok 0 m table_ok); [done|intros n0|lia|done]. apply create_rows_ok; [done|].
    destruct Ev as (_ & _ & _ & Hst). destruct (vo_status v); [by apply Hst|cbn; set_solver]. }
  by destruct (transaction m s) as [[row|e] s'].
Qed.

Lemma update_override_ok user id payload s : ov_ok s -> ov_ok (update_override user id payload s).2.
Proof.
  intros Hok. unfold update_override. destruct (require_roles _ _); [|done].
  unfold mbind, ovm_bind, ov_lift. destruct (validate_override_payload _) as [v|] eqn:Ev; [|done].
  apply validate_valid in Ev.
  assert (ov_ok (transaction (update_rows id v) s).2) as H.
  { apply (transaction_ok 0 (update_rows id v) table_ok); [done|intros n0|lia|done]. by apply update_rows_ok. }
  destruct (transaction (update_rows id v) s) as [[[[pt pv] row]|e] s']; [|done]. cbn in H.
  set (scopes := override_invalidation_scopes _ _ _ _).
  destruct (invalidate_all_rows scopes s') as (Hr & Hn & He).
  destruct (invalidate_all scopes s') as [[[]|] s'']; cbn in *; unfold ov_ok; by rewrite Hr, Hn.
Qed.

Lemma delete_override_ok user id s : ov_ok s -> ov_ok (delete_override user id s).2.
Proof.
  intros Hok. unfold delete_override. destruct (require_roles _ _); [|done].
  unfold mbind, ovm_bind, ov_stmt.
  assert (forall p, table_ok (List.filter p (os_rows s)) (os_next_uuid s)) as Hf by (intros p; by apply table_ok_filter).
  destruct (os_faults s) as [|[] fs]; cbn; [|done|]; destruct (head _); cbn; apply Hf.
Qed.

Lemma import_overrides_ok user a m d content s : ov_ok s -> ov_ok (import_overrides user a m d content s).2.
Proof.
  intros Hok. unfold import_overrides. destruct (require_roles _ _); [|done].
  unfold mbind, ovm_bind, ov_lift. destruct (normalize_action a) as [action|] eqn:Ea; [|done].
  apply normalize_action_allowed in Ea. destruct (normalize_override_import_mode m) as [mode|]; [|done].
  unfold ov_select at 1. destruct (ov_stmt _ s) as [[e|] s1] eqn:Es.
  2: { unfold ov_stmt in Es. destruct (os_faults s) as [|[] fs]; cbn in Es; by inversion Es. }
  assert (os_rows s1 = os_rows s /\ os_next_uuid s1 = os_next_uuid s /\ e = existing_rows (os_rows s)) as (Hr & Hn & ->).
  { unfold ov_stmt in Es. destruct (os_faults s) as [|[] fs]; cbn in Es; by inversion Es. }
  assert (ov_ok s1) as Hok1 by (unfold ov_ok; by rewrite Hr, Hn).
  cbv zeta. destruct (default true d); [done|].
  set (e := existing_rows (os_rows s)). set (scopes := pi_scopes _).
  assert (ov_ok (transaction (import_rows user action mode e scopes) s1).2) as H.
  { apply (transaction_ok 0 _ (import_inv e)); [by intros ? ? []| |lia|].
    - intros n0. apply import_rows_ok; [done|apply parse_exchange_scopes|].
      by apply (tr_duplicates _ _ (existing_rows_tracks _ _ Hok)).
    - split; [done|]. rewrite Hr. by eapply existing_rows_tracks. }
  by destruct (transaction _ s1) as [[[[i u] dl]|] s2].
Qed.

(** A request of any caller, or a change of the conditions it runs under (the clock, which
    statements fail, the trace). *)
Inductive ov_step (s : OvState) : OvState -> Prop :=
  | ov_create user payload : ov_step s (create_override user payload s).2
  | ov_update_step user id payload : ov_step s (update_override user id payload s).2
  | ov_delete user id : ov_step s (delete_override user id s).2
  | ov_import user action mode dry_run content :
      ov_step s (import_overrides user action mode dry_run content s).2
  | ov_environment now faults trace :
      ov_step s {| os_rows := os_rows s; os_now := now; os_next_uuid := os_next_uuid s;
                   os_faults := faults; os_trace := trace |}.

(** C12: Invariant of the override table.  Starting from a well-formed table (the empty one, for
    instance), after any sequence of create, update, delete and import requests, with any
    statements or commits failing on the way, the identifiers are unique, every row has a valid
    canonical domain scope, action and status, and no scope has two active overrides. *)
Theorem override_table_invariant s s' :
  table_ok (os_rows s) (os_next_uuid s) -> rtc ov_step s s' -> table_ok (os_rows s') (os_next_uuid s').
Proof.
  intros H. fold (ov_ok s) in H. fold (ov_ok s'). induction 1 as [|s1 s2 s3 Hs _ IH]; [done|]. apply IH.
  destruct Hs; [by apply create_override_ok|by apply update_override_ok|by apply delete_override_ok
               |by apply import_overrides_ok|done].
Qed.

(** ** The exchange format round-trips *)

Lemma canonical_scope_graphic s : canonical_scope s -> graphic s = true.
Proof.
  intros (v & [->| ->] & Hv & _); [by apply scope_graphic|].
  rewrite str_forall_app. by rewrite (scope_graphic v).
Qed.

Lemma canonical_scope_normal s : canonical_scope s -> normalize_domain_scope s = Ok s.
Proof.
  intros Hs. pose proof (canonical_scope_graphic s Hs) as Hg. destruct Hs as (v & Hsv & Hv & Hdot & Hlen & Hlow).
  unfold normalize_domain_scope. rewrite trim_graphic by done. rewrite Hlow.
  assert (is_empty v = false) as Hne by (by destruct v).
  assert ((match strip_prefix "*." s with Some rest => ("*.", rest) | None => ("", s) end) =
          (if decide (s = v) then "" else "*.", v)) as ->.
  { destruct Hsv as [->| ->].
    - rewrite decide_True by done. destruct v as [|c v]; [done|]. cbn [strip_prefix].
      rewrite decide_False; [done|]. intros <-. by vm_compute in Hv.
    - rewrite strip_prefix_app, decide_False; [done|]. intros H. apply (f_equal str_len) in H.
      rewrite str_app_length in H. cbn in H. lia. }
  assert (is_empty s = false) as -> by (destruct Hsv as [->| ->]; done).
  rewrite Hne, Hdot, Hv. cbn [orb negb]. rewrite decide_False by lia.
  destruct Hsv as [->| ->]; [by rewrite decide_True|].
  rewrite decide_False; [done|]. intros H. apply (f_equal str_len) in H. rewrite str_app_length in H. cbn in H. lia.
Qed.

Lemma canonical_scope_not_comment s : canonical_scope s -> is_empty s || starts_with "#" s = false.
Proof.
  intros (v & [->| ->] & Hv & Hdot & _); [|done]. destruct v as [|c v]; [done|].
  cbn [is_empty orb]. apply not_true_iff_false. rewrite starts_with_spec. intros [r H]. cbn in H.
  injection H as -> _. by vm_compute in Hv.
Qed.

Lemma strip_cr_graphic s : graphic s = true -> strip_cr s = s.
Proof.
  induction s as [|c s IH]; [done|]. cbn [str_forall]. intros [Hc Hs]%andb_true_iff. cbn [strip_cr].
  rewrite IH by done. destruct s; [|done]. rewrite decide_False; [done|]. intros ->. by vm_compute in Hc.
Qed.

Lemma graphic_no_lf s : graphic s = true -> clean LF s.
Proof.
  induction s as [|c s IH]; [done|]. cbn [str_forall]. intros [Hc Hs]%andb_true_iff.
  rewrite IH by done. rewrite andb_true_r. apply negb_true_iff, bool_decide_eq_false.
  intros ->. by vm_compute in Hc.
Qed.

Lemma lines_of_graphic l : Forall (fun s => graphic s = true /\ s <> "") l -> lines_of l = l.
Proof.
  induction 1 as [|s l [Hg Hne] Hl IH]; [done|]. destruct l as [|s' l].
  - cbn. by destruct s.
  - change (lines_of (s :: s' :: l)) with (strip_cr s :: lines_of (s' :: l)).
    by rewrite IH, strip_cr_graphic.
Qed.

Lemma exchange_lines_fold l p :
  Forall canonical_scope l -> NoDup (pi_scopes p ++ l) ->
  foldl exchange_line p l =
  {| pi_total_lines := pi_total_lines p + length l; pi_scopes := pi_scopes p ++ l;
     pi_duplicates := pi_duplicates p; pi_invalid_lines := pi_invalid_lines p |}.
Proof.
  revert p. induction l as [|s l IH]; intros p Hl Hnd; cbn [foldl].
  { rewrite app_nil_r, Nat.add_0_r. by destruct p. }
  apply Forall_cons in Hl as [Hs Hl].
  assert (exchange_line p s = {| pi_total_lines := S (pi_total_lines p); pi_scopes := pi_scopes p ++ [s];
            pi_duplicates := pi_duplicates p; pi_invalid_lines := pi_invalid_lines p |}) as ->.
  { unfold exchange_line. rewrite trim_graphic by by apply canonical_scope_graphic.
    rewrite canonical_scope_not_comment, canonical_scope_normal by done.
    rewrite decide_False; [done|]. apply NoDup_app in Hnd as (_ & Hdis & _). intros Hin.
    apply (Hdis s Hin). left. }
  rewrite IH; cbn; [|done|by rewrite <- app_assoc]. rewrite <- app_assoc. f_equal. lia.
Qed.

(** Round trip of the exchange format: the text an export writes, one valid scope per line
    without repetitions, is read back by an import as exactly these scopes in the same order, with
    no duplicate and no invalid line. *)
Theorem exchange_round_trip scopes :
  scopes <> [] -> Forall canonical_scope scopes -> NoDup scopes ->
  parse_override_exchange_lines (join (String LF "") scopes) =
  {| pi_total_lines := length scopes; pi_scopes := scopes; pi_duplicates := 0; pi_invalid_lines := [] |}.
Proof.
  intros Hne Hs Hnd. unfold parse_override_exchange_lines, lines.
  assert (Forall (fun s => graphic s = true /\ s <> "") scopes) as Hg.
  { eapply Forall_impl; [exact Hs|]. intros s Hc. split; [by apply canonical_scope_graphic|].
    intros ->. by apply canonical_scope_not_comment in Hc. }
  rewrite split_char_join, lines_of_graphic; [|done..|].
  - by rewrite exchange_lines_fold.
  - eapply Forall_impl; [exact Hg|]. intros s [Hgs _]. by apply graphic_no_lf.
Qed.

(** ** Witnesses *)
Module OverridesDemo.

Definition editor : UserContext := {| uc_actor := "eve"; uc_roles := {["policy-editor"]} |}.
Definition request (scope action : string) : OverrideUpsertRequest :=
  {| ou_scope_type := "domain"; ou_scope_value := scope; ou_action := action; ou_reason := None;
     ou_created_by := None; ou_expires_at := None; ou_status := None |}.
Definition empty : OvState :=
  {| os_rows := []; os_now := 0; os_next_uuid := 1; os_faults := []; os_trace := [] |}.

Lemma empty_ok : table_ok [] 1.
Proof. split; [apply NoDup_nil_2|..]; intros r; [| |intros r2]; by intros H%elem_of_nil. Qed.

Lemma override_table_invariant_witness :
  let s := (create_override editor (request "*.Example.com" "Block") empty).2 in
  length (os_rows s) = 1 /\ table_ok (os_rows s) (os_next_uuid s).
Proof.
  split; [vm_compute; reflexivity|].
  apply (override_table_invariant empty); [exact empty_ok|]. apply rtc_once, ov_create.
Defined.

Lemma exchange_round_trip_witness :
  pi_scopes (parse_override_exchange_lines (join (String LF "") ["*.example.com"; "example.org"])) =
  ["*.example.com"; "example.org"].
Proof.
  rewrite (exchange_round_trip ["*.example.com"; "example.org"]); [reflexivity|done|..].
  - repeat constructor; [exists "example.com"|exists "example.org"]; (split_and!; [by auto|done|done|cbn; lia|done]).
  - apply NoDup_cons; split; [|apply NoDup_singleton]. by intros H%list_elem_of_singleton.
Defined.

(** A request invalidates after its commit; an import before. *)
Example create_commits_first :
  os_trace (create_override editor (request "example.com" "block") empty).2 =
  [Committed; Invalidate "domain" "example.com"].
Proof. vm_compute. reflexivity. Qed.
Example import_invalidates_first :
  os_trace (import_overrides editor "block" None (Some false) "example.com" empty).2 =
  [Invalidate "domain" "example.com"; Committed].
Proof. vm_compute. reflexivity. Qed.

End OverridesDemo.
