(* ===== verification/IcapResponse.v ===== *)
(** * The responses of the ICAP adaptor

    [services/icap-adaptor/src/main.rs], the functions [icap_response], [icap_options_response]
    and [build_http_block_response]: the text written to the proxy, with the lengths it declares.
    [read_block_response] is what a client of the protocol does with such a text; the framing
    theorem says it gets header and body back. *)

From S2P Require Import Prelude RustStr Types IcapParse.

(** ** Numbers in text: [{}] and [{:X}] *)

Definition digit_char (d : N) : ascii := if (d <? 10)%N then byte (48 + d) else byte (55 + d).
Definition digit_value (c : ascii) : N :=
  if is_ascii_digit c then (code c - 48)%N else (code c - 55)%N.

Fixpoint digits_fuel (fuel : nat) (base n : N) (acc : string) : string :=
  match fuel with
  | O => acc
  | S fuel' =>
      let acc' := String (digit_char (n mod base)) acc in
      if (n / base =? 0)%N then acc' else digits_fuel fuel' base (n / base) acc'
  end.
(** A number of [b] bits has at most [b] digits. *)
Definition digits (base n : N) : string := digits_fuel (S (N.size_nat n)) base n "".
Definition fmt_dec (n : nat) : string := digits 10 (N.of_nat n).
Definition fmt_hex (n : nat) : string := digits 16 (N.of_nat n).

(** ** The responses *)

Definition DQ : string := String (byte 34) "".

Definition PENDING_HTML : string :=
  "<html><head><meta charset=" +:+ DQ +:+
  "utf-8" +:+ DQ +:+
  " /><title>Site Under Classification</title>" +:+ String LF "" +:+
  "<style>body{font-family:sans-serif;background:#0b1221;color:#f4f7ff;display:flex;align-items:center;justify-content:center;height:100vh;margin:0;} .card{background:#141d33;border:1px solid #1f2a48;border-radius:12px;padding:32px;max-width:460px;text-align:center;box-shadow:0 20px 60px rgba(0,0,0,0.4);} h1{font-size:1.5rem;margin-bottom:12px;} p{line-height:1.5;color:#c6d4f5;} .hint{margin-top:20px;font-size:0.9rem;color:#8ea0ce;}</style>" +:+ String LF "" +:+
  "</head><body><div class=" +:+ DQ +:+
  "card" +:+ DQ +:+
  "><h1>Site Under Classification</h1><p>Security is verifying this destination with full page content. Access will be restored automatically once the scan completes.</p><p class=" +:+ DQ +:+
  "hint" +:+ DQ +:+
  ">Please retry in a moment or contact Security if this persists.</p></div></body></html>".

Definition http_header (status_line content_type : string) (body : string) : string :=
  "HTTP/1.1 " +:+ status_line +:+ CRLF +:+ "Content-Type: " +:+ content_type +:+ CRLF +:+
  "Content-Length: " +:+ fmt_dec (str_len body) +:+ CRLF +:+ "Connection: close" +:+ CRLF +:+ CRLF.

(** The body is valid UTF-8, so [from_utf8_lossy] is the identity on it. *)
Definition build_http_block_response (status_line content_type body : string) : string :=
  let http_header := http_header status_line content_type body in
  let header_len := str_len http_header in
  let chunk_prefix := fmt_hex (str_len body) +:+ CRLF in
  "ICAP/1.0 200 OK" +:+ CRLF +:+ "Encapsulated: res-hdr=0, res-body=" +:+ fmt_dec header_len +:+
  CRLF +:+ CRLF +:+ http_header +:+ chunk_prefix +:+ body +:+ CRLF +:+ "0" +:+ CRLF +:+ CRLF.

Definition NO_CONTENT_RESPONSE : string := "ICAP/1.0 204 No Content" +:+ CRLF +:+ CRLF.

Definition icap_response (action : PolicyAction) : string :=
  match action with
  | Allow | Monitor => NO_CONTENT_RESPONSE
  | Review =>
      build_http_block_response "403 Forbidden" "text/plain; charset=utf-8"
        "Request queued for security review."
  | ContentPending =>
      build_http_block_response "403 Forbidden" "text/html; charset=utf-8" PENDING_HTML
  | _ =>
      build_http_block_response "403 Forbidden" "text/plain; charset=utf-8" "Request blocked."
  end.

Definition icap_options_response (preview_size : nat) : string :=
  "ICAP/1.0 200 OK" +:+ CRLF +:+ "Methods: REQMOD" +:+ CRLF +:+ "Service: OpenDefender-REQMOD" +:+ CRLF +:+
  "ISTag: " +:+ DQ +:+ "open-defender" +:+ DQ +:+ CRLF +:+ "Allow: 204" +:+ CRLF +:+
  "Preview: " +:+ fmt_dec preview_size +:+ CRLF +:+ "Encapsulated: null-body=0" +:+ CRLF +:+ CRLF.

(** ** A client of the protocol *)

Definition parse_digits (base : N) (s : string) : N :=
  foldl (fun v c => v * base + digit_value c)%N 0%N (String.list_ascii_of_string s).

Fixpoint split_at (n : nat) (s : string) : string * string :=
  match n, s with
  | S n', String c s' => let lr := split_at n' s' in (String c lr.1, lr.2)
  | _, _ => ("", s)
  end.

(** The HTTP header, as long as the [Encapsulated] header says, and the one chunk of the body. *)
Definition read_block_response (s : string) : option (string * string) :=
  '(icap_head, rest) ← split_once (CRLF +:+ CRLF) s;
  '(_, offset) ← split_once "res-body=" icap_head;
  let '(header, chunks) := split_at (N.to_nat (parse_digits 10 offset)) rest in
  '(size, chunk) ← split_once CRLF chunks;
  let '(body, trailer) := split_at (N.to_nat (parse_digits 16 size)) chunk in
  if decide (trailer = CRLF +:+ "0" +:+ CRLF +:+ CRLF) then Some (header, body) else None.

Example pending_framing :
  snd <$> read_block_response (icap_response ContentPending) = Some PENDING_HTML.
Proof. vm_compute. reflexivity. Qed.

(** ** Numbers are read back *)

Lemma digit_value_char d : (d < 16)%N -> digit_value (digit_char d) = d.
Proof.
  intros Hd. assert (Forall (fun d => digit_value (digit_char d) = d) (N.of_nat <$> seq 0 16)) as H
    by (repeat constructor).
  rewrite Forall_fmap, Forall_seq in H. specialize (H (N.to_nat d)). cbn in H.
  rewrite N2Nat.id in H. apply H. lia.
Qed.

Definition parse_from (base v : N) (s : string) : N :=
  foldl (fun v c => v * base + digit_value c)%N v (String.list_ascii_of_string s).

Lemma digits_fuel_parse fuel base n acc :
  (2 <= base <= 16)%N -> (n < 2 ^ N.of_nat fuel)%N -> fuel <> 0 ->
  parse_from base 0 (digits_fuel fuel base n acc) = parse_from base n acc.
Proof.
  intros Hb. revert n acc. induction fuel as [|fuel IH]; intros n acc Hn Hne; [done|]. cbn [digits_fuel].
  assert (n mod base < base)%N as Hmod by (apply N.mod_lt; lia).
  assert (forall v, v = n / base -> parse_from base v (String (digit_char (n mod base)) acc) = parse_from base n acc)%N as Hstep.
  { intros v ->. unfold parse_from. cbn. f_equal. rewrite digit_value_char by lia.
    rewrite (N.mul_comm (n / base)). symmetry. apply N.div_mod. lia. }
  destruct (N.eqb_spec (n / base) 0) as [Hz|Hz].
  - apply Hstep. lia.
  - rewrite IH; [by apply Hstep|..].
    + apply N.Div0.div_lt_upper_bound. rewrite Nat2N.inj_succ, N.pow_succ_r' in Hn. nia.
    + intros ->. apply Hz. apply N.div_small. cbn in Hn. lia.
Qed.

Lemma parse_digits_digits base n : (2 <= base <= 16)%N -> parse_digits base (digits base n) = n.
Proof.
  intros Hb. unfold digits. change (parse_digits base ?s) with (parse_from base 0 s).
  rewrite digits_fuel_parse; [done|done| |done].
  rewrite Nat2N.inj_succ. pose proof (N.size_gt n) as H.
  assert (N.of_nat (N.size_nat n) = N.size n) as ->.
  { clear H. destruct n as [|p]; [done|]. cbn [N.size_nat N.size].
    induction p as [p IH|p IH|]; [..|done]; cbn [Pos.size_nat Pos.size]; rewrite Nat2N.inj_succ, IH; lia. }
  rewrite N.pow_succ_r'. lia.
Qed.

(** ** Framing *)

Lemma split_at_app l r : split_at (str_len l) (l +:+ r) = (l, r).
Proof.
  induction l as [|c l IH]; [done|]. change (str_len (String c l)) with (S (str_len l)).
  change (String c l +:+ r) with (String c (l +:+ r)). cbn [split_at]. by rewrite IH.
Qed.

(** A chunk size line: text without line breaks before the separator. *)
Lemma split_once_crlf_line l r :
  str_forall wire_char l = true -> split_once CRLF (l +:+ CRLF +:+ r) = Some (l, r).
Proof.
  induction l as [|c l IH]; intros Hl.
  - change ("" +:+ CRLF +:+ r) with (CRLF +:+ r). by destruct r.
  - cbn [str_forall] in Hl. apply andb_true_iff in Hl as [[Hc _]%wire_char_spec Hl].
    change (String c l +:+ CRLF +:+ r) with (String c (l +:+ CRLF +:+ r)).
    rewrite split_once_miss; [by rewrite IH|]. unfold CRLF. cbn [strip_prefix]. by rewrite decide_False.
Qed.

Lemma digits_wire base n : (0 < base <= 16)%N -> str_forall wire_char (digits base n) = true.
Proof.
  intros Hb. unfold digits. assert (str_forall wire_char "" = true) as Ha by done. revert Ha.
  generalize (S (N.size_nat n)) as fuel, "" as acc. intros fuel acc Ha. revert n acc Ha.
  induction fuel as [|fuel IH]; intros n acc Ha; [done|]. cbn [digits_fuel].
  assert (str_forall wire_char (String (digit_char (n mod base)) acc) = true) as Hc.
  { cbn [str_forall]. rewrite Ha, andb_true_r.
    assert (Forall (fun d => wire_char (digit_char d) = true) (N.of_nat <$> seq 0 16)) as H
      by (repeat constructor).
    assert (n mod base < 16)%N as Hm by (eapply N.lt_le_trans; [apply N.mod_lt|]; lia).
    revert Hm. generalize (n mod base)%N as d. intros d Hm.
    rewrite Forall_fmap, Forall_seq in H. specialize (H (N.to_nat d)). cbn in H.
    rewrite N2Nat.id in H. apply H. lia. }
  destruct (N.eqb_spec (n / base) 0); [done|by apply IH].
Qed.

Lemma parse_fmt_dec n : N.to_nat (parse_digits 10 (fmt_dec n)) = n.
Proof. unfold fmt_dec. rewrite parse_digits_digits by lia. apply Nat2N.id. Qed.
Lemma parse_fmt_hex n : N.to_nat (parse_digits 16 (fmt_hex n)) = n.
Proof. unfold fmt_hex. rewrite parse_digits_digits by lia. apply Nat2N.id. Qed.

Lemma split_encapsulated d :
  split_once "res-body=" ("ICAP/1.0 200 OK" +:+ CRLF +:+ "Encapsulated: res-hdr=0, res-body=" +:+ d) =
  Some ("ICAP/1.0 200 OK" +:+ CRLF +:+ "Encapsulated: res-hdr=0, ", d).
Proof. vm_compute. reflexivity. Qed.

(** The head of the ICAP message ends at the first empty line. *)
Lemma split_icap_head n rest :
  let head := "ICAP/1.0 200 OK" +:+ CRLF +:+ "Encapsulated: res-hdr=0, res-body=" +:+ fmt_dec n in
  split_once (CRLF +:+ CRLF) (head +:+ CRLF +:+ CRLF +:+ rest) = Some (head, rest).
Proof.
  cbv zeta. set (line := "Encapsulated: res-hdr=0, res-body=" +:+ fmt_dec n).
  apply (split_once_section ["ICAP/1.0 200 OK"; line] rest); [done|].
  apply Forall_cons. split; [by split|]. apply Forall_singleton. split; [done|]. unfold line. rewrite str_forall_app. unfold fmt_dec.
  by rewrite digits_wire by lia.
Qed.

Lemma block_response_read status_line content_type body :
  read_block_response (build_http_block_response status_line content_type body) =
  Some (http_header status_line content_type body, body).
Proof.
  unfold build_http_block_response. set (h := http_header status_line content_type body).
  unfold read_block_response.
  set (trailer := CRLF +:+ "0" +:+ CRLF +:+ CRLF).
  set (rest := h +:+ fmt_hex (str_len body) +:+ CRLF +:+ body +:+ trailer).
  pose proof (split_icap_head (str_len h) rest) as Hhead. cbv zeta in Hhead.
  rewrite !str_app_assoc in Hhead. cbv zeta. unfold rest in Hhead.
  rewrite !str_app_assoc, Hhead. cbn [mbind option_bind].
  rewrite split_encapsulated. cbn [mbind option_bind].
  rewrite parse_fmt_dec, split_at_app, split_once_crlf_line by (by apply digits_wire).
  cbn [mbind option_bind]. rewrite parse_fmt_hex, split_at_app. by rewrite decide_True.
Qed.

(** Framing of the block page.  A client that follows the protocol reads the response back:
    the offset in the [Encapsulated] header is the length of the HTTP header, the chunk size in
    hexadecimal is the length of the body, and the text ends with the last chunk, whatever the
    status line, content type and body. *)
Theorem block_response_framing status_line content_type body :
  read_block_response (build_http_block_response status_line content_type body) =
  Some (http_header status_line content_type body, body).
Proof. apply block_response_read. Qed.

Lemma icap_response_pass action :
  icap_response action = NO_CONTENT_RESPONSE <-> action = Allow \/ action = Monitor.
Proof. destruct action; (split; [intros H; by auto || by vm_compute in H|by intros []]). Qed.

(** Only an allowed or monitored request passes.  The adaptor answers every action; the
    answer lets the request through exactly for [Allow] and [Monitor], and for every other action
    it is a [403] page that a client reads completely. *)
Theorem icap_response_blocks action :
  (icap_response action = NO_CONTENT_RESPONSE <-> action = Allow \/ action = Monitor) /\
  (action <> Allow -> action <> Monitor ->
   exists header body, read_block_response (icap_response action) = Some (header, body) /\
     starts_with ("HTTP/1.1 403 Forbidden" +:+ CRLF) header = true /\ body <> "").
Proof.
  split; [apply icap_response_pass|].
  intros H1 H2. destruct action; try done; cbn [icap_response]; rewrite block_response_read;
    (eexists _, _; split; [done|]; split; [vm_compute; reflexivity|done]).
Qed.
