(* ===== verification/IcapAdaptor.v ===== *)
(** * The ICAP adaptor

    [services/icap-adaptor/src/main.rs], with the job publishers of [jobs.rs] and the clients of
    [policy_client.rs] and [pending_client.rs]: what happens to one connection.  The handler reads
    one message, answers it, and on the way calls the policy engine, the admin API and the job
    queues.  Those calls are the events of a trace, in the order they are made; what the policy
    engine answers is the parameter [policy_evaluate].  The failure of a call to the admin API or
    a queue is only logged by the code, so the event stands for the attempt.  Metrics and logging
    are left out. *)

From S2P Require Import Prelude RustStr Types ServiceConfig Normalizer Taxonomy IcapParse IcapResponse Cache.

(** A Redis client and an admin API client exist when they are configured. *)
Definition ic_has_redis (cfg : IcapConfig) : bool := bool_decide (is_Some (ic_redis_url cfg)).
Definition ic_has_admin (cfg : IcapConfig) : bool := bool_decide (is_Some (ic_admin_api cfg)).

(** ** Jobs and effects *)

Record ClassificationJob := {
  cj_normalized_key : string;
  cj_entity_level : string;
  cj_hostname : string;
  cj_full_url : string;
  cj_trace_id : string;
  cj_idempotency_key : option string;
  cj_requires_content : bool;
  cj_base_url : option string
}.

Inductive Effect :=
  | PolicyCall (request : PolicyDecisionRequest)
  | UpsertPending (normalized_key : string) (base_url : option string)
  | ClearPending (normalized_key : string)
  | PublishPageFetch (stream : string) (job : PageFetchJob)
  | PublishClassification (stream : string) (job : ClassificationJob)
  | Respond (response : string).

(** [PageFetchPublisher::publish]: a job without a positive time to live gets the default one,
    which is at least a minute. *)
Definition page_fetch_default_ttl (q : PageFetchQueueConfig) : Z := Z.max (pf_ttl_seconds q) 60.
Definition publish_page_fetch (q : PageFetchQueueConfig) (job : PageFetchJob) : Effect :=
  let ttl := if decide (default 0 (pfj_ttl_seconds job) <= 0)%Z
             then Some (page_fetch_default_ttl q) else pfj_ttl_seconds job in
  PublishPageFetch (pf_stream q)
    {| pfj_normalized_key := pfj_normalized_key job; pfj_url := pfj_url job;
       pfj_hostname := pfj_hostname job; pfj_candidate_urls := pfj_candidate_urls job;
       pfj_trace_id := pfj_trace_id job; pfj_idempotency_key := pfj_idempotency_key job;
       pfj_ttl_seconds := ttl |}.

(** ** Identity headers *)

Definition MAX_GROUPS : nat := 32.
Definition MAX_LEN : nat := 128.

Definition identity_char (c : ascii) : bool :=
  is_ascii_alphanumeric c || bool_decide (c ∈ ["@"; "."; "-"; "_"; ":"; "/"]%char).

Definition sanitize_identity (value : string) : option string :=
  let trimmed := trim value in
  if is_empty trimmed || bool_decide (MAX_LEN < str_len trimmed) then None
  else if str_forall identity_char trimmed then Some trimmed else None.

Record IdentityContext := { id_user_id : option string; id_group_ids : list string }.

(** The loop over the parts of [X-Group]. *)
Fixpoint collect_groups (acc : list string) (parts : list string) : list string :=
  match parts with
  | [] => acc
  | part :: parts' =>
      if decide (MAX_GROUPS <= length acc) then acc
      else match sanitize_identity part with
           | Some clean => collect_groups (acc ++ [clean]) parts'
           | None => collect_groups acc parts'
           end
  end.

Definition extract_identity (headers : gmap string string) : IdentityContext :=
  {| id_user_id := headers !! "x-user" ≫= sanitize_identity;
     id_group_ids :=
       match headers !! "x-group" with
       | Some value => collect_groups [] (split_on (fun c => is_char "," c || is_char ";" c) value)
       | None => []
       end |}.

(** ** Decisions *)

Definition action_requires_follow_up (action : PolicyAction) (missing_verdict : bool) : bool :=
  missing_verdict ||
  match action with Review | RequireApproval | Warn | ContentPending => true | _ => false end.

Definition should_require_content_pending (require_content : bool) (action : PolicyAction)
    (verdict : option ClassificationVerdict) : bool :=
  let has_unknown_fallback :=
    match verdict with
    | Some v => eq_ignore_ascii_case (cv_primary_category v) "unknown-unclassified"
    | None => false
    end in
  require_content && (bool_decide (verdict = None) || has_unknown_fallback) &&
  match action with Allow | Monitor => true | _ => false end.

Definition entity_level_str_from_key (normalized_key : string) : string :=
  if starts_with "domain:" normalized_key then "domain"
  else if starts_with "subdomain:" normalized_key then "subdomain"
  else if starts_with "url:" normalized_key then "url"
  else "page".

Definition is_inheritable_ancestor_action (action : PolicyAction) : bool :=
  match action with Allow | Monitor | Block => true | _ => false end.

Definition ancestor_domain_key (normalized : NormalizedTarget) : option string :=
  if decide (nt_entity_level normalized <> Subdomain) then None
  else if decide (nt_registered_domain normalized = nt_hostname normalized) then None
  else Some ("domain:" +:+ nt_registered_domain normalized).

Section Adaptor.
  Context `{U : Unicode} `{X : Externals} `{Jc : CacheJson}.

(** ** URLs to fetch *)

Definition derive_base_url (full_url : string) : option string :=
  parsed ← Url_parse full_url;
  host ← u_host_str parsed;
  Some (u_scheme parsed +:+ "://" +:+ host +:+ "/").

Definition fallback_base_url (hostname : string) : string := "https://" +:+ hostname +:+ "/".

Definition dedupe_preserve_order (values : list string) : list string := dedupe_from [] values.

Definition build_fetch_candidates (classification_key : string) (normalized : NormalizedTarget)
    : list string :=
  match strip_prefix "domain:" classification_key with
  | Some domain =>
      dedupe_preserve_order
        (["https://" +:+ domain +:+ "/"; "https://www." +:+ domain +:+ "/"] ++
         match derive_base_url (nt_full_url normalized) with Some observed => [observed] | None => [] end)
  | None =>
      dedupe_preserve_order
        [default (fallback_base_url (nt_hostname normalized)) (derive_base_url (nt_full_url normalized))]
  end.

(** ** The cache in front of the policy engine *)

Definition resolve_cached_decision (has_redis : bool) (normalized : NormalizedTarget) (w : CacheWorld)
    : option PolicyDecision * CacheWorld :=
  match get has_redis (nt_normalized_key normalized) w with
  | (Some decision, w') => (Some decision, w')
  | (None, w') =>
      match ancestor_domain_key normalized with
      | None => (None, w')
      | Some ancestor_key =>
          match get has_redis ancestor_key w' with
          | (Some decision, w'') =>
              (if is_inheritable_ancestor_action (pd_action decision) then Some decision else None, w'')
          | (None, w'') => (None, w'')
          end
      end
  end.

(** ** One connection *)

Context (policy_evaluate : PolicyDecisionRequest -> result string PolicyDecision).

Definition set_content_pending (d : PolicyDecision) : PolicyDecision :=
  {| pd_action := ContentPending; pd_cache_hit := pd_cache_hit d; pd_verdict := None;
     pd_decision_source := pd_decision_source d |}.

(** The calls a decision leads to, before the response. *)
Definition follow_up (cfg : IcapConfig) (req : IcapRequest) (normalized : NormalizedTarget)
    (classification_key : string) (decision : PolicyDecision) (requires_pending : bool) : list Effect :=
  let fetch_candidates := build_fetch_candidates classification_key normalized in
  let base_url :=
    match head fetch_candidates with
    | Some u => Some u
    | None =>
        match derive_base_url (nt_full_url normalized) with
        | Some u => Some u
        | None => Some (fallback_base_url (nt_hostname normalized))
        end
    end in
  let idempotency prefix := (fun trace => prefix +:+ classification_key +:+ ":" +:+ trace) <$> iq_trace_id req in
  (if requires_pending then
     (if ic_has_admin cfg then [UpsertPending classification_key base_url] else []) ++
     match ic_page_fetch_queue cfg with
     | Some q =>
         [publish_page_fetch q
            {| pfj_normalized_key := classification_key;
               pfj_url := default (nt_full_url normalized) base_url;
               pfj_hostname := nt_hostname normalized; pfj_candidate_urls := fetch_candidates;
               pfj_trace_id := iq_trace_id req; pfj_idempotency_key := idempotency "page:";
               pfj_ttl_seconds := None |}]
     | None => []
     end
   else if ic_has_admin cfg then [ClearPending classification_key] else []) ++
  match ic_job_queue cfg with
  | Some queue =>
      if requires_pending || action_requires_follow_up (pd_action decision) (bool_decide (pd_verdict decision = None))
      then [PublishClassification (jq_stream queue)
              {| cj_normalized_key := classification_key;
                 cj_entity_level := entity_level_str_from_key classification_key;
                 cj_hostname := nt_hostname normalized; cj_full_url := nt_full_url normalized;
                 cj_trace_id := default "" (iq_trace_id req); cj_idempotency_key := idempotency "cls:";
                 cj_requires_content := requires_pending; cj_base_url := base_url |}]
      else []
  | None => []
  end.

(** A decision of the policy engine: cache it, follow it up, answer. *)
Definition enforce_decision (cfg : IcapConfig) (req : IcapRequest) (normalized : NormalizedTarget)
    (classification_key : string) (decision : PolicyDecision) (w : CacheWorld) : list Effect * CacheWorld :=
  let classification_required :=
    should_require_content_pending (ic_require_content cfg) (pd_action decision) (pd_verdict decision) in
  let requires_pending := classification_required || bool_decide (pd_action decision = ContentPending) in
  let response_decision := if requires_pending then set_content_pending decision else decision in
  let ttl := if requires_pending then (1000 * Z.max (ic_pending_cache_ttl_seconds cfg) 30)%Z else 300000%Z in
  let w' := set (ic_has_redis cfg) (nt_normalized_key normalized) response_decision ttl w in
  (follow_up cfg req normalized classification_key decision requires_pending ++
     [Respond (icap_response (pd_action response_decision))], w').

(** The target of the HTTP request. *)
Definition connection_target (req : IcapRequest) : result string (string * NormalizedTarget) :=
  http_host ← ok_or (iq_http_host req) "HTTP host header missing";
  http_path ← ok_or (iq_http_path req) "HTTP path missing";
  normalized ← normalize_target http_host http_path (iq_http_scheme req);
  Ok (http_host, normalized).

(** The key jobs and pending requests are filed under. *)
Definition classification_key (cfg : IcapConfig) (req : IcapRequest) (normalized : NormalizedTarget) : string :=
  default (nt_normalized_key normalized)
    (canonical_classification_key_with_policy (nt_normalized_key normalized)
       (from_tenant_exceptions (ic_tenant_domain_exceptions cfg))
       (iq_headers req !! "x-authenticated-tenant")).

Definition policy_request (http_host : string) (normalized : NormalizedTarget) (req : IcapRequest)
    : PolicyDecisionRequest :=
  let identity := extract_identity (iq_headers req) in
  {| pdr_normalized_key := nt_normalized_key normalized; pdr_entity_level := nt_entity_level normalized;
     pdr_source_ip := http_host; pdr_user_id := id_user_id identity;
     pdr_group_ids := id_group_ids identity |}.

(** [handle_connection], from the text that was read. *)
Definition handle_connection (cfg : IcapConfig) (raw : string) (w : CacheWorld)
    : result string unit * list Effect * CacheWorld :=
  match parse raw with
  | Err e => (Err e, [], w)
  | Ok req =>
      if eq_ignore_ascii_case (iq_method req) "OPTIONS" then
        (Ok tt, [Respond (icap_options_response (ic_preview_size cfg))], w)
      else
        match connection_target req with
        | Err e => (Err e, [], w)
        | Ok (http_host, normalized) =>
            let key := classification_key cfg req normalized in
            match resolve_cached_decision (ic_has_redis cfg) normalized w with
            | (Some decision, w') =>
                (Ok tt,
                 (if bool_decide (pd_action decision <> ContentPending) && ic_has_admin cfg
                  then [ClearPending key] else []) ++
                 [Respond (icap_response (pd_action decision))], w')
            | (None, w') =>
                let request := policy_request http_host normalized req in
                match policy_evaluate request with
                | Err e => (Err e, [PolicyCall request], w')
                | Ok decision =>
                    let '(effects, w'') := enforce_decision cfg req normalized key decision w' in
                    (Ok tt, PolicyCall request :: effects, w'')
                end
            end
        end
  end.

End Adaptor.

(** ** Identity *)

Definition good_identity (s : string) : Prop :=
  1 <= str_len s <= MAX_LEN /\ str_forall identity_char s = true.

Lemma sanitize_identity_good v s : sanitize_identity v = Some s -> good_identity s /\ s = trim v.
Proof.
  unfold sanitize_identity, good_identity. destruct (is_empty (trim v)) eqn:E; [done|]. cbn [orb].
  case_bool_decide as Hlen; [done|]. destruct (str_forall identity_char (trim v)) eqn:Ec; [|done].
  intros [= <-]. split_and!; [|lia|done|done]. destruct (trim v); [done|]. cbn. lia.
Qed.

Lemma collect_groups_spec parts acc :
  length acc <= MAX_GROUPS ->
  collect_groups acc parts = acc ++ take (MAX_GROUPS - length acc) (omap sanitize_identity parts).
Proof.
  revert acc. induction parts as [|part parts IH]; intros acc Hacc; cbn [collect_groups].
  { change (omap sanitize_identity []) with (@nil string). by rewrite take_nil, app_nil_r. }
  case_decide as Hfull.
  { replace (MAX_GROUPS - length acc) with 0 by lia. by rewrite take_0, app_nil_r. }
  cbn [omap list_omap]. destruct (sanitize_identity part) as [clean|]; [|by apply IH].
  rewrite IH by (rewrite length_app; cbn; lia). rewrite length_app, <- app_assoc. cbn [length app].
  replace (MAX_GROUPS - length acc) with (S (MAX_GROUPS - (length acc + 1))) by lia. done.
Qed.

(** Identity headers are bounded and clean.  The groups passed to the policy engine are the
    first 32 well-formed parts of the [X-Group] header, in order; every user or group name passed
    on is between 1 and 128 bytes long, made of the permitted characters only, and is the trimmed
    text of a header; a name that is not well-formed is dropped. *)
Theorem extract_identity_spec headers :
  let ctx := extract_identity headers in
  id_group_ids ctx =
    take 32 (omap sanitize_identity
      (match headers !! "x-group" with
       | Some value => split_on (fun c => is_char "," c || is_char ";" c) value
       | None => []
       end)) /\
  length (id_group_ids ctx) <= 32 /\
  Forall good_identity (id_group_ids ctx) /\
  (forall u, id_user_id ctx = Some u ->
     good_identity u /\ exists value, headers !! "x-user" = Some value /\ u = trim value).
Proof.
  cbv zeta. assert (forall parts, Forall good_identity (take 32 (omap sanitize_identity parts))) as Hgood.
  { intros parts. apply Forall_take, Forall_forall. intros s (p & _ & Hs)%list_elem_of_omap.
    by apply sanitize_identity_good in Hs as []. }
  unfold extract_identity. cbn [id_group_ids id_user_id].
  destruct (headers !! "x-group") as [value|].
  - rewrite collect_groups_spec by (cbn; lia). cbn [length app]. rewrite Nat.sub_0_r.
    change MAX_GROUPS with 32. split_and!; [done|rewrite length_take; lia|apply Hgood|].
    destruct (headers !! "x-user") as [u'|]; [|done]. intros u [? ->]%sanitize_identity_good. eauto.
  - split_and!; [done|cbn; lia|constructor|].
    destruct (headers !! "x-user") as [u'|]; [|done]. intros u [? ->]%sanitize_identity_good. eauto.
Qed.

(** ** One connection *)

Section AdaptorProps.
  Context `{U : Unicode} `{X : Externals} `{Jc : CacheJson}.
  Context (policy_evaluate : PolicyDecisionRequest -> result string PolicyDecision).

Definition is_respond (e : Effect) : bool := match e with Respond _ => true | _ => false end.

Lemma follow_up_silent cfg req t ck d p : Forall (fun e => is_respond e = false) (follow_up cfg req t ck d p).
Proof.
  unfold follow_up. apply Forall_app. split.
  - destruct p; [apply Forall_app; split|]; repeat case_match; repeat constructor.
  - repeat case_match; repeat constructor.
Qed.

Lemma redis_get_memory has_redis key w : cw_memory (redis_get has_redis key w).2 = cw_memory w.
Proof.
  unfold redis_get. destruct has_redis; [|done]. set (run := fun w => _).
  pose proof (attempts_spec run w) as H. destruct (attempts 3 0 run w) as [[r|] w'];
    destruct H as (w1 & Hm & _ & _ & H); [destruct H as [[= -> ->] _]|subst w1]; done.
Qed.

Lemma get_memory has_redis key w : cw_memory (get has_redis key w).2 = cw_memory w.
Proof.
  unfold get. destruct (memory_get key w); [done|].
  pose proof (redis_get_memory has_redis key w). by destruct (redis_get has_redis key w).
Qed.

Lemma resolve_cached_memory has_redis t w :
  cw_memory (resolve_cached_decision has_redis t w).2 = cw_memory w.
Proof.
  unfold resolve_cached_decision. pose proof (get_memory has_redis (nt_normalized_key t) w) as H.
  destruct (get has_redis (nt_normalized_key t) w) as [[d|] w']; [done|].
  destruct (ancestor_domain_key t) as [k|]; [|done].
  pose proof (get_memory has_redis k w'). destruct (get has_redis k w') as [[d|] w'']; cbn in *; congruence.
Qed.

(** Answered exactly once, or not at all.  When the handler succeeds, its last act is to write
    one response and it wrote none before; when it fails (a malformed message, a host that cannot
    be normalised, the policy engine out of reach), it wrote nothing, so nothing is let through,
    and it stored no decision. *)
Theorem answered_once cfg raw w :
  let '(r, effects, w') := handle_connection policy_evaluate cfg raw w in
  match r with
  | Ok _ => exists calls response, effects = calls ++ [Respond response] /\
              Forall (fun e => is_respond e = false) calls
  | Err _ => Forall (fun e => is_respond e = false) effects /\ cw_memory w' = cw_memory w
  end.
Proof.
  unfold handle_connection. destruct (parse raw) as [req|]; [|done].
  destruct (eq_ignore_ascii_case _ _); [by exists [], (icap_options_response (ic_preview_size cfg))|].
  destruct (connection_target req) as [[http_host t]|]; [|done].
  pose proof (resolve_cached_memory (ic_has_redis cfg) t w) as Hm.
  destruct (resolve_cached_decision _ t w) as [[d|] w']; cbn in Hm.
  - eexists _, _. split; [done|]. by case_match; repeat constructor.
  - destruct (policy_evaluate _) as [d|]; [|split; [by repeat constructor|done]].
    cbn [enforce_decision]. eexists (_ :: _), _. split; [done|].
    constructor; [done|apply follow_up_silent].
Qed.

Definition passes (a : PolicyAction) : Prop := a = Allow \/ a = Monitor.

(** A verdict that says nothing about the site. *)
Definition unclassified (d : PolicyDecision) : Prop :=
  match pd_verdict d with
  | Some v => eq_ignore_ascii_case (cv_primary_category v) "unknown-unclassified" = true
  | None => True
  end.

Lemma should_require_spec a v d :
  pd_verdict d = v ->
  should_require_content_pending true a v = true <-> unclassified d /\ passes a.
Proof.
  intros <-. unfold should_require_content_pending, unclassified, passes.
  destruct (pd_verdict d) as [v|].
  - rewrite bool_decide_eq_false_2 by done. cbn. rewrite andb_true_iff. destruct a; naive_solver.
  - rewrite bool_decide_eq_true_2 by done. cbn. destruct a; naive_solver.
Qed.

Lemma only_respond effects calls r s :
  effects = calls ++ [Respond r] -> Forall (fun e => is_respond e = false) calls ->
  Respond s ∈ effects -> s = r.
Proof.
  intros -> Hc [H|H]%elem_of_app; [|by apply list_elem_of_singleton in H as [= ->]].
  rewrite Forall_forall in Hc. by apply Hc in H.
Qed.

(** C13: Nothing unclassified gets through.  While content is required, a request is let through
    only on a cached decision that allows or monitors it, or on a decision of the policy engine
    that does so with a verdict other than the unknown category. *)
Theorem no_unclassified_pass cfg raw w r effects w' :
  handle_connection policy_evaluate cfg raw w = (r, effects, w') ->
  ic_require_content cfg = true -> Respond NO_CONTENT_RESPONSE ∈ effects ->
  exists req host t, parse raw = Ok req /\ connection_target req = Ok (host, t) /\
    ((exists d, (resolve_cached_decision (ic_has_redis cfg) t w).1 = Some d /\ passes (pd_action d)) \/
     (exists d, policy_evaluate (policy_request host t req) = Ok d /\ passes (pd_action d) /\ ~ unclassified d)).
Proof.
  unfold handle_connection. intros H Hrc Hin. destruct (parse raw) as [req|]; [|by injection H as _ <- _; set_solver].
  destruct (eq_ignore_ascii_case _ _).
  { injection H as _ <- _. by apply list_elem_of_singleton in Hin as [= Hin]. }
  destruct (connection_target req) as [[host t]|] eqn:Et; [|by injection H as _ <- _; set_solver].
  exists req, host, t. split_and!; [done..|].
  destruct (resolve_cached_decision _ t w) as [[d|] w1].
  - left. exists d. split; [done|]. injection H as _ <- _. apply icap_response_pass.
    symmetry. eapply only_respond; [reflexivity| |done]. case_match; by repeat constructor.
  - right. destruct (policy_evaluate _) as [d|]; [|injection H as _ <- _; by apply list_elem_of_singleton in Hin].
    exists d. split; [done|]. cbn [enforce_decision] in H. rewrite Hrc in H. injection H as _ <- _.
    apply elem_of_cons in Hin as [Hin|Hin]; [done|].
    eapply only_respond in Hin; [|reflexivity|apply follow_up_silent].
    symmetry in Hin. apply icap_response_pass in Hin.
    destruct (should_require_content_pending true _ _) eqn:Es; [by destruct Hin|]. cbn [orb] in Hin.
    case_bool_decide; [by destruct Hin|]. split; [done|]. intros Hu.
    assert (should_require_content_pending true (pd_action d) (pd_verdict d) = true)
      by (by apply should_require_spec with (d := d)). congruence.
Qed.

Lemma get_now has_redis key w : (cw_now w <= cw_now (get has_redis key w).2)%Z.
Proof.
  unfold get. destruct (memory_get key w); [done|]. unfold redis_get. destruct has_redis; [|done].
  set (run := fun w => _). pose proof (attempts_spec run w) as H.
  destruct (attempts 3 0 run w) as [[r|] w'];
    destruct H as (w1 & _ & _ & Ht & H); [destruct H as [[= -> ->] _]|subst w1]; cbn; lia.
Qed.

Lemma resolve_cached_now has_redis t w :
  (cw_now w <= cw_now (resolve_cached_decision has_redis t w).2)%Z.
Proof.
  unfold resolve_cached_decision. pose proof (get_now has_redis (nt_normalized_key t) w) as H.
  destruct (get has_redis (nt_normalized_key t) w) as [[d|] w']; [done|].
  destruct (ancestor_domain_key t) as [k|]; [|done].
  pose proof (get_now has_redis k w'). destruct (get has_redis k w') as [[d|] w'']; cbn in *; lia.
Qed.

Lemma set_memory_lookup has_redis key d ttl w :
  cw_memory (set has_redis key d ttl w) !! key =
  Some {| ce_decision := d; ce_expires_at := cw_now w + ttl |}.
Proof.
  pose proof (redis_set_spec has_redis key (decision_to_string d) (Z.max 1 (ttl / 1000)) (memory_set key d ttl w)) as [Hm _].
  unfold set. destruct has_redis; [rewrite Hm|]; apply lookup_insert_eq.
Qed.

Lemma build_fetch_candidates_ne ck t : build_fetch_candidates ck t <> [].
Proof. unfold build_fetch_candidates. by case_match. Qed.

(** C22: A site that has to be classified gets the work it waits for.  While content is required
    and a queue for classification jobs is configured, a decision that would let an unclassified
    site through is answered with the pending page, a classification job that asks for the
    content is published for the site's key with a URL to fetch, a page fetch job with at least
    one candidate URL and a time to live of at least a minute is published where that queue is
    configured, and the pending decision is cached for at least 30 seconds. *)
Theorem pending_is_followed_up cfg raw w req host t d queue :
  parse raw = Ok req -> eq_ignore_ascii_case (iq_method req) "OPTIONS" = false ->
  connection_target req = Ok (host, t) ->
  (resolve_cached_decision (ic_has_redis cfg) t w).1 = None ->
  policy_evaluate (policy_request host t req) = Ok d ->
  ic_require_content cfg = true -> unclassified d -> passes (pd_action d) ->
  ic_job_queue cfg = Some queue ->
  exists effects w', handle_connection policy_evaluate cfg raw w = (Ok tt, effects, w') /\
    last effects = Some (Respond (icap_response ContentPending)) /\
    (exists job, PublishClassification (jq_stream queue) job ∈ effects /\ cj_requires_content job = true /\
       cj_normalized_key job = classification_key cfg req t /\ is_Some (cj_base_url job)) /\
    (forall q, ic_page_fetch_queue cfg = Some q -> exists job ttl, PublishPageFetch (pf_stream q) job ∈ effects /\
       pfj_candidate_urls job <> [] /\ pfj_ttl_seconds job = Some ttl /\ (60 <= ttl)%Z) /\
    (forall w2, cw_memory w2 = cw_memory w' -> (cw_now w2 <= cw_now w + 30000)%Z ->
       (get (ic_has_redis cfg) (nt_normalized_key t) w2).1 = Some (set_content_pending d)).
Proof.
  intros Hp Ho Ht Hc He Hrc Hu Hpass Hq. unfold handle_connection. rewrite Hp, Ho, Ht.
  pose proof (resolve_cached_now (ic_has_redis cfg) t w) as Hnow.
  destruct (resolve_cached_decision _ t w) as [[?|] w1]; [done|]. cbn in Hnow. rewrite He.
  cbn [enforce_decision].
  assert (should_require_content_pending (ic_require_content cfg) (pd_action d) (pd_verdict d) = true) as ->.
  { rewrite Hrc. by apply should_require_spec with (d := d). }
  cbn [orb]. eexists _, _. split; [reflexivity|]. split_and!.
  - rewrite app_comm_cons. apply last_snoc.
  - unfold follow_up. rewrite Hq. cbn [orb]. eexists. split.
    { apply elem_of_cons. right. apply elem_of_app. left. apply elem_of_app. right.
      apply list_elem_of_singleton. reflexivity. }
    split_and!; [done..|]. cbn. by repeat case_match.
  - intros q Hpf. unfold follow_up. rewrite Hpf. eexists _, _. split.
    { apply elem_of_cons. right. apply elem_of_app. left. apply elem_of_app. left.
      apply elem_of_app. right. apply list_elem_of_singleton. reflexivity. }
    split_and!; [by apply build_fetch_candidates_ne|reflexivity|unfold page_fetch_default_ttl; lia].
  - intros w2 Hm2 Hn2. unfold get, memory_get.
    assert (cw_memory w2 !! nt_normalized_key t =
      Some {| ce_decision := set_content_pending d;
              ce_expires_at := cw_now w1 + 1000 * Z.max (ic_pending_cache_ttl_seconds cfg) 30 |}) as ->.
    { rewrite Hm2. apply set_memory_lookup. }
    cbn. rewrite decide_True by lia. done.
Qed.

Definition is_policy_call (e : Effect) : bool := match e with PolicyCall _ => true | _ => false end.

Lemma resolve_cached_hit has_redis t w entry :
  cw_memory w !! nt_normalized_key t = Some entry -> (cw_now w <= ce_expires_at entry)%Z ->
  resolve_cached_decision has_redis t w = (Some (ce_decision entry), w).
Proof.
  intros Hm Hn. unfold resolve_cached_decision, get, memory_get. rewrite Hm. cbn.
  by rewrite decide_True.
Qed.

(** A decision is reused for everybody.  Within 30 seconds of a decision of the policy engine,
    every further request for the same target gets the same response without another question to
    the policy engine, whatever user, groups or tenant the two requests name: the cache is keyed
    by the target alone. *)
Theorem decision_shared_by_target cfg raw1 raw2 w req1 req2 host1 host2 t d effects w' w2 :
  parse raw1 = Ok req1 -> eq_ignore_ascii_case (iq_method req1) "OPTIONS" = false ->
  parse raw2 = Ok req2 -> eq_ignore_ascii_case (iq_method req2) "OPTIONS" = false ->
  connection_target req1 = Ok (host1, t) -> connection_target req2 = Ok (host2, t) ->
  (resolve_cached_decision (ic_has_redis cfg) t w).1 = None ->
  policy_evaluate (policy_request host1 t req1) = Ok d ->
  handle_connection policy_evaluate cfg raw1 w = (Ok tt, effects, w') ->
  cw_memory w2 = cw_memory w' -> (cw_now w2 <= cw_now w + 30000)%Z ->
  exists effects2, handle_connection policy_evaluate cfg raw2 w2 = (Ok tt, effects2, w2) /\
    last effects2 = last effects /\ Forall (fun e => is_policy_call e = false) effects2.
Proof.
  intros Hp1 Ho1 Hp2 Ho2 Ht1 Ht2 Hc He H Hm Hn. unfold handle_connection in H. rewrite Hp1, Ho1, Ht1 in H.
  pose proof (resolve_cached_now (ic_has_redis cfg) t w) as Hnow.
  destruct (resolve_cached_decision _ t w) as [[?|] w1]; [done|]. cbn in Hnow. rewrite He in H.
  cbn [enforce_decision] in H. injection H as <- <-. rewrite app_comm_cons, last_snoc.
  unfold handle_connection. rewrite Hp2, Ho2, Ht2.
  match type of Hm with _ = cw_memory (set ?r ?k ?rd ?ttl ?w0) =>
    pose proof (set_memory_lookup r k rd ttl w0) as Hl end.
  rewrite <- Hm in Hl. rewrite (resolve_cached_hit _ _ _ _ Hl) by (cbn; case_match; lia).
  cbn [ce_decision]. eexists. split; [reflexivity|]. split; [apply last_snoc|].
  apply Forall_app. split; [destruct (_ && ic_has_admin cfg); by repeat constructor|by repeat constructor].
Qed.

End AdaptorProps.

(** ** Witnesses *)
Module AdaptorDemo.
Import Demo CacheDemo.

Definition job_queue : JobQueueConfig :=
  {| jq_redis_url := "redis://redis:6379"; jq_stream := "classification-jobs" |}.
Definition cfg : IcapConfig :=
  {| ic_host := "0.0.0.0"; ic_port := 1344; ic_preview_size := 4096; ic_redis_url := Some "redis://redis:6379";
     ic_policy_endpoint := Some "http://policy-engine:19010"; ic_metrics_host := "0.0.0.0";
     ic_metrics_port := 19005; ic_cache_channel := "od:cache:invalidate"; ic_require_content := true;
     ic_pending_cache_ttl_seconds := 60; ic_job_queue := Some job_queue;
     ic_page_fetch_queue := Some {| pf_redis_url := "redis://redis:6379"; pf_stream := "page-fetch-jobs";
                                    pf_ttl_seconds := 21600 |};
     ic_admin_api := Some {| aa_base_url := "http://admin-api:19000"; aa_admin_token := None |};
     ic_tenant_domain_exceptions := [] |}.

Definition message (user : string) : string :=
  reqmod_message "icap://icap/req" [("X-User", user)]
    {| hm_method := "GET"; hm_target := OriginForm "/";
       hm_fields := [HostField "Host" {| au_host := HostName "www.example.com"; au_port := None |}] |} "".
Definition parsed (user : string) : IcapRequest :=
  {| iq_method := "REQMOD"; iq_service := "icap://icap/req"; iq_headers := {["x-user" := user]};
     iq_http_method := Some "GET"; iq_http_path := Some "/"; iq_http_scheme := None;
     iq_http_host := Some "www.example.com"; iq_trace_id := None |}.
Definition target : NormalizedTarget :=
  {| nt_entity_level := Subdomain; nt_normalized_key := "subdomain:www.example.com";
     nt_hostname := "www.example.com"; nt_registered_domain := "example.com";
     nt_full_url := "http://www.example.com/" |}.

(** A policy engine that allows everything to alice and blocks everyone else. *)
Definition only_alice (r : PolicyDecisionRequest) : result string PolicyDecision :=
  Ok {| pd_action := if decide (pdr_user_id r = Some "alice") then Allow else Block; pd_cache_hit := false;
        pd_verdict := Some {| cv_primary_category := "news"; cv_subcategory := "x"; cv_risk_level := "low";
                              cv_confidence := f32_half; cv_recommended_action := Allow |};
        pd_decision_source := Some "policy_rule" |}.

Lemma no_unclassified_pass_witness :
  exists r effects w', handle_connection only_alice cfg (message "alice") world = (r, effects, w') /\
  exists req host t, parse (message "alice") = Ok req /\ connection_target req = Ok (host, t) /\
    ((exists d, (resolve_cached_decision (ic_has_redis cfg) t world).1 = Some d /\ passes (pd_action d)) \/
     (exists d, only_alice (policy_request host t req) = Ok d /\ passes (pd_action d) /\ ~ unclassified d)).
Proof.
  destruct (handle_connection only_alice cfg (message "alice") world) as [[r effects] w'] eqn:E.
  exists r, effects, w'. split; [reflexivity|].
  apply (no_unclassified_pass only_alice cfg (message "alice") world r effects w' E); [reflexivity|].
  vm_compute in E. injection E as _ <- _. right; right. left.
Defined.

Lemma decision_shared_by_target_witness :
  let '(_, effects, w') := handle_connection only_alice cfg (message "alice") world in
  exists effects2,
    handle_connection only_alice cfg (message "mallory") w' = (Ok tt, effects2, w') /\
    last effects2 = Some (Respond NO_CONTENT_RESPONSE) /\
    Forall (fun e => is_policy_call e = false) effects2.
Proof.
  destruct (handle_connection only_alice cfg (message "alice") world) as [[r effects] w'] eqn:E.
  assert (last effects = Some (Respond NO_CONTENT_RESPONSE) /\ r = Ok tt /\ cw_now w' = 0%Z) as (Hl & -> & Hn)
    by (vm_compute in E; injection E as <- <- <-; repeat split).
  rewrite <- Hl.
  eapply (decision_shared_by_target only_alice cfg (message "alice") (message "mallory") world
           (parsed "alice") (parsed "mallory") "www.example.com" "www.example.com" target);
    [vm_compute; reflexivity..|exact E|reflexivity|rewrite Hn; cbn; lia].
Defined.

(** A policy engine that knows nothing about the site. *)
Definition knows_nothing (_ : PolicyDecisionRequest) : result string PolicyDecision := Ok (decision Allow).

Lemma pending_is_followed_up_witness :
  exists effects w', handle_connection knows_nothing cfg (message "alice") world = (Ok tt, effects, w') /\
    last effects = Some (Respond (icap_response ContentPending)) /\
    (exists job, PublishClassification "classification-jobs" job ∈ effects /\ cj_requires_content job = true /\
       cj_normalized_key job = "domain:example.com").
Proof.
  destruct (pending_is_followed_up knows_nothing cfg (message "alice") world (parsed "alice")
              "www.example.com" target (decision Allow) job_queue)
    as (effects & w' & Hh & Hl & (job & Hj & Hr & Hk & _) & _);
    [vm_compute; reflexivity..|exact I|by left|vm_compute; reflexivity|].
  exists effects, w'. split; [exact Hh|]. split; [exact Hl|]. exists job. split; [exact Hj|].
  split; [exact Hr|]. rewrite Hk. vm_compute. reflexivity.
Defined.

End AdaptorDemo.
