(* ===== verification/EndToEnd.v ===== *)
(** * The services together

    The ICAP adaptor asks the policy engine over HTTP ([services/icap-adaptor/src/policy_client.rs]
    against [handle_decision] of [services/policy-engine/src/main.rs]), and both act on the
    overrides the admin API stores.  [as_engine_request] is the JSON body seen from the other
    side: the same field names, an empty list of groups left out. *)

From S2P Require Import Prelude RustStr Types Http Normalizer Db Activation PolicyStore Evaluator PolicyEngine.
From S2P Require Import ServiceConfig IcapParse IcapResponse Cache AdminOverrides IcapAdaptor.

Definition entity_level_json (l : EntityLevel) : string :=
  match l with Domain => "Domain" | Subdomain => "Subdomain" | Url => "Url" | Page => "Page" end.

Definition as_engine_request (r : PolicyDecisionRequest) : DecisionRequest :=
  {| dr_normalized_key := pdr_normalized_key r; dr_entity_level := entity_level_json (pdr_entity_level r);
     dr_source_ip := pdr_source_ip r; dr_user_id := pdr_user_id r;
     dr_group_ids := match pdr_group_ids r with [] => None | gs => Some gs end;
     dr_category_hint := None; dr_subcategory_hint := None; dr_risk_hint := None;
     dr_confidence_hint := None |}.

(** A row of the admin API as the policy engine's query sees it. *)
Definition engine_row (r : AdminOverrides.OverrideRecord) : OverrideRow :=
  {| o_scope_type := ov_scope_type r; o_scope_value := ov_scope_value r; o_action := ov_action r;
     o_status := ov_status r; o_expires_at := ov_expires_at r; o_updated_at := ov_updated_at r;
     o_created_at := ov_created_at r |}.

Section EndToEnd.
  Context {T : Type} `{R : CategoryResolver T} `{J : SerdeJson}.
  Context `{U : Unicode} `{X : Externals} `{Jc : CacheJson}.

(** [PolicyClient::evaluate]: a status other than 2xx is an error. *)
Definition engine_answer (w : @World T J) (r : PolicyDecisionRequest) : result string PolicyDecision :=
  map_err he_code (handle_decision (as_engine_request r) w).1.

(** ** Overrides reach the client *)

Lemma canonical_scope_not_blank s : canonical_scope s -> non_empty_string s <> None.
Proof.
  intros Hs. unfold non_empty_string. rewrite trim_graphic by by apply canonical_scope_graphic.
  apply canonical_scope_not_comment in Hs. by destruct s.
Qed.

Lemma override_rows_not_blank rows next (db : Db) :
  table_ok rows next -> db_overrides db = engine_row <$> rows ->
  Forall (fun row => ~ blank_scope row) (override_rows db).
Proof.
  intros Hok Hdb. apply Forall_forall. intros row. unfold override_rows, order_desc.
  rewrite !sort_by_key_perm, list_elem_of_filter, Hdb. intros [_ (r & -> & Hr)%list_elem_of_fmap].
  apply canonical_scope_not_blank. by destruct (ok_valid _ _ Hok r Hr) as (_ & ? & _).
Qed.

Lemma override_decision_verdict host rows d :
  decide_overrides host rows = Some d ->
  exists v, pd_verdict d = Some v /\ cv_primary_category v = "override-manual".
Proof.
  unfold decide_overrides. destruct (override_loop host None rows) as [[c|]|]; cbn; try done.
  unfold override_decision. repeat (case_decide; cbn); try done; intros [= <-]; by eexists.
Qed.

(** The engine's answer when an override applies. *)
Lemma engine_answer_override (w : @World T J) r host d :
  st_classification_pool w.1 = true -> db_faults w.2 = [] ->
  key_host (pdr_normalized_key r) = Some host ->
  decide_overrides host (override_rows (tick w.2)) = Some d ->
  engine_answer w r = Ok d.
Proof.
  intros Hpool Hf Hk Hd. unfold engine_answer, handle_decision, resolve_override_decision.
  rewrite Hpool. cbn [as_engine_request dr_normalized_key]. rewrite Hk.
  assert (is_empty (pdr_normalized_key r) = false) as -> by (by destruct (pdr_normalized_key r)).
  unfold query, select, stmt. rewrite Hf. cbn [result_ok mbind option_bind]. by rewrite Hd.
Qed.

(** The adaptor enforces a decided answer as it is. *)
Lemma handle_connection_decided pe cfg raw w req host t d v :
  parse raw = Ok req -> eq_ignore_ascii_case (iq_method req) "OPTIONS" = false ->
  connection_target req = Ok (host, t) ->
  (resolve_cached_decision (ic_has_redis cfg) t w).1 = None ->
  pe (policy_request host t req) = Ok d ->
  pd_verdict d = Some v -> cv_primary_category v = "override-manual" -> pd_action d <> ContentPending ->
  exists effects w', handle_connection pe cfg raw w = (Ok tt, effects, w') /\
    last effects = Some (Respond (icap_response (pd_action d))).
Proof.
  intros Hp Ho Ht Hc He Hv Hcat Ha. unfold handle_connection. rewrite Hp, Ho, Ht.
  destruct (resolve_cached_decision _ t w) as [[?|] w1]; [done|]. rewrite He. cbn [enforce_decision].
  assert (should_require_content_pending (ic_require_content cfg) (pd_action d) (pd_verdict d) = false) as ->.
  { unfold should_require_content_pending. rewrite Hv, Hcat, bool_decide_eq_false_2 by done. cbn.
    by rewrite andb_false_r. }
  rewrite bool_decide_eq_false_2 by done. cbn [orb]. eexists _, _. split; [reflexivity|].
  rewrite app_comm_cons. apply last_snoc.
Qed.


End EndToEnd.

(** ** Which cached decisions an override reaches *)

(** The host scope of an override, without the wildcard. *)
Definition scope_base (s : string) : string := default s (strip_prefix "*." s).

Lemma normalize_scope_host_canonical s :
  canonical_scope s -> ends_with "." (scope_base s) = false ->
  normalize_scope_host s = Some (scope_base s).
Proof.
  intros Hs Hdot. pose proof (canonical_scope_graphic s Hs) as Hg. destruct Hs as (v & Hsv & Hv & Hd & _ & Hlow).
  unfold normalize_scope_host. rewrite trim_graphic by done. rewrite Hlow. fold (scope_base s).
  rewrite trim_end_matches_id.
  2: { intros l H. rewrite H, ends_with_app in Hdot. done. }
  destruct (scope_base s) as [|c b] eqn:E; [|done].
  exfalso. unfold scope_base in E. destruct Hsv as [->| ->].
  - destruct (strip_prefix "*." v) as [r|] eqn:Es; cbn in E; subst; [|done].
    apply strip_prefix_Some in Es as ->. by vm_compute in Hv.
  - rewrite strip_prefix_app in E. cbn in E. by subst.
Qed.

(** What a change of an override invalidates.  A valid scope (not ending in a dot) applies to
    the host of a cached key exactly when the invalidation of the scope removes the key, except
    for keys of registered domains strictly below the scope, which stay cached; no key outside
    the scope is removed. *)
Theorem invalidation_reach s prefix h :
  canonical_scope s -> ends_with "." (scope_base s) = false ->
  prefix = "domain:" \/ prefix = "subdomain:" ->
  (domain_scope_matches_host s h = true <->
   in_scope (scope_base s) (prefix +:+ h) \/
   (prefix = "domain:" /\ exists m, h = m +:+ "." +:+ scope_base s)).
Proof.
  intros Hs Hdot Hp. unfold domain_scope_matches_host.
  rewrite normalize_scope_host_canonical by done. set (b := scope_base s).
  assert ((if decide (h = b) then true else ends_with ("." +:+ b) h) = true <->
          h = b \/ exists m, h = m +:+ "." +:+ b) as ->.
  { case_decide as Hh; [naive_solver|]. rewrite ends_with_spec. naive_solver. }
  unfold in_scope. destruct Hp as [->| ->].
  - split.
    + intros [->|[m ->]]; [by left; left|by right; eauto].
    + intros [[H|[H|[m H]]]|[_ H]]; [apply str_app_inj_l in H; by left|done|done|by right].
  - split.
    + intros [->|[m ->]]; left; [by right; left|right; right; eauto].
    + intros [[H|[H|[m H]]]|[? _]]; [done|apply str_app_inj_l in H; by left| |done].
      apply str_app_inj_l in H. eauto.
Qed.

(** ** Witnesses and examples *)
Module EndToEndDemo.
Import Demo CacheDemo AdaptorDemo OverridesDemo.

Definition blocked_rows : list AdminOverrides.OverrideRecord :=
  os_rows (create_override editor (request "*.example.com" "block") OverridesDemo.empty).2.

Definition engine_db : @Db DbDemo.json :=
  {| db_policies := []; db_policy_rules := []; db_policy_versions := []; db_audit := [];
     db_profiles := []; db_entries := []; db_classifications := [];
     db_overrides := engine_row <$> blocked_rows;
     db_clock := 10; db_next_uuid := 1; db_faults := [] |}.
Definition engine : @World unit DbDemo.json := (demo_world.1, engine_db).


Lemma invalidation_reach_witness :
  domain_scope_matches_host "*.example.com" "www.example.com" = true.
Proof.
  apply (invalidation_reach "*.example.com" "subdomain:" "www.example.com").
  - exists "example.com". split_and!; [by right|done|done|cbn; lia|done].
  - vm_compute. reflexivity.
  - by right.
  - left. right; right. by exists "www".
Defined.

(** An override of a public suffix applies to the domains registered below it, but their cached
    decisions stay. *)
Example registered_domain_stays_cached :
  domain_scope_matches_host "github.io" "someone.github.io" = true /\
  key_matches_domain_scope "domain:someone.github.io" "github.io" false = false.
Proof. split; vm_compute; reflexivity. Qed.

(** A scope with a trailing dot is accepted and applies, but invalidates nothing. *)
Example trailing_dot_scope :
  normalize_domain_scope "example.com." = Ok "example.com." /\
  domain_scope_matches_host "example.com." "example.com" = true /\
  key_matches_domain_scope "domain:example.com" "example.com." false = false.
Proof. repeat split; vm_compute; reflexivity. Qed.

(** A new override for a subdomain is shadowed by the cached decision of its registered domain:
    the invalidation of the subdomain leaves it, and the adaptor falls back on it. *)
Example subdomain_override_shadowed :
  let cached := set true "domain:example.com" (decision Allow) 300000 world in
  let memory := invalidate_scope "domain" "www.example.com" (cw_memory cached) in
  let '(_, effects, _) :=
    handle_connection (fun _ => Ok (decision Block)) cfg (message "alice") (set_memory memory cached) in
  last effects = Some (Respond NO_CONTENT_RESPONSE).
Proof. vm_compute. reflexivity. Qed.

End EndToEndDemo.
