(* ===== verification/Reporting.v ===== *)
(** * Reports

    [services/admin-api/src/reporting.rs] and [reporting_es.rs]: traffic reports and the dashboard from
    aggregations of Elasticsearch, the categories of the busiest domains from the stored
    classifications, and the operational figures from Prometheus.

    Elasticsearch and Prometheus are parameters: the answer to a request.  The fields of the requests are
    in the order of the code. *)

From stdpp Require Import sorting.
From Stdlib Require Import SpecFloat.
From S2P Require Import Prelude RustStr RustNum Numeric Types Http Json ConfigCore Normalizer Db Io Wp AdminClassifications.

Local Open Scope Z_scope.

(** ** Numbers *)

(** [as i64] of an [f64]: towards zero, within the type, 0 for what is not a number; after [round],
    halves away from zero. *)
Definition saturate_i64 (z : Z) : Z := Z.max (- 2 ^ 63) (Z.min i64_max z).
Definition f64_to_i64 (rounded : bool) (x : float) : Z :=
  match x with
  | S754_finite s m e =>
      let magnitude := if decide (0 <= e) then Zpos m * 2 ^ e
                       else (Zpos m + (if rounded then 2 ^ (- e - 1) else 0)) / 2 ^ (- e) in
      saturate_i64 (if s then - magnitude else magnitude)
  | S754_infinity s => if s then - 2 ^ 63 else i64_max
  | _ => 0
  end.
Definition as_f64 (v : Json) : option float :=
  match v with JFloat f => Some f | JInt z => Some (f64_of_Z z) | _ => None end.
Definition as_array (v : Json) : option (list Json) := match v with JArr vs => Some vs | _ => None end.

(** A panic: the request ends without an answer. *)
Inductive Returned (A : Type) := Returns (a : A) | Panics.
Arguments Returns {A} a.
Arguments Panics {A}.

(** The last character of a text, and the text without its last byte: [s[..s.len() - 1]] panics when
    that cuts a character. *)
Fixpoint last_char (s : string) : option ascii :=
  match s with
  | "" => None
  | String c "" => Some c
  | String _ s' => last_char s'
  end.
Definition without_last_byte (s : string) : Returned string :=
  match last_char s with
  | Some c => if is_ascii_char c then Returns (String.substring 0 (str_len s - 1) s) else Panics
  | None => Panics
  end.

(** ** The reporting client *)

Record ReportingConfig := {
  rg_elastic_url : option string; rg_index_pattern : string; rg_api_key : option string; rg_username : option string;
  rg_password : option string; rg_default_range : string; rg_timezone : string
}.
Definition default_reporting_config : ReportingConfig :=
  {| rg_elastic_url := None; rg_index_pattern := "traffic-events-*"; rg_api_key := None; rg_username := None; rg_password := None;
     rg_default_range := "24h"; rg_timezone := "Asia/Dubai" |}.
(** A variable that is set, if it is not blank, instead of the value. *)
Definition unless_blank (value : option string) (old : string) : string :=
  match value with Some v => if is_empty (trim v) then old else trim v | None => old end.
Definition merge_env (env : Env) (c : ReportingConfig) : ReportingConfig :=
  let or_old key old := match env !! key with Some v => Some v | None => old end in
  {| rg_elastic_url := or_old "OD_REPORTING_ELASTIC_URL" (rg_elastic_url c);
     rg_index_pattern := default (rg_index_pattern c) (env !! "OD_REPORTING_INDEX_PATTERN");
     rg_api_key := or_old "OD_REPORTING_ELASTIC_API_KEY" (rg_api_key c);
     rg_username := or_old "OD_REPORTING_ELASTIC_USERNAME" (rg_username c);
     rg_password := or_old "OD_REPORTING_ELASTIC_PASSWORD" (rg_password c);
     rg_default_range := unless_blank (env !! "OD_REPORTING_DEFAULT_RANGE") (rg_default_range c);
     rg_timezone := match env !! "OD_REPORTING_TIMEZONE" with
                    | Some timezone => unless_blank (Some timezone) (rg_timezone c)
                    | None => unless_blank (env !! "OD_TIMEZONE") (rg_timezone c)
                    end |}.

Inductive ElasticAuth := AuthNone | AuthApiKey (key : string) | AuthBasic (username password : string).
Record ElasticReportingClient := {
  erc_base_url : string; erc_index_pattern : string; erc_auth : ElasticAuth; erc_default_range : string; erc_timezone : string
}.
Definition from_config (cfg : ReportingConfig) : option ElasticReportingClient :=
  url ← rg_elastic_url cfg;
  if is_empty (trim url) then None
  else
    let auth :=
      match (key ← rg_api_key cfg; if is_empty key then None else Some key), rg_username cfg, rg_password cfg with
      | Some key, _, _ => AuthApiKey key
      | None, Some user, Some pass => AuthBasic user pass
      | None, _, _ => AuthNone
      end in
    Some {| erc_base_url := trim_end_matches "/" url; erc_index_pattern := rg_index_pattern cfg; erc_auth := auth;
            erc_default_range := rg_default_range cfg; erc_timezone := rg_timezone cfg |}.

(** ** Ranges *)

Definition parse_range_hours (input : string) : Returned (option float) :=
  let trimmed := trim input in
  if is_empty trimmed then Returns None
  else
    match last_char trimmed, without_last_byte trimmed with
    | _, Panics => Panics
    | None, _ => Returns None
    | Some unit, Returns value =>
        Returns (number ← parse_f64 value;
                 if decide (unit = "h"%char \/ unit = "H"%char) then Some number
                 else if decide (unit = "d"%char \/ unit = "D"%char) then Some (SFmul 53 1024 number (f64_of_Z 24))
                 else if decide (unit = "m"%char \/ unit = "M"%char) then Some (SFdiv 53 1024 number (f64_of_Z 60))
                 else None)
    end.
Definition select_interval (range : string) : Returned string :=
  match parse_range_hours range with
  | Panics => Panics
  | Returns parsed =>
      let hours := default (f64_of_Z 24) parsed in
      Returns (if f_le hours (f64_of_Z 6) then "5m"
               else if f_le hours (f64_of_Z 24) then "1h"
               else if f_le hours (f64_of_Z (24 * 7)) then "3h"
               else if f_le hours (f64_of_Z (24 * 30)) then "12h"
               else "1d")
  end.

(** ** Aggregations *)

Record TopEntry := { te_key : string; te_doc_count : Z }.
Record TimeBucket := { tb_key_as_string : string; tb_doc_count : Z }.
Record ActionSeries := { as_action : string; as_buckets : list TimeBucket }.
Record TopBandwidthEntry := { tw_key : string; tw_doc_count : Z; tw_bandwidth_bytes : Z }.
Record HourlyUsageBucket := { hu_timestamp : string; hu_total_requests : Z; hu_blocked_requests : Z; hu_bandwidth_bytes : Z }.

Definition int_at (path : list string) (v : Json) : Z := default 0 (pointer path v ≫= json_i64).
Definition metric_at (path : list string) (v : Json) : Z := default 0 (f64_to_i64 true <$> (pointer path v ≫= as_f64)).
Definition text_at (fallback : string) (path : list string) (v : Json) : string := default fallback (pointer path v ≫= as_str).
(** The buckets of an aggregation, none where there is none. *)
Definition buckets_at {A} (read : Json -> A) (path : list string) (aggregations : Json) : list A :=
  match pointer (path ++ ["buckets"]) aggregations ≫= as_array with Some buckets => read <$> buckets | None => [] end.

Definition agg_doc_count (aggregations : Json) (key : string) : Z := int_at [key; "doc_count"] aggregations.
Definition agg_metric_value (aggregations : Json) (key : string) : Z := metric_at [key; "value"] aggregations.
Definition parse_hourly_usage (aggregations : Json) : list HourlyUsageBucket :=
  buckets_at (fun bucket =>
    {| hu_timestamp := text_at "" ["key_as_string"] bucket; hu_total_requests := int_at ["doc_count"] bucket;
       hu_blocked_requests := int_at ["blocked"; "doc_count"] bucket; hu_bandwidth_bytes := metric_at ["bandwidth"; "value"] bucket |})
    ["hourly_usage"] aggregations.
Definition parse_trend (aggregations : Json) : list ActionSeries :=
  buckets_at (fun bucket =>
    {| as_action := text_at "unknown" ["key"] bucket;
       as_buckets := buckets_at (fun entry => {| tb_key_as_string := text_at "" ["key_as_string"] entry; tb_doc_count := int_at ["doc_count"] entry |})
                       ["per_interval"] bucket |})
    ["actions"] aggregations.
Definition parse_top_entries (aggregations : Json) (path : list string) : list TopEntry :=
  buckets_at (fun bucket => {| te_key := text_at "-unknown-" ["key"] bucket; te_doc_count := int_at ["doc_count"] bucket |}) path aggregations.
Definition parse_bandwidth_entries (aggregations : Json) (path : list string) : list TopBandwidthEntry :=
  buckets_at (fun bucket =>
    {| tw_key := text_at "-unknown-" ["key"] bucket; tw_doc_count := int_at ["doc_count"] bucket;
       tw_bandwidth_bytes := metric_at ["bandwidth"; "value"] bucket |}) path aggregations.

(** ** Requests *)

Definition EFFECTIVE_DOMAIN_SCRIPT : string :=
  "String host = null; if (doc.containsKey('destination.domain.keyword') && !doc['destination.domain.keyword'].empty) { host = doc['destination.domain.keyword'].value; } else if (doc.containsKey('destination.domain') && !doc['destination.domain'].empty) { host = doc['destination.domain'].value; } if (host == null || host.length() == 0) { String u = null; if (doc.containsKey('url.full.keyword') && !doc['url.full.keyword'].empty) { u = doc['url.full.keyword'].value; } else if (doc.containsKey('url.full') && !doc['url.full'].empty) { u = doc['url.full'].value; } if (u != null && u.length() > 0) { int start = u.indexOf('://'); int from = start >= 0 ? start + 3 : 0; int end = u.indexOf('/', from); host = end > from ? u.substring(from, end) : u.substring(from); int colon = host.indexOf(':'); if (colon > 0) { host = host.substring(0, colon); } } } if (host != null && host.length() > 0) { emit(host); }".
Definition EFFECTIVE_ACTION_SCRIPT : string :=
  "if (doc.containsKey('recommended_action.keyword') && !doc['recommended_action.keyword'].empty) { emit(doc['recommended_action.keyword'].value); } else if (doc.containsKey('recommended_action_inferred.keyword') && !doc['recommended_action_inferred.keyword'].empty) { emit(doc['recommended_action_inferred.keyword'].value); } else if (doc.containsKey('http.response.status_code') && !doc['http.response.status_code'].empty && doc['http.response.status_code'].value >= 400) { emit('block'); } else { emit('allow'); }".
Definition EFFECTIVE_CATEGORY_SCRIPT : string :=
  "if (doc.containsKey('category.keyword') && !doc['category.keyword'].empty) { emit(doc['category.keyword'].value); } else { emit('unknown-unclassified'); }".

Definition keyword_script (source : string) : Json := JObj [("type", JStr "keyword"); ("script", JObj [("source", JStr source)])].
Definition runtime_mappings : Json :=
  JObj [("effective_action", keyword_script EFFECTIVE_ACTION_SCRIPT); ("effective_domain", keyword_script EFFECTIVE_DOMAIN_SCRIPT);
        ("effective_category", keyword_script EFFECTIVE_CATEGORY_SCRIPT)].
Definition range_query (range : string) : Json :=
  JObj [("range", JObj [("@timestamp", JObj [("gte", JStr ("now-" +:+ range)); ("lte", JStr "now")])])].
Definition bounds (range : string) : Json := JObj [("min", JStr ("now-" +:+ range)); ("max", JStr "now")].
Definition date_histogram (range bucket_interval timezone : string) : Json :=
  JObj [("field", JStr "@timestamp"); ("fixed_interval", JStr bucket_interval); ("min_doc_count", JInt 0); ("time_zone", JStr timezone);
        ("extended_bounds", bounds range); ("hard_bounds", bounds range)].
Definition terms (field : string) (size : Z) : Json := JObj [("terms", JObj [("field", JStr field); ("size", JInt size)])].
Definition action_filter (action : string) : Json := JObj [("term", JObj [("effective_action", JStr action)])].
Definition field_exists (field : string) : Json := JObj [("exists", JObj [("field", JStr field)])].
Definition either_exists (a b : string) : Json :=
  JObj [("filter", JObj [("bool", JObj [("should", JArr [field_exists a; field_exists b]); ("minimum_should_match", JInt 1)])])].
Definition bandwidth_sum : Json := JObj [("sum", JObj [("field", JStr "network.bytes")])].

Definition traffic_body (range bucket_interval timezone : string) (size : Z) : Json :=
  JObj [("size", JInt 0); ("track_total_hits", JBool true); ("runtime_mappings", runtime_mappings); ("query", range_query range);
        ("aggs", JObj
          [("actions", JObj [("terms", JObj [("field", JStr "effective_action"); ("size", JInt 5)]);
                             ("aggs", JObj [("per_interval", JObj [("date_histogram", date_histogram range bucket_interval timezone)])])]);
           ("top_blocked", JObj [("filter", action_filter "block"); ("aggs", JObj [("urls", terms "effective_domain" size)])]);
           ("top_categories", terms "effective_category" size)])].
Definition dashboard_body (range bucket_interval timezone : string) (size : Z) : Json :=
  JObj [("size", JInt 0); ("track_total_hits", JBool true); ("runtime_mappings", runtime_mappings); ("query", range_query range);
        ("aggs", JObj
          [("blocked_docs", JObj [("filter", action_filter "block")]); ("allow_docs", JObj [("filter", action_filter "allow")]);
           ("unique_clients", JObj [("cardinality", JObj [("field", JStr "client.ip")])]); ("total_bandwidth", bandwidth_sum);
           ("hourly_usage", JObj [("date_histogram", date_histogram range bucket_interval timezone);
                                  ("aggs", JObj [("blocked", JObj [("filter", action_filter "block")]); ("bandwidth", bandwidth_sum)])]);
           ("top_domains", terms "effective_domain" size); ("top_categories", terms "effective_category" size);
           ("top_blocked", JObj [("filter", action_filter "block");
                                 ("aggs", JObj [("domains", terms "effective_domain" size); ("requesters", terms "client.ip" size)])]);
           ("top_clients_by_bandwidth",
             JObj [("terms", JObj [("field", JStr "client.ip"); ("size", JInt size); ("order", JObj [("bandwidth", JStr "desc")])]);
                   ("aggs", JObj [("bandwidth", bandwidth_sum)])]);
           ("has_client_ip", JObj [("filter", field_exists "client.ip")]); ("has_domain", either_exists "destination.domain" "url.full");
           ("has_category", JObj [("filter", field_exists "category")]); ("has_network_bytes", JObj [("filter", field_exists "network.bytes")])])].
Definition coverage_body (range : string) : Json :=
  JObj [("size", JInt 0); ("track_total_hits", JBool true); ("query", range_query range);
        ("aggs", JObj [("has_action", either_exists "recommended_action" "recommended_action_inferred");
                       ("has_category", JObj [("filter", field_exists "category")]);
                       ("has_domain", either_exists "destination.domain" "url.full")])].

(** ** Reports *)

Record TrafficReportResponse := {
  tr_range : string; tr_bucket_interval : string; tr_timezone : string; tr_allow_block_trend : list ActionSeries;
  tr_top_blocked_domains : list TopEntry; tr_top_categories : list TopEntry
}.
Record ReportingCoverageStatus := { rc_range : string; rc_total_docs : Z; rc_action_docs : Z; rc_category_docs : Z; rc_domain_docs : Z }.
Record DashboardOverview := {
  do_total_requests : Z; do_allow_requests : Z; do_blocked_requests : Z; do_block_rate : float; do_unique_clients : Z;
  do_total_bandwidth_bytes : Z
}.
Record FieldCoverage := {
  fc_total_docs : Z; fc_client_ip_docs : Z; fc_domain_docs : Z; fc_category_docs : Z; fc_category_mapped_domain_docs : Z;
  fc_category_mapped_ratio : float; fc_network_bytes_docs : Z
}.
Record DashboardReportResponse := {
  dr_range : string; dr_bucket_interval : string; dr_timezone : string; dr_overview : DashboardOverview;
  dr_hourly_usage : list HourlyUsageBucket; dr_top_domains : list TopEntry; dr_top_categories : list TopEntry;
  dr_top_categories_event : list TopEntry; dr_top_blocked_domains : list TopEntry; dr_top_blocked_requesters : list TopEntry;
  dr_top_clients_by_bandwidth : list TopBandwidthEntry; dr_coverage : FieldCoverage
}.

(** [a as f64 / b as f64], 0 without documents. *)
Definition ratio (a b : Z) : float := if decide (0 < b) then SFdiv 53 1024 (f64_of_Z a) (f64_of_Z b) else S754_zero false.

Section Client.
  Context (client : ElasticReportingClient).
  (** A search: [send], [error_for_status] and [json]. *)
  Context (search : string -> ElasticAuth -> Json -> result string Json).

Definition chosen_range (range : option string) : string :=
  match range with Some r => if is_empty r then erc_default_range client else r | None => erc_default_range client end.
Definition chosen_interval (range : string) (bucket : option string) : Returned string :=
  match bucket with Some b => if is_empty b then select_interval range else Returns b | None => select_interval range end.
Definition ask (body : Json) : result string Json :=
  search (erc_base_url client +:+ "/" +:+ erc_index_pattern client +:+ "/_search") (erc_auth client) body.
Definition top_size (top_n : Z) : Z := Z.max 1 (Z.min 50 top_n).

Definition traffic_report (range : option string) (top_n : Z) (bucket : option string) : Returned (result string TrafficReportResponse) :=
  let range := chosen_range range in
  match chosen_interval range bucket with
  | Panics => Panics
  | Returns bucket_interval =>
      Returns (
        payload ← ask (traffic_body range bucket_interval (erc_timezone client) (top_size top_n));
        aggregations ← ok_or (value_get "aggregations" payload) "missing aggregations";
        Ok {| tr_range := range; tr_bucket_interval := bucket_interval; tr_timezone := erc_timezone client;
              tr_allow_block_trend := parse_trend aggregations; tr_top_blocked_domains := parse_top_entries aggregations ["top_blocked"; "urls"];
              tr_top_categories := parse_top_entries aggregations ["top_categories"] |})
  end.

Definition dashboard_report (range : option string) (top_n : Z) (bucket : option string) : Returned (result string DashboardReportResponse) :=
  let range := chosen_range range in
  match chosen_interval range bucket with
  | Panics => Panics
  | Returns bucket_interval =>
      Returns (
        payload ← ask (dashboard_body range bucket_interval (erc_timezone client) (top_size top_n));
        aggregations ← ok_or (value_get "aggregations" payload) "missing aggregations";
        let total_requests := int_at ["hits"; "total"; "value"] payload in
        let blocked_requests := agg_doc_count aggregations "blocked_docs" in
        Ok {| dr_range := range; dr_bucket_interval := bucket_interval; dr_timezone := erc_timezone client;
              dr_overview :=
                {| do_total_requests := total_requests; do_allow_requests := agg_doc_count aggregations "allow_docs";
                   do_blocked_requests := blocked_requests; do_block_rate := ratio blocked_requests total_requests;
                   do_unique_clients := agg_metric_value aggregations "unique_clients";
                   do_total_bandwidth_bytes := agg_metric_value aggregations "total_bandwidth" |};
              dr_hourly_usage := parse_hourly_usage aggregations; dr_top_domains := parse_top_entries aggregations ["top_domains"];
              dr_top_categories := parse_top_entries aggregations ["top_categories"]; dr_top_categories_event := [];
              dr_top_blocked_domains := parse_top_entries aggregations ["top_blocked"; "domains"];
              dr_top_blocked_requesters := parse_top_entries aggregations ["top_blocked"; "requesters"];
              dr_top_clients_by_bandwidth := parse_bandwidth_entries aggregations ["top_clients_by_bandwidth"];
              dr_coverage :=
                {| fc_total_docs := total_requests; fc_client_ip_docs := agg_doc_count aggregations "has_client_ip";
                   fc_domain_docs := agg_doc_count aggregations "has_domain"; fc_category_docs := agg_doc_count aggregations "has_category";
                   fc_category_mapped_domain_docs := 0; fc_category_mapped_ratio := S754_zero false;
                   fc_network_bytes_docs := agg_doc_count aggregations "has_network_bytes" |} |})
  end.

Definition coverage_status (range : option string) : result string ReportingCoverageStatus :=
  let range := chosen_range range in
  payload ← ask (coverage_body range);
  Ok {| rc_range := range; rc_total_docs := int_at ["hits"; "total"; "value"] payload;
        rc_action_docs := int_at ["aggregations"; "has_action"; "doc_count"] payload;
        rc_category_docs := int_at ["aggregations"; "has_category"; "doc_count"] payload;
        rc_domain_docs := int_at ["aggregations"; "has_domain"; "doc_count"] payload |}.

End Client.

(** ** Categories of the busiest domains *)

(** [b.doc_count.cmp(&a.doc_count).then_with(|| a.key.cmp(&b.key))]. *)
Definition entry_before (a b : TopEntry) : Prop :=
  te_doc_count b < te_doc_count a \/ (te_doc_count a = te_doc_count b /\ bytes_le (te_key a) (te_key b)).
#[global] Instance entry_before_dec : RelDecision entry_before.
Proof. intros a b. unfold entry_before, bytes_le. apply _. Defined.

Definition UNCLASSIFIED : string := "unknown-unclassified".
Definition domain_key (domain : string) : string := "domain:" +:+ to_ascii_lowercase (trim domain).
(** The counts are [i64]; sums beyond that wrap around. *)
Definition count_domain (canonical_by_domain category_by_key : gmap string string) (acc : gmap string Z * Z) (domain : TopEntry) : gmap string Z * Z :=
  let canonical_key := default (domain_key (te_key domain)) (canonical_by_domain !! te_key domain) in
  let '(category, mapped) :=
    match category_by_key !! canonical_key with
    | Some found => (found, as_i64 (acc.2 + te_doc_count domain))
    | None => (UNCLASSIFIED, acc.2)
    end in
  (<[category := as_i64 (default 0 (acc.1 !! category) + te_doc_count domain)]> acc.1, mapped).
Definition build_mapped_categories (top_domains : list TopEntry) (canonical_by_domain category_by_key : gmap string string) (top_n : Z)
    : list TopEntry * Z :=
  let '(by_category, mapped_domain_docs) := foldl (count_domain canonical_by_domain category_by_key) (∅, 0) top_domains in
  let top_categories := (fun kc => {| te_key := kc.1; te_doc_count := kc.2 |}) <$> map_to_list by_category in
  (take (Z.to_nat (top_size top_n)) (merge_sort entry_before top_categories), mapped_domain_docs).

Section Hydrate.
  Context `{X : Externals} `{U : Unicode}.
  Context (policy : CanonicalizationPolicy).

Definition canonical_of (domain : string) : string := canonicalize_key policy (domain_key domain).
(** The rows with a category among the keys asked for. *)
Definition active_categories (keys : list string) (t : ClassificationTables) : gmap string string :=
  kr_primary_category <$> filter (fun kv => kr_status kv.2 = "active" /\ kv.1 ∈ keys) (kt_rows t).
Definition hydrate_mapped_categories (top_domains : list TopEntry) (top_n : Z) : KM string (list TopEntry * Z) :=
  match top_domains with
  | [] => mret ([], 0)
  | _ =>
      let canonical_by_domain := list_to_map ((fun d => (te_key d, canonical_of (te_key d))) <$> top_domains) : gmap string string in
      let canonical_keys := dedup (merge_sort bytes_le (snd <$> map_to_list canonical_by_domain)) in
      category_by_key ← fetch (fun _ t => active_categories canonical_keys t);
      mret (build_mapped_categories top_domains canonical_by_domain category_by_key top_n)
  end.

(** ** Routes over Elasticsearch *)

Record TrafficReportQuery := { tq_range : option string; tq_top_n : option Z; tq_bucket : option string }.
Definition DEFAULT_TOP_N : Z := 10.
Definition ROLE_REPORTING_VIEW : list string := ["policy-admin"; "policy-viewer"; "auditor"].
Definition asked_top_n (query : TrafficReportQuery) : Z := Z.max 1 (default DEFAULT_TOP_N (tq_top_n query)).

Section Routes.
  Context (reporting_client : option ElasticReportingClient) (search : string -> ElasticAuth -> Json -> result string Json).

Definition with_client {A} (user : UserContext) (run : ElasticReportingClient -> Returned (result StatusCode A)) : Returned (result StatusCode A) :=
  if require_roles user ROLE_REPORTING_VIEW then
    match reporting_client with Some client => run client | None => Returns (Err NOT_IMPLEMENTED) end
  else Returns (Err FORBIDDEN).
Definition bad_gateway {A} (r : result string A) : result StatusCode A := map_err (fun _ => BAD_GATEWAY) r.

Definition traffic_summary (user : UserContext) (query : TrafficReportQuery) : Returned (result StatusCode TrafficReportResponse) :=
  with_client user (fun client =>
    match traffic_report client search (tq_range query) (asked_top_n query) (tq_bucket query) with
    | Panics => Panics
    | Returns report => Returns (bad_gateway report)
    end).
Definition reporting_status (user : UserContext) (query : TrafficReportQuery) : Returned (result StatusCode ReportingCoverageStatus) :=
  with_client user (fun client => Returns (bad_gateway (coverage_status client search (tq_range query)))).

(** The report with the categories of the classifications, or without them when the database fails. *)
Definition with_categories (hydrated : result string (list TopEntry * Z)) (r : DashboardReportResponse) : DashboardReportResponse :=
  let '(categories, event_categories, docs, ratio_) :=
    match hydrated with
    | Ok (mapped_categories, mapped_domain_docs) =>
        (mapped_categories, dr_top_categories r, mapped_domain_docs, ratio mapped_domain_docs (fc_total_docs (dr_coverage r)))
    | Err _ => (dr_top_categories r, [], 0, S754_zero false)
    end in
  {| dr_range := dr_range r; dr_bucket_interval := dr_bucket_interval r; dr_timezone := dr_timezone r; dr_overview := dr_overview r;
     dr_hourly_usage := dr_hourly_usage r; dr_top_domains := dr_top_domains r; dr_top_categories := categories;
     dr_top_categories_event := event_categories; dr_top_blocked_domains := dr_top_blocked_domains r;
     dr_top_blocked_requesters := dr_top_blocked_requesters r; dr_top_clients_by_bandwidth := dr_top_clients_by_bandwidth r;
     dr_coverage := let c := dr_coverage r in
       {| fc_total_docs := fc_total_docs c; fc_client_ip_docs := fc_client_ip_docs c; fc_domain_docs := fc_domain_docs c;
          fc_category_docs := fc_category_docs c; fc_category_mapped_domain_docs := docs; fc_category_mapped_ratio := ratio_;
          fc_network_bytes_docs := fc_network_bytes_docs c |} |}.
Definition dashboard_summary (user : UserContext) (query : TrafficReportQuery) (w : Io ClassificationTables ClassificationEffect)
    : Returned (result StatusCode DashboardReportResponse * Io ClassificationTables ClassificationEffect) :=
  match with_client user (fun client =>
      match dashboard_report client search (tq_range query) (asked_top_n query) (tq_bucket query) with
      | Panics => Panics
      | Returns report => Returns (bad_gateway report)
      end) with
  | Panics => Panics
  | Returns (Err status) => Returns (Err status, w)
  | Returns (Ok report) =>
      let '(hydrated, w') := hydrate_mapped_categories (dr_top_domains report) (asked_top_n query) w in
      Returns (Ok (with_categories hydrated report), w')
  end.

End Routes.
End Hydrate.

(** ** Operational figures from Prometheus *)

Record OpsQueueMetrics := {
  oq_pending_age_p95_seconds : option float; oq_llm_jobs_started_per_sec_10m : option float; oq_llm_jobs_completed_per_sec_10m : option float;
  oq_llm_dlq_growth_10m : option float; oq_page_fetch_dlq_growth_10m : option float
}.
Record OpsAuthMetrics := { oa_login_failures_10m : option float; oa_lockouts_10m : option float; oa_refresh_failures_10m : option float }.
Definition no_queue_metrics : OpsQueueMetrics := Build_OpsQueueMetrics None None None None None.
Definition no_auth_metrics : OpsAuthMetrics := Build_OpsAuthMetrics None None None.
Record OpsProviderMetric := { om_provider : string; om_failures_5m : float; om_timeouts_5m : float; om_latency_p95_seconds : option float }.
Record OpsSummaryResponse := {
  ou_range : string; ou_source : string; ou_queue : OpsQueueMetrics; ou_auth : OpsAuthMetrics; ou_providers : list OpsProviderMetric;
  ou_errors : list string
}.
Record OpsSeriesPoint := { op_ts_ms : Z; op_value : float }.
Record OpsLlmProviderSeries := {
  ol_provider : string; ol_success : list OpsSeriesPoint; ol_failures : list OpsSeriesPoint; ol_timeouts : list OpsSeriesPoint;
  ol_non_retryable_400 : list OpsSeriesPoint
}.
Record OpsLlmSeriesResponse := {
  os_range : string; os_source : string; os_step_seconds : Z; os_providers : list OpsLlmProviderSeries; os_errors : list string
}.
Record PrometheusVectorSample := { pv_metric : gmap string string; pv_value : float * string }.
Record PrometheusRangeSample := { px_metric : gmap string string; px_values : list (float * string) }.

Definition PROM_RANGE_STEP_SECONDS : Z := 15.
Definition LLM_SERIES_SHORT_WINDOW_SECONDS : Z := 60.

(** *** Reading an answer *)

Definition de_f64 (v : Json) : result string float := ok_or (as_f64 v) "invalid type: expected f64".
Definition de_list {A} (f : Json -> result string A) (v : Json) : result string (list A) :=
  match v with JArr vs => try_map f vs | _ => Err "invalid type: expected a sequence" end.
Definition de_point (v : Json) : result string (float * string) :=
  match v with
  | JArr [t; x] => t ← de_f64 t; x ← de_string x; Ok (t, x)
  | _ => Err "invalid length, expected a tuple of size 2"
  end.
(** A map: of a repeated name the last value counts. *)
Definition de_string_map (v : Json) : result string (gmap string string) :=
  match v with
  | JObj fields => foldl (fun m f => m ← m; s ← de_string f.2; Ok (<[f.1 := s]> m)) (Ok ∅) fields
  | _ => Err "invalid type: expected a map"
  end.
Definition de_vector_sample (v : Json) : result string PrometheusVectorSample :=
  fields ← struct_fields ["metric"; "value"] v;
  metric ← required "metric" de_string_map fields;
  value ← required "value" de_point fields;
  Ok {| pv_metric := metric; pv_value := value |}.
Definition de_range_sample (v : Json) : result string PrometheusRangeSample :=
  fields ← struct_fields ["metric"; "values"] v;
  metric ← required "metric" de_string_map fields;
  values ← required "values" (de_list de_point) fields;
  Ok {| px_metric := metric; px_values := values |}.
Definition de_prometheus {A} (sample : Json -> result string A) (v : Json) : result string (string * list A) :=
  fields ← struct_fields ["status"; "data"] v;
  status ← required "status" de_string fields;
  data ← required "data" (fun d => fields ← struct_fields ["result"] d; required "result" (de_list sample) fields) fields;
  Ok (status, data).

(** The answer to a query: the status with its text, and the body read as JSON, or a failure to send. *)
Inductive PromReply := PromFailed (err : string) | PromAnswered (status : Z) (status_text : string) (body : result string Json).
Definition read_prometheus {A} (sample : Json -> result string A) (metric_name : string) (reply : PromReply) (errors : list string)
    : option (list A) * list string :=
  match reply with
  | PromFailed err => (None, errors ++ [metric_name +:+ " query failed: " +:+ err])
  | PromAnswered status status_text body =>
      if negb (bool_decide (200 <= status < 300)) then (None, errors ++ [metric_name +:+ " query returned " +:+ status_text])
      else match (v ← body; de_prometheus sample v) with
           | Ok (body_status, rows) =>
               if decide (body_status <> "success") then (None, errors ++ [metric_name +:+ " query response status was " +:+ body_status])
               else (Some rows, errors)
           | Err err => (None, errors ++ [metric_name +:+ " query decode failed: " +:+ err])
           end
  end.

Definition parse_sample_value (sample : PrometheusVectorSample) : float := default (S754_zero false) (parse_f64 (pv_value sample).2).
Definition parse_matrix_points (values : list (float * string)) : list OpsSeriesPoint :=
  (fun v => {| op_ts_ms := f64_to_i64 false (SFmul 53 1024 v.1 (f64_of_Z 1000)); op_value := default (S754_zero false) (parse_f64 v.2) |}) <$> values.

(** Products beyond an [i64] wrap around. *)
Definition parse_prometheus_range_seconds (range : string) : Returned (option Z) :=
  let trimmed := trim range in
  if decide (str_len trimmed < 2)%nat then Returns None
  else
    match last_char trimmed, without_last_byte trimmed with
    | _, Panics => Panics
    | None, _ => Returns None
    | Some unit, Returns digits =>
        Returns (value ← parse_i64 digits;
                 if decide (value <= 0) then None
                 else if decide (lower_char unit = "m"%char) then Some (as_i64 (value * 60))
                 else if decide (lower_char unit = "h"%char) then Some (as_i64 (value * 60 * 60))
                 else if decide (lower_char unit = "d"%char) then Some (as_i64 (value * 24 * 60 * 60))
                 else None)
    end.
Definition llm_series_lookback_window (range : string) : Returned string :=
  match parse_prometheus_range_seconds range with
  | Panics => Panics
  | Returns (Some seconds) => Returns (if decide (seconds <= LLM_SERIES_SHORT_WINDOW_SECONDS) then "1m" else "5m")
  | Returns None => Returns "5m"
  end.

(** *** Providers *)

Definition blank_metric (name : string) : OpsProviderMetric :=
  {| om_provider := name; om_failures_5m := S754_zero false; om_timeouts_5m := S754_zero false; om_latency_p95_seconds := None |}.
(** A loop over samples; those without a provider are left out. *)
Definition merge_samples {S M} (metric : S -> gmap string string) (blank : string -> M) (put : S -> M -> M) (rows : list S) (by_name : gmap string M)
    : gmap string M :=
  foldl (fun m sample =>
    match metric sample !! "provider" with
    | Some name => <[name := put sample (default (blank name) (m !! name))]> m
    | None => m
    end) by_name rows.
Definition provider_metrics (failure_rows timeout_rows latency_rows : list PrometheusVectorSample) : gmap string OpsProviderMetric :=
  let merge := merge_samples pv_metric blank_metric in
  merge (fun s m => {| om_provider := om_provider m; om_failures_5m := om_failures_5m m; om_timeouts_5m := om_timeouts_5m m;
                       om_latency_p95_seconds := Some (parse_sample_value s) |}) latency_rows
    (merge (fun s m => {| om_provider := om_provider m; om_failures_5m := om_failures_5m m; om_timeouts_5m := parse_sample_value s;
                          om_latency_p95_seconds := om_latency_p95_seconds m |}) timeout_rows
      (merge (fun s m => {| om_provider := om_provider m; om_failures_5m := parse_sample_value s; om_timeouts_5m := om_timeouts_5m m;
                            om_latency_p95_seconds := om_latency_p95_seconds m |}) failure_rows ∅)).
Definition blank_series (name : string) : OpsLlmProviderSeries :=
  {| ol_provider := name; ol_success := []; ol_failures := []; ol_timeouts := []; ol_non_retryable_400 := [] |}.
Definition merge_provider_series (put : list OpsSeriesPoint -> OpsLlmProviderSeries -> OpsLlmProviderSeries) (rows : list PrometheusRangeSample)
    (by_name : gmap string OpsLlmProviderSeries) : gmap string OpsLlmProviderSeries :=
  merge_samples px_metric blank_series (fun s => put (parse_matrix_points (px_values s))) rows by_name.

(** [into_values] sorted by provider. *)
Definition by_provider {M} (name : M -> string) (a b : M) : Prop := bytes_le (name a) (name b).
#[global] Instance by_provider_dec {M} (name : M -> string) : RelDecision (by_provider name).
Proof. intros a b. unfold by_provider, bytes_le. apply _. Defined.
Definition sorted_providers {M} (name : M -> string) (m : gmap string M) : list M := merge_sort (by_provider name) (snd <$> map_to_list m).

(** *** Routes *)

Section Ops.
  (** [GET /api/v1/query] and [/api/v1/query_range] with their parameters. *)
  Context (prometheus : string -> list (string * string) -> PromReply) (prometheus_url : option string).

Definition query_prometheus_vector (base query metric_name : string) (errors : list string) : option (list PrometheusVectorSample) * list string :=
  read_prometheus de_vector_sample metric_name (prometheus (trim_end_matches "/" base +:+ "/api/v1/query") [("query", query)]) errors.
Definition query_prometheus_scalar (base query metric_name : string) (errors : list string) : option float * list string :=
  let '(rows, errors) := query_prometheus_vector base query metric_name errors in
  (match rows with Some rows => parse_sample_value <$> head rows | None => None end, errors).
Definition query_prometheus_matrix (base query metric_name : string) (start_ts end_ts step_seconds : Z) (errors : list string)
    : option (list PrometheusRangeSample) * list string :=
  read_prometheus de_range_sample metric_name
    (prometheus (trim_end_matches "/" base +:+ "/api/v1/query_range")
       [("query", query); ("start", pretty start_ts); ("end", pretty end_ts); ("step", pretty step_seconds +:+ "s")]) errors.

Definition ops_range (query : TrafficReportQuery) : string :=
  match tq_range query with Some value => if is_empty (trim value) then "24h" else value | None => "24h" end.

Definition ops_summary (user : UserContext) (query : TrafficReportQuery) : result StatusCode OpsSummaryResponse :=
  if negb (require_roles user ROLE_REPORTING_VIEW) then Err FORBIDDEN
  else
    let range := ops_range query in
    match prometheus_url with
    | None => Ok {| ou_range := range; ou_source := "unavailable"; ou_queue := no_queue_metrics; ou_auth := no_auth_metrics; ou_providers := [];
                    ou_errors := ["prometheus endpoint is not configured"] |}
    | Some base =>
        let scalar := query_prometheus_scalar base in
        let vector := query_prometheus_vector base in
        let '(pending_age, errors) :=
          scalar "histogram_quantile(0.95, sum(rate(llm_pending_age_seconds_bucket[10m])) by (le))" "pending_age_p95_seconds" [] in
        let '(started, errors) := scalar "rate(llm_jobs_started_total[10m])" "llm_jobs_started_per_sec_10m" errors in
        let '(completed, errors) := scalar "rate(llm_jobs_completed_total[10m])" "llm_jobs_completed_per_sec_10m" errors in
        let '(llm_dlq, errors) := scalar "increase(llm_dlq_published_total[10m])" "llm_dlq_growth_10m" errors in
        let '(page_dlq, errors) := scalar "increase(page_fetch_dlq_published_total[10m])" "page_fetch_dlq_growth_10m" errors in
        let '(login_failures, errors) := scalar "increase(admin_auth_login_failure_total[10m])" "login_failures_10m" errors in
        let '(lockouts, errors) := scalar "increase(admin_auth_lockout_total[10m])" "lockouts_10m" errors in
        let '(refresh_failures, errors) := scalar "increase(admin_auth_refresh_failure_total[10m])" "refresh_failures_10m" errors in
        let '(failure_rows, errors) := vector "sum by (provider) (increase(llm_provider_failures_total[5m]))" "llm_provider_failures_5m" errors in
        let '(timeout_rows, errors) := vector "sum by (provider) (increase(llm_provider_timeouts_total[5m]))" "llm_provider_timeouts_5m" errors in
        let '(latency_rows, errors) :=
          vector "histogram_quantile(0.95, sum(rate(llm_provider_request_duration_seconds_bucket[5m])) by (provider, le))"
            "llm_provider_latency_p95_seconds" errors in
        let providers := sorted_providers om_provider (provider_metrics (default [] failure_rows) (default [] timeout_rows) (default [] latency_rows)) in
        let some_figure := bool_decide (is_Some pending_age \/ is_Some started \/ is_Some completed \/ is_Some login_failures) in
        Ok {| ou_range := range;
              ou_source := match errors, providers with
                           | [], _ => "live"
                           | _, [] => if some_figure then "partial" else "unavailable"
                           | _, _ => "partial"
                           end;
              ou_queue := Build_OpsQueueMetrics pending_age started completed llm_dlq page_dlq;
              ou_auth := Build_OpsAuthMetrics login_failures lockouts refresh_failures; ou_providers := providers; ou_errors := errors |}
    end.

Definition series_query (metric window : string) : string := "sum by (provider) (increase(" +:+ metric +:+ "[" +:+ window +:+ "]))".
Definition NON_RETRYABLE_400 : string :=
  let quoted s := String (byte 34) (s +:+ String (byte 34) "") in
  "llm_provider_failure_class_total{class=" +:+ quoted "non_retryable" +:+ ",status_code=" +:+ quoted "400" +:+ "}".
(** [Utc::now().timestamp()] is given in seconds. *)
Definition ops_llm_series (user : UserContext) (query : TrafficReportQuery) (end_ts : Z) : Returned (result StatusCode OpsLlmSeriesResponse) :=
  if negb (require_roles user ROLE_REPORTING_VIEW) then Returns (Err FORBIDDEN)
  else
    let range := ops_range query in
    match prometheus_url with
    | None => Returns (Ok {| os_range := range; os_source := "unavailable"; os_step_seconds := PROM_RANGE_STEP_SECONDS; os_providers := [];
                             os_errors := ["prometheus endpoint is not configured"] |})
    | Some base =>
        match parse_prometheus_range_seconds range, llm_series_lookback_window range with
        | Panics, _ | _, Panics => Panics
        | Returns parsed, Returns window =>
            let start_ts := as_i64 (end_ts - default (24 * 60 * 60) parsed) in
            let matrix metric name := query_prometheus_matrix base (series_query metric window) name start_ts end_ts PROM_RANGE_STEP_SECONDS in
            let '(success_rows, errors) := matrix "llm_provider_success_total" "llm_provider_success_series" [] in
            let '(failure_rows, errors) := matrix "llm_provider_failures_total" "llm_provider_failure_series" errors in
            let '(timeout_rows, errors) := matrix "llm_provider_timeouts_total" "llm_provider_timeout_series" errors in
            let '(non_retryable_rows, errors) := matrix NON_RETRYABLE_400 "llm_provider_non_retryable_400_series" errors in
            let by_name := merge_provider_series (fun l p => Build_OpsLlmProviderSeries (ol_provider p) l (ol_failures p) (ol_timeouts p) (ol_non_retryable_400 p))
              (default [] success_rows) ∅ in
            let by_name := merge_provider_series (fun l p => Build_OpsLlmProviderSeries (ol_provider p) (ol_success p) l (ol_timeouts p) (ol_non_retryable_400 p))
              (default [] failure_rows) by_name in
            let by_name := merge_provider_series (fun l p => Build_OpsLlmProviderSeries (ol_provider p) (ol_success p) (ol_failures p) l (ol_non_retryable_400 p))
              (default [] timeout_rows) by_name in
            let by_name := merge_provider_series (fun l p => Build_OpsLlmProviderSeries (ol_provider p) (ol_success p) (ol_failures p) (ol_timeouts p) l)
              (default [] non_retryable_rows) by_name in
            let providers := sorted_providers ol_provider by_name in
            Returns (Ok {| os_range := range;
              os_source := match errors, providers with [], _ => "live" | _, [] => "unavailable" | _, _ => "partial" end;
              os_step_seconds := PROM_RANGE_STEP_SECONDS; os_providers := providers; os_errors := errors |})
        end
    end.

End Ops.
