(* ===== verification/ReportingProps.v ===== *)
(** * What the reports say

    The categories of the dashboard are the documents of the busiest domains under the categories that
    the classification tables give them; figures of Prometheus that are missing are reported, and every
    provider is shown once. *)

From stdpp Require Import sorting.
From Stdlib Require Import SpecFloat.
From S2P Require Import Prelude RustStr RustNum Numeric Types Http Json ConfigCore Normalizer Db Io Wp AdminClassifications Reporting.

Local Open Scope Z_scope.

(** ** Orders of bytes *)

#[local] Instance bytes_le_total : Total bytes_le.
Proof. intros a b. unfold bytes_le. destruct (String.leb_total a b) as [H|H]; rewrite H; [by left|by right]. Qed.
Lemma bytes_le_cons x a y b :
  bytes_le (String x a) (String y b) <-> (N_of_ascii x < N_of_ascii y)%N \/ (x = y /\ bytes_le a b).
Proof.
  unfold bytes_le, String.leb. cbn [String.compare]. unfold Ascii.compare. destruct (N.compare_spec (N_of_ascii x) (N_of_ascii y)) as [E|L|G].
  - assert (x = y) as -> by (rewrite <- (ascii_N_embedding x), <- (ascii_N_embedding y); by rewrite E). split; [intros H; by right|intros [?|[_ H]]; [lia|done]].
  - split; [by left|done].
  - split; [done|]. intros [?|[-> _]]; lia.
Qed.
#[local] Instance bytes_le_trans : Transitive bytes_le.
Proof.
  intros a. induction a as [|x a IH]; intros [|y b] [|z c]; try done. rewrite !bytes_le_cons.
  intros [H1|[-> H1]] [H2|[-> H2]]; [left; lia|by left|by left|right; split; [done|by apply (IH b)]].
Qed.
Lemma bytes_le_antisymm a b : bytes_le a b -> bytes_le b a -> a = b.
Proof. unfold bytes_le. intros H1%Is_true_true H2%Is_true_true. by apply String.leb_antisym. Qed.

#[local] Instance entry_before_total : Total entry_before.
Proof.
  intros a b. unfold entry_before. destruct (Z.lt_trichotomy (te_doc_count a) (te_doc_count b)) as [|[E|]]; [right; by left| |left; by left].
  destruct (total bytes_le (te_key a) (te_key b)); [left; right|right; right]; by split.
Qed.
#[local] Instance entry_before_trans : Transitive entry_before.
Proof.
  intros a b c. unfold entry_before. intros [H1|[H1 K1]] [H2|[H2 K2]]; [left; lia..|right]. split; [lia|by trans (te_key b)].
Qed.

(** ** Counting documents *)

Definition docs_total (l : list TopEntry) : Z := foldr (fun d n => te_doc_count d + n) 0 l.
(** The documents of the domains of a category. *)
Definition docs_of (cat : TopEntry -> string) (k : string) (l : list TopEntry) : Z := docs_total (List.filter (fun d => bool_decide (cat d = k)) l).
Definition counts_ok (l : list TopEntry) : Prop := Forall (fun d => 0 <= te_doc_count d) l /\ docs_total l <= i64_max.

Lemma docs_total_app l1 l2 : docs_total (l1 ++ l2) = docs_total l1 + docs_total l2.
Proof. unfold docs_total. induction l1 as [|d l IH]; [done|]. cbn. rewrite IH. lia. Qed.
Lemma docs_total_nonneg l : Forall (fun d => 0 <= te_doc_count d) l -> 0 <= docs_total l.
Proof. induction 1 as [|d l Hd _ IH]; cbn; [lia|]. unfold docs_total in IH. lia. Qed.
Lemma docs_filter_le (p : TopEntry -> bool) l : Forall (fun d => 0 <= te_doc_count d) l -> 0 <= docs_total (List.filter p l) <= docs_total l.
Proof.
  induction 1 as [|d l Hd _ IH]; [done|]. cbn [List.filter]. unfold docs_total in *. destruct (p d); cbn; lia.
Qed.

Section Count.
  (** The category of a domain, and whether its documents count as classified. *)
  Context (cat : TopEntry -> string) (mapped : TopEntry -> bool).

Definition count_step (acc : gmap string Z * Z) (d : TopEntry) : gmap string Z * Z :=
  (<[cat d := as_i64 (default 0 (acc.1 !! cat d) + te_doc_count d)]> acc.1,
   if mapped d then as_i64 (acc.2 + te_doc_count d) else acc.2).

Lemma count_steps l : counts_ok l ->
  let acc := foldl count_step (∅, 0) l in
  (forall k, acc.1 !! k = if bool_decide (k ∈ cat <$> l) then Some (docs_of cat k l) else None) /\ acc.2 = docs_total (List.filter mapped l).
Proof.
  induction l as [|d l IH] using rev_ind; intros [Hn Ht]; [done|]. apply Forall_app in Hn as [Hn [Hd _]%Forall_cons].
  rewrite docs_total_app in Ht. cbn in Ht. pose proof (docs_total_nonneg l Hn).
  destruct IH as [IH1 IH2]; [split; [done|lia]|]. rewrite foldl_app. cbn [foldl]. set (acc := foldl count_step (∅, 0) l) in *. unfold count_step. cbn [fst snd].
  assert (default 0 (acc.1 !! cat d) = docs_of cat (cat d) l) as Hold.
  { rewrite IH1. case_bool_decide as Hin; [done|]. cbn. unfold docs_of. rewrite filter_none; [done|]. intros x Hx. apply bool_decide_eq_false. intros E. apply Hin.
    apply list_elem_of_fmap. by exists x. }
  pose proof (docs_filter_le (fun x => bool_decide (cat x = cat d)) l Hn) as Hb. fold (docs_of cat (cat d) l) in Hb. pose proof (docs_filter_le mapped l Hn) as Hm. split.
  - intros k. rewrite fmap_app. unfold docs_of. rewrite List.filter_app, docs_total_app. cbn [List.filter fmap list_fmap]. destruct (decide (k = cat d)) as [->|Hk].
    + rewrite lookup_insert_eq, Hold, bool_decide_eq_true_2 by (apply elem_of_app; right; left). rewrite (bool_decide_eq_true_2 (cat d = cat d)) by done. cbn. f_equal.
      rewrite Z.add_0_r. rewrite as_i64_small by lia. done.
    + rewrite lookup_insert_ne by done. rewrite IH1, (bool_decide_eq_false_2 (cat d = k)) by done. cbn. rewrite Z.add_0_r.
      repeat case_bool_decide; try done; exfalso; set_solver.
  - rewrite List.filter_app, docs_total_app. cbn [List.filter]. destruct (mapped d); [|rewrite IH2; change (docs_total []) with 0; lia]. rewrite IH2. change (docs_total [d]) with (te_doc_count d + 0). rewrite as_i64_small; lia.
Qed.
End Count.

(** ** The dashboard *)

Section Dashboard.
  Context `{X : Externals} `{U : Unicode} (policy : CanonicalizationPolicy).

(** What the tables say of a domain. *)
Definition active_row (t : ClassificationTables) (d : TopEntry) : option ClassificationRecord :=
  row ← kt_rows t !! canonical_of policy (te_key d); if decide (kr_status row = "active") then Some row else None.
Definition category_of (t : ClassificationTables) (d : TopEntry) : string := default UNCLASSIFIED (kr_primary_category <$> active_row t d).
Definition classified (t : ClassificationTables) (d : TopEntry) : bool := bool_decide (is_Some (active_row t d)).

Lemma elem_of_dedup x l : x ∈ dedup l <-> x ∈ l.
Proof.
  induction l as [|y l IH]; [done|]. cbn [dedup]. destruct l as [|z l]; [done|]. case_decide as E; [subst; rewrite IH; set_solver|].
  rewrite !elem_of_cons, IH. by rewrite elem_of_cons.
Qed.

(** The statement with its arguments is the count by category. *)
Lemma count_domain_steps t domains :
  let canonical_by_domain := list_to_map ((fun d => (te_key d, canonical_of policy (te_key d))) <$> domains) : gmap string string in
  let keys := dedup (merge_sort bytes_le (snd <$> map_to_list canonical_by_domain)) in
  forall l acc, (forall d, d ∈ l -> d ∈ domains) ->
  foldl (count_domain canonical_by_domain (active_categories keys t)) acc l = foldl (count_step (category_of t) (classified t)) acc l.
Proof.
  intros canon keys l. induction l as [|d l IH]; intros acc Hin; [done|]. cbn [foldl].
  assert (canon !! te_key d = Some (canonical_of policy (te_key d))) as Hc.
  { unfold canon. assert (d ∈ domains) as Hd by (apply Hin; left). clear -Hd. induction domains as [|d' domains IH]; [by apply elem_of_nil in Hd|].
    rewrite fmap_cons. cbn [list_to_map foldr uncurry]. destruct (decide (te_key d' = te_key d)) as [->|Hne]; [by rewrite lookup_insert_eq|].
    rewrite lookup_insert_ne by done. apply IH. by apply elem_of_cons in Hd as [->|]. }
  assert (active_categories keys t !! canonical_of policy (te_key d) = kr_primary_category <$> active_row t d) as Ha.
  { assert (canonical_of policy (te_key d) ∈ keys) as Hk.
    { unfold keys. rewrite elem_of_dedup, merge_sort_Permutation. apply list_elem_of_fmap. exists (te_key d, canonical_of policy (te_key d)). split; [done|]. by apply elem_of_map_to_list. }
    unfold active_categories, active_row. rewrite lookup_fmap, map_lookup_filter. destruct (kt_rows t !! _) as [row|]; [|done]. cbn.
    case_guard as Hg; case_decide as Hd; [done|by destruct Hg|exfalso; by apply Hg|done]. }
  assert (count_domain canon (active_categories keys t) acc d = count_step (category_of t) (classified t) acc d) as ->.
  { unfold count_domain, count_step, category_of, classified. rewrite Hc. cbn [from_option id]. rewrite Ha.
    by destruct (active_row t d) as [row|]; cbn. }
  apply IH. intros d' Hd'. apply Hin. by right.
Qed.

(** Documents are divided among the categories. *)
Lemma docs_divided cat keys l :
  NoDup keys -> (forall d, d ∈ l -> cat d ∈ keys) -> foldr (fun k n => docs_of cat k l + n) 0 keys = docs_total l.
Proof.
  intros Hnd. assert (forall (f g : string -> Z) ks, (forall k, k ∈ ks -> f k = g k) -> foldr (fun k n => f k + n) 0 ks = foldr (fun k n => g k + n) 0 ks) as Hext.
  { intros f g ks. induction ks as [|k ks IH]; intros H; [done|]. cbn. rewrite (H k) by left. rewrite IH; [done|]. intros k' Hk'. apply H. by right. }
  assert (forall ks : list string, foldr (fun _ n => 0 + n) 0 ks = 0) as Hzero by (intros ks; induction ks as [|k ks IH]; [done|]; cbn; lia).
  induction l as [|d l IH]; intros Hc.
  - rewrite (Hext _ (fun _ => 0)); [apply Hzero|done].
  - cbn [docs_total foldr]. change (foldr _ 0 l) with (docs_total l). rewrite <- IH by (intros; apply Hc; by right).
    assert (cat d ∈ keys) as Hd by (apply Hc; left). clear IH Hc.
    induction Hnd as [|k ks Hk Hnd IH]; [by apply elem_of_nil in Hd|]. cbn [foldr]. unfold docs_of at 1. cbn [List.filter].
    case_bool_decide as E.
    + cbn [docs_total foldr]. fold (docs_total (List.filter (fun d => bool_decide (cat d = k)) l)). fold (docs_of cat k l).
      rewrite (Hext (fun k0 => docs_of cat k0 (d :: l)) (fun k0 => docs_of cat k0 l)); [lia|]. intros k' Hk'. unfold docs_of. cbn [List.filter].
      rewrite bool_decide_eq_false_2; [done|]. intros E'. apply Hk. by rewrite <- E, E'.
    + fold (docs_of cat k l). apply elem_of_cons in Hd as [Hd|Hd]; [by destruct E|]. rewrite IH by done. lia.
Qed.

Lemma docs_total_keys cat (l categories : list TopEntry) :
  (forall e, e ∈ categories -> te_doc_count e = docs_of cat (te_key e) l) ->
  docs_total categories = foldr (fun k n => docs_of cat k l + n) 0 (te_key <$> categories).
Proof.
  induction categories as [|e categories IH]; intros H; [done|]. cbn. rewrite (H e) by left. f_equal. apply IH. intros e' He'. apply H. by right.
Qed.

(** C33: The dashboard counts documents under their categories.  Over the classification tables, the
    categories of the busiest domains are listed once each, the largest first, at most as many as asked
    for; each has the documents of exactly the domains whose canonical key has an active classification
    with it, domains without one being unclassified; a category that is left out has no more documents
    than the listed ones, and when none is, the documents add up to those of the domains. *)
Theorem dashboard_categories_add_up domains top_n (w : Io ClassificationTables ClassificationEffect) :
  calm w -> counts_ok domains ->
  let t := io_tables w in let cat := category_of t in
  exists categories w', hydrate_mapped_categories policy domains top_n w = (Ok (categories, docs_total (List.filter (classified t) domains)), w') /\
    StronglySorted entry_before categories /\ NoDup (te_key <$> categories) /\ Z.of_nat (length categories) <= top_size top_n /\
    (forall e, e ∈ categories -> te_doc_count e = docs_of cat (te_key e) domains /\ te_key e ∈ cat <$> domains) /\
    (forall d, d ∈ domains -> cat d ∈ te_key <$> categories \/ forall e, e ∈ categories -> docs_of cat (cat d) domains <= te_doc_count e) /\
    ((forall d, d ∈ domains -> cat d ∈ te_key <$> categories) -> docs_total categories = docs_total domains).
Proof.
  intros Hc Hok t cat. unfold hydrate_mapped_categories. destruct domains as [|d0 domains0] eqn:Ed.
  { exists [], w. split_and!; [done|constructor|constructor|cbn; unfold top_size; lia|by intros ? ?%elem_of_nil|by intros ? ?%elem_of_nil|done]. }
  rewrite <- Ed in *. clear Ed d0 domains0. unfold mbind, io_bind. rewrite fetch_calm by done. unfold build_mapped_categories. rewrite count_domain_steps by done. fold t.
  destruct (count_steps cat (classified t) domains Hok) as [Hm Hn]. fold cat. destruct (foldl (count_step cat (classified t)) (∅, 0) domains) as [m n]. cbn [fst snd] in Hm, Hn. subst n.
  set (mk := fun kc : string * Z => {| te_key := kc.1; te_doc_count := kc.2 |}). set (all := merge_sort entry_before (mk <$> map_to_list m)).
  assert (all ≡ₚ mk <$> map_to_list m) as Hp by apply merge_sort_Permutation.
  assert (forall e, e ∈ all <-> te_key e ∈ cat <$> domains /\ te_doc_count e = docs_of cat (te_key e) domains) as Hall.
  { intros [k c]. rewrite Hp, list_elem_of_fmap. split.
    - intros ([k' c'] & [= -> ->] & Hin%elem_of_map_to_list). rewrite Hm in Hin. by case_bool_decide; simplify_eq.
    - intros [Hk Hcnt]. cbn in Hk, Hcnt. exists (k, c). split; [done|]. apply elem_of_map_to_list. rewrite Hm, bool_decide_eq_true_2 by done. by rewrite Hcnt. }
  assert (NoDup (te_key <$> all)) as Hnd.
  { rewrite Hp, <- list_fmap_compose. apply (NoDup_fst_map_to_list m). }
  assert (StronglySorted entry_before all) as Hs by (apply StronglySorted_merge_sort; apply _).
  exists (take (Z.to_nat (top_size top_n)) all), (elapse w). set (k := Z.to_nat (top_size top_n)). pose proof (take_drop k all) as Htd.
  pose proof Hs as Hs'. rewrite <- Htd in Hs'. apply StronglySorted_app in Hs' as (Hcross & Hst & _).
  assert (forall e, e ∈ take k all -> e ∈ all) as Hin by (intros e He; rewrite <- Htd; apply elem_of_app; by left).
  assert (NoDup (te_key <$> take k all)) as Hndk by (rewrite <- Htd, fmap_app in Hnd; by apply NoDup_app in Hnd as [? _]).
  assert (forall e, e ∈ take k all -> te_doc_count e = docs_of cat (te_key e) domains) as Hcnt by (intros e He; by apply Hall, Hin).
  split_and!; [done|done|done|rewrite length_take; unfold k, top_size; lia|intros e He; split; [by apply Hcnt|by apply Hall, Hin]| |].
  - intros d Hd. set (e := {| te_key := cat d; te_doc_count := docs_of cat (cat d) domains |}).
    assert (e ∈ all) as He by (apply Hall; split; [apply list_elem_of_fmap; by exists d|done]). rewrite <- Htd in He. apply elem_of_app in He as [He|He].
    + left. apply list_elem_of_fmap. by exists e.
    + right. intros e' He'. destruct (Hcross e' e He' He) as [H|[H _]]; cbn in H; lia.
  - intros Hcov. rewrite (docs_total_keys cat domains) by done. by apply docs_divided.
Qed.
End Dashboard.

(** ** Providers *)

Definition named {M} (name : M -> string) (m : gmap string M) : Prop := forall k x, m !! k = Some x -> name x = k.

Lemma merge_samples_named {S M} (metric : S -> gmap string string) (blank : string -> M) put (name : M -> string) rows m :
  (forall k, name (blank k) = k) -> (forall s x, name (put s x) = name x) -> named name m -> named name (merge_samples metric blank put rows m).
Proof.
  intros Hb Hp. unfold merge_samples. revert m. induction rows as [|s rows IH]; intros m Hm; [done|]. cbn [foldl]. apply IH.
  destruct (metric s !! "provider") as [k|]; [|done]. intros k' x [[-> <-]|[_ Hx]]%lookup_insert_Some; [|by apply Hm].
  rewrite Hp. destruct (m !! k') as [y|] eqn:E; cbn; [by apply Hm|apply Hb].
Qed.
Lemma merge_samples_dom {S M} (metric : S -> gmap string string) (blank : string -> M) put rows m k :
  k ∈ dom (merge_samples metric blank put rows m) <-> k ∈ dom m \/ exists s, s ∈ rows /\ metric s !! "provider" = Some k.
Proof.
  unfold merge_samples. revert m. induction rows as [|s rows IH]; intros m; cbn [foldl].
  - split; [by left|]. by intros [?|(? & ?%elem_of_nil & _)].
  - rewrite IH. destruct (metric s !! "provider") as [k'|] eqn:E; [rewrite dom_insert, elem_of_union, elem_of_singleton|]; set_solver.
Qed.
#[local] Instance by_provider_total {M} (name : M -> string) : Total (by_provider name).
Proof. intros a b. apply (total bytes_le). Qed.
#[local] Instance by_provider_trans {M} (name : M -> string) : Transitive (by_provider name).
Proof. intros a b c. apply (transitivity (R := bytes_le)). Qed.
Lemma sorted_providers_once {M} (name : M -> string) m :
  named name m -> StronglySorted (by_provider name) (sorted_providers name m) /\ NoDup (name <$> sorted_providers name m) /\
    forall k, k ∈ name <$> sorted_providers name m <-> k ∈ dom m.
Proof.
  intros Hn. assert (name <$> (snd <$> map_to_list m) = fst <$> map_to_list m) as E.
  { rewrite <- list_fmap_compose. apply list_fmap_ext. intros i [k x] Hi. cbn. apply (Hn k x), elem_of_map_to_list. by eapply list_elem_of_lookup_2. }
  unfold sorted_providers. split_and!.
  - apply StronglySorted_merge_sort; apply _.
  - rewrite merge_sort_Permutation, E. apply NoDup_fst_map_to_list.
  - intros k. rewrite merge_sort_Permutation, E, list_elem_of_fmap, elem_of_dom. split.
    + intros ([k' x] & -> & Hx%elem_of_map_to_list). by exists x.
    + intros [x Hx]. exists (k, x). split; [done|]. by apply elem_of_map_to_list.
Qed.

(** Every provider with a sample is shown once. *)
Lemma provider_metrics_once failures timeouts latencies :
  let shown := sorted_providers om_provider (provider_metrics failures timeouts latencies) in
  NoDup (om_provider <$> shown) /\
  forall k, k ∈ om_provider <$> shown <-> exists s, s ∈ failures ++ timeouts ++ latencies /\ pv_metric s !! "provider" = Some k.
Proof.
  intros shown. destruct (sorted_providers_once om_provider (provider_metrics failures timeouts latencies)) as (_ & Hnd & Hk).
  { unfold provider_metrics. do 3 (apply merge_samples_named; [done|done|]). by intros ??. }
  split; [done|]. intros k. unfold shown. rewrite Hk. unfold provider_metrics. rewrite !merge_samples_dom, dom_empty. set_solver.
Qed.

(** A query that gives nothing is reported, and one that succeeds adds no error. *)
Lemma read_prometheus_reported {A} (sample : Json -> result string A) name reply errors :
  (read_prometheus sample name reply errors).1 = None <-> length (read_prometheus sample name reply errors).2 = S (length errors).
Proof.
  unfold read_prometheus. destruct reply as [err|status text body]; cbn; [by rewrite length_app, Nat.add_1_r|].
  destruct (negb _); cbn; [by rewrite length_app, Nat.add_1_r|]. destruct (body ≫= _) as [[st rows]|err]; cbn; [|by rewrite length_app, Nat.add_1_r].
  case_decide; cbn; [by rewrite length_app, Nat.add_1_r|]. split; [done|]. intros H0. exfalso. by apply (Nat.neq_succ_diag_r (length errors)).
Qed.

(** ** Ranges *)

(** Text of ASCII characters never panics. *)
Lemma ascii_range_returns s : is_ascii s = true -> s <> "" -> without_last_byte s <> Panics.
Proof.
  unfold without_last_byte. intros Ha Hne. assert (exists c, last_char s = Some c /\ is_ascii_char c = true) as (c & -> & ->); [|done].
  induction s as [|a s IH]; [done|]. cbn in Ha. apply andb_true_iff in Ha as [H1 H2]. destruct s as [|b s].
  - exists a. by split.
  - destruct (IH H2) as (c & Hc & Hx); [done|]. by exists c.
Qed.

(** ** Examples *)

Module ReportingDemo.

#[local] Existing Instance Demo.libs.
#[local] Existing Instance Demo.unicode.

Definition policy : CanonicalizationPolicy := from_tenant_exceptions [].
Definition row (category status : string) : ClassificationRecord :=
  {| kr_id := 1%nat; kr_taxonomy_version := "v1"; kr_model_version := "m"; kr_primary_category := category; kr_subcategory := "general";
     kr_risk_level := "low"; kr_recommended_action := "Allow"; kr_confidence := 9000; kr_sfw := true; kr_flags := JNull;
     kr_ttl_seconds := 3600; kr_status := status; kr_next_refresh_at := 0; kr_updated_at := 0 |}.
Definition tables : ClassificationTables :=
  {| kt_rows := {[ "domain:example.com" := row "news-media" "active"; "domain:old.org" := row "games" "inactive" ]};
     kt_versions := []; kt_requests := ∅; kt_pages := [] |}.
Definition world : Io ClassificationTables ClassificationEffect := mkIo 1000 None [] 1%nat [] tables.
Definition entry (key : string) (n : Z) : TopEntry := {| te_key := key; te_doc_count := n |}.
Definition domains : list TopEntry := [entry "news.example.com" 40; entry "Ads.example.com " 10; entry "old.org" 4; entry "unknown.test" 5].

Lemma dashboard_categories_add_up_witness :
  exists categories, (hydrate_mapped_categories policy domains 20 world).1 = Ok (categories, 50) /\
    StronglySorted entry_before categories /\ categories = [entry "news-media" 50; entry "unknown-unclassified" 9] /\ docs_total categories = 59.
Proof.
  destruct (dashboard_categories_add_up policy domains 20 world) as (categories & w' & Hr & Hs & _ & _ & _ & _ & Htotal);
    [reflexivity|split; [apply (bool_decide_unpack _); vm_compute; exact I|vm_compute; discriminate]|].
  assert ((hydrate_mapped_categories policy domains 20 world).1 = Ok ([entry "news-media" 50; entry "unknown-unclassified" 9], 50)) as Hv by (vm_compute; reflexivity).
  rewrite Hr in Hv. cbn [fst] in Hv. injection Hv as Hcat. exists categories. rewrite Hr. split_and!; [vm_compute; reflexivity|exact Hs|exact Hcat|].
  rewrite Htotal; [vm_compute; reflexivity|]. rewrite Hcat. apply Forall_forall. apply (bool_decide_unpack _). vm_compute. exact I.
Defined.

Example intervals : select_interval <$> ["6h"; "12h"; "48h"; "10d"; "90d"; "90m"] = Returns <$> ["5m"; "1h"; "3h"; "12h"; "1d"; "5m"].
Proof. vm_compute. reflexivity. Qed.
Example ranges : parse_prometheus_range_seconds <$> ["1m"; "15m"; "1h"; "7d"; "0m"; "abc"] =
  Returns <$> [Some 60; Some 900; Some 3600; Some 604800; None; None].
Proof. vm_compute. reflexivity. Qed.
Example hourly_usage :
  let aggs := JObj [("hourly_usage", JObj [("buckets", JArr [JObj [("key_as_string", JStr "2026-04-10T00:00:00.000Z"); ("doc_count", JInt 10);
    ("blocked", JObj [("doc_count", JInt 3)]); ("bandwidth", JObj [("value", JFloat (f64_of_Z 2048))])]])])] in
  parse_hourly_usage aggs = [{| hu_timestamp := "2026-04-10T00:00:00.000Z"; hu_total_requests := 10; hu_blocked_requests := 3; hu_bandwidth_bytes := 2048 |}].
Proof. vm_compute. reflexivity. Qed.

(** A range that ends in a character of several bytes makes the request panic. *)
Definition e_acute : string := String (byte 195) (String (byte 169) "").
Example range_panics : select_interval ("24" +:+ e_acute) = Panics /\ parse_prometheus_range_seconds ("24" +:+ e_acute) = Panics.
Proof. vm_compute. done. Qed.
(** A range of months of Elasticsearch is taken for minutes: a year in buckets of five minutes. *)
Example months_are_minutes : select_interval "12M" = Returns "5m".
Proof. vm_compute. reflexivity. Qed.
(** A long range wraps around to a negative one, so that the interval begins in the future. *)
Example range_wraps : parse_prometheus_range_seconds "106751991167301d" = Returns (Some (-9223372036854745216)).
Proof. vm_compute. reflexivity. Qed.

End ReportingDemo.
