(* ===== verification/OdctlSession.v ===== *)
(** * odctl: sessions, the device login and requests

    The administrative command line, [cli/odctl/src/main.rs]: the session kept in a file
    ([AuthSession], [resolve_token], [refresh_session]), the OAuth device flow
    ([perform_device_login]), the client of the admin API ([ApiClient], [looks_like_jwt]) and the
    health check ([handle_env]).

    A command runs as a computation of [Io.v] whose tables are the session file.  The HTTP services
    are the parameter [CliNet]: an answer depends on the time and the request and takes some
    milliseconds; the client of the source sets no timeout, a request that never ends is not modelled.
    A file operation may fail, and then leaves the file, whereas [fs::write] truncates it first.  The
    deadline and the interval of the login are unbounded: lifetimes and intervals beyond what
    [Instant] can hold, at which the source panics, are not modelled.  The login polls with fuel:
    every round waits a second at least, so the seconds a device code lives and one more are
    enough ([device_login_ends]).  [SystemTime] and [Instant] are the same clock. *)

From S2P Require Import Prelude RustStr RustNum Json LlmProvider Db Io Wp.

Local Open Scope Z_scope.

(** ** Requests *)

Inductive HttpMethod := GET | POST | PUT | PATCH | DELETE.
Inductive RequestBody := NoBody | FormBody (params : list (string * string)) | JsonBody (value : Json).
Record CliRequest := {
  cr_method : HttpMethod; cr_url : string; cr_query : list (string * string);
  cr_headers : list (string * string); cr_body : RequestBody
}.
Definition form (url : string) (params : list (string * string)) : CliRequest :=
  {| cr_method := POST; cr_url := url; cr_query := []; cr_headers := []; cr_body := FormBody params |}.

Inductive CliEffect :=
  | Println (line : string)
  | PrintJson (value : Json)
  | Sent (at_ : Z) (request : CliRequest).

(** Errors are messages, but for a loop whose fuel is used up. *)
Inductive CliError := OutOfFuel | Failed (message : string).

Class CliNet := {
  net_send : Z -> CliRequest -> N * HttpReply;
  (** the message of a response turned into an error by [error_for_status] *)
  net_status_text : Z -> string;
  (** a status as it is printed, with its reason *)
  status_line : Z -> string
}.

(** [to_string_pretty]. *)
Class JsonPretty (T : JsonText) := {
  json_pretty : Json -> string;
  json_parse_pretty v : exact v = true -> json_parse (json_pretty v) = Ok v
}.

Abbreviation SessionFile := (option string).
Abbreviation CM := (M SessionFile CliEffect CliError).
Abbreviation CliWorld := (Io SessionFile CliEffect).

Definition failed {A} (message : string) : CM A := of_result (Err (Failed message)).
Definition println (line : string) : CM unit := emit (Println line).

Definition is_success (status : Z) : bool := bool_decide (200 <= status < 300).
(** What [error_for_status] turns into an error. *)
Definition is_error_status (status : Z) : bool := bool_decide (400 <= status < 600).

(** ** The device flow and its messages *)

Definition DEFAULT_OIDC_SCOPE : string := "openid profile email offline_access".
Definition DEFAULT_DEVICE_URL : string := "https://login.example.com/oauth/device/code".
Definition DEFAULT_TOKEN_URL : string := "https://login.example.com/oauth/token".
Definition DEFAULT_CLIENT_ID : string := "odctl-dev".

Record DeviceFlowConfig := {
  df_client_id : string; df_device_url : string; df_token_url : string; df_scope : string; df_audience : option string
}.
Definition new_device_flow (client_id device_url token_url scope audience : option string) : DeviceFlowConfig :=
  {| df_client_id := default DEFAULT_CLIENT_ID client_id; df_device_url := default DEFAULT_DEVICE_URL device_url;
     df_token_url := default DEFAULT_TOKEN_URL token_url; df_scope := default DEFAULT_OIDC_SCOPE scope;
     df_audience := audience |}.

Record DeviceCodeResponse := {
  dc_device_code : string; dc_user_code : string; dc_verification_uri : string;
  dc_verification_uri_complete : option string; dc_expires_in : Z; dc_interval : Z
}.
Definition default_interval : Z := 5.
Definition de_u64 : Json -> result string Z := de_int 0 u64_max.
Definition device_from_json (v : Json) : result string DeviceCodeResponse :=
  fields ← struct_fields ["device_code"; "user_code"; "verification_uri"; "verification_uri_complete"; "expires_in"; "interval"] v;
  device_code ← required "device_code" de_string fields;
  user_code ← required "user_code" de_string fields;
  verification_uri ← required "verification_uri" de_string fields;
  complete ← optional "verification_uri_complete" de_string fields;
  expires_in ← required "expires_in" de_u64 fields;
  interval ← defaulted "interval" de_u64 default_interval fields;
  Ok {| dc_device_code := device_code; dc_user_code := user_code; dc_verification_uri := verification_uri;
        dc_verification_uri_complete := complete; dc_expires_in := expires_in; dc_interval := interval |}.

Record TokenResponse := {
  tr_access_token : string; tr_refresh_token : option string; tr_token_type : option string; tr_scope : option string;
  tr_expires_in : option Z
}.
Definition token_from_json (v : Json) : result string TokenResponse :=
  fields ← struct_fields ["access_token"; "refresh_token"; "token_type"; "scope"; "expires_in"] v;
  access_token ← required "access_token" de_string fields;
  refresh_token ← optional "refresh_token" de_string fields;
  token_type ← optional "token_type" de_string fields;
  scope ← optional "scope" de_string fields;
  expires_in ← optional "expires_in" de_u64 fields;
  Ok {| tr_access_token := access_token; tr_refresh_token := refresh_token; tr_token_type := token_type;
        tr_scope := scope; tr_expires_in := expires_in |}.

Definition device_error_from_json (v : Json) : result string (string * option string) :=
  fields ← struct_fields ["error"; "error_description"] v;
  error ← required "error" de_string fields;
  description ← optional "error_description" de_string fields;
  Ok (error, description).

Definition device_code_request (cfg : DeviceFlowConfig) : CliRequest :=
  form (df_device_url cfg)
    ([("client_id", df_client_id cfg); ("scope", df_scope cfg)] ++
     match df_audience cfg with Some aud => [("audience", aud)] | None => [] end).
Definition device_token_request (cfg : DeviceFlowConfig) (device_code : string) : CliRequest :=
  form (df_token_url cfg)
    ([("client_id", df_client_id cfg); ("device_code", device_code);
      ("grant_type", "urn:ietf:params:oauth:grant-type:device_code")] ++
     match df_audience cfg with Some aud => [("audience", aud)] | None => [] end).

(** ** Sessions *)

Record AuthSession := {
  se_access_token : string;
  se_refresh_token : option string;
  se_token_type : option string;
  se_scope : option string;
  se_expires_at : option Z;
  se_obtained_at : option Z;
  se_client_id : string;
  se_token_endpoint : string;
  se_device_endpoint : option string;
  se_audience : option string
}.
Definition session_to_json (s : AuthSession) : Json :=
  JObj [("access_token", JStr (se_access_token s)); ("refresh_token", json_opt JStr (se_refresh_token s));
        ("token_type", json_opt JStr (se_token_type s)); ("scope", json_opt JStr (se_scope s));
        ("expires_at", json_opt JInt (se_expires_at s)); ("obtained_at", json_opt JInt (se_obtained_at s));
        ("client_id", JStr (se_client_id s)); ("token_endpoint", JStr (se_token_endpoint s));
        ("device_endpoint", json_opt JStr (se_device_endpoint s)); ("audience", json_opt JStr (se_audience s))].
Definition session_from_json (v : Json) : result string AuthSession :=
  fields ← struct_fields ["access_token"; "refresh_token"; "token_type"; "scope"; "expires_at"; "obtained_at"; "client_id";
                          "token_endpoint"; "device_endpoint"; "audience"] v;
  access_token ← required "access_token" de_string fields;
  refresh_token ← optional "refresh_token" de_string fields;
  token_type ← optional "token_type" de_string fields;
  scope ← optional "scope" de_string fields;
  expires_at ← optional "expires_at" de_i64 fields;
  obtained_at ← optional "obtained_at" de_i64 fields;
  client_id ← required "client_id" de_string fields;
  token_endpoint ← required "token_endpoint" de_string fields;
  device_endpoint ← optional "device_endpoint" de_string fields;
  audience ← optional "audience" de_string fields;
  Ok {| se_access_token := access_token; se_refresh_token := refresh_token; se_token_type := token_type; se_scope := scope;
        se_expires_at := expires_at; se_obtained_at := obtained_at; se_client_id := client_id;
        se_token_endpoint := token_endpoint; se_device_endpoint := device_endpoint; se_audience := audience |}.

(** Seconds since 1970, 0 before. *)
Definition current_timestamp (now : Z) : Z := Z.max 0 (now / 1000).

(** Refresh one minute early. *)
Definition is_expired (s : AuthSession) (now : Z) : bool :=
  match se_expires_at s with
  | Some exp => bool_decide (exp <= current_timestamp now + 60)
  | None => false
  end.

(** [or] and [or_else]. *)
Definition or_base {A} (o base : option A) : option A := match o with Some a => Some a | None => base end.
Definition build_session_from_token (base : AuthSession) (token : TokenResponse) (now : Z) : AuthSession :=
  {| se_access_token := tr_access_token token;
     se_refresh_token := or_base (tr_refresh_token token) (se_refresh_token base);
     se_token_type := or_base (tr_token_type token) (se_token_type base);
     se_scope := or_base (tr_scope token) (se_scope base);
     se_expires_at := or_base ((fun ttl => as_i64 (current_timestamp now + as_i64 ttl)) <$> tr_expires_in token) (se_expires_at base);
     se_obtained_at := Some (current_timestamp now);
     se_client_id := se_client_id base; se_token_endpoint := se_token_endpoint base;
     se_device_endpoint := se_device_endpoint base; se_audience := se_audience base |}.

Section Client.
  Context `{T : JsonText} `{P : !JsonPretty T} `{NET : CliNet}.

(** A request, its duration, and its reply when there is one. *)
Definition send_now (r : CliRequest) : CM (Z * result ReqwestError string) := fun w =>
  let '(duration, reply) := net_send (io_now w) r in
  (map_err (fun e => Failed (re_text e)) reply,
   mkIo (io_now w + Z.of_N duration) (io_tx w) (io_faults w) (io_next_uuid w) (io_trace w ++ [Sent (io_now w) r]) (io_tables w)).

Definition error_for_status (reply : Z * result ReqwestError string) : CM (result ReqwestError string) :=
  if is_error_status reply.1 then failed (net_status_text reply.1) else mret reply.2.
(** [resp.json()]. *)
Definition read_json {A} (decode : Json -> result string A) (body : result ReqwestError string) : CM A :=
  of_result (map_err Failed (text ← map_err re_text body; v ← json_parse text; decode v)).

(** *** The session file *)

Definition session_file : CM unit := map_error Failed (step (fun w => (tt, w))).
Definition path_exists : CM bool := fun w => (Ok (bool_decide (is_Some (io_tables w))), w).
Definition session_from_str (data : string) : result string AuthSession := v ← json_parse data; session_from_json v.

Definition load_session : CM (option AuthSession) :=
  _ ← session_file;
  there ← path_exists;
  if negb (there : bool) then mret None
  else
    data ← map_error Failed (fetch (fun _ file => default "" file));
    session ← of_result (map_err Failed (session_from_str data));
    mret (Some session).
Definition save_session (s : AuthSession) : CM unit :=
  _ ← session_file;
  map_error Failed (update (fun _ _ => Some (json_pretty (session_to_json s)))).
Definition delete_session : CM unit :=
  _ ← session_file;
  there ← path_exists;
  if there : bool then map_error Failed (update (fun _ _ => None)) else mret tt.

Definition refresh_request (s : AuthSession) (refresh : string) : CliRequest :=
  form (se_token_endpoint s)
    ([("grant_type", "refresh_token"); ("refresh_token", refresh); ("client_id", se_client_id s)] ++
     match se_scope s with Some scope => [("scope", scope)] | None => [] end ++
     match se_audience s with Some aud => [("audience", aud)] | None => [] end).
Definition refresh_session (s : AuthSession) : CM AuthSession :=
  match se_refresh_token s with
  | None => failed "missing refresh token"
  | Some refresh =>
      reply ← send_now (refresh_request s refresh);
      body ← error_for_status reply;
      token ← read_json token_from_json body;
      now ← utc_now;
      mret (build_session_from_token s token now)
  end.

Definition NO_SESSION : string := "No stored session. Run `odctl auth login` or provide --token.".
Definition EXPIRED : string :=
  "Access token expired and no refresh token available. Please run `odctl auth login`.".

Definition stored_token : CM (option string) :=
  stored ← load_session;
  match stored with
  | None => failed NO_SESSION
  | Some session =>
      now ← utc_now;
      if is_expired session now then
        match se_refresh_token session with
        | None => failed EXPIRED
        | Some _ =>
            session ← refresh_session session;
            _ ← save_session session;
            mret (Some (se_access_token session))
        end
      else mret (Some (se_access_token session))
  end.
Definition resolve_token (cli_token : option string) : CM (option string) :=
  match cli_token with
  | Some token => if negb (is_empty (trim token)) then mret (Some token) else stored_token
  | None => stored_token
  end.

(** *** The device login *)

(** The base of the session: no tokens yet. *)
Definition login_base (cfg : DeviceFlowConfig) (now : Z) : AuthSession :=
  {| se_access_token := ""; se_refresh_token := None; se_token_type := None; se_scope := Some (df_scope cfg);
     se_expires_at := None; se_obtained_at := Some (current_timestamp now); se_client_id := df_client_id cfg;
     se_token_endpoint := df_token_url cfg; se_device_endpoint := Some (df_device_url cfg); se_audience := df_audience cfg |}.
Definition with_scope (scope : option string) (s : AuthSession) : AuthSession :=
  {| se_access_token := se_access_token s; se_refresh_token := se_refresh_token s; se_token_type := se_token_type s;
     se_scope := scope; se_expires_at := se_expires_at s; se_obtained_at := se_obtained_at s; se_client_id := se_client_id s;
     se_token_endpoint := se_token_endpoint s; se_device_endpoint := se_device_endpoint s; se_audience := se_audience s |}.
Definition login_session (cfg : DeviceFlowConfig) (token : TokenResponse) (now : Z) : AuthSession :=
  with_scope (Some (df_scope cfg)) (build_session_from_token (login_base cfg now) token now).

Definition finish_login (cfg : DeviceFlowConfig) (body : result ReqwestError string) : CM unit :=
  token ← read_json token_from_json body;
  now ← utc_now;
  _ ← save_session (login_session cfg token now);
  println "Authentication successful. Tokens stored.".

(** The loop, with the interval in seconds and the deadline in milliseconds. *)
Fixpoint poll_token (fuel : nat) (cfg : DeviceFlowConfig) (request : CliRequest) (interval deadline : Z) : CM unit :=
  match fuel with
  | O => of_result (Err OutOfFuel)
  | S fuel' =>
      now ← utc_now;
      if decide (deadline <= now) then failed "Device code expired before approval"
      else
        reply ← send_now request;
        if is_success reply.1 then finish_login cfg reply.2
        else if decide (reply.1 = 400) then
          err_body ← read_json device_error_from_json reply.2;
          if decide (err_body.1 = "authorization_pending") then
            _ ← pause (interval * 1000);
            poll_token fuel' cfg request interval deadline
          else if decide (err_body.1 = "slow_down") then
            _ ← pause ((interval + 5) * 1000);
            poll_token fuel' cfg request (interval + 5) deadline
          else if decide (err_body.1 = "expired_token") then failed "Device code expired"
          else failed ("Device flow failed: " +:+ err_body.1 +:+ " " +:+ default "" err_body.2)
        else failed ("Token request failed: " +:+ match reply.2 with Ok text => text | Err _ => "" end)
  end.

Definition perform_device_login (cfg : DeviceFlowConfig) : CM unit :=
  reply ← send_now (device_code_request cfg);
  body ← error_for_status reply;
  device ← read_json device_from_json body;
  _ ← println ("Open " +:+ default (dc_verification_uri device) (dc_verification_uri_complete device));
  _ ← println ("Enter code: " +:+ dc_user_code device);
  now ← utc_now;
  poll_token (S (Z.to_nat (dc_expires_in device))) cfg (device_token_request cfg (dc_device_code device))
    (Z.max (dc_interval device) 1) (now + dc_expires_in device * 1000).

(** *** [odctl auth] *)

Inductive AuthCmd :=
  | Login (client_id device_url token_url scope audience : option string)
  | Logout
  | Status.
(** [exp.saturating_sub(now)] on [i64]. *)
Definition remaining (exp now : Z) : Z := Z.max (- 2 ^ 63) (Z.min i64_max (exp - current_timestamp now)).
Definition show_int (z : Z) : string := pretty z.

Definition handle_auth (cmd : AuthCmd) : CM unit :=
  match cmd with
  | Login client_id device_url token_url scope audience =>
      perform_device_login (new_device_flow client_id device_url token_url scope audience)
  | Logout => _ ← delete_session; println "Logged out and cleared stored tokens."
  | Status =>
      stored ← load_session;
      match stored with
      | Some s =>
          _ ← println ("Client ID : " +:+ se_client_id s);
          now ← utc_now;
          _ ← match se_expires_at s with
              | Some exp => println ("Access exp: " +:+ show_int (remaining exp now) +:+ "s")
              | None => mret tt
              end;
          _ ← match se_refresh_token s with Some _ => println "Refresh  : available" | None => mret tt end;
          println ("Audience  : " +:+ default "-" (se_audience s))
      | None => println "No stored session. Use 'odctl auth login' to authenticate."
      end
  end.

(** *** The client of the admin API *)

Record ApiClient := { ac_base_url : string; ac_token : option string }.
Definition new_client (base_url : string) (token : option string) : ApiClient :=
  {| ac_base_url := trim_end_matches "/" base_url; ac_token := token |}.

Definition looks_like_jwt (token : string) : bool :=
  let parts := split_char "." token in
  bool_decide (length parts = 3)%nat && forallb (fun segment => negb (is_empty segment)) parts.
Definition credential_headers (token : option string) : list (string * string) :=
  match token with
  | Some t => if looks_like_jwt t then [("authorization", "Bearer " +:+ t)] else [("x-admin-token", t)]
  | None => []
  end.
(** A value that [http::HeaderValue] takes. *)
Definition header_value_ok (value : string) : bool :=
  str_forall (fun c => bool_decide (c = byte 9) || ((32 <=? code c)%N && negb (code c =? 127)%N)) value.

Definition api_request (c : ApiClient) (method : HttpMethod) (path : string) (query : list (string * string)) (body : RequestBody)
    : CliRequest :=
  {| cr_method := method; cr_url := ac_base_url c +:+ path; cr_query := query; cr_headers := credential_headers (ac_token c);
     cr_body := body |}.
Definition api_send (c : ApiClient) (method : HttpMethod) (path : string) (query : list (string * string)) (body : RequestBody)
    : CM (result ReqwestError string) :=
  let request := api_request c method path query body in
  if forallb (fun h => header_value_ok h.2) (cr_headers request) then
    reply ← send_now request;
    if is_success reply.1 then mret reply.2
    else failed ("request failed: " +:+ status_line reply.1 +:+ " -> " +:+
                 match reply.2 with Ok text => text | Err _ => "<empty>" end)
  else failed "builder error".

Definition api_get {A} (decode : Json -> result string A) (c : ApiClient) (path : string) (query : list (string * string)) : CM A :=
  body ← api_send c GET path query NoBody; read_json decode body.
Definition api_get_text (c : ApiClient) (path : string) (query : list (string * string)) : CM string :=
  body ← api_send c GET path query NoBody; of_result (map_err (fun e => Failed (re_text e)) body).
Definition api_body {A} (method : HttpMethod) (decode : Json -> result string A) (c : ApiClient) (path : string) (value : Json)
    : CM A :=
  body ← api_send c method path [] (JsonBody value); read_json decode body.
Definition api_post_no_content (c : ApiClient) (path : string) (value : Json) : CM unit :=
  _ ← api_send c POST path [] (JsonBody value); mret tt.
Definition api_delete (c : ApiClient) (path : string) : CM unit := _ ← api_send c DELETE path [] NoBody; mret tt.
Definition api_delete_json {A} (decode : Json -> result string A) (c : ApiClient) (path : string) : CM A :=
  body ← api_send c DELETE path [] NoBody; read_json decode body.

Definition handle_env (url : string) : CM unit :=
  reply ← send_now {| cr_method := GET; cr_url := trim_end_matches "/" url +:+ "/health/ready"; cr_query := []; cr_headers := [];
                      cr_body := NoBody |};
  if is_success reply.1 then println ("Admin API healthy at " +:+ url)
  else failed ("Health check failed: " +:+ status_line reply.1).

End Client.

(** ** Sessions are read back *)

Definition session_ok (s : AuthSession) : Prop :=
  (forall z, se_expires_at s = Some z -> is_i64 z) /\ (forall z, se_obtained_at s = Some z -> is_i64 z).

Lemma as_i64_range z : is_i64 (as_i64 z).
Proof. unfold is_i64, as_i64, i64_max. pose proof (Z.mod_pos_bound (z + 2 ^ 63) (2 ^ 64)). lia. Qed.

Lemma session_json_round_trip s : session_ok s -> session_from_json (session_to_json s) = Ok s.
Proof.
  intros [He Ho]. unfold session_from_json, session_to_json. cbn [struct_fields mbind result_bind].
  rewrite (required_Ok "access_token" _ _ (JStr (se_access_token s)) (se_access_token s)); [|find_field|done]. cbn [mbind result_bind].
  rewrite (optional_nullable "refresh_token" JStr _ _ (se_refresh_token s)); [|find_field|done]. cbn [mbind result_bind].
  rewrite (optional_nullable "token_type" JStr _ _ (se_token_type s)); [|find_field|done]. cbn [mbind result_bind].
  rewrite (optional_nullable "scope" JStr _ _ (se_scope s)); [|find_field|done]. cbn [mbind result_bind].
  rewrite (optional_nullable "expires_at" JInt _ _ (se_expires_at s)); [|find_field|intros z Hz; split; [by apply de_i64_JInt, He|done]].
  cbn [mbind result_bind].
  rewrite (optional_nullable "obtained_at" JInt _ _ (se_obtained_at s)); [|find_field|intros z Hz; split; [by apply de_i64_JInt, Ho|done]].
  cbn [mbind result_bind].
  rewrite (required_Ok "client_id" _ _ (JStr (se_client_id s)) (se_client_id s)); [|find_field|done]. cbn [mbind result_bind].
  rewrite (required_Ok "token_endpoint" _ _ (JStr (se_token_endpoint s)) (se_token_endpoint s)); [|find_field|done].
  cbn [mbind result_bind].
  rewrite (optional_nullable "device_endpoint" JStr _ _ (se_device_endpoint s)); [|find_field|done]. cbn [mbind result_bind].
  rewrite (optional_nullable "audience" JStr _ _ (se_audience s)); [|find_field|done]. by destruct s.
Qed.

Lemma required_u64 name fields z : required name de_u64 fields = Ok z -> 0 <= z.
Proof.
  unfold required. destruct (lookup_field name fields) as [[v|]|]; cbn; [|done|done].
  unfold de_u64, de_int. destruct v; try done. case_decide; [|done]. intros [= <-]. lia.
Qed.
Lemma session_from_json_ok v s : session_from_json v = Ok s -> session_ok s.
Proof.
  unfold session_from_json. intros H.
  repeat match type of H with _ ≫= _ = Ok _ => let x := fresh "x" in let Hx := fresh "Hx" in apply bind_Ok in H as (x & Hx & H) end.
  injection H as <-. split; cbn; intros z Hz; (eapply optional_i64_range; [|exact Hz]; eassumption).
Qed.

Lemma success_no_error status : is_success status = true -> is_error_status status = false.
Proof. unfold is_success, is_error_status. rewrite bool_decide_eq_true, bool_decide_eq_false. lia. Qed.

Section Sessions.
  Context `{T : JsonText} `{P : !JsonPretty T} `{NET : CliNet}.

(** The text of a session file. *)
Definition session_text (s : AuthSession) : string := json_pretty (session_to_json s).
Lemma session_text_exact s : exact (session_to_json s) = true.
Proof.
  unfold session_to_json. cbn.
  destruct (se_refresh_token s), (se_token_type s), (se_scope s), (se_expires_at s), (se_obtained_at s), (se_device_endpoint s), (se_audience s); done.
Qed.
Lemma session_text_round_trip s : session_ok s -> session_from_str (session_text s) = Ok s.
Proof.
  intros Hs. unfold session_from_str, session_text. rewrite json_parse_pretty by apply session_text_exact.
  cbn. by apply session_json_round_trip.
Qed.
Lemma session_from_str_ok data s : session_from_str data = Ok s -> session_ok s.
Proof. intros (v & _ & H)%bind_Ok. by eapply session_from_json_ok. Qed.
(** A session built from an answer fits its columns, if the clock does. *)
Lemma build_session_ok base token now :
  session_ok base -> now <= i64_max -> session_ok (build_session_from_token base token now).
Proof.
  intros [He Ho] Hn. split; cbn; intros z Hz.
  - destruct (tr_expires_in token); cbn in Hz; [injection Hz as <-; apply as_i64_range|by apply He].
  - injection Hz as <-. unfold is_i64, current_timestamp, i64_max in *.
    destruct (decide (0 <= now)); [|rewrite Z.max_l; [lia|apply Z.div_le_upper_bound; lia]].
    assert (now / 1000 <= now) by (apply Z.div_le_upper_bound; lia). pose proof (Z.div_pos now 1000). lia.
Qed.

(** ** Rules for the operations *)

Definition after_send (r : CliRequest) (w : CliWorld) : CliWorld :=
  mkIo (io_now w + Z.of_N (net_send (io_now w) r).1) (io_tx w) (io_faults w) (io_next_uuid w) (io_trace w ++ [Sent (io_now w) r]) (io_tables w).
Lemma wp_send r Q I w :
  (forall reply, (net_send (io_now w) r).2 = Ok reply -> Q reply (after_send r w)) ->
  (forall e, (net_send (io_now w) r).2 = Err e -> I (Failed (re_text e)) (after_send r w)) -> wp (send_now r) Q I w.
Proof. unfold wp, send_now, after_send. destruct (net_send (io_now w) r) as [d [reply|e]]; cbn; eauto. Qed.
Lemma wp_read_json {A} (decode : Json -> result string A) body Q I (w : CliWorld) :
  (forall text v a, body = Ok text -> json_parse text = Ok v -> decode v = Ok a -> Q a w) ->
  (forall message, I (Failed message) w) -> wp (read_json decode body) Q I w.
Proof.
  intros HQ HI. apply wp_result.
  - intros a Ha. destruct body as [text|e]; [|done]. cbn in Ha. destruct (json_parse text) as [v|e] eqn:Ev; [|done]. cbn in Ha.
    destruct (decode v) as [b|e] eqn:Ed; [|done]. injection Ha as ->. eauto.
  - intros e He. destruct (text ← map_err re_text body; _); [done|]. injection He as <-. eauto.
Qed.
Lemma wp_failed {A} message (Q : A -> CliWorld -> Prop) I w : I (Failed message) w -> wp (failed message) Q I w.
Proof. done. Qed.
Lemma wp_session_file Q I (w : CliWorld) :
  I (Failed DB_ERROR) (elapse w) -> Q tt (elapse w) -> wp session_file Q I w.
Proof. intros HI HQ. apply wp_map_error, wp_step; done. Qed.
Lemma wp_save s Q I (w : CliWorld) :
  (forall w1, io_trace w1 = io_trace w -> io_tables w1 = io_tables w -> I (Failed DB_ERROR) w1) ->
  (forall w1, io_trace w1 = io_trace w -> io_now w <= io_now w1 -> io_tables w1 = Some (session_text s) -> Q tt w1) ->
  wp (save_session s) Q I w.
Proof.
  intros HI HQ. unfold save_session. wp1. apply wp_session_file; [by apply HI|]. wp; [by apply HI|].
  apply HQ; cbn; [done|lia|done].
Qed.
Lemma wp_load Q I (w : CliWorld) :
  (forall e w1, io_trace w1 = io_trace w -> io_tables w1 = io_tables w -> I (Failed e) w1) ->
  (forall o w1, io_trace w1 = io_trace w -> io_tables w1 = io_tables w ->
     match io_tables w with
     | None => o = None
     | Some data => exists s, o = Some s /\ session_from_str data = Ok s
     end -> Q o w1) ->
  wp load_session Q I w.
Proof.
  intros HI HQ. unfold load_session. wp1. apply wp_session_file; [by apply HI|].
  wp1. unfold path_exists. unfold wp at 1. cbn. destruct (io_tables w) as [data|] eqn:Ew; cbn.
  - wp; [by apply HI| |].
    + intros s Hs. apply HQ; [done..|]. exists s. split; [done|]. cbn in Hs. rewrite Ew in Hs. cbn in Hs.
      destruct (session_from_str data); [|done]. by injection Hs as ->.
    + intros e He. cbn in He. rewrite Ew in He. cbn in He. destruct (session_from_str data); [done|].
      injection He as <-. by apply HI.
  - apply wp_ret. by apply HQ.
Qed.

(** ** The token of a command *)

(** What the token endpoint answered to a request. *)
Definition granted (r : CliRequest) (at_ : Z) (token : TokenResponse) : Prop :=
  exists status text v, (net_send at_ r).2 = Ok (status, Ok text) /\ is_error_status status = false /\
    json_parse text = Ok v /\ token_from_json v = Ok token.

Definition renewed (s : AuthSession) (w w' : CliWorld) (t : string) : Prop :=
  exists refresh at_ token later,
    se_refresh_token s = Some refresh /\ granted (refresh_request s refresh) at_ token /\ t = tr_access_token token /\
    is_expired s at_ = true /\ at_ <= later <= io_now w' /\
    io_trace w' = io_trace w ++ [Sent at_ (refresh_request s refresh)] /\
    io_tables w' = Some (session_text (build_session_from_token s token later)) /\
    (later <= i64_max -> session_from_str (session_text (build_session_from_token s token later)) =
                         Ok (build_session_from_token s token later)).

Definition from_store (w : CliWorld) (t : string) (w' : CliWorld) : Prop :=
  exists data s, io_tables w = Some data /\ session_from_str data = Ok s /\
    (is_expired s (io_now w') = false /\ t = se_access_token s /\ io_tables w' = io_tables w /\ io_trace w' = io_trace w \/
     renewed s w w' t).

Lemma wp_refresh s refresh Q I (w : CliWorld) :
  se_refresh_token s = Some refresh ->
  (forall token, granted (refresh_request s refresh) (io_now w) token ->
     Q (build_session_from_token s token (io_now (after_send (refresh_request s refresh) w))) (after_send (refresh_request s refresh) w)) ->
  (forall m, I (Failed m) (after_send (refresh_request s refresh) w)) -> wp (refresh_session s) Q I w.
Proof.
  intros Hr HQ HI. unfold refresh_session. rewrite Hr. wp1. apply wp_send; [|by intros e _; apply HI].
  intros [status body] Hs. unfold error_for_status. cbn. wp1. wp1; [apply wp_failed, HI|].
  wp1. wp1. apply wp_read_json; [|intros; by apply HI]. intros text v token -> Hp Hd. wp. apply HQ. by exists status, text, v.
Qed.

Lemma stored_token_spec (w : CliWorld) :
  wp stored_token (fun t w' => exists token, t = Some token /\ from_store w token w')
    (fun e w' => e <> OutOfFuel /\ io_tables w' = io_tables w) w.
Proof.
  unfold stored_token. wp1. apply wp_load; [by intros; split|]. intros o w1 Ht1 Hf1 Ho.
  destruct (io_tables w) as [data|] eqn:Ew; [|subst o; by apply wp_failed]. destruct Ho as (s & -> & Hs).
  wp1. wp1. wp1.
  2: { wp1. eexists. split; [done|]. exists data, s. split_and!; [done..|]. left. split_and!; [done|done|congruence|done]. }
  destruct (se_refresh_token s) as [refresh|] eqn:Er; [|apply wp_failed; split; [done|congruence]].
  wp1. apply (wp_refresh s refresh); [done| |by intros; split; cbn; congruence]. intros token Hg. wp1.
  apply wp_save; [intros w2 _ ->; cbn; split; [done|congruence]|]. intros w2 Ht2 Hn2 Hf2. wp1. eexists. split; [done|].
  exists data, s. split_and!; [done..|]. right.
  exists refresh, (io_now w1), token, (io_now (after_send (refresh_request s refresh) w1)). split_and!; [done|done|done|done|cbn; lia|exact Hn2|by rewrite Ht2; cbn; rewrite Ht1|done|].
  intros Hl. apply session_text_round_trip, build_session_ok; [by eapply session_from_str_ok|done].
Qed.

(** The token a command sends is the one it was given, or that of the stored session: as it is
    when it has more than a minute to live, and otherwise renewed by one request to the endpoint
    that issued it, and then the file holds the session built from the answer, which is read back
    as it was written.  An error leaves the file. *)
Theorem resolved_token_current cli w :
  match resolve_token cli w with
  | (Ok t, w') =>
      exists token, t = Some token /\
        (cli = Some token /\ is_empty (trim token) = false /\ w' = w \/
         (forall c, cli = Some c -> is_empty (trim c) = true) /\ from_store w token w')
  | (Err e, w') => e <> OutOfFuel /\ io_tables w' = io_tables w
  end.
Proof.
  unfold resolve_token. pose proof (stored_token_spec w) as H. unfold wp in H.
  destruct cli as [c|]; [destruct (is_empty (trim c)) eqn:Ec; cbn [negb]|].
  - destruct (stored_token w) as [[t|e] w']; [|done]. destruct H as (token & -> & H). exists token. split; [done|].
    right. split; [by intros ? [= <-]|done].
  - cbn. exists c. split; [done|by left].
  - destruct (stored_token w) as [[t|e] w']; [|done]. destruct H as (token & -> & H). exists token. split; [done|by right].
Qed.

(** A renewed session lives for the seconds the answer gives it. *)
Lemma renewed_session_lives base token now ttl t :
  tr_expires_in token = Some ttl -> 0 <= ttl -> 0 <= now -> now + ttl <= i64_max ->
  is_expired (build_session_from_token base token now) t = false <-> current_timestamp t + 60 < current_timestamp now + ttl.
Proof.
  intros Ht H0 Hn Hm. unfold is_expired, build_session_from_token. cbn. rewrite Ht. cbn.
  assert (0 <= current_timestamp now <= now) as Hc.
  { unfold current_timestamp. split; [lia|]. apply Z.max_lub; [lia|]. apply Z.div_le_upper_bound; lia. }
  rewrite (as_i64_small ttl), as_i64_small by lia. rewrite bool_decide_eq_false. lia.
Qed.
(** Without a lifetime in the answer it keeps the time of expiry of the session it replaces: it
    has expired already. *)
Lemma renewed_without_lifetime base token now t :
  tr_expires_in token = None -> is_expired (build_session_from_token base token now) t = is_expired base t.
Proof. intros Ht. unfold is_expired, build_session_from_token. cbn. by rewrite Ht. Qed.

(** ** The device login *)

(** The error of an answer to a poll. *)
Definition poll_error (r : CliRequest) (at_ : Z) : option string :=
  match (net_send at_ r).2 with
  | Ok (400, Ok text) => result_ok (v ← json_parse text; fst <$> device_error_from_json v)
  | _ => None
  end.
(** Polls are an interval apart, and every [slow_down] makes it five seconds longer from then on. *)
Fixpoint paced (r : CliRequest) (interval : Z) (polls : list Z) : Prop :=
  match polls with
  | [] => True
  | t :: polls' =>
      let interval' := if decide (poll_error r t = Some "slow_down") then interval + 5 else interval in
      match polls' with [] => True | t' :: _ => t + interval' * 1000 <= t' end /\ paced r interval' polls'
  end.
Definition poll_run (r : CliRequest) (interval now deadline : Z) (polls : list Z) : Prop :=
  paced r interval polls /\ Forall (fun t => now <= t < deadline) polls /\
  Z.of_nat (length polls) * 1000 <= Z.max 0 (deadline - now) + 999.

Lemma poll_run_nil r interval now deadline : poll_run r interval now deadline [].
Proof. unfold poll_run. split_and!; [done|done|cbn; lia]. Qed.
Lemma poll_run_one r interval now deadline : now < deadline -> poll_run r interval now deadline [now].
Proof. intros H. unfold poll_run. split_and!; [done|constructor; [lia|done]|cbn; lia]. Qed.
Lemma poll_run_cons r interval now deadline later polls :
  let interval' := if decide (poll_error r now = Some "slow_down") then interval + 5 else interval in
  1 <= interval -> now < deadline -> now + interval' * 1000 <= later -> poll_run r interval' later deadline polls ->
  poll_run r interval now deadline (now :: polls).
Proof.
  intros interval' Hi Hd Hl (Hp & Hf & Hn).
  assert (1 <= interval') by (unfold interval'; case_decide; lia). unfold poll_run. split_and!.
  - cbn. fold interval'. split; [|done]. destruct polls as [|t polls]; [done|]. inversion Hf. lia.
  - constructor; [lia|]. eapply Forall_impl; [exact Hf|]. cbn. lia.
  - cbn [length]. lia.
Qed.

Definition logged_in (cfg : DeviceFlowConfig) (r : CliRequest) (polls : list Z) (w w' : CliWorld) : Prop :=
  exists at_ token later, last polls = Some at_ /\ granted r at_ token /\ at_ <= later /\
    io_trace w' = io_trace w ++ ((fun t => Sent t r) <$> polls) ++ [Println "Authentication successful. Tokens stored."] /\
    io_tables w' = Some (session_text (login_session cfg token later)).

Lemma wp_pause {E} ms Q (I : E -> CliWorld -> Prop) w :
  Q tt (mkIo (io_now w + ms) (io_tx w) (io_faults w) (io_next_uuid w) (io_trace w) (io_tables w)) -> wp (pause ms) Q I w.
Proof. done. Qed.
Lemma wp_finish_login cfg body Q I (w : CliWorld) :
  (forall e w1, io_trace w1 = io_trace w -> io_tables w1 = io_tables w -> I (Failed e) w1) ->
  (forall text v token w1, body = Ok text -> json_parse text = Ok v -> token_from_json v = Ok token ->
     io_trace w1 = io_trace w ++ [Println "Authentication successful. Tokens stored."] ->
     io_tables w1 = Some (session_text (login_session cfg token (io_now w))) -> Q tt w1) ->
  wp (finish_login cfg body) Q I w.
Proof.
  intros HI HQ. unfold finish_login. wp1. apply wp_read_json; [|intros; by apply HI]. intros text v token Hb Hp Hd.
  wp1. wp1. wp1. apply wp_save; [intros; by apply HI|]. intros w1 Ht1 _ Hf1. apply wp_emit. eapply HQ; [done..| |done].
  cbn. by rewrite Ht1.
Qed.

(** A poll that is answered with an error of the device flow. *)
Lemma poll_error_at r at_ body text v err :
  (net_send at_ r).2 = Ok (400, body) -> body = Ok text -> json_parse text = Ok v -> device_error_from_json v = Ok err ->
  poll_error r at_ = Some err.1.
Proof. intros Hs -> Hp Hd. unfold poll_error. rewrite Hs, Hp. cbn. by rewrite Hd. Qed.

Definition poll_ends cfg r interval deadline (w : CliWorld) (answer : result CliError unit) (w' : CliWorld) : Prop :=
  exists polls, poll_run r interval (io_now w) deadline polls /\
    match answer with
    | Ok _ => logged_in cfg r polls w w'
    | Err e => e <> OutOfFuel /\ io_tables w' = io_tables w /\ io_trace w' = io_trace w ++ ((fun t => Sent t r) <$> polls)
    end.

Lemma poll_ends_now cfg r interval deadline w e w' :
  e <> OutOfFuel -> io_tables w' = io_tables w -> io_trace w' = io_trace w -> poll_ends cfg r interval deadline w (Err e) w'.
Proof. intros He Hf Ht. exists []. split; [apply poll_run_nil|]. split_and!; [done..|]. by rewrite app_nil_r. Qed.
Lemma poll_ends_failed cfg r interval deadline w m w' :
  io_now w < deadline -> io_tables w' = io_tables w -> io_trace w' = io_trace w ++ [Sent (io_now w) r] ->
  poll_ends cfg r interval deadline w (Err (Failed m)) w'.
Proof. intros Hd Hf Ht. exists [io_now w]. split; [by apply poll_run_one|]. by split_and!. Qed.
(** One more round. *)
Lemma poll_ends_later cfg r interval interval' deadline w w1 answer w' :
  interval' = (if decide (poll_error r (io_now w) = Some "slow_down") then interval + 5 else interval) ->
  1 <= interval -> io_now w < deadline -> io_now w + interval' * 1000 <= io_now w1 ->
  io_tables w1 = io_tables w -> io_trace w1 = io_trace w ++ [Sent (io_now w) r] ->
  poll_ends cfg r interval' deadline w1 answer w' -> poll_ends cfg r interval deadline w answer w'.
Proof.
  intros -> Hi Hd Hl Hf Ht (polls & Hp & Hend). exists (io_now w :: polls). split; [by eapply poll_run_cons|].
  destruct answer as [[]|e].
  - destruct Hend as (at_ & token & later & Hlast & Hg & Hle & Htr & Htab). exists at_, token, later.
    split_and!; [|done|done| |done]; [destruct polls; [done|by rewrite last_cons_cons]|]. rewrite Htr, Ht. by rewrite <- app_assoc.
  - destruct Hend as (He & Htab & Htr). split_and!; [done|congruence|]. rewrite Htr, Ht. by rewrite <- app_assoc.
Qed.

Lemma poll_token_ends cfg r deadline fuel : forall interval w,
  1 <= interval -> deadline - io_now w <= (Z.of_nat fuel - 1) * 1000 -> (0 < fuel)%nat ->
  wp (poll_token fuel cfg r interval deadline) (fun a => poll_ends cfg r interval deadline w (Ok a))
     (fun e => poll_ends cfg r interval deadline w (Err e)) w.
Proof.
  induction fuel as [|fuel IH]; intros interval w Hi Hfuel Hpos; [lia|]. cbn [poll_token]. wp1. wp1.
  case_decide as Hd; [by apply wp_failed, poll_ends_now|]. apply Z.nle_gt in Hd. assert (0 < fuel)%nat as Hpos' by lia.
  wp1. apply wp_send; [|intros e _; by apply poll_ends_failed]. intros [status body] Hs.
  wp1; cbn [fst snd].
  - apply wp_finish_login; [intros e w1 H1 H2; apply poll_ends_failed; [done|by rewrite H2|by rewrite H1]|].
    intros text v token w1 -> Hp Ht Htr Htab. exists [io_now w]. split; [by apply poll_run_one|].
    exists (io_now w), token, (io_now (after_send r w)). split_and!; [done| |cbn; lia| |done].
    + exists status, text, v. split_and!; [done| |done|done]. by apply success_no_error.
    + rewrite Htr. cbn. by rewrite <- app_assoc.
  - case_decide as E; [subst status|by apply wp_failed, poll_ends_failed].
    wp1. apply wp_read_json; [|intros; by apply poll_ends_failed]. intros text v err Hb Hp He.
    pose proof (poll_error_at _ _ _ _ _ _ Hs Hb Hp He) as Herr.
    case_decide as E1; [|case_decide as E2; [|case_decide; by apply wp_failed, poll_ends_failed]].
    + wp1. apply wp_pause. eapply wp_weaken; [apply IH; cbn; [done|lia|done]|..]; cbn beta;
        (intros a w' Hend; eapply (poll_ends_later _ _ interval interval); [..|exact Hend]; [by rewrite Herr, E1|done|done|cbn; lia|done|done]).
    + wp1. apply wp_pause. eapply wp_weaken; [apply IH; cbn; [lia|lia|done]|..]; cbn beta;
        (intros a w' Hend; eapply (poll_ends_later _ _ interval (interval + 5)); [..|exact Hend]; [by rewrite Herr, E2|done|done|cbn; lia|done|done]).
Qed.

Definition login_ends (cfg : DeviceFlowConfig) (w : CliWorld) (answer : result CliError unit) (w' : CliWorld) : Prop :=
  let request := device_code_request cfg in
  (exists m, answer = Err (Failed m)) /\ io_tables w' = io_tables w /\ io_trace w' = io_trace w ++ [Sent (io_now w) request] \/
  exists device polls w1,
    let poll := device_token_request cfg (dc_device_code device) in
    io_tables w1 = io_tables w /\
    io_trace w1 = io_trace w ++
      [Sent (io_now w) request; Println ("Open " +:+ default (dc_verification_uri device) (dc_verification_uri_complete device));
       Println ("Enter code: " +:+ dc_user_code device)] /\
    paced poll (Z.max (dc_interval device) 1) polls /\
    Forall (fun t => io_now w1 <= t < io_now w1 + dc_expires_in device * 1000) polls /\
    Z.of_nat (length polls) <= dc_expires_in device /\
    match answer with
    | Ok _ => logged_in cfg poll polls w1 w'
    | Err _ => io_tables w' = io_tables w /\ io_trace w' = io_trace w1 ++ ((fun t => Sent t poll) <$> polls)
    end.

Lemma device_expires v device : device_from_json v = Ok device -> 0 <= dc_expires_in device.
Proof.
  unfold device_from_json. intros H.
  repeat match type of H with _ ≫= _ = Ok _ => let x := fresh "x" in let Hx := fresh "Hx" in apply bind_Ok in H as (x & Hx & H) end.
  injection H as <-. cbn. by eapply required_u64.
Qed.

Lemma login_ends_always cfg w :
  wp (perform_device_login cfg) (fun a => login_ends cfg w (Ok a)) (fun e w' => e <> OutOfFuel /\ login_ends cfg w (Err e) w') w.
Proof.
  unfold perform_device_login. wp1. apply wp_send; [|intros e _; split; [done|left; eauto]]. intros [status body] Hs.
  assert (forall m, Failed m <> OutOfFuel /\ login_ends cfg w (Err (Failed m)) (after_send (device_code_request cfg) w)) as Hfail
    by (intros m; split; [done|left; eauto]).
  unfold error_for_status. cbn [fst snd]. wp1. wp1; [by apply wp_failed|]. wp1. wp1. apply wp_read_json; [|done].
  intros text v device _ _ Hd%device_expires. unfold println. do 6 wp1. set (w1 := told _ (told _ (after_send _ w))).
  assert (io_trace w1 = io_trace w ++
    [Sent (io_now w) (device_code_request cfg); Println ("Open " +:+ default (dc_verification_uri device) (dc_verification_uri_complete device));
     Println ("Enter code: " +:+ dc_user_code device)]) as Htr by (cbn; by rewrite <- !app_assoc).
  eapply wp_weaken; [apply poll_token_ends; lia|..]; cbn beta.
  - intros [] w' (polls & (H1 & H2 & H3) & Hend). right. exists device, polls, w1. split_and!; [done..| |done]. lia.
  - intros e w' (polls & (H1 & H2 & H3) & He & Hf & Ht). split; [done|]. right. exists device, polls, w1. split_and!; [done..|lia|done|done].
Qed.

(** C37: A device login ends: within the seconds the device code lives there is at most one poll per
    second, the polls are as far apart as the provider asked for, five seconds more after every
    [slow_down], and none is later than the code.  Only an approval changes the session file: it
    then holds the session of the answer to the last poll, for the scope that was asked for; any
    error leaves it. *)
Theorem device_login_ends cfg w :
  let '(answer, w') := perform_device_login cfg w in answer <> Err OutOfFuel /\ login_ends cfg w answer w'.
Proof.
  pose proof (login_ends_always cfg w) as H. unfold wp in H.
  destruct (perform_device_login cfg w) as [[[]|e] w']; [done|]. destruct H as [He H]. split; [by intros [= ->]|done].
Qed.
End Sessions.
