(* ===== verification/OdctlQueue.v ===== *)
(** * odctl: dead letters

    [odctl queue dlq] of [cli/odctl/src/main.rs]: listing the dead letters of a stream, replaying
    them to another stream and dropping them; with the dead letters that the LLM worker and the page
    fetcher write ([publish_dead_letter] of both), and the tables the command line prints.

    Redis is the parameter [RedisStreams], with the documented behaviour of [XADD], [XDEL] and
    [XREVRANGE] in [StreamLaws].  Any command may fail, and then changes nothing. *)

From S2P Require Import Prelude RustStr RustNum Json Db Io Wp Texts.

Local Open Scope Z_scope.

(** ** Streams *)

Abbreviation Fields := (list (string * string)).
Abbreviation StreamEntry := (string * Fields)%type.

Class RedisStreams (S : Type) := {
  (** the entries of a stream, the oldest first *)
  entries : S -> string -> list StreamEntry;
  (** the ids a stream has given out, those of deleted entries included *)
  issued : S -> string -> string -> Prop;
  (** [XADD stream * field value ..] at a time, [XDEL stream id], [XREVRANGE stream + - COUNT n] *)
  xadd : Z -> string -> Fields -> S -> string * S;
  xdel : string -> string -> S -> Z * S;
  xrevrange : string -> Z -> S -> list StreamEntry
}.

Class StreamLaws (S : Type) `{!RedisStreams S} := {
  entries_issued s k e : e ∈ entries s k -> issued s k e.1;
  entries_unique s k : NoDup (entries s k).*1;
  xadd_entries now k f s k' : entries (xadd now k f s).2 k' =
    if decide (k' = k) then entries s k ++ [((xadd now k f s).1, f)] else entries s k';
  xadd_fresh now k f s : ~ issued s k (xadd now k f s).1;
  xadd_issued now k f s k' id : issued (xadd now k f s).2 k' id <-> issued s k' id \/ k' = k /\ id = (xadd now k f s).1;
  xdel_entries k id s k' : entries (xdel k id s).2 k' =
    if decide (k' = k) then List.filter (fun e => negb (bool_decide (e.1 = id))) (entries s k) else entries s k';
  xdel_count k id s : (xdel k id s).1 = if decide (id ∈ (entries s k).*1) then 1 else 0;
  xdel_issued k id s k' id' : issued (xdel k id s).2 k' id' <-> issued s k' id';
  xrevrange_newest k n s : 0 < n -> xrevrange k n s = take (Z.to_nat n) (reverse (entries s k))
}.

(** ** Printing *)

Inductive QueueEffect :=
  | Println (line : string)
  | PrintJson (value : Json).

(** [str::chars().count()]: the bytes that begin a character. *)
Fixpoint chars_count (s : string) : nat :=
  match s with "" => O | String c s' => (if continuation_byte c then 0 else 1) + chars_count s' end.
Fixpoint repeat_str (s : string) (n : nat) : string := match n with O => "" | S n' => s +:+ repeat_str s n' end.
(** [{:width$}]. *)
Definition pad (width : nat) (s : string) : string := s +:+ repeat_str " " (width - chars_count s).

Definition widen (widths : list nat) (row : list string) : list nat :=
  zip_with Nat.max widths (str_len <$> row) ++ drop (length row) widths.
Definition table_widths (headers : list string) (rows : list (list string)) : list nat :=
  foldl widen (str_len <$> headers) rows.
Definition table_line (widths : list nat) (cells : list string) : string :=
  foldl (fun line wc => line +:+ "| " +:+ pad wc.1 wc.2 +:+ " ") "" (zip widths cells) +:+ "|".
Definition table_divider (widths : list nat) : string :=
  foldl (fun line w => line +:+ "|-" +:+ repeat_str "-" w +:+ "-") "" widths +:+ "|".
Definition print_table (headers : list string) (rows : list (list string)) : list string :=
  match rows with
  | [] => ["(no rows)"]
  | _ =>
      let widths := table_widths headers rows in
      [table_line widths headers; table_divider widths] ++ (table_line widths <$> rows)
  end.

(** ** Dead letters *)

Section DeadLetters.
  Context `{X : Texts} (from_timestamp_millis : Z -> option Z).

Definition entry_id_timestamp_iso8601 (entry_id : string) : option string :=
  '(millis, _) ← split_once "-" entry_id;
  ts_ms ← parse_i64 millis;
  dt ← from_timestamp_millis ts_ms;
  Some (to_rfc3339 dt).

Definition dead_letter (source_stream entry_id reason : string) (delivery_count : Z) (trace_id payload : option string) (now : Z)
    : Fields :=
  [("source_stream", source_stream); ("entry_id", entry_id); ("reason", reason); ("delivery_count", pretty delivery_count);
   ("first_seen_at", default "" (entry_id_timestamp_iso8601 entry_id)); ("last_seen_at", to_rfc3339 now);
   ("trace_id", default "" trace_id); ("payload", default "" payload)].

End DeadLetters.

(** [StreamId::get::<String>]: the last value of a field. *)
Definition get_field (name : string) (fields : Fields) : option string :=
  snd <$> find_first (fun f => bool_decide (f.1 = name)) (reverse fields).

(** What a worker takes from an entry. *)
Definition entry_payload (e : StreamEntry) : option string := get_field "payload" e.2.

Record DlqEntry := {
  dl_id : string; dl_source_stream : string; dl_reason : string; dl_trace_id : option string; dl_payload : option string
}.
Definition non_blank (value : string) : option string := if is_empty (trim value) then None else Some value.
Definition to_dlq_entry (e : StreamEntry) : DlqEntry :=
  {| dl_id := e.1; dl_source_stream := default "unknown" (get_field "source_stream" e.2);
     dl_reason := default "unknown" (get_field "reason" e.2); dl_trace_id := get_field "trace_id" e.2 ≫= non_blank;
     dl_payload := get_field "payload" e.2 ≫= non_blank |}.
Definition dlq_to_json (e : DlqEntry) : Json :=
  JObj [("id", JStr (dl_id e)); ("source_stream", JStr (dl_source_stream e)); ("reason", JStr (dl_reason e));
        ("trace_id", json_opt JStr (dl_trace_id e)); ("payload", json_opt JStr (dl_payload e))].

Definition ensure_explicit_scope (reason source_stream : option string) : result string unit :=
  match reason, source_stream with
  | None, None => Err "explicit scope required: pass --reason and/or --source-stream"
  | _, _ => Ok tt
  end.
Definition in_scope (reason source_stream : option string) (e : DlqEntry) : bool :=
  match reason with Some value => eq_ignore_ascii_case (dl_reason e) value | None => true end &&
  match source_stream with Some value => eq_ignore_ascii_case (dl_source_stream e) value | None => true end.
Definition filter_dlq_entries (l : list DlqEntry) (reason source_stream : option string) : list DlqEntry :=
  List.filter (in_scope reason source_stream) l.

Inductive DlqCmd :=
  | DlqList (stream : string) (count : Z)
  | DlqReplay (stream target_stream : string) (reason source_stream : option string) (count : Z) (execute : bool)
  | DlqDrop (stream : string) (reason source_stream : option string) (count : Z) (execute : bool).

Section Queue.
  Context {St : Type} `{R : !RedisStreams St}.
  Abbreviation QM := (M St QueueEffect string).

(** [Client::open] and [get_async_connection]. *)
Definition connect : QM unit := step (fun w => (tt, w)).

Definition fetch_dlq_entries (stream : string) (count : Z) : QM (list DlqEntry) :=
  _ ← connect;
  reply ← fetch (fun _ s => xrevrange stream (as_i64 (Z.max count 1)) s);
  mret (to_dlq_entry <$> reply).

Fixpoint replay_each (stream target_stream : string) (l : list DlqEntry) (replayed : Z) : QM Z :=
  match l with
  | [] => mret replayed
  | e :: l' =>
      match dl_payload e with
      | Some payload =>
          _ ← sql (fun now s => xadd now target_stream [("payload", payload)] s);
          _ ← sql (fun _ s => xdel stream (dl_id e) s);
          replay_each stream target_stream l' (saturating_add replayed 1)
      | None => replay_each stream target_stream l' replayed
      end
  end.
Definition replay_dlq_entries (stream target_stream : string) (l : list DlqEntry) : QM Z :=
  _ ← connect; replay_each stream target_stream l 0.

Fixpoint drop_each (stream : string) (l : list DlqEntry) (dropped : Z) : QM Z :=
  match l with
  | [] => mret dropped
  | e :: l' =>
      removed ← sql (fun _ s => xdel stream (dl_id e) s);
      drop_each stream l' (if decide (0 < removed) then saturating_add dropped 1 else dropped)
  end.
Definition drop_dlq_entries (stream : string) (l : list DlqEntry) : QM Z :=
  _ ← connect; drop_each stream l 0.

Definition say (line : string) : QM unit := emit (Println line).
Fixpoint say_all (ls : list string) : QM unit := match ls with [] => mret tt | l :: ls' => _ ← say l; say_all ls' end.
Definition count_text (l : list DlqEntry) : string := pretty (length l).

Definition dlq_row (e : DlqEntry) : list string :=
  [dl_id e; dl_source_stream e; dl_reason e; default "-" (dl_trace_id e)].

Definition handle_queue (cmd : DlqCmd) (json : bool) : QM unit :=
  match cmd with
  | DlqList stream count =>
      found ← fetch_dlq_entries stream count;
      if json then emit (PrintJson (JArr (dlq_to_json <$> found)))
      else
        match found with
        | [] => say ("No DLQ entries found in " +:+ stream)
        | _ => say_all (print_table ["ID"; "Source"; "Reason"; "Trace"] (dlq_row <$> found))
        end
  | DlqReplay stream target_stream reason source_stream count execute =>
      _ ← of_result (ensure_explicit_scope reason source_stream);
      found ← fetch_dlq_entries stream count;
      let filtered := filter_dlq_entries found reason source_stream in
      if negb execute
      then say ("dry-run: " +:+ count_text filtered +:+ " DLQ entries match replay scope to stream " +:+ target_stream +:+
                " (pass --execute to apply)")
      else
        replayed ← replay_dlq_entries stream target_stream filtered;
        say ("replayed " +:+ pretty replayed +:+ " DLQ entries to " +:+ target_stream)
  | DlqDrop stream reason source_stream count execute =>
      _ ← of_result (ensure_explicit_scope reason source_stream);
      found ← fetch_dlq_entries stream count;
      let filtered := filter_dlq_entries found reason source_stream in
      if negb execute
      then say ("dry-run: " +:+ count_text filtered +:+ " DLQ entries match drop scope in " +:+ stream +:+
                " (pass --execute to apply)")
      else
        dropped ← drop_dlq_entries stream filtered;
        say ("dropped " +:+ pretty dropped +:+ " DLQ entries from " +:+ stream)
  end.

End Queue.

(** ** What replaying and dropping do *)

(** The dead letters a command is about: among the newest ones, those of the scope. *)
Definition chosen `{RedisStreams St} (s : St) (stream : string) (reason source_stream : option string) (count : Z) : list DlqEntry :=
  filter_dlq_entries (to_dlq_entry <$> take (Z.to_nat (as_i64 (Z.max count 1))) (reverse (entries s stream))) reason source_stream.
(** Those that can be replayed, with their payloads. *)
Definition replayable (l : list DlqEntry) : list (string * string) := omap (fun e => pair (dl_id e) <$> dl_payload e) l.
Definition without (ids : list string) (l : list StreamEntry) : list StreamEntry :=
  List.filter (fun e => negb (bool_decide (e.1 ∈ ids))) l.

Lemma without_nil l : without [] l = l.
Proof. apply filter_all. intros x _. apply negb_true_iff, bool_decide_eq_false. set_solver. Qed.
Lemma without_cons id ids l :
  without ids (List.filter (fun e => negb (bool_decide (e.1 = id))) l) = without (id :: ids) l.
Proof.
  unfold without. induction l as [|e l IH]; [done|]. cbn.
  destruct (decide (e.1 = id)) as [E|E]; [rewrite (bool_decide_eq_true_2 (e.1 = id)) by done; cbn|
    rewrite (bool_decide_eq_false_2 (e.1 = id)) by done; cbn].
  - rewrite (bool_decide_eq_true_2 (e.1 ∈ id :: ids)) by (rewrite E; by left). done.
  - rewrite (bool_decide_ext (e.1 ∈ id :: ids) (e.1 ∈ ids)) by set_solver. by rewrite IH.
Qed.
Lemma elem_of_without ids l e : e ∈ without ids l <-> e ∈ l /\ e.1 ∉ ids.
Proof. unfold without. rewrite list_elem_of_In, filter_In, <- list_elem_of_In, negb_true_iff, bool_decide_eq_false. done. Qed.

Section Effects.
  Context {St : Type} `{R : !RedisStreams St} `{L : !StreamLaws St}.
  Abbreviation QWorld := (Io St QueueEffect).

(** From [s] to [s'], the payloads of [added] were appended to [target] and the entries of [deleted]
    taken from [stream]; no other stream changed. *)
Record moved (stream target : string) (s s' : St) (added deleted : list (string * string)) : Prop := {
  moved_added : exists new, entries s' target = entries s target ++ new /\ new.*2 = (fun m => [("payload", m.2)]) <$> added;
  moved_deleted : entries s' stream = without deleted.*1 (entries s stream);
  moved_others k : k <> stream -> k <> target -> entries s' k = entries s k
}.

Lemma moved_refl stream target s : moved stream target s s [] [].
Proof. split; [exists []; by rewrite app_nil_r|by rewrite without_nil|done]. Qed.
Lemma moved_add stream target s now p id :
  target <> stream -> moved stream target s (xadd now target [("payload", p)] s).2 [(id, p)] [].
Proof.
  intros Hne. split.
  - exists [((xadd now target [("payload", p)] s).1, [("payload", p)])]. by rewrite xadd_entries, decide_True.
  - by rewrite xadd_entries, decide_False, without_nil.
  - intros k H1 H2. by rewrite xadd_entries, decide_False.
Qed.
Lemma moved_del stream target s id p :
  target <> stream -> moved stream target s (xdel stream id s).2 [] [(id, p)].
Proof.
  intros Hne. split.
  - exists []. by rewrite xdel_entries, decide_False, app_nil_r.
  - rewrite xdel_entries, decide_True by done. cbn. by rewrite <- without_cons, without_nil.
  - intros k H1 H2. by rewrite xdel_entries, decide_False.
Qed.
Lemma without_app ids ids' l : without ids' (without ids l) = without (ids ++ ids') l.
Proof.
  revert l. induction ids as [|id ids IH]; intros l; [by rewrite without_nil|].
  cbn. by rewrite <- without_cons, IH, without_cons.
Qed.
Lemma moved_trans stream target s s1 s2 a1 a2 d1 d2 :
  moved stream target s s1 a1 d1 -> moved stream target s1 s2 a2 d2 -> moved stream target s s2 (a1 ++ a2) (d1 ++ d2).
Proof.
  intros [(n1 & E1 & N1) D1 O1] [(n2 & E2 & N2) D2 O2]. split.
  - exists (n1 ++ n2). split; [by rewrite E2, E1, app_assoc|]. by rewrite !fmap_app, N1, N2.
  - by rewrite D2, D1, without_app, fmap_app.
  - intros k H1 H2. by rewrite O2, O1.
Qed.
Lemma moved_one stream target s now id p :
  target <> stream ->
  moved stream target s (xdel stream id (xadd now target [("payload", p)] s).2).2 [(id, p)] [(id, p)].
Proof.
  intros Hne. change [(id, p)] with ([(id, p)] ++ []) at 1. change [(id, p)] with ([] ++ [(id, p)]) at 2.
  eapply moved_trans; [by apply moved_add|by apply moved_del].
Qed.

(** A prefix was moved; the last of it may be in both streams. *)
Definition partly_moved (stream target : string) (s s' : St) (ms : list (string * string)) (k d : nat) : Prop :=
  (d <= k <= S d)%nat /\ (k <= length ms)%nat /\ moved stream target s s' (take k ms) (take d ms).
Lemma partly_moved_none stream target s ms : partly_moved stream target s s ms 0 0.
Proof. split_and!; [lia..|]. apply moved_refl. Qed.
Lemma partly_moved_cons stream target s s1 s2 m ms k d :
  moved stream target s s1 [m] [m] -> partly_moved stream target s1 s2 ms k d ->
  partly_moved stream target s s2 (m :: ms) (S k) (S d).
Proof.
  intros H1 (Hkd & Hk & H2). split_and!; [lia..|cbn; lia|]. cbn [take].
  change (m :: take k ms) with ([m] ++ take k ms). change (m :: take d ms) with ([m] ++ take d ms). by eapply moved_trans.
Qed.

Lemma sat_step n a : is_u64 n -> 0 <= a -> sat64 (saturating_add n 1 + a) = sat64 (n + Z.succ a).
Proof. unfold is_u64, saturating_add, sat64, u64_max. lia. Qed.

Lemma replay_each_moves stream target l : target <> stream -> forall n (w : QWorld),
  is_u64 n ->
  wp (replay_each stream target l n)
    (fun n' w' => n' = sat64 (n + Z.of_nat (length (replayable l))) /\ io_trace w' = io_trace w /\
       partly_moved stream target (io_tables w) (io_tables w') (replayable l) (length (replayable l)) (length (replayable l)))
    (fun _ w' => io_trace w' = io_trace w /\
       exists k d, partly_moved stream target (io_tables w) (io_tables w') (replayable l) k d) w.
Proof.
  intros Hne. induction l as [|e l IH]; intros n w Hn; cbn [replay_each].
  { apply wp_ret. split_and!; [by rewrite Z.add_0_r, sat64_id|done|apply partly_moved_none]. }
  unfold replayable. cbn [omap list_omap]. destruct (dl_payload e) as [p|]; cbn [fmap option_fmap option_map]; [|by apply IH].
  fold (replayable l). wp1. apply wp_sql; [split; [done|exists 0%nat, 0%nat; apply partly_moved_none]|].
  set (w1 := with_tables _ _). wp1. apply wp_sql.
  { split; [done|]. exists 1%nat, 0%nat. split_and!; [lia..|cbn; lia|]. cbn. by apply moved_add. }
  set (w2 := with_tables _ _).
  assert (moved stream target (io_tables w) (io_tables w2) [(dl_id e, p)] [(dl_id e, p)]) as Hm by by apply moved_one.
  eapply wp_weaken; [apply IH, sat64_range|..]; cbn beta.
  - intros n' w' (Hn' & Ht & Hp). split_and!; [|by rewrite Ht|by eapply partly_moved_cons].
    rewrite Hn', sat_step by (done || lia). f_equal. cbn [length]. lia.
  - intros _ w' (Ht & k & d & Hp). split; [by rewrite Ht|]. exists (S k), (S d). by eapply partly_moved_cons.
Qed.

Lemma wp_connect Q I (w : QWorld) : I DB_ERROR (elapse w) -> Q tt (elapse w) -> wp connect Q I w.
Proof. intros HI HQ. by apply wp_step. Qed.
Lemma wp_fetch_dlq stream reason source_stream count Q I (w : QWorld) :
  0 < as_i64 (Z.max count 1) ->
  (forall w1, io_trace w1 = io_trace w -> io_tables w1 = io_tables w -> I DB_ERROR w1) ->
  (forall found w1, io_trace w1 = io_trace w -> io_tables w1 = io_tables w ->
     filter_dlq_entries found reason source_stream = chosen (io_tables w) stream reason source_stream count -> Q found w1) ->
  wp (fetch_dlq_entries stream count) Q I w.
Proof.
  intros Hc HI HQ. unfold fetch_dlq_entries. wp1. apply wp_connect; [by apply HI|]. wp; [by apply HI|].
  apply HQ; [done..|]. unfold chosen. by rewrite xrevrange_newest.
Qed.

(** A dead letter that is gone was delivered. *)
Lemma replayable_elem l m : m ∈ replayable l <-> exists e, e ∈ l /\ dl_id e = m.1 /\ dl_payload e = Some m.2.
Proof.
  unfold replayable. rewrite list_elem_of_omap. split.
  - intros (e & He & Hm). exists e. destruct (dl_payload e) as [p|]; [|done]. cbn in Hm. by injection Hm as <-.
  - intros (e & He & Hid & Hp). exists e. split; [done|]. rewrite Hp, Hid. cbn. by destruct m.
Qed.
Lemma chosen_elem s stream reason source_stream count x :
  x ∈ chosen s stream reason source_stream count ->
  in_scope reason source_stream x = true /\ exists e, e ∈ entries s stream /\ x = to_dlq_entry e.
Proof.
  unfold chosen, filter_dlq_entries. rewrite list_elem_of_In, filter_In, <- list_elem_of_In. intros [Hx Hs]. split; [done|].
  apply list_elem_of_fmap in Hx as (e & -> & He). exists e. split; [|done].
  apply elem_of_take in He as (i & Hi & _). apply elem_of_reverse. by eapply list_elem_of_lookup_2.
Qed.
Lemma take_elem {A} (x : A) n n' l : x ∈ take n l -> (n <= n')%nat -> x ∈ take n' l.
Proof. intros (i & Hi & Hn)%elem_of_take Hle. apply elem_of_take. exists i. split; [done|lia]. Qed.
Lemma take_elem_all {A} (x : A) n l : x ∈ take n l -> x ∈ l.
Proof. intros (i & Hi & Hn)%elem_of_take. by eapply list_elem_of_lookup_2. Qed.

Definition delivered (reason source_stream : option string) (e : StreamEntry) (target : string) (s' : St) : Prop :=
  in_scope reason source_stream (to_dlq_entry e) = true /\
  exists payload e', dl_payload (to_dlq_entry e) = Some payload /\ e' ∈ entries s' target /\ entry_payload e' = Some payload.

Lemma nothing_lost stream target s s' reason source_stream count k d e :
  partly_moved stream target s s' (replayable (chosen s stream reason source_stream count)) k d -> e ∈ entries s stream ->
  e ∈ entries s' stream \/ delivered reason source_stream e target s'.
Proof.
  intros (Hkd & Hk & [(new & En & Nn) Hd _]) He. set (ms := replayable _) in *.
  destruct (decide (e.1 ∈ (take d ms).*1)) as [Hid|Hid]; [right|left; rewrite Hd; by apply elem_of_without].
  apply list_elem_of_fmap in Hid as (m & Hm & Hin).
  pose proof (take_elem_all _ _ _ Hin) as (x & Hx & Hxid & Hxp)%replayable_elem.
  apply chosen_elem in Hx as (Hs & e2 & He2 & ->). cbn in Hxid.
  assert (e2 = e) as -> by (apply (NoDup_fmap_unique fst (entries s stream)); [apply entries_unique|done|done|congruence]).
  split; [done|]. exists m.2. apply (take_elem _ _ k) in Hin; [|lia].
  assert ([("payload", m.2)] ∈ new.*2) as Hnew by (rewrite Nn; apply list_elem_of_fmap; by exists m).
  apply list_elem_of_fmap in Hnew as (e' & He' & Hin'). exists e'. split_and!; [done|rewrite En; apply elem_of_app; by right|].
  unfold entry_payload. by rewrite <- He'.
Qed.

Definition replay_answered (target : string) (execute : bool) (ms : list (string * string)) (w w' : QWorld) (k d : nat) : Prop :=
  if execute
  then k = length ms /\ d = length ms /\
    io_trace w' = io_trace w ++ [Println ("replayed " +:+ pretty (sat64 (Z.of_nat (length ms))) +:+ " DLQ entries to " +:+ target)]
  else io_tables w' = io_tables w.

Lemma replay_spec stream target reason source_stream count execute json w :
  target <> stream -> 0 < as_i64 (Z.max count 1) ->
  let ms := replayable (chosen (io_tables w) stream reason source_stream count) in
  wp (handle_queue (DlqReplay stream target reason source_stream count execute) json)
    (fun _ w' => exists k d, partly_moved stream target (io_tables w) (io_tables w') ms k d /\
       (reason, source_stream) <> (None, None) /\ replay_answered target execute ms w w' k d)
    (fun _ w' => exists k d, partly_moved stream target (io_tables w) (io_tables w') ms k d /\ io_trace w' = io_trace w /\
       (execute = false -> io_tables w' = io_tables w)) w.
Proof.
  intros Hne Hc ms.
  assert (forall w1, io_trace w1 = io_trace w -> io_tables w1 = io_tables w ->
    exists k d, partly_moved stream target (io_tables w) (io_tables w1) ms k d /\ io_trace w1 = io_trace w /\
      (execute = false -> io_tables w1 = io_tables w)) as Hidle.
  { intros w1 Ht Hs. exists 0%nat, 0%nat. rewrite Hs. split_and!; [apply partly_moved_none|done|done]. }
  cbn [handle_queue]. wp1. wp1; [|intros; by apply Hidle]. intros [] Hscope. wp1.
  apply (wp_fetch_dlq _ reason source_stream); [done|apply Hidle|]. intros found w1 Ht1 Hs1 ->.
  assert ((reason, source_stream) <> (None, None)) as Hsc by (by destruct reason, source_stream). destruct execute; cbn [negb].
  - wp1. unfold replay_dlq_entries. wp1. apply wp_connect; [by apply Hidle|].
    eapply wp_weaken; [by apply replay_each_moves|..]; cbn; rewrite Hs1.
    + intros n w2 (-> & Ht2 & Hp). apply wp_emit. exists (length ms), (length ms). split_and!; [done..|]. cbn. by rewrite Ht2, Ht1.
    + intros _ w2 (Ht2 & k & d & Hp). exists k, d. split_and!; [done|congruence|done].
  - apply wp_emit. exists 0%nat, 0%nat. unfold replay_answered. cbn. rewrite Hs1. split_and!; [apply partly_moved_none|done|done].
Qed.

(** C38: Replaying dead letters: whatever fails, and however far it gets, a prefix of the chosen ones
    that have a payload was appended to the target stream in order and taken from the dead letters,
    at most the last of them is in both places, and no other entry of any stream was touched.  So no
    dead letter is lost: it is where it was, or its payload is on the target stream for the workers.
    A replay that is answered moved all of them and says how many; a dry run and a missing scope
    change nothing. *)
Theorem dlq_replay_loses_nothing stream target reason source_stream count execute json w :
  target <> stream -> 0 < as_i64 (Z.max count 1) ->
  let '(answer, w') := handle_queue (DlqReplay stream target reason source_stream count execute) json w in
  let ms := replayable (chosen (io_tables w) stream reason source_stream count) in
  (exists k d, partly_moved stream target (io_tables w) (io_tables w') ms k d /\
     match answer with
     | Ok _ =>
         (reason, source_stream) <> (None, None) /\
         replay_answered target execute ms w w' k d
     | Err _ => io_trace w' = io_trace w /\ (execute = false -> io_tables w' = io_tables w)
     end) /\
  (forall e, e ∈ entries (io_tables w) stream ->
     e ∈ entries (io_tables w') stream \/ delivered reason source_stream e target (io_tables w')).
Proof.
  intros Hne Hc. pose proof (replay_spec stream target reason source_stream count execute json w Hne Hc) as H. unfold wp in H.
  destruct (handle_queue _ json w) as [[a|e] w']; cbv zeta; destruct H as (k & d & Hp & Hrest);
    (split; [by exists k, d|intros x Hx; by eapply nothing_lost]).
Qed.

(** *** Dropping *)

Definition dropped_from (stream : string) (s s' : St) (ids : list string) : Prop :=
  entries s' stream = without ids (entries s stream) /\ forall k, k <> stream -> entries s' k = entries s k.
Lemma dropped_none stream s : dropped_from stream s s [].
Proof. split; [by rewrite without_nil|done]. Qed.
Lemma dropped_cons stream s s' id ids :
  dropped_from stream (xdel stream id s).2 s' ids -> dropped_from stream s s' (id :: ids).
Proof.
  intros [H1 H2]. split.
  - by rewrite H1, xdel_entries, decide_True, without_cons.
  - intros k Hk. by rewrite H2, xdel_entries, decide_False.
Qed.

Lemma drop_each_drops stream l : forall n (w : QWorld),
  is_u64 n -> NoDup (dl_id <$> l) -> (forall e, e ∈ l -> dl_id e ∈ (entries (io_tables w) stream).*1) ->
  wp (drop_each stream l n)
    (fun n' w' => n' = sat64 (n + Z.of_nat (length l)) /\ io_trace w' = io_trace w /\
       dropped_from stream (io_tables w) (io_tables w') (dl_id <$> l))
    (fun _ w' => io_trace w' = io_trace w /\
       exists k, (k < length l)%nat /\ dropped_from stream (io_tables w) (io_tables w') (dl_id <$> take k l)) w.
Proof.
  induction l as [|e l IH]; intros n w Hn Hd Hin; cbn [drop_each].
  { apply wp_ret. split_and!; [by rewrite Z.add_0_r, sat64_id|done|apply dropped_none]. }
  cbn in Hd. apply NoDup_cons in Hd as [He Hd]. wp1.
  apply wp_sql; [split; [done|]; exists 0%nat; split; [cbn; lia|apply dropped_none]|].
  rewrite xdel_count, (decide_True (P := dl_id e ∈ (entries (io_tables w) stream).*1)) by (by apply Hin; left).
  rewrite decide_True by done.
  eapply wp_weaken; [apply IH; [apply sat64_range|done|]|..]; cbn.
  - intros x Hx. rewrite xdel_entries, decide_True by done. specialize (Hin x (list_elem_of_further _ _ _ Hx)).
    apply list_elem_of_fmap in Hin as (y & Hy & Hyin). apply list_elem_of_fmap. exists y. split; [done|].
    apply list_elem_of_In, filter_In. split; [by apply list_elem_of_In|]. apply negb_true_iff, bool_decide_eq_false. intros Heq.
    apply He. rewrite <- Heq, <- Hy. apply list_elem_of_fmap. by exists x.
  - intros n' w' (-> & Ht & Hdr). split_and!; [|done|by apply dropped_cons]. rewrite sat_step by (done || lia). f_equal. lia.
  - intros _ w' (Ht & k & Hk & Hdr). split; [done|]. exists (S k). split; [lia|]. cbn. by apply dropped_cons.
Qed.

Lemma chosen_ids s stream reason source_stream count :
  NoDup (dl_id <$> chosen s stream reason source_stream count) /\
  forall x, x ∈ chosen s stream reason source_stream count -> dl_id x ∈ (entries s stream).*1.
Proof.
  split.
  - unfold chosen, filter_dlq_entries. eapply sublist_NoDup; [|apply fmap_sublist, filter_sublist].
    rewrite <- list_fmap_compose, fmap_take. eapply sublist_NoDup; [|apply sublist_take].
    rewrite fmap_reverse, reverse_Permutation. apply (entries_unique s stream).
  - intros x (_ & e & He & ->)%chosen_elem. apply list_elem_of_fmap. by exists e.
Qed.

(** Dropping takes a prefix of the chosen dead letters away and nothing else, all of them when it is
    answered, and says how many. *)
Lemma dlq_drop_exact stream reason source_stream count json (w : QWorld) :
  0 < as_i64 (Z.max count 1) ->
  let l := chosen (io_tables w) stream reason source_stream count in
  wp (handle_queue (DlqDrop stream reason source_stream count true) json)
    (fun _ w' => dropped_from stream (io_tables w) (io_tables w') (dl_id <$> l) /\
       io_trace w' = io_trace w ++ [Println ("dropped " +:+ pretty (sat64 (Z.of_nat (length l))) +:+ " DLQ entries from " +:+ stream)])
    (fun _ w' => io_trace w' = io_trace w /\ exists k, dropped_from stream (io_tables w) (io_tables w') (dl_id <$> take k l)) w.
Proof.
  intros Hc l. cbn [handle_queue negb].
  assert (forall w1, io_trace w1 = io_trace w -> io_tables w1 = io_tables w ->
    io_trace w1 = io_trace w /\ exists k, dropped_from stream (io_tables w) (io_tables w1) (dl_id <$> take k l)) as Hidle.
  { intros w1 Ht Hs. split; [done|]. exists 0%nat. rewrite Hs. apply dropped_none. }
  wp1. wp1; [|intros; by apply Hidle]. intros [] _. wp1.
  apply (wp_fetch_dlq _ reason source_stream); [done|apply Hidle|]. intros found w1 Ht1 Hs1 ->. fold l.
  wp1. unfold drop_dlq_entries. wp1. apply wp_connect; [by apply Hidle|].
  destruct (chosen_ids (io_tables w) stream reason source_stream count) as [Hd Hin]. fold l in Hd, Hin.
  eapply wp_weaken; [apply drop_each_drops; [done|done|cbn; by rewrite Hs1]|..]; cbn; rewrite Hs1.
  - intros n w2 (-> & Ht2 & Hdr). apply wp_emit. split; [done|]. cbn. by rewrite Ht2, Ht1.
  - intros _ w2 (Ht2 & k & _ & Hdr). split; [congruence|]. by exists k.
Qed.

(** *** Without failures *)

Lemma calm_with_tables t (w : QWorld) : calm w -> calm (with_tables t w).
Proof. done. Qed.
Lemma wp_calm_connect Q I (w : QWorld) : calm w -> Q tt (elapse w) -> wp connect Q I w.
Proof. intros Hc HQ. unfold wp, connect. by rewrite step_calm. Qed.
Lemma replay_each_calm stream target l : forall n (w : QWorld),
  calm w -> wp (replay_each stream target l n) (fun _ _ => True) (fun _ _ => False) w.
Proof.
  induction l as [|e l IH]; intros n w Hw; cbn [replay_each]; [done|]. destruct (dl_payload e) as [p|]; [|by apply IH].
  wp1. apply wp_calm_sql; [done|]. wp1. apply wp_calm_sql; [by apply calm_with_tables, calm_elapse|].
  apply IH. by apply calm_with_tables, calm_elapse, calm_with_tables, calm_elapse.
Qed.
Lemma replay_calm stream target reason source_stream count json (w : QWorld) :
  calm w -> (reason, source_stream) <> (None, None) ->
  exists a w', handle_queue (DlqReplay stream target reason source_stream count true) json w = (Ok a, w') /\ True.
Proof.
  intros Hw Hs. apply wp_answers. cbn [handle_queue negb]. wp1.
  assert (ensure_explicit_scope reason source_stream = Ok tt) as -> by (by destruct reason, source_stream).
  wp1; [|done]. intros ? _. wp1. unfold fetch_dlq_entries. wp1. apply wp_calm_connect; [done|].
  wp1. apply wp_calm_fetch; [by apply calm_elapse|]. wp1. wp1. unfold replay_dlq_entries. wp1.
  apply wp_calm_connect; [by repeat apply calm_elapse|]. eapply wp_weaken; [apply replay_each_calm; by repeat apply calm_elapse|done|done].
Qed.

(** A dead letter as a worker writes it is read with its reason, source and payload. *)
Lemma dead_letter_read `{X : Texts} fts src entry_id reason n trace payload now id :
  let e := to_dlq_entry (id, dead_letter fts src entry_id reason n trace payload now) in
  dl_reason e = reason /\ dl_source_stream e = src /\ dl_payload e = payload ≫= non_blank.
Proof. split_and!; [done..|]. by destruct payload. Qed.

(** The newest entry is among those that are chosen. *)
Lemma chosen_newest s now stream f reason source_stream count :
  0 < as_i64 (Z.max count 1) -> in_scope reason source_stream (to_dlq_entry ((xadd now stream f s).1, f)) = true ->
  to_dlq_entry ((xadd now stream f s).1, f) ∈ chosen (xadd now stream f s).2 stream reason source_stream count.
Proof.
  intros Hc Hs. unfold chosen, filter_dlq_entries. apply list_elem_of_In, filter_In. split; [|done]. apply list_elem_of_In.
  apply list_elem_of_fmap. eexists. split; [done|]. rewrite xadd_entries, decide_True, reverse_app by done. cbn.
  destruct (Z.to_nat _) eqn:E; [lia|]. by left.
Qed.

(** A dead letter that a worker wrote is replayed by its reason: its payload is on the target
    stream for a worker to read, and the dead letter is gone. *)
Theorem dead_letter_replayed `{X : Texts} fts src entry_id reason n trace payload at_ s dlq target reason' count json w :
  target <> dlq -> 0 < as_i64 (Z.max count 1) -> is_empty (trim payload) = false -> eq_ignore_ascii_case reason reason' = true ->
  let '(id, s1) := xadd at_ dlq (dead_letter fts src entry_id reason n trace (Some payload) at_) s in
  io_tables w = s1 -> calm w ->
  exists w', handle_queue (DlqReplay dlq target (Some reason') None count true) json w = (Ok tt, w') /\
    ~ (id ∈ (entries (io_tables w') dlq).*1) /\
    exists e, e ∈ entries (io_tables w') target /\ entry_payload e = Some payload.
Proof.
  intros Hne Hc Hp Hr. destruct (xadd at_ dlq _ s) as [id s1] eqn:Ex. intros Hw Hcalm.
  destruct (replay_calm dlq target (Some reason') None count json w) as ([] & w' & Hrun & _); [done|done|]. exists w'. split; [done|].
  pose proof (replay_spec dlq target (Some reason') None count true json w Hne Hc) as H. unfold wp in H. rewrite Hrun in H.
  destruct H as (k & d & (_ & _ & [(new & En & Nn) Hd _]) & _ & -> & -> & _). rewrite Hw in *.
  set (f := dead_letter _ _ _ _ _ _ _ _) in *. rewrite !firstn_all in *.
  pose proof (chosen_newest s at_ dlq f (Some reason') None count Hc) as Hin. rewrite Ex in Hin. cbn [fst snd] in Hin.
  assert ((id, payload) ∈ replayable (chosen s1 dlq (Some reason') None count)) as Hm.
  { apply replayable_elem. eexists. split; [apply Hin, andb_true_iff; split; [exact Hr|done]|]. split; [done|].
    transitivity (non_blank payload); [done|]. unfold non_blank. by rewrite Hp. }
  split.
  - rewrite Hd. intros (e & He & Hn)%list_elem_of_fmap. apply elem_of_without in Hn as [_ Hn]. apply Hn. apply list_elem_of_fmap. rewrite <- He. by exists (id, payload).
  - assert ([("payload", payload)] ∈ new.*2) as Hnew by (rewrite Nn; apply list_elem_of_fmap; by exists (id, payload)).
    apply list_elem_of_fmap in Hnew as (e & He & Hin'). exists e. split; [rewrite En; apply elem_of_app; by right|].
    unfold entry_payload. by rewrite <- He.
Qed.
End Effects.

(** ** A server

    A stream is the list of what was added, with the deleted entries left empty; the id of an entry
    is its position. *)

Module QueueDemo.

Definition Server := string -> list (option Fields).
Definition id_text (i : nat) : string := "0-" +:+ pretty i.
Fixpoint numbered (i : nat) (l : list (option Fields)) : list StreamEntry :=
  match l with
  | [] => []
  | Some f :: l' => (id_text i, f) :: numbered (S i) l'
  | None :: l' => numbered (S i) l'
  end.
Fixpoint clear (i : nat) (id : string) (l : list (option Fields)) : list (option Fields) :=
  match l with
  | [] => []
  | o :: l' => (if decide (id = id_text i) then None else o) :: clear (S i) id l'
  end.
Definition set_stream (k : string) (l : list (option Fields)) (s : Server) : Server := fun k' => if decide (k' = k) then l else s k'.
#[export] Instance server : RedisStreams Server := {|
  entries s k := numbered 0 (s k);
  issued s k id := exists i, (i < length (s k))%nat /\ id = id_text i;
  xadd _ k f s := (id_text (length (s k)), set_stream k (s k ++ [Some f]) s);
  xdel k id s := ((if decide (id ∈ (numbered 0 (s k)).*1) then 1 else 0), set_stream k (clear 0 id (s k)) s);
  xrevrange k n s := take (Z.to_nat n) (reverse (numbered 0 (s k)))
|}.

#[export] Instance id_text_inj : Inj (=) (=) id_text.
Proof. intros i j H%str_app_inj_l. by apply (inj pretty) in H. Qed.
Lemma numbered_elem l : forall i e, e ∈ numbered i l -> exists j, (i <= j < i + length l)%nat /\ e.1 = id_text j.
Proof.
  induction l as [|[f|] l IH]; intros i e; cbn; [by intros ?%elem_of_nil| |].
  - intros [->|(j & Hj & He)%IH]%elem_of_cons; [exists i|exists j]; (split; [lia|done]).
  - intros (j & Hj & He)%IH. exists j. split; [lia|done].
Qed.
Lemma numbered_unique l : forall i, NoDup (numbered i l).*1.
Proof.
  induction l as [|[f|] l IH]; intros i; cbn; [constructor| |by apply IH]. constructor; [|by apply IH].
  intros (e & He & (j & Hj & Ej)%numbered_elem)%list_elem_of_fmap. rewrite Ej in He. apply (inj id_text) in He. lia.
Qed.
Lemma numbered_app l l' : forall i, numbered i (l ++ l') = numbered i l ++ numbered (i + length l) l'.
Proof.
  induction l as [|[f|] l IH]; intros i; cbn; [by rewrite Nat.add_0_r|..]; rewrite IH; cbn; do 2 f_equal; lia || (f_equal; lia).
Qed.
Lemma numbered_clear id l : forall i,
  numbered i (clear i id l) = List.filter (fun e => negb (bool_decide (e.1 = id))) (numbered i l).
Proof.
  induction l as [|[f|] l IH]; intros i; cbn; [done| |case_decide; apply IH].
  case_decide as E; cbn; [rewrite bool_decide_eq_true_2 by done|rewrite bool_decide_eq_false_2 by congruence]; cbn; by rewrite IH.
Qed.
Lemma clear_length id l : forall i, length (clear i id l) = length l.
Proof. induction l as [|o l IH]; intros i; cbn; [done|]. by rewrite IH. Qed.

#[export] Instance server_laws : StreamLaws Server.
Proof.
  split; cbn.
  - intros s k e (j & Hj & He)%numbered_elem. exists j. split; [lia|done].
  - intros s k. apply numbered_unique.
  - intros _ k f s k'. unfold set_stream. case_decide; [|done]. by rewrite numbered_app.
  - intros _ k f s (i & Hi & E%(inj id_text)). lia.
  - intros _ k f s k' id. unfold set_stream. case_decide as E; [subst|naive_solver]. rewrite length_app. cbn. split.
    + intros (i & Hi & ->). destruct (decide (i = length (s k))) as [->|]; [by right|left; exists i; split; [lia|done]].
    + intros [(i & Hi & ->)|[_ ->]]; [exists i|exists (length (s k))]; (split; [lia|done]).
  - intros k id s k'. unfold set_stream. case_decide; [|done]. apply numbered_clear.
  - done.
  - intros k id s k' id'. unfold set_stream. case_decide; [subst|done]. by rewrite clear_length.
  - done.
Qed.

#[local] Existing Instance TextsDemo.texts.

Definition letter (reason payload : string) : Fields :=
  dead_letter (fun t => Some t) "classification-jobs" "1700-0" reason 1 None (Some payload) 5000.
Definition dlq : string := "classification-jobs-dlq".
Definition jobs : string := "classification-jobs".
(** Three dead letters, the second of another reason, and one without a payload. *)
Definition filled : Server := fun k =>
  if decide (k = dlq)
  then [Some (letter "invalid_payload" "job 1"); Some (letter "timeout" "job 2"); Some (letter "missing_payload" "");
        Some (letter "Invalid_Payload" "job 4")]
  else [].
Definition start (faults : list bool) (s : Server) : Io Server QueueEffect := mkIo 6000 None faults 1%nat [] s.
Definition replay (count : Z) : DlqCmd := DlqReplay dlq jobs (Some "invalid_payload") None count true.
Definition left_over (w : Io Server QueueEffect) : list string * list (option string) :=
  ((entries (io_tables w) dlq).*1, entry_payload <$> entries (io_tables w) jobs).

Lemma dlq_replay_loses_nothing_witness :
  let w := start [false; false; false; false; true] filled in
  let w' := (handle_queue (replay 50) false w).2 in
  partly_moved dlq jobs filled (io_tables w') [("0-3", "job 4"); ("0-0", "job 1")] 1 0 /\
  left_over w' = (["0-0"; "0-1"; "0-2"; "0-3"], [Some "job 4"]).
Proof.
  cbv zeta.
  pose proof (dlq_replay_loses_nothing dlq jobs (Some "invalid_payload") None 50 true false (start [false; false; false; false; true] filled)) as H.
  specialize (H ltac:(done) ltac:(done)).
  assert (replayable (chosen filled dlq (Some "invalid_payload") None 50) = [("0-3", "job 4"); ("0-0", "job 1")]) as Hms by by vm_compute.
  change (io_tables (start [false; false; false; false; true] filled)) with filled in H. rewrite Hms in H.
  change (DlqReplay dlq jobs (Some "invalid_payload") None 50 true) with (replay 50) in H.
  assert (left_over (handle_queue (replay 50) false (start [false; false; false; false; true] filled)).2 =
    (["0-0"; "0-1"; "0-2"; "0-3"], [Some "job 4"])) as Hl by by vm_compute.
  split; [|exact Hl]. destruct (handle_queue (replay 50) false _) as [answer w']. cbn [snd] in *. cbv zeta in H.
  destruct H as [(k & d & Hp & _) _]. pose proof (f_equal fst Hl) as Hl1. pose proof (f_equal snd Hl) as Hl2.
  unfold left_over in Hl1, Hl2. cbn [fst snd] in Hl1, Hl2.
  destruct Hp as (Hkd & Hk & Hm). pose proof Hm as [(new & En & Nn) Hd _]. cbn in Hk.
  rewrite En, fmap_app in Hl2. destruct k as [|[|[|k]]]; [| |exfalso|lia].
  - destruct new; [|done]. done.
  - destruct d as [|[|d]]; [done|exfalso|lia]. rewrite Hd in Hl1. by vm_compute in Hl1.
  - destruct new as [|a [|b [|]]]; try done.
Defined.

Lemma dead_letter_replayed_witness :
  let w := start [] (xadd 5000 dlq (letter "invalid_payload" "job 5") filled).2 in
  exists w', handle_queue (DlqReplay dlq jobs (Some "INVALID_PAYLOAD") None 1 true) false w = (Ok tt, w') /\
    ~ ("0-4" ∈ (entries (io_tables w') dlq).*1) /\
    exists e, e ∈ entries (io_tables w') jobs /\ entry_payload e = Some "job 5".
Proof.
  exact (dead_letter_replayed (fun t => Some t) "classification-jobs" "1700-0" "invalid_payload" 1 None "job 5" 5000 filled dlq jobs
    "INVALID_PAYLOAD" 1 false (start [] (xadd 5000 dlq (letter "invalid_payload" "job 5") filled).2)
    ltac:(done) ltac:(done) ltac:(by vm_compute) ltac:(by vm_compute) eq_refl eq_refl).
Defined.

(** The number of entries is counted before the scope: an older dead letter of the scope stays. *)
Example older_letters_stay :
  left_over (handle_queue (replay 2) false (start [] filled)).2 = (["0-0"; "0-1"; "0-2"], [Some "job 4"]).
Proof. vm_compute. reflexivity. Qed.
Example letter_without_payload_stays :
  left_over (handle_queue (DlqReplay dlq jobs None (Some "classification-jobs") 50 true) false (start [] filled)).2 =
  (["0-2"], [Some "job 4"; Some "job 2"; Some "job 1"]).
Proof. vm_compute. reflexivity. Qed.
Example listing :
  io_trace (handle_queue (DlqList dlq 1) false (start [] filled)).2 =
  [Println "| ID  | Source              | Reason          | Trace |"; Println "|-----|---------------------|-----------------|-------|";
   Println "| 0-3 | classification-jobs | Invalid_Payload | -     |"].
Proof. vm_compute. reflexivity. Qed.
End QueueDemo.
