(* ===== verification/OdctlAdmin.v ===== *)
(** * odctl: administration

    The parts of [cli/odctl/src/main.rs] that meet the admin API's data: which header carries the
    credential of a command and what the API makes of it, the recovery of an administrator's
    password in the database ([iam recover-admin-password]), and the check of the services'
    configurations before they start ([doctor config]). *)

From S2P Require Import Prelude RustStr RustNum Types Http Json ConfigCore ServiceConfig Db Io Wp Texts Pagination Iam IamRoutes IamInvariants Auth AdminAccess Credentials LlmProvider OdctlSession.

Local Open Scope Z_scope.

(** ** Credentials *)

(** [HeaderMap::get]. *)
Definition header (name : string) (headers : list (string * string)) : option string :=
  snd <$> find_first (fun h => bool_decide (h.1 = name)) headers.

Section Credential.
  Context `{U : Unicode} `{SE : Secrets} `{X : Texts} `{T : JsonText} `{B : Base64} `{D : Digests}.

Abbreviation GateM := (M IamTables Empty_set StatusCode).
(** The admin API, asked by a command with a token. *)
Definition served {A} (auth : AdminAuth) (token : string) (next : Principal -> GateM A) : GateM A :=
  let headers := credential_headers (Some token) in
  enforce_admin auth (header "authorization" headers) (header "x-admin-token" headers) next.

(** A token of three parts that are not empty is checked as a signed one, any other as a personal,
    service or static token. *)
Lemma served_by_shape {A} auth token (next : Principal -> GateM A) :
  served auth token next =
  (user ← (if looks_like_jwt token then authenticate_bearer auth token else authenticate_admin auth token); next user).
Proof. unfold served, credential_headers. destruct (looks_like_jwt token); [|done]. unfold enforce_admin. cbn. done. Qed.

Lemma dotless_no_jwt token : clean "." token -> looks_like_jwt token = false.
Proof. intros H. unfold looks_like_jwt. by rewrite split_char_id. Qed.

(** Tokens without a dot, as all tokens the IAM tables hold hashes of are made, are sent as such. *)
Lemma personal_token_served {A} auth token (next : Principal -> GateM A) :
  clean "." token -> served auth token next = (user ← authenticate_admin auth token; next user).
Proof. intros H. by rewrite served_by_shape, dotless_no_jwt. Qed.

Lemma signed_looks_like_jwt issuer user t :
  (forall s, s <> "" -> b64_encode s <> "") -> (forall v, json_print v <> "") -> (forall k s, hmac_sha256 k s <> "") ->
  looks_like_jwt (issue issuer user t) = true.
Proof.
  intros Hb Hj Hh. unfold looks_like_jwt, issue.
  set (a := b64_encode (json_print _)). set (b := b64_encode (json_print _)). set (c := b64_encode (hmac_sha256 _ _)).
  replace (split_char "." _) with [a; b; c].
  - assert (forall s, s <> "" -> negb (is_empty s) = true) as Hne by (by intros []).
    cbn -[is_empty]. rewrite !Hne; [done|apply Hb, Hh|apply Hb, Hj|apply Hb, Hj].
  - rewrite <- (split_char_join "." [a; b; c]); [|done|repeat constructor; apply b64_no_dot]. f_equal. cbn [join]. by rewrite str_app_assoc.
Qed.
End Credential.

(** ** Recovery of a password *)

Section Recovery.
  Context `{U : Unicode} `{SE : Secrets} `{X : Texts} (env : Env).
  Abbreviation RM := (M IamTables Empty_set string).

Definition resolve_db_url (source : option string) (env_key flag : string) : result string string :=
  match source with
  | Some url => if is_empty (trim url) then Err (flag +:+ " cannot be empty") else Ok url
  | None => ok_or (env !! env_key) ("set " +:+ env_key +:+ " or pass " +:+ flag)
  end.

Definition hash_password (value : string) : RM string := e ← new_v4; of_result (argon_hash e value).

Definition has_username (username : string) (u : IamUser) : bool := lower_eq (default "" (iu_username u)) username.

Definition recovery_event (id : Uuid) (user_id : Uuid) (username reason : string) (now : Z) : IamAuditEvent :=
  {| ae_id := id; ae_actor := Some "breakglass-cli"; ae_action := "iam.auth.recover_admin_password"; ae_target_type := "user";
     ae_target_id := Some (pretty user_id);
     ae_payload := JObj [("username", JStr username); ("reason", JStr reason); ("host", json_opt JStr (env !! "HOSTNAME"))];
     ae_created_at := now |}.

Definition recover_rows (username new_password reason : string) : RM unit :=
  row ← fetch (fun _ t => find_first (has_username username) (it_users t));
  u ← of_result (ok_or row ("user '" +:+ username +:+ "' not found"));
  hash ← hash_password (trim new_password);
  _ ← update (fun now t => set_users (set_where (is_user (iu_id u)) (with_password hash true now) (it_users t)) t);
  id ← new_v4;
  update (fun now t => set_audit_events (it_audit_events t ++ [recovery_event id (iu_id u) username reason now]) t).

Definition recover_admin_password_local (username new_password reason : string) : RM unit :=
  _ ← step (fun w => (tt, w));
  let username := trim username in
  if is_empty username then of_result (Err "--username cannot be empty")
  else atomic (fun e => e) (recover_rows username new_password reason).

(** [odctl iam recover-admin-password]. *)
Definition recover_admin_password (username new_password reason : string) (yes : bool) (admin_db_url : option string) : RM unit :=
  if negb yes then of_result (Err "recovery is sensitive; rerun with --yes to confirm")
  else if is_empty (trim reason) then of_result (Err "--reason is required")
  else if decide (str_len (trim new_password) < 8)%nat then of_result (Err "new password must be at least 8 characters")
  else
    db_url ← of_result (resolve_db_url admin_db_url "OD_ADMIN_DATABASE_URL" "--admin-db-url");
    recover_admin_password_local username new_password reason.

End Recovery.

Lemma find_first_unique {A} (p : A -> bool) l x :
  x ∈ l -> p x = true -> (forall y, y ∈ l -> p y = true -> y = x) -> find_first p l = Some x.
Proof.
  induction l as [|y l IH]; intros Hx Hp Hy; cbn; [by apply elem_of_nil in Hx|]. destruct (p y) eqn:E; [f_equal; apply Hy; [by left|done]|].
  apply IH; [|done|intros z Hz; apply Hy; by right]. apply elem_of_cons in Hx as [->|]; [congruence|done].
Qed.

Section Recovered.
  Context `{U : Unicode} `{SE : Secrets} `{X : Texts} `{C : Collation} `{T : JsonText} `{B : Base64} `{D : Digests} (env : Env).
  Abbreviation IamWorld := (Io IamTables Empty_set).

(** The rows a recovery leaves: one user with a new password, and an event. *)
Definition recovered (username new_password reason : string) (u : IamUser) (t t' : IamTables) : Prop :=
  exists hash now id,
    argon_verify (trim new_password) hash = Ok true /\
    t' = set_audit_events (it_audit_events t ++ [recovery_event env id (iu_id u) username reason now])
           (set_users (set_where (is_user (iu_id u)) (with_password hash true now) (it_users t)) t).

Lemma recover_rows_spec username new_password reason now w :
  io_tx w = Some now ->
  wp (recover_rows env username new_password reason)
    (fun _ w' => exists u, find_first (has_username username) (it_users (io_tables w)) = Some u /\
       recovered username new_password reason u (io_tables w) (io_tables w'))
    (fun _ _ => True) w.
Proof.
  intros Htx. unfold recover_rows, hash_password. wp1. wp1; [done|]. wp1. wp1; [|done]. intros u Hu%ok_or_Ok.
  wp1. wp1. wp1. wp1; [|done]. intros hash Hh. wp; [done|done|]. exists u. split; [done|]. exists hash, now. eexists. split; [by eapply argon_verify_hash|].
  unfold sql_now. cbn. rewrite Htx. reflexivity.
Qed.

(** What is left after the command, however it ends. *)
Lemma recover_spec username new_password reason yes url w :
  wp (recover_admin_password env username new_password reason yes url)
    (fun _ w' => yes = true /\ is_empty (trim reason) = false /\ (8 <= str_len (trim new_password))%nat /\
       exists u, find_first (has_username (trim username)) (it_users (io_tables w)) = Some u /\
         recovered (trim username) new_password reason u (io_tables w) (io_tables w'))
    (fun _ w' => io_tables w' = io_tables w) w.
Proof.
  unfold recover_admin_password. destruct yes; cbn [negb]; [|done]. destruct (is_empty (trim reason)) eqn:Er; [done|].
  case_decide; [done|]. wp1. wp1; [|done]. intros db_url _. unfold recover_admin_password_local. wp1.
  apply wp_step; [done|]. cbn [fst snd]. wp1; [done|]. apply wp_atomic; [done|].
  eapply wp_weaken; [by apply (recover_rows_spec _ _ _ (io_now w + 1 + 1))|..]; cbn.
  - intros _ w1 (u & Hu & Hr). split; [|done]. split_and!; [done|done|lia|]. by exists u.
  - done.
Qed.

Lemma recovered_reached username new_password reason u t t' :
  recovered username new_password reason u t t' -> rtc (iam_step (fun _ => False)) t t'.
Proof.
  intros (hash & now & id & _ & ->). eapply rtc_l; [apply step_touch|eapply rtc_l; [apply step_audit|reflexivity]].
  split; [intros x; by split_and!|]. intros x. split; [done|cbn; lia].
Qed.

(** The new password lets the user in. *)
Lemma recovered_login username new_password reason u t t' attempts lockout w :
  iam_ok t -> find_first (has_username (trim username)) (it_users t) = Some u -> iu_status u = "active" ->
  (forall o, o ∈ it_users t -> named (trim username) o = true -> iu_id o = iu_id u) ->
  recovered (trim username) new_password reason u t t' -> io_tables w = t' -> calm w ->
  exists user w', authenticate_local_user username (trim new_password) attempts lockout w = (Ok user, w') /\
    lu_id user = iu_id u /\ lu_must_change_password user = true.
Proof.
  intros Hok [Hu Hname]%find_first_in Ha Hun (hash & now & id & Hv & Ht') Hw Hc. apply wp_answers.
  assert (find_first (named (trim username)) (it_users (io_tables w)) = Some (with_password hash true now u)) as Hfind.
  { rewrite Hw, Ht'. cbn. apply find_first_unique; [by apply set_where_same|apply orb_true_iff; by right|].
    intros y (x & Hx & ->)%elem_of_set_where. unfold is_user. case_bool_decide as E; intros Hn.
    - f_equal. apply (NoDup_fmap_unique iu_id (it_users t)); [apply Hok|done|done|done].
    - by apply Hun in Hn. }
  unfold authenticate_local_user, iam_fetch. wp_calm1. wp_calm1. wp_calm1. rewrite Hfind. cbn [ok_or].
  wp1. wp1; [|done]. intros r [= <-]. cbn [iu_status with_password]. rewrite bool_decide_eq_true_2 by done. cbn [negb].
  wp1. wp1. cbn [iu_locked_until with_password]. wp1. wp1. cbn [iu_password_hash with_password ok_or].
  wp1. wp1; [|done]. intros h [= <-]. wp1. unfold verify_hash. wp1; [|by rewrite Hv]. intros b Hb. rewrite Hv in Hb. injection Hb as <-.
  unfold touch_user, iam_update, effective_permissions_for_user, effective, iam_fetch.
  wp1. wp_calm1. wp_calm1. wp1. wp1. wp_calm1. apply wp_calm_fetch; [by apply calm_elapse, calm_elapse|]. wp1.
  case_decide; [wp1; wp1; by wp1|]. wp_calm1. apply wp_calm_fetch; [by apply calm_elapse, calm_elapse, calm_elapse|]. wp1. by wp1.
Qed.

Lemma recovered_stale username new_password reason u t t' :
  u ∈ it_users t -> recovered username new_password reason u t t' -> stale (iu_id u) (iu_token_version u) t'.
Proof.
  intros Hu (hash & now & id & _ & ->). exists (with_password hash true now u).
  split; [cbn; by apply set_where_same|]. split; [done|cbn; lia].
Qed.
(** Credentials of a version the user has moved past are refused, whatever is served in between. *)
Lemma stale_refused auth id v w1 rs w2 :
  iam_ok (io_tables w1) -> stale id v (io_tables w1) -> (forall r, r ∈ rs -> EraseUser id ∉ demands_of r) ->
  io_tables w2 = io_tables (serve_all env auth rs w1).2 -> io_tx w2 = None ->
  (forall claims p w3, lc_sub claims = id -> lc_token_version claims <= v -> resolve_local_subject claims w2 <> (Ok p, w3)) /\
  (forall token k tokens w3, k ∈ it_refresh_tokens (io_tables w2) -> rk_token_hash k = hash_refresh_token token ->
     rk_user_id k = id -> rk_token_version k <= v -> rotate_refresh_token auth token w2 <> (Ok tokens, w3)).
Proof.
  intros Hok Hst Hrs Ht Htx. pose proof (serve_all_reached env auth rs w1) as Hr. rewrite <- Ht in Hr.
  assert (stale id v (io_tables w2)) as Hst2 by (eapply reached_stale; [|exact Hr|done]; intros (r & Hin & Hd); by apply (Hrs r)).
  assert (iam_ok (io_tables w2)) as Hok2 by by eapply reached_ok.
  split; [intros claims p w3 <- Hle; by eapply stale_jwt|intros token k tokens w3 Hk Hh <- Hle; by eapply stale_refresh].
Qed.

(** C39: The recovery of a password, on tables in order ([iam_ok], which every request keeps), does what
    it promises or nothing: an error leaves the tables, and otherwise exactly the user of that name has the new password and an audit event says who, why
    and where.  The user is let in with it and has to change it, provided the user is active (the
    recovery does not enable a disabled one) and no other user answers to the name, as a username or
    as an email address (the login looks for both).  No signed token and no refresh token of the user
    from before works again, whatever is served later, as long as the user is not erased; the
    user's personal API keys are left alone. *)
Theorem recovered_password_works auth username new_password reason yes url w :
  iam_ok (io_tables w) ->
  match recover_admin_password env username new_password reason yes url w with
  | (Err _, w') => io_tables w' = io_tables w
  | (Ok _, w') =>
      exists u, find_first (has_username (trim username)) (it_users (io_tables w)) = Some u /\
        recovered (trim username) new_password reason u (io_tables w) (io_tables w') /\ iam_ok (io_tables w') /\
        (iu_status u = "active" -> (forall o, o ∈ it_users (io_tables w) -> named (trim username) o = true -> iu_id o = iu_id u) ->
         forall attempts lockout w1, io_tables w1 = io_tables w' -> calm w1 ->
         exists user w2, authenticate_local_user username (trim new_password) attempts lockout w1 = (Ok user, w2) /\
           lu_id user = iu_id u /\ lu_must_change_password user = true) /\
        (forall rs w2, (forall r, r ∈ rs -> EraseUser (iu_id u) ∉ demands_of r) ->
         io_tables w2 = io_tables (serve_all env auth rs w').2 -> io_tx w2 = None ->
         (forall claims p w3, lc_sub claims = iu_id u -> lc_token_version claims <= iu_token_version u ->
            resolve_local_subject claims w2 <> (Ok p, w3)) /\
         (forall token k tokens w3, k ∈ it_refresh_tokens (io_tables w2) -> rk_token_hash k = hash_refresh_token token ->
            rk_user_id k = iu_id u -> rk_token_version k <= iu_token_version u -> rotate_refresh_token auth token w2 <> (Ok tokens, w3)))
  end.
Proof.
  intros Hok. pose proof (recover_spec username new_password reason yes url w) as H. unfold wp in H.
  destruct (recover_admin_password env username new_password reason yes url w) as [[[]|e] w']; [|done].
  destruct H as (_ & _ & _ & u & Hu & Hr). pose proof (find_first_in _ _ _ Hu) as [Hin _].
  assert (iam_ok (io_tables w')) as Hok' by (eapply reached_ok; [eapply recovered_reached, Hr|done]).
  exists u. split_and!; [done|done|done| |].
  - intros Ha Hun attempts lockout w1 Hw1 Hc. by apply (recovered_login username new_password reason u (io_tables w) (io_tables w')).
  - intros rs w2 Hrs Ht Htx. eapply stale_refused; [exact Hok'|by eapply recovered_stale|done..].
Qed.
End Recovered.
