(* ===== verification/OdctlDemo.v ===== *)
(** * Commands at work

    The theorems about [odctl] at concrete inputs: a device login that is slowed down and approved, a
    session that is renewed, credentials of every kind, and a recovered password; and what renewing a
    session without a lifetime and a static token with two dots lead to. *)

From S2P Require Import Prelude RustStr RustNum Types Http Json ConfigCore Db Io Wp Texts Pagination Iam IamRoutes IamInvariants Auth AdminAccess Credentials Sessions AccessDemo LlmProvider OdctlSession OdctlAdmin.

Local Open Scope Z_scope.

Module OdctlDemo.

#[local] Existing Instance Demo.unicode.
#[local] Existing Instance TextsDemo.base64.
#[local] Existing Instance TextsDemo.texts.
#[local] Existing Instance JsonDemo.text.
#[local] Existing Instance PagesDemo.collation.
#[local] Existing Instance AccessDemo.secrets.
#[local] Existing Instance AccessDemo.digests.

#[local] Instance pretty_json : JsonPretty JsonDemo.text := {| json_pretty v := json_print v; json_parse_pretty v H := json_parse_print v H |}.

(** ** A provider

    The device code lives for a minute; the user approves it after 20 seconds, and a client that
    polls before the tenth second is told to slow down.  Tokens are renewed. *)

Definition reply (status : Z) (v : Json) : HttpReply := Ok (status, Ok (json_print v)).
Definition approval : Json := JObj [("access_token", JStr "header.payload.signature"); ("refresh_token", JStr "again"); ("expires_in", JInt 3600)].
Definition answer (renewal : Json) (at_ : Z) (r : CliRequest) : HttpReply :=
  match cr_body r with
  | FormBody (("grant_type", "refresh_token") :: _) => reply 200 renewal
  | FormBody params =>
      if decide ("device_code" ∈ params.*1) then
        if decide (at_ < 10000) then reply 400 (JObj [("error", JStr "slow_down")])
        else if decide (at_ < 20000) then reply 400 (JObj [("error", JStr "authorization_pending")])
        else reply 200 approval
      else reply 200 (JObj [("device_code", JStr "dev-1"); ("user_code", JStr "ABCD"); ("verification_uri", JStr "https://login/device");
                            ("expires_in", JInt 60); ("interval", JInt 4)])
  | _ => Ok (404, Ok "")
  end.
Definition provider (renewal : Json) : CliNet :=
  {| net_send at_ r := (100%N, answer renewal at_ r); net_status_text s := pretty s; status_line s := pretty s |}.
#[local] Instance net : CliNet := provider (JObj [("access_token", JStr "new"); ("expires_in", JInt 600)]).

Definition cfg : DeviceFlowConfig := new_device_flow None None None None (Some "od-admin").
Definition shell (now : Z) (file : option string) : CliWorld := mkIo now None [] 1%nat [] file.
Definition sent_at (w : CliWorld) : list Z := omap (fun e => match e with Sent t _ => Some t | _ => None end) (io_trace w).

Example device_login_run :
  let w' := (perform_device_login cfg (shell 0 None)).2 in
  (perform_device_login cfg (shell 0 None)).1 = Ok tt /\
  sent_at w' = [0; 100; 9200; 23300] /\
  result_ok (session_from_str (default "" (io_tables w'))) ≫= se_refresh_token = Some "again".
Proof. vm_compute. done. Qed.

Definition old_session : AuthSession :=
  {| se_access_token := "old"; se_refresh_token := Some "again"; se_token_type := None; se_scope := Some "openid"; se_expires_at := Some 1000;
     se_obtained_at := Some 0; se_client_id := "odctl-dev"; se_token_endpoint := "https://login/token"; se_device_endpoint := None;
     se_audience := None |}.
Example expired_session_renewed :
  let w' := (resolve_token None (shell 950000 (Some (session_text old_session)))).2 in
  (resolve_token None (shell 950000 (Some (session_text old_session)))).1 = Ok (Some "new") /\
  se_expires_at <$> result_ok (session_from_str (default "" (io_tables w'))) = Some (Some 1550).
Proof. vm_compute. done. Qed.

(** When the provider does not say how long a token lives, every command renews the session. *)
Example renewed_at_every_command :
  let run := @resolve_token _ pretty_json (provider (JObj [("access_token", JStr "new")])) in
  let w1 := (run None (shell 950000 (Some (session_text old_session)))).2 in
  let w2 := (run None w1).2 in
  length (sent_at w1) = 1%nat /\ length (sent_at w2) = 2%nat.
Proof. vm_compute. done. Qed.

(** ** Credentials *)

(** A static token with two dots is sent as a signed one, and refused. *)
Example dotted_static_token :
  let auth := {| au_static_token := Some "a.b.c"; au_fallback_roles := default_static_roles; au_mode := Local; au_allow_claim_fallback := true;
                 au_local_jwt := new_issuer "a-long-secret" 3600; au_max_failed_attempts := 3; au_lockout_seconds := 900;
                 au_refresh_ttl_seconds := 3600; au_refresh_max_sessions := 2; au_jwt := None |} in
  (served auth "a.b.c" (fun p => mret (uc_actor p)) (AccessDemo.start AccessDemo.tables)).1 = Err UNAUTHORIZED /\
  (enforce_admin auth None (Some "a.b.c") (fun p => mret (uc_actor p)) (AccessDemo.start AccessDemo.tables)).1 = Ok "static-admin".
Proof. vm_compute. done. Qed.

(** ** A recovered password *)

Definition env : Env := <["OD_ADMIN_DATABASE_URL" := "postgres://admin"]> ∅.
Definition recover : M IamTables Empty_set string unit :=
  recover_admin_password env " Admin " "a-new-password " "INC-1234" true None.

Lemma recovered_password_works_witness :
  let w' := (recover (AccessDemo.start AccessDemo.tables)).2 in
  (exists user w2, authenticate_local_user " Admin " "a-new-password" 3 900 w' = (Ok user, w2) /\
     lu_id user = 1%nat /\ lu_must_change_password user = true) /\
  length (it_audit_events (io_tables w')) = 1%nat.
Proof.
  cbv zeta. pose proof (recovered_password_works env AccessDemo.auth " Admin " "a-new-password " "INC-1234" true None
    (AccessDemo.start AccessDemo.tables) AccessDemo.tables_ok) as H. fold recover in H. split; [|by vm_compute].
  assert ((recover (AccessDemo.start AccessDemo.tables)).1 = Ok tt) as Hok by by vm_compute.
  assert (calm (recover (AccessDemo.start AccessDemo.tables)).2) as Hc by by vm_compute.
  destruct (recover (AccessDemo.start AccessDemo.tables)) as [[a|e] w']; [|done]. cbn [snd] in *.
  destruct H as (u & Hu & _ & _ & Hlogin & _). assert (u = AccessDemo.person 1%nat "admin" true) as -> by (vm_compute in Hu; by injection Hu as <-).
  destruct (Hlogin eq_refl) with (attempts := 3) (lockout := 900) (w1 := w') as (user & w2 & Hrun & Hrest); [|done|done|].
  - intros o Ho Hn. cbn in Ho. apply elem_of_cons in Ho as [->|Ho]; [done|]. apply elem_of_cons in Ho as [->|Ho]; [by vm_compute in Hn|].
    by apply elem_of_nil in Ho.
  - exists user, w2. split; [exact Hrun|exact Hrest].
Defined.

(** A user that was disabled has a new password and is let in no more than before. *)
Example disabled_user_recovered :
  let disabled := set_users [with_status "disabled" 1 0 (AccessDemo.person 1%nat "admin" true)] AccessDemo.tables in
  (recover (AccessDemo.start disabled)).1 = Ok tt /\
  (authenticate_local_user "admin" "a-new-password" 3 900 (recover (AccessDemo.start disabled)).2).1 = Err Disabled.
Proof. vm_compute. done. Qed.
End OdctlDemo.
