(* ===== verification/OdctlPolicy.v ===== *)
(** * odctl: policies and overrides as files

    [odctl policy] and [odctl override] of [cli/odctl/src/main.rs] run against the admin API's
    handlers ([AdminPolicies.v], [AdminOverrides.v]): what a policy is written to a file as
    ([policy_document_from_detail]), how a file is turned into requests ([rules_from_document],
    [handle_policy]), and the arguments of the override commands ([parse_scope] and the
    [normalize_*] functions).  The documents stand for the files; printing is left out. *)

From S2P Require Import Prelude RustStr RustNum Types Http Json Taxonomy Db Activation PolicyStore Evaluator Io Wp Texts Pagination AdminPolicies PolicyLifecycle PolicyPublish AdminOverrides.

Local Open Scope Z_scope.

(** ** Policy documents *)

Definition rule_payload (rule : PolicyRule) : PolicyRulePayload :=
  {| rp_id := Some (r_id rule); rp_description := r_description rule; rp_priority := r_priority rule;
     rp_action := action_to_string (r_action rule); rp_conditions := r_conditions rule |}.
Definition rules_from_document (doc : PolicyDocument) : list PolicyRulePayload := rule_payload <$> d_rules doc.
Definition policy_document_from_detail (detail : PolicyDetail) : PolicyDocument :=
  {| d_version := de_version detail; d_rules := de_rules detail |}.

(** Why a command fails: a request did, or the document is not valid. *)
Inductive PolicyCliError :=
  | RequestFailed (status : StatusCode)
  | PolicyInvalid (errors : list string)
  | NotConfirmed (message : string).

Section Commands.
  Context {T : Type} `{R : CategoryResolver T} `{J : SerdeJson} `{JA : !JsonArrays} `{X : Texts} `{TT : JsonText} `{B : Base64}.
  Context (taxonomy : T) (has_cache : bool) (timestamp : Z -> string).
  Abbreviation PM := (M PolicyTables PolicyEffect).

Definition asked {A} (m : PM StatusCode A) : PM PolicyCliError A := map_error RequestFailed m.
Definition requested {A} (m : PM HttpError A) : PM PolicyCliError A := map_error (fun e => RequestFailed (he_status e)) m.

(** The validation before a document is stored. *)
Definition validated (user : UserContext) (name version : string) (notes : option string) (rules : list PolicyRulePayload)
    : PM PolicyCliError unit :=
  validation ← asked (validate_policy taxonomy user
    {| dq_name := name; dq_version := Some version; dq_created_by := None; dq_notes := notes; dq_rules := rules |});
  if va_valid validation then mret tt else of_result (Err (PolicyInvalid (va_errors validation))).

Definition policy_create (user : UserContext) (doc : PolicyDocument) (name : string) (version notes : option string)
    : PM PolicyCliError PolicyDetail :=
  let target_version := default (d_version doc) version in
  let rule_payloads := rules_from_document doc in
  _ ← validated user (trim name) target_version notes rule_payloads;
  requested (create_policy taxonomy has_cache timestamp user
    {| dq_name := trim name; dq_version := Some target_version; dq_created_by := None; dq_notes := notes; dq_rules := rule_payloads |}).

Definition policy_pull (user : UserContext) (id : Uuid) : PM PolicyCliError PolicyDocument :=
  detail ← asked (get_policy user id);
  mret (policy_document_from_detail detail).

Definition policy_push (user : UserContext) (id : Uuid) (doc : PolicyDocument) (notes : option string) : PM PolicyCliError PolicyDetail :=
  detail ← asked (get_policy user id);
  let rule_payloads := rules_from_document doc in
  _ ← validated user (de_name detail) (d_version doc) notes rule_payloads;
  requested (update_policy taxonomy has_cache user id
    {| uq_name := None; uq_version := Some (d_version doc); uq_status := None; uq_notes := notes; uq_rules := Some rule_payloads |}).

Definition policy_publish (user : UserContext) (id : Uuid) (version : option string) : PM PolicyCliError PolicyDetail :=
  requested (publish_policy has_cache timestamp user id {| pq_version := version; pq_notes := None |}).

Definition policy_validate (user : UserContext) (doc : PolicyDocument) : PM PolicyCliError PolicyValidationResponse :=
  asked (validate_policy taxonomy user
    {| dq_name := "odctl-validate"; dq_version := Some (d_version doc); dq_created_by := None; dq_notes := Some "CLI validation";
       dq_rules := rules_from_document doc |}).

Definition policy_delete (user : UserContext) (id : Uuid) (yes : bool) : PM PolicyCliError unit :=
  if yes then requested (delete_policy has_cache user id)
  else of_result (Err (NotConfirmed "policy delete is destructive; rerun with --yes to confirm")).

End Commands.

(** ** Arguments of the override commands *)

Definition parse_scope (scope : string) : result string (string * string) :=
  let '(type_part, value_part) := match split_once ":" scope with Some (t, v) => (t, Some v) | None => (scope, None) end in
  let scope_type := to_ascii_lowercase (trim type_part) in
  if is_empty scope_type then Err "scope must be in the form type:value"
  else
    match value_part with
    | None => Err "scope must include a value after ':'"
    | Some v =>
        let scope_value := trim v in
        if is_empty scope_value then Err "scope must include a value after ':'"
        else if decide (scope_type = "domain") then Ok (scope_type, scope_value)
        else Err "scope type must be 'domain'"
    end.
Definition one_of (allowed : list string) (message : string) (input : string) : result string string :=
  let normalized := to_ascii_lowercase (trim input) in
  if decide (normalized ∈ allowed) then Ok normalized else Err message.
Definition normalize_override_exchange_action : string -> result string string :=
  one_of ["allow"; "block"] "action must be one of: allow, block".
Definition normalize_import_mode : string -> result string string := one_of ["merge"; "replace"] "mode must be one of: merge, replace".
Definition normalize_classification_state : string -> result string string :=
  one_of ["all"; "classified"; "unclassified"] "state must be one of: all, classified, unclassified".

(** The request of [odctl override create] and [update], the time of expiry as the API reads it. *)
Definition override_request (scope action : string) (reason : option string) (expires_at : option Z) (status : option string)
    : result string OverrideUpsertRequest :=
  '(scope_type, scope_value) ← parse_scope scope;
  Ok {| ou_scope_type := scope_type; ou_scope_value := scope_value; ou_action := to_ascii_lowercase action; ou_reason := reason;
        ou_created_by := None; ou_expires_at := expires_at; ou_status := status |}.

(** The request of [odctl override import], with what it refuses before it reads the file. *)
Definition import_arguments (action mode : string) (dry_run yes : bool) : result string (string * string) :=
  action ← normalize_override_exchange_action action;
  mode ← normalize_import_mode mode;
  if bool_decide (mode = "replace") && negb dry_run && negb yes
  then Err "replace import is destructive; pass --yes to confirm or use --dry-run"
  else Ok (action, mode).

(** ** Policies are pushed as they were pulled *)

Lemma action_round_trip a : parse_action (action_to_string a) = Ok a.
Proof. by destruct a. Qed.

Section RoundTrip.
  Context {T : Type} `{R : CategoryResolver T} `{J : SerdeJson} `{JA : !JsonArrays} `{X : Texts} `{TT : JsonText} `{B : Base64}.
  Context (taxonomy : T) (has_cache : bool) (timestamp : Z -> string).
  Abbreviation World := (Io PolicyTables PolicyEffect).
  Abbreviation world_ok := (world_ok taxonomy).

(** The checks of the API pass rules that it stored, and keep them as they are. *)
Lemma normalize_loop_exact rules : forall ps ids acc (w : World),
  NoDup (r_priority <$> rules) -> NoDup (r_id <$> rules) -> (forall r, r ∈ rules -> (r_priority r ∉ ps) /\ (r_id r ∉ ids)) ->
  Forall (fun r => r_id r <> "" /\ trim (r_id r) = r_id r) rules ->
  Forall (fun r => validate_domain_patterns (r_conditions r) = Ok tt) rules ->
  normalize_loop (rule_payload <$> rules) ps ids acc w = (Ok (acc ++ rules), w).
Proof.
  induction rules as [|r rules IH]; intros ps ids acc w Hp Hi Hn Hid Hd; cbn [fmap list_fmap normalize_loop]; [by rewrite app_nil_r|].
  cbn in Hp, Hi. apply NoDup_cons in Hp as [Hp Hps]. apply NoDup_cons in Hi as [Hi His].
  apply Forall_cons in Hid as [[Hne Htrim] Hid]. apply Forall_cons in Hd as [Hdr Hd].
  destruct (Hn r) as [Hnp Hni]; [by left|]. cbn [rp_priority rp_action rp_conditions rp_id rp_description rule_payload].
  rewrite decide_False by done. rewrite action_round_trip, Hdr. unfold of_result, mbind at 1 2 3, io_bind at 1 2 3. cbn [mret io_ret].
  rewrite Htrim. assert (is_empty (r_id r) = false) as -> by (by destruct (r_id r)). rewrite decide_False by done.
  rewrite IH; [|done|done| |done|done].
  - rewrite <- app_assoc. cbn. by destruct r.
  - intros x Hx. destruct (Hn x) as [H1 H2]; [by right|]. split.
    + intros [E|]%elem_of_cons; [|done]. apply Hp. rewrite <- E. apply list_elem_of_fmap. by exists x.
    + intros [E|]%elem_of_cons; [|done]. apply Hi. rewrite <- E. apply list_elem_of_fmap. by exists x.
Qed.
Lemma normalize_exact rules (w : World) :
  acceptable taxonomy rules -> normalize_rules (rule_payload <$> rules) w = (Ok rules, w).
Proof.
  intros [Hs Hp Hi Hn Hd _]. unfold normalize_rules. destruct rules as [|r rules]; [done|]. cbn [fmap list_fmap].
  apply (normalize_loop_exact (r :: rules) [] [] [] w); try done. intros x _. split; apply not_elem_of_nil.
Qed.
Lemma validate_exact user rules name version by_ notes (w : World) :
  acceptable taxonomy rules -> require_roles user ROLE_POLICY_EDIT = true ->
  validate_policy taxonomy user {| dq_name := name; dq_version := version; dq_created_by := by_; dq_notes := notes;
                                   dq_rules := rule_payload <$> rules |} w = (Ok {| va_valid := true; va_errors := [] |}, w).
Proof.
  intros Ha Hr. unfold validate_policy. rewrite Hr. cbn [dq_rules]. unfold outcome, mbind, io_bind. rewrite normalize_exact by done.
  unfold of_result. by rewrite (acc_categories _ _ Ha).
Qed.

Lemma get_policy_Ok user id d (w w' : World) :
  world_ok w -> get_policy user id w = (Ok d, w') ->
  io_tables w' = io_tables w /\ later w w' /\ require_roles user ROLE_POLICY_VIEW = true /\
  exists p, control (io_tables w) !! id = Some p /\ de_version d = a_version p /\ de_rules d = a_rules p /\ acceptable taxonomy (a_rules p).
Proof.
  intros Hw. unfold get_policy. destruct (require_roles user ROLE_POLICY_VIEW); [|done]. intros H.
  apply io_bind_Ok in H as (o & w1 & H1 & H). injection H as Ho <-. apply ok_or_Ok in Ho as ->.
  unfold map_error in H1. pose proof (detail_wp id w) as Hd. unfold wp in Hd.
  destruct (fetch_policy_detail id w) as [[o|e] w0]; [|done]. injection H1 as -> ->. destruct Hd as (Hl & Ht & Hd).
  split_and!; [done|done|done|]. rewrite control_find by apply (PolicyLifecycle.ok_ids _ _ _ _ (proj2 Hw)).
  destruct (find_policy id (io_tables w)) as [p|] eqn:Ef; [|done]. injection Hd as ->.
  apply find_policy_Some in Ef as [Hp <-]; [|apply (PolicyLifecycle.ok_ids _ _ _ _ (proj2 Hw))]. exists (abs (io_tables w) p).
  split_and!; [done..|]. apply (current_ok _ _ _ _ _ (proj2 Hw) Hp).
Qed.

(** Stored rules pass the validation; it fails only for the user's roles. *)
Lemma validated_exact user name version notes rules (w w1 : World) r :
  acceptable taxonomy rules -> validated taxonomy user name version notes (rule_payload <$> rules) w = (r, w1) ->
  match r with Ok _ => w1 = w | Err e => forall errors, e <> PolicyInvalid errors end.
Proof.
  intros Ha. unfold validated, asked. destruct (require_roles user ROLE_POLICY_EDIT) eqn:Hr.
  - unfold map_error, mbind, io_bind. rewrite validate_exact by done. by intros [= <- <-].
  - unfold validate_policy. rewrite Hr. by intros [= <- <-].
Qed.

(** What a successful push answers and stores. *)
Lemma push_Ok user id doc notes d (w w' : World) :
  world_ok w -> acceptable taxonomy (d_rules doc) -> policy_push taxonomy has_cache user id doc notes w = (Ok d, w') ->
  de_rules d = d_rules doc /\ world_ok w' /\
  exists p, control (io_tables w) !! id = Some p /\
    control (io_tables w') = <[id := {| a_name := a_name p; a_version := trim (d_version doc); a_status := a_status p; a_rules := d_rules doc |}]>
                               (control (io_tables w)).
Proof.
  intros Hw Ha H. unfold policy_push in H. apply io_bind_Ok in H as (d0 & w1 & H1 & H). unfold asked in H1. apply map_error_Ok in H1.
  destruct (get_policy_Ok _ _ _ _ _ Hw H1) as (Ht & Hl & _). assert (world_ok w1) as Hw1 by by eapply sound_later; [apply tables_ok_mono|..].
  apply io_bind_Ok in H as ([] & w2 & H2 & H). assert (w2 = w1) as ->.
  { by apply (validated_exact _ _ _ _ _ _ _ (Ok tt) Ha H2). }
  unfold requested in H. apply map_error_Ok in H. pose proof (update_wp taxonomy has_cache user id {| uq_name := None; uq_version := Some (d_version doc); uq_status := None; uq_notes := notes; uq_rules := Some (rules_from_document doc) |} w1 Hw1) as Hu.
  unfold answered, wp in Hu. rewrite H in Hu. destruct Hu as (Hw' & (p & rules & row & Hp & (status & Hst & Hs & _ & Hc) & Hrow & Hid & ->) & _).
  cbn in Hst, Hs, Hc. injection Hst as <-. destruct Hs as (v & v1 & Hs). unfold rules_from_document in Hs. rewrite normalize_exact in Hs by done.
  injection Hs as <- _. rewrite Ht in *. split_and!; [|done|by exists p].
  pose proof (proj2 (control_lookup _ (PolicyLifecycle.ok_ids _ _ _ _ (proj2 Hw')) id _) (ex_intro _ row (conj Hrow (conj Hid eq_refl)))) as Hl'.
  rewrite Hc, lookup_insert_eq in Hl'. by injection Hl' as _ _ _ ->.
Qed.
Lemma push_not_invalid user id doc notes (w w' : World) errors :
  acceptable taxonomy (d_rules doc) -> policy_push taxonomy has_cache user id doc notes w <> (Err (PolicyInvalid errors), w').
Proof.
  intros Ha. unfold policy_push, asked, requested, mbind, io_bind, map_error.
  destruct (get_policy user id w) as [[d|e] w1]; [|done]. cbn [map_err].
  destruct (validated _ _ _ _ _ _ w1) as [[[]|e] w2] eqn:E.
  - by destruct (update_policy _ _ _ _ _ w2) as [[]].
  - intros [= H _]. by apply (validated_exact _ _ _ _ _ _ _ (Err e) Ha E errors).
Qed.

(** C36: What [odctl policy pull] wrote is always a valid document for [odctl policy push], whoever pushes
    it, later and to any policy: the push is never turned away for its rules, and when it succeeds the
    policy has exactly the rules that were pulled and the pulled version, and no other policy changed. *)
Theorem pulled_policy_pushed user id doc (w1 w2 : World) user' id' notes (w3 : World) :
  world_ok w1 -> policy_pull user id w1 = (Ok doc, w2) -> world_ok w3 ->
  match policy_push taxonomy has_cache user' id' doc notes w3 with
  | (Ok d, w4) =>
      de_rules d = d_rules doc /\ world_ok w4 /\
      exists p, control (io_tables w3) !! id' = Some p /\
        control (io_tables w4) =
          <[id' := {| a_name := a_name p; a_version := trim (d_version doc); a_status := a_status p; a_rules := d_rules doc |}]>
            (control (io_tables w3))
  | (Err e, _) => forall errors, e <> PolicyInvalid errors
  end.
Proof.
  intros Hw1 Hpull Hw3. assert (acceptable taxonomy (d_rules doc)) as Ha.
  { apply io_bind_Ok in Hpull as (detail & w & Hg & [= <- _]). apply map_error_Ok in Hg.
    destruct (get_policy_Ok _ _ _ _ _ Hw1 Hg) as (_ & _ & _ & p & _ & _ & Hrules & Ha). cbn. by rewrite Hrules. }
  destruct (policy_push _ _ _ _ _ _ _) as [[d|e] w4] eqn:E; [by eapply push_Ok|]. intros errors ->.
  by eapply push_not_invalid.
Qed.
End RoundTrip.

(** ** Example *)

Module PolicyFiles.
#[local] Existing Instance DbDemo.json.
#[local] Existing Instance TextsDemo.base64.
#[local] Existing Instance TextsDemo.texts.
#[local] Existing Instance JsonDemo.text.
#[local] Existing Instance PolicyDemo.arrays.

(** The released policy is pulled and pushed to itself, without its version's name being changed. *)
Lemma pulled_policy_pushed_witness :
  exists doc d w4, (policy_pull PolicyDemo.admin 1%nat PolicyDemo.released).1 = Ok doc /\
    policy_push shipped true PolicyDemo.editor 1%nat doc None PolicyDemo.released = (Ok d, w4) /\
    length (de_rules d) = 2%nat /\ de_rules d = d_rules doc /\ world_ok shipped w4.
Proof.
  destruct (policy_pull PolicyDemo.admin 1%nat PolicyDemo.released) as [[doc|e] w2] eqn:E; [|vm_compute in E; discriminate E].
  destruct (policy_push shipped true PolicyDemo.editor 1%nat doc None PolicyDemo.released) as [[d|e] w4] eqn:P;
    [|exfalso; vm_compute in E; injection E as <- _; vm_compute in P; discriminate P].
  exists doc, d, w4. split; [reflexivity|]. split; [exact P|].
  assert (length (d_rules doc) = 2%nat) as Hl by (vm_compute in E; injection E as <- _; reflexivity).
  pose proof (pulled_policy_pushed shipped true PolicyDemo.admin 1%nat doc PolicyDemo.released w2 PolicyDemo.editor 1%nat None
    PolicyDemo.released PolicyDemo.released_ok E PolicyDemo.released_ok) as H.
  rewrite P in H. destruct H as (Hd & Hw & _). rewrite Hd. by split_and!.
Defined.
End PolicyFiles.
